(* ===== verification/_CoqProject ===== *)
-Q . S2P
Prelude.v
Disk.v
CString.v
CType.v
TsData.v
RamTs.v
Flash.v
FlashTs.v
FlashDurable.v
SmMsgq.v
SmMsgqConc.v
FlashAdaptor.v
LoadGpt.v
BootMode.v
BootPersist.v
Mmgr.v
Blocks.v
MmgrRefine.v
MmgrSafety.v
PowerFlow.v
PowerSafety.v
IrRecv.v
IrDecode.v
IrRc5.v
IrKeys.v
IrSafety.v
RingBuffer.v
Buttons.v
ButtonSafety.v
Crc32.v
LoadVt.v
GenImage.v
UbootMmc.v
UbootSlots.v
SynaBoot.v
SynaLoad.v
SynaFailover.v
SynaSafety.v
Cec.v
CecSafety.v
CecFlow.v
EmmcText.v
EmmcBurn.v
EmmcLists.v
EmmcWrite.v
EmmcImages.v
EmmcParts.v
EmmcInstall.v
ParsePt.v
PtConfig.v
PtInstall.v
MemRegion.v
MemSafety.v
FdtUpdate.v
FdtSafety.v
Printf.v
PrintfSafety.v
SmModules.v
SmModulesSafety.v
PvComp.v
PvSafety.v
