(* ===== verification/Prelude.v ===== *)
(** * Verification of the Synaptics boot loader

    ** The program

    The repository is the boot chain of a Synaptics SoC.  Three programs of it
    run on the device and share memory and flash:
    - the System Manager (SM), firmware of a Cortex-M3 that stays powered in
      standby (boot/bootloader/sm_cm3/syna over FreeRTOS): it sequences the
      power of the SoC, receives the remote control and the buttons, and talks to
      the SoC over two message queues in shared memory;
    - the boot stages of the SoC (boot/common): drivers, a small C library, the
      flash adaptor, partition tables, the transactional stores that keep
      settings, the choice of boot mode and of the A/B slot, the memory manager;
    - U-Boot with the Synaptics platform code (boot/u-boot_2019_10,
      arch/arm/mach-synaptics).
    The tools under build/tools/src/executables make the images and tables that
    the device reads.  FreeRTOS, U-Boot proper and the register headers are
    vendored or generated.

    ** Conventions

    A w-bit integer is a [Z] with its wrap-around written out ([u8], [u16],
    [u32], [u64], [i32]); a C object is the list of its bytes, a pointer that is
    read is the suffix of its object and one that is written an object and an
    offset.  An access outside the object, or through NULL, is undefined and
    makes the result [None]; a theorem that gives [Some] therefore shows that
    there is none.  Static variables are records that the operations thread
    through; hardware effects and sent messages are recorded in the state.  A
    hardware driver is a record or a class of operations: what it promises is
    stated as a class of laws ([ReliableEmmc], [ReliableAdaptor], [ReliableBlk]), and a RAM
    device is an instance of each.  Theorems about errors hold for every driver,
    theorems about what survives for a reliable one.  A claim of the manifest has
    its number in the comment above it; a theorem with hypotheses is followed, at
    the end of its file, by a witness at a concrete input.

    ** The files

    Shared: this file (machine integers, byte buffers, little-endian numbers,
    the tactics [bool_simpl], [inv_bind], [inv_bytes], [len] and the hint
    databases [boot] and [boot_len]) and Disk (the contents of a device).

    Printing: Printf (driver/uart/vsnprintf.c and printf.c of the boot stages,
    sm_printf.c of the System Manager) and PrintfSafety: the text of a format as a
    function of its pieces, both routines print it, on such formats that of the boot stages never
    leaves its buffer, and a printed number is read back by [strtoul].

    C library: CString (boot/common/lib/string.c, every function loop by loop)
    and CType (ctype.c, [str2ul], [strtoul]): agreement with the mathematical
    functions, and of the two number parsers with each other.

    Stores: TsData (the key=value record that flash_ts.c and ram_ts.c share, and
    the association list it represents), RamTs (ram_ts.c), Flash (the block
    driver), FlashTs (flash_ts.c, emmc_drv.c) and FlashDurable.  The updates
    refine those of an association list; a failed update leaves the store as it
    was, whatever the device does; what was set is found after a restart.

    Messages: SmMsgq (sm_comm.c of both processors, sm_rt_module.c, sm_main.c)
    has the operations as functions, SmMsgqConc as two machines that do one load
    or store at a time.  Under every interleaving in which no send begins between
    the two stores that take the read index round the ring, messages arrive in order
    and unchanged; otherwise one can be lost, which is a theorem too.

    Flash and partitions: FlashAdaptor (flash_adaptor.c), LoadGpt (load_gpt.c),
    LoadVt (load_vt.c), Crc32 (crc32.c and the tool crc), GenImage (the tool
    genimg, load_gih.c).  Loading is total, stays within its tables and succeeds
    exactly for a good header, an image is read only inside its partition and
    written only at its blocks (of hardware partition 0), the checksum equals the
    bit-by-bit one and detects every change within four bytes, the version table is
    loaded from its first good copy, and a file packed by genimg is read back under
    its id.

    Boot decisions: BootMode (boot_mode.c, boot_devinfo.c) and BootPersist: the
    bootable slot of higher priority is chosen, the recovery and fastboot modes and
    the slot metadata survive a restart, and a device that never boots successfully
    runs out of attempts, which are counted on the flash from power cycle to power
    cycle.

    Memory manager: Mmgr (mmgr.c: node pool and two doubly linked lists), Blocks
    (the abstract allocator and its invariant), MmgrRefine (simulation),
    MmgrSafety (what a client sees: blocks are apart and add up to the arena, as long
    as the code does not read through NULL, and when it does).

    Power: PowerFlow (sm_power_flow.c, sm_power_timer.c, sm_power_op.c,
    sm_state.c and the callers that request a flow) and PowerSafety, over every
    sequence of task calls, messages, timers and interrupts: the state variables
    fit together, the reset is released only on stable power, suspend waits for
    the SoC, flows end.  SmModules (sm_wdt.c, sm_led.c, sm_temperature.c,
    sm_power_wol.c, sm_power_uart.c) has the modules that the power module tells its
    flow and that request flows themselves, and composes them, the remote control, the
    buttons and CEC with it; SmModulesSafety: the invariants of the power module hold
    whatever these callers do, a magic packet wakes
    the system up whenever it rests in standby, the temperature is accurate and its
    arithmetic does not overflow, and after suspend and resume the watchdog of the SoC
    is left alone.

    Input: IrRecv (circular buffer, interrupt handler, NEC, TC9012 and RC5
    decoders), IrDecode and IrRc5 (a frame is decoded to the code that was sent
    under every interleaving of interrupts and polls), IrKeys (key tables, key
    tracking, the task) and IrSafety (events are bracketed; a press wakes the
    system through PowerFlow); Buttons and ButtonSafety (sm_gpiobtn.c,
    sm_adcbtn.c: a press acts once, bounces do not).

    HDMI-CEC: Cec (cec/sm_cec.c and cec/cec_srv.c: queues, interrupt handler,
    task, frames, services, messages), CecSafety (over every sequence of
    interrupts, task rounds and messages the queues and buffers keep their shape)
    and CecFlow (a message that is not acknowledged is given up after six
    attempts; how the task can wait for ever; broadcasts are not answered, unknown
    opcodes are refused, and an <Active Source> wakes the system through PowerFlow
    and reaches the SoC).

    Console: RingBuffer (mach-synaptics/drivers/usbconsole): a lossless stream.

    U-Boot: UbootMmc (mach-synaptics/misc.c and the readers of fastboot_syna.c:
    partitions by name, reads at an offset), UbootSlots (the A/B slots of
    fastboot_syna.c), SynaBoot (cmd/syna_boot.c, drivers/plat/sm.c), SynaLoad
    (what is loaded and what bootm gets), SynaFailover and SynaSafety.  U-Boot's
    block layer is a record of operations with two classes of laws:
    [ReliableBlk], for what a working device gives, and [BoundedBlk], which any
    device meets.  U-Boot chooses the slot that the boot stage chose, up to the
    two cases where the files disagree; a slot made active is the one that
    boots; a board with one good slot boots it after at most 128 resets, unless
    the priorities wrap; loading stays inside its buffer on any device.

    Installation: EmmcText (the text routines of mach-synaptics/cmd/emmcburn.c),
    EmmcBurn (its device access, partition table, burning and commands),
    EmmcLists (what the parsers make of a list of partitions and of images),
    EmmcWrite (a successful write is on the device, whatever that did; the laws
    [TruthfulReads] and [ReliableBurner]), EmmcImages (a list of images is burnt),
    EmmcParts (the law [PartitioningBurner] of gpt_restore(); from the two lists
    to the images in their partitions) and EmmcInstall (a device in memory with a
    partition table as bytes; what was burnt is what the boot commands read; what
    happens after partitioning twice, for a partition that is not there, an image
    that is too large, a list of another kind).

    The partition tool: ParsePt (tools/src/executables/parse_pt_emmc/parse_pt.c,
    from the text of a configuration to the six files), PtConfig (a configuration
    with sizes in MiB and at most one "-": its partitions lie one behind the other
    from 16 MiB on, and the list of partitions is theirs) and PtInstall (the lists,
    installed by U-Boot, put every image where the version table of the same run
    has it; the version table itself, sealed by the tool crc, is misread by
    load_vt.c, whose entries are four bytes longer; configurations for which the
    files contradict each other).

    Voltages: PvComp (boot/common/driver/pv_comp/pv_compensation.c and the drivers of
    nine regulators, i2c/i2c_pvd_*.c and pwm/fp6359.c, over the class [I2cBus]) and
    PvSafety: on any bus seven of the regulators are moved in steps between the two
    voltages and every change ends; under the law [ReliableI2c] both rails end where the tables have them;
    the drivers that tell or read a wrong voltage.

    Handing over to the kernel: MemRegion (mach-synaptics/drivers/plat/mr_syna.c
    and mem.c: what memory the trusted OS reports, the two pools made from it, the
    memory map), MemSafety (blocks of the pools lie inside their regions if the
    cacheable one has 128 MiB, and do not if it is smaller), FdtUpdate
    (cmd/fdt_update.c and the voltage tables of drivers/pmic: the device tree and the
    command line that the kernel gets) and FdtSafety (the memory nodes under the law
    [FdtLaws] of libfdt; which reservations the kernel sees; the voltages).

    ** Bounds and fuel

    Loops over a buffer are structural.  Where C loops on a condition the
    definition takes fuel, and a lemma next to it shows that the fuel given is
    enough: one round per byte for the key search and the checksum in chunks, one
    per chunk of the partition for the scan and the commit, 200 (the nodes of the
    pool) for the list walks of the memory manager, 33 for the version table
    (the 33rd round leaves the table), 256 for the retries of syna_boot (one per
    try, a byte), one round per block for the verification of a write, one per
    byte for the lines of a list and of a device tree, one per character of a format
    and 40 (the size of the buffer) for the digits of a number, one per step between two
    voltages.  Times are milliseconds below 2^31 or 2^32
    as the theorem says; the theorems about wrapping sizes state where 32 bits
    are not enough.

    ** Not modelled

    Register programming (PLLs, DDR, video, USB, SPI, I2C, eMMC controllers,
    ADC set-up, one reading of the temperature sensor): what it does is outside C.  The
    log messages of the modelled functions.  The XMP
    infrared decoder, which uses soft-float arithmetic.  Command-line parsing of
    the tools.  The Android boot control, the fixed SPI partition table and the
    device-tree updates of the boot stages.  FreeRTOS scheduling: a task round and an interrupt are
    atomic except in SmMsgqConc.  Left out too: the GPIO and timer
    drivers of the SM, the image list of older boot partitions (its header is not in the
    repository), the SPI image writer of U-Boot, the NAND form of the partition
    tool and the other build tools. *)

From Stdlib Require Export ZArith Lia Bool.
From stdpp Require Export base list numbers option.

Open Scope Z_scope.

(** ** Machine integers

    A w-bit unsigned integer is a [Z] kept in [0, 2^w); the wrap-around of C
    is written out with the functions below. *)

Definition u8 (x : Z) : Z := x mod 2 ^ 8.
Definition u16 (x : Z) : Z := x mod 2 ^ 16.
Definition u32 (x : Z) : Z := x mod 2 ^ 32.
Definition u64 (x : Z) : Z := x mod 2 ^ 64.

(** Conversion to a signed 32-bit [int] (two's complement). *)
Definition i32 (x : Z) : Z := (x + 2 ^ 31) mod 2 ^ 32 - 2 ^ 31.

Definition is_u8 (x : Z) : Prop := 0 <= x < 2 ^ 8.
Definition is_u32 (x : Z) : Prop := 0 <= x < 2 ^ 32.
Definition is_i32 (x : Z) : Prop := - 2 ^ 31 <= x < 2 ^ 31.

Create HintDb boot.

Lemma u8_range x : is_u8 (u8 x).
Proof. apply Z.mod_pos_bound; lia. Qed.

Lemma u32_range x : is_u32 (u32 x).
Proof. apply Z.mod_pos_bound; lia. Qed.

Lemma u8_id x : is_u8 x -> u8 x = x.
Proof. apply Z.mod_small. Qed.

Lemma u32_id x : is_u32 x -> u32 x = x.
Proof. apply Z.mod_small. Qed.

Lemma u64_id x : 0 <= x < 2 ^ 64 -> u64 x = x.
Proof. apply Z.mod_small. Qed.

Lemma i32_id x : is_i32 x -> i32 x = x.
Proof. unfold is_i32, i32; intros; rewrite Z.mod_small; lia. Qed.

Lemma i32_range x : is_i32 (i32 x).
Proof.
  unfold is_i32, i32. pose proof (Z.mod_pos_bound (x + 2 ^ 31) (2 ^ 32)). lia.
Qed.

#[export] Hint Resolve u8_range u32_range i32_range : boot.

(** Two bytes are equal exactly when their difference wraps to zero. *)
Lemma u8_sub_0 a b : is_u8 a -> is_u8 b -> u8 (a - b) = 0 <-> a = b.
Proof.
  unfold is_u8, u8; intros Ha Hb; split; [|intros ->; now rewrite Z.sub_diag].
  intros H. destruct (Z.lt_trichotomy a b) as [Hlt|[?|Hlt]]; [|done|].
  - rewrite <- (Z_mod_plus_full (a - b) 1), Z.mod_small in H; lia.
  - rewrite Z.mod_small in H; lia.
Qed.

Lemma u8_sub_neq a b : is_u8 a -> is_u8 b -> a <> b -> (u8 (a - b) =? 0) = false.
Proof. intros Ha Hb Hn. apply Z.eqb_neq. rewrite u8_sub_0; done. Qed.

Lemma is_u8_0 : is_u8 0.
Proof. unfold is_u8; lia. Qed.

Lemma is_u8_u32 x : is_u8 x -> is_u32 x.
Proof. unfold is_u8, is_u32; lia. Qed.

#[export] Hint Resolve is_u8_0 is_u8_u32 : boot.

(** Bitwise operations stay within the width. *)
Lemma lxor_u32 a b : is_u32 a -> is_u32 b -> is_u32 (Z.lxor a b).
Proof.
  unfold is_u32. intros Ha Hb. assert (0 <= Z.lxor a b) by (apply Z.lxor_nonneg; lia).
  split; [done|]. destruct (Z.eq_dec (Z.lxor a b) 0) as [->|Hne]; [lia|].
  apply Z.log2_lt_pow2; [lia|]. pose proof (Z.log2_lxor a b ltac:(lia) ltac:(lia)).
  assert (forall x, 0 <= x < 2 ^ 32 -> Z.log2 x < 32) as Hlog.
  { intros x Hx. destruct (Z.eq_dec x 0) as [->|]; [done|]. apply Z.log2_lt_pow2; lia. }
  pose proof (Hlog a Ha). pose proof (Hlog b Hb). lia.
Qed.

(** ** Tactics *)

(** Split a boolean condition of the code into the propositions it decides. *)
Ltac bool_simpl :=
  repeat match goal with
  | H : (_ && _)%bool = true |- _ => apply andb_true_iff in H; destruct H
  | H : (_ || _)%bool = false |- _ => apply orb_false_iff in H; destruct H
  | H : negb _ = true |- _ => apply negb_true_iff in H
  | H : negb _ = false |- _ => apply negb_false_iff in H
  | H : (_ =? _) = true |- _ => apply Z.eqb_eq in H
  | H : (_ =? _) = false |- _ => apply Z.eqb_neq in H
  | H : (_ <? _) = true |- _ => apply Z.ltb_lt in H
  | H : (_ <? _) = false |- _ => apply Z.ltb_ge in H
  | H : (_ <=? _) = true |- _ => apply Z.leb_le in H
  | H : (_ <=? _) = false |- _ => apply Z.leb_gt in H
  end.

(** Side conditions about single bytes. *)
Ltac solve_byte := solve [assumption | congruence | auto with boot | unfold is_u8 in *; lia].

(** Lengths of compound lists, then linear arithmetic. *)
Lemma length_nil' {A} : length ([] : list A) = 0%nat.
Proof. done. Qed.

Lemma length_cons' {A} (x : A) l : length (x :: l) = S (length l).
Proof. done. Qed.

Lemma fold_left_cons {A B} (f : A -> B -> A) b l a :
  fold_left f (b :: l) a = fold_left f l (f a b).
Proof. done. Qed.

Create HintDb boot_len.
#[export] Hint Rewrite @length_nil' @length_cons' @length_app @length_take @length_drop
  @length_replicate @length_insert @length_fmap @List.length_map : boot_len.

Ltac len := autorewrite with boot_len in *; lia.

(** Invert binds of the option monad in the hypotheses. *)
Ltac inv_bind :=
  repeat match goal with
  | H : mbind _ ?o = Some _ |- _ =>
      let E := fresh "E" in destruct o eqn:E; simpl in H; [|discriminate H]
  | H : Some _ = Some _ |- _ => injection H as H; subst
  | H : None = Some _ |- _ => discriminate H
  end.

(** ** Byte buffers

    A C object is the list of its bytes.  A pointer into it that is only read
    is the suffix of the object that starts there; a pointer that is written
    through is the object with an offset.  Reading or writing past the end of
    an object is undefined behaviour and is modelled by [None]. *)

Abbreviation bytes := (list Z).

Definition is_bytes (l : bytes) : Prop := Forall is_u8 l.

(** A C string without its terminator has no NUL byte. *)
Definition no_nul (s : bytes) : Prop := Forall (fun c => c <> 0) s.

Lemma is_bytes_cons c l : is_bytes (c :: l) <-> is_u8 c /\ is_bytes l.
Proof. apply Forall_cons_iff. Qed.

Lemma is_bytes_app l1 l2 : is_bytes (l1 ++ l2) <-> is_bytes l1 /\ is_bytes l2.
Proof. apply Forall_app. Qed.

Lemma no_nul_cons c l : no_nul (c :: l) <-> c <> 0 /\ no_nul l.
Proof. apply Forall_cons_iff. Qed.

Lemma no_nul_app l1 l2 : no_nul (l1 ++ l2) <-> no_nul l1 /\ no_nul l2.
Proof. apply Forall_app. Qed.

(** A 32-bit field in memory is little-endian. *)
Definition le32 (x : Z) : bytes :=
  [u8 x; u8 (Z.shiftr x 8); u8 (Z.shiftr x 16); u8 (Z.shiftr x 24)].

Lemma le32_bytes x : is_bytes (le32 x).
Proof. unfold le32. repeat (constructor; [apply u8_range|]). constructor. Qed.

(** Little-endian fields of any size, and the one at an offset of an object. *)
Definition le_val (b : bytes) : Z := fold_right (fun c acc => c + 256 * acc) 0 b.
Definition field (b : bytes) (off n : nat) : Z := le_val (take n (drop off b)).

(** Take [is_bytes] and [no_nul] hypotheses of compound lists apart. *)
Ltac inv_bytes :=
  repeat match goal with
  | H : is_bytes (_ :: _) |- _ => apply is_bytes_cons in H as [? ?]
  | H : is_bytes (_ ++ _) |- _ => apply is_bytes_app in H as [? ?]
  | H : no_nul (_ :: _) |- _ => apply no_nul_cons in H as [? ?]
  | H : no_nul (_ ++ _) |- _ => apply no_nul_app in H as [? ?]
  end.

Definition wr (m : bytes) (i : nat) (v : Z) : option bytes :=
  if decide (i < length m)%nat then Some (<[i := v]> m) else None.

(** [splice m d l]: the object [m] with [l] stored from offset [d] on. *)
Definition splice (m : bytes) (d : nat) (l : bytes) : bytes :=
  take d m ++ l ++ drop (d + length l) m.

Section Buffers.
Implicit Types (m l : bytes) (d i : nat).

Lemma wr_Some m i v : (i < length m)%nat -> wr m i v = Some (<[i := v]> m).
Proof. intros; unfold wr; now rewrite decide_True. Qed.

Lemma wr_None m i v : (length m <= i)%nat -> wr m i v = None.
Proof. intros; unfold wr; rewrite decide_False; [done|lia]. Qed.

Lemma length_wr m i v m' : wr m i v = Some m' -> length m' = length m.
Proof. unfold wr; case_decide; intros; simplify_eq; apply length_insert. Qed.

Lemma length_splice m d l :
  (d + length l <= length m)%nat -> length (splice m d l) = length m.
Proof. intros; unfold splice; rewrite !length_app, length_take, length_drop; lia. Qed.

Lemma splice_nil m d : splice m d [] = m.
Proof. unfold splice; simpl; rewrite Nat.add_0_r; apply take_drop. Qed.

Lemma insert_splice m d v : (d < length m)%nat -> <[d := v]> m = splice m d [v].
Proof.
  intros; unfold splice; simpl. rewrite insert_take_drop by lia.
  now rewrite Nat.add_1_r.
Qed.

Lemma splice_cons m d v l :
  (d + length l < length m)%nat ->
  splice (<[d := v]> m) (S d) l = splice m d (v :: l).
Proof.
  intros; unfold splice.
  rewrite (take_S_r _ _ v) by (apply list_lookup_insert_eq; lia).
  rewrite take_insert_ge by lia. rewrite drop_insert_lt by lia.
  simpl. rewrite <- app_assoc. simpl. do 3 f_equal. f_equal. lia.
Qed.

Lemma splice_lookup_old m d l i :
  (d + length l <= length m)%nat ->
  (i < d \/ d + length l <= i)%nat -> splice m d l !! i = m !! i.
Proof.
  intros; unfold splice. destruct (decide (i < d)%nat).
  - rewrite lookup_app_l by (rewrite length_take; lia). apply lookup_take_lt; lia.
  - rewrite lookup_app_r by (rewrite length_take; lia).
    rewrite length_take, lookup_app_r by lia.
    rewrite lookup_drop. f_equal; lia.
Qed.

Lemma splice_lookup_new m d l i :
  (d + length l <= length m)%nat ->
  (d <= i < d + length l)%nat -> splice m d l !! i = l !! (i - d)%nat.
Proof.
  intros; unfold splice.
  rewrite lookup_app_r by (rewrite length_take; lia).
  rewrite length_take, lookup_app_l by lia. f_equal; lia.
Qed.

(** Splicing in the middle of a concatenation. *)
Lemma splice_app pre old post l :
  length l = length old -> splice (pre ++ old ++ post) (length pre) l = pre ++ l ++ post.
Proof.
  intros Hl; unfold splice. rewrite take_app_length, Hl.
  rewrite <- length_app, (app_assoc pre old post), drop_app_length. done.
Qed.

(** Two adjacent stores are one. *)
Lemma splice_splice m d l1 l2 :
  (d + length l1 + length l2 <= length m)%nat ->
  splice (splice m d l1) (d + length l1) l2 = splice m d (l1 ++ l2).
Proof.
  intros H. apply list_eq. intros i.
  assert (L : length (splice m d l1) = length m) by (apply length_splice; lia).
  destruct (decide (d <= i < d + length l1 + length l2)%nat).
  - rewrite (splice_lookup_new m d (l1 ++ l2)) by (rewrite ?length_app; lia).
    destruct (decide (i < d + length l1)%nat).
    + rewrite splice_lookup_old, splice_lookup_new by lia.
      rewrite lookup_app_l by lia. done.
    + rewrite splice_lookup_new by lia. rewrite lookup_app_r by lia. f_equal; lia.
  - rewrite (splice_lookup_old m d (l1 ++ l2)) by (rewrite ?length_app; lia).
    rewrite !splice_lookup_old by lia. done.
Qed.

Lemma splice_bytes m d l : is_bytes m -> is_bytes l -> is_bytes (splice m d l).
Proof. intros; unfold splice; repeat apply Forall_app_2; auto using Forall_take, Forall_drop. Qed.

End Buffers.

(** ** Little-endian numbers *)

Definition le64 (x : Z) : bytes := le32 (u32 x) ++ le32 (Z.shiftr x 32).

Lemma le_val_bound w : is_bytes w -> 0 <= le_val w < 256 ^ Z.of_nat (length w).
Proof.
  induction w as [|b w IH]; intros Hw; [cbn; lia|]. apply is_bytes_cons in Hw as [Hb Hw]. specialize (IH Hw).
  unfold le_val. cbn [fold_right]. fold (le_val w). rewrite length_cons', Nat2Z.inj_succ, Z.pow_succ_r by lia.
  unfold is_u8 in Hb. lia.
Qed.

Lemma le_val_inj w : forall w', is_bytes w -> is_bytes w' -> length w = length w' -> le_val w = le_val w' -> w = w'.
Proof.
  induction w as [|b w IH]; intros [|b' w'] Hw Hw' Hl E; try done. inv_bytes. cbn [length] in Hl.
  unfold le_val in E. cbn [fold_right] in E. fold (le_val w) (le_val w') in E. unfold is_u8 in *.
  assert (b = b' /\ le_val w = le_val w') as [-> E'] by lia. f_equal. apply IH; [done..|lia|done].
Qed.

Lemma le_val_le32 r : is_u32 r -> le_val (le32 r) = r.
Proof.
  intros Hr. unfold le32, le_val, u8. cbn [fold_right]. rewrite !Z.shiftr_div_pow2 by lia.
  unfold is_u32 in Hr. change (2 ^ 8) with 256. change (2 ^ 16) with (256 * 256). change (2 ^ 24) with (256 * 256 * 256).
  Z.div_mod_to_equations. lia.
Qed.

Lemma le_val_app a b : le_val (a ++ b) = le_val a + 256 ^ Z.of_nat (length a) * le_val b.
Proof.
  unfold le_val. induction a as [|x a IH]; [cbn [app length fold_right]; lia|]. cbn [app fold_right].
  rewrite IH, length_cons', Nat2Z.inj_succ, Z.pow_succ_r by lia. lia.
Qed.

Lemma le_val_le64 x : 0 <= x < 2 ^ 64 -> le_val (le64 x) = x.
Proof.
  intros Hx. unfold le64. rewrite le_val_app, !le_val_le32 by (apply u32_range ||
    (unfold is_u32; rewrite Z.shiftr_div_pow2 by lia; split; [apply Z.div_pos; lia|apply Z.div_lt_upper_bound; lia])).
  change (256 ^ Z.of_nat (length (le32 (u32 x)))) with (2 ^ 32). rewrite Z.shiftr_div_pow2 by lia.
  unfold u32. pose proof (Z.div_mod x (2 ^ 32)). lia.
Qed.

Lemma field_nonneg b off n : is_bytes b -> 0 <= field b off n.
Proof. intros Hb. apply le_val_bound. now apply Forall_take, Forall_drop. Qed.

Lemma field_app b tail off n : (off + n <= length b)%nat -> field (b ++ tail) off n = field b off n.
Proof.
  intros Hl. unfold field. f_equal. rewrite drop_app_le by lia. rewrite take_app_le; [done|]. rewrite length_drop. lia.
Qed.

(** Bytes of a concrete list. *)
Lemma sample_bytes_ok (l : bytes) : forallb (fun x => (0 <=? x) && (x <? 256)) l = true -> is_bytes l.
Proof.
  intros H. rewrite forallb_forall in H. apply List.Forall_forall. intros x Hx. apply H in Hx. bool_simpl. unfold is_u8. lia.
Qed.
