(* ===== verification/Disk.v ===== *)
(** * Contents of a device

    The contents of a device are a function from addresses to bytes; a read is
    a range of it and a write an update. *)

From S2P Require Import Prelude.

Definition rng (f : Z -> Z) (a : Z) (n : nat) : bytes :=
  map (fun i => f (a + Z.of_nat i)) (seq 0 n).

Definition upd (f : Z -> Z) (a : Z) (l : bytes) (x : Z) : Z :=
  if (a <=? x) && (x <? a + Z.of_nat (length l)) then nth (Z.to_nat (x - a)) l 0 else f x.

(** ** Facts about ranges *)

Lemma length_rng f a n : length (rng f a n) = n.
Proof. unfold rng. by rewrite List.length_map, length_seq. Qed.

#[export] Hint Rewrite length_rng : boot_len.

Lemma rng_ext f g a n :
  (forall x, a <= x < a + Z.of_nat n -> f x = g x) -> rng f a n = rng g a n.
Proof.
  intros H. unfold rng. apply map_ext_in. intros i Hi%in_seq. apply H. lia.
Qed.

Lemma rng_lookup f a n i : (i < n)%nat -> rng f a n !! i = Some (f (a + Z.of_nat i)).
Proof.
  intros Hi. unfold rng. rewrite list_lookup_fmap, lookup_seq_lt by done. done.
Qed.

Lemma upd_same f a l : rng (upd f a l) a (length l) = l.
Proof.
  apply list_eq. intros i. destruct (decide (i < length l)%nat) as [Hi|Hi].
  - rewrite rng_lookup by done. unfold upd.
    rewrite (proj2 (Z.leb_le _ _)), (proj2 (Z.ltb_lt _ _)) by lia. simpl.
    replace (Z.to_nat (a + Z.of_nat i - a)) with i by lia.
    destruct (lookup_lt_is_Some_2 l i Hi) as [x Hx]. rewrite Hx. f_equal.
    by apply nth_lookup_Some.
  - rewrite !lookup_ge_None_2 by len. done.
Qed.

Lemma upd_out f a l x : x < a \/ a + Z.of_nat (length l) <= x -> upd f a l x = f x.
Proof.
  intros H. unfold upd. destruct (Z.leb_spec a x), (Z.ltb_spec x (a + Z.of_nat (length l)));
    simpl; done || lia.
Qed.

(** Two adjacent updates are one. *)
Lemma upd_app f a l1 l2 x :
  upd (upd f a l1) (a + Z.of_nat (length l1)) l2 x = upd f a (l1 ++ l2) x.
Proof.
  destruct (Z.lt_ge_cases x a); [rewrite !upd_out by lia; done|].
  destruct (Z.lt_ge_cases x (a + Z.of_nat (length l1))).
  - rewrite (upd_out _ (a + _)) by lia. unfold upd.
    rewrite (proj2 (Z.leb_le a x)), !(proj2 (Z.ltb_lt _ _)) by len. simpl.
    rewrite app_nth1 by lia. done.
  - destruct (Z.lt_ge_cases x (a + Z.of_nat (length (l1 ++ l2)))).
    + unfold upd at 1 3.
      rewrite !(proj2 (Z.leb_le _ _)), !(proj2 (Z.ltb_lt _ _)) by len. simpl.
      rewrite app_nth2 by lia. f_equal. lia.
    + rewrite !upd_out by len. done.
Qed.

Lemma rng_app f a n m : rng f a (n + m) = rng f a n ++ rng f (a + Z.of_nat n) m.
Proof.
  unfold rng. rewrite seq_app, map_app. f_equal. simpl.
  rewrite <- (Nat.add_0_r n) at 1. rewrite <- (fmap_add_seq n 0 m). rewrite map_map.
  apply map_ext. intros i. f_equal. lia.
Qed.

(** A part of a range. *)
Lemma rng_sub f a n d m : (d + m <= n)%nat -> take m (drop d (rng f a n)) = rng f (a + Z.of_nat d) m.
Proof.
  intros Hn. replace n with (d + (m + (n - d - m)))%nat by lia. rewrite !rng_app.
  rewrite drop_app_length' by (now rewrite length_rng). rewrite take_app_length' by (now rewrite length_rng). done.
Qed.

Lemma rng_bytes f a n : (forall x, is_u8 (f x)) -> is_bytes (rng f a n).
Proof. intros H. unfold rng. apply List.Forall_map. apply List.Forall_forall. auto. Qed.

Lemma nth_replicate_lt i n (x y : Z) : (i < n)%nat -> nth i (replicate n x) y = x.
Proof. intros Hi. apply nth_lookup_Some. by apply lookup_replicate_2. Qed.

Lemma u8_upd f a l x : is_bytes l -> u8 (upd f a l x) = upd (fun x => u8 (f x)) a l x.
Proof.
  intros Hl. unfold upd. destruct ((a <=? x) && (x <? a + Z.of_nat (length l))) eqn:E; [|done].
  bool_simpl. destruct (lookup_lt_is_Some_2 l (Z.to_nat (x - a))) as [y Hy]; [lia|].
  rewrite (nth_lookup_Some _ _ _ _ Hy). apply u8_id. eapply Forall_lookup_1; [exact Hl|exact Hy].
Qed.
