(* ===== verification/CString.v ===== *)
(** * The C string library of the boot loader (boot/common/lib/string.c)

    Every function of string.c is translated loop by loop over byte buffers:
    a pointer that is read is the suffix of its object ([None] for NULL), and
    a read or write past the end of the object is the result [None].  Plain
    [char] is unsigned, as in the ARM procedure call standard: the [char res]
    of [strcmp] and [strncmp] wraps at 8 bits. *)

From S2P Require Import Prelude.

(** ** Reading *)

(** The loop of [strlen]: [while ( *str++ != 0) ++len]. *)
Fixpoint strlen_loop (str : bytes) : option nat :=
  match str with
  | [] => None
  | c :: str' => if c =? 0 then Some 0%nat else n ← strlen_loop str'; Some (S n)
  end.

Definition strlen (str : option bytes) : option nat :=
  match str with
  | None => Some 0%nat
  | Some s => strlen_loop s
  end.

(** [while (maxsize-- && ( *str++ != 0)) ++maxlen]: the count is tested before
    the byte is read. *)
Fixpoint strnlen_loop (str : bytes) (maxsize : nat) {struct maxsize} : option nat :=
  match maxsize with
  | O => Some 0%nat
  | S m =>
      match str with
      | [] => None
      | c :: str' => if c =? 0 then Some 0%nat else n ← strnlen_loop str' m; Some (S n)
      end
  end.

Definition strnlen (str : option bytes) (maxsize : nat) : option nat :=
  match str with
  | None => Some 0%nat
  | Some s => strnlen_loop s maxsize
  end.

(** [if ((res = *str1 - *str2++) != 0 || !*str1++) break;] *)
Fixpoint strcmp (str1 str2 : bytes) : option Z :=
  match str1, str2 with
  | a :: str1', b :: str2' =>
      let res := u8 (a - b) in
      if negb (res =? 0) || (a =? 0) then Some res else strcmp str1' str2'
  | _, _ => None
  end.

Fixpoint strncmp_loop (res : Z) (str1 str2 : bytes) (size : nat) {struct size} : option Z :=
  match size with
  | O => Some res
  | S n =>
      match str1, str2 with
      | a :: str1', b :: str2' =>
          let res := u8 (a - b) in
          if negb (res =? 0) || (a =? 0) then Some res else strncmp_loop res str1' str2' n
      | _, _ => None
      end
  end.

Definition strncmp (str1 str2 : bytes) (size : nat) : option Z :=
  strncmp_loop 0 str1 str2 size.

(** [strchr]: the result is the offset from [str], or [Some None] for NULL. *)
Fixpoint strchr_loop (str : bytes) (c : Z) (off : nat) : option (option nat) :=
  match str with
  | [] => None
  | a :: str' =>
      if a =? c then Some (Some off)
      else if a =? 0 then Some None
      else strchr_loop str' c (S off)
  end.

Definition strchr (str : option bytes) (c : Z) : option (option nat) :=
  match str with
  | None => Some None
  | Some s => strchr_loop s (u8 c) 0
  end.

Fixpoint memchr_loop (str : bytes) (c : Z) (n off : nat) {struct n} : option (option nat) :=
  match n with
  | O => Some None
  | S n' =>
      match str with
      | [] => None
      | a :: str' => if c =? a then Some (Some off) else memchr_loop str' c n' (S off)
      end
  end.

Definition memchr (str : option bytes) (c : Z) (n : nat) : option (option nat) :=
  match str with
  | None => Some None
  | Some s => memchr_loop s (u8 c) n 0
  end.

(** [memcmp] starts from [res = 1]: it answers 1, not 0, on an empty area. *)
Fixpoint memcmp_loop (res : Z) (str1 str2 : bytes) (size : nat) {struct size} : option Z :=
  match size with
  | O => Some res
  | S n =>
      match str1, str2 with
      | a :: str1', b :: str2' =>
          let res := a - b in
          if negb (res =? 0) then Some res else memcmp_loop res str1' str2' n
      | _, _ => None
      end
  end.

Definition memcmp (str1 str2 : option bytes) (size : nat) : option Z :=
  match str1, str2 with
  | Some s1, Some s2 => memcmp_loop 1 s1 s2 size
  | _, _ => Some 1
  end.

(** The search loop of [strstr]: [len1] counts the bytes left in [str1]. *)
Fixpoint strstr_loop (fuel : nat) (str1 str2 : bytes) (len1 len2 off : nat) : option (option nat) :=
  match fuel with
  | O => Some None
  | S f =>
      if (len1 <? len2)%nat then Some None
      else r ← memcmp (Some str1) (Some str2) len2;
           if r =? 0 then Some (Some off)
           else match str1 with
                | [] => None
                | _ :: str1' => strstr_loop f str1' str2 (len1 - 1) len2 (S off)
                end
  end.

Definition strstr (str1 : option bytes) (str2 : bytes) : option (option nat) :=
  match str1 with
  | None => Some None
  | Some s1 =>
      len2 ← strlen (Some str2);
      if (len2 =? 0)%nat then Some (Some 0%nat)
      else len1 ← strlen (Some s1);
           strstr_loop (S len1) s1 str2 len1 len2 0
  end.

(** ** Writing

    [dst] is the destination object with the offset [d] the pointer has. *)

Fixpoint strcpy_loop (dst : bytes) (d : nat) (src : bytes) : option bytes :=
  match src with
  | [] => None
  | c :: src' =>
      dst' ← wr dst d c;
      if c =? 0 then Some dst' else strcpy_loop dst' (S d) src'
  end.

Definition strcpy (dst : bytes) (d : nat) (src : bytes) : option bytes := strcpy_loop dst d src.

(** [while (size--) *address++ = c] *)
Fixpoint memset (dst : bytes) (d : nat) (c : Z) (size : nat) : option bytes :=
  match size with
  | O => Some dst
  | S n => dst' ← wr dst d (u8 c); memset dst' (S d) c n
  end.

(** The copy loop of [strncpy], then the loop that pads with NUL. *)
Fixpoint strncpy_loop (dst : bytes) (d : nat) (src : bytes) (size : nat) {struct size} : option bytes :=
  match size with
  | O => Some dst
  | S n =>
      match src with
      | [] => None
      | c :: src' =>
          dst' ← wr dst d c;
          if c =? 0 then memset dst' (S d) 0 n else strncpy_loop dst' (S d) src' n
      end
  end.

Definition strncpy (dst : bytes) (d : nat) (src : bytes) (size : nat) : option bytes :=
  strncpy_loop dst d src size.

Definition strcat (dst : bytes) (d : nat) (src : bytes) : option bytes :=
  n ← strlen_loop (drop d dst); strcpy_loop dst (d + n) src.

(** [while (size--) if (!( *strDest++ = *strSrc++)) break;] gives the object and
    the advanced destination offset. *)
Fixpoint strncat_loop (dst : bytes) (d : nat) (src : bytes) (size : nat) {struct size} : option (bytes * nat) :=
  match size with
  | O => Some (dst, d)
  | S n =>
      match src with
      | [] => None
      | c :: src' =>
          dst' ← wr dst d c;
          if c =? 0 then Some (dst', S d) else strncat_loop dst' (S d) src' n
      end
  end.

Definition strncat (dst : bytes) (d : nat) (src : bytes) (size : nat) : option bytes :=
  n ← strlen_loop (drop d dst);
  '(dst', e) ← strncat_loop dst (d + n) src size;
  wr dst' e 0.

(** [memcpy] between two objects: the byte loop, and the loop that moves an
    [unsigned long] (8 bytes) at a time when both addresses are aligned. *)
Fixpoint copy_bytes (dst : bytes) (d : nat) (src : bytes) (count : nat) {struct count} : option bytes :=
  match count with
  | O => Some dst
  | S n =>
      match src with
      | [] => None
      | c :: src' => dst' ← wr dst d c; copy_bytes dst' (S d) src' n
      end
  end.

Fixpoint copy_words (fuel : nat) (dst : bytes) (d : nat) (src : bytes) (count : nat)
  : option (bytes * nat * bytes * nat) :=
  match fuel with
  | O => Some (dst, d, src, count)
  | S f =>
      if (count <? 8)%nat then Some (dst, d, src, count)
      else if decide (8 <= length src /\ d + 8 <= length dst)%nat
           then copy_words f (splice dst d (take 8 src)) (d + 8) (drop 8 src) (count - 8)
           else None
  end.

Definition memcpy (aligned : bool) (dst : bytes) (d : nat) (src : bytes) (count : nat)
  : option bytes :=
  if aligned then
    '(dst', d', src', count') ← copy_words count dst d src count;
    copy_bytes dst' d' src' count'
  else copy_bytes dst d src count.

(** [memmove] inside one object, from offset [s] to offset [d]. *)
Fixpoint move_up (m : bytes) (d s size : nat) : option bytes :=
  match size with
  | O => Some m
  | S n => c ← m !! s; m' ← wr m d c; move_up m' (S d) (S s) n
  end.

(** [*--pstrDest = *--pstrSrc] from the ends: the last byte is moved first. *)
Fixpoint move_down (m : bytes) (d s size : nat) : option bytes :=
  match size with
  | O => Some m
  | S n => c ← m !! (s + n)%nat; m' ← wr m (d + n)%nat c; move_down m' d s n
  end.

Definition memmove (m : bytes) (d s size : nat) : option bytes :=
  if (d <=? s)%nat then move_up m d s size else move_down m d s size.

(** ** Specifications

    About a C string [s] (bytes without NUL) stored at the head of a buffer. *)

(** The character-counting and comparing loops stop at the first NUL, whatever
    follows it in the object. *)
Lemma strlen_loop_cstr s rest : no_nul s -> strlen_loop (s ++ 0 :: rest) = Some (length s).
Proof.
  induction 1 as [|c s Hc Hs IH]; [done|]. simpl.
  rewrite (proj2 (Z.eqb_neq _ _) Hc), IH. done.
Qed.

Lemma strlen_loop_Some buf n :
  strlen_loop buf = Some n ->
  no_nul (take n buf) /\ buf !! n = Some 0 /\ (n < length buf)%nat.
Proof.
  revert n; induction buf as [|c buf IH]; intros n H; simpl in H; [done|].
  destruct (Z.eqb_spec c 0) as [->|Hc].
  - simplify_eq. simpl. split; [by constructor|]. split; [done|lia].
  - inv_bind. destruct (IH _ eq_refl) as (? & ? & ?). simpl.
    split; [by constructor|]. split; [done|lia].
Qed.

Lemma strnlen_loop_cstr s rest n :
  no_nul s -> strnlen_loop (s ++ 0 :: rest) n = Some (Nat.min n (length s)).
Proof.
  intros Hs; revert n; induction Hs as [|c s Hc Hs IH]; intros [|n]; simpl; try done.
  rewrite (proj2 (Z.eqb_neq _ _) Hc), IH. done.
Qed.

(** [strcmp] answers 0 exactly on equal strings. *)
Lemma strcmp_cstr s1 s2 r1 r2 :
  no_nul s1 -> no_nul s2 -> is_bytes s1 -> is_bytes s2 ->
  exists r, strcmp (s1 ++ 0 :: r1) (s2 ++ 0 :: r2) = Some r /\ (r = 0 <-> s1 = s2).
Proof.
  intros H1; revert s2; induction H1 as [|a s1 Ha H1 IH]; intros [|b s2] H2 B1 B2; simpl;
    inv_bytes.
  - exists 0; split; done.
  - rewrite (u8_sub_neq 0 b) by solve_byte. eexists; split; [done|].
    split; [|done]. rewrite u8_sub_0 by solve_byte. by intros; subst.
  - rewrite (u8_sub_neq a 0) by solve_byte. eexists; split; [done|].
    split; [|done]. rewrite u8_sub_0 by solve_byte. by intros; subst.
  - destruct (Z.eqb_spec (u8 (a - b)) 0) as [E|E]; simpl.
    + rewrite (proj2 (Z.eqb_neq a 0)) by done. apply u8_sub_0 in E as ->; [|done..].
      edestruct IH as (r & -> & Hr); [done..|]. exists r; split; [done|]. rewrite Hr.
      split; [congruence|intros; simplify_eq; done].
    + eexists; split; [done|]. split; [done|]. intros; simplify_eq.
      rewrite Z.sub_diag in E. done.
Qed.

(** [strncmp] with the length of the second string answers 0 exactly when that
    string is a prefix of the first. *)
Lemma strncmp_prefix s1 key r1 r2 :
  no_nul s1 -> no_nul key -> is_bytes s1 -> is_bytes key ->
  exists r, strncmp (s1 ++ 0 :: r1) (key ++ r2) (length key) = Some r /\
            (r = 0 <-> key `prefix_of` s1).
Proof.
  unfold strncmp.
  intros H1 H2; revert s1 H1; induction H2 as [|b key Hb H2 IH]; intros s1 H1 B1 B2; simpl.
  { exists 0; split; [done|]. split; [intros _; apply prefix_nil|done]. }
  destruct s1 as [|a s1]; simpl; inv_bytes.
  - rewrite (u8_sub_neq 0 b) by solve_byte. simpl. eexists; split; [done|].
    rewrite u8_sub_0 by solve_byte. split; [by intros; subst|]. intros [? ?]; done.
  - destruct (Z.eqb_spec (u8 (a - b)) 0) as [E|E]; simpl.
    + rewrite (proj2 (Z.eqb_neq a 0)) by done. rewrite E. apply u8_sub_0 in E as ->; [|done..].
      edestruct IH as (r & Hr1 & Hr2); [done..|]. exists r. split; [done|].
      rewrite Hr2. split; [apply prefix_cons|apply prefix_cons_inv_2].
    + eexists; split; [done|]. split; [done|]. intros Hp.
      apply prefix_cons_inv_1 in Hp as ->. rewrite Z.sub_diag in E. done.
Qed.

(** Every [n]-byte comparison that stays inside both objects is decided. *)
Lemma memcmp_loop_eq res s1 s2 n :
  (n <= length s1)%nat -> (n <= length s2)%nat ->
  exists r, memcmp_loop res s1 s2 n = Some r /\
            ((0 < n)%nat -> r = 0 <-> take n s1 = take n s2).
Proof.
  revert res s1 s2; induction n as [|n IH]; intros res [|a s1] [|b s2] L1 L2; simpl in *; try lia;
    try (eexists; split; [done|lia]).
  destruct (Z.eqb_spec (a - b) 0) as [E|E]; simpl.
  - edestruct (IH (a - b) s1 s2) as (r & Hr & Heq); [lia..|]. exists r; split; [done|]. intros _.
    assert (a = b) as -> by lia. destruct n as [|n].
    + simpl in *. simplify_eq. rewrite Z.sub_diag. done.
    + rewrite Heq by lia. split; [by intros ->|]. intros; simplify_eq. done.
  - eexists; split; [done|]. intros _. split; [done|]. intros; simplify_eq. lia.
Qed.

Lemma memcmp_same s1 s2 n :
  (0 < n <= length s1)%nat -> (n <= length s2)%nat -> take n s1 = take n s2 ->
  memcmp (Some s1) (Some s2) n = Some 0.
Proof.
  intros H1 H2 Ht. destruct (memcmp_loop_eq 1 s1 s2 n) as (r & Hr & Heq); [lia..|].
  unfold memcmp. rewrite Hr. f_equal. apply Heq; [lia|done].
Qed.

(** ** Copies *)

Lemma copy_bytes_spec dst d src n :
  (n <= length src)%nat -> (d + n <= length dst)%nat ->
  copy_bytes dst d src n = Some (splice dst d (take n src)).
Proof.
  revert dst d src; induction n as [|n IH]; intros dst d src Hs Hd; simpl.
  { now rewrite splice_nil. }
  destruct src as [|c src]; simpl in *; [lia|].
  rewrite wr_Some by lia. simpl. rewrite IH by (rewrite ?length_insert; lia).
  rewrite splice_cons; [done|]. rewrite length_take. lia.
Qed.

Lemma memset_spec dst d c n :
  (d + n <= length dst)%nat -> memset dst d c n = Some (splice dst d (replicate n (u8 c))).
Proof.
  revert dst d; induction n as [|n IH]; intros dst d Hd; simpl.
  { now rewrite splice_nil. }
  rewrite wr_Some by lia. simpl. rewrite IH by (rewrite ?length_insert; lia).
  rewrite splice_cons; [done|]. rewrite length_replicate. lia.
Qed.

Lemma copy_words_spec fuel dst d src n :
  (n <= length src)%nat -> (d + n <= length dst)%nat ->
  exists k, (k <= n)%nat /\
    copy_words fuel dst d src n = Some (splice dst d (take k src), (d + k)%nat, drop k src, (n - k)%nat).
Proof.
  revert dst d src n; induction fuel as [|f IH]; intros dst d src n Hs Hd; cbn [copy_words];
    [|destruct (Nat.ltb_spec n 8)].
  1,2: exists 0%nat; rewrite splice_nil, Nat.add_0_r, Nat.sub_0_r; split; [lia|done].
  rewrite decide_True by lia.
  assert (L8 : length (take 8 src) = 8%nat) by (rewrite length_take; lia).
  edestruct (IH (splice dst d (take 8 src)) (d + 8)%nat (drop 8 src) (n - 8)%nat) as (k & Hk & ->).
  { rewrite length_drop; lia. }
  { rewrite length_splice; lia. }
  exists (8 + k)%nat. split; [lia|].
  assert (Lk : length (take k (drop 8 src)) = k) by (rewrite length_take, length_drop; lia).
  assert (T : take 8 src ++ take k (drop 8 src) = take (8 + k) src).
  { rewrite <- (take_drop 8 src) at 3. rewrite take_app_add' by done. done. }
  pose proof (splice_splice dst d (take 8 src) (take k (drop 8 src))) as Hsp.
  rewrite L8, T in Hsp. rewrite Hsp by lia. rewrite drop_drop.
  do 2 f_equal; [|lia]. do 2 f_equal. lia.
Qed.

(** The word-wise loop changes nothing: [memcpy] stores the first [n] bytes of
    the source, aligned or not. *)
Lemma memcpy_spec aligned dst d src n :
  (n <= length src)%nat -> (d + n <= length dst)%nat ->
  memcpy aligned dst d src n = Some (splice dst d (take n src)).
Proof.
  intros Hs Hd. destruct aligned; simpl; [|by apply copy_bytes_spec].
  destruct (copy_words_spec n dst d src n) as (k & Hk & ->); [done..|]. simpl.
  assert (Lk : length (take k src) = k) by (rewrite length_take; lia).
  rewrite copy_bytes_spec by (rewrite ?length_drop, ?length_splice; lia).
  pose proof (splice_splice dst d (take k src) (take (n - k) (drop k src))) as Hsp.
  rewrite Lk, length_take, length_drop in Hsp. rewrite Hsp by lia.
  do 2 f_equal. replace n with (k + (n - k))%nat at 2 by lia.
  rewrite <- (take_drop k src) at 3. rewrite take_app_add' by done. done.
Qed.

Lemma move_up_spec m d s n :
  (d <= s)%nat -> (s + n <= length m)%nat ->
  move_up m d s n = Some (splice m d (take n (drop s m))).
Proof.
  revert m d s; induction n as [|n IH]; intros m d s Hds Hs; cbn [move_up].
  { now rewrite splice_nil. }
  destruct (lookup_lt_is_Some_2 m s) as [c Hc]; [lia|]. rewrite Hc. simpl.
  rewrite wr_Some by lia. simpl. rewrite IH by (rewrite ?length_insert; lia).
  rewrite drop_insert_lt by lia.
  rewrite splice_cons by (rewrite length_take, length_drop; lia).
  rewrite (drop_S m c s Hc). done.
Qed.

Lemma move_down_spec m d s n :
  (s <= d)%nat -> (d + n <= length m)%nat ->
  move_down m d s n = Some (splice m d (take n (drop s m))).
Proof.
  revert m; induction n as [|n IH]; intros m Hds Hd; cbn [move_down].
  { now rewrite splice_nil. }
  destruct (lookup_lt_is_Some_2 m (s + n)%nat) as [c Hc]; [lia|]. rewrite Hc. simpl.
  rewrite wr_Some by lia. simpl. rewrite IH by (rewrite ?length_insert; lia).
  f_equal. rewrite (take_S_r (drop s m) n c) by (rewrite lookup_drop; done).
  assert (Ln : length (take n (drop s m)) = n) by (rewrite length_take, length_drop; lia).
  rewrite <- splice_splice by (rewrite Ln; simpl; lia). rewrite Ln.
  rewrite insert_splice by lia.
  assert (E : take n (drop s (splice m (d + n) [c])) = take n (drop s m)).
  { apply list_eq. intros i. destruct (decide (i < n)%nat).
    - rewrite !lookup_take_lt, !lookup_drop by lia. apply splice_lookup_old; simpl; lia.
    - rewrite !lookup_take_ge by lia. done. }
  rewrite E. apply list_eq. intros i.
  assert (L1 : length (splice m (d + n) [c]) = length m) by (apply length_splice; simpl; lia).
  assert (L2 : length (splice m d (take n (drop s m))) = length m) by (apply length_splice; lia).
  destruct (decide (i = d + n)%nat) as [->|]; [|destruct (decide (d <= i < d + n)%nat)].
  - rewrite splice_lookup_old by lia. rewrite !(splice_lookup_new _ (d + n)) by (simpl; lia). done.
  - rewrite (splice_lookup_old _ (d + n)) by (simpl; lia). rewrite !splice_lookup_new by lia. done.
  - rewrite !splice_lookup_old by (simpl; lia). done.
Qed.

(** [memmove] copies the source bytes as they were before the call, in both
    directions of overlap. *)
Lemma memmove_spec m d s n :
  (d + n <= length m)%nat -> (s + n <= length m)%nat ->
  memmove m d s n = Some (splice m d (take n (drop s m))).
Proof.
  intros Hd Hs. unfold memmove. destruct (Nat.leb_spec d s).
  - by apply move_up_spec.
  - apply move_down_spec; lia.
Qed.

Lemma length_memmove m d s n m' : memmove m d s n = Some m' -> length m' = length m.
Proof.
  assert (U : forall n m d s m', move_up m d s n = Some m' -> length m' = length m).
  { clear. induction n as [|n IH]; intros m d s m' H; cbn [move_up] in H; inv_bind; [done|].
    apply IH in H. apply length_wr in E0. congruence. }
  assert (D : forall n m d s m', move_down m d s n = Some m' -> length m' = length m).
  { clear. induction n as [|n IH]; intros m d s m' H; cbn [move_down] in H; inv_bind; [done|].
    apply IH in H. apply length_wr in E0. congruence. }
  unfold memmove. destruct (d <=? s)%nat; eauto.
Qed.

(** [strncpy] copies at most [size] bytes of the string and pads the rest of
    the [size] bytes with NUL. *)
Lemma strncpy_spec dst d s rest size :
  no_nul s -> (d + size <= length dst)%nat ->
  strncpy dst d (s ++ 0 :: rest) size =
  Some (splice dst d (take size s ++ replicate (size - length s) 0)).
Proof.
  unfold strncpy. intros Hs; revert dst d size; induction Hs as [|c s Hc Hs IH];
    intros dst d [|size] Hd; cbn [strncpy_loop app]; try (by rewrite splice_nil);
    rewrite wr_Some by lia; simpl.
  - rewrite memset_spec by (rewrite length_insert; lia).
    rewrite splice_cons by (rewrite length_replicate; lia). done.
  - rewrite (proj2 (Z.eqb_neq c 0)) by done. rewrite IH by (rewrite length_insert; lia).
    rewrite splice_cons; [done|]. rewrite length_app, length_take, length_replicate. lia.
Qed.

Lemma strcpy_spec dst d s rest :
  no_nul s -> (d + length s < length dst)%nat ->
  strcpy dst d (s ++ 0 :: rest) = Some (splice dst d (s ++ [0])).
Proof.
  unfold strcpy. intros Hs; revert dst d; induction Hs as [|c s Hc Hs IH]; intros dst d Hd;
    simpl in *; rewrite wr_Some by lia; simpl.
  - by rewrite insert_splice by lia.
  - rewrite (proj2 (Z.eqb_neq c 0)) by done. rewrite IH by (rewrite length_insert; lia).
    rewrite splice_cons; [done|]. rewrite length_app; simpl; lia.
Qed.
