(* ===== verification/CType.v ===== *)
(** * Character classes and number parsing (boot/common/lib/ctype.c and the
    number parser of boot/common/lib/string.c)

    A function of ctype.c that answers 1 or 0 is a boolean here; its argument
    is a byte.  [str2ul] and [strtoul] read a NUL-terminated buffer and give the
    value and the offset of the first byte not consumed. *)

From S2P Require Import Prelude CString.

Definition isdigit (c : Z) : bool := (48 <=? c) && (c <=? 57).
Definition islower (c : Z) : bool := (97 <=? c) && (c <=? 122).
Definition isupper (c : Z) : bool := (65 <=? c) && (c <=? 90).
Definition isalpha (c : Z) : bool := isupper c || islower c.
Definition isalnum (c : Z) : bool := isalpha c || isdigit c.
Definition iscntrl (c : Z) : bool := c <=? 31.
Definition isgraph (c : Z) : bool := (33 <=? c) && (c <=? 126).
Definition isprint (c : Z) : bool := (32 <=? c) && (c <=? 126).
Definition ispunct (c : Z) : bool := isgraph c && negb (isalnum c).

(** The condition is [(c = ' ') || ...]: an assignment, not a comparison. *)
Definition isspace (c : Z) : bool :=
  let c := 32 in negb (c =? 0) || ((9 <=? c) && (c <=? 13)).

Definition toupper (c : Z) : Z := if islower c then u8 (c - (97 - 65)) else c.
Definition tolower (c : Z) : Z := if isupper c then u8 (c - (65 - 97)) else c.

Definition isxdigit (c : Z) : bool :=
  isdigit c || ((97 <=? c) && (c <=? 102)) || ((65 <=? c) && (c <=? 70)).

Definition isascii (c : Z) : bool := c <=? 127.
Definition toascii (c : Z) : Z := Z.land c 127.

(** The digit value in the loop condition of [str2ul]. *)
Definition str2ul_value (c : Z) : Z :=
  if isdigit c then c - 48 else (if islower c then toupper c else c) - 65 + 10.

Fixpoint str2ul_loop (startp : bytes) (base ret : Z) (off : nat) : option (Z * nat) :=
  match startp with
  | [] => None
  | c :: startp' =>
      if isxdigit c && (str2ul_value c <? base)
      then str2ul_loop startp' base (u64 (ret * base + str2ul_value c)) (S off)
      else Some (ret, off)
  end.

(** The prefix handling of [str2ul] advances [startp] and settles [base]. *)
Definition str2ul (startp : bytes) (base : Z) : option (Z * nat) :=
  c0 ← startp !! 0%nat;
  if c0 =? 48 then
    c1 ← startp !! 1%nat;
    hex ← (if c1 =? 120 then c2 ← startp !! 2%nat; Some (isxdigit c2) else Some false);
    let base := if (hex : bool) then 16 else base in
    let skip := if hex then 2%nat else 1%nat in
    let base := if base =? 0 then 8 else base in
    str2ul_loop (drop skip startp) base 0 skip
  else
    let base := if base =? 0 then 10 else base in
    str2ul_loop startp base 0 0.

(** [#define TOLOWER(x) ((x) | 0x20)] of string.c. *)
Definition TOLOWER (c : Z) : Z := Z.lor c 32.

Definition strtoul_value (c : Z) : Z :=
  if isdigit c then c - 48 else TOLOWER c - 97 + 10.

Fixpoint strtoul_loop (nptr : bytes) (base result : Z) (off : nat) : option (Z * nat) :=
  match nptr with
  | [] => None
  | c :: nptr' =>
      if isxdigit c then
        if base <=? strtoul_value c then Some (result, off)
        else strtoul_loop nptr' base (u64 (result * base + strtoul_value c)) (S off)
      else Some (result, off)
  end.

Definition strtoul (nptr : bytes) (base : Z) : option (Z * nat) :=
  c0 ← nptr !! 0%nat;
  base ← (if base =? 0 then
            if c0 =? 48 then
              c1 ← nptr !! 1%nat;
              if TOLOWER c1 =? 120
              then c2 ← nptr !! 2%nat; Some (if isxdigit c2 then 16 else 8)
              else Some 8
            else Some 10
          else Some base);
  skip ← (if (base =? 16) && (c0 =? 48)
          then c1 ← nptr !! 1%nat; Some (TOLOWER c1 =? 120)
          else Some false);
  if (skip : bool) then strtoul_loop (drop 2 nptr) base 0 2 else strtoul_loop nptr base 0 0.

Definition ctoi (c : Z) : Z :=
  if (48 <=? c) && (c <=? 57) then c - 48
  else if (97 <=? c) && (c <=? 102) then c - 97 + 10
  else if (65 <=? c) && (c <=? 70) then c - 65 + 10
  else -1.

Definition itoc (i : Z) : Z :=
  let j := Z.land i 15 in if j <? 10 then j + 48 else j - 10 + 65.

(** ** Facts *)

(** A property of all bytes is checked byte by byte. *)
Lemma byte_forall (P : Z -> bool) :
  forallb P (map Z.of_nat (seq 0 256)) = true -> forall c, is_u8 c -> P c = true.
Proof.
  intros H c [H0 H1]. rewrite forallb_forall in H. apply H.
  apply in_map_iff. exists (Z.to_nat c). split; [lia|]. apply in_seq. lia.
Qed.

Lemma value_agree c : is_u8 c -> isxdigit c = true -> strtoul_value c = str2ul_value c.
Proof.
  intros Hc Hx.
  pose proof (byte_forall (fun c => implb (isxdigit c) (strtoul_value c =? str2ul_value c))
                eq_refl c Hc) as H.
  simpl in H. rewrite Hx in H. simpl in H. by apply Z.eqb_eq.
Qed.

Lemma TOLOWER_x c : is_u8 c -> (TOLOWER c =? 120) = (c =? 120) || (c =? 88).
Proof.
  intros Hc. apply eqb_prop.
  exact (byte_forall (fun c => eqb (TOLOWER c =? 120) ((c =? 120) || (c =? 88))) eq_refl c Hc).
Qed.

Lemma loops_agree s base ret off :
  is_bytes s -> strtoul_loop s base ret off = str2ul_loop s base ret off.
Proof.
  intros Hs; revert ret off; induction Hs as [|c s Hc Hs IH]; intros ret off; simpl; [done|].
  destruct (isxdigit c) eqn:Hx; simpl; [|done]. rewrite value_agree by done.
  rewrite IH. destruct (Z.leb_spec base (str2ul_value c)), (Z.ltb_spec (str2ul_value c) base);
    done || lia.
Qed.

(** A leading zero digit is consumed and adds nothing. *)
Lemma strtoul_loop_zero s base off :
  0 < base -> strtoul_loop (48 :: s) base 0 off = strtoul_loop s base 0 (S off).
Proof.
  intros Hb. cbn [strtoul_loop]. change (isxdigit 48) with true. cbn iota.
  change (strtoul_value 48) with 0. by rewrite (proj2 (Z.leb_gt base 0)).
Qed.

(** The value of a run of digits in a base, most significant digit first. *)
Definition horner (base : Z) (ds : list Z) : Z := fold_left (fun acc d => acc * base + d) ds 0.

Lemma horner_from base ret ds :
  fold_left (fun acc d => acc * base + d) ds ret = ret * base ^ Z.of_nat (length ds) + horner base ds.
Proof.
  unfold horner. revert ret; induction ds as [|d ds IH]; intros ret; simpl; [lia|].
  rewrite IH, (IH (0 * base + d)).
  replace (Z.of_nat (S (length ds))) with (Z.succ (Z.of_nat (length ds))) by lia.
  rewrite Z.pow_succ_r by lia. lia.
Qed.

Lemma str2ul_loop_horner s rest base ret off :
  Forall (fun c => isxdigit c = true /\ str2ul_value c < base) s ->
  (forall c, head rest = Some c -> isxdigit c && (str2ul_value c <? base) = false) -> rest <> [] ->
  str2ul_loop (s ++ rest) base (u64 ret) off =
  Some (u64 (fold_left (fun acc d => acc * base + d) (map str2ul_value s) ret), (off + length s)%nat).
Proof.
  intros Hs Hr Hne; revert ret off; induction Hs as [|c s [Hx Hv] Hs IH]; intros ret off; simpl.
  - rewrite Nat.add_0_r. destruct rest as [|c rest]; [done|]. simpl. by rewrite Hr.
  - rewrite Hx, (proj2 (Z.ltb_lt _ _)) by done. simpl.
    replace (u64 (u64 ret * base + str2ul_value c)) with (u64 (ret * base + str2ul_value c)).
    + rewrite IH. do 2 f_equal. lia.
    + unfold u64. rewrite <- (Z.add_mod_idemp_l (_ mod _ * _)), Z.mul_mod_idemp_l by lia.
      by rewrite Z.add_mod_idemp_l by lia.
Qed.

Lemma digit_range x : isdigit x = true -> 48 <= x <= 57.
Proof. unfold isdigit. intros. bool_simpl. lia. Qed.

(** A run of digits that fills the buffer is parsed past its end. *)
Lemma str2ul_loop_overrun s ret off :
  Forall (fun x => isdigit x = true) s -> str2ul_loop s 10 ret off = None.
Proof.
  intros Hs; revert ret off; induction Hs as [|x s Hx Hs IH]; intros ret off; [done|].
  simpl. assert (isxdigit x && (str2ul_value x <? 10) = true) as ->; [|apply IH].
  unfold isxdigit, str2ul_value. rewrite Hx. simpl. apply Z.ltb_lt.
  apply digit_range in Hx. lia.
Qed.

#[global] Arguments strtoul_loop : simpl never.
#[global] Arguments str2ul_loop : simpl never.

(** ** The two parsers *)

Lemma parsers_agree (s : bytes) :
  is_bytes s -> s !! 1%nat <> Some 88 -> strtoul s 0 = str2ul s 0.
Proof.
  intros Hs HX. unfold strtoul, str2ul. destruct s as [|c0 s]; [done|]. simpl.
  destruct (Z.eqb_spec c0 48) as [->|Hc0]; simpl; [|by apply loops_agree].
  destruct s as [|c1 s]; [done|]. simpl in *. inv_bytes. rewrite TOLOWER_x by done.
  assert ((c1 =? 88) = false) as -> by (apply Z.eqb_neq; congruence). rewrite orb_false_r.
  destruct (Z.eqb_spec c1 120) as [->|Hc1]; simpl.
  - destruct s as [|c2 s]; [done|]. simpl. inv_bytes.
    destruct (isxdigit c2) eqn:Hx2; simpl; [by apply loops_agree; constructor|].
    rewrite strtoul_loop_zero by lia. apply loops_agree. by do 2 (constructor; [done|]).
  - rewrite strtoul_loop_zero by lia. by apply loops_agree; constructor.
Qed.

Lemma parse_decimal (c : Z) (s : bytes) (e : Z) (rest : bytes) :
  Forall (fun x => isdigit x = true) (c :: s) -> c <> 48 -> isxdigit e = false ->
  str2ul (c :: s ++ e :: rest) 0 =
  Some (u64 (horner 10 (map (fun x => x - 48) (c :: s))), S (length s)).
Proof.
  intros Hd Hc He. unfold str2ul. simpl lookup. cbn [mbind option_bind].
  rewrite (proj2 (Z.eqb_neq c 48)) by done. cbn zeta.
  pose proof (str2ul_loop_horner (c :: s) (e :: rest) 10 0 0) as H.
  change (u64 0) with 0 in H. simpl app in H. simpl Z.eqb. cbn iota. rewrite H; clear H.
  - unfold horner. do 4 f_equal. apply map_ext_in. intros x Hx.
    rewrite List.Forall_forall in Hd. unfold str2ul_value. by rewrite Hd.
  - eapply Forall_impl; [|exact Hd]. intros x Hx. unfold isxdigit, str2ul_value. rewrite Hx.
    split; [done|]. unfold isdigit in Hx. bool_simpl. lia.
  - intros x Hx. simpl in Hx. simplify_eq. by rewrite He.
  - done.
Qed.

Lemma horner_bound ds :
  Forall (fun d => 0 <= d <= 9) ds -> 0 <= horner 10 ds < 10 ^ Z.of_nat (length ds).
Proof.
  induction 1 as [|d ds Hd Hds IH]; [unfold horner; simpl; lia|].
  unfold horner. cbn [fold_left]. rewrite horner_from.
  replace (Z.of_nat (length (d :: ds))) with (Z.succ (Z.of_nat (length ds))) by (simpl; lia).
  rewrite Z.pow_succ_r by lia. nia.
Qed.

(** ** Properties *)

(** With base 0 the two number parsers of the firmware, [strtoul] (used by
    the SM build of ram_ts) and [str2ul] (used by the SoC builds), give the same
    value and stop at the same byte on every buffer whose second byte is not a
    capital X (only [strtoul] takes the prefix 0X). *)
Theorem strtoul_str2ul_agree (s : bytes) :
  is_bytes s -> s !! 1%nat <> Some 88 -> strtoul s 0 = str2ul s 0.
Proof. apply parsers_agree. Qed.

Lemma strtoul_str2ul_agree_witness :
  strtoul [48; 120; 49; 70; 0] 0 = Some (31, 4%nat) /\
  strtoul [48; 120; 49; 70; 0] 0 = str2ul [48; 120; 49; 70; 0] 0.
Proof.
  split; [reflexivity|]. apply strtoul_str2ul_agree; [|done].
  repeat constructor; unfold is_u8; lia.
Defined.

(** A decimal number without a leading zero, followed by a byte that is not a
    hexadecimal digit, is parsed to its value modulo 2^64 and consumed exactly. *)
Theorem str2ul_decimal (c : Z) (s : bytes) (e : Z) (rest : bytes) :
  Forall (fun x => isdigit x = true) (c :: s) -> c <> 48 -> isxdigit e = false ->
  str2ul (c :: s ++ e :: rest) 0 =
  Some (u64 (horner 10 (map (fun x => x - 48) (c :: s))), S (length s)).
Proof. apply parse_decimal. Qed.

Lemma str2ul_decimal_witness : str2ul [50; 48; 49; 57; 0] 0 = Some (2019, 4%nat).
Proof.
  apply (str2ul_decimal 50 [48; 49; 57] 0 []); [|lia|reflexivity].
  repeat constructor.
Defined.

(** [itoc] prints a nibble as one hexadecimal digit and [ctoi] reads it back;
    [ctoi] accepts exactly the hexadecimal digits and answers -1 elsewhere. *)
Theorem ctoi_itoc (i c : Z) :
  is_u8 i -> is_u8 c -> ctoi (itoc i) = i mod 16 /\ (ctoi c = -1 <-> isxdigit c = false).
Proof.
  intros Hi Hc. split.
  - apply Z.eqb_eq. exact (byte_forall (fun i => ctoi (itoc i) =? i mod 16) eq_refl i Hi).
  - rewrite <- Z.eqb_eq.
    pose proof (byte_forall (fun c => eqb (ctoi c =? -1) (negb (isxdigit c))) eq_refl c Hc) as H.
    simpl in H. apply eqb_prop in H. rewrite H. apply negb_true_iff.
Qed.

Lemma ctoi_itoc_witness : ctoi (itoc 172) = 12 /\ (ctoi 103 = -1 <-> isxdigit 103 = false).
Proof. apply (ctoi_itoc 172 103); unfold is_u8; lia. Defined.

(** [isspace] answers 1 for every character: its condition assigns the
    argument instead of comparing it. *)
Theorem isspace_always (c : Z) : isspace c = true.
Proof. reflexivity. Qed.
