(* ===== verification/TsData.v ===== *)
(** * The key=value area shared by the two transactional stores

    flash_ts.c (boot/common/driver/flash_ts) and ram_ts.c
    (boot/common/driver/ram_ts) keep the same record: a header and a data area
    [key1=value1\0key2=value2\0\0].  The functions they have in common, which
    the two files spell identically, are translated once here: the key search,
    the checksum and the edit of the data area.  The second part relates the
    area to the association list it represents. *)

From S2P Require Import Prelude CString.

(** ** The record *)

Record ts_rec := mk_ts {
  magic : Z;
  crc : Z;
  len : Z;
  version : Z;
  data : bytes;
}.

Definition set_magic (v : Z) (t : ts_rec) : ts_rec := mk_ts v (crc t) (len t) (version t) (data t).
Definition set_crc (v : Z) (t : ts_rec) : ts_rec := mk_ts (magic t) v (len t) (version t) (data t).
Definition set_len (v : Z) (t : ts_rec) : ts_rec := mk_ts (magic t) (crc t) v (version t) (data t).
Definition set_version (v : Z) (t : ts_rec) : ts_rec := mk_ts (magic t) (crc t) (len t) v (data t).
Definition set_data (v : bytes) (t : ts_rec) : ts_rec := mk_ts (magic t) (crc t) (len t) (version t) v.

(** The record as it lies in memory and on flash. *)
Definition ts_bytes (t : ts_rec) : bytes :=
  le32 (magic t) ++ le32 (crc t) ++ le32 (len t) ++ le32 (version t) ++ data t.

(** ** The checksum *)

Definition crc_bit (c : Z) : Z :=
  Z.lxor (Z.shiftr c 1) (if negb (Z.land c 1 =? 0) then 0xedb88320 else 0).

(** [crc ^= *p++] and the loop of eight shifts. *)
Definition crc_byte (c b : Z) : Z := Nat.iter 8 crc_bit (Z.lxor c b).

(** The checksum covers [len], [version] and the first [len] bytes of data. *)
Definition ts_crc (t : ts_rec) : option Z :=
  let p := le32 (len t) ++ le32 (version t) ++ data t in
  let n := Z.to_nat (len t + 8) in
  if decide (n <= length p)%nat
  then Some (Z.lxor (fold_left crc_byte (take n p) 0) 0xffffffff)
  else None.

(** ** The key search *)

Fixpoint ts_key_search_loop (fuel : nat) (ts_data : bytes) (off : nat) (key : bytes) (klen : nat)
  : option (option nat) :=
  match fuel with
  | O => None
  | S f =>
      c ← ts_data !! 0%nat;
      if c =? 0 then Some None
      else r ← strncmp ts_data key klen;
           found ← (if r =? 0 then e ← ts_data !! klen; Some (e =? 61) else Some false);
           if (found : bool) then Some (Some off)
           else n ← strlen (Some ts_data);
                ts_key_search_loop f (drop (n + 1) ts_data) (off + (n + 1)) key klen
  end.

(** Every round skips at least one byte, so one unit of fuel per byte is enough. *)
Definition ts_key_search (ts_data : bytes) (key : bytes) (klen : nat) : option (option nat) :=
  ts_key_search_loop (S (length ts_data)) ts_data 0 key klen.

(** ** The edit of the data area in [flash_ts_set] and [ram_ts_set] *)

Inductive ts_edit :=
  | TsSame                               (* [goto out] with [res = 0] *)
  | TsNoSpace                            (* [goto no_space] *)
  | TsEdit (newlen : Z) (newdata : bytes). (* fall through to the checksum *)

(** A [size_t] count that would be negative wraps to an enormous value: the
    call that uses it runs out of its object. *)
Definition to_size (z : Z) : option nat := if 0 <=? z then Some (Z.to_nat z) else None.

Definition ts_replace (t : ts_rec) (p : nat) (klen vlen : nat) (value : bytes) : option ts_edit :=
  n ← strlen (Some (drop p (data t)));
  let cur_len := (n + 1)%nat in
  let new_len := if (vlen =? 0)%nat then 0%nat else (klen + 1 + vlen + 1)%nat in
  let put_value (l : Z) (d : bytes) : option ts_edit :=
    if (vlen =? 0)%nat then Some (TsEdit l d)
    else let p := (p + klen + 1)%nat in
         d1 ← memcpy false d p value vlen;
         d2 ← wr d1 (p + vlen) 0;
         Some (TsEdit l d2) in
  if negb (cur_len =? new_len)%nat then
    if Z.of_nat (length (data t)) <? u64 ((len t - Z.of_nat cur_len) + Z.of_nat new_len)
    then Some TsNoSpace
    else cnt ← to_size (len t - Z.of_nat (p + cur_len));
         d ← memmove (data t) (p + new_len) (p + cur_len) cnt;
         put_value (u32 ((len t - Z.of_nat cur_len) + Z.of_nat new_len)) d
  else
    r ← strcmp (drop (p + klen + 1) (data t)) value;
    if r =? 0 then Some TsSame else put_value (len t) (data t).

Definition ts_append (t : ts_rec) (key value : bytes) (klen vlen : nat) : option ts_edit :=
  let l := (klen + 1 + vlen + 1)%nat in
  if (vlen =? 0)%nat then Some TsSame
  else if Z.of_nat (length (data t)) <? u64 (len t + Z.of_nat l) then Some TsNoSpace
  else p ← to_size (len t - 1);
       d1 ← memcpy false (data t) p key klen;
       d2 ← wr d1 (p + klen) 61;
       d3 ← memcpy false d2 (p + klen + 1) value vlen;
       d4 ← wr d3 (p + klen + 1 + vlen) 0;
       d5 ← wr d4 (p + klen + 1 + vlen + 1) 0;
       Some (TsEdit (u32 (len t + Z.of_nat l)) d5).

Definition ts_update (t : ts_rec) (key value : bytes) : option ts_edit :=
  klen ← strlen (Some key);
  vlen ← strlen (Some value);
  found ← ts_key_search (data t) key klen;
  match found with
  | Some p => ts_replace t p klen vlen value
  | None => ts_append t key value klen vlen
  end.

(** [flash_ts_get] and [ram_ts_get]: [*value = 0], then a bounded copy of the
    value found. *)
Definition ts_get (t : ts_rec) (key value : bytes) (size : nat) : option bytes :=
  klen ← strlen (Some key);
  found ← ts_key_search (data t) key klen;
  match found with
  | Some p => strncpy value 0 (drop (p + klen + 1) (data t)) size
  | None => Some value
  end.

(** ** The association list a data area represents *)

Abbreviation entries := (list (bytes * bytes)).

Definition entry (e : bytes * bytes) : bytes := e.1 ++ 61 :: e.2 ++ [0].
Definition flat (es : entries) : bytes := concat (map entry es).

(** What a key or a value may be: C strings (of a length any object of a 64-bit
    machine has), and no '=' in a key. *)
Definition short (s : bytes) : Prop := Z.of_nat (length s) < 2 ^ 62.
Definition key_ok (k : bytes) : Prop :=
  (no_nul k /\ is_bytes k /\ Forall (fun c => c <> 61) k) /\ short k.
Definition value_ok (v : bytes) : Prop := (no_nul v /\ is_bytes v) /\ short v.
Definition entry_ok (e : bytes * bytes) : Prop := key_ok e.1 /\ value_ok e.2.

(** The abstract store: setting the empty value removes the key, a new key
    goes to the end, an old one keeps its place. *)
Fixpoint ts_put (es : entries) (k v : bytes) : entries :=
  match es with
  | [] => if decide (v = []) then [] else [(k, v)]
  | e :: es' =>
      if decide (e.1 = k) then (if decide (v = []) then es' else (k, v) :: es')
      else e :: ts_put es' k v
  end.

Fixpoint ts_find (es : entries) (k : bytes) : option bytes :=
  match es with
  | [] => None
  | e :: es' => if decide (e.1 = k) then Some e.2 else ts_find es' k
  end.

Definition keys (es : entries) : list bytes := map fst es.

(** The record [t] represents [es]. *)
Record ts_repr (t : ts_rec) (es : entries) : Prop := {
  repr_len : len t = Z.of_nat (length (flat es)) + 1;
  repr_cap : Z.of_nat (length (data t)) < 2 ^ 32;
  repr_data : exists junk, data t = flat es ++ 0 :: junk;
  repr_bytes : is_bytes (data t);
  repr_ok : Forall entry_ok es;
  repr_nodup : NoDup (keys es);
}.

(** [ts_repr] says nothing of magic, checksum and version. *)
Lemma repr_ext t t' es : ts_repr t es -> len t' = len t -> data t' = data t -> ts_repr t' es.
Proof. intros [] Hl Hd. constructor; rewrite ?Hl, ?Hd; done. Qed.

Lemma key_ok_bool k :
  forallb (fun c => (0 <? c) && (c <? 256) && negb (c =? 61)) k && (length k <? 4096)%nat = true ->
  key_ok k.
Proof.
  intros [H Hl]%andb_true_iff. rewrite forallb_forall in H. apply Nat.ltb_lt in Hl.
  split; [|unfold short; lia]. split; [|split]; apply List.Forall_forall; intros c Hc;
    specialize (H c Hc); bool_simpl; unfold is_u8; lia.
Qed.

Lemma value_ok_bool v :
  forallb (fun c => (0 <? c) && (c <? 256)) v && (length v <? 4096)%nat = true -> value_ok v.
Proof.
  intros [H Hl]%andb_true_iff. rewrite forallb_forall in H. apply Nat.ltb_lt in Hl.
  split; [|unfold short; lia]. split; apply List.Forall_forall; intros c Hc;
    specialize (H c Hc); bool_simpl; unfold is_u8; lia.
Qed.

(** *** Abstract lemmas *)

Lemma ts_find_split es k v :
  ts_find es k = Some v ->
  exists pre post, es = pre ++ (k, v) :: post /\ k ∉ keys pre.
Proof.
  induction es as [|[k' v'] es IH]; simpl; [done|]. case_decide as Hk; simpl in *.
  - intros; simplify_eq. exists [], es. split; [done|]. apply not_elem_of_nil.
  - intros (pre & post & -> & Hn)%IH. exists ((k', v') :: pre), post. split; [done|].
    unfold keys; simpl. rewrite not_elem_of_cons. split; [congruence|done].
Qed.

Lemma ts_find_None es k : ts_find es k = None <-> k ∉ keys es.
Proof.
  unfold keys. induction es as [|[k' v'] es IH]; simpl; [split; [intros _; apply not_elem_of_nil|done]|].
  rewrite not_elem_of_cons. case_decide; simpl in *; [split; [done|naive_solver]|].
  rewrite IH. naive_solver.
Qed.

Lemma ts_put_split pre k v0 post v :
  k ∉ keys pre ->
  ts_put (pre ++ (k, v0) :: post) k v = pre ++ (if decide (v = []) then post else (k, v) :: post).
Proof.
  unfold keys. induction pre as [|[k' v'] pre IH]; simpl; intros Hn.
  - rewrite decide_True by done. done.
  - rewrite not_elem_of_cons in Hn. rewrite decide_False by (simpl; naive_solver).
    rewrite IH by naive_solver. done.
Qed.

Lemma ts_put_new es k v :
  k ∉ keys es -> ts_put es k v = if decide (v = []) then es else es ++ [(k, v)].
Proof.
  unfold keys. induction es as [|[k' v'] es IH]; simpl; intros Hn.
  - case_decide; done.
  - rewrite not_elem_of_cons in Hn. rewrite decide_False by (simpl; naive_solver).
    rewrite IH by naive_solver. case_decide; done.
Qed.

Lemma ts_find_put es k v k' :
  NoDup (keys es) ->
  ts_find (ts_put es k v) k' =
  if decide (k' = k) then (if decide (v = []) then None else Some v) else ts_find es k'.
Proof.
  unfold keys. induction es as [|[ke ve] es IH]; simpl; intros Hd.
  - repeat case_decide; simpl; repeat case_decide; simpl in *; naive_solver.
  - apply list.NoDup_cons in Hd as [Hni Hd]. destruct (decide (ke = k)) as [->|Hke]; simpl.
    + destruct (decide (k' = k)) as [->|Hk'].
      * destruct (decide (v = [])); simpl; [by apply ts_find_None|by rewrite decide_True].
      * rewrite (decide_False (P := k = k')) by done.
        destruct (decide (v = [])); simpl; [done|by rewrite decide_False].
    + rewrite IH by done. destruct (decide (ke = k')) as [<-|]; [by rewrite decide_False|done].
Qed.

Lemma elem_keys_put es k v x : x ∈ keys (ts_put es k v) -> x ∈ keys es \/ x = k.
Proof.
  unfold keys. induction es as [|[ke ve] es IH]; simpl.
  - case_decide; simpl; [auto|]. rewrite elem_of_cons. naive_solver.
  - case_decide; [case_decide|]; simpl; rewrite ?elem_of_cons; naive_solver.
Qed.

Lemma ts_put_nodup es k v : NoDup (keys es) -> NoDup (keys (ts_put es k v)).
Proof.
  unfold keys. induction es as [|[ke ve] es IH]; simpl; intros Hd.
  - case_decide; simpl; [constructor|]. apply NoDup_singleton.
  - apply list.NoDup_cons in Hd as [Hni Hd]. case_decide as Hke; simpl in *; [subst; case_decide|].
    + done.
    + apply list.NoDup_cons; done.
    + apply list.NoDup_cons; split; [|auto]. intros [?|?]%elem_keys_put; done.
Qed.

Lemma ts_put_ok es k v : Forall entry_ok es -> key_ok k -> value_ok v -> Forall entry_ok (ts_put es k v).
Proof.
  intros He Hk Hv. assert (entry_ok (k, v)) by done. induction He as [|e es Hx He IH]; simpl;
    repeat case_decide; auto using List.Forall_nil, List.Forall_cons.
Qed.

(** *** The shape of an area *)

Lemma flat_cons e es : flat (e :: es) = entry e ++ flat es.
Proof. done. Qed.

Lemma flat_app es1 es2 : flat (es1 ++ es2) = flat es1 ++ flat es2.
Proof. unfold flat. by rewrite map_app, concat_app. Qed.

Lemma length_entry e : length (entry e) = (length e.1 + length e.2 + 2)%nat.
Proof. unfold entry. rewrite length_app. simpl. rewrite length_app. simpl. lia. Qed.

(** An entry is a C string: [key=value] and its terminator. *)
Lemma entry_cstr e rest : entry e ++ rest = (e.1 ++ 61 :: e.2) ++ 0 :: rest.
Proof. unfold entry. rewrite <- !app_assoc. simpl. by rewrite <- app_assoc. Qed.

Lemma entry_no_nul e : entry_ok e -> no_nul (e.1 ++ 61 :: e.2).
Proof. intros [[(? & _ & _) _] [[? _] _]]. apply no_nul_app. split; [done|]. by apply no_nul_cons. Qed.

Lemma entry_bytes e : entry_ok e -> is_bytes (e.1 ++ 61 :: e.2).
Proof.
  intros [[(_ & ? & _) _] [[_ ?] _]]. apply is_bytes_app. split; [done|].
  apply is_bytes_cons. split; [unfold is_u8; lia|done].
Qed.

(** A key without '=' is determined by the string [key=value]. *)
Lemma key_unique k1 k2 t1 t2 :
  Forall (fun c => c <> 61) k1 -> Forall (fun c => c <> 61) k2 ->
  k1 ++ 61 :: t1 = k2 ++ 61 :: t2 -> k1 = k2 /\ t1 = t2.
Proof.
  intros H1; revert k2; induction H1 as [|a k1 Ha H1 IH]; intros [|b k2] H2 E; simpl in *;
    try (apply Forall_cons_iff in H2 as [? ?]); simplify_eq; [done..|].
  destruct (IH k2) as [-> ->]; done.
Qed.

(** One round of the search at an entry: it stops exactly at the entry of the key. *)
Lemma search_round f e rest off key krest :
  entry_ok e -> key_ok key ->
  ts_key_search_loop (S f) (entry e ++ rest) off (key ++ krest) (length key) =
  if decide (e.1 = key) then Some (Some off)
  else ts_key_search_loop f rest (off + length (entry e)) (key ++ krest) (length key).
Proof.
  intros He [(Hk0 & HkB & Hk61) _]. rewrite entry_cstr.
  pose proof (entry_no_nul e He) as Hs0. pose proof (entry_bytes e He) as HsB.
  set (s := e.1 ++ 61 :: e.2) in *.
  assert (exists c s', s ++ 0 :: rest = c :: s' /\ c <> 0) as (c & s' & Hcs & Hc).
  { subst s. destruct He as [[(Hn & _) _] _]. destruct e.1 as [|c k]; simpl; [by eexists _, _|].
    apply no_nul_cons in Hn as [? _]. by eexists _, _. }
  cbn [ts_key_search_loop]. rewrite Hcs. simpl lookup. cbn [mbind option_bind].
  rewrite (proj2 (Z.eqb_neq c 0)) by done. rewrite <- Hcs.
  destruct (strncmp_prefix s key rest krest) as (r & -> & Hr); [done..|]. cbn [mbind option_bind].
  assert (Hlen : strlen (Some (s ++ 0 :: rest)) = Some (length s)) by by apply strlen_loop_cstr.
  assert (Hnext : drop (length s + 1) (s ++ 0 :: rest) = rest).
  { rewrite drop_app_ge by lia. replace (length s + 1 - length s)%nat with 1%nat by lia. done. }
  assert (Hle : length (entry e) = (length s + 1)%nat).
  { rewrite length_entry. subst s. rewrite length_app. simpl. lia. }
  rewrite Hlen, Hle. cbn [mbind option_bind]. rewrite Hnext.
  destruct (Z.eqb_spec r 0) as [E|E].
  - apply Hr in E as [t Ht]. rewrite Ht, <- app_assoc, lookup_app_r by lia.
    rewrite Nat.sub_diag. destruct He as [[(_ & _ & He61) _] _].
    destruct t as [|x t]; simpl; [|destruct (Z.eqb_spec x 61) as [->|Hx]].
    + rewrite decide_False; [done|]. intros Heq. subst s. rewrite Heq in Ht.
      apply (f_equal length) in Ht. rewrite !length_app in Ht. simpl in Ht. lia.
    + rewrite decide_True; [done|]. subst s. by apply key_unique in Ht as [? _].
    + rewrite decide_False; [done|]. intros Heq. subst s. rewrite Heq in Ht.
      apply app_inv_head in Ht. congruence.
  - rewrite decide_False; [done|]. intros Heq. apply E, Hr. exists (61 :: e.2). subst s.
    by rewrite Heq.
Qed.

Lemma search_found f pre k v post rest off krest :
  Forall entry_ok (pre ++ (k, v) :: post) -> key_ok k -> k ∉ keys pre ->
  (length pre < f)%nat ->
  ts_key_search_loop f (flat (pre ++ (k, v) :: post) ++ rest) off (k ++ krest) (length k) =
  Some (Some (off + length (flat pre))%nat).
Proof.
  revert f off; induction pre as [|e pre IH]; intros f off Hok Hk Hn Hf;
    (destruct f as [|f]; [simpl in Hf; lia|]); simpl app in *; rewrite flat_cons, <- app_assoc;
    apply Forall_cons_iff in Hok as [He Hok]; rewrite search_round by done.
  - rewrite decide_True by done. simpl. do 2 f_equal. lia.
  - unfold keys in Hn; simpl in Hn, Hf. apply not_elem_of_cons in Hn as [Hne Hn].
    rewrite decide_False by congruence. rewrite IH by (done || lia).
    rewrite flat_cons, length_app. do 2 f_equal. lia.
Qed.

Lemma search_missing f es k rest off krest :
  Forall entry_ok es -> key_ok k -> k ∉ keys es -> (length es < f)%nat ->
  ts_key_search_loop f (flat es ++ 0 :: rest) off (k ++ krest) (length k) = Some None.
Proof.
  intros Hok; revert f off; induction Hok as [|e es He Hok IH]; intros f off Hk Hn Hf;
    (destruct f as [|f]; [simpl in Hf; lia|]).
  - done.
  - unfold keys in Hn; simpl in Hn, Hf. apply not_elem_of_cons in Hn as [Hne Hn].
    rewrite flat_cons, <- app_assoc, search_round by done.
    rewrite decide_False by congruence. apply IH; done || lia.
Qed.

Lemma length_flat_ge es : (length es <= length (flat es))%nat.
Proof. induction es as [|e es IH]; [done|]. rewrite flat_cons, length_app, length_entry. simpl. lia. Qed.

(** ** The search and the edit against the abstract store *)

Lemma ts_search_found t es k v krest :
  ts_repr t es -> key_ok k -> ts_find es k = Some v ->
  exists pre post, es = pre ++ (k, v) :: post /\ k ∉ keys pre /\
    ts_key_search (data t) (k ++ krest) (length k) = Some (Some (length (flat pre))).
Proof.
  intros [_ _ [junk Hd] _ Hok _] Hk (pre & post & -> & Hn)%ts_find_split.
  exists pre, post. split; [done|]. split; [done|]. unfold ts_key_search. rewrite Hd.
  rewrite search_found; [done..|]. rewrite !length_app.
  pose proof (length_flat_ge (pre ++ (k, v) :: post)) as Hge. rewrite length_app in Hge. lia.
Qed.

Lemma ts_search_missing t es k krest :
  ts_repr t es -> key_ok k -> ts_find es k = None ->
  ts_key_search (data t) (k ++ krest) (length k) = Some None.
Proof.
  intros [_ _ [junk Hd] _ Hok _] Hk Hn%ts_find_None. unfold ts_key_search. rewrite Hd.
  apply search_missing; [done..|]. rewrite length_app.
  pose proof (length_flat_ge es). simpl. lia.
Qed.

(** Storing a string over as many bytes of an area, then one byte behind it. *)
Lemma wr_middle (B : bytes) x post c : wr (B ++ x :: post) (length B) c = Some (B ++ c :: post).
Proof.
  rewrite wr_Some by len. f_equal. rewrite insert_app_r_alt by lia. by rewrite Nat.sub_diag.
Qed.

Lemma store_str (B : bytes) o post v rest :
  length o = length v ->
  memcpy false (B ++ o ++ post) (length B) (v ++ rest) (length v) = Some (B ++ v ++ post).
Proof. intros Ho. rewrite memcpy_spec, take_app_length, splice_app by len. done. Qed.

Lemma store_cstr (B : bytes) o x post v rest :
  length o = length v ->
  memcpy false (B ++ o ++ x :: post) (length B) (v ++ rest) (length v) =
    Some (B ++ v ++ x :: post) /\
  wr (B ++ v ++ x :: post) (length B + length v) 0 = Some (B ++ v ++ 0 :: post).
Proof.
  intros Ho. split; [by apply store_str|]. rewrite !app_assoc, <- length_app. apply wr_middle.
Qed.

Lemma split_at (l : bytes) n :
  (n < length l)%nat -> exists o x r, l = o ++ x :: r /\ length o = n.
Proof.
  intros Hn. destruct (lookup_lt_is_Some_2 l n Hn) as [x Hx].
  exists (take n l), x, (drop (S n) l). split; [|len]. by rewrite take_drop_middle.
Qed.

(** The common case split of a replacement. *)
Lemma flat_middle pre e post : flat (pre ++ e :: post) = flat pre ++ entry e ++ flat post.
Proof. by rewrite flat_app, flat_cons. Qed.

Lemma drop_flat_pre (a b : bytes) : drop (length a) (a ++ b) = b.
Proof. apply drop_app_length. Qed.

Lemma entry_split k v : entry (k, v) = (k ++ [61]) ++ v ++ [0].
Proof. unfold entry. simpl. by rewrite <- app_assoc. Qed.

Lemma repr_intro t es l d junk :
  Z.of_nat (length d) < 2 ^ 32 -> is_bytes d -> Forall entry_ok es -> NoDup (keys es) ->
  l = Z.of_nat (length (flat es)) + 1 -> d = flat es ++ 0 :: junk ->
  ts_repr (set_data d (set_len l t)) es.
Proof. intros. constructor; simpl; try done. by exists junk. Qed.

Lemma flat_bytes es : Forall entry_ok es -> is_bytes (flat es).
Proof.
  induction 1 as [|e es He Hok IH]; [constructor|]. rewrite flat_cons.
  pose proof (entry_bytes e He) as Hb. apply is_bytes_app; split; [|done].
  rewrite <- (app_nil_r (entry e)), entry_cstr. apply is_bytes_app; split; [done|].
  apply is_bytes_cons; split; [solve_byte|constructor].
Qed.

(** [memmove] of the tail [Q] of an area down or up to offset [d]. *)
Lemma memmove_tail m d s X Q Y :
  m = X ++ Q ++ Y -> s = length X -> (d + length Q <= length m)%nat ->
  memmove m d s (length Q) = Some (take d m ++ Q ++ drop (d + length Q) m).
Proof.
  intros -> -> Hd. rewrite memmove_spec by (rewrite ?length_app in *; lia).
  rewrite drop_app_length, take_app_length. done.
Qed.

(** The area after the entry has been removed or resized. *)
Lemma area_removed (A E P junk : bytes) :
  let m := A ++ E ++ P ++ 0 :: junk in
  exists junk', memmove m (length A) (length A + length E) (length P + 1) =
                Some (A ++ P ++ 0 :: junk') /\ (is_bytes m -> is_bytes junk').
Proof.
  intros m. eexists. split.
  - replace (length P + 1)%nat with (length (P ++ [0])) by (rewrite length_app; done).
    rewrite (memmove_tail m _ _ (A ++ E) (P ++ [0]) junk); subst m.
    + rewrite take_app_length, <- app_assoc. simpl. done.
    + by rewrite <- !app_assoc.
    + by rewrite length_app.
    + rewrite !length_app; simpl; lia.
  - intros Hm. by apply Forall_drop.
Qed.

Lemma area_resized (A K E P junk : bytes) (n : nat) :
  let m := A ++ K ++ E ++ P ++ 0 :: junk in
  (length A + length K + (n + 1) + (length P + 1) <= length m)%nat ->
  exists o x junk',
    memmove m (length A + (length K + n + 1)) (length A + (length K + length E)) (length P + 1) =
      Some ((A ++ K) ++ o ++ x :: P ++ 0 :: junk') /\
    length o = n /\ (is_bytes m -> is_bytes junk').
Proof.
  intros m Hfit.
  destruct (lookup_lt_is_Some_2 (E ++ P ++ 0 :: junk) n) as [x Hx].
  { subst m. rewrite !length_app in *. simpl in *. lia. }
  exists (take n (E ++ P ++ 0 :: junk)), x. eexists. split; [|split].
  - replace (length P + 1)%nat with (length (P ++ [0])) by (rewrite length_app; done).
    rewrite (memmove_tail m _ _ (A ++ K ++ E) (P ++ [0]) junk); subst m.
    + replace (length A + (length K + n + 1))%nat with (length (A ++ K) + S n)%nat
        by (rewrite length_app; lia).
      rewrite (app_assoc A K). rewrite take_app_add, (take_S_r _ _ _ Hx).
      rewrite <- !app_assoc. simpl. done.
    + by rewrite <- !app_assoc.
    + rewrite !length_app. lia.
    + rewrite !length_app in *; simpl in *; lia.
  - rewrite length_take. apply lookup_lt_Some in Hx. lia.
  - intros Hm. by apply Forall_drop.
Qed.

(** What an edit must have done for [es] to become [es']. *)
Definition edit_ok (t : ts_rec) (es es' : entries) (r : ts_edit) : Prop :=
  match r with
  | TsSame => es' = es
  | TsNoSpace => (length (data t) < length (flat es') + 1)%nat
  | TsEdit l d =>
      es' <> es /\ length d = length (data t) /\ ts_repr (set_data d (set_len l t)) es'
  end.

Lemma put_value_ok t es es' l d v K o x P junk rest :
  Forall entry_ok es' -> NoDup (keys es') -> es' <> es ->
  length d = length (data t) -> Z.of_nat (length (data t)) < 2 ^ 32 ->
  d = K ++ o ++ x :: P ++ 0 :: junk -> length o = length v -> is_bytes junk ->
  flat es' = K ++ v ++ 0 :: P -> l = Z.of_nat (length (flat es')) + 1 ->
  exists r,
    (d1 ← memcpy false d (length K) (v ++ 0 :: rest) (length v);
     d2 ← wr d1 (length K + length v) 0; Some (TsEdit l d2)) = Some r /\
    edit_ok t es es' r.
Proof.
  intros Hok Hnd Hne Hlen Hcap -> Ho HJ Hflat Hl.
  destruct (store_cstr K o x (P ++ 0 :: junk) v (0 :: rest) Ho) as [-> H2].
  cbn [mbind option_bind]. rewrite H2. cbn [mbind option_bind]. eexists; split; [done|].
  assert (Hd : K ++ v ++ 0 :: P ++ 0 :: junk = flat es' ++ 0 :: junk).
  { rewrite Hflat. rewrite <- !app_assoc. simpl. done. }
  split; [done|]. split.
  - rewrite <- Hlen, !length_app. simpl. lia.
  - apply (repr_intro t es' l _ junk); try done.
    + rewrite <- Hlen in Hcap. rewrite !length_app in *. simpl in *. rewrite !length_app in *.
      simpl in *. lia.
    + rewrite Hd. apply is_bytes_app; split; [by apply flat_bytes|].
      apply is_bytes_cons; split; [solve_byte|done].
Qed.

Lemma drop_at (A K V : bytes) : drop (length A + length K) (A ++ K ++ V) = V.
Proof. rewrite <- length_app, app_assoc. apply drop_app_length. Qed.

(** The area around the entry that is replaced. *)
Record shape (t : ts_rec) (A k v0 P junk : bytes) : Prop := {
  sh_data : data t = A ++ (k ++ [61]) ++ (v0 ++ [0]) ++ P ++ 0 :: junk;
  sh_len : len t = Z.of_nat (length A + (length k + 1) + (length v0 + 1) + length P) + 1;
  sh_size : length (data t) =
            (length A + (length k + 1) + (length v0 + 1) + length P + 1 + length junk)%nat;
  sh_cap : Z.of_nat (length (data t)) < 2 ^ 32;
  sh_junk : is_bytes junk;
  sh_bytes : is_bytes (data t);
  sh_str : entry_ok (k, v0);
}.

Lemma repr_shape t pre k v0 post :
  ts_repr t (pre ++ (k, v0) :: post) ->
  exists junk, shape t (flat pre) k v0 (flat post) junk.
Proof.
  intros [Hlen Hcap [junk Hd] HB Hok _]. exists junk.
  rewrite flat_middle, entry_split in *. rewrite <- !app_assoc in Hd.
  constructor; try done.
  - rewrite Hd. by rewrite <- !app_assoc.
  - rewrite Hlen. len.
  - rewrite Hd. len.
  - rewrite Hd in HB. inv_bytes. done.
  - apply Forall_app in Hok as [_ Hok]. by apply Forall_cons_iff in Hok as [? _].
Qed.

Lemma shape_strlen t A k v0 P junk :
  shape t A k v0 P junk ->
  strlen (Some (drop (length A) (data t))) = Some (length k + 1 + length v0)%nat.
Proof.
  intros [-> _ _ _ _ _ He]. rewrite drop_app_length. simpl.
  replace ((k ++ [61]) ++ (v0 ++ [0]) ++ P ++ 0 :: junk)
    with ((k ++ 61 :: v0) ++ 0 :: P ++ 0 :: junk) by (rewrite <- !app_assoc; done).
  rewrite strlen_loop_cstr by apply (entry_no_nul (k, v0) He).
  rewrite length_app. simpl. f_equal. lia.
Qed.

Section Replace.
Context (t : ts_rec) (es es' : entries) (A k v0 P junk v rest : bytes).
Hypothesis Hsh : shape t A k v0 P junk.
Hypothesis Hok : Forall entry_ok es'.
Hypothesis Hnd : NoDup (keys es').

Let K := k ++ [61].

Lemma replace_remove :
  v = [] -> es' <> es -> flat es' = A ++ P ->
  exists r, ts_replace t (length A) (length k) (length v) (v ++ 0 :: rest) = Some r /\
            edit_ok t es es' r.
Proof using Hsh Hok Hnd.
  intros -> Hne Hfl. pose proof (shape_strlen _ _ _ _ _ _ Hsh) as Hs.
  destruct Hsh as [Hd Hlen Hsz Hcap HJ HB _].
  unfold ts_replace. rewrite Hs. cbn [mbind option_bind length Nat.eqb]. cbn zeta.
  rewrite (proj2 (Nat.eqb_neq _ 0)) by lia. cbn [negb].
  rewrite u64_id by lia. rewrite (proj2 (Z.ltb_ge _ _)) by lia.
  unfold to_size. rewrite (proj2 (Z.leb_le _ _)) by lia. cbn [mbind option_bind].
  destruct (area_removed A (K ++ v0 ++ [0]) P junk) as (junk' & Hmv & HJ').
  replace (A ++ (K ++ v0 ++ [0]) ++ P ++ 0 :: junk) with (data t) in *
    by (rewrite Hd; subst K; by rewrite <- !app_assoc).
  replace (Z.to_nat _) with (length P + 1)%nat by lia.
  rewrite Nat.add_0_r.
  replace (length A + (length k + 1 + length v0 + 1))%nat
    with (length A + length (K ++ v0 ++ [0%Z]))%nat
    by (subst K; rewrite !length_app; simpl; lia).
  rewrite Hmv. cbn [mbind option_bind]. eexists; split; [done|].
  apply length_memmove in Hmv. split; [done|]. split; [done|].
  apply (repr_intro t _ _ _ junk'); try done.
  - rewrite Hmv. done.
  - rewrite app_assoc, <- Hfl. apply is_bytes_app.
    split; [by apply flat_bytes|]. apply is_bytes_cons; split; [solve_byte|auto].
  - rewrite Hfl, length_app. rewrite u32_id by (unfold is_u32; lia). lia.
  - by rewrite Hfl, <- app_assoc.
Qed.

Lemma replace_resize :
  v <> [] -> value_ok v -> length v <> length v0 -> es' <> es -> flat es' = A ++ entry (k, v) ++ P ->
  exists r, ts_replace t (length A) (length k) (length v) (v ++ 0 :: rest) = Some r /\
            edit_ok t es es' r.
Proof using Hsh Hok Hnd.
  intros Hv [_ Hshort] Hvl Hne Hfl. pose proof (shape_strlen _ _ _ _ _ _ Hsh) as Hs.
  unfold short in Hshort. destruct Hsh as [Hd Hlen Hsz Hcap HJ HB [[_ Hks] _]].
  unfold short in Hks. simpl in Hks. assert (Hlv : (length v =? 0)%nat = false) by (apply Nat.eqb_neq; by destruct v).
  assert (Hfs : length (flat es') = (length A + (length k + 1) + (length v + 1) + length P)%nat).
  { rewrite Hfl, !length_app, length_entry. simpl. lia. }
  unfold ts_replace. rewrite Hs. cbn [mbind option_bind]. cbn zeta. rewrite Hlv.
  rewrite (proj2 (Nat.eqb_neq _ _)) by lia. cbn [negb].
  destruct (Z.ltb_spec (Z.of_nat (length (data t)))
              (u64 (len t - Z.of_nat (length k + 1 + length v0 + 1) +
                    Z.of_nat (length k + 1 + length v + 1)))) as [Hfull|Hfit].
  { eexists; split; [done|]. simpl. rewrite Hfs.
    rewrite u64_id in Hfull by lia. lia. }
  rewrite u64_id in Hfit by lia.
  unfold to_size. rewrite (proj2 (Z.leb_le _ _)) by lia. cbn [mbind option_bind].
  destruct (area_resized A K (v0 ++ [0]) P junk (length v)) as (o & x & junk' & Hmv & Ho & HJ').
  { subst K. len. }
  replace (A ++ K ++ (v0 ++ [0]) ++ P ++ 0 :: junk) with (data t) in * by done.
  assert (HK : length K = (length k + 1)%nat) by (subst K; len).
  rewrite HK in Hmv. autorewrite with boot_len in Hmv.
  replace (Z.to_nat _) with (length P + 1)%nat by lia.
  replace (length k + 1 + length v0 + 1)%nat with (length k + 1 + (length v0 + 1))%nat by lia.
  rewrite Hmv. cbn [mbind option_bind].
  replace (length A + length k + 1)%nat with (length (A ++ K)) by len.
  apply (put_value_ok t es es' _ _ v (A ++ K) o x P junk'); try done; auto.
  - by apply length_memmove in Hmv.
  - rewrite Hfl, entry_split. subst K. rewrite <- !app_assoc. done.
  - rewrite u32_id by (unfold is_u32; lia). lia.
Qed.

Lemma replace_same :
  v <> [] -> value_ok v -> length v = length v0 -> flat es' = A ++ entry (k, v) ++ P ->
  (v = v0 -> es' = es) -> (v <> v0 -> es' <> es) ->
  exists r, ts_replace t (length A) (length k) (length v) (v ++ 0 :: rest) = Some r /\
            edit_ok t es es' r.
Proof using Hsh Hok Hnd.
  intros Hv [[Hv0 HvB] _] Hvl Hfl He1 He2. pose proof (shape_strlen _ _ _ _ _ _ Hsh) as Hs.
  destruct Hsh as [Hd Hlen Hsz Hcap HJ HB [_ [[Hz0 Hz1] _]]].
  assert (Hlv : (length v =? 0)%nat = false) by (apply Nat.eqb_neq; by destruct v).
  assert (HK : length K = (length k + 1)%nat) by (subst K; len).
  unfold ts_replace. rewrite Hs. cbn [mbind option_bind]. cbn zeta. rewrite Hlv.
  rewrite (proj2 (Nat.eqb_eq _ _)) by lia. cbn [negb].
  replace (length A + length k + 1)%nat with (length (A ++ K)) by len.
  assert (drop (length (A ++ K)) (data t) = v0 ++ 0 :: P ++ 0 :: junk) as ->.
  { rewrite Hd. fold K. rewrite length_app, drop_at, <- app_assoc. done. }
  destruct (strcmp_cstr v0 v (P ++ 0 :: junk) rest) as (r & -> & Hr); [done..|].
  cbn [mbind option_bind].
  destruct (Z.eqb_spec r 0) as [E|E].
  - eexists; split; [done|]. simpl. symmetry in Hr. apply He1. symmetry. by apply Hr.
  - assert (v <> v0) by (intros ->; apply E, Hr; done).
    pose proof (put_value_ok t es es' (len t) (data t) v (A ++ K) v0 0 P junk rest) as H'.
    apply H'; try done; auto.
    + rewrite Hd. fold K. rewrite <- !app_assoc. done.
    + rewrite Hfl, entry_split. subst K. rewrite <- !app_assoc. done.
    + rewrite Hfl, Hlen. rewrite !length_app, length_entry. simpl. lia.
Qed.

End Replace.

Lemma ts_replace_ok t pre k v0 post v rest :
  let es := pre ++ (k, v0) :: post in
  ts_repr t es -> k ∉ keys pre -> key_ok k -> value_ok v ->
  exists r, ts_replace t (length (flat pre)) (length k) (length v) (v ++ 0 :: rest) = Some r /\
            edit_ok t es (ts_put es k v) r.
Proof.
  intros es Hr Hn Hk Hv. pose proof Hr as [_ _ _ _ Hok Hnd].
  pose proof (ts_put_nodup es k v Hnd) as Hnd'. pose proof (ts_put_ok es k v Hok Hk Hv) as Hok'.
  destruct (repr_shape _ _ _ _ _ Hr) as [junk Hsh].
  assert (Hput : ts_put es k v = pre ++ (if decide (v = []) then post else (k, v) :: post))
    by by apply ts_put_split.
  destruct (decide (v = [])) as [->|Hvne].
  - eapply replace_remove; rewrite ?Hput; eauto using flat_app.
    + by rewrite <- Hput.
    + by rewrite <- Hput.
    + subst es. intros Habs%(f_equal length). len.
  - assert (Hfl : flat (ts_put es k v) = flat pre ++ entry (k, v) ++ flat post)
      by (rewrite Hput; apply flat_middle).
    assert (Hdiff : v <> v0 -> ts_put es k v <> es).
    { rewrite Hput. intros Hd. subst es. intros Heq%app_inv_head. congruence. }
    destruct (decide (length v = length v0)).
    + eapply replace_same; eauto. by intros ->.
    + eapply replace_resize; eauto. apply Hdiff. congruence.
Qed.

Lemma ts_append_ok t es k v krest vrest :
  ts_repr t es -> k ∉ keys es -> key_ok k -> value_ok v ->
  exists r, ts_append t (k ++ krest) (v ++ 0 :: vrest) (length k) (length v) = Some r /\
            edit_ok t es (ts_put es k v) r.
Proof.
  intros [Hlen Hcap [junk Hd] HB Hok Hnd] Hn Hk Hv.
  pose proof (ts_put_nodup es k v Hnd) as Hnd'. pose proof (ts_put_ok es k v Hok Hk Hv) as Hok'.
  rewrite (ts_put_new es k v Hn) in *. unfold ts_append.
  destruct (decide (v = [])) as [->|Hvne]; [by eexists|].
  assert ((length v =? 0)%nat = false) as -> by (apply Nat.eqb_neq; by destruct v).
  destruct Hk as [_ Hks], Hv as [_ Hvs]. unfold short in *.
  assert (Hdl : length (data t) = (length (flat es) + 1 + length junk)%nat) by (rewrite Hd; len).
  assert (Hfl : flat (es ++ [(k, v)]) = flat es ++ k ++ 61 :: v ++ [0]).
  { rewrite flat_app. unfold flat at 2. simpl. by rewrite app_nil_r. }
  rewrite u64_id by lia. destruct (Z.ltb_spec (Z.of_nat (length (data t)))
    (len t + Z.of_nat (length k + 1 + length v + 1))) as [Hfull|Hfit].
  { eexists; split; [done|]. simpl. rewrite Hfl. len. }
  unfold to_size. rewrite (proj2 (Z.leb_le _ _)) by lia. cbn [mbind option_bind].
  replace (Z.to_nat (len t - 1)) with (length (flat es)) by lia.
  destruct (split_at (0 :: junk) (length k)) as (o1 & x1 & r1 & E1 & L1); [len|].
  assert (Lr1 : (length r1 = length junk - length k)%nat).
  { apply (f_equal length) in E1. len. }
  destruct (split_at r1 (length v)) as (o2 & x2 & r2 & -> & L2); [lia|].
  destruct r2 as [|x3 junk']; [len|].
  rewrite Hd, E1. rewrite store_str by done. cbn [mbind option_bind].
  rewrite (app_assoc (flat es) k), <- length_app, wr_middle. cbn [mbind option_bind].
  replace ((flat es ++ k) ++ 61 :: o2 ++ x2 :: x3 :: junk')
    with (((flat es ++ k) ++ [61]) ++ o2 ++ x2 :: x3 :: junk') by (by rewrite <- !app_assoc).
  replace (length (flat es ++ k) + 1)%nat with (length ((flat es ++ k) ++ [61])) by len.
  set (B := (flat es ++ k) ++ [61]).
  destruct (store_cstr B o2 x2 (x3 :: junk') v (0 :: vrest) L2) as [-> Hw2].
  cbn [mbind option_bind]. rewrite Hw2. cbn [mbind option_bind].
  assert (wr (B ++ v ++ 0 :: x3 :: junk') (length B + length v + 1) 0 =
          Some (B ++ v ++ 0 :: 0 :: junk')) as ->.
  { pose proof (wr_middle (B ++ v ++ [0]) x3 junk' 0) as Hw. rewrite <- !app_assoc in Hw.
    simpl in Hw. rewrite <- Hw. f_equal. len. }
  cbn [mbind option_bind]. eexists; split; [done|].
  assert (Hfin : B ++ v ++ 0 :: 0 :: junk' = flat (es ++ [(k, v)]) ++ 0 :: junk').
  { rewrite Hfl. subst B. rewrite <- !app_assoc. simpl. by rewrite <- !app_assoc. }
  assert (Hbk : is_bytes junk').
  { rewrite Hd, E1 in HB. inv_bytes. done. }
  split; [|split].
  - intros Habs%(f_equal length). len.
  - rewrite Hd, E1. subst B. len.
  - apply (repr_intro t _ _ _ junk'); try done.
    + apply (Z.le_lt_trans _ (Z.of_nat (length (data t)))); [|done]. rewrite Hd, E1. subst B. len.
    + rewrite Hfin. apply is_bytes_app. split; [by apply flat_bytes|].
      apply is_bytes_cons; split; [solve_byte|done].
    + rewrite Hfl. rewrite u32_id by (unfold is_u32; lia). len.
Qed.

(** The whole edit refines [ts_put]: it answers "same" only when nothing is to
    change and "no space" only when the new list does not fit. *)
Lemma ts_update_ok t es k v krest vrest :
  ts_repr t es -> key_ok k -> value_ok v ->
  exists r, ts_update t (k ++ 0 :: krest) (v ++ 0 :: vrest) = Some r /\
            edit_ok t es (ts_put es k v) r.
Proof.
  intros Hr Hk Hv. unfold ts_update. cbn [strlen].
  rewrite !strlen_loop_cstr by apply Hk || apply Hv. cbn [mbind option_bind].
  destruct (ts_find es k) as [v0|] eqn:Hf.
  - destruct (ts_search_found t es k v0 (0 :: krest)) as (pre & post & -> & Hn & ->); [done..|].
    cbn [mbind option_bind]. by apply ts_replace_ok.
  - rewrite (ts_search_missing t es) by done. cbn [mbind option_bind].
    apply ts_append_ok; [done| |done..]. by apply ts_find_None.
Qed.

(** Reading a key gives its value cut to the size of the buffer and padded
    with NUL, or leaves the buffer alone. *)
Lemma ts_get_ok t es k krest buf size :
  ts_repr t es -> key_ok k -> (size <= length buf)%nat ->
  ts_get t (k ++ 0 :: krest) buf size =
  Some (match ts_find es k with
        | Some v => splice buf 0 (take size v ++ replicate (size - length v) 0)
        | None => buf
        end).
Proof.
  intros Hr Hk Hsz. unfold ts_get. cbn [strlen].
  rewrite strlen_loop_cstr by apply Hk. cbn [mbind option_bind].
  destruct (ts_find es k) as [v|] eqn:Hf.
  - destruct (ts_search_found t es k v (0 :: krest)) as (pre & post & -> & Hn & ->); [done..|].
    cbn [mbind option_bind]. destruct (repr_shape _ _ _ _ _ Hr) as [junk [Hd _ _ _ _ _ [_ [[Hv _] _]]]].
    replace (length (flat pre) + length k + 1)%nat
      with (length (flat pre) + length (k ++ [61%Z]))%nat by len.
    rewrite Hd, drop_at, <- app_assoc. simpl. by rewrite strncpy_spec.
  - by rewrite (ts_search_missing t es).
Qed.

(** ** The checksum *)

Lemma crc_bit_range c : is_u32 c -> is_u32 (crc_bit c).
Proof.
  intros [H0 H1]. unfold crc_bit.
  assert (Hs : 0 <= Z.shiftr c 1 < 2 ^ 32).
  { rewrite Z.shiftr_div_pow2 by lia. split; [apply Z.div_pos; lia|].
    apply Z.div_lt_upper_bound; lia. }
  apply lxor_u32; [exact Hs|]. destruct (negb _); unfold is_u32; lia.
Qed.

Lemma crc_iter_range n c : is_u32 c -> is_u32 (Nat.iter n crc_bit c).
Proof.
  intros Hc. induction n as [|n IH]; [exact Hc|]. rewrite Nat.iter_succ. by apply crc_bit_range.
Qed.

Lemma crc_byte_range c b : is_u32 c -> is_u8 b -> is_u32 (crc_byte c b).
Proof.
  intros Hc Hb. exact (crc_iter_range 8 _ (lxor_u32 c b Hc (is_u8_u32 b Hb))).
Qed.

Lemma crc_fold_range l a : is_u32 a -> is_bytes l -> is_u32 (fold_left crc_byte l a).
Proof.
  intros Ha Hl. revert a Ha. induction Hl as [|b l Hb Hl IH]; intros a Ha; [exact Ha|].
  rewrite fold_left_cons. exact (IH _ (crc_byte_range a b Ha Hb)).
Qed.

Lemma ts_crc_range t c : is_bytes (data t) -> ts_crc t = Some c -> is_u32 c.
Proof.
  intros HB. unfold ts_crc. case_decide; [|done]. intros [= <-].
  apply lxor_u32; [|unfold is_u32; lia].
  assert (Hp : is_bytes (take (Z.to_nat (len t + 8)) (le32 (len t) ++ le32 (version t) ++ data t))).
  { apply Forall_take. repeat (apply is_bytes_app; split); try done; apply le32_bytes. }
  apply crc_fold_range; [unfold is_u32; lia|done].
Qed.

(** The checksum is defined when [len] lies within the data area, and reads
    nothing beyond it. *)
Lemma ts_crc_defined t :
  0 <= len t <= Z.of_nat (length (data t)) -> exists c, ts_crc t = Some c.
Proof. intros H. unfold ts_crc. rewrite decide_True; [eauto|]. unfold le32. len. Qed.

Lemma ts_crc_ext t t' :
  0 <= len t -> len t = len t' -> version t = version t' -> length (data t) = length (data t') ->
  take (Z.to_nat (len t)) (data t) = take (Z.to_nat (len t)) (data t') -> ts_crc t = ts_crc t'.
Proof.
  intros H0 Hl Hv Hd Ht. unfold ts_crc. rewrite <- Hl, <- Hv.
  set (h := le32 (len t) ++ le32 (version t)).
  rewrite !(app_assoc (le32 (len t))). fold h.
  replace (Z.to_nat (len t + 8)) with (length h + Z.to_nat (len t))%nat by (subst h; unfold le32; len).
  rewrite !take_app_add, Ht.
  destruct (decide (length h + Z.to_nat (len t) <= length (h ++ data t))%nat) as [Ha|Ha],
           (decide (length h + Z.to_nat (len t) <= length (h ++ data t'))%nat) as [Hb|Hb]; try done;
    exfalso; rewrite !length_app in *; lia.
Qed.
