(* ===== verification/RamTs.v ===== *)
(** * The transactional store in SRAM (boot/common/driver/ram_ts/ram_ts.c)

    The store lies at a fixed address of the System Manager's memory and
    survives a warm reboot; [sram] is that memory, [ts_set] says whether the
    static pointer [__ts] has been set by [ram_ts_init]. *)

From S2P Require Import Prelude CString CType TsData.

Definition RAM_TS_MAGIC : Z := 0x53544D52.
Definition RAM_TS_HDR_SIZE : nat := 16.
Definition RAM_TS_MAX_SIZE : nat := 512.
Definition RAM_TS_MAX_DATA_SIZE : nat := RAM_TS_MAX_SIZE - RAM_TS_HDR_SIZE.

Definition EINVAL : Z := 1.
Definition ENOSPC : Z := 2.

Record ram_state := mk_ram {
  ts_set : bool;   (* __ts != NULL *)
  sram : ts_rec;   (* *(struct ram_ts * )RAM_TS_BASE *)
}.

(** The two builds parse numbers with different functions. *)
Inductive build := SM | SOC.

Definition parse_ul (b : build) : bytes -> Z -> option (Z * nat) :=
  match b with SM => strtoul | SOC => str2ul end.

Definition ram_ts_key_search := ts_key_search.
Definition ram_ts_crc := ts_crc.

(** [__ram_ts_get]: [Some None] is NULL. *)
Definition ram_ts_check (st : ram_state) : option (option ts_rec) :=
  if ts_set st then
    c ← ram_ts_crc (sram st);
    if negb (crc (sram st) =? c) then Some None else Some (Some (sram st))
  else Some None.

Definition ram_ts_set (st : ram_state) (key value : bytes) : option (Z * ram_state) :=
  _ ← strlen (Some key);
  _ ← strlen (Some value);
  ts ← ram_ts_check st;
  match ts with
  | None => Some (- EINVAL, st)
  | Some t =>
      e ← ts_update t key value;
      match e with
      | TsSame => Some (0, st)
      | TsNoSpace => Some (- ENOSPC, st)
      | TsEdit l d =>
          let t' := set_data d (set_len l t) in
          c ← ram_ts_crc t';
          Some (0, mk_ram true (set_crc c t'))
      end
  end.

Definition ram_ts_get (st : ram_state) (key value : bytes) (size : nat) : option bytes :=
  _ ← strlen (Some key);
  value ← wr value 0 0;
  ts ← ram_ts_check st;
  match ts with
  | None => Some value
  | Some t => ts_get t key value size
  end.

(** [value] is the uninitialised local [char value[16]]. *)
Definition ram_ts_get_int (b : build) (st : ram_state) (key : bytes) (default_value : Z)
  (value : bytes) : option Z :=
  value ← ram_ts_get st key value 16;
  c ← value !! 0%nat;
  if c =? 0 then Some default_value
  else '(r, _) ← parse_ul b value 0;
       Some (i32 r).

(** The block of [ram_ts_init] that clears the memory and writes a new header. *)
Definition ram_ts_reset : option ts_rec :=
  let t1 := set_len 1 (set_version 1 (set_magic RAM_TS_MAGIC
              (mk_ts 0 0 0 0 (replicate RAM_TS_MAX_DATA_SIZE 0)))) in
  d ← wr (data t1) 0 0;
  let t2 := set_data d t1 in
  c ← ram_ts_crc t2;
  Some (set_crc c t2).

Definition ram_ts_init (st : ram_state) : option (Z * ram_state) :=
  let t := sram st in
  stale ← (if negb (magic t =? RAM_TS_MAGIC) then Some true
           else c ← ram_ts_crc t; Some (negb (crc t =? c)));
  if (stale : bool) then t' ← ram_ts_reset; Some (0, mk_ram true t')
  else Some (0, mk_ram true t).

(** ** The abstract store: an association list of limited size *)

Definition fits (es : entries) : Prop := (length (flat es) + 1 <= RAM_TS_MAX_DATA_SIZE)%nat.

#[export] Instance fits_dec es : Decision (fits es).
Proof. unfold fits. apply _. Defined.

Definition spec_set (es : entries) (k v : bytes) : Z * entries :=
  if decide (fits (ts_put es k v)) then (0, ts_put es k v) else (- ENOSPC, es).

(** A running store holds [es]: pointer set, magic and checksum right. *)
Record ram_holds (st : ram_state) (es : entries) : Prop := {
  holds_set : ts_set st = true;
  holds_magic : magic (sram st) = RAM_TS_MAGIC;
  holds_size : length (data (sram st)) = RAM_TS_MAX_DATA_SIZE;
  holds_repr : ts_repr (sram st) es;
  holds_crc : ts_crc (sram st) = Some (crc (sram st));
}.

Lemma repr_len_bound t es : ts_repr t es -> 0 <= len t <= Z.of_nat (length (data t)).
Proof. intros [Hl _ [junk Hd] _ _ _]. rewrite Hl, Hd. len. Qed.

Lemma repr_fits t es : ts_repr t es -> (length (flat es) + 1 <= length (data t))%nat.
Proof. intros [_ _ [junk Hd] _ _ _]. rewrite Hd. len. Qed.

Lemma ram_check_holds st es : ram_holds st es -> ram_ts_check st = Some (Some (sram st)).
Proof.
  intros []. unfold ram_ts_check, ram_ts_crc. rewrite holds_set0, holds_crc0. simpl.
  by rewrite Z.eqb_refl.
Qed.

(** A concrete running store, for the witnesses. *)
Definition fresh_ram : ram_state :=
  match ram_ts_init (mk_ram false (mk_ts 0 0 0 0 (replicate RAM_TS_MAX_DATA_SIZE 0xa5))) with
  | Some (_, st) => st
  | None => mk_ram false (mk_ts 0 0 0 0 [])
  end.


(** The empty record represents the empty list. *)
Lemma ram_repr_empty t junk :
  len t = 1 -> data t = 0 :: junk -> is_bytes junk -> Z.of_nat (length (data t)) < 2 ^ 32 ->
  ts_repr t [].
Proof.
  intros Hl Hd Hj Hc. constructor; try done.
  - by exists junk.
  - rewrite Hd. apply is_bytes_cons. split; [solve_byte|done].
  - apply NoDup_nil_2.
Qed.

(** [ram_ts_init] keeps a valid store and resets anything stale. *)
Lemma init_holds es t b :
  ram_holds (mk_ram true t) es -> ram_ts_init (mk_ram b t) = Some (0, mk_ram true t).
Proof.
  intros [_ Hm _ _ Hc]. unfold ram_ts_init, ram_ts_crc. simpl in *. rewrite Hm, Z.eqb_refl, Hc.
  simpl. by rewrite Z.eqb_refl.
Qed.

Lemma reset_holds : exists t, ram_ts_reset = Some t /\ ram_holds (mk_ram true t) [].
Proof.
  eexists; split; [vm_compute; reflexivity|].
  constructor; try (vm_compute; reflexivity).
  apply (ram_repr_empty _ (replicate 495 0)); try (vm_compute; reflexivity).
  apply Forall_replicate. solve_byte.
Qed.

Lemma init_stale t b :
  magic t <> RAM_TS_MAGIC \/ (exists c, ts_crc t = Some c /\ crc t <> c) ->
  exists st', ram_ts_init (mk_ram b t) = Some (0, st') /\ ram_holds st' [].
Proof.
  intros Hbad. unfold ram_ts_init, ram_ts_crc. simpl sram.
  assert ((if negb (magic t =? RAM_TS_MAGIC) then Some true
           else c ← ts_crc t; Some (negb (crc t =? c))) = Some true) as ->.
  { destruct (Z.eqb_spec (magic t) RAM_TS_MAGIC); simpl; [|done].
    destruct Hbad as [?|(c & -> & Hc)]; [done|]. simpl. by rewrite (proj2 (Z.eqb_neq _ _)). }
  cbn [mbind option_bind]. destruct reset_holds as (t' & -> & Ht').
  cbn [mbind option_bind]. eauto.
Qed.

(** A running store answers [ram_ts_get] from its list. *)
Lemma get_holds st es k krest buf size :
  ram_holds st es -> key_ok k -> (0 < size <= length buf)%nat ->
  ram_ts_get st (k ++ 0 :: krest) buf size =
  Some (match ts_find es k with
        | Some v => splice (<[0%nat:=0]> buf) 0 (take size v ++ replicate (size - length v) 0)
        | None => <[0%nat:=0]> buf
        end).
Proof.
  intros Hst Hk Hsz. unfold ram_ts_get. cbn [strlen]. rewrite strlen_loop_cstr by apply Hk.
  cbn [mbind option_bind]. rewrite wr_Some by lia. cbn [mbind option_bind].
  rewrite (ram_check_holds _ _ Hst). cbn [mbind option_bind].
  apply (ts_get_ok _ es); [apply Hst|done|]. rewrite length_insert. lia.
Qed.

(** [ram_ts_set] on a valid store is total (no access outside the
    record), answers what the abstract store answers (0, or -ENOSPC when the new
    list does not fit), and leaves a valid store that holds the new list. *)
Lemma set_holds (st : ram_state) (es : entries) (k v krest vrest : bytes) :
  ram_holds st es -> key_ok k -> value_ok v ->
  exists st', ram_ts_set st (k ++ 0 :: krest) (v ++ 0 :: vrest) = Some ((spec_set es k v).1, st') /\
              ram_holds st' (spec_set es k v).2.
Proof.
  intros Hst Hk Hv. unfold ram_ts_set. cbn [strlen].
  rewrite !strlen_loop_cstr by apply Hk || apply Hv. rewrite (ram_check_holds _ _ Hst).
  cbn [mbind option_bind]. pose proof Hst as [Hs Hm Hz Hr Hc].
  destruct (ts_update_ok (sram st) es k v krest vrest Hr Hk Hv) as (e & -> & He).
  cbn [mbind option_bind]. unfold spec_set. destruct e as [| |l d]; simpl in He.
  - rewrite He. rewrite decide_True by (unfold fits; rewrite <- Hz; by apply repr_fits with (t := sram st)).
    eauto.
  - rewrite decide_False by (unfold fits; lia). eauto.
  - destruct He as (Hne & Hd & Hr').
    rewrite decide_True by (unfold fits; apply repr_fits in Hr'; simpl in Hr'; lia).
    destruct (ts_crc_defined (set_data d (set_len l (sram st)))) as [c Hc'].
    { by apply repr_len_bound in Hr'. }
    unfold ram_ts_crc. rewrite Hc'. cbn [mbind option_bind]. eexists; split; [done|].
    constructor; simpl; try done; [by rewrite Hd|].
    eapply repr_ext; [exact Hr'|done..].
Qed.


(** A key's value as a C string in a buffer large enough for it. *)
Lemma get_cstr st es k krest buf size v :
  ram_holds st es -> key_ok k -> (size <= length buf)%nat -> (length v < size)%nat ->
  value_ok v -> ts_find es k = Some v ->
  exists buf', ram_ts_get st (k ++ 0 :: krest) buf size = Some buf' /\
               exists rest, buf' = v ++ 0 :: rest.
Proof.
  intros Hst Hk Hsz Hv Hvo Hf. rewrite (get_holds st es) by (done || lia). rewrite Hf.
  eexists; split; [done|]. unfold splice. rewrite take_0, take_ge by lia. simpl.
  destruct (size - length v)%nat as [|n] eqn:E; [lia|]. simpl. rewrite <- app_assoc. simpl. eauto.
Qed.

(** A value shorter than the buffer, as [strncpy] stores it. *)
Lemma short_value buf v :
  length buf = 16%nat -> (length v <= 16)%nat ->
  splice (<[0%nat:=0]> buf) 0 (take 16 v ++ replicate (16 - length v) 0) =
  v ++ replicate (16 - length v) 0.
Proof.
  intros Hb Hv. unfold splice. rewrite take_0, (take_ge v) by lia.
  rewrite drop_ge by len. by rewrite app_nil_r.
Qed.

Lemma parse_short_decimal b c s n :
  Forall (fun x => isdigit x = true) (c :: s) -> c <> 48 -> (length s < 15)%nat ->
  parse_ul b (c :: s ++ 0 :: replicate n 0) 0 =
  Some (horner 10 (map (fun x => x - 48) (c :: s)), S (length s)).
Proof.
  intros Hd Hc Hs.
  assert (Hp : str2ul (c :: s ++ 0 :: replicate n 0) 0 =
               Some (horner 10 (map (fun x => x - 48) (c :: s)), S (length s))).
  { rewrite parse_decimal by done. rewrite u64_id; [done|].
    assert (Hr : Forall (fun d => 0 <= d <= 9) (map (fun x => x - 48) (c :: s))).
    { apply List.Forall_map. eapply List.Forall_impl; [|exact Hd].
      intros x Hx%digit_range. simpl. lia. }
    apply horner_bound in Hr as [H0 H1]. rewrite List.length_map in H1. split; [done|].
    eapply Z.lt_le_trans; [exact H1|]. transitivity (10 ^ 15); [|lia].
    apply Z.pow_le_mono_r; simpl; lia. }
  destruct b; [|done]. simpl parse_ul. rewrite parsers_agree; [done| |].
  - change (c :: s ++ ?r) with ((c :: s) ++ r). apply is_bytes_app. split.
    + eapply List.Forall_impl; [|exact Hd]. intros x Hx%digit_range. unfold is_u8. lia.
    + apply is_bytes_cons. split; [solve_byte|]. apply Forall_replicate. solve_byte.
  - destruct s as [|c' s]; simpl; [done|]. apply Forall_cons_iff in Hd as [_ Hd].
    apply Forall_cons_iff in Hd as [Hd%digit_range _]. intros [= ->]. lia.
Qed.

Lemma parse_overrun b c s :
  Forall (fun x => isdigit x = true) (c :: s) -> c <> 48 -> parse_ul b (c :: s) 0 = None.
Proof.
  intros Hd Hc.
  assert (Hp : str2ul (c :: s) 0 = None).
  { unfold str2ul. simpl lookup. cbn [mbind option_bind]. rewrite (proj2 (Z.eqb_neq c 48)) by done.
    by apply str2ul_loop_overrun. }
  destruct b; [|done]. simpl parse_ul. rewrite parsers_agree; [done| |].
  - eapply List.Forall_impl; [|exact Hd]. intros x Hx%digit_range. unfold is_u8. lia.
  - destruct s as [|c' s]; simpl; [done|]. apply Forall_cons_iff in Hd as [_ Hd].
    apply Forall_cons_iff in Hd as [Hd%digit_range _]. intros [= ->]. lia.
Qed.

(** ** Properties *)

(** C5: [ram_ts_set] on a valid store is total (no access outside the
    record), answers what the abstract store answers (0, or -ENOSPC when the new
    list does not fit), and leaves a valid store that holds the new list. *)
Theorem ram_ts_set_refines (st : ram_state) (es : entries) (k v krest vrest : bytes) :
  ram_holds st es -> key_ok k -> value_ok v ->
  exists st', ram_ts_set st (k ++ 0 :: krest) (v ++ 0 :: vrest) = Some ((spec_set es k v).1, st') /\
              ram_holds st' (spec_set es k v).2.
Proof. apply set_holds. Qed.

Lemma fresh_holds : ram_holds fresh_ram [].
Proof.
  destruct (init_stale (mk_ts 0 0 0 0 (replicate RAM_TS_MAX_DATA_SIZE 0xa5)) false) as (st & E & H).
  { left. simpl. discriminate. }
  unfold fresh_ram. rewrite E. exact H.
Qed.

Lemma ram_ts_set_refines_witness :
  exists st', ram_ts_set fresh_ram [97; 0] [49; 50; 0] = Some (0, st') /\
              ram_holds st' [([97], [49; 50])].
Proof.
  apply (ram_ts_set_refines fresh_ram [] [97] [49; 50] [] []).
  - exact fresh_holds.
  - by apply key_ok_bool.
  - by apply value_ok_bool.
Defined.

(** A value stored in SRAM survives a warm reboot: after a successful
    [ram_ts_set], [ram_ts_init] of the next boot stage keeps the store and
    [ram_ts_get] gives the string back, and every other key reads as before. *)
Theorem ram_ts_survives_reboot (st st1 : ram_state) (es : entries) (k v krest vrest : bytes)
    (k' krest' buf : bytes) (size : nat) :
  ram_holds st es -> key_ok k -> value_ok v -> v <> [] -> key_ok k' ->
  (length v < size <= length buf)%nat ->
  ram_ts_set st (k ++ 0 :: krest) (v ++ 0 :: vrest) = Some (0, st1) ->
  exists st2, ram_ts_init (mk_ram false (sram st1)) = Some (0, st2) /\
    (exists rest, ram_ts_get st2 (k ++ 0 :: krest) buf size = Some (v ++ 0 :: rest)) /\
    (k' <> k -> ram_ts_get st2 (k' ++ 0 :: krest') buf size =
                ram_ts_get st (k' ++ 0 :: krest') buf size).
Proof.
  intros Hst Hk Hv Hne Hk' Hsz Hset.
  destruct (set_holds st es k v krest vrest Hst Hk Hv) as (st' & Hset' & Hst').
  rewrite Hset' in Hset. unfold spec_set in Hset, Hst'.
  destruct (decide (fits (ts_put es k v))); simpl in *; [|discriminate]. simplify_eq.
  destruct st1 as [b t]. assert (b = true) as -> by apply Hst'.
  exists (mk_ram true t). split; [by eapply init_holds|].
  pose proof (repr_nodup _ _ (holds_repr _ _ Hst)) as Hnd. split.
  - destruct (get_cstr (mk_ram true t) (ts_put es k v) k krest buf size v)
      as (buf' & ? & rest & ->); try done; try lia; eauto.
    rewrite ts_find_put, decide_True by done. by rewrite decide_False.
  - intros Hkk. rewrite (get_holds _ _ _ _ _ _ Hst'), (get_holds _ _ _ _ _ _ Hst) by (done || lia).
    rewrite ts_find_put by done. by rewrite decide_False.
Qed.

Lemma ram_ts_survives_reboot_witness :
  exists st1 st2, ram_ts_set fresh_ram [97; 0] [49; 50; 0] = Some (0, st1) /\
    ram_ts_init (mk_ram false (sram st1)) = Some (0, st2) /\
    (exists rest, ram_ts_get st2 [97; 0] (replicate 16 255) 16 = Some (49 :: 50 :: 0 :: rest)).
Proof.
  destruct (set_holds fresh_ram [] [97] [49; 50] [] []) as (st1 & H1 & _);
    [exact fresh_holds|by apply key_ok_bool|by apply value_ok_bool|]. exists st1.
  edestruct (ram_ts_survives_reboot fresh_ram st1 [] [97] [49; 50] [] [] [98] [] (replicate 16 255) 16)
    as (st2 & H2 & H3 & _);
    [exact fresh_holds|by apply key_ok_bool|by apply value_ok_bool|done|by apply key_ok_bool
    |simpl; lia|exact H1|]. exists st2. split; [exact H1|]. split; [exact H2|exact H3].
Defined.

(** Whatever a cold boot leaves in the SRAM, with a wrong magic or a wrong
    checksum, [ram_ts_init] succeeds and the store is the empty list. *)
Theorem ram_ts_init_cold (t : ts_rec) (b : bool) :
  magic t <> RAM_TS_MAGIC \/ (exists c, ts_crc t = Some c /\ crc t <> c) ->
  exists st', ram_ts_init (mk_ram b t) = Some (0, st') /\ ram_holds st' [].
Proof. apply init_stale. Qed.

Lemma ram_ts_init_cold_witness :
  exists st', ram_ts_init (mk_ram false (mk_ts RAM_TS_MAGIC 5 1 1 (replicate RAM_TS_MAX_DATA_SIZE 0)))
              = Some (0, st') /\ ram_holds st' [].
Proof.
  apply ram_ts_init_cold. right. eexists. split; [vm_compute; reflexivity|]. vm_compute. discriminate.
Defined.

(** A store that is not initialised, or whose checksum is wrong, is never
    changed: [ram_ts_set] answers -EINVAL, [ram_ts_get] an empty string. *)
Theorem ram_ts_corrupt_rejected (st : ram_state) (k v krest vrest buf : bytes) (size : nat) :
  key_ok k -> value_ok v -> (0 < length buf)%nat ->
  ts_set st = false \/ (exists c, ts_crc (sram st) = Some c /\ crc (sram st) <> c) ->
  ram_ts_set st (k ++ 0 :: krest) (v ++ 0 :: vrest) = Some (- EINVAL, st) /\
  ram_ts_get st (k ++ 0 :: krest) buf size = Some (<[0%nat:=0]> buf).
Proof.
  intros Hk Hv Hb Hbad.
  assert (ram_ts_check st = Some None) as Hc.
  { unfold ram_ts_check, ram_ts_crc. destruct Hbad as [->|(c & -> & Hne)]; [done|].
    destruct (ts_set st); [|done]. simpl. by rewrite (proj2 (Z.eqb_neq _ _)). }
  unfold ram_ts_set, ram_ts_get. cbn [strlen].
  rewrite !strlen_loop_cstr by apply Hk || apply Hv. rewrite wr_Some by done.
  cbn [mbind option_bind]. by rewrite Hc.
Qed.

Lemma ram_ts_corrupt_rejected_witness :
  let st := mk_ram true (set_crc 5 (sram fresh_ram)) in
  ram_ts_set st [97; 0] [49; 0] = Some (- EINVAL, st) /\
  ram_ts_get st [97; 0] [7; 7] 2 = Some [0; 7].
Proof.
  apply (ram_ts_corrupt_rejected (mk_ram true (set_crc 5 (sram fresh_ram))) [97] [49] [] [] [7; 7] 2);
    [by apply key_ok_bool|by apply value_ok_bool|simpl; lia|].
  right. eexists. split; [vm_compute; reflexivity|]. vm_compute. discriminate.
Defined.

(** [ram_ts_get_int] gives the default for a missing key, and for a decimal
    value of at most 15 digits the number it spells, in both builds. *)
Theorem ram_ts_get_int_decimal (b : build) (st : ram_state) (es : entries) (k krest buf : bytes)
    (d : Z) (c : Z) (s : bytes) :
  ram_holds st es -> key_ok k -> length buf = 16%nat ->
  (ts_find es k = None -> ram_ts_get_int b st (k ++ 0 :: krest) d buf = Some d) /\
  (ts_find es k = Some (c :: s) -> Forall (fun x => isdigit x = true) (c :: s) -> c <> 48 ->
   (length s < 15)%nat ->
   ram_ts_get_int b st (k ++ 0 :: krest) d buf =
   Some (i32 (horner 10 (map (fun x => x - 48) (c :: s))))).
Proof.
  intros Hst Hk Hb. unfold ram_ts_get_int. rewrite (get_holds st es) by (done || lia). split.
  - intros ->. destruct buf; done.
  - intros -> Hd Hc Hs. rewrite short_value by (simpl; lia). simpl app.
    cbn [mbind option_bind]. simpl lookup. cbn [mbind option_bind].
    rewrite (proj2 (Z.eqb_neq c 0)) by (apply Forall_cons_iff in Hd as [?%digit_range _]; lia).
    replace (15 - length s)%nat with (S (14 - length s)) by lia. simpl replicate.
    rewrite parse_short_decimal by done. done.
Qed.

Lemma ram_ts_get_int_decimal_witness :
  exists st, ram_holds st [([97], [49; 50])] /\
  ram_ts_get_int SM st [97; 0] 7 (replicate 16 255) = Some 12 /\
  ram_ts_get_int SOC st [98; 0] 7 (replicate 16 255) = Some 7.
Proof.
  destruct (set_holds fresh_ram [] [97] [49; 50] [] []) as (st & _ & Hst);
    [exact fresh_holds|by apply key_ok_bool|by apply value_ok_bool|].
  exists st. split; [exact Hst|]. split.
  - apply (ram_ts_get_int_decimal SM st _ [97] [] (replicate 16 255) 7 49 [50] Hst);
      [by apply key_ok_bool|done..|by repeat constructor|done|simpl; lia].
  - apply (ram_ts_get_int_decimal SOC st _ [98] [] (replicate 16 255) 7 49 [50] Hst);
      [by apply key_ok_bool|done..].
Defined.

(** A value of sixteen or more decimal digits is not NUL-terminated in the
    16-byte local buffer of [ram_ts_get_int]: the parser reads past the buffer. *)
Theorem ram_ts_get_int_overread (b : build) (st : ram_state) (es : entries) (k krest buf : bytes)
    (d : Z) (c : Z) (s : bytes) :
  ram_holds st es -> key_ok k -> length buf = 16%nat ->
  ts_find es k = Some (c :: s) -> Forall (fun x => isdigit x = true) (c :: s) -> c <> 48 ->
  (15 <= length s)%nat -> ram_ts_get_int b st (k ++ 0 :: krest) d buf = None.
Proof.
  intros Hst Hk Hb Hf Hd Hc Hs. unfold ram_ts_get_int. rewrite (get_holds st es) by (done || lia).
  rewrite Hf. unfold splice. rewrite take_0, drop_ge by len.
  replace (16 - length (c :: s))%nat with 0%nat by (simpl; lia). simpl replicate.
  rewrite !app_nil_r. cbn [mbind option_bind]. simpl lookup. cbn [mbind option_bind].
  rewrite (proj2 (Z.eqb_neq c 0)) by (apply Forall_cons_iff in Hd as [?%digit_range _]; lia).
  change ([] ++ take 16 (c :: s)) with (c :: take 15 s). rewrite parse_overrun; [done| |done].
  apply Forall_cons_iff in Hd as [? Hd]. constructor; [done|]. by apply Forall_take.
Qed.

Lemma ram_ts_get_int_overread_witness :
  exists st, ram_ts_set fresh_ram [97; 0] (replicate 16 49 ++ [0]) = Some (0, st) /\
             ram_ts_get_int SOC st [97; 0] 7 (replicate 16 255) = None.
Proof.
  destruct (set_holds fresh_ram [] [97] (replicate 16 49) [] []) as (st & H & Hst);
    [exact fresh_holds|by apply key_ok_bool|by apply value_ok_bool|].
  exists st. split; [exact H|].
  apply (ram_ts_get_int_overread SOC st _ [97] [] (replicate 16 255) 7 49 (replicate 15 49) Hst);
    [by apply key_ok_bool|done|done|by apply (Forall_replicate _ 16 49)|done|simpl; lia].
Defined.
