(* ===== verification/Flash.v ===== *)
(** * The flash device under the stores (the eMMC block driver)

    The stores reach the eMMC through three calls of the block driver
    (do_emmcread, do_emmcwrite, do_emmcerase) and the geometry of the flash
    adaptor.  They are the operations of a class here; [ReliableEmmc] states
    what the calls promise when they work, and a RAM disk realises it. *)

From S2P Require Import Prelude Disk.

(** [None] and [false] stand for a return value other than 0. *)
Class EmmcDev (D : Type) := {
  page_size : Z;
  block_size : Z;
  do_emmcread : D -> Z -> Z -> D * option bytes;
  do_emmcwrite : D -> Z -> Z -> bytes -> D * bool;
  do_emmcerase : D -> Z -> Z -> D * bool;
}.

Definition MMC_BLOCK_SIZE : Z := 512.

(** A device whose three calls succeed and do what they say: a read gives the
    contents, a write stores its buffer, an erase fills the range with one
    byte, 0x00 or 0xff; nothing else changes. *)
Class ReliableEmmc (D : Type) `{EmmcDev D} := {
  disk : D -> Z -> Z;
  erased : Z;
  erased_val : erased = 0 \/ erased = 255;
  disk_bytes d x : is_u8 (disk d x);
  read_ok d a blks : 0 <= a -> 0 <= blks ->
    exists d', do_emmcread d a blks = (d', Some (rng (disk d) a (Z.to_nat (blks * MMC_BLOCK_SIZE)))) /\
               forall x, disk d' x = disk d x;
  write_ok d a blks buf : 0 <= a -> is_bytes buf -> Z.of_nat (length buf) = blks * MMC_BLOCK_SIZE ->
    exists d', do_emmcwrite d a blks buf = (d', true) /\ forall x, disk d' x = upd (disk d) a buf x;
  erase_ok d a n : 0 <= a -> 0 <= n ->
    exists d', do_emmcerase d a n = (d', true) /\
               forall x, disk d' x = upd (disk d) a (replicate (Z.to_nat n) erased) x;
}.

(** ** A RAM disk *)

Definition ramdisk := (Z -> Z).

Definition rd_read (d : ramdisk) (a blks : Z) : ramdisk * option bytes :=
  (d, Some (rng (fun x => u8 (d x)) a (Z.to_nat (blks * MMC_BLOCK_SIZE)))).
Definition rd_write (d : ramdisk) (a blks : Z) (buf : bytes) : ramdisk * bool := (upd d a buf, true).
Definition rd_erase (d : ramdisk) (a n : Z) : ramdisk * bool :=
  (fun x => if (a <=? x) && (x <? a + n) then 255 else d x, true).

#[export] Instance ramdisk_dev : EmmcDev ramdisk := {|
  page_size := 512;
  block_size := 32768;
  do_emmcread := rd_read;
  do_emmcwrite := rd_write;
  do_emmcerase := rd_erase;
|}.

#[export] Instance ramdisk_reliable : ReliableEmmc ramdisk.
Proof.
  refine {| disk := fun (d : ramdisk) x => u8 (d x); erased := 255 |}.
  - by right.
  - intros. apply u8_range.
  - intros. by eexists.
  - intros. eexists. split; [done|]. intros x. by apply u8_upd.
  - intros d a n Ha Hn. eexists. split; [done|]. intros x. unfold upd. cbv beta.
    rewrite length_replicate, Z2Nat.id by done.
    destruct ((a <=? x) && (x <? a + n)) eqn:E; [|done]. bool_simpl.
    by rewrite nth_replicate_lt by lia.
Defined.
