(* ===== verification/FlashTs.v ===== *)
(** * The transactional store on flash (boot/common/driver/flash_ts)

    flash_ts.c keeps versioned copies of the record of TsData.v in a ring of
    chunks over a flash partition: a commit writes the next chunk, erasing a
    block when it enters one, reads it back and compares; a scan at start-up
    loads the copy with the highest version.  emmc_drv.c maps the page
    operations to the block driver (Flash.v).

    The state of the C file is [priv], the struct flash_ts_priv, and [env]: the
    device and the static page buffer of nand_write_page. *)

From S2P Require Import Prelude Disk CString CType TsData Flash.

Definition FLASH_TS_HDR_SIZE : Z := 16.
Definition FLASH_TS_MAX_SIZE : Z := 16384.
Definition FLASH_TS_MAX_DATA_SIZE : Z := FLASH_TS_MAX_SIZE - FLASH_TS_HDR_SIZE.
Definition FLASH_TS_MAGIC : Z := 0x53542a46.

Definition EIO : Z := 1.
Definition EINVAL : Z := 2.
Definition ENOSPC : Z := 3.
Definition ENODEV : Z := 4.

Record priv := mk_priv {
  chunk : Z;
  offset : Z;
  base : Z;
  size : Z;
  erasesize : Z;
  writesize : Z;
  cache : ts_rec;
  cache_tmp_backup : ts_rec;
  cache_tmp_verify : ts_rec;
}.

Definition set_offset (v : Z) (p : priv) : priv :=
  mk_priv (chunk p) v (base p) (size p) (erasesize p) (writesize p)
    (cache p) (cache_tmp_backup p) (cache_tmp_verify p).
Definition set_cache (v : ts_rec) (p : priv) : priv :=
  mk_priv (chunk p) (offset p) (base p) (size p) (erasesize p) (writesize p)
    v (cache_tmp_backup p) (cache_tmp_verify p).
Definition set_backup (v : ts_rec) (p : priv) : priv :=
  mk_priv (chunk p) (offset p) (base p) (size p) (erasesize p) (writesize p)
    (cache p) v (cache_tmp_verify p).
Definition set_verify (v : ts_rec) (p : priv) : priv :=
  mk_priv (chunk p) (offset p) (base p) (size p) (erasesize p) (writesize p)
    (cache p) (cache_tmp_backup p) v.

(** The static struct [__ts_priv] and whether the pointer [__ts] refers to it. *)
Record store := mk_store { enabled : bool; ts_priv : priv }.

(** A record read back from its bytes. *)
Definition de32 (b : bytes) : Z :=
  nth 0 b 0 + Z.shiftl (nth 1 b 0) 8 + Z.shiftl (nth 2 b 0) 16 + Z.shiftl (nth 3 b 0) 24.

Definition ts_of_bytes (b : bytes) : ts_rec :=
  mk_ts (de32 b) (de32 (drop 4 b)) (de32 (drop 8 b)) (de32 (drop 12 b)) (drop 16 b).

(** ** emmc_drv.c *)

Fixpoint le_words (b : bytes) : list Z :=
  match b with
  | b0 :: b1 :: b2 :: b3 :: b' => de32 [b0; b1; b2; b3] :: le_words b'
  | _ => []
  end.

(** Reads [data[0]] before it looks at the size. *)
Definition is_blank (b : bytes) : option bool :=
  match le_words b with
  | [] => None
  | w :: ws =>
      Some (if negb (w =? 0) && negb (w =? 0xffffffff) then false
            else forallb (fun x => x =? w) (w :: ws))
  end.

Section Store.
Context {D : Type} `{EmmcDev D}.

Record env := mk_env { dev : D; page_buff : bytes }.

Definition is_block_bad (addr : Z) : bool := false.

Definition NFlash_PageRead (e : env) (addr : Z) : env * option bytes :=
  let blk := page_size / 512 in
  let '(d, r) := do_emmcread (dev e) addr blk in (mk_env d (page_buff e), r).

Definition NFlash_PageWrite (e : env) (ofs : Z) (buf : bytes) : env * bool :=
  let blk := page_size / 512 in
  let '(d, r) := do_emmcwrite (dev e) ofs blk buf in (mk_env d (page_buff e), r).

Definition NFlash_Erase (e : env) (ofs : Z) : env * bool :=
  let '(d, r) := do_emmcerase (dev e) ofs block_size in (mk_env d (page_buff e), r).

(** ** Page access

    A failed page read is reported as a page of 0xff. *)

Definition nand_read_page (e : env) (page : Z) (sz : Z) : env * option bytes :=
  let off := page * page_size in
  if page_size <? sz then (e, None)
  else let '(e', r) := NFlash_PageRead e off in
       match r with
       | None => (e', Some (replicate (Z.to_nat sz) 0xff))
       | Some pg => (e', Some (take (Z.to_nat sz) pg))
       end.

(** The page is assembled in the static buffer; the device takes a whole page
    from it.  [None]: the buffer or the source is too short. *)
Definition nand_write_page (e : env) (page : Z) (buf : bytes) (sz : Z) : option (env * Z) :=
  let off := page * page_size in
  if page_size <? sz then Some (e, -1)
  else b1 ← memset (page_buff e) 0 0xff (Z.to_nat sz);
       b2 ← memcpy false b1 0 buf (Z.to_nat sz);
       if decide (page_size <= Z.of_nat (length b2)) then
         let '(e', ok) := NFlash_PageWrite (mk_env (dev e) b2) off (take (Z.to_nat page_size) b2) in
         Some (e', if ok then 0 else -1)
       else None.

Definition flash_block_isbad (ts : priv) (off : Z) : bool := is_block_bad (base ts + off).

Definition flash_erase (e : env) (ts : priv) (off : Z) : env * bool := NFlash_Erase e (base ts + off).

(** One unit of fuel per byte left: every round writes at least one. *)
Fixpoint flash_write_loop (fuel : nat) (e : env) (ts : priv) (page : Z) (buf : bytes) (sz : Z)
  : option (env * Z) :=
  match fuel with
  | O => Some (e, 0)
  | S f =>
      if sz =? 0 then Some (e, 0)
      else let c := Z.min sz (writesize ts) in
           '(e', res) ← nand_write_page e page buf c;
           if res =? 0
           then flash_write_loop f e' ts (i32 (page + 1)) (drop (Z.to_nat c) buf) (sz - c)
           else Some (e', res)
  end.

Definition flash_write (e : env) (ts : priv) (off : Z) (buf : bytes) (sz : Z) : option (env * Z) :=
  flash_write_loop (Z.to_nat sz) e ts (i32 ((base ts + off) / writesize ts)) buf sz.

(** The bytes read so far are accumulated in [acc]. *)
Fixpoint flash_read_loop (fuel : nat) (e : env) (ts : priv) (page : Z) (acc : bytes) (sz : Z)
  : env * bytes * Z :=
  match fuel with
  | O => (e, acc, 0)
  | S f =>
      if sz =? 0 then (e, acc, 0)
      else let c := Z.min sz (writesize ts) in
           let '(e', r) := nand_read_page e page c in
           match r with
           | Some pg => flash_read_loop f e' ts (i32 (page + 1)) (acc ++ pg) (sz - c)
           | None => (e', acc, -1)
           end
  end.

(** Reads into [cache_tmp_verify]: what was read replaces its first bytes. *)
Definition flash_read (e : env) (ts : priv) (off : Z) (sz : Z) : option (env * priv * Z) :=
  let '(e', got, res) :=
    flash_read_loop (Z.to_nat sz) e ts (i32 ((base ts + off) / writesize ts)) [] sz in
  if decide (length got <= length (ts_bytes (cache_tmp_verify ts)))%nat
  then Some (e', set_verify (ts_of_bytes (splice (ts_bytes (cache_tmp_verify ts)) 0 got)) ts, res)
  else None.

(** ** Record access *)

Definition flash_ts_key_search := ts_key_search.
Definition flash_ts_crc := ts_crc.

(** [__flash_ts_get] *)
Definition flash_ts_check (st : store) : option (option priv) :=
  if enabled st then
    let p := ts_priv st in
    c ← flash_ts_crc (cache p);
    if negb (crc (cache p) =? c) then Some None else Some (Some p)
  else Some None.

(** The bytes from [&ts->cache] on: the three records are adjacent. *)
Definition cache_area (ts : priv) : bytes :=
  ts_bytes (cache ts) ++ ts_bytes (cache_tmp_backup ts) ++ ts_bytes (cache_tmp_verify ts).

Definition mask_block (x es : Z) : Z := Z.land x (Z.lnot (es - 1)).
Definition in_block (x es : Z) : Z := Z.land x (es - 1).

(** The loop of [flash_ts_commit]; [n] is [max_iterations]. *)
Fixpoint commit_loop (n : nat) (e : env) (ts : priv) (off sz : Z) : option (env * priv * Z) :=
  match n with
  | O => Some (e, ts, - EIO)
  | S n =>
      let off := if size ts <=? off then 0 else off in
      let new_block := in_block off (erasesize ts) =? 0 in
      if new_block && flash_block_isbad ts off
      then commit_loop n e ts (off + erasesize ts) sz
      else
        let '(e, erased) := if new_block then flash_erase e ts off else (e, true) in
        if negb erased then commit_loop n e ts (off + erasesize ts) sz
        else
          let skip := mask_block (off + erasesize ts) (erasesize ts) in
          '(e, w) ← flash_write e ts off (cache_area ts) sz;
          if negb (w =? 0) then commit_loop n e ts skip sz
          else
            '(e, ts, r) ← flash_read e ts off sz;
            if negb (r =? 0) then commit_loop n e ts skip sz
            else
              m ← memcmp (Some (cache_area ts)) (Some (ts_bytes (cache_tmp_verify ts))) (Z.to_nat sz);
              if negb (m =? 0) then commit_loop n e ts skip sz
              else
                let pre := mask_block (offset ts) (erasesize ts) in
                let cur := mask_block off (erasesize ts) in
                let e := if new_block && negb (cur =? pre) then (flash_erase e ts pre).1 else e in
                Some (e, set_offset off ts, 0)
  end.

Definition flash_ts_commit (e : env) (ts : priv) : option (env * priv * Z) :=
  let off := offset ts + chunk ts in
  let max_iterations := i32 ((size ts / erasesize ts) * 2) in
  let sz := mask_block (FLASH_TS_HDR_SIZE + len (cache ts) + chunk ts - 1) (chunk ts) in
  fill ← to_size (Z.of_nat (length (data (cache ts))) - len (cache ts));
  d ← memset (data (cache ts)) (Z.to_nat (len (cache ts))) 0xff fill;
  commit_loop (Z.to_nat max_iterations) e (set_cache (set_data d (cache ts)) ts) off sz.

(** ** The interface of flash_ts.h *)

Definition flash_ts_set (e : env) (st : store) (key value : bytes) : option (env * store * Z) :=
  _ ← strlen (Some key);
  _ ← strlen (Some value);
  p ← flash_ts_check st;
  match p with
  | None => Some (e, st, - EINVAL)
  | Some p =>
      let p := set_backup (cache p) p in
      ed ← ts_update (cache p) key value;
      match ed with
      | TsSame => Some (e, mk_store true p, 0)
      | TsNoSpace => Some (e, mk_store true p, - ENOSPC)
      | TsEdit l d =>
          let t := set_data d (set_len l (cache p)) in
          let t := set_version (u32 (version t + 1)) t in
          c ← flash_ts_crc t;
          '(e, p, res) ← flash_ts_commit e (set_cache (set_crc c t) p);
          let p := if negb (res =? 0) then set_cache (cache_tmp_backup p) p else p in
          Some (e, mk_store true p, res)
      end
  end.

Definition flash_ts_get (st : store) (key value : bytes) (sz : nat) : option bytes :=
  _ ← strlen (Some key);
  value ← wr value 0 0;
  p ← flash_ts_check st;
  match p with
  | None => Some value
  | Some p => ts_get (cache p) key value sz
  end.

Definition flash_ts_get_int (st : store) (key : bytes) (default_value : Z) (value : bytes)
  : option Z :=
  value ← flash_ts_get st key value 16;
  c ← value !! 0%nat;
  if c =? 0 then Some default_value
  else '(r, _) ← str2ul value 0; Some (i32 r).

(** The version of a well-formed record, 0 otherwise.  The checksum is read
    only after [len] has been found within bounds. *)
Definition flash_ts_check_header (t : ts_rec) : option Z :=
  if (magic t =? FLASH_TS_MAGIC) && negb (version t =? 0) &&
     negb (len t =? 0) && (len t <=? Z.of_nat (length (data t)))
  then c ← flash_ts_crc t;
       if negb (crc t =? c) then Some 0
       else z1 ← data t !! Z.to_nat (len t - 1);
            if negb (z1 =? 0) then Some 0
            else if len t =? 1 then Some (version t)
                 else z2 ← data t !! Z.to_nat (len t - 2);
                      if negb (z2 =? 0) then Some 0 else Some (version t)
  else Some 0.

(** One round of the scan and the offset of the next one. *)
Definition scan_round (e : env) (ts : priv) (off : Z) (good : Z) : option (env * priv * Z * Z) :=
  let new_block := in_block off (erasesize ts) =? 0 in
  if new_block && flash_block_isbad ts off then Some (e, ts, off + erasesize ts, good)
  else
    let good := if new_block then good + 1 else good in
    '(e, ts, res) ← flash_read e ts off FLASH_TS_MAX_SIZE;
    if negb (res =? 0) then Some (e, ts, off + chunk ts, good)
    else
      v ← flash_ts_check_header (cache_tmp_verify ts);
      let ts := if version (cache ts) <? v
                then set_offset off (set_cache (cache_tmp_verify ts) ts) else ts in
      blank ← (if v =? 0 then is_blank (ts_bytes (cache_tmp_verify ts)) else Some false);
      if (blank : bool)
      then Some (e, ts, mask_block (off + erasesize ts) (erasesize ts), good)
      else Some (e, ts, off + chunk ts, good).

(** [do ... while (off < size)] *)
Fixpoint scan_loop (fuel : nat) (e : env) (ts : priv) (off good : Z) : option (env * priv * Z) :=
  match fuel with
  | O => None
  | S f =>
      '(e, ts, off, good) ← scan_round e ts off good;
      if off <? size ts then scan_loop f e ts off good else Some (e, ts, good)
  end.

(** Every round advances by a chunk at least. *)
Definition flash_ts_scan (e : env) (ts : priv) : option (env * priv * Z) :=
  '(e, ts, good) ← scan_loop (S (Z.to_nat (size ts / chunk ts))) e ts 0 0;
  Some (e, ts, if good =? 0 then - ENODEV else 0).

Definition is_power_of_2 (n : Z) : bool := (0 <? n) && (Z.land n (n - 1) =? 0).

Definition clp2 (x : Z) : Z :=
  let x := u32 (x - 1) in
  let x := Z.lor x (Z.shiftr x 1) in
  let x := Z.lor x (Z.shiftr x 2) in
  let x := Z.lor x (Z.shiftr x 4) in
  let x := Z.lor x (Z.shiftr x 8) in
  let x := Z.lor x (Z.shiftr x 16) in
  u32 (x + 1).

(** The static struct is rewritten in place: after a failure [__ts] may still
    refer to it. *)
Definition flash_ts_init (e : env) (st : store) (start_block blocks : Z) : option (env * store * Z) :=
  let ws := page_size in
  let es := block_size in
  if negb (is_power_of_2 ws) || negb (is_power_of_2 es) then Some (e, st, - ENODEV)
  else
    let p0 := ts_priv st in
    let ck := clp2 (Z.land (FLASH_TS_MAX_SIZE + ws - 1) (Z.lnot (ws - 1))) in
    let p1 := mk_priv ck (offset p0) (base p0) (size p0) (erasesize p0) (writesize p0)
                (cache p0) (cache_tmp_backup p0) (cache_tmp_verify p0) in
    if es <? ck then Some (e, mk_store (enabled st) p1, - ENODEV)
    else
      let sz := blocks * es in
      d ← wr (data (cache p0)) 0 0;
      let t := mk_ts FLASH_TS_MAGIC (crc (cache p0)) 1 0 d in
      c ← flash_ts_crc t;
      let p2 := mk_priv ck (sz - ck) (start_block * es) sz es ws (set_crc c t)
                  (cache_tmp_backup p0) (cache_tmp_verify p0) in
      '(e, p3, res) ← flash_ts_scan e p2;
      if negb (res =? 0) then Some (e, mk_store (enabled st) p3, res)
      else Some (e, mk_store true p3, res).

End Store.

Arguments env : clear implicits.

(** ** Sizes *)

Lemma length_ts_bytes t : length (ts_bytes t) = (16 + length (data t))%nat.
Proof. unfold ts_bytes, le32. len. Qed.

Lemma length_ts_of_bytes b : (16 <= length b)%nat -> length (ts_bytes (ts_of_bytes b)) = length b.
Proof. intros. rewrite length_ts_bytes. simpl. len. Qed.

#[export] Hint Rewrite length_ts_bytes : boot_len.

Section Transaction.
Context {D : Type} `{EmmcDev D}.
Implicit Types (e : env D) (ts p : priv).

(** The geometry the driver runs with: records of 16 KiB in chunks of 16 KiB,
    and the page buffer holds a page. *)
Record wf_priv (p : priv) : Prop := {
  wf_chunk : chunk p = FLASH_TS_MAX_SIZE;
  wf_page : 0 < writesize p <= page_size;
  wf_cache : Z.of_nat (length (data (cache p))) = FLASH_TS_MAX_DATA_SIZE;
  wf_backup : Z.of_nat (length (data (cache_tmp_backup p))) = FLASH_TS_MAX_DATA_SIZE;
  wf_verify : Z.of_nat (length (data (cache_tmp_verify p))) = FLASH_TS_MAX_DATA_SIZE;
}.

Definition wf_env (e : env D) : Prop := page_size <= Z.of_nat (length (page_buff e)).

(** The fields an operation on the device leaves alone. *)
Record same_conf (p p' : priv) : Prop := {
  sc_chunk : chunk p' = chunk p;
  sc_base : base p' = base p;
  sc_size : size p' = size p;
  sc_erasesize : erasesize p' = erasesize p;
  sc_writesize : writesize p' = writesize p;
  sc_cache : cache p' = cache p;
  sc_backup : cache_tmp_backup p' = cache_tmp_backup p;
}.

#[local] Hint Constructors same_conf : core.

Lemma nand_read_length e page sz e' pg :
  nand_read_page e page sz = (e', Some pg) -> (length pg <= Z.to_nat sz)%nat /\ page_buff e' = page_buff e.
Proof.
  unfold nand_read_page, NFlash_PageRead. destruct (page_size <? sz); [done|].
  destruct (do_emmcread _ _ _) as [d [b|]]; intros; simplify_eq; simpl; split; try done; len.
Qed.

Lemma nand_read_env e page sz : page_buff (nand_read_page e page sz).1 = page_buff e.
Proof.
  unfold nand_read_page, NFlash_PageRead. destruct (page_size <? sz); [done|].
  by destruct (do_emmcread _ _ _) as [d [b|]].
Qed.

Lemma flash_read_loop_length fuel e ts page acc sz e' got res :
  0 < writesize ts -> 0 <= sz ->
  flash_read_loop fuel e ts page acc sz = (e', got, res) ->
  (length got <= length acc + Z.to_nat sz)%nat /\ page_buff e' = page_buff e.
Proof.
  intros Hw. revert e page acc sz; induction fuel as [|f IH]; intros e page acc sz Hs Hr; simpl in Hr.
  { simplify_eq. split; [lia|done]. }
  destruct (sz =? 0); [simplify_eq; split; [lia|done]|].
  destruct (nand_read_page _ _ _) as [e1 [pg|]] eqn:E.
  - apply nand_read_length in E as [Hl He]. apply IH in Hr as [Hl' He']; [|lia].
    rewrite length_app in Hl'. split; [lia|congruence].
  - pose proof (nand_read_env e page (sz `min` writesize ts)) as He. rewrite E in He.
    simplify_eq. split; [lia|done].
Qed.

Lemma flash_read_total e ts off sz :
  wf_priv ts -> 0 <= sz <= FLASH_TS_MAX_SIZE ->
  exists e' ts' r, flash_read e ts off sz = Some (e', ts', r) /\
    wf_priv ts' /\ same_conf ts ts' /\ offset ts' = offset ts /\ page_buff e' = page_buff e.
Proof.
  intros Hwf Hs. unfold flash_read. destruct (flash_read_loop _ _ _ _ _ _) as [[e' got] r] eqn:E.
  pose proof Hwf as [? [? ?] ? ? Hv]. apply flash_read_loop_length in E as [Hl He]; [|lia..].
  simpl in Hl. unfold FLASH_TS_MAX_DATA_SIZE, FLASH_TS_HDR_SIZE, FLASH_TS_MAX_SIZE in *.
  assert (Hg : (length got <= 16 + length (data (cache_tmp_verify ts)))%nat) by lia.
  rewrite decide_True by (rewrite length_ts_bytes; lia).
  do 3 eexists. split; [done|]. split; [|repeat split; done].
  constructor; simpl; try done. unfold FLASH_TS_MAX_DATA_SIZE, FLASH_TS_HDR_SIZE, FLASH_TS_MAX_SIZE.
  rewrite length_drop, length_splice, length_ts_bytes; [|rewrite length_ts_bytes]; lia.
Qed.

Lemma flash_write_total fuel e ts page buf sz :
  0 < writesize ts <= page_size -> wf_env e -> 0 <= sz <= Z.of_nat (length buf) ->
  exists e' r, flash_write_loop fuel e ts page buf sz = Some (e', r) /\ wf_env e'.
Proof.
  intros Hw. revert e page buf sz; induction fuel as [|f IH]; intros e page buf sz He Hs; simpl.
  { eauto. }
  destruct (Z.eqb_spec sz 0); [eauto|]. unfold wf_env in He.
  set (c := sz `min` writesize ts). assert (0 < c <= writesize ts) by lia.
  unfold nand_write_page. rewrite (proj2 (Z.ltb_ge _ _)) by lia.
  rewrite memset_spec by lia. cbn [mbind option_bind].
  assert (Hl1 : length (splice (page_buff e) 0 (replicate (Z.to_nat c) (u8 255))) = length (page_buff e))
    by (apply length_splice; rewrite length_replicate; lia).
  rewrite memcpy_spec by lia. cbn [mbind option_bind].
  set (b2 := splice _ _ (take _ buf)).
  assert (Hl2 : length b2 = length (page_buff e)) 
    by (subst b2; rewrite length_splice; [exact Hl1|rewrite Hl1, length_take; lia]).
  rewrite decide_True by lia. unfold NFlash_PageWrite. simpl.
  destruct (do_emmcwrite _ _ _ _) as [d ok]. cbn [mbind option_bind].
  destruct ok; simpl.
  - apply IH; [unfold wf_env; simpl; lia|len].
  - do 2 eexists. split; [done|]. unfold wf_env. simpl. lia.
Qed.

Lemma flash_erase_env e ts off : page_buff (flash_erase e ts off).1 = page_buff e.
Proof. unfold flash_erase, NFlash_Erase. by destruct (do_emmcerase _ _ _). Qed.

Lemma same_conf_trans p1 p2 p3 : same_conf p1 p2 -> same_conf p2 p3 -> same_conf p1 p3.
Proof. intros [] []. constructor; congruence. Qed.

Lemma same_conf_refl p : same_conf p p.
Proof. by constructor. Qed.

Lemma length_cache_area ts :
  wf_priv ts -> Z.of_nat (length (cache_area ts)) = 3 * FLASH_TS_MAX_SIZE.
Proof.
  intros []. unfold cache_area. rewrite !length_app, !length_ts_bytes.
  unfold FLASH_TS_MAX_DATA_SIZE, FLASH_TS_HDR_SIZE, FLASH_TS_MAX_SIZE in *. lia.
Qed.

(** What a run of the commit loop guarantees on any device. *)
Definition commit_post (e : env D) (ts : priv) (o : option (env D * priv * Z)) : Prop :=
  exists e' ts' r, o = Some (e', ts', r) /\ wf_env e' /\ wf_priv ts' /\ same_conf ts ts' /\
    (r = 0 \/ r = - EIO) /\ (r <> 0 -> offset ts' = offset ts).

Lemma commit_post_conf e e' ts ts' o :
  same_conf ts ts' -> offset ts' = offset ts -> commit_post e' ts' o -> commit_post e ts o.
Proof.
  intros Hc Ho (e2 & ts2 & r & -> & He & Hw & Hc2 & Hr & Ho2). exists e2, ts2, r.
  do 3 (split; [done|]). split; [by eapply same_conf_trans|]. split; [done|]. intros.
  rewrite Ho2; done.
Qed.

Lemma commit_loop_ok n e ts off sz :
  wf_priv ts -> wf_env e -> 0 <= sz <= FLASH_TS_MAX_SIZE ->
  commit_post e ts (commit_loop n e ts off sz).
Proof.
  revert e ts off; induction n as [|n IH]; intros e ts off Hwf He Hs; cbn [commit_loop].
  { exists e, ts, (- EIO). do 3 (split; [done|]). split; [apply same_conf_refl|]. auto. }
  cbn zeta. set (off' := if size ts <=? off then 0 else off).
  rewrite andb_false_r.
  set (nb := in_block off' (erasesize ts) =? 0).
  destruct (if nb then flash_erase e ts off' else (e, true)) as [e1 er] eqn:Ee.
  assert (He1 : wf_env e1).
  { unfold wf_env in *. destruct nb; simplify_eq; [|done].
    pose proof (flash_erase_env e ts off'). rewrite Ee in *. simpl in *. congruence. }
  destruct er; cbn [negb]; [|by apply IH].
  pose proof (length_cache_area ts Hwf) as Hca.
  unfold FLASH_TS_MAX_SIZE in *.
  destruct (flash_write_total (Z.to_nat sz) e1 ts (i32 ((base ts + off') / writesize ts))
              (cache_area ts) sz) as (e2 & w & Hw & He2); [apply Hwf|done|lia|].
  unfold flash_write. rewrite Hw. cbn [mbind option_bind].
  destruct (w =? 0); cbn [negb]; [|by apply IH].
  destruct (flash_read_total e2 ts off' sz Hwf Hs) as (e3 & ts3 & r & -> & Hwf3 & Hc3 & Ho3 & Hb3).
  cbn [mbind option_bind]. assert (He3 : wf_env e3) by (unfold wf_env in *; congruence).
  destruct (r =? 0); cbn [negb]; [|eapply commit_post_conf; [done..|by apply IH]].
  destruct (memcmp_loop_eq 1 (cache_area ts3) (ts_bytes (cache_tmp_verify ts3)) (Z.to_nat sz))
    as (m & Hm & _).
  { pose proof (length_cache_area ts3 Hwf3). unfold FLASH_TS_MAX_SIZE in *. lia. }
  { rewrite length_ts_bytes. destruct Hwf3.
    unfold FLASH_TS_MAX_DATA_SIZE, FLASH_TS_HDR_SIZE, FLASH_TS_MAX_SIZE in *. lia. }
  unfold memcmp. rewrite Hm. cbn [mbind option_bind].
  destruct (m =? 0); cbn [negb]; [|eapply commit_post_conf; [done..|by apply IH]].
  do 3 eexists. split; [done|]. split; [|split; [|split; [|split; [by left|done]]]].
  - unfold wf_env in *. destruct (nb && _); [by rewrite flash_erase_env|done].
  - destruct Hwf3. by constructor.
  - destruct Hc3. by constructor.
Qed.

(** [flash_ts_commit] fills the unused part of the area and commits. *)
Lemma flash_ts_commit_ok e ts :
  wf_priv ts -> wf_env e -> 0 <= len (cache ts) <= FLASH_TS_MAX_DATA_SIZE ->
  exists d, d = take (Z.to_nat (len (cache ts))) (data (cache ts)) ++
                replicate (length (data (cache ts)) - Z.to_nat (len (cache ts))) 255 /\
    commit_post e (set_cache (set_data d (cache ts)) ts) (flash_ts_commit e ts).
Proof.
  intros Hwf He Hl. eexists. split; [done|]. unfold flash_ts_commit, to_size.
  pose proof Hwf as [Hck _ Hc _ _].
  rewrite (proj2 (Z.leb_le _ _)) by lia. cbn [mbind option_bind].
  replace (Z.to_nat (Z.of_nat (length (data (cache ts))) - len (cache ts)))
    with (length (data (cache ts)) - Z.to_nat (len (cache ts)))%nat by lia.
  rewrite memset_spec by lia. cbn [mbind option_bind].
  unfold splice. rewrite drop_ge by len. rewrite app_nil_r.
  apply commit_loop_ok; [|done|].
  - destruct Hwf. constructor; try done. simpl. len.
  - unfold mask_block. rewrite Hck. unfold FLASH_TS_MAX_SIZE, FLASH_TS_HDR_SIZE,
      FLASH_TS_MAX_DATA_SIZE, FLASH_TS_HDR_SIZE, FLASH_TS_MAX_SIZE in *.
    change (16384 - 1) with (Z.ones 14). rewrite <- Z.ldiff_land, Z.ldiff_ones_r by lia.
    rewrite Z.shiftr_div_pow2, Z.shiftl_mul_pow2 by lia.
    assert ((16 + len (cache ts) + 16384 - 1) / 2 ^ 14 = 1) as ->; [|lia].
    symmetry. apply Z.div_unique with (r := 16 + len (cache ts) - 1); lia.
Qed.

(** ** The store as the caller sees it *)

(** An enabled store holds the list [es]. *)
Record holds (st : store) (es : entries) : Prop := {
  h_enabled : enabled st = true;
  h_wf : wf_priv (ts_priv st);
  h_magic : magic (cache (ts_priv st)) = FLASH_TS_MAGIC;
  h_repr : ts_repr (cache (ts_priv st)) es;
  h_crc : ts_crc (cache (ts_priv st)) = Some (crc (cache (ts_priv st)));
}.

Definition fits (es : entries) : Prop :=
  Z.of_nat (length (flat es)) + 1 <= FLASH_TS_MAX_DATA_SIZE.

#[export] Instance fits_dec es : Decision (fits es).
Proof. unfold fits. apply _. Defined.

Lemma flash_check_holds st es : holds st es -> flash_ts_check st = Some (Some (ts_priv st)).
Proof.
  intros []. unfold flash_ts_check, flash_ts_crc. rewrite h_enabled0, h_crc0. simpl.
  by rewrite Z.eqb_refl.
Qed.

Lemma repr_bounds t es : ts_repr t es -> 0 < len t <= Z.of_nat (length (data t)).
Proof. intros [Hl _ [junk Hd] _ _ _]. rewrite Hl, Hd. len. Qed.

(** The record survives the filling of its unused part. *)
Lemma repr_filled t es :
  ts_repr t es ->
  ts_repr (set_data (take (Z.to_nat (len t)) (data t) ++
                     replicate (length (data t) - Z.to_nat (len t)) 255) t) es.
Proof.
  intros [Hl Hc [junk Hd] HB Hok Hnd].
  assert (Hn : Z.to_nat (len t) = length (flat es ++ [0])) by (rewrite Hl; len).
  constructor; simpl; try done.
  - rewrite Hd in *. len.
  - eexists. rewrite Hn, Hd. replace (flat es ++ 0 :: junk) with ((flat es ++ [0]) ++ junk)
      by (by rewrite <- app_assoc). rewrite take_app_length, <- app_assoc. done.
  - apply is_bytes_app. split; [by apply Forall_take|]. apply Forall_replicate. unfold is_u8. lia.
Qed.

(** The record [flash_ts_set] hands to the commit. *)
Definition next_record (t : ts_rec) (l : Z) (d : bytes) (c : Z) : ts_rec :=
  set_crc c (set_version (u32 (version t + 1)) (set_data d (set_len l t))).

Definition filled (t : ts_rec) : ts_rec :=
  set_data (take (Z.to_nat (len t)) (data t) ++
            replicate (length (data t) - Z.to_nat (len t)) 255) t.

Lemma filled_crc t : 0 <= len t <= Z.of_nat (length (data t)) -> ts_crc (filled t) = ts_crc t.
Proof.
  intros Hl. apply ts_crc_ext; simpl; try done; [lia|len|].
  rewrite take_app_le by len. rewrite take_take. f_equal. lia.
Qed.

Lemma holds_filled p es c :
  wf_priv p -> magic (cache p) = FLASH_TS_MAGIC -> ts_repr (cache p) es ->
  ts_crc (cache p) = Some c -> crc (cache p) = c ->
  holds (mk_store true (set_cache (filled (cache p)) p)) es.
Proof.
  intros Hwf Hm Hr Hc Hcc. pose proof (repr_bounds _ _ Hr) as Hb. constructor; simpl; try done.
  - destruct Hwf. constructor; simpl; try done. len.
  - by apply repr_filled.
  - rewrite filled_crc by lia. by rewrite Hc, Hcc.
Qed.

(** The commit of an edited record. *)
Lemma commit_edit_ok e p es es' l d :
  wf_env e -> holds (mk_store true p) es -> cache_tmp_backup p = cache p ->
  length d = length (data (cache p)) -> ts_repr (set_data d (set_len l (cache p))) es' ->
  exists c e' p' r,
    ts_crc (set_version (u32 (version (cache p) + 1)) (set_data d (set_len l (cache p)))) = Some c /\
    flash_ts_commit e (set_cache (next_record (cache p) l d c) p) = Some (e', p', r) /\
    wf_env e' /\ (r = 0 \/ r = - EIO) /\
    (r = 0 -> holds (mk_store true p') es') /\
    (r <> 0 -> holds (mk_store true (set_cache (cache_tmp_backup p') p')) es /\
               cache_tmp_backup p' = cache p /\ offset p' = offset p).
Proof.
  intros He [_ Hwf Hm Hr Hc] Hbk Hd Hr'. simpl in *.
  pose proof (repr_bounds _ _ Hr') as Hb'. simpl in Hb'.
  destruct (ts_crc_defined (set_version (u32 (version (cache p) + 1)) (set_data d (set_len l (cache p)))))
    as [c Hcc]; [simpl; lia|].
  exists c. set (p1 := set_cache (next_record (cache p) l d c) p).
  assert (Hwf1 : wf_priv p1).
  { destruct Hwf. constructor; simpl; try done. lia. }
  assert (Hcap : 0 <= len (cache p1) <= FLASH_TS_MAX_DATA_SIZE) by (simpl; destruct Hwf; lia).
  destruct (flash_ts_commit_ok e p1 Hwf1 He Hcap) as (d' & -> & e' & p' & r & Hcm & He' & Hw' & Hsc & Hrr & Ho).
  exists e', p', r. do 2 (split; [done|]). split; [done|]. split; [done|]. split.
  - intros ->. assert (Hh : holds (mk_store true (set_cache (filled (cache p1)) p1)) es').
    { apply (holds_filled _ _ c); try done.
      eapply repr_ext; [exact Hr'|done..]. }
    destruct Hsc as [_ _ _ _ _ Hca _]. destruct Hh. simpl in *. fold (filled (cache p1)) in Hca.
    constructor; simpl; rewrite ?Hca; done.
  - intros Hne. destruct Hsc as [_ _ _ _ _ _ Hbk']. simpl in Hbk'. rewrite Hbk', Hbk.
    split; [|split; [done|]].
    + constructor; simpl; try done. destruct Hw', Hwf. constructor; simpl; try done; congruence.
    + rewrite Ho by done. done.
Qed.

(** The outcome of [flash_ts_set] on any device. *)
Lemma flash_ts_set_ok e st es k v krest vrest :
  wf_env e -> holds st es -> key_ok k -> value_ok v ->
  exists e' st' r,
    flash_ts_set e st (k ++ 0 :: krest) (v ++ 0 :: vrest) = Some (e', st', r) /\
    wf_env e' /\ (r = 0 \/ r = - ENOSPC \/ r = - EIO) /\
    (r = 0 -> fits (ts_put es k v) /\ holds st' (ts_put es k v)) /\
    (r = - ENOSPC -> ~ fits (ts_put es k v)) /\
    (r <> 0 -> holds st' es /\ cache (ts_priv st') = cache (ts_priv st) /\
               offset (ts_priv st') = offset (ts_priv st)).
Proof.
  intros He Hst Hk Hv. unfold flash_ts_set. cbn [strlen].
  rewrite !strlen_loop_cstr by apply Hk || apply Hv. rewrite (flash_check_holds _ _ Hst).
  cbn [mbind option_bind]. pose proof Hst as [_ Hwf Hm Hr Hc].
  set (p := set_backup (cache (ts_priv st)) (ts_priv st)).
  assert (Hwp : wf_priv p) by (destruct Hwf; by constructor).
  assert (Hhp : holds (mk_store true p) es) by (by constructor).
  destruct (ts_update_ok (cache p) es k v krest vrest Hr Hk Hv) as (ed & -> & Hed).
  cbn [mbind option_bind]. destruct ed as [| |l d]; simpl in Hed.
  - do 3 eexists. split; [done|]. split; [done|]. split; [by left|]. rewrite Hed.
    split; [|by split]. intros _. split; [|done].
    apply repr_bounds in Hr as Hb. unfold fits. rewrite <- (repr_len _ _ Hr). destruct Hwf. lia.
  - do 3 eexists. split; [done|]. split; [done|]. split; [by right; left|].
    split; [done|]. split; [|done]. intros _. unfold fits. destruct Hwf. lia.
  - destruct Hed as (Hne & Hd & Hr').
    destruct (commit_edit_ok e p es _ l d He Hhp eq_refl Hd Hr')
      as (c & e' & p' & r & Hcc & Hcm & He' & Hrr & H0 & H1).
    unfold flash_ts_crc. change (version (set_data d (set_len l (cache p)))) with (version (cache p)).
    rewrite Hcc. cbn [mbind option_bind].
    fold (next_record (cache p) l d c). rewrite Hcm. cbn [mbind option_bind].
    do 3 eexists. split; [done|]. split; [done|]. split; [destruct Hrr; auto|].
    assert (Hfit : fits (ts_put es k v)).
    { apply repr_bounds in Hr' as Hb. pose proof (repr_len _ _ Hr') as Hl. simpl in *.
      unfold fits. destruct Hwf. lia. }
    split; [|split].
    + intros ->. split; [done|]. by apply H0.
    + intros ->. by destruct Hrr.
    + intros Hr0. rewrite (proj2 (Z.eqb_neq r 0)) by done. simpl. destruct (H1 Hr0) as (Hh & Hb & Ho).
      by rewrite Hb in *.
Qed.

Lemma flash_get_holds st es k krest buf sz :
  holds st es -> key_ok k -> (0 < length buf)%nat -> (sz <= length buf)%nat ->
  flash_ts_get st (k ++ 0 :: krest) buf sz =
  Some (match ts_find es k with
        | Some v => splice (<[0%nat:=0]> buf) 0 (take sz v ++ replicate (sz - length v) 0)
        | None => <[0%nat:=0]> buf
        end).
Proof.
  intros Hst Hk Hb Hsz. unfold flash_ts_get. cbn [strlen]. rewrite strlen_loop_cstr by apply Hk.
  rewrite wr_Some by done. cbn [mbind option_bind]. rewrite (flash_check_holds _ _ Hst). cbn [mbind option_bind].
  apply ts_get_ok; [apply Hst|done|]. by rewrite length_insert.
Qed.
End Transaction.

(** A valid record without entries, and the driver on the RAM disk of Flash.v
    with it: two blocks of 32 KiB from address 0. *)
Definition data0 : bytes := replicate (Z.to_nat FLASH_TS_MAX_DATA_SIZE) 0.
Definition crc0 : Z := Eval vm_compute in default 0 (ts_crc (mk_ts FLASH_TS_MAGIC 0 1 0 [0])).
Definition rec0 : ts_rec := mk_ts FLASH_TS_MAGIC crc0 1 0 data0.
Definition zero_rec : ts_rec := mk_ts 0 0 0 0 data0.
Definition priv0 : priv := mk_priv 16384 (65536 - 16384) 0 65536 32768 512 rec0 zero_rec zero_rec.
Definition store0 : store := mk_store true priv0.
Definition env0 : env ramdisk := mk_env (fun _ => 255) (replicate 512 0).

Lemma data0_bytes : is_bytes data0.
Proof. apply Forall_replicate. apply is_u8_0. Qed.

Lemma data0_length : Z.of_nat (length data0) = FLASH_TS_MAX_DATA_SIZE.
Proof. unfold data0. rewrite length_replicate. by rewrite Z2Nat.id. Qed.

Lemma data0_cons : exists r, data0 = 0 :: r.
Proof.
  exists (replicate (Z.to_nat (FLASH_TS_MAX_DATA_SIZE - 1)) 0). unfold data0.
  replace (Z.to_nat FLASH_TS_MAX_DATA_SIZE) with (S (Z.to_nat (FLASH_TS_MAX_DATA_SIZE - 1)));
    [reflexivity|]. rewrite <- Z2Nat.inj_succ by done. reflexivity.
Qed.

Lemma rec0_repr : ts_repr rec0 [].
Proof.
  pose proof data0_length as Hl. change FLASH_TS_MAX_DATA_SIZE with 16368 in Hl.
  constructor; [reflexivity| |exact data0_cons|exact data0_bytes|constructor|constructor].
  change (data rec0) with data0. lia.
Qed.

Lemma rec0_crc : ts_crc rec0 = Some (crc rec0).
Proof.
  destruct data0_cons as [r Hr]. pose proof data0_length as Hl. rewrite Hr in Hl.
  unfold rec0. rewrite Hr. cbn [crc]. unfold ts_crc. cbn [len version data].
  rewrite decide_True by (unfold le32; len). vm_compute. reflexivity.
Qed.

Lemma store0_wf : wf_priv priv0.
Proof.
  constructor; cbn [chunk writesize priv0 cache cache_tmp_backup cache_tmp_verify rec0 zero_rec data];
    [reflexivity|simpl; lia|exact data0_length..].
Qed.

Lemma store0_holds : holds store0 [].
Proof. constructor; [reflexivity|exact store0_wf|reflexivity|exact rec0_repr|exact rec0_crc]. Qed.

Lemma env0_wf : wf_env env0.
Proof. unfold wf_env, env0. cbn [page_buff]. rewrite length_replicate. simpl. lia. Qed.

(** C2: [flash_ts_set] is atomic in memory whatever the device does (reads,
    writes and erases may fail or return anything): it returns, without an
    access outside its buffers, 0, -ENOSPC or -EIO; after 0 the store holds the
    new list, and after an error exactly the old record and offset, so that
    every key reads as before. *)
Theorem flash_ts_set_atomic {D : Type} `{EmmcDev D} (e : env D) (st : store) (es : entries)
    (k v krest vrest : bytes) :
  wf_env e -> holds st es -> key_ok k -> value_ok v ->
  exists e' st' r,
    flash_ts_set e st (k ++ 0 :: krest) (v ++ 0 :: vrest) = Some (e', st', r) /\
    wf_env e' /\ (r = 0 \/ r = - ENOSPC \/ r = - EIO) /\
    holds st' (if r =? 0 then ts_put es k v else es) /\
    (r = - ENOSPC -> ~ fits (ts_put es k v)) /\
    (r <> 0 -> cache (ts_priv st') = cache (ts_priv st) /\ offset (ts_priv st') = offset (ts_priv st)).
Proof.
  intros He Hst Hk Hv.
  destruct (flash_ts_set_ok e st es k v krest vrest He Hst Hk Hv) as (e' & st' & r & Hs & He' & Hr & H0 & H1 & H2).
  exists e', st', r. do 3 (split; [done|]). split; [|split; [done|]].
  - destruct (Z.eqb_spec r 0) as [->|Hne]; [by apply H0|by apply H2].
  - intros Hne. split; by apply H2.
Qed.

Lemma flash_ts_set_atomic_witness :
  exists e' st' r, flash_ts_set env0 store0 [97; 0] [49; 0] = Some (e', st', r) /\
    holds st' (if r =? 0 then [([97], [49])] else []).
Proof.
  destruct (flash_ts_set_atomic env0 store0 [] [97] [49] [] [])
    as (e' & st' & r & H1 & _ & _ & H2 & _);
    [exact env0_wf|exact store0_holds|by apply key_ok_bool|by apply value_ok_bool|].
  exists e', st', r. split; [exact H1|exact H2].
Defined.

(** Reading a key of a valid store gives its value, cut to the size of
    the buffer and padded with NUL; a missing key gives the empty string; the
    caller's buffer is never overrun. *)
Theorem flash_ts_get_value {D : Type} `{EmmcDev D} (st : store) (es : entries) (k krest buf : bytes) (sz : nat) :
  holds st es -> key_ok k -> (0 < length buf)%nat -> (sz <= length buf)%nat ->
  exists out, flash_ts_get st (k ++ 0 :: krest) buf sz = Some out /\ length out = length buf /\
    (forall v, ts_find es k = Some v -> (length v < sz)%nat -> exists rest, out = v ++ 0 :: rest) /\
    (ts_find es k = None -> out = 0 :: drop 1 buf).
Proof.
  intros Hst Hk Hb Hsz. rewrite (flash_get_holds st es) by done. eexists. split; [done|].
  destruct (ts_find es k) as [v|]; (split; [|split]).
  - rewrite length_splice; len.
  - intros v' [= <-] Hlt. rewrite take_ge by lia. replace (sz - length v)%nat with (S (sz - length v - 1)) by lia.
    unfold splice. rewrite take_0. simpl. rewrite <- app_assoc. simpl. eauto.
  - done.
  - apply length_insert.
  - done.
  - intros _. destruct buf; [simpl in Hb; lia|done].
Qed.

Lemma flash_ts_get_value_witness :
  exists out, flash_ts_get store0 [97; 0] [7; 7; 7] 3 = Some out /\ out = [0; 7; 7].
Proof.
  destruct (flash_ts_get_value store0 [] [97] [] [7; 7; 7] 3) as (out & H1 & _ & _ & H2);
    [exact store0_holds|by apply key_ok_bool|simpl; lia|simpl; lia|].
  exists out. split; [exact H1|exact (H2 eq_refl)].
Defined.
