(* ===== verification/FlashDurable.v ===== *)
(** * Durability of the flash store

    On a device whose calls succeed ([ReliableEmmc] of Flash.v) the record that
    flash_ts_set commits is the one that flash_ts_init loads at the next start.
    The invariant [durable] relates the contents of the partition to the state
    of the driver; commits preserve it and the scan reads it back. *)

From S2P Require Import Prelude Disk CString CType TsData Flash FlashTs.

(** The size of a chunk in bytes, sealed: as a unary number it must not be
    computed. *)
Lemma chunk_len_sealed : {n : nat | Z.of_nat n = FLASH_TS_MAX_SIZE}.
Proof. exists (Z.to_nat FLASH_TS_MAX_SIZE). by apply Z2Nat.id. Qed.

Definition chunk_len : nat := proj1_sig chunk_len_sealed.

Lemma chunk_len_Z : Z.of_nat chunk_len = 16384.
Proof. exact (proj2_sig chunk_len_sealed). Qed.

(** ** Powers of two *)

Lemma mask_block_pow k x : 0 <= k -> mask_block x (2 ^ k) = 2 ^ k * (x / 2 ^ k).
Proof.
  intros Hk. unfold mask_block. rewrite <- Z.ldiff_land. change (2 ^ k - 1) with (Z.pred (2 ^ k)).
  rewrite <- Z.ones_equiv, Z.ldiff_ones_r by done. rewrite Z.shiftr_div_pow2, Z.shiftl_mul_pow2 by done. lia.
Qed.

Lemma in_block_pow k x : 0 <= k -> in_block x (2 ^ k) = x mod 2 ^ k.
Proof.
  intros Hk. unfold in_block. change (2 ^ k - 1) with (Z.pred (2 ^ k)).
  rewrite <- Z.ones_equiv. by apply Z.land_ones.
Qed.

Lemma is_power_of_2_pow k : 0 <= k -> is_power_of_2 (2 ^ k) = true.
Proof.
  intros Hk. unfold is_power_of_2. rewrite (proj2 (Z.ltb_lt _ _)) by (apply Z.pow_pos_nonneg; lia).
  change (2 ^ k - 1) with (Z.pred (2 ^ k)). rewrite <- Z.ones_equiv, Z.land_ones by done.
  by rewrite Z.mod_same by (apply Z.pow_nonzero; lia).
Qed.

(** ** Records and their bytes *)

Lemma de32_le32 x rest : is_u32 x -> de32 (le32 x ++ rest) = x.
Proof.
  intros Hx. unfold de32, le32, u8. simpl. rewrite !Z.shiftr_div_pow2, !Z.shiftl_mul_pow2 by lia.
  unfold is_u32 in Hx. change (2 ^ 8) with 256. change (2 ^ 16) with 65536.
  change (2 ^ 24) with 16777216. Z.div_mod_to_equations. lia.
Qed.

Record rec_ok (t : ts_rec) : Prop := {
  ok_magic : is_u32 (magic t);
  ok_crc : is_u32 (crc t);
  ok_len : is_u32 (len t);
  ok_version : is_u32 (version t);
}.

Lemma ts_of_bytes_bytes t : rec_ok t -> ts_of_bytes (ts_bytes t) = t.
Proof.
  intros []. destruct t as [m c l v d]. unfold ts_of_bytes, ts_bytes. simpl magic in *. simpl crc in *.
  simpl len in *. simpl version in *. simpl data.
  rewrite (de32_le32 m) by done.
  change (drop 4 _) with (le32 c ++ le32 l ++ le32 v ++ d).
  change (drop 8 _) with (le32 l ++ le32 v ++ d).
  change (drop 12 _) with (le32 v ++ d).
  change (drop 16 _) with d. by rewrite !de32_le32.
Qed.

(** ** The device calls of the driver *)

Section Durable.
Context {D : Type} `{ReliableEmmc D}.
Implicit Types (e : env D) (p ts : priv) (f : Z -> Z).

(** The geometry flash_ts_init accepts: a page of 512 bytes to 16 KiB, a block
    of whole chunks, a partition of whole blocks whose page numbers fit an
    [int]. *)
Record geom (p : priv) : Prop := {
  g_page : exists j, 9 <= j <= 14 /\ page_size = 2 ^ j;
  g_block : exists k, 14 <= k <= 30 /\ block_size = 2 ^ k;
  g_chunk : chunk p = FLASH_TS_MAX_SIZE;
  g_writesize : writesize p = page_size;
  g_erasesize : erasesize p = block_size;
  g_base : 0 <= base p /\ base p mod block_size = 0;
  g_size : 0 < size p < 2 ^ 32 /\ size p mod block_size = 0;
  g_fit : base p + size p <= 2 ^ 39;
}.

Lemma geom_page p : geom p ->
  512 <= page_size <= 16384 /\ page_size / 512 * 512 = page_size /\
  exists q, 16384 = q * page_size /\ 0 < q.
Proof.
  intros [(j & Hj & ->) _ _ _ _ _ _ _].
  assert (j = 9 \/ j = 10 \/ j = 11 \/ j = 12 \/ j = 13 \/ j = 14) as Hc by lia.
  destruct Hc as [->|[->|[->|[->|[->| ->]]]]]; (split; [lia|split; [done|]]);
    [exists 32|exists 16|exists 8|exists 4|exists 2|exists 1]; lia.
Qed.

Lemma geom_block p : geom p -> exists c, block_size = c * 16384 /\ 0 < c.
Proof.
  intros [_ (k & Hk & ->) _ _ _ _ _ _]. exists (2 ^ (k - 14)). split; [|apply Z.pow_pos_nonneg; lia].
  change 16384 with (2 ^ 14). rewrite <- Z.pow_add_r by lia. f_equal. lia.
Qed.

Lemma nand_read_reliable p e page sz :
  geom p -> 0 <= page -> 0 <= sz <= page_size ->
  exists e', nand_read_page e page sz =
               (e', Some (rng (disk (dev e)) (page * page_size) (Z.to_nat sz))) /\
    (forall x, disk (dev e') x = disk (dev e) x) /\ page_buff e' = page_buff e.
Proof.
  intros Hg Hp Hs. destruct (geom_page _ Hg) as (Hps & Hm & _).
  unfold nand_read_page, NFlash_PageRead. rewrite (proj2 (Z.ltb_ge _ _)) by lia.
  destruct (read_ok (dev e) (page * page_size) (page_size / 512)) as (d' & -> & Hd); [nia..|].
  unfold MMC_BLOCK_SIZE. rewrite Hm. exists (mk_env d' (page_buff e)). split; [|by split]. do 2 f_equal.
  replace (Z.to_nat page_size) with (Z.to_nat sz + Z.to_nat (page_size - sz))%nat by lia.
  rewrite rng_app, take_app_le, take_ge by len. done.
Qed.

Lemma nand_write_reliable p e page buf :
  geom p -> 0 <= page -> wf_env e -> is_bytes buf -> page_size <= Z.of_nat (length buf) ->
  exists e', nand_write_page e page buf page_size = Some (e', 0) /\
    (forall x, disk (dev e') x = upd (disk (dev e)) (page * page_size) (take (Z.to_nat page_size) buf) x) /\
    wf_env e'.
Proof.
  intros Hg Hp He Hb Hl. destruct (geom_page _ Hg) as (Hps & Hm & _). unfold wf_env in *.
  unfold nand_write_page. rewrite Z.ltb_irrefl. rewrite memset_spec by lia. cbn [mbind option_bind].
  set (n := Z.to_nat page_size). set (b1 := splice _ _ _).
  assert (Hl1 : length b1 = length (page_buff e))
    by (apply length_splice; rewrite length_replicate; lia).
  rewrite memcpy_spec by lia. cbn [mbind option_bind].
  set (b2 := splice _ _ _).
  assert (Hl2 : length b2 = length (page_buff e))
    by (subst b2; rewrite length_splice; [exact Hl1|rewrite Hl1, length_take; lia]).
  rewrite decide_True by lia.
  assert (take n b2 = take n buf) as ->.
  { unfold b2, splice. rewrite take_0. simpl. rewrite take_app_le by len. rewrite take_take. f_equal. lia. }
  unfold NFlash_PageWrite. simpl.
  destruct (write_ok (dev e) (page * page_size) (page_size / 512) (take n buf)) as (d' & -> & Hd).
  { nia. } { by apply Forall_take. } { unfold MMC_BLOCK_SIZE. len. }
  exists (mk_env d' b2). split; [done|]. split; [exact Hd|]. simpl. lia.
Qed.

(** [q] pages are read in one call. *)
Lemma flash_read_loop_reliable q p fuel e page acc :
  geom p -> (q <= fuel)%nat -> 0 <= page -> page + Z.of_nat q < 2 ^ 31 ->
  exists e', flash_read_loop fuel e p page acc (Z.of_nat q * page_size) =
      (e', acc ++ rng (disk (dev e)) (page * page_size) (q * Z.to_nat page_size), 0) /\
    (forall x, disk (dev e') x = disk (dev e) x) /\ page_buff e' = page_buff e.
Proof.
  intros Hg. destruct (geom_page _ Hg) as (Hps & _).
  revert fuel e page acc; induction q as [|q IH]; intros fuel e page acc Hf Hp Hb.
  { exists e. simpl. rewrite app_nil_r. by destruct fuel. }
  destruct fuel as [|fuel]; [lia|]. cbn [flash_read_loop].
  rewrite (proj2 (Z.eqb_neq _ 0)) by nia. rewrite (g_writesize _ Hg), Z.min_r by nia.
  destruct (nand_read_reliable p e page page_size Hg Hp) as (e1 & -> & Hd & Hpb); [lia|].
  replace (Z.of_nat (S q) * page_size - page_size) with (Z.of_nat q * page_size) by lia.
  rewrite i32_id by (unfold is_i32; lia).
  destruct (IH fuel e1 (page + 1) (acc ++ rng (disk (dev e)) (page * page_size) (Z.to_nat page_size)))
    as (e2 & -> & Hd2 & Hpb2); [lia..|].
  exists e2. split; [|split; [intros x; by rewrite Hd2, Hd|congruence]].
  do 2 f_equal. rewrite <- app_assoc. f_equal. simpl Nat.mul. rewrite rng_app. f_equal.
  replace (page * page_size + Z.of_nat (Z.to_nat page_size)) with ((page + 1) * page_size) by lia.
  apply rng_ext. intros. by rewrite Hd.
Qed.

Lemma upd_ext f g a l x : (forall y, f y = g y) -> upd f a l x = upd g a l x.
Proof. intros Hfg. unfold upd. by rewrite Hfg. Qed.

Lemma flash_write_loop_reliable q p fuel e page buf :
  geom p -> (q <= fuel)%nat -> 0 <= page -> page + Z.of_nat q < 2 ^ 31 -> wf_env e ->
  is_bytes buf -> Z.of_nat q * page_size <= Z.of_nat (length buf) ->
  exists e', flash_write_loop fuel e p page buf (Z.of_nat q * page_size) = Some (e', 0) /\
    (forall x, disk (dev e') x =
               upd (disk (dev e)) (page * page_size) (take (q * Z.to_nat page_size) buf) x) /\ wf_env e'.
Proof.
  intros Hg. destruct (geom_page _ Hg) as (Hps & _).
  revert fuel e page buf; induction q as [|q IH]; intros fuel e page buf Hf Hp Hb He Hbb Hl.
  { exists e. split; [by destruct fuel|]. split; [|done]. intros x. by rewrite upd_out by (simpl; lia). }
  destruct fuel as [|fuel]; [lia|]. cbn [flash_write_loop].
  rewrite (proj2 (Z.eqb_neq _ 0)) by nia. rewrite (g_writesize _ Hg), Z.min_r by nia.
  destruct (nand_write_reliable p e page buf Hg Hp He Hbb) as (e1 & -> & Hd & He1); [nia|].
  cbn [mbind option_bind]. rewrite Z.eqb_refl. rewrite i32_id by (unfold is_i32; lia).
  replace (Z.of_nat (S q) * page_size - page_size) with (Z.of_nat q * page_size) by lia.
  destruct (IH fuel e1 (page + 1) (drop (Z.to_nat page_size) buf)) as (e2 & -> & Hd2 & He2);
    [lia..|done|by apply Forall_drop|len|].
  exists e2. split; [done|]. split; [|done]. intros x. rewrite Hd2, (upd_ext _ _ _ _ _ Hd).
  replace ((page + 1) * page_size) with
    (page * page_size + Z.of_nat (length (take (Z.to_nat page_size) buf))) by len.
  rewrite upd_app. f_equal. simpl Nat.mul. by rewrite take_take_drop.
Qed.

(** ** Chunks *)

(** The offset of a chunk of the partition. *)
Definition is_chunk (p : priv) (off : Z) : Prop := 0 <= off < size p /\ off mod 16384 = 0.

Lemma mod_0_mul a b : b <> 0 -> a mod b = 0 -> a = b * (a / b).
Proof. intros Hb Hm. pose proof (Z.div_mod a b Hb). lia. Qed.

Lemma chunk_addr p off : geom p -> is_chunk p off ->
  off + 16384 <= size p /\
  i32 ((base p + off) / page_size) * page_size = base p + off /\
  0 <= i32 ((base p + off) / page_size) /\ i32 ((base p + off) / page_size) + 16384 / page_size < 2 ^ 31.
Proof.
  intros Hg [Ho Hm]. destruct (geom_page _ Hg) as (Hps & _ & q & Hq & Hq0).
  destruct (geom_block _ Hg) as (c & Hc & Hc0). destruct Hg as [_ _ _ _ _ [Hb0 Hb] [Hs0 Hs] Hfit].
  apply mod_0_mul in Hm, Hb, Hs; [|lia..]. rewrite Hc in Hb, Hs.
  set (m := off / 16384) in *. set (b := base p / _) in *. set (s := size p / _) in *.
  split; [nia|].
  assert (Hd : (base p + off) / page_size = q * (c * b + m)).
  { symmetry. apply Z.div_unique_exact; [lia|]. rewrite Hb, Hm at 1. rewrite Hq. ring. }
  assert (Hle : (base p + off) / page_size < 2 ^ 30).
  { apply Z.div_lt_upper_bound; [lia|]. nia. }
  assert (0 <= (base p + off) / page_size) by (apply Z.div_pos; lia).
  rewrite i32_id by (unfold is_i32; lia). split; [|split; [done|]].
  - rewrite Hd. rewrite Hb, Hm at 1. rewrite Hq. ring.
  - rewrite Hq, Z.div_mul by lia. nia.
Qed.

Definition chunk_at (f : Z -> Z) (p : priv) (off : Z) : bytes := rng f (base p + off) (chunk_len).

(** 16 KiB are a whole number of pages. *)
Lemma chunk_pages p : geom p -> exists q,
  Z.of_nat q * page_size = 16384 /\ (q * Z.to_nat page_size = chunk_len)%nat /\ (q <= chunk_len)%nat /\
  Z.of_nat q = 16384 / page_size.
Proof.
  intros Hg. destruct (geom_page _ Hg) as (Hps & _ & q & Hq & Hq0). exists (Z.to_nat q).
  pose proof chunk_len_Z as Hcl.
  rewrite Z2Nat.id by lia. split; [done|]. split; [apply Nat2Z.inj; rewrite Nat2Z.inj_mul, !Z2Nat.id; lia|]. split; [nia|].
  rewrite Hq at 1. by rewrite Z.div_mul by lia.
Qed.

Lemma flash_read_chunk e p off :
  geom p -> wf_priv p -> is_chunk p off ->
  exists e', flash_read e p off 16384 =
      Some (e', set_verify (ts_of_bytes (chunk_at (disk (dev e)) p off)) p, 0) /\
    (forall x, disk (dev e') x = disk (dev e) x) /\ page_buff e' = page_buff e.
Proof.
  intros Hg Hwf Ho. destruct (chunk_addr _ _ Hg Ho) as (_ & Ha & Ha0 & Hab).
  pose proof chunk_len_Z as Hcl. destruct (chunk_pages _ Hg) as (q & Hq & Hqn & Hqle & Hqd).
  unfold flash_read. rewrite (g_writesize _ Hg).
  destruct (flash_read_loop_reliable q p (chunk_len) e
              (i32 ((base p + off) / page_size)) [] Hg) as (e' & Hr & Hd); [lia..|].
  rewrite Hq, Hqn, Ha in Hr. replace (Z.to_nat 16384) with chunk_len by lia. rewrite Hr. rewrite app_nil_l. fold (chunk_at (disk (dev e)) p off).
  assert (Hl : length (chunk_at (disk (dev e)) p off) = length (ts_bytes (cache_tmp_verify p))).
  { unfold chunk_at. rewrite length_rng, length_ts_bytes. destruct Hwf.
    unfold FLASH_TS_MAX_DATA_SIZE, FLASH_TS_HDR_SIZE, FLASH_TS_MAX_SIZE in *. lia. }
  rewrite decide_True by lia. exists e'. split; [|done]. do 4 f_equal.
  unfold splice. rewrite take_0, drop_ge by lia. simpl. by rewrite app_nil_r.
Qed.

Lemma flash_write_chunk e p off buf :
  geom p -> is_chunk p off -> wf_env e -> is_bytes buf -> 16384 <= Z.of_nat (length buf) ->
  exists e', flash_write e p off buf 16384 = Some (e', 0) /\
    (forall x, disk (dev e') x = upd (disk (dev e)) (base p + off) (take (chunk_len) buf) x) /\ wf_env e'.
Proof.
  intros Hg Ho He Hb Hl. destruct (chunk_addr _ _ Hg Ho) as (_ & Ha & Ha0 & Hab).
  pose proof chunk_len_Z as Hcl. destruct (chunk_pages _ Hg) as (q & Hq & Hqn & Hqle & Hqd).
  unfold flash_write. rewrite (g_writesize _ Hg).
  destruct (flash_write_loop_reliable q p (chunk_len) e
              (i32 ((base p + off) / page_size)) buf Hg) as (e' & Hr & Hd); [lia..|done|done|lia|].
  rewrite Hq, Hqn, Ha in *. replace (Z.to_nat 16384) with chunk_len by lia. rewrite Hr. by exists e'.
Qed.

Lemma flash_erase_block e p off :
  geom p -> 0 <= off -> exists e', flash_erase e p off = (e', true) /\
    (forall x, disk (dev e') x =
               upd (disk (dev e)) (base p + off) (replicate (Z.to_nat block_size) erased) x) /\
    page_buff e' = page_buff e.
Proof.
  intros Hg Ho. destruct (geom_block _ Hg) as (c & Hc & Hc0). unfold flash_erase, NFlash_Erase.
  destruct (erase_ok (dev e) (base p + off) block_size) as (d' & -> & Hd);
    [destruct (g_base _ Hg); lia|lia|].
  exists (mk_env d' (page_buff e)). done.
Qed.

Lemma length_chunk_at f p o : length (chunk_at f p o) = chunk_len.
Proof. apply length_rng. Qed.

Lemma chunk_ext f g p o : (forall x, f x = g x) -> chunk_at f p o = chunk_at g p o.
Proof. intros Hfg. apply rng_ext. auto. Qed.

Lemma chunk_upd_out f p o a l :
  o + 16384 <= a \/ a + Z.of_nat (length l) <= o ->
  chunk_at (upd f (base p + a) l) p o = chunk_at f p o.
Proof.
  intros Ho. pose proof chunk_len_Z. apply rng_ext. intros x Hx. apply upd_out. lia.
Qed.

Lemma chunk_upd_fill f p o a n c :
  a <= o -> o + 16384 <= a + Z.of_nat n ->
  chunk_at (upd f (base p + a) (replicate n c)) p o = replicate chunk_len c.
Proof.
  intros Ha Hn. pose proof chunk_len_Z. apply list_eq. intros i.
  destruct (decide (i < chunk_len)%nat) as [Hi|Hi]; [|rewrite !lookup_ge_None_2; [done|len|rewrite length_chunk_at; lia]].
  unfold chunk_at. rewrite rng_lookup, lookup_replicate_2 by done. f_equal. unfold upd.
  rewrite (proj2 (Z.leb_le _ _)), (proj2 (Z.ltb_lt _ _)) by len. simpl.
  apply nth_replicate_lt. lia.
Qed.

(** A chunk lies inside a block or outside it. *)
Lemma chunk_block p b o : geom p -> b mod block_size = 0 -> o mod 16384 = 0 ->
  b <= o < b + block_size -> o + 16384 <= b + block_size.
Proof.
  intros Hg Hb Ho Hin. destruct (geom_block _ Hg) as (c & Hc & Hc0).
  apply mod_0_mul in Hb, Ho; [|lia..]. rewrite Hc in Hb at 1.
  set (m := o / 16384) in *. set (n := b / block_size) in *. nia.
Qed.

Lemma block_chunk p b : geom p -> b mod block_size = 0 -> b mod 16384 = 0.
Proof.
  intros Hg Hb. destruct (geom_block _ Hg) as (c & Hc & Hc0). apply mod_0_mul in Hb; [|lia].
  rewrite Hb, Hc. replace (c * 16384 * _) with (c * (b / (c * 16384)) * 16384) by ring.
  apply Z.mod_mul. lia.
Qed.

(** A block holds one multiple of its size. *)
Lemma mul_block_eq a b : a mod block_size = 0 -> b mod block_size = 0 -> a <> b ->
  b <= a < b + block_size -> False.
Proof.
  intros Ha Hb Hne Hin. apply mod_0_mul in Ha, Hb; [|lia..].
  set (x := a / block_size) in *. set (y := b / block_size) in *.
  assert (x = y); [|congruence]. nia.
Qed.

(** What an erase leaves of a chunk. *)
Lemma chunk_erased f p b o : geom p -> b mod block_size = 0 -> o mod 16384 = 0 ->
  chunk_at (upd f (base p + b) (replicate (Z.to_nat block_size) erased)) p o =
  if decide (b <= o < b + block_size) then replicate chunk_len erased else chunk_at f p o.
Proof.
  intros Hg Hb Ho. destruct (geom_block _ Hg) as (c & Hc & Hc0). case_decide as Hd.
  - pose proof (chunk_block _ _ _ Hg Hb Ho Hd). apply chunk_upd_fill; lia.
  - apply chunk_upd_out. rewrite length_replicate, Z2Nat.id by lia.
    destruct (Z.lt_ge_cases o b) as [Hlt|Hge]; [left|right; lia].
    apply (block_chunk p) in Hb; [|done]. apply mod_0_mul in Hb, Ho; [|lia..]. lia.
Qed.

Lemma chunk_written f p off buf : (chunk_len <= length buf)%nat ->
  chunk_at (upd f (base p + off) (take chunk_len buf)) p off = take chunk_len buf.
Proof.
  intros Hl. unfold chunk_at. replace chunk_len with (length (take chunk_len buf)) at 2 by len.
  apply upd_same.
Qed.

(** ** A commit on a reliable device *)

Definition next_off (p : priv) : Z := if size p <=? offset p + 16384 then 0 else offset p + 16384.

Lemma next_off_chunk p : geom p -> is_chunk p (offset p) -> is_chunk p (next_off p).
Proof.
  intros Hg [Ho Hm]. unfold next_off, is_chunk. destruct (Z.leb_spec (size p) (offset p + 16384)).
  - destruct (g_size _ Hg). split; [lia|done].
  - split; [lia|]. rewrite <- Zplus_mod_idemp_r. by rewrite Z.mod_same, Z.add_0_r by lia.
Qed.

(** The commit fills the rest of the data area and writes the whole chunk. *)
Lemma commit_size p :
  geom p -> 0 < len (cache p) <= FLASH_TS_MAX_DATA_SIZE ->
  mask_block (FLASH_TS_HDR_SIZE + len (cache p) + chunk p - 1) (chunk p) = 16384.
Proof.
  intros Hg Hl. rewrite (g_chunk _ Hg). change FLASH_TS_MAX_SIZE with (2 ^ 14).
  rewrite mask_block_pow by lia. change FLASH_TS_MAX_DATA_SIZE with 16368 in Hl.
  change FLASH_TS_HDR_SIZE with 16.
  rewrite <- (Z.div_unique _ (2 ^ 14) 1 (16 + len (cache p) - 1)); lia.
Qed.

Record bufs_ok (p : priv) : Prop := {
  bo_cache : is_bytes (data (cache p));
  bo_backup : is_bytes (data (cache_tmp_backup p));
  bo_verify : is_bytes (data (cache_tmp_verify p));
}.

Lemma ts_bytes_ok t : is_bytes (data t) -> is_bytes (ts_bytes t).
Proof. intros. unfold ts_bytes. repeat (apply is_bytes_app; split); try done; apply le32_bytes. Qed.

Lemma length_rec t : Z.of_nat (length (data t)) = FLASH_TS_MAX_DATA_SIZE ->
  length (ts_bytes t) = chunk_len.
Proof.
  intros Hl. pose proof chunk_len_Z. rewrite length_ts_bytes. change FLASH_TS_MAX_DATA_SIZE with 16368 in Hl. lia.
Qed.

Lemma take_area p : wf_priv p -> take chunk_len (cache_area p) = ts_bytes (cache p).
Proof.
  intros []. unfold cache_area. rewrite <- (length_rec (cache p)) at 1 by done. apply take_app_length.
Qed.

(** The first round of the loop: erase the block when it is entered, write,
    read back, compare, and erase the block that was left. *)
Definition round_disk (p : priv) (f : Z -> Z) : Z -> Z :=
  let off := next_off p in
  let pre := mask_block (offset p) block_size in
  let fill := replicate (Z.to_nat block_size) erased in
  let new_block := off mod block_size =? 0 in
  let f := if new_block then upd f (base p + off) fill else f in
  let f := upd f (base p + off) (ts_bytes (cache p)) in
  if new_block && negb (off =? pre) then upd f (base p + pre) fill else f.

Lemma maybe_erase (b : bool) e p off :
  geom p -> 0 <= off -> exists e', (if b then flash_erase e p off else (e, true)) = (e', true) /\
    (forall x, disk (dev e') x =
      (if b then upd (disk (dev e)) (base p + off) (replicate (Z.to_nat block_size) erased)
       else disk (dev e)) x) /\ page_buff e' = page_buff e.
Proof. intros Hg Ho. destruct b; [by apply flash_erase_block|by exists e]. Qed.

Lemma cache_area_bytes p : bufs_ok p -> is_bytes (cache_area p).
Proof. intros []. unfold cache_area. apply is_bytes_app; split; [|apply is_bytes_app; split]; by apply ts_bytes_ok. Qed.

Lemma write_verify e p off :
  geom p -> wf_priv p -> wf_env e -> bufs_ok p -> rec_ok (cache p) -> is_chunk p off ->
  exists e2 e3, flash_write e p off (cache_area p) 16384 = Some (e2, 0) /\
    flash_read e2 p off 16384 = Some (e3, set_verify (cache p) p, 0) /\
    memcmp (Some (cache_area (set_verify (cache p) p))) (Some (ts_bytes (cache p)))
      (Z.to_nat 16384) = Some 0 /\
    (forall x, disk (dev e3) x = upd (disk (dev e)) (base p + off) (ts_bytes (cache p)) x) /\ wf_env e3.
Proof.
  intros Hg Hwf He Hb Hr Hn.
  pose proof chunk_len_Z as Hcl. pose proof (length_cache_area p Hwf) as Hla.
  change FLASH_TS_MAX_SIZE with 16384 in Hla.
  destruct (flash_write_chunk e p off (cache_area p) Hg Hn He (cache_area_bytes p Hb))
    as (e2 & Hw & Hd2 & He2); [lia|].
  rewrite take_area in Hd2 by done.
  destruct (flash_read_chunk e2 p off Hg Hwf Hn) as (e3 & Hrd & Hd3 & Hp3).
  assert (Hback : ts_of_bytes (chunk_at (disk (dev e2)) p off) = cache p).
  { rewrite (chunk_ext _ _ _ _ Hd2), <- (take_area p) by done. rewrite chunk_written, take_area by (done || lia).
    by apply ts_of_bytes_bytes. }
  rewrite Hback in Hrd. exists e2, e3. split; [done|]. split; [done|]. split; [|split].
  - assert (Hwv : wf_priv (set_verify (cache p) p)) by (destruct Hwf; by constructor).
    pose proof (length_cache_area _ Hwv) as Hlv. change FLASH_TS_MAX_SIZE with 16384 in Hlv.
    pose proof (length_rec (cache p) (wf_cache _ Hwf)) as Hlr.
    replace (Z.to_nat 16384) with chunk_len by lia.
    apply memcmp_same; [lia..|]. rewrite take_area by done. symmetry. apply take_ge. change (length (ts_bytes (cache p)) <= chunk_len)%nat. lia.
  - intros x. by rewrite Hd3.
  - unfold wf_env in *. congruence.
Qed.

Lemma commit_loop_reliable n e p :
  geom p -> wf_priv p -> wf_env e -> bufs_ok p -> rec_ok (cache p) -> is_chunk p (offset p) ->
  exists e', commit_loop (S n) e p (offset p + 16384) 16384 =
      Some (e', set_offset (next_off p) (set_verify (cache p) p), 0) /\
    (forall x, disk (dev e') x = round_disk p (disk (dev e)) x) /\ wf_env e'.
Proof.
  intros Hg Hwf He Hb Hr Ho. cbn [commit_loop]. cbn zeta. fold (next_off p).
  pose proof (next_off_chunk p Hg Ho) as Hn. rewrite (g_erasesize _ Hg).
  unfold round_disk. set (off := next_off p) in *. unfold flash_block_isbad, is_block_bad. rewrite andb_false_r.
  destruct (g_block _ Hg) as (k & Hk & Hbs).
  assert (Hib : in_block off block_size = off mod block_size) by (rewrite Hbs; apply in_block_pow; lia).
  rewrite Hib. set (nb := off mod block_size =? 0).
  destruct (maybe_erase nb e p off Hg) as (e1 & -> & Hd1 & Hp1); [destruct Hn; lia|]. cbn [negb].
  assert (He1 : wf_env e1) by (unfold wf_env in *; congruence).
  destruct (write_verify e1 p off Hg Hwf He1 Hb Hr Hn) as (e2 & e3 & -> & Hrd & Hm & Hd3 & He3).
  cbn [mbind option_bind]. cbn [Z.eqb negb]. rewrite Hrd. cbn [mbind option_bind]. cbn [Z.eqb negb].
  change (cache_tmp_verify (set_verify (cache p) p)) with (cache p). rewrite Hm.
  cbn [mbind option_bind]. cbn [Z.eqb negb].
  change (erasesize (set_verify (cache p) p)) with (erasesize p). rewrite (g_erasesize _ Hg).
  change (offset (set_verify (cache p) p)) with (offset p).
  set (pre := mask_block (offset p) block_size).
  assert (Hpre : 0 <= pre).
  { unfold pre. rewrite Hbs, mask_block_pow by lia. destruct Ho. apply Z.mul_nonneg_nonneg; [lia|].
    apply Z.div_pos; lia. }
  assert (Hcur : nb && negb (mask_block off block_size =? pre) = nb && negb (off =? pre)).
  { destruct nb eqn:Enb; [|done]. simpl. do 2 f_equal. subst nb. apply Z.eqb_eq in Enb.
    rewrite Hbs in *. rewrite mask_block_pow by lia. symmetry. apply mod_0_mul; lia. }
  rewrite Hcur.
  destruct (maybe_erase (nb && negb (off =? pre)) e3 (set_verify (cache p) p) pre) as (e4 & He4 & Hd4 & Hp4).
  { destruct Hg. by constructor. } { done. }
  exists e4. split; [|split].
  - destruct (nb && negb (off =? pre)); [by rewrite He4|]. by simplify_eq.
  - intros x. rewrite Hd4. destruct (nb && negb (off =? pre)).
    + apply upd_ext. intros y. rewrite Hd3. by apply upd_ext.
    + rewrite Hd3. by apply upd_ext.
  - unfold wf_env in *. congruence.
Qed.

Lemma commit_reliable e p :
  geom p -> wf_priv p -> wf_env e -> bufs_ok p -> rec_ok (cache p) -> is_chunk p (offset p) ->
  0 < len (cache p) <= FLASH_TS_MAX_DATA_SIZE ->
  let p1 := set_cache (filled (cache p)) p in
  exists e', flash_ts_commit e p =
      Some (e', set_offset (next_off p1) (set_verify (cache p1) p1), 0) /\
    (forall x, disk (dev e') x = round_disk p1 (disk (dev e)) x) /\ wf_env e'.
Proof.
  intros Hg Hwf He Hb Hr Ho Hl p1. unfold flash_ts_commit, to_size.
  rewrite commit_size by done. pose proof Hwf as [_ _ Hc _ _].
  rewrite (proj2 (Z.leb_le _ _)) by lia. cbn [mbind option_bind].
  replace (Z.to_nat (Z.of_nat (length (data (cache p))) - len (cache p)))
    with (length (data (cache p)) - Z.to_nat (len (cache p)))%nat by lia.
  rewrite memset_spec by lia. cbn [mbind option_bind]. unfold splice. rewrite drop_ge by len.
  rewrite app_nil_r. change (u8 255) with 255. fold (filled (cache p)). fold p1.
  rewrite (g_chunk _ Hg). change FLASH_TS_MAX_SIZE with 16384. rewrite (g_erasesize _ Hg).
  destruct (geom_block _ Hg) as (c & Hcb & Hc0). destruct (g_size _ Hg) as [Hs Hsm].
  apply mod_0_mul in Hsm as Hsz; [|lia]. assert (0 < size p / block_size < 2 ^ 29).
  { split; [nia|]. apply Z.div_lt_upper_bound; nia. }
  rewrite i32_id by (unfold is_i32; lia).
  replace (Z.to_nat (size p / block_size * 2)) with (S (Z.to_nat (size p / block_size * 2) - 1)) by lia.
  apply (commit_loop_reliable _ e p1); try done.
  - destruct Hg. by constructor.
  - destruct Hwf. constructor; simpl; try done. len.
  - destruct Hb. constructor; simpl; try done. apply is_bytes_app. split; [by apply Forall_take|].
    apply Forall_replicate. unfold is_u8. lia.
  - destruct Hr. by constructor.
Qed.

(** ** The contents of the partition *)

Definition rec_at (f : Z -> Z) (p : priv) (o : Z) : ts_rec := ts_of_bytes (chunk_at f p o).

(** The version found in a chunk, 0 when its record is not valid. *)
Definition hdr (f : Z -> Z) (p : priv) (o : Z) : Z := default 0 (flash_ts_check_header (rec_at f p o)).

(** The scan leaves the block at this chunk. *)
Definition skip (f : Z -> Z) (p : priv) (o : Z) : bool :=
  (hdr f p o =? 0) && default false (is_blank (ts_bytes (rec_at f p o))).

Record durable (f : Z -> Z) (p : priv) : Prop := {
  du_geom : geom p;
  du_wf : wf_priv p;
  du_bufs : bufs_ok p;
  du_off : is_chunk p (offset p);
  du_rec : rec_ok (cache p);
  du_hdr : version (cache p) <> 0 -> flash_ts_check_header (cache p) = Some (version (cache p));
  du_max o : is_chunk p o -> hdr f p o <= version (cache p);
  du_first o : is_chunk p o -> o < offset p -> version (cache p) <> 0 -> hdr f p o < version (cache p);
  du_cur : version (cache p) <> 0 -> chunk_at f p (offset p) = ts_bytes (cache p);
  du_vis o : version (cache p) <> 0 -> is_chunk p o -> o < offset p ->
    o / block_size = offset p / block_size -> skip f p o = false;
  du_none : version (cache p) = 0 -> offset p = size p - 16384;
  du_empty : version (cache p) = 0 -> len (cache p) = 1;
}.

Lemma rec_at_ext f g p p' o :
  chunk_at f p o = chunk_at g p' o -> hdr f p o = hdr g p' o /\ skip f p o = skip g p' o.
Proof. intros Hc. unfold skip, hdr, rec_at. by rewrite Hc. Qed.

Lemma hdr_erased f p o : chunk_at f p o = replicate chunk_len erased -> hdr f p o = 0.
Proof.
  intros Hc. unfold hdr, rec_at. rewrite Hc. unfold flash_ts_check_header.
  pose proof chunk_len_Z as Hl.
  replace chunk_len with (S (S (S (S (chunk_len - 4))))) by lia. unfold ts_of_bytes.
  cbn [replicate magic]. unfold de32. cbn [nth]. by destruct erased_val as [-> | ->].
Qed.

(** The chunks after a commit. *)
Lemma round_chunks f p o :
  geom p -> wf_priv p -> is_chunk p (offset p) -> is_chunk p o ->
  (o = next_off p -> chunk_at (round_disk p f) p o = ts_bytes (cache p)) /\
  (o <> next_off p ->
     chunk_at (round_disk p f) p o = chunk_at f p o \/
     next_off p mod block_size = 0 /\ chunk_at (round_disk p f) p o = replicate chunk_len erased).
Proof.
  intros Hg Hwf Hoff Ho. pose proof (next_off_chunk p Hg Hoff) as Hn. pose proof chunk_len_Z as Hcl.
  pose proof (length_rec _ (wf_cache _ Hwf)) as Hlr. destruct (geom_block _ Hg) as (c & Hc & Hc0).
  unfold round_disk. set (off := next_off p) in *. set (pre := mask_block _ _).
  assert (Hpre : pre mod block_size = 0).
  { unfold pre. destruct (g_block _ Hg) as (k & Hk & ->). rewrite mask_block_pow by lia.
    rewrite Z.mul_comm. apply Z.mod_mul. apply Z.pow_nonzero; lia. }
  set (fe := if _ =? 0 then _ else f).
  assert (Hfe : o <> off -> chunk_at (upd fe (base p + off) (ts_bytes (cache p))) p o = chunk_at fe p o).
  { intros Hne. apply chunk_upd_out. rewrite Hlr, Hcl. destruct Ho as [_ Ho], Hn as [_ Hn].
    apply mod_0_mul in Ho, Hn; lia. }
  assert (Hcur : chunk_at (upd fe (base p + off) (ts_bytes (cache p))) p off = ts_bytes (cache p)).
  { unfold chunk_at. rewrite <- Hlr. apply upd_same. }
  destruct Hn as [Hn Hnm], Ho as [Ho Hom].
  destruct (Z.eqb_spec (off mod block_size) 0) as [E|E]; simpl.
  - destruct (Z.eqb_spec off pre) as [Ep|Ep]; simpl.
    + split; [intros ->; done|]. intros Hne. rewrite Hfe by done. unfold fe. rewrite chunk_erased by done.
      case_decide; auto.
    + rewrite !chunk_erased by done. split; [|intros Hne]; case_decide as Hd.
      * intros ->. exfalso. by apply (mul_block_eq off pre).
      * intros ->. done.
      * auto.
      * rewrite Hfe by done. unfold fe. rewrite chunk_erased by done. case_decide; auto.
  - split; [intros ->; done|]. intros Hne. left. by apply Hfe.
Qed.

(** What the invariant needs of a record that is committed over [p]. *)
Record successor (p : priv) (t : ts_rec) : Prop := {
  su_rec : rec_ok t;
  su_version : version t = version (cache p) + 1;
  su_hdr : flash_ts_check_header t = Some (version t);
  su_size : Z.of_nat (length (data t)) = FLASH_TS_MAX_DATA_SIZE;
  su_bytes : is_bytes (data t);
}.

Lemma hdr_record f p o t :
  rec_ok t -> flash_ts_check_header t = Some (version t) -> chunk_at f p o = ts_bytes t ->
  hdr f p o = version t.
Proof. intros Hr Hh Hc. unfold hdr, rec_at. by rewrite Hc, ts_of_bytes_bytes, Hh by done. Qed.

(** Where the ring goes next: the first chunk of a block, or the next one of
    the same block. *)
Lemma next_off_cases p : geom p -> is_chunk p (offset p) ->
  next_off p mod block_size = 0 \/
  next_off p mod block_size <> 0 /\ next_off p = offset p + 16384 /\ offset p + 16384 < size p /\
    next_off p / block_size = offset p / block_size.
Proof.
  intros Hg [Ho Hm]. destruct (Z.eq_dec (next_off p mod block_size) 0) as [?|Hne]; [by left|right].
  unfold next_off in *. destruct (Z.leb_spec (size p) (offset p + 16384)) as [Hle|Hlt].
  - by rewrite Z.mod_0_l in Hne by (destruct (geom_block _ Hg) as (c & ? & ?); lia).
  - do 3 (split; [done|]). destruct (geom_block _ Hg) as (c & Hc & Hc0). symmetry.
    assert (Hb0 : 0 < block_size) by lia. assert (Hnz : block_size <> 0) by lia.
    apply Z.div_unique with (r := offset p mod block_size + 16384).
    + left. pose proof (Z.mod_pos_bound (offset p) block_size Hb0) as Hb.
      assert (Hd : (offset p mod block_size) mod 16384 = 0).
      { rewrite Hc. rewrite (Z.mul_comm c), Z.rem_mul_r by lia. rewrite Hm.
        rewrite Z.add_0_l, Z.mul_comm. apply Z.mod_mul. lia. }
      apply mod_0_mul in Hd; [|lia]. set (m := offset p mod block_size / 16384) in *.
      assert (offset p mod block_size + 16384 <> block_size); [|lia].
      intros Heq. apply Hne. pose proof (Z.div_mod (offset p) block_size Hnz).
      replace (offset p + 16384) with ((offset p / block_size + 1) * block_size) by lia.
      apply Z.mod_mul. lia.
    + pose proof (Z.div_mod (offset p) block_size Hnz). lia.
Qed.

Lemma div_eq_lt o b : 0 < block_size -> b mod block_size = 0 -> o / block_size = b / block_size -> b <= o.
Proof.
  intros Hb Hm Hd. apply mod_0_mul in Hm; [|lia]. pose proof (Z.mul_div_le o block_size Hb). lia.
Qed.

Lemma durable_commit f p t :
  durable f p -> successor p t ->
  let p1 := set_cache t p in
  durable (round_disk p1 f) (set_offset (next_off p1) (set_verify t p1)).
Proof.
  intros [Hg Hwf Hb Ho Hr Hh Hmax Hfirst Hcur Hvis Hnone Hempty] [Sr Sv Sh Ss Sb] p1.
  assert (Hg1 : geom p1) by (destruct Hg; by constructor).
  assert (Hwf1 : wf_priv p1) by (destruct Hwf; by constructor).
  pose proof (next_off_chunk p Hg Ho) as Hn. fold (next_off p) in Hn.
  change (next_off p1) with (next_off p). set (p2 := set_offset _ _).
  destruct (geom_block _ Hg) as (c & Hcb & Hc0).
  assert (Hv0 : 0 <= version (cache p)) by apply Hr.
  set (g := round_disk p1 f) in *.
  assert (Hrc : forall o, is_chunk p o ->
     (o = next_off p -> chunk_at g p o = ts_bytes t) /\
     (o <> next_off p -> chunk_at g p o = chunk_at f p o \/
        next_off p mod block_size = 0 /\ chunk_at g p o = replicate chunk_len erased))
    by exact (fun o Hc => round_chunks f p1 o Hg1 Hwf1 Ho Hc).
  assert (Hnew : chunk_at g p (next_off p) = ts_bytes t) by (by apply (Hrc _ Hn)).
  assert (Hnh : hdr g p (next_off p) = version t) by (by apply hdr_record).
  assert (Hold : forall o, is_chunk p o -> o <> next_off p -> hdr g p o < version t).
  { intros o Hc Hne. rewrite Sv. destruct (proj2 (Hrc o Hc) Hne) as [Hs|[_ Hs]].
    - destruct (rec_at_ext _ _ _ _ _ Hs) as [-> _]. specialize (Hmax o Hc). lia.
    - rewrite hdr_erased by done. lia. }
  constructor.
  - destruct Hg. by constructor.
  - destruct Hwf. by constructor.
  - destruct Hb. by constructor.
  - exact Hn.
  - done.
  - done.
  - intros o Hc. change (hdr g p o <= version t).
    destruct (Z.eq_dec o (next_off p)) as [->|Hne]; [lia|]. specialize (Hold o Hc Hne). lia.
  - intros o Hc Hlt _. change (hdr g p o < version t).
    change (o < next_off p) in Hlt. apply Hold; [done|lia].
  - intros _. exact Hnew.
  - intros o _ Hc Hlt Hblk. change (o < next_off p) in Hlt.
    change (o / block_size = next_off p / block_size) in Hblk.
    change (skip g p o = false). change (is_chunk p o) in Hc.
    destruct (next_off_cases p Hg Ho) as [Hm|(Hm & Hno & Hlt' & Hblk')].
    { pose proof (div_eq_lt o (next_off p)). lia. }
    assert (Hv : version (cache p) <> 0) by (intros Hz; specialize (Hnone Hz); lia).
    destruct (proj2 (Hrc o Hc)) as [Hs|[? _]]; [lia| |done].
    destruct (rec_at_ext _ _ _ _ _ Hs) as [_ ->]. destruct (Z.eq_dec o (offset p)) as [->|Hne].
    + unfold skip. rewrite (hdr_record f p (offset p) (cache p)) by auto.
      by rewrite (proj2 (Z.eqb_neq _ 0) Hv).
    + apply Hvis; try done; [|congruence]. destruct Hc as [_ Hc], Ho as [_ Ho].
      apply mod_0_mul in Hc, Ho; lia.
  - intros Hz. change (version t = 0) in Hz. lia.
  - intros Hz. change (version t = 0) in Hz. lia.
Qed.

(** ** The interface on a reliable device *)

Lemma flat_last es : es <> [] -> exists l, flat es = l ++ [0].
Proof.
  destruct es as [|e es] using rev_ind; [done|]. intros _. rewrite flat_app, flat_cons.
  exists (flat es ++ e.1 ++ 61 :: e.2). change (flat []) with (@nil Z). rewrite app_nil_r. unfold entry.
  by rewrite <- !app_assoc.
Qed.

Lemma lookup_at (a b : bytes) x : (a ++ x :: b) !! length a = Some x.
Proof. by apply list_lookup_middle. Qed.

Lemma check_header_ok t es :
  ts_repr t es -> magic t = FLASH_TS_MAGIC -> ts_crc t = Some (crc t) -> version t <> 0 ->
  flash_ts_check_header t = Some (version t).
Proof.
  intros Hr Hm Hc Hv. pose proof (repr_bounds _ _ Hr) as Hb. destruct Hr as [Hl _ [junk Hd] _ _ _].
  unfold flash_ts_check_header, flash_ts_crc. rewrite Hm, Hc, Z.eqb_refl.
  rewrite (proj2 (Z.eqb_neq _ 0) Hv), (proj2 (Z.eqb_neq (len t) 0)), (proj2 (Z.leb_le _ _)) by lia.
  simpl. rewrite Z.eqb_refl. simpl. rewrite Hd, Hl.
  replace (Z.to_nat (Z.of_nat (length (flat es)) + 1 - 1)) with (length (flat es)) by lia.
  rewrite lookup_at. simpl. destruct (Z.eqb_spec (Z.of_nat (length (flat es)) + 1) 1) as [E|E]; [done|].
  destruct (flat_last es) as [l Hf]; [intros ->; by simpl in E|]. rewrite Hf in *.
  replace (Z.to_nat _) with (length l) by len. rewrite <- app_assoc. simpl app.
  by rewrite lookup_at.
Qed.

Lemma repr_rec_ok t es :
  ts_repr t es -> magic t = FLASH_TS_MAGIC -> ts_crc t = Some (crc t) -> is_u32 (version t) -> rec_ok t.
Proof.
  intros Hr Hm Hc Hv. pose proof (repr_bounds _ _ Hr) as Hb. destruct Hr as [_ Hcap _ HB _ _].
  constructor; [|eapply ts_crc_range; eauto| |done].
  - rewrite Hm. unfold is_u32, FLASH_TS_MAGIC. lia.
  - unfold is_u32. lia.
Qed.

Lemma durable_backup f p t :
  durable f p -> is_bytes (data t) -> Z.of_nat (length (data t)) = FLASH_TS_MAX_DATA_SIZE ->
  durable f (set_backup t p).
Proof.
  intros [[] [] [] ? ? ? ? ? ? ? ? ?] Hb Hl. constructor; try done; constructor; done.
Qed.

(** The record that [flash_ts_set] commits. *)
Lemma next_successor p l d c es :
  is_u32 (version (cache p) + 1) -> 0 <= version (cache p) ->
  Z.of_nat (length d) = FLASH_TS_MAX_DATA_SIZE -> magic (cache p) = FLASH_TS_MAGIC ->
  ts_repr (set_data d (set_len l (cache p))) es ->
  ts_crc (set_version (u32 (version (cache p) + 1)) (set_data d (set_len l (cache p)))) = Some c ->
  successor p (filled (next_record (cache p) l d c)) /\
  ts_repr (filled (next_record (cache p) l d c)) es /\
  ts_crc (filled (next_record (cache p) l d c)) = Some c /\
  rec_ok (next_record (cache p) l d c).
Proof.
  intros Hv Hv0 Hl Hm Hr Hc. set (t := next_record (cache p) l d c).
  assert (Hrt : ts_repr t es) by (eapply repr_ext; [exact Hr|done..]).
  pose proof (repr_bounds _ _ Hrt) as Hb. assert (0 <= l) by (change l with (len t); lia).
  assert (Hct : ts_crc t = Some c) by (rewrite <- Hc; apply ts_crc_ext; simpl; done || lia).
  pose proof (repr_filled _ _ Hrt) as Hrf. fold (filled t) in Hrf.
  assert (Hcf : ts_crc (filled t) = Some c) by (rewrite filled_crc by lia; done).
  assert (Hvt : version t = version (cache p) + 1) by (simpl; by apply u32_id).
  assert (Hvu : is_u32 (version t)) by (by rewrite Hvt).
  split; [|split; [done|split; [done|]]].
  - constructor.
    + eapply repr_rec_ok; eauto.
    + done.
    + eapply check_header_ok; eauto. change (version (filled t)) with (version t). lia.
    + simpl. unfold t in Hb. simpl in Hb. len.
    + apply Hrf.
  - eapply repr_rec_ok; eauto.
Qed.

Lemma durable_ext f g p : (forall x, f x = g x) -> durable f p -> durable g p.
Proof.
  intros Hfg [Hg Hwf Hb Ho Hr Hh Hmax Hfirst Hcur Hvis Hnone Hempty].
  assert (Hc : forall o, chunk_at f p o = chunk_at g p o) by (intros; by apply chunk_ext).
  constructor; try done; intros.
  - destruct (rec_at_ext f g p p o (Hc o)) as [<- _]. auto.
  - destruct (rec_at_ext f g p p o (Hc o)) as [<- _]. auto.
  - rewrite <- Hc. auto.
  - destruct (rec_at_ext f g p p o (Hc o)) as [_ <-]. auto.
Qed.

(** The commit of an edited record. *)
Lemma edit_durable e p es l d :
  wf_env e -> durable (disk (dev e)) p -> magic (cache p) = FLASH_TS_MAGIC ->
  version (cache p) + 1 < 2 ^ 32 -> length d = length (data (cache p)) ->
  ts_repr (set_data d (set_len l (cache p))) es ->
  exists c e' p',
    ts_crc (set_version (u32 (version (cache p) + 1)) (set_data d (set_len l (cache p)))) = Some c /\
    flash_ts_commit e (set_cache (next_record (cache p) l d c) p) = Some (e', p', 0) /\
    wf_env e' /\ holds (mk_store true p') es /\ durable (disk (dev e')) p' /\
    version (cache p') = version (cache p) + 1.
Proof.
  intros He Hdu Hm Hver Hd Hr. pose proof (repr_bounds _ _ Hr) as Hb. simpl in Hb.
  pose proof Hdu as [Hg Hw Hbf Ho Hro' _ _ _ _ _ _ _]. pose proof (wf_cache _ Hw) as Hcl.
  pose proof (ok_version _ Hro') as Hv0. unfold is_u32 in Hv0.
  destruct (ts_crc_defined (set_version (u32 (version (cache p) + 1)) (set_data d (set_len l (cache p)))))
    as [c Hcc]; [simpl; lia|].
  destruct (next_successor p l d c es) as (Hsu & Hrf & Hcf & Hro); try done; [unfold is_u32; lia|lia|lia|].
  exists c. set (t := next_record (cache p) l d c) in *. set (p1 := set_cache t p).
  destruct (commit_reliable e p1) as (e' & Hcm & Hdk & He'); try done.
  { destruct Hg. by constructor. }
  { destruct Hw. constructor; try done. simpl. lia. }
  { destruct Hbf. constructor; try done. apply Hr. }
  { simpl. lia. }
  pose proof (durable_commit _ _ _ Hdu Hsu) as Hdu'. do 2 eexists. split; [done|]. split; [exact Hcm|].
  split; [done|]. split; [|split].
  - constructor; try done. apply Hdu'.
  - eapply durable_ext; [intros x; symmetry; apply Hdk|exact Hdu'].
  - apply Hsu.
Qed.

(** A set whose result fits succeeds and is on the device. *)
Lemma set_durable e st es k v krest vrest :
  wf_env e -> durable (disk (dev e)) (ts_priv st) -> holds st es -> key_ok k -> value_ok v ->
  version (cache (ts_priv st)) + 1 < 2 ^ 32 -> fits (ts_put es k v) ->
  exists e' st', flash_ts_set e st (k ++ 0 :: krest) (v ++ 0 :: vrest) = Some (e', st', 0) /\
    wf_env e' /\ holds st' (ts_put es k v) /\ durable (disk (dev e')) (ts_priv st').
Proof.
  intros He Hdu Hst Hk Hv Hver Hfit. unfold flash_ts_set. cbn [strlen].
  rewrite !strlen_loop_cstr by apply Hk || apply Hv. rewrite (flash_check_holds _ _ Hst).
  cbn [mbind option_bind]. pose proof Hst as [_ Hwf Hm Hr Hc].
  set (p := set_backup (cache (ts_priv st)) (ts_priv st)).
  assert (Hdp : durable (disk (dev e)) p) by (apply durable_backup; [done|apply Hr|apply Hwf]).
  destruct (ts_update_ok (cache p) es k v krest vrest Hr Hk Hv) as (ed & -> & Hed).
  cbn [mbind option_bind]. destruct ed as [| |l d]; simpl in Hed.
  - do 2 eexists. split; [done|]. rewrite Hed. split; [done|]. split; [|done].
    constructor; try done. apply Hdp.
  - exfalso. unfold fits in Hfit. destruct Hwf. simpl in *. lia.
  - destruct Hed as (Hne & Hd & Hr').
    destruct (edit_durable e p _ l d He Hdp Hm Hver Hd Hr') as (c & e' & p' & Hcc & Hcm & Hpost).
    unfold flash_ts_crc. change (version (set_data d (set_len l (cache p)))) with (version (cache p)).
    rewrite Hcc. cbn [mbind option_bind]. fold (next_record (cache p) l d c). rewrite Hcm.
    cbn [mbind option_bind]. cbn [Z.eqb negb]. do 2 eexists. split; [done|].
    by destruct Hpost as (? & ? & ? & _).
Qed.

(** ** The scan *)

Lemma nth_bytes (b : bytes) i : is_bytes b -> 0 <= nth i b 0.
Proof.
  intros Hb. destruct (nth_in_or_default i b 0) as [Hi| ->]; [|done].
  eapply List.Forall_forall in Hi; [|exact Hb]. cbv beta in Hi. unfold is_u8 in Hi. lia.
Qed.

Lemma de32_nonneg b : is_bytes b -> 0 <= de32 b.
Proof.
  intros Hb. unfold de32. rewrite !Z.shiftl_mul_pow2 by lia.
  pose proof (nth_bytes b 0 Hb). pose proof (nth_bytes b 1 Hb). pose proof (nth_bytes b 2 Hb).
  pose proof (nth_bytes b 3 Hb). lia.
Qed.

Lemma check_header_total t : 0 <= len t ->
  exists v, flash_ts_check_header t = Some v /\ (v = 0 \/ v = version t).
Proof.
  intros Hl. unfold flash_ts_check_header, flash_ts_crc.
  destruct (_ && _) eqn:E; [|eauto]. bool_simpl.
  destruct (ts_crc_defined t) as [c ->]; [lia|]. cbn [mbind option_bind].
  destruct (negb (crc t =? c)); [eauto|].
  destruct (lookup_lt_is_Some_2 (data t) (Z.to_nat (len t - 1))) as [z1 ->]; [lia|]. simpl.
  destruct (negb (z1 =? 0)); [eauto|]. destruct (Z.eqb_spec (len t) 1); [eauto|].
  destruct (lookup_lt_is_Some_2 (data t) (Z.to_nat (len t - 2))) as [z2 ->]; [lia|]. simpl.
  destruct (negb (z2 =? 0)); eauto.
Qed.

Lemma is_blank_total t : exists b, is_blank (ts_bytes t) = Some b.
Proof. unfold is_blank, ts_bytes, le32. simpl. eauto. Qed.

(** One round of the scan at a chunk. *)
Lemma scan_round_reliable e p off good :
  geom p -> wf_priv p -> is_chunk p off ->
  let f := disk (dev e) in
  let p1 := set_verify (rec_at f p off) p in
  exists e', scan_round e p off good =
      Some (e', (if version (cache p) <? hdr f p off then set_offset off (set_cache (rec_at f p off) p1) else p1),
            (if skip f p off then block_size * ((off + block_size) / block_size) else off + 16384),
            (if off mod block_size =? 0 then good + 1 else good)) /\
    (forall x, disk (dev e') x = disk (dev e) x) /\ page_buff e' = page_buff e.
Proof.
  intros Hg Hwf Ho f p1. unfold scan_round, flash_block_isbad, is_block_bad.
  rewrite andb_false_r, (g_erasesize _ Hg).
  destruct (g_block _ Hg) as (k & Hk & Hbs).
  assert (Hib : in_block off block_size = off mod block_size) by (rewrite Hbs; apply in_block_pow; lia).
  rewrite Hib. change FLASH_TS_MAX_SIZE with 16384.
  destruct (flash_read_chunk e p off Hg Hwf Ho) as (e' & -> & Hd). exists e'. split; [|done].
  cbn [mbind option_bind]. cbn [Z.eqb negb]. fold f. fold (rec_at f p off). fold p1.
  change (cache_tmp_verify p1) with (rec_at f p off).
  assert (Hlen : 0 <= len (rec_at f p off)).
  { apply de32_nonneg, Forall_drop. apply rng_bytes. intros. apply disk_bytes. }
  destruct (check_header_total _ Hlen) as (v & Hv & _).
  destruct (is_blank_total (rec_at f p off)) as [b Hb].
  assert (Hh : hdr f p off = v) by (unfold hdr; by rewrite Hv).
  unfold skip. rewrite Hv, Hh, Hb. cbn [mbind option_bind]. change (version (cache p1)) with (version (cache p)).
  assert (Hmask : mask_block (off + block_size) block_size = block_size * ((off + block_size) / block_size))
    by (rewrite Hbs; apply mask_block_pow; lia).
  assert (Hc : chunk p = 16384) by apply Hg.
  set (p2 := if version (cache p) <? v then _ else p1).
  assert (Hp2 : cache_tmp_verify p2 = rec_at f p off /\ erasesize p2 = block_size /\ chunk p2 = 16384).
  { unfold p2. destruct (version (cache p) <? v); simpl; by rewrite (g_erasesize _ Hg). }
  destruct Hp2 as (-> & -> & ->). rewrite Hb, Hmask. by destruct (v =? 0), b.
Qed.

(** What every round keeps: the geometry, the sizes of the buffers and the
    place of the partition. *)
Record scanning (p ts : priv) : Prop := {
  sn_geom : geom ts;
  sn_wf : wf_priv ts;
  sn_bufs : bufs_ok ts;
  sn_base : base ts = base p;
  sn_size : size ts = size p;
}.

Lemma rec_at_wf f p o : (forall x, is_u8 (f x)) ->
  is_bytes (data (rec_at f p o)) /\ Z.of_nat (length (data (rec_at f p o))) = FLASH_TS_MAX_DATA_SIZE.
Proof.
  intros Hf. pose proof chunk_len_Z. unfold rec_at, ts_of_bytes, chunk_at. simpl. split.
  - by apply Forall_drop, rng_bytes.
  - rewrite length_drop, length_rng. change FLASH_TS_MAX_DATA_SIZE with 16368. lia.
Qed.

Lemma scanning_verify f p ts o : (forall x, is_u8 (f x)) -> scanning p ts ->
  scanning p (set_verify (rec_at f ts o) ts) /\
  scanning p (set_offset o (set_cache (rec_at f ts o) (set_verify (rec_at f ts o) ts))).
Proof.
  intros Hf [[] [] [] Hb Hs]. destruct (rec_at_wf f ts o Hf).
  split; constructor; try done; constructor; done.
Qed.

(** The offset advances by a chunk or to the next block. *)
Lemma scan_next f p off : geom p -> is_chunk p off ->
  let off' := if skip f p off then block_size * ((off + block_size) / block_size) else off + 16384 in
  off + 16384 <= off' /\ off' mod 16384 = 0.
Proof.
  intros Hg [Ho Hm]. destruct (geom_block _ Hg) as (c & Hc & Hc0). cbv zeta.
  assert (Hb0 : 0 < block_size) by lia. destruct (skip f p off).
  - replace (off + block_size) with (off + 1 * block_size) by lia. rewrite Z.div_add by lia.
    assert (Hm' : (block_size * (off / block_size)) mod block_size = 0)
      by (rewrite Z.mul_comm; apply Z.mod_mul; lia).
    pose proof (Z.mul_div_le off block_size Hb0). pose proof (Z.mul_succ_div_gt off block_size Hb0).
    pose proof (chunk_block p _ off Hg Hm' Hm ltac:(lia)). split; [lia|].
    apply (block_chunk p); [done|]. rewrite Z.mul_comm. apply Z.mod_mul. lia.
  - split; [lia|]. rewrite <- Zplus_mod_idemp_r. by rewrite Z.mod_same, Z.add_0_r by lia.
Qed.

Lemma hdr_conf f g p ts o : (forall x, f x = g x) -> base ts = base p ->
  hdr f ts o = hdr g p o /\ skip f ts o = skip g p o /\ rec_at f ts o = rec_at g p o.
Proof.
  intros Hfg Hb. unfold skip, hdr, rec_at, chunk_at. rewrite Hb.
  by rewrite (rng_ext f g) by (intros; apply Hfg).
Qed.

(** One round, in terms of the partition [p] and its contents [f]. *)
Lemma scan_step f e p ts off good :
  (forall x, disk (dev e) x = f x) -> scanning p ts -> is_chunk p off ->
  exists e' ts' off', scan_round e ts off good =
      Some (e', ts', off', good + (if off mod block_size =? 0 then 1 else 0)) /\
    (forall x, disk (dev e') x = f x) /\ page_buff e' = page_buff e /\ scanning p ts' /\
    off' = (if skip f p off then block_size * ((off + block_size) / block_size) else off + 16384) /\
    off + 16384 <= off' /\ off' mod 16384 = 0 /\
    (hdr f p off <= version (cache ts) -> cache ts' = cache ts /\ offset ts' = offset ts) /\
    (version (cache ts) < hdr f p off -> cache ts' = rec_at f p off /\ offset ts' = off).
Proof.
  intros Hd Hs Ho. assert (Hot : is_chunk ts off) by (destruct Hs; unfold is_chunk in *; congruence).
  pose proof Hs as [Hg Hwf Hbf Hbase Hsize].
  destruct (scan_round_reliable e ts off good Hg Hwf Hot) as (e1 & Hr & Hd1 & Hp1).
  destruct (scan_next (disk (dev e)) ts off Hg Hot) as [Hn1 Hn2].
  destruct (scanning_verify (disk (dev e)) p ts off) as [Hs1 Hs2]; [intros; apply disk_bytes|done|].
  destruct (hdr_conf (disk (dev e)) f p ts off Hd Hbase) as (Hh & Hk & Hrec).
  rewrite Hh, Hk, Hrec in *. exists e1. do 2 eexists. split.
  { rewrite Hr. do 2 f_equal. destruct (off mod block_size =? 0); lia. }
  split; [intros x; by rewrite Hd1|]. split; [done|]. split; [by destruct (_ <? _)|].
  do 3 (split; [done|]). split; intros Hv.
  - by rewrite (proj2 (Z.ltb_ge _ _)).
  - by rewrite (proj2 (Z.ltb_lt _ _)).
Qed.

(** What a finished scan of the partition reports. *)
Definition scan_post (f : Z -> Z) (e : env D) (p : priv) (t : ts_rec) (o good : Z)
    (r : option (env D * priv * Z)) : Prop :=
  exists e' ts' good', r = Some (e', ts', good') /\
    (forall x, disk (dev e') x = f x) /\ page_buff e' = page_buff e /\ scanning p ts' /\
    cache ts' = t /\ offset ts' = o /\ good <= good'.

Lemma scan_post_weaken f e e1 p t o g g1 r :
  page_buff e1 = page_buff e -> g <= g1 -> scan_post f e1 p t o g1 r -> scan_post f e p t o g r.
Proof.
  intros Hp Hg (e' & ts' & good' & Hr & Hd & Hp' & Hs & Hc & Ho & Hg'). exists e', ts', good'.
  rewrite Hp in Hp'. do 6 (split; [done|]). lia.
Qed.

(** Nothing left to find: the rest of the scan keeps the record. *)
Lemma scan_settled fuel f e p ts off good :
  (forall x, disk (dev e) x = f x) -> scanning p ts ->
  (forall o, is_chunk p o -> hdr f p o <= version (cache ts)) ->
  is_chunk p off -> size p - off <= Z.of_nat fuel * 16384 ->
  scan_post f e p (cache ts) (offset ts) (good + (if off mod block_size =? 0 then 1 else 0))
    (scan_loop fuel e ts off good).
Proof.
  revert e ts off good; induction fuel as [|fuel IH]; intros e ts off good Hd Hs Hmax Ho Hf.
  { destruct Ho. lia. }
  destruct (scan_step f e p ts off good Hd Hs Ho) as (e1 & ts1 & off1 & Hr & Hd1 & Hp1 & Hs1 & _ & Hle & Hm & Hk & _).
  cbn [scan_loop]. rewrite Hr. cbn [mbind option_bind]. rewrite (sn_size _ _ Hs1).
  destruct (Hk (Hmax off Ho)) as [Hc1 Ho1].
  destruct (Z.ltb_spec off1 (size p)) as [Hlt|Hge].
  - rewrite <- Hc1, <- Ho1. eapply scan_post_weaken; [exact Hp1| |apply IH; try done].
    + destruct (off1 mod block_size =? 0); lia.
    + intros. rewrite Hc1. auto.
    + destruct Ho. split; [lia|done].
    + lia.
  - do 3 eexists. split; [done|]. rewrite Hc1, Ho1. do 5 (split; [done|]). lia.
Qed.

(** The scan does not jump over the newest record. *)
Lemma seek_next f p off : durable f p -> version (cache p) <> 0 -> is_chunk p off -> off < offset p ->
  (if skip f p off then block_size * ((off + block_size) / block_size) else off + 16384) <= offset p.
Proof.
  intros Hdu Hv Ho Hlt. pose proof (du_off _ _ Hdu) as [Hop Hom]. pose proof Ho as [Ho0 Hm].
  destruct (geom_block _ (du_geom _ _ Hdu)) as (c & Hc & Hc0). assert (Hb0 : 0 < block_size) by lia.
  destruct (skip f p off) eqn:E; [|apply mod_0_mul in Hm, Hom; lia].
  replace (off + block_size) with (off + 1 * block_size) by lia. rewrite Z.div_add by lia.
  assert (off / block_size <> offset p / block_size).
  { intros Heq. rewrite (du_vis _ _ Hdu off) in E; done. }
  assert (off / block_size <= offset p / block_size) by (apply Z.div_le_mono; lia).
  pose proof (Z.mul_div_le (offset p) block_size Hb0). nia.
Qed.

Lemma hdr_version f p o : (forall x, is_u8 (f x)) -> hdr f p o <> 0 -> version (rec_at f p o) = hdr f p o.
Proof.
  intros Hf. unfold hdr. destruct (check_header_total (rec_at f p o)) as (v & -> & Hv).
  { apply de32_nonneg, Forall_drop, rng_bytes, Hf. }
  simpl. intros. by destruct Hv.
Qed.

(** Before the newest record is met. *)
Lemma scan_seek fuel f e p ts off good :
  (forall x, is_u8 (f x)) -> durable f p -> version (cache p) <> 0 ->
  (forall x, disk (dev e) x = f x) -> scanning p ts -> 
  0 <= version (cache ts) < version (cache p) -> off <= offset p ->
  is_chunk p off -> size p - off <= Z.of_nat fuel * 16384 ->
  scan_post f e p (cache p) (offset p) (good + (if off mod block_size =? 0 then 1 else 0))
    (scan_loop fuel e ts off good).
Proof.
  intros Hu8 Hdu Hv. revert e ts off good.
  induction fuel as [|fuel IH]; intros e ts off good Hd Hs Hlt Hle Ho Hf; [destruct Ho; lia|].
  destruct (scan_step f e p ts off good Hd Hs Ho)
    as (e1 & ts1 & off1 & Hr & Hd1 & Hp1 & Hs1 & Hoff1 & Hadv & Hm & Hk & Hn).
  cbn [scan_loop]. rewrite Hr. cbn [mbind option_bind]. rewrite (sn_size _ _ Hs1).
  destruct (Z.eq_dec off (offset p)) as [->|Hne].
  - pose proof (hdr_record f p (offset p) (cache p) (du_rec _ _ Hdu) (du_hdr _ _ Hdu Hv) (du_cur _ _ Hdu Hv)) as Hh.
    destruct Hn as [Hc1 Ho1]; [lia|].
    assert (Hc : cache ts1 = cache p).
    { rewrite Hc1. unfold rec_at. rewrite (du_cur _ _ Hdu Hv). apply ts_of_bytes_bytes, Hdu. }
    destruct (Z.ltb_spec off1 (size p)).
    + rewrite <- Hc. rewrite <- Ho1 at 1. eapply scan_post_weaken; [exact Hp1| |apply scan_settled; try done].
      * destruct (off1 mod block_size =? 0); lia.
      * intros. rewrite Hc. by apply Hdu.
      * destruct Ho. split; [lia|done].
      * lia.
    + do 3 eexists. split; [done|]. rewrite Hc, Ho1. do 5 (split; [done|]). lia.
  - assert (Hlt1 : off1 <= offset p) by (rewrite Hoff1; apply seek_next; try done; lia).
    pose proof (du_off _ _ Hdu) as [Hop _]. rewrite (proj2 (Z.ltb_lt _ _)) by lia.
    eapply scan_post_weaken; [exact Hp1| |apply IH; try done].
    + destruct (off1 mod block_size =? 0); lia.
    + pose proof (du_first _ _ Hdu off Ho ltac:(lia) Hv) as Hh.
      destruct (Z.le_gt_cases (hdr f p off) (version (cache ts))) as [Hc|Hc].
      * by destruct (Hk Hc) as [-> _].
      * destruct Hn as [-> _]; [lia|]. rewrite hdr_version by (done || lia). lia.
    + destruct Ho. split; [lia|done].
    + lia.
Qed.

(** ** flash_ts_init after a restart *)

Lemma chunk_geometry j : 9 <= j <= 14 ->
  clp2 (Z.land (FLASH_TS_MAX_SIZE + 2 ^ j - 1) (Z.lnot (2 ^ j - 1))) = 16384.
Proof.
  intros Hj. assert (j = 9 \/ j = 10 \/ j = 11 \/ j = 12 \/ j = 13 \/ j = 14) as Hc by lia.
  by destruct Hc as [->|[->|[->|[->|[->| ->]]]]].
Qed.

(** The static memory of the driver before it is initialised. *)
Record fresh (st : store) : Prop := {
  fr_cache : is_bytes (data (cache (ts_priv st))) /\
             Z.of_nat (length (data (cache (ts_priv st)))) = FLASH_TS_MAX_DATA_SIZE;
  fr_backup : is_bytes (data (cache_tmp_backup (ts_priv st))) /\
              Z.of_nat (length (data (cache_tmp_backup (ts_priv st)))) = FLASH_TS_MAX_DATA_SIZE;
  fr_verify : is_bytes (data (cache_tmp_verify (ts_priv st))) /\
              Z.of_nat (length (data (cache_tmp_verify (ts_priv st)))) = FLASH_TS_MAX_DATA_SIZE;
}.

(** The empty record flash_ts_init starts from. *)
Record empty_rec (t : ts_rec) : Prop := {
  em_version : version t = 0;
  em_len : len t = 1;
  em_magic : magic t = FLASH_TS_MAGIC;
  em_repr : ts_repr t [];
  em_crc : ts_crc t = Some (crc t);
}.

Lemma empty_rec_intro c c0 rest :
  is_bytes (0 :: rest) -> Z.of_nat (length (0 :: rest)) = FLASH_TS_MAX_DATA_SIZE ->
  ts_crc (mk_ts FLASH_TS_MAGIC c0 1 0 (0 :: rest)) = Some c ->
  empty_rec (set_crc c (mk_ts FLASH_TS_MAGIC c0 1 0 (0 :: rest))).
Proof.
  intros Hb Hl Hc. change FLASH_TS_MAX_DATA_SIZE with 16368 in Hl. constructor; try reflexivity.
  - constructor; simpl in *; [reflexivity|lia|by exists rest|assumption|constructor|constructor].
  - etransitivity; [|exact Hc]. apply ts_crc_ext; reflexivity || (simpl; lia).
Qed.

Lemma bind_ret {A B} (x : A) (h : A -> option B) : (Some x ≫= h) = h x.
Proof. done. Qed.

Lemma init_start e st p :
  geom p -> fresh st ->
  exists p2, scanning p p2 /\ empty_rec (cache p2) /\ offset p2 = size p - 16384 /\
    flash_ts_init e st (base p / block_size) (size p / block_size) =
    ('(e, p3, res) ← flash_ts_scan e p2;
     if negb (res =? 0) then Some (e, mk_store (enabled st) p3, res) else Some (e, mk_store true p3, res)).
Proof.
  intros Hg [[Hcb Hcl] [Hbb Hbl] [Hvb Hvl]]. unfold flash_ts_init.
  destruct (g_page _ Hg) as (j & Hj & Hps). destruct (g_block _ Hg) as (k & Hk & Hbs).
  rewrite Hps, Hbs, !is_power_of_2_pow by lia. cbn [negb orb]. rewrite chunk_geometry by done.
  rewrite <- Hbs, <- Hps. destruct (geom_block _ Hg) as (c & Hc & Hc0).
  rewrite (proj2 (Z.ltb_ge _ _)) by lia.
  destruct (data (cache (ts_priv st))) as [|x rest] eqn:Ed; [by simpl in Hcl|].
  inv_bytes. pose proof Hcl as Hcl'. change FLASH_TS_MAX_DATA_SIZE with 16368 in Hcl'. cbn [length] in Hcl'.
  change (wr (x :: rest) 0 0) with (Some (0 :: rest)). cbn [mbind option_bind].
  set (t := mk_ts FLASH_TS_MAGIC (crc (cache (ts_priv st))) 1 0 (0 :: rest)).
  destruct (ts_crc_defined t) as [cr Hcr]; [simpl; lia|]. unfold flash_ts_crc. rewrite Hcr.
  rewrite bind_ret. destruct (g_base _ Hg) as [Hb0 Hb]. destruct (g_size _ Hg) as [Hs0 Hs].
  apply mod_0_mul in Hb, Hs; [|lia..]. rewrite !(Z.mul_comm _ block_size), <- Hb, <- Hs.
  destruct (geom_page _ Hg) as (Hpp & _).
  assert (H0r : is_bytes (0 :: rest)) by (apply is_bytes_cons; split; [apply is_u8_0|done]).
  eexists. split; [|split; [|split; [|reflexivity]]]; [|by apply empty_rec_intro|reflexivity].
  constructor; [| | |reflexivity..].
  - destruct Hg. constructor; assumption || reflexivity.
  - constructor; simpl; first [reflexivity|lia|change FLASH_TS_MAX_DATA_SIZE with 16368; lia].
  - constructor; assumption.
Qed.

(** The result of a start-up that loads [t] from [o]. *)
Definition loaded (f : Z -> Z) (p : priv) (t : ts_rec) (o : Z) (e : env D) (st : store) : Prop :=
  (forall x, disk (dev e) x = f x) /\ wf_env e /\ enabled st = true /\
  scanning p (ts_priv st) /\ cache (ts_priv st) = t /\ offset (ts_priv st) = o.

Lemma init_scanned f e st p p2 t o :
  wf_env e ->
  flash_ts_init e st (base p / block_size) (size p / block_size) =
    ('(e, p3, res) ← flash_ts_scan e p2;
     if negb (res =? 0) then Some (e, mk_store (enabled st) p3, res) else Some (e, mk_store true p3, res)) ->
  scan_post f e p t o 1 (scan_loop (S (Z.to_nat (size p2 / chunk p2))) e p2 0 0) ->
  exists e' st', flash_ts_init e st (base p / block_size) (size p / block_size) = Some (e', st', 0) /\
    loaded f p t o e' st'.
Proof.
  intros He -> (e' & ts' & good & Hr & Hd & Hp & Hs & Hc & Ho & Hg). unfold flash_ts_scan.
  rewrite Hr. cbn [mbind option_bind]. rewrite (proj2 (Z.eqb_neq good 0)) by lia.
  do 2 eexists. split; [done|]. unfold loaded, wf_env in *. simpl. by rewrite Hp.
Qed.

Lemma chunk_zero p : geom p -> is_chunk p 0.
Proof. intros Hg. destruct (g_size _ Hg). split; [lia|done]. Qed.

Lemma scan_fuel p p2 : scanning p p2 ->
  size p - 0 <= Z.of_nat (S (Z.to_nat (size p2 / chunk p2))) * 16384.
Proof.
  intros [Hg _ _ _ Hs]. rewrite (g_chunk _ Hg). change FLASH_TS_MAX_SIZE with 16384.
  destruct (g_size _ Hg) as [Hz _]. pose proof (Z.div_pos (size p2) 16384 ltac:(lia) ltac:(lia)).
  pose proof (Z.mul_succ_div_gt (size p2) 16384 ltac:(lia)). lia.
Qed.

(** A partition without a valid record comes up empty. *)
Lemma init_no_record f e st p :
  (forall x, disk (dev e) x = f x) -> wf_env e -> fresh st -> geom p ->
  (forall o, is_chunk p o -> hdr f p o <= 0) ->
  exists t e' st', empty_rec t /\
    flash_ts_init e st (base p / block_size) (size p / block_size) = Some (e', st', 0) /\
    loaded f p t (size p - 16384) e' st'.
Proof.
  intros Hd He Hf Hg Hno. destruct (init_start e st p Hg Hf) as (p2 & Hs & Hem & Ho & Hi).
  destruct (init_scanned f e st p p2 (cache p2) (offset p2) He Hi) as (e' & st' & Hr & Hl).
  - pose proof (scan_settled (S (Z.to_nat (size p2 / chunk p2))) f e p p2 0 0) as Hsc.
    apply Hsc; try done; [|by apply chunk_zero|by apply scan_fuel].
    intros o Hc. rewrite (em_version _ Hem). auto.
  - exists (cache p2), e', st'. rewrite <- Ho. done.
Qed.

(** A durable record is loaded again. *)
Lemma init_record f e st p :
  (forall x, disk (dev e) x = f x) -> wf_env e -> fresh st -> durable f p -> version (cache p) <> 0 ->
  exists e' st', flash_ts_init e st (base p / block_size) (size p / block_size) = Some (e', st', 0) /\
    loaded f p (cache p) (offset p) e' st'.
Proof.
  intros Hd He Hf Hdu Hv. pose proof (du_geom _ _ Hdu) as Hg.
  destruct (init_start e st p Hg Hf) as (p2 & Hs & Hem & Ho & Hi).
  apply (init_scanned f e st p p2); [done|done|].
  apply (scan_seek _ f e p p2 0 0); try done.
  - intros x. rewrite <- Hd. apply disk_bytes.
  - rewrite (em_version _ Hem). pose proof (ok_version _ (du_rec _ _ Hdu)) as Hz. unfold is_u32 in Hz. lia.
  - apply (du_off _ _ Hdu).
  - by apply chunk_zero.
  - by apply scan_fuel.
Qed.

(** The loaded state satisfies the invariant again. *)
Lemma durable_loaded f p ts :
  durable f p -> scanning p ts -> cache ts = cache p -> offset ts = offset p -> durable f ts.
Proof.
  intros [Hg Hwf Hb Ho Hr Hh Hmax Hfirst Hcur Hvis Hnone Hempty] [Sg Sw Sb Sbase Ssize] Hc Hof.
  pose proof (fun o => hdr_conf f f p ts o (fun _ => eq_refl) Sbase) as Hconf.
  constructor; rewrite ?Hc, ?Hof; try done.
  - unfold is_chunk in *. by rewrite Ssize.
  - intros o Hi. destruct (Hconf o) as (-> & _). apply Hmax. unfold is_chunk in *. by rewrite <- Ssize.
  - intros o Hi. destruct (Hconf o) as (-> & _). apply Hfirst. unfold is_chunk in *. by rewrite <- Ssize.
  - intros Hv. unfold chunk_at in *. rewrite Sbase. auto.
  - intros o Hv Hi. destruct (Hconf o) as (_ & -> & _). apply Hvis; [done|]. unfold is_chunk in *. by rewrite <- Ssize.
  - rewrite Ssize. done.
Qed.

Lemma empty_durable f p ts :
  geom p -> scanning p ts -> empty_rec (cache ts) -> offset ts = size p - 16384 ->
  (forall o, is_chunk p o -> hdr f p o <= 0) -> durable f ts.
Proof.
  intros Hg [Sg Sw Sb Sbase Ssize] [Ev El Em Er Ec] Ho Hno.
  pose proof (fun o => hdr_conf f f p ts o (fun _ => eq_refl) Sbase) as Hconf.
  constructor; try done.
  - rewrite Ho, <- Ssize. destruct (g_size _ Sg) as [Hs Hm]. destruct (geom_block _ Sg) as (c & Hc & Hc0).
    apply mod_0_mul in Hm as Hz; [|lia]. split; [nia|]. apply (block_chunk ts) in Hm; [|done].
    rewrite Zminus_mod, Hm. done.
  - eapply repr_rec_ok; eauto. rewrite Ev. unfold is_u32. lia.
  - intros o Hi. destruct (Hconf o) as (-> & _). rewrite Ev. apply Hno. unfold is_chunk in *. by rewrite <- Ssize.
  - rewrite Ho, Ssize. done.
Qed.

Lemma repr_len_1 t es : ts_repr t es -> len t = 1 -> es = [].
Proof.
  intros [Hl _ _ _ _ _] H1. destruct es as [|e es]; [done|]. exfalso. rewrite H1, flat_cons in Hl.
  rewrite length_app, length_entry in Hl. lia.
Qed.

(** A restart of a durable store. *)
Lemma init_durable f e st p es :
  (forall x, disk (dev e) x = f x) -> wf_env e -> fresh st -> durable f p -> holds (mk_store true p) es ->
  exists e' st', flash_ts_init e st (base p / block_size) (size p / block_size) = Some (e', st', 0) /\
    (forall x, disk (dev e') x = f x) /\ wf_env e' /\ holds st' es /\ durable f (ts_priv st') /\
    base (ts_priv st') = base p /\ size (ts_priv st') = size p.
Proof.
  intros Hd He Hf Hdu Hh. destruct (Z.eq_dec (version (cache p)) 0) as [Hv|Hv].
  - destruct (init_no_record f e st p Hd He Hf (du_geom _ _ Hdu)) as (t & e' & st' & Hem & Hi & Hl).
    { intros o Ho. rewrite <- Hv. by apply Hdu. }
    destruct Hl as (Hd' & He' & Hen & Hs & Hc & Ho). exists e', st'. do 3 (split; [done|]).
    assert (es = []) as -> by (eapply repr_len_1; [apply Hh|by apply Hdu]).
    rewrite <- Hc in Hem. split; [|split; [|split; apply Hs]].
    + destruct Hem. constructor; try done. apply Hs.
    + eapply empty_durable; try done; [apply Hdu|]. intros o Hi'. rewrite <- Hv. by apply Hdu.
  - destruct (init_record f e st p Hd He Hf Hdu Hv) as (e' & st' & Hi & Hl).
    destruct Hl as (Hd' & He' & Hen & Hs & Hc & Ho). exists e', st'. do 3 (split; [done|]).
    split; [|split; [|split; apply Hs]].
    + destruct Hh. simpl in *. constructor; rewrite ?Hc; try done. apply Hs.
    + by eapply durable_loaded.
Qed.
End Durable.

(** ** Properties *)

(** C1: the store survives a restart.  On a device whose calls succeed, a
    set whose result fits returns 0, and flash_ts_init run on the resulting
    device from any initial memory enables a store that holds the new list,
    ready for further updates (the invariant [durable] holds again). *)
Theorem flash_ts_survives_restart {D : Type} `{ReliableEmmc D} (e : env D) (st boot : store)
    (es : entries) (k v krest vrest buf : bytes) :
  wf_env e -> durable (disk (dev e)) (ts_priv st) -> holds st es -> key_ok k -> value_ok v ->
  version (cache (ts_priv st)) + 1 < 2 ^ 32 -> fits (ts_put es k v) ->
  fresh boot -> page_size <= Z.of_nat (length buf) ->
  exists e1 st1, flash_ts_set e st (k ++ 0 :: krest) (v ++ 0 :: vrest) = Some (e1, st1, 0) /\
    exists e2 st2,
      flash_ts_init (mk_env (dev e1) buf) boot (base (ts_priv st1) / block_size)
        (size (ts_priv st1) / block_size) = Some (e2, st2, 0) /\
      wf_env e2 /\ holds st2 (ts_put es k v) /\ durable (disk (dev e2)) (ts_priv st2).
Proof.
  intros He Hdu Hst Hk Hv Hver Hfit Hboot Hbuf.
  destruct (set_durable e st es k v krest vrest He Hdu Hst Hk Hv Hver Hfit) as (e1 & st1 & Hs & He1 & Hh1 & Hd1).
  exists e1, st1. split; [done|].
  destruct (init_durable (disk (dev e1)) (mk_env (dev e1) buf) boot (ts_priv st1) (ts_put es k v))
    as (e2 & st2 & Hi & Hd2 & He2 & Hh2 & Hdu2 & _); try done.
  { destruct Hh1. by constructor. }
  exists e2, st2. do 3 (split; [done|]). eapply durable_ext; [|exact Hdu2]. intros x. by rewrite Hd2.
Qed.

Lemma priv0_geom : geom priv0.
Proof.
  constructor; [exists 9; split; [lia|reflexivity]|exists 15; split; [lia|reflexivity]|reflexivity..| | |].
  - split; [simpl; lia|reflexivity].
  - split; [simpl; lia|reflexivity].
  - simpl. lia.
Qed.

Lemma blank_hdr (p : priv) o : hdr (fun _ => 255) p o <= 0.
Proof.
  assert (chunk_at (fun _ => 255) p o = replicate chunk_len (erased (D := ramdisk))) as Hc.
  { unfold chunk_at, rng. apply list_eq. intros i. rewrite list_lookup_fmap.
    destruct (decide (i < chunk_len)%nat).
    - rewrite lookup_seq_lt, lookup_replicate_2 by done. reflexivity.
    - rewrite lookup_seq_ge by lia. symmetry. apply lookup_ge_None_2. rewrite length_replicate. lia. }
  by rewrite hdr_erased.
Qed.

Lemma priv0_durable : durable (disk (dev env0)) priv0.
Proof.
  apply (empty_durable _ priv0); [exact priv0_geom| | |reflexivity|].
  - constructor; [exact priv0_geom|exact store0_wf| |reflexivity..].
    constructor; exact data0_bytes.
  - constructor; [reflexivity..|exact rec0_repr|exact rec0_crc].
  - intros o _. apply blank_hdr.
Qed.

Lemma store0_fresh : fresh store0.
Proof. constructor; (split; [exact data0_bytes|exact data0_length]). Qed.

Lemma flash_ts_survives_restart_witness :
  exists e1 st1, flash_ts_set env0 store0 [97; 0] [49; 0] = Some (e1, st1, 0) /\
    exists e2 st2,
      flash_ts_init (mk_env (dev e1) (replicate 512 0)) store0 (base (ts_priv st1) / 32768)
        (size (ts_priv st1) / 32768) = Some (e2, st2, 0) /\ holds st2 [([97], [49])].
Proof.
  destruct (flash_ts_survives_restart env0 store0 store0 [] [97] [49] [] [] (replicate 512 0))
    as (e1 & st1 & H1 & e2 & st2 & H2 & _ & H3 & _);
    [exact env0_wf|exact priv0_durable|exact store0_holds|by apply key_ok_bool|by apply value_ok_bool
    |simpl; lia|vm_compute; discriminate|exact store0_fresh|rewrite length_replicate; simpl; lia|].
  exists e1, st1. split; [exact H1|]. exists e2, st2. split; [exact H2|exact H3].
Defined.

(** First start.  On a partition that holds no valid record, for
    instance an erased one, flash_ts_init enables an empty store that satisfies
    the invariant. *)
Theorem flash_ts_first_start {D : Type} `{ReliableEmmc D} (e : env D) (boot : store) (p : priv) :
  geom p -> wf_env e -> fresh boot ->
  (forall o, is_chunk p o -> hdr (disk (dev e)) p o <= 0) ->
  exists e' st, flash_ts_init e boot (base p / block_size) (size p / block_size) = Some (e', st, 0) /\
    wf_env e' /\ holds st [] /\ durable (disk (dev e')) (ts_priv st).
Proof.
  intros Hg He Hb Hno.
  destruct (init_no_record (disk (dev e)) e boot p) as (t & e' & st & Hem & Hi & Hd & He' & Hen & Hs & Hc & Ho);
    try done.
  exists e', st. do 2 (split; [done|]). rewrite <- Hc in Hem. split.
  - destruct Hem. constructor; try done. apply Hs.
  - eapply durable_ext; [intros x; symmetry; apply Hd|]. by eapply empty_durable.
Qed.

Lemma flash_ts_first_start_witness :
  exists e' st, flash_ts_init env0 store0 0 2 = Some (e', st, 0) /\ holds st [].
Proof.
  destruct (flash_ts_first_start env0 store0 priv0) as (e' & st & H1 & _ & H2 & _);
    [exact priv0_geom|exact env0_wf|exact store0_fresh|intros o _; apply blank_hdr|].
  exists e', st. split; [exact H1|exact H2].
Defined.
