(* ===== verification/SmMsgq.v ===== *)
(** * Messages between the SoC and the System Manager

    The queues of sm_comm.c (System Manager side, boot/bootloader/sm_cm3/syna)
    and of boot/common/driver/sm/sm_comm.c (SoC side): rings of fifteen 32-byte
    messages in shared memory with one sender and one receiver each, and the
    dispatch of a message to the run-time modules of sm_rt_module.c, which
    sm_main.c initialises and starts. *)

From S2P Require Import Prelude.

Definition SM_MSG_SIZE : Z := 32.
Definition SM_MSG_BODY_SIZE : Z := SM_MSG_SIZE - 2 * 2.
Definition SM_MSGQ_TOTAL_SIZE : Z := 512.
Definition SM_MSGQ_HEADER_SIZE : Z := SM_MSG_SIZE.
Definition SM_MSGQ_SIZE : Z := SM_MSGQ_TOTAL_SIZE - SM_MSGQ_HEADER_SIZE.
Definition BOARDCASTMSG : Z := -1.
Definition S_OK : Z := 0.
Definition S_FALSE : Z := 1.

(** The header fields are [int]s; the ring is the array of the struct. *)
Record MV_SM_MsgQ := mk_msgq {
  m_iWrite : Z;
  m_iRead : Z;
  m_iWriteTotal : Z;
  m_iReadTotal : Z;
  m_Queue : bytes;
}.

(** A message as the receiver sees it through a pointer into the ring. *)
Record MV_SM_Message := mk_msg {
  m_iModuleID : Z;
  m_iMsgLen : Z;
  m_pucMsgBody : bytes;
}.

Definition i16 (x : Z) : Z := (x + 2 ^ 15) mod 2 ^ 16 - 2 ^ 15.
Definition le16 (x : Z) : bytes := [u8 x; u8 (Z.shiftr x 8)].
Definition de16 (b : bytes) : Z := i16 (nth 0 b 0 + Z.shiftl (nth 1 b 0) 8).

Definition msg_of_bytes (b : bytes) : MV_SM_Message :=
  mk_msg (de16 b) (de16 (drop 2 b)) (take 28 (drop 4 b)).

(** [&m_Queue[off]] read as a message; [None] when it leaves the ring. *)
Definition msg_at (q : bytes) (off : Z) : option bytes :=
  if (0 <=? off) && (off + SM_MSG_SIZE <=? Z.of_nat (length q))
  then Some (take 32 (drop (Z.to_nat off) q)) else None.

(** Stores of the sender, byte by byte; an index of the array is an [int]. *)
Definition wrz (m : bytes) (i : Z) (v : Z) : option bytes :=
  if 0 <=? i then wr m (Z.to_nat i) v else None.

Definition store16 (m : bytes) (i : Z) (x : Z) : option bytes :=
  m ← wrz m i (u8 x); wrz m (i + 1) (u8 (Z.shiftr x 8)).

(** [for (i = 0; i < len; i++) msg->m_pucMsgBody[i] = pMsgBody[i]] *)
Fixpoint copy_body (n : nat) (m : bytes) (at_ : Z) (body : bytes) : option bytes :=
  match n with
  | O => Some m
  | S n =>
      match body with
      | [] => None
      | c :: body => m ← wrz m at_ c; copy_body n m (at_ + 1) body
      end
  end.

Definition queue_full (q : MV_SM_MsgQ) : bool :=
  (m_iRead q =? m_iWrite q) && negb (m_iReadTotal q =? m_iWriteTotal q).

(** Fill the slot at [m_iWrite] and advance. *)
Definition put_msg (q : MV_SM_MsgQ) (moduleID : Z) (body : bytes) (len : Z) : option MV_SM_MsgQ :=
  let w := m_iWrite q in
  m ← store16 (m_Queue q) w moduleID;
  m ← store16 m (w + 2) len;
  m ← copy_body (Z.to_nat len) m (w + 4) body;
  let w := i32 (w + SM_MSG_SIZE) in
  let w := if SM_MSGQ_SIZE <=? w then w - SM_MSGQ_SIZE else w in
  Some (mk_msgq w (m_iRead q) (i32 (m_iWriteTotal q + SM_MSG_SIZE)) (m_iReadTotal q) m).

(** ** The sender on the SoC: MV_SM_Send_Msg *)

Definition MV_SM_Send_Msg (q : MV_SM_MsgQ) (iModuleID : Z) (pMsgBody : bytes) (iLen : Z)
  : option (MV_SM_MsgQ * Z) :=
  let iLen := if 28 <? iLen then 28 else iLen in
  if queue_full q then Some (q, -1)
  else q ← put_msg q iModuleID pMsgBody iLen; Some (q, S_OK).

(** ** The sender on the System Manager: sm_send_msg

    The two output queues, and the bit of SM_CTRL that interrupts the SoC. *)
Record outq := mk_outq {
  msgq_output0 : MV_SM_MsgQ;
  msgq_output1 : MV_SM_MsgQ;
  SM2SOC_SW_INTR : bool;
}.

Definition get_msgq_output (o : outq) (index : Z) : MV_SM_MsgQ :=
  if index =? 0 then msgq_output0 o else msgq_output1 o.

(** [len > SM_MSG_BODY_SIZE] compares an [int] with a [size_t]. *)
Definition body_too_long (len : Z) : bool := SM_MSG_BODY_SIZE <? u32 len.

Definition sm_send_msg (o : outq) (moduleID : Z) (pMsgBody : bytes) (len : Z) : option (outq * Z) :=
  let q := get_msgq_output o 0 in
  if body_too_long len then Some (o, S_FALSE)
  else if queue_full q then Some (o, S_FALSE)
  else q ← put_msg q moduleID pMsgBody len; Some (mk_outq q (msgq_output1 o) true, S_OK).

(** ** The modules of the System Manager

    A handler belongs to another component: it is a function on the state [S]
    of the rest of the firmware. *)

Section Modules.
Context {S : Type}.

Definition module_msg_proc : Type := S -> bytes -> Z -> S * Z.

Record rt_module_desc_t := mk_module {
  module_id : Z;
  c_task : option (S -> S);
  msg_handle : option module_msg_proc;
  in_msg_handle : option module_msg_proc;
}.

Record rt_init_desc_t := mk_init {
  init_p : Z;
  init_func : option (S -> S * Z);
}.

(** The tables the linker collects. *)
Variable rt_module_descs : list rt_module_desc_t.
Variable rt_init_descs : list rt_init_desc_t.

Definition get_rt_module_desc (index : nat) : option rt_module_desc_t :=
  if (length rt_module_descs =? 0)%nat then None
  else if (length rt_module_descs <=? index)%nat then None
  else rt_module_descs !! index.

Definition get_rt_init_desc (index : nat) : option rt_init_desc_t :=
  if (length rt_init_descs =? 0)%nat then None
  else if (length rt_init_descs <=? index)%nat then None
  else rt_init_descs !! index.

(** The loop over the modules that both dispatchers share: [h] selects the
    handler.  The fuel covers the table: [get_rt_module_desc] ends the loop. *)
Fixpoint dispatch_loop (fuel : nat) (h : rt_module_desc_t -> option module_msg_proc)
    (i : nat) (s : S) (msg : MV_SM_Message) : S :=
  match fuel with
  | O => s
  | Datatypes.S fuel =>
      match get_rt_module_desc i with
      | None => s
      | Some module =>
          match h module with
          | None => dispatch_loop fuel h (i + 1) s msg
          | Some handle =>
              if (m_iModuleID msg =? BOARDCASTMSG) || (m_iModuleID msg =? module_id module) then
                let s := (handle s (m_pucMsgBody msg) (m_iMsgLen msg)).1 in
                if m_iModuleID msg =? module_id module then s
                else dispatch_loop fuel h (i + 1) s msg
              else dispatch_loop fuel h (i + 1) s msg
          end
      end
  end.

Definition try_to_dispatch_msg (s : S) (msg : MV_SM_Message) : S :=
  dispatch_loop (Datatypes.S (length rt_module_descs)) msg_handle 0 s msg.

(** The two input queues and the rest of the firmware.  The handlers may send:
    the output queues ([outq] below) belong to [S]. *)
Record comm := mk_comm {
  msgq_input0 : MV_SM_MsgQ;
  msgq_input1 : MV_SM_MsgQ;
  rest : S;
}.

Definition get_msgq_input (c : comm) (index : Z) : MV_SM_MsgQ :=
  if index =? 0 then msgq_input0 c else msgq_input1 c.

Definition set_input (c : comm) (index : Z) (q : MV_SM_MsgQ) : comm :=
  if index =? 0 then mk_comm q (msgq_input1 c) (rest c) else mk_comm (msgq_input0 c) q (rest c).

Definition set_rest (c : comm) (s : S) : comm := mk_comm (msgq_input0 c) (msgq_input1 c) s.

(** The receiver takes one message of a queue: the body of the loop of
    [comm_task]. *)
Definition take_msg (q : MV_SM_MsgQ) : MV_SM_MsgQ :=
  let r := i32 (m_iRead q + SM_MSG_SIZE) in
  let r := if SM_MSGQ_SIZE <=? r then r - SM_MSGQ_SIZE else r in
  mk_msgq (m_iWrite q) r (m_iWriteTotal q) (i32 (m_iReadTotal q + SM_MSG_SIZE)) (m_Queue q).

Definition comm_poll (c : comm) (i : Z) : option comm :=
  let q := get_msgq_input c i in
  if m_iReadTotal q <? m_iWriteTotal q then
    b ← msg_at (m_Queue q) (m_iRead q);
    let s := try_to_dispatch_msg (rest c) (msg_of_bytes b) in
    Some (set_rest (set_input c i (take_msg q)) s)
  else Some c.

(** One round of the endless loop of [comm_task], up to its delay. *)
Definition comm_task_round (c : comm) : option comm := c ← comm_poll c 0; comm_poll c 1.

Definition empty_msgq : MV_SM_MsgQ := mk_msgq 0 0 0 0 (replicate (Z.to_nat SM_MSGQ_SIZE) 0).

(** All four queues are cleared; the task itself is created by the kernel. *)
Definition create_comm_task (o : outq) (c : comm) : outq * comm :=
  (mk_outq empty_msgq empty_msgq (SM2SOC_SW_INTR o), mk_comm empty_msgq empty_msgq (rest c)).

(** The local message has [SM_MSG_BODY_SIZE] bytes of which the first [len]
    are set; [junk] are the others. *)
Definition sm_send_internal_msg (s : S) (moduleID : Z) (pMsgBody : bytes) (len : Z) (junk : bytes)
  : option (S * Z) :=
  if body_too_long len then Some (s, S_FALSE)
  else if decide (Z.to_nat len <= length pMsgBody)%nat then
    let msg := mk_msg (i16 moduleID) (i16 len)
                 (take (Z.to_nat len) pMsgBody ++ drop (Z.to_nat len) junk) in
    Some (dispatch_loop (Datatypes.S (length rt_module_descs)) in_msg_handle 0 s msg, S_OK)
  else None.

(** ** sm_main.c: initialisation and task creation *)

Fixpoint dev_init_loop (fuel : nat) (prio : Z) (index : nat) (s : S) : S :=
  match fuel with
  | O => s
  | Datatypes.S fuel =>
      match get_rt_init_desc index with
      | None => s
      | Some d =>
          let s := match init_func d with
                   | Some f => if init_p d =? prio then (f s).1 else s
                   | None => s
                   end in
          dev_init_loop fuel prio (index + 1) s
      end
  end.

Definition INIT_DEV_P_0 : Z := 1.
Definition INIT_MAX_99 : Z := 5.

(** [for (prio = INIT_DEV_P_0; prio <= INIT_MAX_99; prio++)] *)
Definition dev_init (s : S) : S :=
  fold_left (fun s prio => dev_init_loop (Datatypes.S (length rt_init_descs)) prio 0 s)
    (seqZ INIT_DEV_P_0 (INIT_MAX_99 - INIT_DEV_P_0 + 1)) s.

Fixpoint create_tasks_loop (fuel : nat) (index : nat) (s : S) : S :=
  match fuel with
  | O => s
  | Datatypes.S fuel =>
      match get_rt_module_desc index with
      | None => s
      | Some m =>
          let s := match c_task m with Some f => f s | None => s end in
          create_tasks_loop fuel (index + 1) s
      end
  end.

Definition create_tasks (s : S) : S := create_tasks_loop (Datatypes.S (length rt_module_descs)) 0 s.

End Modules.

Arguments rt_module_desc_t : clear implicits.
Arguments rt_init_desc_t : clear implicits.
Arguments comm : clear implicits.
Arguments module_msg_proc : clear implicits.

(** ** The ring as a FIFO of messages *)

(** The 32 bytes a sender stores over the old contents [old] of a slot. *)
Definition encode (moduleID len : Z) (body old : bytes) : bytes :=
  le16 moduleID ++ le16 len ++ take (Z.to_nat len) body ++ drop (4 + Z.to_nat len) old.

Definition slot (m : bytes) (off : Z) : bytes := take 32 (drop (Z.to_nat off) m).

(** [q] holds the messages [ms], the oldest first. *)
Record qrep (q : MV_SM_MsgQ) (ms : list bytes) : Prop := {
  qr_size : length (m_Queue q) = Z.to_nat SM_MSGQ_SIZE;
  qr_total : m_iWriteTotal q = m_iReadTotal q + 32 * Z.of_nat (length ms);
  qr_align : 0 <= m_iReadTotal q /\ m_iReadTotal q mod 32 = 0;
  qr_limit : m_iWriteTotal q + 32 < 2 ^ 31;
  qr_read : m_iRead q = m_iReadTotal q mod 480;
  qr_write : m_iWrite q = m_iWriteTotal q mod 480;
  qr_count : (length ms <= 15)%nat;
  qr_msgs i b : ms !! i = Some b -> slot (m_Queue q) ((m_iReadTotal q + 32 * Z.of_nat i) mod 480) = b;
}.

Lemma ring_align t : 0 <= t -> t mod 32 = 0 -> (t mod 480) mod 32 = 0 /\ 0 <= t mod 480 <= 448.
Proof.
  intros Ht Hm. pose proof (Z.mod_pos_bound t 480 ltac:(lia)) as Hb.
  assert (Hm' : (t mod 480) mod 32 = 0).
  { change 480 with (32 * 15). rewrite Z.rem_mul_r by lia. rewrite Hm, Z.add_0_l, Z.mul_comm.
    apply Z.mod_mul. lia. }
  split; [done|]. Z.div_mod_to_equations. lia.
Qed.

(** Advancing an index by one message wraps at the end of the ring. *)
Lemma ring_next t : 0 <= t -> t mod 32 = 0 -> t + 32 < 2 ^ 31 ->
  (if 480 <=? i32 (t mod 480 + 32) then i32 (t mod 480 + 32) - 480 else i32 (t mod 480 + 32)) =
  (t + 32) mod 480.
Proof.
  intros Ht Hm Hlt. destruct (ring_align t Ht Hm) as [_ Hb].
  rewrite i32_id by (unfold is_i32; lia). destruct (Z.leb_spec 480 (t mod 480 + 32)).
  - Z.div_mod_to_equations. lia.
  - Z.div_mod_to_equations. lia.
Qed.

(** ** What a sender writes *)

Lemma store16_spec m i x : 0 <= i -> i + 2 <= Z.of_nat (length m) ->
  store16 m i x = Some (splice m (Z.to_nat i) (le16 x)).
Proof.
  intros Hi Hl. unfold store16, wrz. rewrite !(proj2 (Z.leb_le _ _)) by lia.
  rewrite wr_Some by lia. cbn [mbind option_bind]. rewrite wr_Some by len. f_equal.
  replace (Z.to_nat (i + 1)) with (S (Z.to_nat i)) by lia.
  rewrite (insert_splice (<[_:=_]> m)) by len. apply splice_cons. simpl. lia.
Qed.

Lemma copy_body_spec n m i body : 0 <= i -> (n <= length body)%nat ->
  i + Z.of_nat n <= Z.of_nat (length m) -> copy_body n m i body = Some (splice m (Z.to_nat i) (take n body)).
Proof.
  revert m i body; induction n as [|n IH]; intros m i body Hi Hb Hl; simpl.
  { by rewrite splice_nil. }
  destruct body as [|c body]; simpl in *; [lia|]. unfold wrz. rewrite (proj2 (Z.leb_le _ _)) by lia.
  rewrite wr_Some by lia. cbn [mbind option_bind]. rewrite IH by len.
  replace (Z.to_nat (i + 1)) with (S (Z.to_nat i)) by lia. rewrite splice_cons; [done|]. len.
Qed.

Definition body_ok (body : bytes) (len : Z) : Prop := len <= 28 /\ len <= Z.of_nat (length body).

Lemma put_msg_spec q moduleID body len :
  0 <= m_iWrite q -> m_iWrite q + 32 <= Z.of_nat (length (m_Queue q)) -> body_ok body len ->
  put_msg q moduleID body len =
  Some (mk_msgq
    (if 480 <=? i32 (m_iWrite q + 32) then i32 (m_iWrite q + 32) - 480 else i32 (m_iWrite q + 32))
    (m_iRead q) (i32 (m_iWriteTotal q + 32)) (m_iReadTotal q)
    (splice (m_Queue q) (Z.to_nat (m_iWrite q)) (le16 moduleID ++ le16 len ++ take (Z.to_nat len) body))).
Proof.
  intros Hw Hl [Hb1 Hb2]. unfold put_msg. rewrite store16_spec by lia. cbn [mbind option_bind].
  assert (H1 : length (splice (m_Queue q) (Z.to_nat (m_iWrite q)) (le16 moduleID)) = length (m_Queue q))
    by (apply length_splice; simpl; lia).
  rewrite store16_spec by (rewrite ?H1; lia). cbn [mbind option_bind].
  replace (Z.to_nat (m_iWrite q + 2)) with (Z.to_nat (m_iWrite q) + length (le16 moduleID))%nat
    by (simpl; lia).
  rewrite splice_splice by (simpl; lia). set (hd := le16 moduleID ++ le16 len).
  assert (H2 : length (splice (m_Queue q) (Z.to_nat (m_iWrite q)) hd) = length (m_Queue q))
    by (apply length_splice; simpl; lia).
  rewrite copy_body_spec by (rewrite ?H2; lia). cbn [mbind option_bind].
  replace (Z.to_nat (m_iWrite q + 4)) with (Z.to_nat (m_iWrite q) + length hd)%nat by (simpl; lia).
  rewrite splice_splice by (simpl; len). unfold hd. by rewrite <- app_assoc.
Qed.

(** The slot a store covers, and the others. *)
Lemma slot_splice m off l : (length l <= 32)%nat -> 0 <= off -> off + 32 <= Z.of_nat (length m) ->
  slot (splice m (Z.to_nat off) l) off = l ++ drop (length l) (slot m off).
Proof.
  intros Hl Ho Hm. unfold slot, splice.
  rewrite drop_app_ge by len. rewrite length_take, Nat.min_l by lia. rewrite Nat.sub_diag, drop_0.
  rewrite take_app_ge by lia. f_equal. rewrite skipn_firstn_comm, drop_drop. done.
Qed.

Lemma slot_splice_other m off off' l :
  (length l <= 32)%nat -> 0 <= off -> 0 <= off' -> off + 32 <= Z.of_nat (length m) ->
  off' + 32 <= off \/ off + 32 <= off' ->
  slot (splice m (Z.to_nat off) l) off' = slot m off'.
Proof.
  intros Hl Ho Ho' Hm Hd. apply list_eq. intros i. unfold slot.
  destruct (decide (i < 32)%nat); [|rewrite !lookup_take_ge by lia; done].
  rewrite !lookup_take_lt, !lookup_drop by lia. apply splice_lookup_old; lia.
Qed.

Lemma slot_length m off : 0 <= off -> off + 32 <= Z.of_nat (length m) -> length (slot m off) = 32%nat.
Proof. intros. unfold slot. len. Qed.

(** Slots of different messages are apart. *)
Lemma slots_apart t i j :
  0 <= t -> t mod 32 = 0 -> 0 <= i < 15 -> 0 <= j < 15 -> i <> j ->
  let a := (t + 32 * i) mod 480 in let b := (t + 32 * j) mod 480 in a + 32 <= b \/ b + 32 <= a.
Proof.
  intros Ht Hm Hi Hj Hne a b.
  destruct (ring_align (t + 32 * i)) as [Ha Ha']; [lia|rewrite (Z.mul_comm 32), Z.mod_add; lia|].
  destruct (ring_align (t + 32 * j)) as [Hb Hb']; [lia|rewrite (Z.mul_comm 32), Z.mod_add; lia|].
  fold a in Ha, Ha'. fold b in Hb, Hb'.
  assert (a <> b); [|Z.div_mod_to_equations; lia].
  unfold a, b. intros Heq.
  pose proof (Z.div_mod (t + 32 * i) 480 ltac:(lia)). pose proof (Z.div_mod (t + 32 * j) 480 ltac:(lia)).
  assert (i - j = 15 * ((t + 32 * i) / 480 - (t + 32 * j) / 480)) by lia. lia.
Qed.

(** ** Sequential behaviour *)

Lemma de16_le16 x rest : de16 (le16 x ++ rest) = i16 x.
Proof.
  unfold de16, le16, u8, i16. simpl nth. rewrite Z.shiftr_div_pow2, Z.shiftl_mul_pow2 by lia.
  change (2 ^ 8) with 256. change (2 ^ 16) with 65536. change (2 ^ 15) with 32768.
  replace (x mod 256 + (x / 256) mod 256 * 256) with (x mod 65536).
  - by rewrite Zplus_mod_idemp_l.
  - change 65536 with (256 * 256). rewrite Z.rem_mul_r by lia. lia.
Qed.

Lemma full_iff q ms : qrep q ms -> queue_full q = (length ms =? 15)%nat.
Proof.
  intros [_ Ht [H0 Ha] _ Hr Hw Hc _]. unfold queue_full. rewrite Hr, Hw, Ht. set (n := length ms) in *.
  set (t := m_iReadTotal q) in *.
  destruct (Nat.eqb_spec n 15) as [->|Hn].
  - replace (t + 32 * Z.of_nat 15) with (t + 1 * 480) by lia. rewrite Z.mod_add by lia.
    rewrite Z.eqb_refl, (proj2 (Z.eqb_neq _ _)) by lia. done.
  - destruct (decide (n = 0%nat)) as [->|Hn0].
    + replace (t + 32 * Z.of_nat 0) with t by lia. by rewrite !Z.eqb_refl.
    + destruct (Z.eqb_spec (t mod 480) ((t + 32 * Z.of_nat n) mod 480)) as [E|E]; [|done]. exfalso.
      pose proof (Z.div_mod t 480 ltac:(lia)). pose proof (Z.div_mod (t + 32 * Z.of_nat n) 480 ltac:(lia)).
      assert (Z.of_nat n = 15 * ((t + 32 * Z.of_nat n) / 480 - t / 480)) by lia. lia.
Qed.

Lemma qrep_bounds q ms : qrep q ms ->
  0 <= m_iRead q <= 448 /\ 0 <= m_iWrite q <= 448 /\ length (m_Queue q) = 480%nat /\
  m_iWriteTotal q mod 32 = 0.
Proof.
  intros [Hs Ht [H0 Ha] _ Hr Hw _ _].
  assert (m_iWriteTotal q mod 32 = 0) by (rewrite Ht, (Z.mul_comm 32), Z.mod_add; lia).
  rewrite Hr, Hw. destruct (ring_align (m_iReadTotal q) H0 Ha) as [_ ?].
  destruct (ring_align (m_iWriteTotal q)) as [_ ?]; [lia|done|]. done.
Qed.

(** The decoded form of what was sent. *)
Record carries (b : bytes) (moduleID len : Z) (body : bytes) : Prop := {
  ca_id : m_iModuleID (msg_of_bytes b) = i16 moduleID;
  ca_len : m_iMsgLen (msg_of_bytes b) = i16 len;
  ca_body : take (Z.to_nat len) (m_pucMsgBody (msg_of_bytes b)) = take (Z.to_nat len) body;
  ca_size : length b = 32%nat;
}.

Lemma carries_intro moduleID len body old :
  body_ok body len -> length old = 32%nat ->
  carries ((le16 moduleID ++ le16 len ++ take (Z.to_nat len) body) ++
           drop (length (le16 moduleID ++ le16 len ++ take (Z.to_nat len) body)) old) moduleID len body.
Proof.
  intros [H1 H2] Ho.
  assert (Hl : length (le16 moduleID ++ le16 len ++ take (Z.to_nat len) body) = (4 + Z.to_nat len)%nat)
    by (unfold le16; len).
  rewrite Hl. constructor; unfold msg_of_bytes; cbn [m_iModuleID m_iMsgLen m_pucMsgBody].
  - rewrite <- !app_assoc. apply de16_le16.
  - rewrite <- !app_assoc. change (drop 2 (le16 moduleID ++ ?x)) with x. apply de16_le16.
  - rewrite <- !app_assoc. change (drop 4 (le16 moduleID ++ le16 len ++ ?x)) with x.
    rewrite take_take, Nat.min_l by lia. rewrite take_app_le by len. by rewrite take_take, Nat.min_id.
  - rewrite length_app, Hl, length_drop. lia.
Qed.

(** A send into a queue with room appends one message. *)
Lemma send_append q ms moduleID body len :
  qrep q ms -> (length ms < 15)%nat -> body_ok body len -> m_iWriteTotal q + 64 < 2 ^ 31 ->
  exists q' b, put_msg q moduleID body len = Some q' /\ qrep q' (ms ++ [b]) /\ carries b moduleID len body /\
    m_iWriteTotal q' = m_iWriteTotal q + 32.
Proof.
  intros Hq Hn Hb Hlim. destruct (qrep_bounds q ms Hq) as (Hr & Hw & Hl & Hwa).
  rewrite put_msg_spec by (done || lia).
  set (l := le16 moduleID ++ le16 len ++ take (Z.to_nat len) body).
  assert (Hll : (length l <= 32)%nat) by (destruct Hb; unfold l; simpl; len).
  exists (mk_msgq ((m_iWriteTotal q + 32) mod 480) (m_iRead q) (m_iWriteTotal q + 32) (m_iReadTotal q)
            (splice (m_Queue q) (Z.to_nat (m_iWrite q)) l)),
         (l ++ drop (length l) (slot (m_Queue q) (m_iWrite q))).
  destruct Hq as [Hs Ht [H0 Ha] Hlim' Hrd Hwr Hc Hms].
  split; [|split; [|split; [|done]]].
  - rewrite (i32_id (m_iWriteTotal q + 32)) by (unfold is_i32; lia). rewrite Hwr, ring_next by lia. done.
  - constructor; cbn [m_iWrite m_iRead m_iWriteTotal m_iReadTotal m_Queue]; try done.
    + rewrite length_splice by lia. done.
    + len.
    + lia.
    + len.
    + intros i b Hi. apply lookup_app_Some in Hi as [Hi|[Hi Hb']].
      * rewrite slot_splice_other; try lia; [by apply Hms| |].
        { apply Z.mod_pos_bound. lia. }
        { apply lookup_lt_Some in Hi. rewrite Hwr, Ht. apply slots_apart; lia. }
      * apply list_lookup_singleton_Some in Hb' as [Hi0 <-].
        replace (m_iReadTotal q + 32 * Z.of_nat i) with (m_iWriteTotal q) by lia. rewrite <- Hwr.
        apply slot_splice; lia.
  - apply carries_intro; [done|]. apply slot_length; lia.
Qed.

(** A receive takes the oldest message. *)
Lemma receive_head q b ms :
  qrep q (b :: ms) ->
  m_iReadTotal q < m_iWriteTotal q /\ msg_at (m_Queue q) (m_iRead q) = Some b /\ qrep (take_msg q) ms.
Proof.
  intros Hq. destruct (qrep_bounds _ _ Hq) as (Hr & Hw & Hl & Hwa).
  destruct Hq as [Hs Ht [H0 Ha] Hlim Hrd Hwr Hc Hms]. simpl length in *.
  split; [lia|]. split.
  - unfold msg_at. change SM_MSG_SIZE with 32. rewrite !(proj2 (Z.leb_le _ _)) by lia. simpl. f_equal.
    rewrite Hrd. rewrite <- (Hms 0%nat b eq_refl). unfold slot. do 3 f_equal. f_equal. lia.
  - constructor; cbn [take_msg m_iWrite m_iRead m_iWriteTotal m_iReadTotal m_Queue];
      change SM_MSG_SIZE with 32; rewrite ?(i32_id (m_iReadTotal q + 32)) by (unfold is_i32; lia); try done.
    + lia.
    + split; [lia|]. by rewrite Zplus_mod, Ha.
    + rewrite Hrd. change SM_MSGQ_SIZE with 480. apply ring_next; lia.
    + lia.
    + intros i b' Hi. rewrite <- (Hms (S i) b' Hi). do 2 f_equal. lia.
Qed.

Lemma receive_none q : qrep q [] -> (m_iReadTotal q <? m_iWriteTotal q) = false.
Proof. intros [_ Ht _ _ _ _ _ _]. simpl in Ht. apply Z.ltb_ge. lia. Qed.

Lemma qrep_empty : qrep empty_msgq [].
Proof.
  constructor; [reflexivity|reflexivity|by split|done|reflexivity|reflexivity|simpl; lia|done].
Qed.

Lemma read_queue q ms : qrep q ms ->
  (m_iReadTotal q <? m_iWriteTotal q) = match ms with [] => false | _ => true end /\
  forall b, head ms = Some b -> msg_at (m_Queue q) (m_iRead q) = Some b /\ qrep (take_msg q) (tail ms).
Proof.
  intros Hq. destruct ms as [|b ms]; split.
  - by apply receive_none.
  - done.
  - apply Z.ltb_lt. by apply (receive_head q b ms).
  - intros ? [= <-]. by apply (receive_head q b ms).
Qed.

(** ** Dispatch *)

Section Dispatch.
Context {S : Type}.
Variable descs : list (rt_module_desc_t S).
Implicit Types (h : rt_module_desc_t S -> option (module_msg_proc S)).

Fixpoint dispatch_list h (ms : list (rt_module_desc_t S)) (s : S) (msg : MV_SM_Message) : S :=
  match ms with
  | [] => s
  | m :: ms =>
      match h m with
      | None => dispatch_list h ms s msg
      | Some handle =>
          if (m_iModuleID msg =? BOARDCASTMSG) || (m_iModuleID msg =? module_id m) then
            let s := (handle s (m_pucMsgBody msg) (m_iMsgLen msg)).1 in
            if m_iModuleID msg =? module_id m then s else dispatch_list h ms s msg
          else dispatch_list h ms s msg
      end
  end.

Lemma get_desc i : get_rt_module_desc descs i = descs !! i.
Proof.
  unfold get_rt_module_desc. destruct (Nat.eqb_spec (length descs) 0) as [E|E].
  - by apply nil_length_inv in E as ->.
  - destruct (Nat.leb_spec (length descs) i); [|done]. symmetry. by apply lookup_ge_None_2.
Qed.

Lemma dispatch_loop_list h fuel i s msg :
  (length descs < i + fuel)%nat ->
  dispatch_loop descs fuel h i s msg = dispatch_list h (drop i descs) s msg.
Proof.
  revert i s; induction fuel as [|fuel IH]; intros i s Hf.
  { rewrite drop_ge by lia. done. }
  cbn [dispatch_loop]. rewrite get_desc. destruct (descs !! i) as [m|] eqn:E.
  - rewrite (drop_S _ _ _ E). cbn [dispatch_list]. replace (Datatypes.S i) with (i + 1)%nat by lia.
    destruct (h m); [|apply IH; lia]. destruct (_ || _); [|apply IH; lia].
    destruct (m_iModuleID msg =? module_id m); [done|apply IH; lia].
  - rewrite drop_ge; [done|]. by apply lookup_ge_None_1.
Qed.

(** The module a message with a number of its own is for. *)
Definition target h (id : Z) : option (module_msg_proc S) :=
  head (omap (fun m => if module_id m =? id then h m else None) descs).

Lemma dispatch_list_unicast h ms s msg :
  m_iModuleID msg <> BOARDCASTMSG ->
  dispatch_list h ms s msg =
  match head (omap (fun m => if module_id m =? m_iModuleID msg then h m else None) ms) with
  | Some handle => (handle s (m_pucMsgBody msg) (m_iMsgLen msg)).1
  | None => s
  end.
Proof.
  intros Hb. induction ms as [|m ms IH]; [done|]. simpl.
  rewrite (proj2 (Z.eqb_neq _ _) Hb). simpl. rewrite (Z.eqb_sym (m_iModuleID msg)).
  destruct (module_id m =? m_iModuleID msg); destruct (h m); done.
Qed.

Lemma dispatch_list_broadcast h ms s msg :
  m_iModuleID msg = BOARDCASTMSG -> Forall (fun m => module_id m <> BOARDCASTMSG) ms ->
  dispatch_list h ms s msg =
  fold_left (fun s (handle : module_msg_proc S) => (handle s (m_pucMsgBody msg) (m_iMsgLen msg)).1)
    (omap h ms) s.
Proof.
  intros Hb Hm. revert s; induction Hm as [|m ms Hne Hm IH]; intros s; [done|]. simpl.
  destruct (h m) as [f|]; [|apply IH].
  rewrite (proj2 (Z.eqb_neq (m_iModuleID msg) (module_id m))) by congruence.
  rewrite Hb, Z.eqb_refl. apply IH.
Qed.

(** One poll of an input queue. *)
Definition dispatch_head (s : S) (ms : list bytes) : S :=
  match ms with [] => s | b :: _ => try_to_dispatch_msg descs s (msg_of_bytes b) end.

Lemma comm_poll_ok c i ms :
  qrep (get_msgq_input c i) ms ->
  exists q', qrep q' (tail ms) /\
    comm_poll descs c i = Some (set_rest (set_input c i q') (dispatch_head (rest c) ms)).
Proof.
  intros Hq. unfold comm_poll. destruct (read_queue _ _ Hq) as [-> Hh]. destruct ms as [|b ms].
  - exists (get_msgq_input c i). split; [done|]. unfold set_input, get_msgq_input. by destruct c, (i =? 0).
  - destruct (Hh b eq_refl) as [-> Hq']. cbn [mbind option_bind]. by exists (take_msg (get_msgq_input c i)).
Qed.

Lemma comm_round_ok c ms0 ms1 :
  qrep (msgq_input0 c) ms0 -> qrep (msgq_input1 c) ms1 ->
  exists c', comm_task_round descs c = Some c' /\
    qrep (msgq_input0 c') (tail ms0) /\ qrep (msgq_input1 c') (tail ms1) /\
    rest c' = dispatch_head (dispatch_head (rest c) ms0) ms1.
Proof.
  intros H0 H1. unfold comm_task_round.
  destruct (comm_poll_ok c 0 ms0 H0) as (q0 & Hq0 & ->). cbn [mbind option_bind].
  destruct (comm_poll_ok (set_rest (set_input c 0 q0) (dispatch_head (rest c) ms0)) 1 ms1 H1)
    as (q1 & Hq1 & ->). eexists. split; [done|]. done.
Qed.

Fixpoint comm_rounds (n : nat) (c : comm S) : option (comm S) :=
  match n with
  | O => Some c
  | Datatypes.S n => c ← comm_task_round descs c; comm_rounds n c
  end.

Lemma comm_rounds_ok n c ms0 ms1 :
  qrep (msgq_input0 c) ms0 -> qrep (msgq_input1 c) ms1 ->
  exists c', comm_rounds n c = Some c' /\
    qrep (msgq_input0 c') (drop n ms0) /\ qrep (msgq_input1 c') (drop n ms1) /\
    (ms0 = [] -> rest c' =
       fold_left (fun s b => try_to_dispatch_msg descs s (msg_of_bytes b)) (take n ms1) (rest c)).
Proof.
  revert c ms0 ms1; induction n as [|n IH]; intros c ms0 ms1 H0 H1.
  { exists c. rewrite !drop_0. done. }
  destruct (comm_round_ok c ms0 ms1 H0 H1) as (c1 & Hr & H0' & H1' & Hs). simpl. rewrite Hr.
  cbn [mbind option_bind]. destruct (IH c1 _ _ H0' H1') as (c2 & -> & Ha & Hb & Hc). exists c2.
  split; [done|]. split; [destruct ms0; [by rewrite !drop_nil in *|done]|].
  split; [destruct ms1; [by rewrite !drop_nil in *|done]|].
  intros ->. rewrite Hc by done. rewrite Hs. destruct ms1; simpl; [by rewrite !take_nil|done].
Qed.

End Dispatch.

(** ** sm_main.c *)

Section Start.
Context {S : Type}.
Variable inits : list (rt_init_desc_t S).

(** The functions of one priority, in table order. *)
Definition inits_of (prio : Z) : list (S -> S * Z) :=
  omap (fun d => if init_p d =? prio then init_func d else None) inits.

Definition run_inits (fs : list (S -> S * Z)) (s : S) : S := fold_left (fun s f => (f s).1) fs s.

Lemma get_init i : get_rt_init_desc inits i = inits !! i.
Proof.
  unfold get_rt_init_desc. destruct (Nat.eqb_spec (length inits) 0) as [E|E].
  - by apply nil_length_inv in E as ->.
  - destruct (Nat.leb_spec (length inits) i); [|done]. symmetry. by apply lookup_ge_None_2.
Qed.

Lemma dev_init_loop_ok fuel prio i s :
  (length inits < i + fuel)%nat ->
  dev_init_loop inits fuel prio i s =
  run_inits (omap (fun d => if init_p d =? prio then init_func d else None) (drop i inits)) s.
Proof.
  revert i s; induction fuel as [|fuel IH]; intros i s Hf.
  { rewrite drop_ge by lia. done. }
  cbn [dev_init_loop]. rewrite get_init. destruct (inits !! i) as [d|] eqn:E.
  - rewrite (drop_S _ _ _ E). replace (Datatypes.S i) with (i + 1)%nat by lia. rewrite IH by lia. simpl.
    by destruct (init_func d), (init_p d =? prio).
  - rewrite drop_ge; [done|]. by apply lookup_ge_None_1.
Qed.

Lemma run_inits_app f1 f2 s : run_inits (f1 ++ f2) s = run_inits f2 (run_inits f1 s).
Proof. apply fold_left_app. Qed.
End Start.

(** ** Properties *)

(** The SoC's MV_SM_Send_Msg on a queue that holds [ms] (at most fifteen
    messages): a full queue is refused and left alone; otherwise exactly one
    message is appended, with the module number, the length clamped to 28 and the
    body, inside the ring, and the older messages are untouched. *)
Theorem MV_SM_Send_Msg_fifo (q : MV_SM_MsgQ) (ms : list bytes) (id len : Z) (body : bytes) :
  qrep q ms -> m_iWriteTotal q + 64 < 2 ^ 31 -> Z.min len 28 <= Z.of_nat (length body) ->
  (length ms = 15%nat -> MV_SM_Send_Msg q id body len = Some (q, -1)) /\
  (length ms <> 15%nat -> exists q' b, MV_SM_Send_Msg q id body len = Some (q', S_OK) /\
     qrep q' (ms ++ [b]) /\ carries b id (Z.min len 28) body).
Proof.
  intros Hq Hlim Hb. unfold MV_SM_Send_Msg. rewrite (full_iff q ms Hq).
  replace (if 28 <? len then 28 else len) with (Z.min len 28) by (destruct (Z.ltb_spec 28 len); lia).
  split; intros Hn.
  - by rewrite Hn.
  - rewrite (proj2 (Nat.eqb_neq _ _) Hn).
    destruct (send_append q ms id body (Z.min len 28) Hq) as (q' & b & -> & Hq' & Hc & _).
    + pose proof (qr_count _ _ Hq). lia.
    + split; lia.
    + done.
    + by exists q', b.
Qed.

Lemma MV_SM_Send_Msg_fifo_witness :
  exists q' b, MV_SM_Send_Msg empty_msgq 3 [65; 66] 2 = Some (q', S_OK) /\ qrep q' [b] /\
               carries b 3 2 [65; 66].
Proof.
  refine (proj2 (MV_SM_Send_Msg_fifo empty_msgq [] 3 2 [65; 66] qrep_empty _ _) _);
    [simpl; lia|simpl; lia|done].
Defined.

(** The System Manager's sm_send_msg refuses a length above 28 and, since
    the comparison is unsigned, a negative one, and a full queue, all without a
    change; otherwise it appends the message and raises the interrupt. *)
Theorem sm_send_msg_spec (o : outq) (ms : list bytes) (id len : Z) (body : bytes) :
  qrep (msgq_output0 o) ms -> m_iWriteTotal (msgq_output0 o) + 64 < 2 ^ 31 -> is_i32 len ->
  (len < 0 \/ 28 < len \/ length ms = 15%nat -> sm_send_msg o id body len = Some (o, S_FALSE)) /\
  (0 <= len <= 28 -> len <= Z.of_nat (length body) -> length ms <> 15%nat ->
   exists q' b, sm_send_msg o id body len = Some (mk_outq q' (msgq_output1 o) true, S_OK) /\
     qrep q' (ms ++ [b]) /\ carries b id len body).
Proof.
  intros Hq Hlim Hlen. unfold sm_send_msg, get_msgq_output, body_too_long, is_i32 in *.
  change SM_MSG_BODY_SIZE with 28. simpl (0 =? 0). cbv iota. rewrite (full_iff _ _ Hq). split.
  - intros Hc. destruct (Z.ltb_spec 28 (u32 len)) as [|Hle]; [done|].
    destruct Hc as [Hc|[Hc|Hc]]; [| |by rewrite Hc]; exfalso; unfold u32 in Hle.
    + replace (len mod 2 ^ 32) with (len + 2 ^ 32) in Hle; [lia|].
      apply Z.mod_unique with (-1); lia.
    + rewrite Z.mod_small in Hle; lia.
  - intros Hl Hb Hn. rewrite u32_id by (unfold is_u32; lia). rewrite (proj2 (Z.ltb_ge _ _)) by lia.
    rewrite (proj2 (Nat.eqb_neq _ _) Hn).
    destruct (send_append (msgq_output0 o) ms id body len Hq) as (q' & b & -> & Hq' & Hc & _);
      [pose proof (qr_count _ _ Hq); lia|split; lia|done|].
    by exists q', b.
Qed.

Lemma sm_send_msg_spec_witness :
  let o := mk_outq empty_msgq empty_msgq false in
  sm_send_msg o 3 [65] (-1) = Some (o, S_FALSE) /\
  exists q' b, sm_send_msg o 3 [65] 1 = Some (mk_outq q' empty_msgq true, S_OK) /\ qrep q' [b] /\
               carries b 3 1 [65].
Proof.
  split.
  - refine (proj1 (sm_send_msg_spec (mk_outq empty_msgq empty_msgq false) [] 3 (-1) [65] qrep_empty _ _) _);
      [simpl; lia|unfold is_i32; lia|lia].
  - refine (proj2 (sm_send_msg_spec (mk_outq empty_msgq empty_msgq false) [] 3 1 [65] qrep_empty _ _) _ _ _);
      [simpl; lia|unfold is_i32; lia|lia|simpl; lia|done].
Defined.

(** The receiving task delivers everything in order.  From queues that
    hold [ms0] and [ms1], [n] rounds of comm_task take the first [n] messages of
    each and leave the others; and when only the second queue is in use, the
    effect is the dispatch of its messages, the oldest first. *)
Theorem comm_task_delivers {S : Type} (descs : list (rt_module_desc_t S)) (n : nat) (c : comm S)
    (ms0 ms1 : list bytes) :
  qrep (msgq_input0 c) ms0 -> qrep (msgq_input1 c) ms1 ->
  exists c', comm_rounds descs n c = Some c' /\
    qrep (msgq_input0 c') (drop n ms0) /\ qrep (msgq_input1 c') (drop n ms1) /\
    (ms0 = [] -> rest c' =
       fold_left (fun s b => try_to_dispatch_msg descs s (msg_of_bytes b)) (take n ms1) (rest c)).
Proof. apply comm_rounds_ok. Qed.

Lemma comm_task_delivers_witness :
  exists q b c',
    MV_SM_Send_Msg empty_msgq 3 [65; 66] 2 = Some (q, S_OK) /\
    comm_rounds [mk_module 3 None (Some (fun s m l => (s ++ [m !! 1%nat], 0))) None] 1
      (mk_comm empty_msgq q []) = Some c' /\ qrep (msgq_input1 c') [] /\
    carries b 3 2 [65; 66] /\ rest c' = [m_pucMsgBody (msg_of_bytes b) !! 1%nat].
Proof.
  destruct (send_append empty_msgq [] 3 [65; 66] 2 qrep_empty) as (q & b & H1 & H2 & H3 & _);
    [simpl; lia|split; simpl; lia|simpl; lia|].
  destruct (comm_task_delivers [mk_module 3 None (Some (fun s m l => (s ++ [m !! 1%nat], 0))) None] 1
              (mk_comm empty_msgq q []) [] [b] qrep_empty H2) as (c' & H4 & _ & H6 & H7).
  exists q, b, c'. split; [|split; [exact H4|split; [exact H6|split; [exact H3|]]]].
  - unfold MV_SM_Send_Msg. rewrite (full_iff _ _ qrep_empty). simpl (if 28 <? 2 then 28 else 2).
    simpl (_ =? _)%nat. cbv iota. by rewrite H1.
  - rewrite H7 by done. cbn [fold_left take rest]. unfold try_to_dispatch_msg.
    rewrite dispatch_loop_list by (simpl; lia). cbn [dispatch_list drop msg_handle module_id].
    rewrite (ca_id _ _ _ _ H3). reflexivity.
Defined.

(** Dispatch.  A message for one module runs the handler of the first
    module of the table with that number and a handler, and nothing else; a
    broadcast runs every handler once, in table order. *)
Theorem dispatch_spec {S : Type} (descs : list (rt_module_desc_t S)) (s : S) (msg : MV_SM_Message) :
  Forall (fun m => module_id m <> BOARDCASTMSG) descs ->
  (m_iModuleID msg <> BOARDCASTMSG ->
   try_to_dispatch_msg descs s msg =
   match target descs msg_handle (m_iModuleID msg) with
   | Some handle => (handle s (m_pucMsgBody msg) (m_iMsgLen msg)).1
   | None => s
   end) /\
  (m_iModuleID msg = BOARDCASTMSG ->
   try_to_dispatch_msg descs s msg =
   fold_left (fun s (handle : module_msg_proc S) => (handle s (m_pucMsgBody msg) (m_iMsgLen msg)).1)
     (omap msg_handle descs) s).
Proof.
  intros Hd. unfold try_to_dispatch_msg. rewrite dispatch_loop_list by lia. rewrite drop_0. split; intros Hb.
  - by apply dispatch_list_unicast.
  - by apply dispatch_list_broadcast.
Qed.

Lemma dispatch_spec_witness :
  let h k := Some (fun (s : list Z) (_ : bytes) (_ : Z) => (s ++ [k], 0)) in
  let descs := [mk_module 1 None (h 1) None; mk_module 2 None None None; mk_module 3 None (h 3) None] in
  try_to_dispatch_msg descs [] (mk_msg 3 0 []) = [3] /\
  try_to_dispatch_msg descs [] (mk_msg (-1) 0 []) = [1; 3].
Proof.
  intros h descs. split.
  - apply (dispatch_spec descs [] (mk_msg 3 0 [])); [by repeat constructor|done].
  - apply (dispatch_spec descs [] (mk_msg (-1) 0 [])); [by repeat constructor|done].
Defined.

(** Start-up order.  dev_init runs the registered initialisers of
    priority 1 first, then 2, up to 5, those of one priority in table order,
    each exactly once. *)
Theorem dev_init_order {S : Type} (inits : list (rt_init_desc_t S)) (s : S) :
  dev_init inits s =
  run_inits (inits_of inits 1 ++ inits_of inits 2 ++ inits_of inits 3 ++ inits_of inits 4 ++
             inits_of inits 5) s.
Proof.
  unfold dev_init. change (seqZ INIT_DEV_P_0 (INIT_MAX_99 - INIT_DEV_P_0 + 1)) with [1; 2; 3; 4; 5].
  cbn [fold_left]. rewrite !dev_init_loop_ok by lia. rewrite drop_0. by rewrite !run_inits_app.
Qed.
