(* ===== verification/SmMsgqConc.v ===== *)
(** * The message queue under interleaving

    The sender (MV_SM_Send_Msg on the SoC, sm_send_msg on the System Manager)
    and the receiver (comm_task) run on different processors over the same
    memory.  Each is a machine here that performs one load or store of the
    shared queue at a time; a schedule is a list of actions.  The functions of
    SmMsgq.v are the runs of these machines without interference. *)

From S2P Require Import Prelude SmMsgq.

(** Where the sender is: after the first half of the full check, storing byte
    [i] of the message [w], after [m_iWrite += 32], before the total. *)
Inductive spc :=
| SIdle
| SCheck (w : bytes)
| SWrite (w : bytes) (i : nat)
| SWrap (w : bytes)
| STotal (w : bytes).

(** Where the receiver is: handling a message of which it has read [acc], after
    the dispatch, between the two stores to [m_iRead], before the total. *)
Inductive rpc :=
| RIdle
| RRead (acc : bytes)
| RAdv
| RWrap
| RTotal.

(** [sent]: the messages whose send has returned 0; [got]: those dispatched. *)
Record mach := mk_mach {
  mq : MV_SM_MsgQ;
  sp : spc;
  rp : rpc;
  sent : list bytes;
  got : list bytes;
}.

Definition set_write (v : Z) (q : MV_SM_MsgQ) : MV_SM_MsgQ :=
  mk_msgq v (m_iRead q) (m_iWriteTotal q) (m_iReadTotal q) (m_Queue q).
Definition set_read (v : Z) (q : MV_SM_MsgQ) : MV_SM_MsgQ :=
  mk_msgq (m_iWrite q) v (m_iWriteTotal q) (m_iReadTotal q) (m_Queue q).
Definition set_write_total (v : Z) (q : MV_SM_MsgQ) : MV_SM_MsgQ :=
  mk_msgq (m_iWrite q) (m_iRead q) v (m_iReadTotal q) (m_Queue q).
Definition set_read_total (v : Z) (q : MV_SM_MsgQ) : MV_SM_MsgQ :=
  mk_msgq (m_iWrite q) (m_iRead q) (m_iWriteTotal q) v (m_Queue q).
Definition set_queue (v : bytes) (q : MV_SM_MsgQ) : MV_SM_MsgQ :=
  mk_msgq (m_iWrite q) (m_iRead q) (m_iWriteTotal q) (m_iReadTotal q) v.

(** The sender is asked to send [w]: it compares [m_iRead] with [m_iWrite]. *)
Definition start_send (w : bytes) (m : mach) : option mach :=
  match sp m with
  | SIdle =>
      if (length w <=? 32)%nat then
        Some (mk_mach (mq m) (if m_iRead (mq m) =? m_iWrite (mq m) then SCheck w else SWrite w 0)
                (rp m) (sent m) (got m))
      else None
  | _ => None
  end.

Definition sender_step (m : mach) : option mach :=
  let q := mq m in
  match sp m with
  | SIdle => Some m
  | SCheck w =>
      Some (mk_mach q (if negb (m_iReadTotal q =? m_iWriteTotal q) then SIdle else SWrite w 0)
              (rp m) (sent m) (got m))
  | SWrite w i =>
      match w !! i with
      | Some c => a ← wrz (m_Queue q) (m_iWrite q + Z.of_nat i) c;
                  Some (mk_mach (set_queue a q) (SWrite w (S i)) (rp m) (sent m) (got m))
      | None => Some (mk_mach (set_write (i32 (m_iWrite q + SM_MSG_SIZE)) q) (SWrap w) (rp m) (sent m) (got m))
      end
  | SWrap w =>
      Some (mk_mach (if SM_MSGQ_SIZE <=? m_iWrite q then set_write (m_iWrite q - SM_MSGQ_SIZE) q else q)
              (STotal w) (rp m) (sent m) (got m))
  | STotal w =>
      Some (mk_mach (set_write_total (i32 (m_iWriteTotal q + SM_MSG_SIZE)) q) SIdle (rp m)
              (sent m ++ [w]) (got m))
  end.

(** [m_iRead += SM_MSG_SIZE] and [m_iRead -= SM_MSGQ_SIZE] are two stores. *)
Definition receiver_step (m : mach) : option mach :=
  let q := mq m in
  match rp m with
  | RIdle =>
      Some (mk_mach q (sp m) (if m_iReadTotal q <? m_iWriteTotal q then RRead [] else RIdle)
              (sent m) (got m))
  | RRead acc =>
      if (length acc <? 32)%nat then
        if 0 <=? m_iRead q then
          c ← m_Queue q !! Z.to_nat (m_iRead q + Z.of_nat (length acc));
          Some (mk_mach q (sp m) (RRead (acc ++ [c])) (sent m) (got m))
        else None
      else Some (mk_mach q (sp m) RAdv (sent m) (got m ++ [acc]))
  | RAdv =>
      Some (mk_mach (set_read (i32 (m_iRead q + SM_MSG_SIZE)) q) (sp m) RWrap (sent m) (got m))
  | RWrap =>
      Some (mk_mach (if SM_MSGQ_SIZE <=? m_iRead q then set_read (m_iRead q - SM_MSGQ_SIZE) q else q)
              (sp m) RTotal (sent m) (got m))
  | RTotal =>
      Some (mk_mach (set_read_total (i32 (m_iReadTotal q + SM_MSG_SIZE)) q) (sp m) RIdle (sent m) (got m))
  end.

Inductive action := ASend (w : bytes) | ASender | AReceiver.

Definition act (a : action) (m : mach) : option mach :=
  match a with
  | ASend w => match start_send w m with Some m' => Some m' | None => Some m end
  | ASender => sender_step m
  | AReceiver => receiver_step m
  end.

Fixpoint run (l : list action) (m : mach) : option mach :=
  match l with
  | [] => Some m
  | a :: l => m ← act a m; run l m
  end.

(** No send begins while [m_iRead] stands past the end of the ring, between the two
    stores of the receiver. *)
Fixpoint undisturbed (l : list action) (m : mach) : bool :=
  match l with
  | [] => true
  | a :: l => (match a with ASend _ => m_iRead (mq m) <? SM_MSGQ_SIZE | _ => true end) && match act a m with Some m => undisturbed l m | None => true end
  end.

Definition start : mach := mk_mach empty_msgq SIdle RIdle [] [].

(** ** The invariant

    Message number [n] lives in the slot at [32 n mod 480]. *)

Definition pos (n : nat) : Z := (32 * Z.of_nat n) mod 480.

(** The first message whose slot the receiver still needs. *)
Definition needed (m : mach) : nat :=
  match rp m with RAdv => length (got m) - 1 | _ => length (got m) end.

(** The number of messages [m_iReadTotal] accounts for. *)
Definition counted (m : mach) : nat :=
  match rp m with RAdv | RWrap | RTotal => length (got m) - 1 | _ => length (got m) end.

Definition sending (s : spc) : nat := match s with SIdle | SCheck _ => 0 | _ => 1 end.

(** The bytes of [s] start with [w]. *)
Definition covers (w s : bytes) : Prop := forall j c, w !! j = Some c -> s !! j = Some c.

Record inv (m : mach) : Prop := {
  i_size : length (m_Queue (mq m)) = 480%nat;
  i_wtotal : m_iWriteTotal (mq m) = 32 * Z.of_nat (length (sent m));
  i_rtotal : m_iReadTotal (mq m) = 32 * Z.of_nat (counted m);
  i_read : m_iRead (mq m) = match rp m with RWrap => pos (length (got m) - 1) + 32 | _ => pos (needed m) end;
  i_write : m_iWrite (mq m) =
    match sp m with
    | SWrap _ => pos (length (sent m)) + 32
    | STotal _ => pos (S (length (sent m)))
    | _ => pos (length (sent m))
    end;
  i_room : (needed m <= length (sent m) /\ length (sent m) + sending (sp m) <= needed m + 15)%nat;
  i_recv :
    match rp m with
    | RIdle => True
    | RRead acc => (length (got m) < length (sent m))%nat /\ (length acc <= 32)%nat /\
                   acc = take (length acc) (slot (m_Queue (mq m)) (pos (length (got m))))
    | RAdv | RWrap | RTotal => (0 < length (got m) <= length (sent m))%nat
    end;
  i_slots n w : (needed m <= n)%nat -> sent m !! n = Some w -> covers w (slot (m_Queue (mq m)) (pos n));
  i_send :
    match sp m with
    | SIdle => True
    | SCheck w => (length w <= 32)%nat
    | SWrite w i => (length w <= 32)%nat /\ (i <= length w)%nat /\
                    covers (take i w) (slot (m_Queue (mq m)) (pos (length (sent m))))
    | SWrap w | STotal w => covers w (slot (m_Queue (mq m)) (pos (length (sent m))))
    end;
  i_got : Forall2 covers (take (length (got m)) (sent m)) (got m);
}.

Lemma pos_range n : 0 <= pos n <= 448.
Proof.
  unfold pos. destruct (ring_align (32 * Z.of_nat n)) as [_ ?]; [lia| |done].
  rewrite Z.mul_comm. apply Z.mod_mul. lia.
Qed.

Lemma pos_next n : 32 * Z.of_nat n + 32 < 2 ^ 31 ->
  (if 480 <=? i32 (pos n + 32) then i32 (pos n + 32) - 480 else i32 (pos n + 32)) = pos (S n).
Proof.
  intros Hn. unfold pos. rewrite ring_next; [f_equal; lia|lia| |lia].
  rewrite Z.mul_comm. apply Z.mod_mul. lia.
Qed.

(** Messages fewer than fifteen apart have disjoint slots. *)
Lemma pos_apart n k : (n <> k)%nat -> (n < k + 15)%nat -> (k < n + 15)%nat ->
  pos n + 32 <= pos k \/ pos k + 32 <= pos n.
Proof.
  intros Hne H1 H2. set (b := Nat.min n k).
  pose proof (slots_apart (32 * Z.of_nat b) (Z.of_nat n - Z.of_nat b) (Z.of_nat k - Z.of_nat b)) as Ha.
  unfold pos. replace (32 * Z.of_nat n) with (32 * Z.of_nat b + 32 * (Z.of_nat n - Z.of_nat b)) by lia.
  replace (32 * Z.of_nat k) with (32 * Z.of_nat b + 32 * (Z.of_nat k - Z.of_nat b)) by lia.
  apply Ha; try lia. rewrite Z.mul_comm. apply Z.mod_mul. lia.
Qed.

(** Fifteen apart, the slots coincide; fewer, the positions differ. *)
Lemma pos_eq n k : (k <= n <= k + 15)%nat -> pos k = pos n -> n = k \/ n = (k + 15)%nat.
Proof.
  intros Hr He. destruct (decide (n = k)); [by left|]. destruct (decide (n = (k + 15)%nat)); [by right|].
  pose proof (pos_apart n k ltac:(lia) ltac:(lia) ltac:(lia)). lia.
Qed.

Lemma pos_15 n : pos (n + 15) = pos n.
Proof. unfold pos. replace (32 * Z.of_nat (n + 15)) with (32 * Z.of_nat n + 1 * 480) by lia. by apply Z.mod_add. Qed.

(** ** One byte of a slot *)

Lemma slot_insert_other m i off c : (i < length m)%nat -> 0 <= off ->
  Z.of_nat i < off \/ off + 32 <= Z.of_nat i -> slot (<[i:=c]> m) off = slot m off.
Proof.
  intros Hi Ho Hd. apply list_eq. intros j. unfold slot.
  destruct (decide (j < 32)%nat); [|rewrite !lookup_take_ge by lia; done].
  rewrite !lookup_take_lt, !lookup_drop by lia. apply list_lookup_insert_ne. lia.
Qed.

Lemma slot_lookup m off j : 0 <= off -> (j < 32)%nat -> slot m off !! j = m !! Z.to_nat (off + Z.of_nat j).
Proof. intros Ho Hj. unfold slot. rewrite lookup_take_lt, lookup_drop by lia. f_equal. lia. Qed.

Lemma covers_byte m off i w c :
  0 <= off -> (i < 32)%nat -> (Z.to_nat (off + Z.of_nat i) < length m)%nat -> w !! i = Some c ->
  covers (take i w) (slot m off) -> covers (take (S i) w) (slot (<[Z.to_nat (off + Z.of_nat i) := c]> m) off).
Proof.
  intros Ho Hi Hl Hw Hc j d Hj. apply lookup_take_Some in Hj as [Hj Hlt].
  rewrite slot_lookup by lia. destruct (decide (j = i)) as [->|Hne].
  - rewrite Hw in Hj. simplify_eq. by apply list_lookup_insert_eq.
  - rewrite list_lookup_insert_ne by lia. rewrite <- slot_lookup by lia. apply Hc.
    rewrite lookup_take_lt by lia. done.
Qed.

(** ** Every action keeps the invariant *)

(** Inside the ring [m_iRead] is the place of the first message that is still needed. *)
Lemma read_place m : inv m -> 32 * Z.of_nat (length (sent m)) + 64 < 2 ^ 31 -> m_iRead (mq m) < 480 -> m_iRead (mq m) = pos (needed m).
Proof.
  intros [Hs Hw Hr Hrd Hwr Hrm Hrv Hsl Hsd Hg] Hlim Hlt. unfold needed. rewrite Hrd in Hlt |- *. destruct (rp m) eqn:Erp; try done; unfold needed; rewrite ?Erp; try done.
  pose proof (pos_range (length (got m) - 1)). pose proof (pos_next (length (got m) - 1) ltac:(lia)) as Hn. rewrite i32_id in Hn by (unfold is_i32; lia). replace (S (length (got m) - 1)) with (length (got m)) in Hn by lia.
  rewrite <- Hn. by rewrite (proj2 (Z.leb_gt _ _)) by lia.
Qed.

Lemma start_send_inv w m m' : inv m -> 32 * Z.of_nat (length (sent m)) + 64 < 2 ^ 31 -> m_iRead (mq m) < 480 -> start_send w m = Some m' -> inv m'.
Proof.
  intros Hinv Hlim Hlt Hst. pose proof (read_place m Hinv Hlim Hlt) as Hpl. destruct Hinv as [Hs Hw Hr Hrd Hwr Hrm Hrv Hsl Hsd Hg]. unfold start_send in Hst.
  destruct (sp m) eqn:Esp; try done. destruct (Nat.leb_spec (length w) 32) as [Hl|]; [|done]. simplify_eq.
  cbn [sending] in Hrm. destruct (Z.eqb_spec (m_iRead (mq m)) (m_iWrite (mq m))) as [E|E];
    constructor; cbn [mq sp rp sent got needed counted sending]; try done.
  - change (needed _) with (needed m). split; [lia|].
    destruct (decide (length (sent m) = needed m + 15)%nat) as [Hf|]; [|lia]. exfalso. apply E.
    rewrite Hpl, Hwr, Hf. symmetry. apply pos_15.
  - split; [done|]. split; [lia|]. rewrite take_0. intros j c Hj. by rewrite lookup_nil in Hj.
Qed.

Lemma sender_store_inv m w i c :
  inv m -> sp m = SWrite w i -> w !! i = Some c ->
  exists a, wrz (m_Queue (mq m)) (m_iWrite (mq m) + Z.of_nat i) c = Some a /\
    inv (mk_mach (set_queue a (mq m)) (SWrite w (S i)) (rp m) (sent m) (got m)).
Proof.
  intros [Hs Hw Hr Hrd Hwr Hrm Hrv Hsl Hsd Hg] Esp Hc. rewrite Esp in *. destruct Hsd as (Hl & Hi & Hcov).
  pose proof (pos_range (length (sent m))) as Hp. apply lookup_lt_Some in Hc as Hic. cbn [sending] in Hrm.
  unfold wrz. rewrite (proj2 (Z.leb_le _ _)) by lia. rewrite wr_Some by lia.
  set (a := <[_:=_]> _). exists a. split; [done|].
  assert (Hoth : forall n, (needed m <= n < length (sent m))%nat -> slot a (pos n) = slot (m_Queue (mq m)) (pos n)).
  { intros n Hn. pose proof (pos_range n). unfold a. apply slot_insert_other; [lia|lia|].
    destruct (pos_apart n (length (sent m))); lia. }
  constructor; cbn [mq sp rp sent got sending set_queue m_iWrite m_iRead m_iWriteTotal m_iReadTotal m_Queue]; try done.
  - unfold a. by rewrite length_insert.
  - destruct (rp m) eqn:Erp; try done. destruct Hrv as (Hlt & Ha & Hacc). rewrite Hoth; [done|].
    unfold needed. rewrite Erp. lia.
  - intros n w' Hn Hw'. apply lookup_lt_Some in Hw' as Hnl. rewrite Hoth by done. by apply Hsl.
  - split; [done|]. split; [lia|]. unfold a. rewrite Hwr. apply covers_byte; try done; lia.
Qed.

Lemma got_le m : inv m -> (length (got m) <= length (sent m))%nat.
Proof. intros [_ _ _ _ _ Hrm Hrv _ _ _]. unfold needed in Hrm. destruct (rp m); lia. Qed.

(** The message becomes visible. *)
Lemma sender_total_inv m w :
  inv m -> sp m = STotal w ->
  inv (mk_mach (set_write_total (32 * Z.of_nat (length (sent m)) + 32) (mq m)) SIdle (rp m) (sent m ++ [w]) (got m)).
Proof.
  intros Hinv Esp. pose proof (got_le m Hinv) as Hgl.
  destruct Hinv as [Hs Hw Hr Hrd Hwr Hrm Hrv Hsl Hsd Hg]. rewrite Esp in *. cbn [sending] in Hrm.
  assert (Hls : length (sent m ++ [w]) = S (length (sent m))) by len.
  constructor; cbn [mq sp rp sent got sending set_write_total m_iWrite m_iRead m_iWriteTotal m_iReadTotal m_Queue];
    rewrite ?Hls; try done.
  - lia.
  - change (needed _) with (needed m). lia.
  - destruct (rp m); try done; [|lia..]. destruct Hrv as (? & ? & ?). split; [lia|done].
  - intros n w' Hn Hw'. apply lookup_app_Some in Hw' as [Hw'|[Hn' Hw']]; [by apply Hsl|].
    apply list_lookup_singleton_Some in Hw' as [Hz <-].
    by replace n with (length (sent m)) by lia.
  - by rewrite take_app_le by lia.
Qed.

Lemma sender_inv m :
  inv m -> 32 * Z.of_nat (length (sent m)) + 64 < 2 ^ 31 -> exists m', sender_step m = Some m' /\ inv m'.
Proof.
  intros Hinv Hlim. pose proof Hinv as [Hs Hw Hr Hrd Hwr Hrm Hrv Hsl Hsd Hg].
  pose proof (pos_range (length (sent m))) as Hp.
  unfold sender_step. destruct (sp m) as [|w|w i|w|w] eqn:Esp; cbn [sending] in Hrm.
  - by exists m.
  - eexists. split; [done|]. rewrite Hr, Hw.
    destruct (Z.eqb_spec (32 * Z.of_nat (counted m)) (32 * Z.of_nat (length (sent m)))) as [E|E]; simpl negb; cbv iota.
    + constructor; cbn [mq sp rp sent got sending]; try done.
      * change (needed _) with (needed m). split; [lia|]. unfold counted, needed in *. destruct (rp m); lia.
      * split; [done|]. split; [lia|]. intros j c Hj. by rewrite take_0, lookup_nil in Hj.
    + constructor; cbn [mq sp rp sent got sending]; try done; lia.
  - destruct (w !! i) as [c|] eqn:Ec.
    + destruct (sender_store_inv m w i c Hinv Esp Ec) as (a & -> & Ha). eauto.
    + eexists. split; [done|]. destruct Hsd as (Hl & Hi & Hcov). apply lookup_ge_None_1 in Ec.
      change SM_MSG_SIZE with 32. rewrite i32_id by (unfold is_i32; lia).
      constructor; cbn [mq sp rp sent got sending set_write m_iWrite m_iRead m_iWriteTotal m_iReadTotal m_Queue];
        try done; [by rewrite Hwr|]. by rewrite take_ge in Hcov.
  - eexists. split; [done|]. change SM_MSGQ_SIZE with 480.
    assert (Hn : (if 480 <=? m_iWrite (mq m) then m_iWrite (mq m) - 480 else m_iWrite (mq m)) = pos (S (length (sent m)))).
    { rewrite Hwr, <- pos_next by lia. by rewrite i32_id by (unfold is_i32; lia). }
    destruct (480 <=? m_iWrite (mq m)); constructor; cbn; done.
  - eexists. split; [done|]. change SM_MSG_SIZE with 32. rewrite Hw, i32_id by (unfold is_i32; lia).
    by apply sender_total_inv.
Qed.

Lemma receiver_byte_inv m acc :
  inv m -> rp m = RRead acc -> (length acc < 32)%nat ->
  exists c, m_Queue (mq m) !! Z.to_nat (m_iRead (mq m) + Z.of_nat (length acc)) = Some c /\
    inv (mk_mach (mq m) (sp m) (RRead (acc ++ [c])) (sent m) (got m)).
Proof.
  intros [Hs Hw Hr Hrd Hwr Hrm Hrv Hsl Hsd Hg] Erp Hl. unfold needed, counted in *. rewrite Erp in *.
  destruct Hrv as (Hlt & _ & Hacc). pose proof (pos_range (length (got m))) as Hp.
  destruct (lookup_lt_is_Some_2 (m_Queue (mq m)) (Z.to_nat (m_iRead (mq m) + Z.of_nat (length acc)))) as [c Hc]; [lia|].
  exists c. split; [done|]. constructor; cbn [mq sp rp sent got]; try done.
  split; [done|]. assert (Hla : length (acc ++ [c]) = S (length acc)) by len. rewrite Hla. split; [lia|].
  rewrite (take_S_r _ _ c); [by rewrite <- Hacc|]. rewrite slot_lookup by lia. by rewrite <- Hrd.
Qed.

(** A message read to the end is the next one of the accepted messages. *)
Lemma receiver_done_inv m acc :
  inv m -> rp m = RRead acc -> (32 <= length acc)%nat ->
  inv (mk_mach (mq m) (sp m) RAdv (sent m) (got m ++ [acc])).
Proof.
  intros [Hs Hw Hr Hrd Hwr Hrm Hrv Hsl Hsd Hg] Erp Hl. unfold needed, counted in *. rewrite Erp in *.
  destruct Hrv as (Hlt & Hle & Hacc). pose proof (pos_range (length (got m))) as Hp.
  assert (Hlg : length (got m ++ [acc]) = S (length (got m))) by len.
  assert (Hn : (S (length (got m)) - 1 = length (got m))%nat) by lia.
  constructor; unfold needed, counted; cbn [mq sp rp sent got]; rewrite ?Hlg, ?Hn; try done; [lia|].
  destruct (lookup_lt_is_Some_2 (sent m) (length (got m)) Hlt) as [w Hwl].
  rewrite (take_S_r _ _ w Hwl). apply Forall2_app; [done|]. constructor; [|done].
  rewrite Hacc, take_ge; [by apply Hsl|]. rewrite slot_length; lia.
Qed.

Lemma receiver_inv m :
  inv m -> 32 * Z.of_nat (length (sent m)) + 64 < 2 ^ 31 ->
  exists m', receiver_step m = Some m' /\ inv m'.
Proof.
  intros Hinv Hlim. pose proof (got_le m Hinv) as Hgl.
  pose proof Hinv as [Hs Hw Hr Hrd Hwr Hrm Hrv Hsl Hsd Hg].
  pose proof (pos_range (needed m)) as Hp. unfold receiver_step.
  destruct (rp m) as [|acc| | |] eqn:Erp; unfold needed, counted in *; rewrite Erp in *.
  - eexists. split; [done|]. rewrite Hr, Hw. destruct (Z.ltb_spec (32 * Z.of_nat (length (got m))) (32 * Z.of_nat (length (sent m)))).
    + constructor; unfold needed, counted; cbn [mq sp rp sent got]; try done.
      split; [lia|]. split; [simpl; lia|done].
    + constructor; unfold needed, counted; cbn [mq sp rp sent got]; done.
  - destruct (Nat.ltb_spec (length acc) 32) as [Hlt|Hge].
    + rewrite (proj2 (Z.leb_le _ _)) by lia.
      destruct (receiver_byte_inv m acc Hinv Erp Hlt) as (c & -> & Hc). cbn [mbind option_bind]. eauto.
    + eexists. split; [done|]. by apply receiver_done_inv with (m := m).
  - eexists. split; [done|]. change SM_MSG_SIZE with 32. rewrite Hrd, i32_id by (unfold is_i32; lia). set (n := length (got m)) in *.
    constructor; unfold needed, counted; cbn [mq sp rp sent got set_read m_iWrite m_iRead m_iWriteTotal m_iReadTotal m_Queue]; fold n; try done; [lia|].
    intros k w Hk. apply Hsl. lia.
  - eexists. split; [done|]. change SM_MSGQ_SIZE with 480. set (n := length (got m)) in *. pose proof (pos_range (n - 1)) as Hp1.
    assert (Hn : (if 480 <=? m_iRead (mq m) then m_iRead (mq m) - 480 else m_iRead (mq m)) = pos n).
    { pose proof (pos_next (n - 1) ltac:(lia)) as Hx. rewrite i32_id in Hx by (unfold is_i32; lia). replace (S (n - 1)) with n in Hx by lia. by rewrite Hrd. }
    destruct (480 <=? m_iRead (mq m)); constructor; unfold needed, counted; cbn [mq sp rp sent got set_read m_iWrite m_iRead m_iWriteTotal m_iReadTotal m_Queue]; fold n; done.
  - eexists. split; [done|]. change SM_MSG_SIZE with 32. rewrite Hr, i32_id by (unfold is_i32; lia).
    constructor; unfold needed, counted; cbn [mq sp rp sent got set_read_total m_iWrite m_iRead m_iWriteTotal m_iReadTotal m_Queue]; try done. lia.
Qed.

Lemma start_inv : inv start.
Proof.
  constructor; [reflexivity|reflexivity|reflexivity|reflexivity|reflexivity|unfold needed; simpl; lia|done..|constructor].
Qed.

Lemma act_inv a m :
  inv m -> (forall w, a = ASend w -> m_iRead (mq m) < 480) -> 32 * Z.of_nat (length (sent m)) + 64 < 2 ^ 31 ->
  exists m', act a m = Some m' /\ inv m' /\ (length (sent m') <= S (length (sent m)))%nat.
Proof.
  intros Hinv Hcalm Hlim. destruct a as [w| |]; simpl.
  - destruct (start_send w m) as [m'|] eqn:E; [|exists m; by split; [|split; [|lia]]].
    exists m'. split; [done|]. split; [eapply start_send_inv; [exact Hinv|exact Hlim|by apply (Hcalm w)|exact E]|]. unfold start_send in E.
    destruct (sp m); try done. destruct (length w <=? 32)%nat; [|done]. simplify_eq. simpl. lia.
  - destruct (sender_inv m Hinv Hlim) as (m' & Hm & Hi). exists m'. split; [done|]. split; [done|].
    unfold sender_step in Hm. destruct (sp m); simplify_eq; simpl; try lia.
    + destruct (w !! i); inv_bind; simpl; lia.
    + len.
  - destruct (receiver_inv m Hinv Hlim) as (m' & Hm & Hi). exists m'. split; [done|]. split; [done|].
    unfold receiver_step in Hm. destruct (rp m); simplify_eq; simpl; try lia.
    destruct (length acc <? 32)%nat; [destruct (0 <=? _)|]; inv_bind; simpl; lia.
Qed.

Lemma run_inv l m :
  inv m -> undisturbed l m = true -> 32 * Z.of_nat (length (sent m) + length l) + 64 < 2 ^ 31 ->
  exists m', run l m = Some m' /\ inv m'.
Proof.
  revert m; induction l as [|a l IH]; intros m Hinv Hcalm Hlim; [by exists m|].
  simpl in Hlim. cbn [undisturbed] in Hcalm. apply andb_prop in Hcalm as [Hc1 Hc2]. destruct (act_inv a m Hinv) as (m' & Ha & Hi & Hle); [intros w ->; by apply Z.ltb_lt in Hc1|lia|]. simpl. rewrite Ha in Hc2 |- *.
  cbn [mbind option_bind]. apply IH; [done|done|lia].
Qed.

(** ** The machines against the functions of SmMsgq.v *)

Lemma run_app l1 l2 m : run (l1 ++ l2) m = (m' ← run l1 m; run l2 m').
Proof. revert m; induction l1 as [|a l1 IH]; intros m; [done|]. simpl. destruct (act a m); [apply IH|done].
Qed.

Lemma run_stores w n : forall i q r s g,
  (i + n = length w)%nat -> 0 <= m_iWrite q -> m_iWrite q + Z.of_nat (length w) <= Z.of_nat (length (m_Queue q)) ->
  run (replicate n ASender) (mk_mach q (SWrite w i) r s g) =
  Some (mk_mach (set_queue (splice (m_Queue q) (Z.to_nat (m_iWrite q) + i) (drop i w)) q)
          (SWrite w (length w)) r s g).
Proof.
  induction n as [|n IH]; intros i q r s g Hi Hw Hl; simpl.
  { replace i with (length w) by lia. rewrite drop_all, splice_nil. by destruct q. }
  unfold sender_step. cbn [sp mq]. destruct (lookup_lt_is_Some_2 w i) as [c Hc]; [lia|]. rewrite Hc.
  unfold wrz. rewrite (proj2 (Z.leb_le _ _)) by lia. rewrite wr_Some by lia. cbn [mbind option_bind rp sent got].
  rewrite IH; cbn [set_queue m_iWrite m_Queue]; [|lia|lia|len].
  replace (Z.to_nat (m_iWrite q + Z.of_nat i)) with (Z.to_nat (m_iWrite q) + i)%nat by lia.
  replace (Z.to_nat (m_iWrite q) + S i)%nat with (S (Z.to_nat (m_iWrite q) + i)) by lia.
  unfold set_queue. cbn [m_iWrite m_iRead m_iWriteTotal m_iReadTotal m_Queue].
  rewrite splice_cons by len. by rewrite (drop_S _ _ _ Hc).
Qed.

(** The bytes a call of the sender stores. *)
Definition wire (id len : Z) (body : bytes) : bytes := le16 id ++ le16 len ++ take (Z.to_nat len) body.

Definition send_actions (w : bytes) : list action := ASend w :: replicate (length w + 4) ASender.

Lemma run_send_write w q r s g :
  0 <= m_iWrite q -> m_iWrite q + Z.of_nat (length w) <= Z.of_nat (length (m_Queue q)) ->
  run (replicate (length w + 3) ASender) (mk_mach q (SWrite w 0) r s g) =
  Some (mk_mach (mk_msgq
    (if 480 <=? i32 (m_iWrite q + 32) then i32 (m_iWrite q + 32) - 480 else i32 (m_iWrite q + 32))
    (m_iRead q) (i32 (m_iWriteTotal q + 32)) (m_iReadTotal q)
    (splice (m_Queue q) (Z.to_nat (m_iWrite q)) w)) SIdle r (s ++ [w]) g).
Proof.
  intros Hw Hl. rewrite replicate_add, run_app, run_stores by done. cbn [mbind option_bind].
  rewrite Nat.add_0_r, drop_0. cbn [replicate run act]. unfold sender_step at 3. cbn [sp mq].
  rewrite lookup_ge_None_2 by lia. cbn [mbind option_bind rp sent got]. unfold sender_step at 2.
  cbn [sp mq set_write set_queue m_iWrite mbind option_bind rp sent got]. unfold sender_step. cbn [sp mq rp sent got].
  change SM_MSG_SIZE with 32. change SM_MSGQ_SIZE with 480.
  by destruct (480 <=? i32 (m_iWrite q + 32)).
Qed.

Lemma run_idle n m : sp m = SIdle -> run (replicate n ASender) m = Some m.
Proof. intros Hs. induction n as [|n IH]; [done|]. simpl. unfold sender_step. by rewrite Hs. Qed.

(** A send that nobody disturbs is MV_SM_Send_Msg. *)
Lemma run_send q r s g id len body :
  0 <= m_iWrite q -> m_iWrite q + 32 <= Z.of_nat (length (m_Queue q)) -> body_ok body len ->
  exists q' ret, MV_SM_Send_Msg q id body len = Some (q', ret) /\
    run (send_actions (wire id len body)) (mk_mach q SIdle r s g) =
    Some (mk_mach q' SIdle r (if ret =? S_OK then s ++ [wire id len body] else s) g).
Proof.
  intros Hw Hl Hb. pose proof Hb as [Hb1 Hb2].
  assert (Hlw : (length (wire id len body) <= 32)%nat) by (unfold wire; simpl; len).
  unfold MV_SM_Send_Msg, send_actions. rewrite (proj2 (Z.ltb_ge _ _)) by lia.
  rewrite put_msg_spec by done. fold (wire id len body). set (w := wire id len body) in *.
  cbn [run act start_send sp mq rp sent got]. rewrite (proj2 (Nat.leb_le _ _)) by done.
  cbn [mbind option_bind]. unfold queue_full.
  destruct (m_iRead q =? m_iWrite q); cbn [andb].
  - replace (length w + 4)%nat with (S (length w + 3)) by lia. cbn [replicate run act].
    unfold sender_step at 1. cbn [sp mq rp sent got mbind option_bind].
    destruct (negb (m_iReadTotal q =? m_iWriteTotal q)).
    + do 2 eexists. split; [done|]. by rewrite run_idle.
    + do 2 eexists. split; [done|]. rewrite run_send_write by lia. done.
  - do 2 eexists. split; [done|]. replace (length w + 4)%nat with ((length w + 3) + 1)%nat by lia.
    rewrite replicate_add, run_app, run_send_write by lia. done.
Qed.

Lemma run_reads n : forall acc q p s g,
  (length acc + n = 32)%nat -> 0 <= m_iRead q -> m_iRead q + 32 <= Z.of_nat (length (m_Queue q)) ->
  acc = take (length acc) (slot (m_Queue q) (m_iRead q)) ->
  run (replicate n AReceiver) (mk_mach q p (RRead acc) s g) =
  Some (mk_mach q p (RRead (slot (m_Queue q) (m_iRead q))) s g).
Proof.
  induction n as [|n IH]; intros acc q p s g Hn Hr Hl Ha; simpl.
  { rewrite Ha at 1. by rewrite take_ge by (rewrite slot_length; lia). }
  cbn [receiver_step rp mq sp sent got]. rewrite (proj2 (Nat.ltb_lt _ _)), (proj2 (Z.leb_le _ _)) by lia.
  destruct (lookup_lt_is_Some_2 (m_Queue q) (Z.to_nat (m_iRead q + Z.of_nat (length acc)))) as [c Hc]; [lia|].
  rewrite Hc. cbn [mbind option_bind]. assert (Hla : length (acc ++ [c]) = S (length acc)) by len.
  apply IH; [lia|done..|]. rewrite Hla, (take_S_r _ _ c); [by rewrite <- Ha|]. by rewrite slot_lookup by lia.
Qed.

Definition receive_actions : list action := replicate 37 AReceiver.

(** A poll that nobody disturbs is the body of the loop of comm_task. *)
Lemma run_receive q p s g :
  0 <= m_iRead q -> m_iRead q + 32 <= Z.of_nat (length (m_Queue q)) ->
  m_iReadTotal q < m_iWriteTotal q ->
  exists b, msg_at (m_Queue q) (m_iRead q) = Some b /\
    run receive_actions (mk_mach q p RIdle s g) = Some (mk_mach (take_msg q) p RIdle s (g ++ [b])).
Proof.
  intros Hr Hl Ht. exists (slot (m_Queue q) (m_iRead q)). split.
  { unfold msg_at. change SM_MSG_SIZE with 32. by rewrite !(proj2 (Z.leb_le _ _)) by lia. }
  unfold receive_actions. change 37%nat with (1 + (32 + 4))%nat. rewrite replicate_add, run_app.
  cbn [replicate run act receiver_step rp mq sp sent got]. rewrite (proj2 (Z.ltb_lt _ _)) by done.
  cbn [mbind option_bind]. rewrite replicate_add, run_app, run_reads by done. cbn [mbind option_bind].
  cbn [replicate run act]. unfold receiver_step at 4. cbn [rp mq sp sent got].
  rewrite slot_length by lia. cbn [Nat.ltb Nat.leb mbind option_bind].
  unfold receiver_step. cbn [rp mq sp sent got mbind option_bind set_read m_iRead]. unfold take_msg. by destruct (SM_MSGQ_SIZE <=? i32 (m_iRead q + SM_MSG_SIZE)).
Qed.

(** ** Properties *)

(** C4: the queue is a FIFO under any interleaving in which no send begins between the
    two stores with which the receiver takes [m_iRead] round the end of the ring
    ([queue_split_store_race] shows what happens otherwise).  Whatever else the schedule
    of the loads and stores of one sender and one receiver (up to 2^25 of them, so that
    the totals do not overflow), no access leaves the ring, the n-th dispatched message
    is the n-th accepted one with every byte it was given, and at most fifteen messages
    are in the ring. *)
Theorem queue_fifo_interleaved (l : list action) :
  Z.of_nat (length l) < 2 ^ 25 -> undisturbed l start = true ->
  exists m, run l start = Some m /\
    (length (got m) <= length (sent m) <= needed m + 15)%nat /\
    Forall2 covers (take (length (got m)) (sent m)) (got m) /\
    (forall n w, (needed m <= n)%nat -> sent m !! n = Some w -> covers w (slot (m_Queue (mq m)) (pos n))).
Proof.
  intros Hl Hcalm. destruct (run_inv l start start_inv Hcalm) as (m & Hr & Hi); [simpl; lia|].
  exists m. pose proof (got_le m Hi). destruct Hi as [_ _ _ _ _ Hrm _ Hsl _ Hg].
  split; [done|]. split; [lia|]. by split.
Qed.

Lemma queue_fifo_interleaved_witness :
  exists m, run (ASend [7; 8] :: AReceiver :: replicate 6 ASender ++ replicate 36 AReceiver) start = Some m /\
    Forall2 covers (take (length (got m)) (sent m)) (got m).
Proof.
  destruct (queue_fifo_interleaved (ASend [7; 8] :: AReceiver :: replicate 6 ASender ++ replicate 36 AReceiver))
    as (m & H1 & _ & H2 & _); [simpl; lia|vm_compute; reflexivity|].
  exists m. split; [exact H1|exact H2].
Defined.

(** The machines of this file are the code.  Run alone, the sender machine
    computes MV_SM_Send_Msg (its refusal included), and the receiver machine
    delivers the message comm_task reads and leaves the queue comm_task leaves. *)
Theorem queue_machines_refine (q : MV_SM_MsgQ) (id len : Z) (body : bytes) (p : spc) (r : rpc)
    (s g : list bytes) :
  0 <= m_iWrite q -> m_iWrite q + 32 <= Z.of_nat (length (m_Queue q)) ->
  0 <= m_iRead q -> m_iRead q + 32 <= Z.of_nat (length (m_Queue q)) -> body_ok body len ->
  (exists q' ret, MV_SM_Send_Msg q id body len = Some (q', ret) /\
     run (send_actions (wire id len body)) (mk_mach q SIdle r s g) =
     Some (mk_mach q' SIdle r (if ret =? S_OK then s ++ [wire id len body] else s) g)) /\
  (m_iReadTotal q < m_iWriteTotal q ->
   exists b, msg_at (m_Queue q) (m_iRead q) = Some b /\
     run receive_actions (mk_mach q p RIdle s g) = Some (mk_mach (take_msg q) p RIdle s (g ++ [b]))).
Proof.
  intros Hw Hwl Hr Hrl Hb. split; [by apply run_send|]. intros Ht. by apply run_receive.
Qed.

Lemma queue_machines_refine_witness :
  exists q' ret, MV_SM_Send_Msg empty_msgq 3 [65] 1 = Some (q', ret) /\
    run (send_actions (wire 3 1 [65])) start =
    Some (mk_mach q' SIdle RIdle (if ret =? S_OK then [wire 3 1 [65]] else []) []).
Proof.
  apply (queue_machines_refine empty_msgq 3 1 [65] SIdle RIdle [] []);
    [simpl; lia|vm_compute; discriminate|simpl; lia|vm_compute; discriminate|split; simpl; lia].
Defined.

(** The schedule of the next property: fourteen messages pass through the ring,
    fifteen more fill it with the oldest one in the last slot; the receiver
    handles that one and is stopped between its two stores to [m_iRead]; two
    messages are sent; the receiver goes on. *)
Definition race : list action :=
  let send k := send_actions [k] in
  let receive := replicate 37 AReceiver in
  concat (map (fun k => send k ++ receive) (seqZ 0 14)) ++
  concat (map send (seqZ 14 15)) ++ replicate 35 AReceiver ++ send 29 ++ send 30 ++
  replicate (2 + 37) AReceiver.

(** The two stores of comm_task to [m_iRead] are not safe by themselves:
    when the sender can see [m_iRead] between [+= SM_MSG_SIZE] and
    [-= SM_MSGQ_SIZE], a full ring passes for one with room and a message that
    was accepted and not yet read is overwritten. *)
Theorem queue_split_store_race :
  exists m w b, run race start = Some m /\
    sent m !! 15%nat = Some w /\ got m !! 15%nat = Some b /\ ~ covers w b.
Proof.
  destruct (run race start) as [m|] eqn:E; [|vm_compute in E; discriminate].
  vm_compute in E. injection E as <-. do 3 eexists. split; [reflexivity|].
  split; [vm_compute; reflexivity|]. split; [vm_compute; reflexivity|].
  intros H. specialize (H 0%nat 15 eq_refl). vm_compute in H. discriminate.
Qed.
