(* ===== verification/FlashAdaptor.v ===== *)
(** * The flash adaptor (boot/common/driver/flash/flash_adaptor.c)

    The boot stages reach the flash through [g_flash], a struct of function
    pointers that a driver (eMMC, NAND, SPI) fills in; a pointer may be NULL.
    The driver is a parameter: a record of optional operations on its state. *)

From S2P Require Import Prelude Disk.

Definition i64 (x : Z) : Z := (x + 2 ^ 63) mod 2 ^ 64 - 2 ^ 63.

Lemma i64_id x : - 2 ^ 63 <= x < 2 ^ 63 -> i64 x = x.
Proof. intros. unfold i64. rewrite Z.mod_small; lia. Qed.

Definition FLASH_OP_ERR : Z := -2.

(** [read] gives its return value and the bytes it stored in the buffer. *)
Record flash_adaptor (D : Type) := mk_adaptor {
  boot_part_size : Z;
  block_size : Z;
  page_size : Z;
  addr_cycle : Z;
  init : option (D -> Z -> D * Z);
  get_capacity : option (D -> Z -> D * Z);
  dev_id_inc : option (D -> Z -> D * Z);
  get_boot_partition_number_fn : option (D -> D * Z);
  switch_part : option (D -> Z -> D * Z);
  set_parameters : option (D -> Z -> Z -> Z -> D);
  stop_alt_boot_mode_fn : option (D -> D);
  erase : option (D -> Z -> Z -> D * Z);
  read : option (D -> Z -> Z -> D * Z * bytes);
  write : option (D -> Z -> Z -> bytes -> D * Z);
}.

Arguments boot_part_size {D}. Arguments block_size {D}. Arguments page_size {D}.
Arguments addr_cycle {D}. Arguments init {D}. Arguments get_capacity {D}.
Arguments dev_id_inc {D}. Arguments get_boot_partition_number_fn {D}.
Arguments switch_part {D}. Arguments set_parameters {D}. Arguments stop_alt_boot_mode_fn {D}.
Arguments erase {D}. Arguments read {D}. Arguments write {D}.

Section Adaptor.
Context {D : Type} (g_flash : flash_adaptor D).

(** The state of the driver and [global_flash_id]. *)
Record flash := mk_flash { drv : D; global_flash_id : Z }.

Definition on_drv (fl : flash) (r : D * Z) : flash * Z := (mk_flash r.1 (global_flash_id fl), r.2).

Definition set_flash_parameters (fl : flash) (blocksize pagesize addrcycle : Z) : flash :=
  match set_parameters g_flash with
  | Some f => mk_flash (f (drv fl) blocksize pagesize addrcycle) (global_flash_id fl)
  | None => fl
  end.

Definition get_block_size : Z := block_size g_flash.
Definition get_boot_part_size : Z := boot_part_size g_flash.
Definition get_page_size : Z := page_size g_flash.
Definition get_addr_cycle : Z := addr_cycle g_flash.

Definition get_boot_partition_number (fl : flash) : flash * Z :=
  match get_boot_partition_number_fn g_flash with
  | Some f => on_drv fl (f (drv fl))
  | None => (fl, FLASH_OP_ERR)
  end.

(** The device number is kept for [get_flash_capacity] even when it fails. *)
Definition init_flash (fl : flash) (dev : Z) : flash * Z :=
  let fl := mk_flash (drv fl) dev in
  match init g_flash with
  | Some f => on_drv fl (f (drv fl) dev)
  | None => (fl, FLASH_OP_ERR)
  end.

(** The [loff_t] of the driver becomes an [int]. *)
Definition switch_flash_part (fl : flash) (part : Z) : flash * Z :=
  match switch_part g_flash with
  | Some f => let r := on_drv fl (f (drv fl) part) in (r.1, i32 r.2)
  | None => (fl, FLASH_OP_ERR)
  end.

Definition stop_alt_boot_mode (fl : flash) : flash :=
  match stop_alt_boot_mode_fn g_flash with
  | Some f => mk_flash (f (drv fl)) (global_flash_id fl)
  | None => fl
  end.

Definition read_flash (fl : flash) (start size : Z) : flash * Z * bytes :=
  match read g_flash with
  | Some f => let '(d, r, b) := f (drv fl) start size in (mk_flash d (global_flash_id fl), r, b)
  | None => (fl, FLASH_OP_ERR, [])
  end.

Definition get_flash_capacity (fl : flash) : flash * Z :=
  match get_capacity g_flash with
  | Some f => on_drv fl (f (drv fl) (global_flash_id fl))
  | None => (fl, FLASH_OP_ERR)
  end.

Definition read_flash_from_part (fl : flash) (part start size : Z) : flash * Z * bytes :=
  let '(fl, part_addr) := switch_flash_part fl part in
  if part_addr <? 0 then (fl, FLASH_OP_ERR, [])
  else read_flash fl (i64 (part_addr + start)) size.

Definition erase_flash (fl : flash) (start size : Z) : flash * Z :=
  match erase g_flash with
  | Some f => on_drv fl (f (drv fl) start size)
  | None => (fl, FLASH_OP_ERR)
  end.

Definition write_flash (fl : flash) (start size : Z) (buff : bytes) : flash * Z :=
  match write g_flash with
  | Some f => on_drv fl (f (drv fl) start size buff)
  | None => (fl, FLASH_OP_ERR)
  end.

Definition flash_dev_id_inc (fl : flash) (dev_id : Z) : flash * Z :=
  match dev_id_inc g_flash with
  | Some f => on_drv fl (f (drv fl) dev_id)
  | None => (fl, u32 (dev_id + 1))
  end.

End Adaptor.

Arguments flash : clear implicits.

(** A read replaces the first bytes of the caller's buffer; the rest keeps what
    the previous read left there. *)
Definition into (buff got : bytes) : option bytes :=
  if decide (length got <= length buff)%nat then Some (splice buff 0 got) else None.

(** ** What a working driver promises

    Every hardware partition has contents; [switch_part] selects one (its
    address is 0), [read] and [write] act on the selected one and succeed. *)
Class ReliableAdaptor {D : Type} (g : flash_adaptor D) := {
  contents : D -> Z -> Z -> Z;
  current : D -> Z;
  contents_byte d p x : is_u8 (contents d p x);
  switch_law : exists f, switch_part g = Some f /\
    forall d p, exists d', f d p = (d', 0) /\ current d' = p /\ forall q x, contents d' q x = contents d q x;
  read_law : exists f, read g = Some f /\
    forall d a n, 0 <= a -> 0 <= n -> exists d',
      f d a n = (d', 0, rng (contents d (current d)) a (Z.to_nat n)) /\
      current d' = current d /\ forall q x, contents d' q x = contents d q x;
  write_law : exists f, write g = Some f /\
    forall d a n buf, 0 <= a -> 0 <= n <= Z.of_nat (length buf) -> is_bytes buf -> exists d',
      f d a n buf = (d', 0) /\ current d' = current d /\
      forall q x, contents d' q x =
        if q =? current d then upd (contents d q) a (take (Z.to_nat n) buf) x else contents d q x;
}.

Section Reliable.
Context {D : Type} {g : flash_adaptor D} `{!ReliableAdaptor g}.
Implicit Types (fl : flash D).

Lemma switch_reliable fl p : exists fl', switch_flash_part g fl p = (fl', 0) /\
  current (drv fl') = p /\ (forall q x, contents (drv fl') q x = contents (drv fl) q x).
Proof.
  unfold switch_flash_part. destruct switch_law as (f & -> & Hf). destruct (Hf (drv fl) p) as (d' & Hd & Hc & Hs).
  rewrite Hd. exists (mk_flash d' (global_flash_id fl)). done.
Qed.

Lemma read_reliable fl a n : 0 <= a -> 0 <= n -> exists fl',
  read_flash g fl a n = (fl', 0, rng (contents (drv fl) (current (drv fl))) a (Z.to_nat n)) /\
  current (drv fl') = current (drv fl) /\ (forall q x, contents (drv fl') q x = contents (drv fl) q x).
Proof.
  intros Ha Hn. unfold read_flash. destruct read_law as (f & -> & Hf).
  destruct (Hf (drv fl) a n Ha Hn) as (d' & Hd & Hc & Hs). rewrite Hd.
  exists (mk_flash d' (global_flash_id fl)). done.
Qed.

Lemma write_reliable fl a n buf : 0 <= a -> 0 <= n <= Z.of_nat (length buf) -> is_bytes buf -> exists fl',
  write_flash g fl a n buf = (fl', 0) /\ current (drv fl') = current (drv fl) /\
  (forall q x, contents (drv fl') q x =
     if q =? current (drv fl) then upd (contents (drv fl) q) a (take (Z.to_nat n) buf) x
     else contents (drv fl) q x).
Proof.
  intros Ha Hn Hb. unfold write_flash. destruct write_law as (f & -> & Hf).
  destruct (Hf (drv fl) a n buf Ha Hn Hb) as (d' & Hd & Hc & Hs). rewrite Hd.
  exists (mk_flash d' (global_flash_id fl)). done.
Qed.
End Reliable.

(** A RAM flash with any number of partitions realises it. *)
Record ramflash := mk_ramflash { rf_part : Z; rf_mem : Z -> Z -> Z }.

Definition ram_adaptor : flash_adaptor ramflash :=
  mk_adaptor ramflash 0 (2 ^ 19) 512 0
    (Some (fun d _ => (d, 0))) (Some (fun d _ => (d, 2 ^ 33))) None None
    (Some (fun d p => (mk_ramflash p (rf_mem d), 0))) None None None
    (Some (fun d a n => (d, 0, rng (fun x => u8 (rf_mem d (rf_part d) x)) a (Z.to_nat n))))
    (Some (fun d a n buf =>
       (mk_ramflash (rf_part d) (fun p x => if p =? rf_part d then upd (rf_mem d p) a (take (Z.to_nat n) buf) x
                                            else rf_mem d p x), 0))).

#[export] Instance ram_adaptor_reliable : ReliableAdaptor ram_adaptor.
Proof.
  refine {| contents := fun d p x => u8 (rf_mem d p x); current := rf_part |}.
  - intros. apply u8_range.
  - eexists. split; [reflexivity|]. intros d p. by eexists.
  - eexists. split; [reflexivity|]. intros d a n Ha Hn. by eexists.
  - eexists. split; [reflexivity|]. intros d a n buf Ha Hn Hb. eexists. split; [reflexivity|]. split; [done|].
    intros q x. simpl. destruct (q =? rf_part d); [|done]. apply u8_upd. by apply Forall_take.
Defined.
