(* ===== verification/LoadGpt.v ===== *)
(** * The partition table (boot/common/driver/flash/load_gpt.c)

    The loader reads the primary GPT, or the copy at the end of the device,
    and the tables of the four general-purpose partitions into one static
    table of 128 entries; images are found by name and read or written inside
    their partition. *)

From S2P Require Import Prelude CString FlashAdaptor.

Definition MAX_GPT_ENTRY : Z := 128.
Definition MAX_ENT_NAME : nat := 36.
Definition MAX_HDR_SIZE : Z := 100.
Definition SDIO_BLK_SIZE : Z := 512.
Definition PARTITION_NOT_EXIST : Z := -1.
Definition START_ADDR_GPT : Z := 0.
Definition GPT_PRI_READ_SIZE : Z := 0x6800.
Definition GPT_ALT_READ_SIZE : Z := 0x4200.
Definition GPT_HEADER_OFFSET : nat := 512.
Definition GPT_TABLE_OFFSET : nat := 1024.
Definition GPT_PART_SIZE : Z := 0x4000.
Definition GPT_HDR_REVISION : Z := 0x00010000.

(** "EFI PART" *)
Definition GPT_HDR_SIG : bytes := [69; 70; 73; 32; 80; 65; 82; 84].

(** The fields of the header the loader looks at. *)
Record gpt_hdr := mk_hdr {
  hdr_sig : bytes;
  hdr_revision : Z;
  hdr_size : Z;
  hdr_entries : Z;
}.

Definition hdr_of_bytes (b : bytes) : gpt_hdr :=
  mk_hdr (take 8 b) (field b 8 4) (field b 12 4) (field b 80 4).

Record gpt_ent := mk_ent {
  ent_type : bytes;
  ent_uuid : bytes;
  ent_lba_start : Z;
  ent_lba_end : Z;
  ent_attr : Z;
  ent_name : bytes;
}.

Definition sizeof_gpt_ent : nat := 128.

Definition ent_of_bytes (b : bytes) : gpt_ent :=
  mk_ent (take 16 b) (take 16 (drop 16 b)) (field b 32 8) (field b 40 8) (field b 48 8)
    (take 72 (drop 56 b)).

Record gpt_ent_part := mk_part { part : Z; gpt : gpt_ent }.

(** The entries in use; [gptes.num] is the length of the list. *)
Abbreviation gpt_table_t := (list gpt_ent_part).

Definition num (t : gpt_table_t) : Z := Z.of_nat (length t).

(** ** Parsing *)

(** [&entry[i]] of a table at the start of [buf]; [None] when it leaves it. *)
Definition entry_at (buf : bytes) (i : nat) : option bytes :=
  if decide ((i + 1) * sizeof_gpt_ent <= length buf)%nat
  then Some (take sizeof_gpt_ent (drop (i * sizeof_gpt_ent) buf)) else None.

(** [gptes.entry[gptes.num] = ...; gptes.num++] *)
Definition add_entry (t : gpt_table_t) (e : gpt_ent_part) : option gpt_table_t :=
  if num t <? MAX_GPT_ENTRY then Some (t ++ [e]) else None.

Fixpoint parse_loop (n : nat) (i : nat) (p : Z) (buf : bytes) (t : gpt_table_t) : option gpt_table_t :=
  match n with
  | O => Some t
  | S n =>
      b ← entry_at buf i;
      r ← memcmp (Some (replicate 16 0)) (Some b) 16;
      if r =? 0 then parse_loop n (i + 1) p buf t
      else t ← add_entry t (mk_part p (ent_of_bytes b)); parse_loop n (i + 1) p buf t
  end.

Definition parse_gpt_table (p : Z) (hdr : gpt_hdr) (entry : bytes) (t : gpt_table_t)
  : option gpt_table_t :=
  let n := if hdr_entries hdr <? u32 (MAX_GPT_ENTRY - num t) then hdr_entries hdr
           else u32 (MAX_GPT_ENTRY - num t) in
  parse_loop (Z.to_nat n) 0 p entry t.

Definition get_aligned (address page_size : Z) : Z :=
  u32 (u32 (address + page_size - 1) / page_size * page_size).

Definition hdr_corrupted (hdr : gpt_hdr) : option bool :=
  r ← memcmp (Some (hdr_sig hdr)) (Some GPT_HDR_SIG) 8;
  Some (negb (r =? 0) || negb (hdr_revision hdr =? GPT_HDR_REVISION)).

(** ** Names *)

(** The loop of [gpt_convert_efi_name_to_char]; [n] is the size of [ent_name]
    in bytes, [k] the rounds left, at most [n / 2] of them. *)
Fixpoint convert_loop (k : nat) (index : nat) (n : nat) (s name : bytes) : option bytes :=
  match k with
  | O => Some s
  | S k =>
      if (index * 2 <? n)%nat then
        c ← name !! (index * 2)%nat;
        s ← wr s index c;
        if c =? 0 then Some s else convert_loop k (index + 1) n s name
      else Some s
  end.

Definition gpt_convert_efi_name_to_char (s name : bytes) (n : nat) : option bytes :=
  s ← memset s 0 0 n; convert_loop n 0 n s name.

Section Gpt.
Context {D : Type} (g_flash : flash_adaptor D).
Implicit Types (fl : flash D) (t : gpt_table_t).

(** ** Loading *)

(** The general-purpose partitions from [i] on. *)
Fixpoint gpp_loop (n : nat) (i : Z) fl t (buff : bytes) : option (flash D * gpt_table_t) :=
  match n with
  | O => Some (fl, t)
  | S n =>
      let '(fl, r, got) := read_flash_from_part g_flash fl (4 + i) START_ADDR_GPT GPT_ALT_READ_SIZE in
      buff ← into buff got;
      if r =? 0 then
        let hdr := hdr_of_bytes (drop GPT_HEADER_OFFSET buff) in
        bad ← hdr_corrupted hdr;
        if (bad : bool) then gpp_loop n (i + 1) fl t buff
        else if MAX_HDR_SIZE <? hdr_size hdr then gpp_loop n (i + 1) fl t buff
        else t ← parse_gpt_table (4 + i) hdr (drop GPT_TABLE_OFFSET buff) t;
             gpp_loop n (i + 1) fl t buff
      else Some (fl, t)
  end.

(** The checks of [gpt_load_done] and what follows them. *)
Definition gpt_load_done fl t (buff : bytes) (hdr_off table_off : nat)
  : option (flash D * gpt_table_t * Z) :=
  let hdr := hdr_of_bytes (drop hdr_off buff) in
  bad ← hdr_corrupted hdr;
  if (bad : bool) then Some (fl, t, FLASH_OP_ERR)
  else if MAX_HDR_SIZE <? hdr_size hdr then Some (fl, t, FLASH_OP_ERR)
  else
    t ← parse_gpt_table 0 hdr (drop table_off buff) t;
    '(fl, t) ← gpp_loop 4 0 fl t buff;
    Some (fl, t, 0).

(** [buff] is the caller's buffer from its first 64-byte boundary on. *)
Definition get_gpt fl t (buff : bytes) : option (flash D * gpt_table_t * Z) :=
  let '(fl, r, got) := read_flash_from_part g_flash fl 0 START_ADDR_GPT GPT_PRI_READ_SIZE in
  buff ← into buff got;
  if negb (r =? 0) then
    let '(fl, cap) := get_flash_capacity g_flash fl in
    let '(fl, r, got) := read_flash_from_part g_flash fl 0 (i64 (cap - GPT_ALT_READ_SIZE)) GPT_ALT_READ_SIZE in
    buff ← into buff got;
    if negb (r =? 0) then Some (fl, t, FLASH_OP_ERR)
    else gpt_load_done fl t buff (Z.to_nat GPT_PART_SIZE) 0
  else gpt_load_done fl t buff GPT_HEADER_OFFSET GPT_TABLE_OFFSET.

Definition get_partition_info fl t (buff : bytes) : option (flash D * gpt_table_t * Z) :=
  '(fl, t, ret) ← get_gpt fl t buff;
  Some (fl, t, if negb (ret =? 0) then -1 else 0).

(** ** Lookup *)

Fixpoint find_loop (todo : gpt_table_t) (i : Z) fl (name ent_name_char : bytes) : option (flash D * Z) :=
  match todo with
  | [] => Some (fl, PARTITION_NOT_EXIST)
  | e :: todo =>
      ent_name_char ← gpt_convert_efi_name_to_char ent_name_char (ent_name (gpt e)) 72;
      n1 ← strnlen (Some name) MAX_ENT_NAME;
      n2 ← strnlen (Some ent_name_char) MAX_ENT_NAME;
      if negb (n1 =? n2)%nat then find_loop todo (i + 1) fl name ent_name_char
      else
        r ← memcmp (Some name) (Some ent_name_char) n1;
        if r =? 0 then Some ((switch_flash_part g_flash fl (part e)).1, i)
        else find_loop todo (i + 1) fl name ent_name_char
  end.

Definition find_partition fl t (name : bytes) : option (flash D * Z) :=
  find_loop t 0 fl name (replicate 72 0).

Definition fetch_partition_info t (n : Z) (gpte : gpt_ent) : gpt_ent * Z :=
  if (0 <=? n) && (n <? num t) then
    match t !! Z.to_nat n with
    | Some e => (gpt e, n)
    | None => (gpte, PARTITION_NOT_EXIST)
    end
  else (gpte, PARTITION_NOT_EXIST).

Definition get_gpt_entry_number t : Z := num t.

(** ** Images *)

Definition image_start (gpte : gpt_ent) (pt_offset : Z) : Z :=
  i64 (i64 (i64 (ent_lba_start gpte) * SDIO_BLK_SIZE) + pt_offset).

Definition image_end (gpte : gpt_ent) : Z := i64 (i64 (ent_lba_end gpte) * SDIO_BLK_SIZE).

Definition image_exceeds (gpte : gpt_ent) (pt_offset size : Z) : bool :=
  image_end gpte <? i64 (i64 (size + image_start gpte pt_offset) - SDIO_BLK_SIZE).

Definition read_image_from_offset fl (gpte : gpt_ent) (pt_offset size : Z) : flash D * Z * bytes :=
  if image_exceeds gpte pt_offset size then (fl, -1, [])
  else read_flash g_flash fl (image_start gpte pt_offset) size.

Definition read_image fl (gpte : gpt_ent) (image_size : Z) : flash D * Z * bytes :=
  read_image_from_offset fl gpte 0 image_size.

(** [gpte]: the uninitialised local. *)
Definition read_image_by_ptname fl t (module_name : bytes) (image_size : Z) (gpte : gpt_ent)
  : option (flash D * Z * bytes) :=
  '(fl, pt_index) ← find_partition fl t module_name;
  if pt_index <? 0 then Some (fl, -1, [])
  else let '(gpte, _) := fetch_partition_info t pt_index gpte in
       Some (read_image fl gpte image_size).

Definition write_image_to_offset fl (gpte : gpt_ent) (pt_offset size : Z) (image_buf : bytes)
  : flash D * Z :=
  if image_exceeds gpte pt_offset size then (fl, -1)
  else let '(fl, _) := switch_flash_part g_flash fl 0 in
       write_flash g_flash fl (image_start gpte pt_offset) size image_buf.

Definition write_image fl (gpte : gpt_ent) (image_size : Z) (image_buff : bytes) : flash D * Z :=
  write_image_to_offset fl gpte 0 image_size image_buff.

End Gpt.

(** ** Parsing appends the entries in use *)

(** An entry is in use when its type is not all zero. *)
Definition used (b : bytes) : bool := negb (forallb (fun c => c =? 0) (take 16 b)).

Lemma forallb_zero l : forallb (fun c => c =? 0) l = true <-> l = replicate (length l) 0.
Proof.
  induction l as [|c l IH]; [done|]. simpl. rewrite andb_true_iff, IH, Z.eqb_eq. split.
  - intros [-> Hl]. f_equal. exact Hl.
  - intros [= -> Hl]. by split.
Qed.

Lemma memcmp_unused b : (16 <= length b)%nat ->
  exists r, memcmp (Some (replicate 16 0)) (Some b) 16 = Some r /\ (r =? 0) = negb (used b).
Proof.
  intros Hl. unfold memcmp. destruct (memcmp_loop_eq 1 (replicate 16 0) b 16) as (r & -> & Hr);
    [rewrite length_replicate; lia|done|]. exists r. split; [done|].
  unfold used. rewrite negb_involutive. specialize (Hr ltac:(lia)).
  assert (Ht : length (take 16 b) = 16%nat) by len.
  apply eq_true_iff_eq. rewrite Z.eqb_eq, Hr, forallb_zero, Ht.
  change (take 16 (replicate 16 0)) with (replicate 16 0). by split.
Qed.

(** The raw entries of a table, and those in use. *)
Definition raw_entries (buf : bytes) (i n : nat) : list bytes := omap (entry_at buf) (seq i n).

Definition used_entries (p : Z) (l : list bytes) : gpt_table_t :=
  map (fun b => mk_part p (ent_of_bytes b)) (filter (fun b => used b = true) l).

Lemma entry_at_Some buf i : ((i + 1) * 128 <= length buf)%nat ->
  exists b, entry_at buf i = Some b /\ length b = 128%nat.
Proof.
  intros Hl. unfold entry_at, sizeof_gpt_ent. rewrite decide_True by done.
  eexists. split; [done|]. len.
Qed.

Lemma parse_loop_ok n i p buf t :
  ((i + n) * 128 <= length buf)%nat -> num t + Z.of_nat n <= MAX_GPT_ENTRY ->
  parse_loop n i p buf t = Some (t ++ used_entries p (raw_entries buf i n)).
Proof.
  revert i t; induction n as [|n IH]; intros i t Hb Hn; cbn [parse_loop].
  { by rewrite app_nil_r. }
  destruct (entry_at_Some buf i) as (b & Hbe & Hbl); [lia|]. unfold raw_entries. cbn [seq omap list_omap].
  rewrite Hbe. cbn [mbind option_bind]. destruct (memcmp_unused b) as (r & -> & Hr); [lia|].
  cbn [mbind option_bind]. rewrite Hr. unfold used_entries. replace (i + 1)%nat with (S i) by lia.
  destruct (used b) eqn:Eu; cbn [negb].
  - rewrite filter_cons_True by done. cbn [map]. unfold add_entry.
    rewrite (proj2 (Z.ltb_lt _ _)) by lia. cbn [mbind option_bind].
    rewrite IH; [|lia|unfold num in *; len]. by rewrite <- app_assoc.
  - rewrite filter_cons_False by (by rewrite Eu). apply IH; lia.
Qed.

Lemma parse_table_ok p hdr buf t :
  num t <= MAX_GPT_ENTRY -> 0 <= hdr_entries hdr -> (128 * 128 <= length buf)%nat ->
  let n := Z.to_nat (Z.min (hdr_entries hdr) (MAX_GPT_ENTRY - num t)) in
  parse_gpt_table p hdr buf t = Some (t ++ used_entries p (raw_entries buf 0 n)).
Proof.
  intros Ht Hh Hb n. unfold parse_gpt_table. unfold MAX_GPT_ENTRY in *.
  assert (H0 : 0 <= num t) by (unfold num; lia).
  rewrite u32_id by (unfold is_u32; lia).
  replace (if hdr_entries hdr <? 128 - num t then hdr_entries hdr else 128 - num t)
    with (Z.min (hdr_entries hdr) (128 - num t)) by (destruct (Z.ltb_spec (hdr_entries hdr) (128 - num t)); lia).
  fold n. apply parse_loop_ok; unfold MAX_GPT_ENTRY; lia.
Qed.

Lemma used_entries_length p l : (length (used_entries p l) <= length l)%nat.
Proof. unfold used_entries. rewrite List.length_map. apply length_filter. Qed.

Lemma raw_entries_length buf i n : (length (raw_entries buf i n) <= n)%nat.
Proof.
  unfold raw_entries. rewrite <- (length_seq n i) at 2. generalize (seq i n). intros l.
  induction l as [|x l IH]; [done|]. csimpl. destruct (entry_at buf x); csimpl; lia.
Qed.

Lemma table_num p t buf n :
  num t <= MAX_GPT_ENTRY ->
  num (t ++ used_entries p (raw_entries buf 0 (Z.to_nat (Z.min n (MAX_GPT_ENTRY - num t))))) <= MAX_GPT_ENTRY.
Proof.
  intros Ht. set (k := Z.to_nat _). pose proof (used_entries_length p (raw_entries buf 0 k)).
  pose proof (raw_entries_length buf 0 k). unfold num, MAX_GPT_ENTRY in *. len.
Qed.

(** ** Names *)

(** The characters of an entry's name: the low bytes of its UTF-16 units up to
    the first NUL, at most 36. *)
Fixpoint low_bytes (k : nat) (name : bytes) : bytes :=
  match k with
  | O => []
  | S k => match name with
           | c :: name' => if c =? 0 then [] else c :: low_bytes k (drop 1 name')
           | [] => []
           end
  end.

Definition ent_name_str (e : gpt_ent) : bytes := low_bytes 36 (ent_name e).

Lemma low_bytes_length k name : (length (low_bytes k name) <= k)%nat.
Proof.
  revert name; induction k as [|k IH]; intros name; simpl; [lia|].
  destruct name as [|c name]; simpl; [lia|]. destruct (c =? 0); simpl; [lia|]. specialize (IH (drop 1 name)). lia.
Qed.

Lemma low_bytes_no_nul k name : no_nul (low_bytes k name).
Proof.
  revert name; induction k as [|k IH]; intros name; simpl; [constructor|].
  destruct name as [|c name]; [constructor|]. destruct (Z.eqb_spec c 0); [constructor|].
  constructor; [done|apply IH].
Qed.

Lemma convert_loop_ok m : forall k index pre name,
  (index + m = 36)%nat -> (m <= k)%nat -> length pre = index -> length name = 72%nat ->
  convert_loop k index 72 (pre ++ replicate (72 - index) 0) name =
  Some ((pre ++ low_bytes m (drop (index * 2) name)) ++
        replicate (72 - (index + length (low_bytes m (drop (index * 2) name)))) 0).
Proof.
  induction m as [|m IH]; intros k index pre name Hi Hk Hp Hn.
  { simpl low_bytes. simpl length. rewrite app_nil_r, Nat.add_0_r. assert (index = 36%nat) as -> by lia. by destruct k. }
  destruct k as [|k]; [lia|]. cbn [convert_loop]. rewrite (proj2 (Nat.ltb_lt _ _)) by lia.
  destruct (lookup_lt_is_Some_2 name (index * 2)) as [c Hc]; [lia|]. rewrite Hc. cbn [mbind option_bind].
  rewrite (drop_S _ _ _ Hc). cbn [low_bytes]. rewrite drop_drop. replace (S (index * 2) + 1)%nat with ((index + 1) * 2)%nat by lia.
  rewrite wr_Some by len. cbn [mbind option_bind].
  assert (Hins : <[index:=c]> (pre ++ replicate (72 - index) 0) = (pre ++ [c]) ++ replicate (72 - (index + 1)) 0).
  { replace (72 - index)%nat with (S (72 - (index + 1))) by lia. rewrite insert_app_r_alt by lia.
    rewrite Hp, Nat.sub_diag. simpl. by rewrite <- app_assoc. }
  rewrite Hins. destruct (Z.eqb_spec c 0) as [->|Hc0].
  - simpl length. rewrite app_nil_r, Nat.add_0_r, <- app_assoc. simpl app. do 2 f_equal.
    by replace (72 - index)%nat with (S (72 - (index + 1))) by lia.
  - rewrite IH by len. f_equal. simpl length. rewrite <- !app_assoc. simpl app. do 3 f_equal. f_equal. lia.
Qed.

Lemma convert_ok s name : length s = 72%nat -> length name = 72%nat ->
  gpt_convert_efi_name_to_char s name 72 =
  Some (low_bytes 36 name ++ replicate (72 - length (low_bytes 36 name)) 0).
Proof.
  intros Hs Hn. unfold gpt_convert_efi_name_to_char. rewrite memset_spec by lia. cbn [mbind option_bind].
  change (u8 0) with 0. unfold splice. rewrite take_0, drop_ge, app_nil_r by len.
  change ([] ++ replicate 72 0) with ([] ++ replicate (72 - 0) 0).
  rewrite (convert_loop_ok 36 72 0 []) by (done || lia). done.
Qed.

(** ** Lookup finds the first entry of that name *)

Section Lookup.
Context {D : Type} (g_flash : flash_adaptor D).

Definition named (nm : bytes) (e : gpt_ent_part) : Prop := ent_name_str (gpt e) = nm.

#[export] Instance named_dec nm e : Decision (named nm e).
Proof. unfold named. apply _. Defined.

Definition find_result (fl : flash D) (r : option (nat * gpt_ent_part)) (i : Z) : flash D * Z :=
  match r with
  | Some (k, e) => ((switch_flash_part g_flash fl (part e)).1, i + Z.of_nat k)
  | None => (fl, PARTITION_NOT_EXIST)
  end.

Lemma find_loop_ok t : forall i fl nm rest buf,
  Forall (fun e => length (ent_name (gpt e)) = 72%nat) t ->
  no_nul nm -> (0 < length nm <= 36)%nat -> length buf = 72%nat ->
  find_loop g_flash t i fl (nm ++ 0 :: rest) buf = Some (find_result fl (list_find (named nm) t) i).
Proof.
  induction t as [|e t IH]; intros i fl nm rest buf Ht Hnm Hl Hb; [done|].
  apply Forall_cons_iff in Ht as [He Ht]. cbn [find_loop]. rewrite convert_ok by done.
  cbn [mbind option_bind]. set (str := low_bytes 36 (ent_name (gpt e))).
  pose proof (low_bytes_length 36 (ent_name (gpt e))) as Hsl. fold str in Hsl.
  pose proof (low_bytes_no_nul 36 (ent_name (gpt e))) as Hsn. fold str in Hsn.
  unfold strnlen, MAX_ENT_NAME. rewrite strnlen_loop_cstr, Nat.min_r by (done || lia). cbn [mbind option_bind].
  replace (72 - length str)%nat with (S (71 - length str)) by lia.
  change (replicate (S (71 - length str)) 0) with (0 :: replicate (71 - length str) 0).
  rewrite strnlen_loop_cstr, Nat.min_r by (done || lia). cbn [mbind option_bind].
  assert (Hrec : find_loop g_flash t (i + 1) fl (nm ++ 0 :: rest) (str ++ 0 :: replicate (71 - length str) 0) =
          Some (find_result fl (list_find (named nm) t) (i + 1))) by (apply IH; try done; len).
  assert (Hnext : ~ named nm e ->
          Some (find_result fl (list_find (named nm) t) (i + 1)) = Some (find_result fl (list_find (named nm) (e :: t)) i)).
  { intros Hne. simpl. rewrite decide_False by done. destruct (list_find (named nm) t) as [[k e']|]; simpl; [|done].
    do 2 f_equal. lia. }
  destruct (Nat.eqb_spec (length nm) (length str)) as [El|El]; cbn [negb].
  - unfold memcmp. destruct (memcmp_loop_eq 1 (nm ++ 0 :: rest) (str ++ 0 :: replicate (71 - length str) 0) (length nm))
      as (r & -> & Hr); [len..|]. specialize (Hr ltac:(lia)). cbn [mbind option_bind].
    rewrite take_app_length, El, take_app_length in Hr.
    destruct (Z.eqb_spec r 0) as [E|E].
    + simpl. rewrite decide_True by (symmetry; by apply Hr). simpl. by rewrite Z.add_0_r.
    + rewrite Hrec. apply Hnext. intros Heq. apply E, Hr. symmetry. exact Heq.
  - rewrite Hrec. apply Hnext. intros Heq. apply El. by rewrite <- Heq.
Qed.
End Lookup.

(** ** Loading is total *)

Section Loading.
Context {D : Type} (g_flash : flash_adaptor D).
Implicit Types (fl : flash D) (t : gpt_table_t).

(** A driver stores no more than it was asked for. *)
Hypothesis read_fits : forall f d start size d' r b,
  read g_flash = Some f -> f d start size = (d', r, b) -> (length b <= Z.to_nat size)%nat /\ is_bytes b.

Definition wf_table (t : gpt_table_t) : Prop :=
  num t <= MAX_GPT_ENTRY /\ Forall (fun e => length (ent_name (gpt e)) = 72%nat) t.

Definition buff_ok (buff : bytes) : Prop := GPT_PRI_READ_SIZE <= Z.of_nat (length buff) /\ is_bytes buff.

Lemma read_part_fits fl p start size fl' r b :
  read_flash_from_part g_flash fl p start size = (fl', r, b) -> (length b <= Z.to_nat size)%nat /\ is_bytes b.
Proof.
  unfold read_flash_from_part, read_flash. destruct (switch_flash_part g_flash fl p) as [fl1 pa].
  destruct (pa <? 0); [intros; simplify_eq; split; [simpl; lia|constructor]|].
  destruct (read g_flash) as [f|] eqn:E; [|intros; simplify_eq; split; [simpl; lia|constructor]].
  destruct (f (drv fl1) _ size) as [[d' r'] b'] eqn:Ef. intros. simplify_eq. by eapply read_fits.
Qed.

Lemma into_ok buff got n :
  buff_ok buff -> (length got <= Z.to_nat n)%nat -> is_bytes got -> n <= GPT_PRI_READ_SIZE ->
  exists buff', into buff got = Some buff' /\ buff_ok buff' /\ length buff' = length buff /\
                take (length got) buff' = got.
Proof.
  intros [Hl Hb] Hg Hgb Hn. unfold into. unfold GPT_PRI_READ_SIZE in *. rewrite decide_True by lia.
  eexists. split; [done|]. assert (length (splice buff 0 got) = length buff) as Hls by (apply length_splice; lia).
  split; [split; [unfold GPT_PRI_READ_SIZE; lia|by apply splice_bytes]|]. split; [done|].
  unfold splice. rewrite take_0. simpl app. by rewrite take_app_length.
Qed.

Lemma le_val_nonneg b : is_bytes b -> 0 <= le_val b.
Proof.
  intros Hb. induction b as [|c b IH]; simpl; [lia|]. inv_bytes. unfold is_u8 in *. specialize (IH ltac:(done)). lia.
Qed.

Lemma hdr_total b : (8 <= length b)%nat -> is_bytes b ->
  exists c, hdr_corrupted (hdr_of_bytes b) = Some c /\ 0 <= hdr_entries (hdr_of_bytes b) /\
    (c = false <-> take 8 b = GPT_HDR_SIG /\ field b 8 4 = GPT_HDR_REVISION).
Proof.
  intros Hl Hb. unfold hdr_corrupted, memcmp. cbn [hdr_of_bytes hdr_sig hdr_revision hdr_entries].
  destruct (memcmp_loop_eq 1 (take 8 b) GPT_HDR_SIG 8) as (r & -> & Hr); [len|simpl; lia|].
  cbn [mbind option_bind]. eexists. split; [done|]. split.
  - apply le_val_nonneg. by apply Forall_take, Forall_drop.
  - specialize (Hr ltac:(lia)). rewrite take_take, Nat.min_id in Hr. change (take 8 GPT_HDR_SIG) with GPT_HDR_SIG in Hr.
    rewrite orb_false_iff, !negb_false_iff, !Z.eqb_eq, Hr. done.
Qed.

Lemma parsed_names p l : Forall (fun b => length b = 128%nat) l ->
  Forall (fun e => length (ent_name (gpt e)) = 72%nat) (used_entries p l).
Proof.
  intros Hl. unfold used_entries. apply List.Forall_map. apply Forall_forall.
  intros b [_ Hb]%list_elem_of_In%list_elem_of_filter. eapply list_elem_of_In, Forall_forall in Hb; [|exact Hl]. simpl in *. len.
Qed.

Lemma raw_entries_size buf i n : Forall (fun b => length b = 128%nat) (raw_entries buf i n).
Proof.
  unfold raw_entries. generalize (seq i n). intros l. induction l as [|x l IH]; csimpl; [constructor|].
  destruct (entry_at buf x) as [b|] eqn:E; [|done]. constructor; [|done]. unfold entry_at in E.
  destruct (decide _) as [Hd|]; [|done]. simplify_eq. unfold sizeof_gpt_ent in *. len.
Qed.

(** One table, from any offset that leaves room for 128 entries. *)
Lemma parse_buff_ok p hdr t buff off :
  wf_table t -> buff_ok buff -> (off <= 1024)%nat -> 0 <= hdr_entries hdr ->
  exists more, parse_gpt_table p hdr (drop off buff) t = Some (t ++ more) /\ wf_table (t ++ more) /\
    more = used_entries p (raw_entries (drop off buff) 0
             (Z.to_nat (Z.min (hdr_entries hdr) (MAX_GPT_ENTRY - num t)))).
Proof.
  intros [Hn Hnames] [Hl Hb] Ho Hh. unfold GPT_PRI_READ_SIZE in Hl.
  eexists. rewrite parse_table_ok by (done || len). split; [done|]. split; [|done]. split.
  - by apply table_num.
  - apply Forall_app_2; [done|]. apply parsed_names, raw_entries_size.
Qed.

Lemma used_entries_part p l : Forall (fun e => part e = p) (used_entries p l).
Proof. unfold used_entries. apply List.Forall_map. apply List.Forall_forall. done. Qed.

Lemma gpp_loop_ok n : forall i fl t buff, 0 <= i -> wf_table t -> buff_ok buff ->
  exists fl' more, gpp_loop g_flash n i fl t buff = Some (fl', t ++ more) /\ wf_table (t ++ more) /\
    Forall (fun e => 4 <= part e) more.
Proof.
  induction n as [|n IH]; intros i fl t buff Hi Ht Hb.
  { exists fl, []. rewrite app_nil_r. done. }
  cbn [gpp_loop]. destruct (read_flash_from_part _ _ _ _ _) as [[fl1 r] got] eqn:Er.
  apply read_part_fits in Er as [Hg Hgb].
  destruct (into_ok buff got GPT_ALT_READ_SIZE Hb Hg Hgb) as (buff1 & -> & Hb1 & _ & _); [done|].
  cbn [mbind option_bind]. destruct (r =? 0); [|exists fl1, []; rewrite app_nil_r; done].
  pose proof Hb1 as [Hl1 Hbb1]. unfold GPT_PRI_READ_SIZE in Hl1.
  destruct (hdr_total (drop GPT_HEADER_OFFSET buff1)) as (c & -> & Hne & _);
    [unfold GPT_HEADER_OFFSET; len|by apply Forall_drop|].
  cbn [mbind option_bind]. destruct c; [apply IH; lia || done|].
  destruct (MAX_HDR_SIZE <? _); [apply IH; lia || done|].
  destruct (parse_buff_ok (4 + i) (hdr_of_bytes (drop GPT_HEADER_OFFSET buff1)) t buff1 GPT_TABLE_OFFSET Ht Hb1)
    as (more & -> & Ht' & Hm); [unfold GPT_TABLE_OFFSET; lia|done|]. cbn [mbind option_bind].
  destruct (IH (i + 1) fl1 (t ++ more) buff1) as (fl' & more' & -> & Hw & Hp); [lia|done..|].
  exists fl', (more ++ more'). rewrite app_assoc. split; [done|]. split; [done|]. apply Forall_app_2; [|done].
  rewrite Hm. eapply List.Forall_impl; [|apply used_entries_part]. intros e ->. lia.
Qed.

(** A header that the loader takes. *)
Definition hdr_good (hdr : bytes) : Prop := take 8 hdr = GPT_HDR_SIG /\ field hdr 8 4 = GPT_HDR_REVISION /\ field hdr 12 4 <= MAX_HDR_SIZE.

#[export] Instance hdr_good_dec hdr : Decision (hdr_good hdr).
Proof. unfold hdr_good. apply _. Defined.

(** What a table load gives: with a good header the entries in use of the table
    followed by those of the general-purpose partitions, otherwise an error that
    changes nothing. *)
Definition loaded (t : gpt_table_t) (hdr table : bytes) (t' : gpt_table_t) (r : Z) : Prop :=
  if decide (hdr_good hdr)
  then r = 0 /\ exists more, Forall (fun e => 4 <= part e) more /\
         t' = t ++ used_entries 0 (raw_entries table 0 (Z.to_nat (Z.min (field hdr 80 4) (MAX_GPT_ENTRY - num t)))) ++ more
  else r = FLASH_OP_ERR /\ t' = t.

Lemma load_done_ok fl t buff ho to :
  wf_table t -> buff_ok buff -> Z.of_nat ho <= 20000 -> (to <= 1024)%nat ->
  exists fl' t' r, gpt_load_done g_flash fl t buff ho to = Some (fl', t', r) /\ wf_table t' /\
    loaded t (drop ho buff) (drop to buff) t' r.
Proof.
  intros Ht Hb Hh Hto. pose proof Hb as [Hl Hbb]. unfold GPT_PRI_READ_SIZE in Hl. unfold gpt_load_done.
  destruct (hdr_total (drop ho buff)) as (c & -> & Hne & Hc); [len|by apply Forall_drop|].
  cbn [mbind option_bind]. unfold loaded. destruct c.
  { do 3 eexists. split; [done|]. split; [done|]. rewrite decide_False; [done|]. intros (H1 & H2 & _). by discriminate (proj2 Hc (conj H1 H2)). }
  destruct (Z.ltb_spec MAX_HDR_SIZE (hdr_size (hdr_of_bytes (drop ho buff)))) as [Hs|Hs].
  { do 3 eexists. split; [done|]. split; [done|]. rewrite decide_False; [done|]. intros (_ & _ & H3). cbn [hdr_size hdr_of_bytes] in Hs. lia. }
  destruct (parse_buff_ok 0 (hdr_of_bytes (drop ho buff)) t buff to Ht Hb Hto Hne) as (more & -> & Hw & Hm).
  cbn [mbind option_bind]. destruct (gpp_loop_ok 4 0 fl (t ++ more) buff) as (fl' & more' & -> & Hw' & Hp); [lia|done..|].
  cbn [mbind option_bind]. do 3 eexists. split; [done|]. split; [done|].
  destruct (proj1 Hc eq_refl) as [H1 H2]. rewrite decide_True by done. split; [done|]. exists more'. split; [done|].
  rewrite <- app_assoc. by rewrite Hm.
Qed.

Lemma loaded_result t hdr table t' r : loaded t hdr table t' r -> r = 0 \/ (r = FLASH_OP_ERR /\ t' = t).
Proof. unfold loaded. case_decide; [intros [-> _]; by left|by right]. Qed.

(** The outcome of a load by what the two reads gave. *)
Definition load_outcome fl t (buff : bytes) (t' : gpt_table_t) (r : Z) : Prop :=
  forall fl1 r1 got1, read_flash_from_part g_flash fl 0 START_ADDR_GPT GPT_PRI_READ_SIZE = (fl1, r1, got1) ->
    (r1 = 0 -> loaded t (drop GPT_HEADER_OFFSET (splice buff 0 got1)) (drop GPT_TABLE_OFFSET (splice buff 0 got1)) t' r) /\
    (r1 <> 0 -> forall fl2 cap fl3 r3 got3, get_flash_capacity g_flash fl1 = (fl2, cap) ->
       read_flash_from_part g_flash fl2 0 (i64 (cap - GPT_ALT_READ_SIZE)) GPT_ALT_READ_SIZE = (fl3, r3, got3) ->
       (r3 = 0 -> loaded t (drop (Z.to_nat GPT_PART_SIZE) (splice (splice buff 0 got1) 0 got3)) (splice (splice buff 0 got1) 0 got3) t' r) /\
       (r3 <> 0 -> r = FLASH_OP_ERR /\ t' = t)).

Lemma into_splice (buff got buff' : bytes) : into buff got = Some buff' -> buff' = splice buff 0 got.
Proof. unfold into. case_decide; [|done]. by intros [= <-]. Qed.

Lemma get_gpt_ok fl t buff :
  wf_table t -> buff_ok buff ->
  exists fl' t' r, get_gpt g_flash fl t buff = Some (fl', t', r) /\ wf_table t' /\
    (r = 0 \/ (r = FLASH_OP_ERR /\ t' = t)) /\ load_outcome fl t buff t' r.
Proof.
  intros Ht Hb. unfold get_gpt, load_outcome.
  destruct (read_flash_from_part _ _ _ _ _) as [[fl1 r1] got1] eqn:E1. apply read_part_fits in E1 as [Hg1 Hgb1].
  destruct (into_ok buff got1 GPT_PRI_READ_SIZE Hb Hg1 Hgb1) as (buff1 & Hi1 & Hb1 & _ & _); [done|].
  rewrite Hi1. apply into_splice in Hi1. cbn [mbind option_bind]. destruct (Z.eqb_spec r1 0) as [->|Hr1]; cbn [negb].
  - destruct (load_done_ok fl1 t buff1 GPT_HEADER_OFFSET GPT_TABLE_OFFSET Ht Hb1) as (fl' & t' & r & -> & Hw & Hld);
      [done|unfold GPT_TABLE_OFFSET; lia|].
    exists fl', t', r. do 2 (split; [done|]). split; [by eapply loaded_result|].
    intros ? ? ? [= <- <- <-]. split; [|done]. intros _. by rewrite <- Hi1.
  - destruct (get_flash_capacity g_flash fl1) as [fl2 cap] eqn:Ec.
    destruct (read_flash_from_part g_flash fl2 _ _ _) as [[fl3 r3] got3] eqn:E3. pose proof E3 as E3'. apply read_part_fits in E3' as [Hg3 Hgb3].
    destruct (into_ok buff1 got3 GPT_ALT_READ_SIZE Hb1 Hg3 Hgb3) as (buff3 & Hi3 & Hb3 & _ & _); [done|].
    rewrite Hi3. apply into_splice in Hi3. rewrite Hi1 in Hi3. cbn [mbind option_bind]. destruct (Z.eqb_spec r3 0) as [->|Hr3]; cbn [negb].
    + destruct (load_done_ok fl3 t buff3 (Z.to_nat GPT_PART_SIZE) 0 Ht Hb3) as (fl' & t' & r & -> & Hw & Hld);
        [unfold GPT_PART_SIZE; lia|lia|].
      exists fl', t', r. do 2 (split; [done|]). split; [by eapply loaded_result|]. intros ? ? ? [= <- <- <-]. split; [done|]. intros _ ? ? ? ? ? Hc H3. rewrite Ec in Hc. injection Hc as <- <-. rewrite E3 in H3. injection H3 as <- <- <-.
      split; [|done]. intros _. by rewrite <- Hi3.
    + do 3 eexists. split; [done|]. split; [done|]. split; [by right|]. intros ? ? ? [= <- <- <-]. split; [done|]. intros _ ? ? ? ? ? Hc H3. rewrite Ec in Hc. injection Hc as <- <-. rewrite E3 in H3. by injection H3 as <- <- <-.
Qed.
End Loading.

(** ** Images stay inside their partition *)

Record ent_ok (e : gpt_ent) : Prop := {
  eo_start : 0 <= ent_lba_start e < 2 ^ 53;
  eo_end : 0 <= ent_lba_end e < 2 ^ 53;
}.

Lemma exceeds_iff e off size :
  ent_ok e -> is_u32 off -> is_u32 size ->
  image_start e off = ent_lba_start e * 512 + off /\
  image_exceeds e off size = negb (ent_lba_start e * 512 + off + size <=? (ent_lba_end e + 1) * 512).
Proof.
  intros [Hs He] Ho Hz. unfold is_u32 in *.
  assert (Hst : image_start e off = ent_lba_start e * 512 + off).
  { unfold image_start, SDIO_BLK_SIZE. rewrite (i64_id (ent_lba_start e)), (i64_id (ent_lba_start e * 512)) by lia.
    apply i64_id. lia. }
  split; [done|]. unfold image_exceeds, image_end. rewrite Hst. unfold SDIO_BLK_SIZE.
  rewrite (i64_id (ent_lba_end e)), (i64_id (ent_lba_end e * 512)) by lia.
  rewrite (i64_id (size + _)) by lia. rewrite i64_id by lia.
  destruct (Z.leb_spec (ent_lba_start e * 512 + off + size) ((ent_lba_end e + 1) * 512)); simpl.
  - apply Z.ltb_ge. lia.
  - apply Z.ltb_lt. lia.
Qed.

(** ** Properties *)

(** A driver that remembers the hardware partition, with blank contents. *)
Definition blank_drv : flash_adaptor Z :=
  mk_adaptor Z 0 0 512 0 None (Some (fun d _ => (d, 2 ^ 33))) None None
    (Some (fun _ p => (p, 0))) None None None
    (Some (fun d _ size => (d, 0, replicate (Z.to_nat size) 0))) (Some (fun d _ _ _ => (d, 0))).

(** "bl_a" in UTF-16, zero padded. *)
Definition bl_a : gpt_ent :=
  mk_ent (replicate 16 1) (replicate 16 2) 100 199 0 ([98; 0; 108; 0; 95; 0; 97; 0] ++ replicate 64 0).

(** The range of an image in bytes, and whether it ends before the end of the last
    block ([ent_lba_end] is inclusive). *)
Definition range_start (e : gpt_ent) (off : Z) : Z := ent_lba_start e * 512 + off.
Definition inside (e : gpt_ent) (off size : Z) : Prop := range_start e off + size <= (ent_lba_end e + 1) * 512.

(** C7: the partition that is found by its name is the first of that name, and its
    hardware partition is selected.  For an entry with block numbers below 2^53 and any
    32-bit offset and size the checks accept exactly the ranges that end inside it; an
    accepted read is of that range of the hardware partition of the entry, an
    accepted write is to that range of hardware partition 0, which is the entry's
    only if the entry lies there; a refused request returns -1 and does not reach
    the flash. *)
Theorem image_inside_partition {D : Type} (g : flash_adaptor D) (fl : flash D) (t : gpt_table_t) (nm rest : bytes) (k : nat) (e : gpt_ent_part)
    (off size : Z) (buf : bytes) :
  Forall (fun e => length (ent_name (gpt e)) = 72%nat) t -> no_nul nm -> (0 < length nm <= 36)%nat ->
  list_find (named nm) t = Some (k, e) -> ent_ok (gpt e) -> is_u32 off -> is_u32 size ->
  exists fl', find_partition g fl t (nm ++ 0 :: rest) = Some (fl', Z.of_nat k) /\ fl' = (switch_flash_part g fl (part e)).1 /\
    (inside (gpt e) off size ->
       read_image_from_offset g fl' (gpt e) off size = read_flash g fl' (range_start (gpt e) off) size /\
       write_image_to_offset g fl' (gpt e) off size buf = write_flash g (switch_flash_part g fl' 0).1 (range_start (gpt e) off) size buf) /\
    (~ inside (gpt e) off size ->
       read_image_from_offset g fl' (gpt e) off size = (fl', -1, []) /\ write_image_to_offset g fl' (gpt e) off size buf = (fl', -1)).
Proof.
  intros Ht Hn Hl Hfind He Ho Hz. exists (switch_flash_part g fl (part e)).1. split; [|split; [done|]].
  { unfold find_partition. rewrite find_loop_ok by (done || reflexivity). unfold find_result. by rewrite Hfind. }
  destruct (exceeds_iff (gpt e) off size He Ho Hz) as [Hs Hx].
  unfold read_image_from_offset, write_image_to_offset. rewrite Hx, Hs. fold (range_start (gpt e) off). unfold inside. split; intros Hi.
  - rewrite (proj2 (Z.leb_le _ _)) by exact Hi. simpl. by destruct (switch_flash_part g _ 0).
  - rewrite (proj2 (Z.leb_gt _ _)) by lia. done.
Qed.

Lemma image_inside_partition_witness :
  read_image_from_offset blank_drv (mk_flash (5 : Z) 0) bl_a 512 50688 = (mk_flash (5 : Z) 0, 0, replicate (Z.to_nat 50688) 0) /\
  read_image_from_offset blank_drv (mk_flash (5 : Z) 0) bl_a 512 50689 = (mk_flash (5 : Z) 0, -1, []).
Proof.
  assert (H : forall size, is_u32 size -> exists fl', find_partition blank_drv (mk_flash (0 : Z) 0) [mk_part 5 bl_a] ([98; 108; 95; 97] ++ 0 :: []) = Some (fl', Z.of_nat 0) /\ fl' = mk_flash (5 : Z) 0 /\
    (inside bl_a 512 size -> read_image_from_offset blank_drv fl' bl_a 512 size = read_flash blank_drv fl' (range_start bl_a 512) size) /\
    (~ inside bl_a 512 size -> read_image_from_offset blank_drv fl' bl_a 512 size = (fl', -1, []))).
  { intros size Hsz. destruct (image_inside_partition blank_drv (mk_flash (0 : Z) 0) [mk_part 5 bl_a] [98; 108; 95; 97] [] 0 (mk_part 5 bl_a) 512 size []) as (fl' & F & E & In & Out);
      [by repeat constructor|by repeat constructor|simpl; lia|reflexivity|constructor; simpl; lia|unfold is_u32; lia|exact Hsz|].
    exists fl'. split; [exact F|]. split; [exact E|]. split; [intros Hi; exact (proj1 (In Hi))|intros Hi; exact (proj1 (Out Hi))]. }
  split.
  - destruct (H 50688) as (fl' & _ & -> & In & _); [unfold is_u32; lia|]. rewrite In by (unfold inside, range_start; simpl; lia). reflexivity.
  - destruct (H 50689) as (fl' & _ & -> & _ & Out); [unfold is_u32; lia|]. apply Out. unfold inside, range_start. simpl. lia.
Defined.

(** Find_partition returns the index of the first entry whose name is the
    one asked for and selects that entry's hardware partition; without such an
    entry it returns -1 and selects nothing. *)
Theorem find_partition_first {D : Type} (g : flash_adaptor D) (fl : flash D) (t : gpt_table_t)
    (nm rest : bytes) :
  Forall (fun e => length (ent_name (gpt e)) = 72%nat) t -> no_nul nm -> (0 < length nm <= 36)%nat ->
  find_partition g fl t (nm ++ 0 :: rest) =
  Some (match list_find (named nm) t with
        | Some (k, e) => ((switch_flash_part g fl (part e)).1, Z.of_nat k)
        | None => (fl, PARTITION_NOT_EXIST)
        end).
Proof.
  intros Ht Hn Hl. unfold find_partition. rewrite find_loop_ok by (done || reflexivity).
  unfold find_result. by destruct (list_find (named nm) t) as [[k e]|].
Qed.

Lemma find_partition_first_witness :
  find_partition blank_drv (mk_flash (0 : Z) 0) [mk_part 5 bl_a] [98; 108; 95; 97; 0] = Some (mk_flash (5 : Z) 0, 0).
Proof.
  refine (eq_trans (find_partition_first blank_drv (mk_flash (0 : Z) 0) [mk_part 5 bl_a]
                      [98; 108; 95; 97] [] _ _ _) _);
    [by repeat constructor|by repeat constructor|simpl; lia|reflexivity].
Defined.



(** Read_image_by_ptname.  The image comes from the first partition of that
    name, after its hardware partition has been selected, and only if it fits;
    an unknown name or an image that does not fit gives -1 without a read. *)
Theorem read_image_by_name {D : Type} (g : flash_adaptor D) (fl : flash D) (t : gpt_table_t)
    (nm rest : bytes) (size : Z) (junk : gpt_ent) :
  Forall (fun e => length (ent_name (gpt e)) = 72%nat /\ ent_ok (gpt e)) t ->
  no_nul nm -> (0 < length nm <= 36)%nat -> is_u32 size ->
  read_image_by_ptname g fl t (nm ++ 0 :: rest) size junk =
  Some (match list_find (named nm) t with
        | Some (_, e) =>
            let fl := (switch_flash_part g fl (part e)).1 in
            if ent_lba_start (gpt e) * 512 + size <=? (ent_lba_end (gpt e) + 1) * 512
            then read_flash g fl (ent_lba_start (gpt e) * 512) size else (fl, -1, [])
        | None => (fl, -1, [])
        end).
Proof.
  intros Ht Hn Hl Hz. unfold read_image_by_ptname, find_partition.
  rewrite find_loop_ok; try done; [|eapply List.Forall_impl; [|exact Ht]; by intros ? [? ?]].
  cbn [mbind option_bind]. unfold find_result. destruct (list_find (named nm) t) as [[k e]|] eqn:Ef; [|done].
  apply list_find_Some in Ef as (Hk & _ & _). rewrite (proj2 (Z.ltb_ge _ _)) by lia.
  apply lookup_lt_Some in Hk as Hlt. unfold fetch_partition_info, num.
  rewrite (proj2 (Z.leb_le _ _)), (proj2 (Z.ltb_lt _ _)) by lia. simpl andb. cbv iota.
  rewrite ?Z.add_0_l, Nat2Z.id, Hk.
  pose proof (Forall_lookup_1 _ _ _ _ Ht Hk) as [_ Hok].
  unfold read_image, read_image_from_offset. destruct (exceeds_iff (gpt e) 0 size Hok) as [Hs Hx];
    [unfold is_u32; lia|done|]. rewrite Hx, Hs, !Z.add_0_r. destruct (ent_lba_start (gpt e) * 512 + size <=? (ent_lba_end (gpt e) + 1) * 512); done.
Qed.

Lemma read_image_by_name_witness :
  read_image_by_ptname blank_drv (mk_flash (0 : Z) 0) [mk_part 5 bl_a] [98; 108; 95; 97; 0] 4 bl_a =
  Some (mk_flash (5 : Z) 0, 0, [0; 0; 0; 0]).
Proof.
  refine (eq_trans (read_image_by_name blank_drv (mk_flash (0 : Z) 0) [mk_part 5 bl_a]
                      [98; 108; 95; 97] [] 4 bl_a _ _ _ _) _);
    [repeat constructor; simpl; lia|by repeat constructor|simpl; lia|unfold is_u32; lia|reflexivity].
Defined.
