(* ===== verification/BootMode.v ===== *)
(** * Boot mode and A/B slot selection (boot/common/driver/misc)

    boot_mode.c decides how the device starts (normal, recovery, fastboot) from
    the commands stored in the devinfo and misc partitions and from the reboot
    register, and which of the two slots is booted from the metadata in misc;
    boot_devinfo.c keeps the boot_info record.  The build is the one with a GPT
    and the Synaptics boot control (CONFIG_GPT, not CONFIG_ANDROID_BOOTCTRL);
    the other compile-time switches are variables. *)

From S2P Require Import Prelude CString FlashAdaptor LoadGpt.

Definition BOOTMODE_NORMAL : Z := 0.
Definition BOOTMODE_RECOVERY : Z := 1.
Definition BOOTMODE_FASTBOOT : Z := 5.
Definition BOOTOPTION_QUIESCENT : Z := 1.
Definition REBOOT_MODE_NORMAL : Z := 0.
Definition REBOOT_MODE_BOOTLOADER : Z := 0x29012002.
Definition REBOOT_MODE_RECOVERY : Z := 0x11092017.
Definition REBOOT_MODE_DEVICE_CORRUPTED : Z := 0x12513991.
Definition REBOOT_MODE_RECOVERY_QUIESCENT : Z := 0x06012021.
Definition REBOOT_MODE_QUIESCENT : Z := 0x01112021.
Definition BOOTSEL_A : Z := 0.
Definition BOOTSEL_B : Z := 1.
Definition BOOTSEL_DEFAULT : Z := BOOTSEL_A.
Definition BOOTSEL_INVALID : Z := 0xff.
Definition SYNA_SPACE_OFFSET_IN_MISC : Z := 4096.
Definition BOOTCTRL_MAGIC : Z := 0x42424100.
Definition MISC_BOOT_CONTROL_VERSION : Z := 2.

(** C strings: "boot-recovery", "bootonce-bootloader", "boot-fastboot",
    "true", "done", "misc", "devinfo". *)
Definition kFtsBootcmdRecovery : bytes := [98; 111; 111; 116; 45; 114; 101; 99; 111; 118; 101; 114; 121; 0].
Definition kFtsBootcmdFastboot : bytes :=
  [98; 111; 111; 116; 111; 110; 99; 101; 45; 98; 111; 111; 116; 108; 111; 97; 100; 101; 114; 0].
Definition kBootcmdFastbootd : bytes := [98; 111; 111; 116; 45; 102; 97; 115; 116; 98; 111; 111; 116; 0].
Definition str_true : bytes := [116; 114; 117; 101; 0].
Definition str_done : bytes := [100; 111; 110; 101; 0].
Definition MISC_NAME : bytes := [109; 105; 115; 99; 0].
Definition DEVINFO_NAME : bytes := [100; 101; 118; 105; 110; 102; 111; 0].

(** ** Slot metadata *)

Record misc_slot_metadata := mk_slot {
  priority : Z;
  tries_remaining : Z;
  successful_boot : Z;
  verity_corrupted : Z;
  slot_reserved : Z;
}.

Record misc_boot_ctrl := mk_ctrl {
  magic : Z;
  version : Z;
  recovery_tries_remaining : Z;
  slot_a : misc_slot_metadata;
  slot_b : misc_slot_metadata;
  ctrl_reserved : bytes;
}.

(** [slot_info[n]] of the two-element array. *)
Definition slot_info (c : misc_boot_ctrl) (n : Z) : option misc_slot_metadata :=
  if n =? 0 then Some (slot_a c) else if n =? 1 then Some (slot_b c) else None.

Definition set_slot (c : misc_boot_ctrl) (n : Z) (s : misc_slot_metadata) : option misc_boot_ctrl :=
  if n =? 0 then Some (mk_ctrl (magic c) (version c) (recovery_tries_remaining c) s (slot_b c) (ctrl_reserved c))
  else if n =? 1 then Some (mk_ctrl (magic c) (version c) (recovery_tries_remaining c) (slot_a c) s (ctrl_reserved c))
  else None.

Definition slot_bytes (s : misc_slot_metadata) : bytes :=
  [priority s; tries_remaining s; successful_boot s; verity_corrupted s; slot_reserved s].

(** The 32 bytes of the struct. *)
Definition ctrl_bytes (c : misc_boot_ctrl) : bytes :=
  le32 (magic c) ++ [version c; recovery_tries_remaining c] ++ slot_bytes (slot_a c) ++
  slot_bytes (slot_b c) ++ ctrl_reserved c.

Definition slot_of_bytes (b : bytes) : misc_slot_metadata :=
  mk_slot (nth 0 b 0) (nth 1 b 0) (nth 2 b 0) (nth 3 b 0) (nth 4 b 0).

Definition ctrl_of_bytes (b : bytes) : misc_boot_ctrl :=
  mk_ctrl (le_val (take 4 b)) (nth 4 b 0) (nth 5 b 0) (slot_of_bytes (drop 6 b))
    (slot_of_bytes (drop 11 b)) (take 16 (drop 16 b)).

Definition sizeof_ctrl : nat := 32.

(** ** The record of boot_devinfo.c, by its bytes *)

Definition sizeof_boot_info : nat := 292.
Definition off_mac_addr : nat := 0.
Definition off_serialno : nat := 32.
Definition off_command : nat := 96.
Definition off_boot_option : nat := 160.
Definition off_debeg_level : nat := 192.

Section BootMode.
Context {D : Type} (g_flash : flash_adaptor D).

(** SOC_RAM_TS_ENABLE, SOC_RAM_PARAM_ENABLE, CONFIG_SM; what the boot ROM
    reports as the boot slot; an uninitialised local. *)
Context (soc_ram_ts soc_ram_param config_sm : bool).
Context (GenX_BCM_Get_Boot_Slot : Z).
Context (junk : gpt_ent).

(** The static variables of the two files, the flash and the partition table,
    the buffer at TEMP_BUF_ADDR and the reboot register. *)
Record state := mk_state {
  fl : flash D;
  tab : gpt_table_t;
  tmp : bytes;
  boot_info : bytes;
  Bootmode : Z;
  BootOptions : Z;
  devinfo_exist : bool;
  misc_exist : bool;
  BootAB_sel : Z;
  misc_bctrl : misc_boot_ctrl;
  reboot_reg : Z;
}.

Definition set_fl v s := mk_state v (tab s) (tmp s) (boot_info s) (Bootmode s) (BootOptions s)
  (devinfo_exist s) (misc_exist s) (BootAB_sel s) (misc_bctrl s) (reboot_reg s).
Definition set_tmp v s := mk_state (fl s) (tab s) v (boot_info s) (Bootmode s) (BootOptions s)
  (devinfo_exist s) (misc_exist s) (BootAB_sel s) (misc_bctrl s) (reboot_reg s).
Definition set_boot_info v s := mk_state (fl s) (tab s) (tmp s) v (Bootmode s) (BootOptions s)
  (devinfo_exist s) (misc_exist s) (BootAB_sel s) (misc_bctrl s) (reboot_reg s).
Definition set_Bootmode v s := mk_state (fl s) (tab s) (tmp s) (boot_info s) v (BootOptions s)
  (devinfo_exist s) (misc_exist s) (BootAB_sel s) (misc_bctrl s) (reboot_reg s).
Definition set_BootOptions v s := mk_state (fl s) (tab s) (tmp s) (boot_info s) (Bootmode s) v
  (devinfo_exist s) (misc_exist s) (BootAB_sel s) (misc_bctrl s) (reboot_reg s).
Definition set_devinfo v s := mk_state (fl s) (tab s) (tmp s) (boot_info s) (Bootmode s) (BootOptions s)
  v (misc_exist s) (BootAB_sel s) (misc_bctrl s) (reboot_reg s).
Definition set_misc v s := mk_state (fl s) (tab s) (tmp s) (boot_info s) (Bootmode s) (BootOptions s)
  (devinfo_exist s) v (BootAB_sel s) (misc_bctrl s) (reboot_reg s).
Definition set_sel v s := mk_state (fl s) (tab s) (tmp s) (boot_info s) (Bootmode s) (BootOptions s)
  (devinfo_exist s) (misc_exist s) v (misc_bctrl s) (reboot_reg s).
Definition set_ctrl v s := mk_state (fl s) (tab s) (tmp s) (boot_info s) (Bootmode s) (BootOptions s)
  (devinfo_exist s) (misc_exist s) (BootAB_sel s) v (reboot_reg s).
Definition set_reg v s := mk_state (fl s) (tab s) (tmp s) (boot_info s) (Bootmode s) (BootOptions s)
  (devinfo_exist s) (misc_exist s) (BootAB_sel s) (misc_bctrl s) v.

Implicit Types (s : state).

(** The calls of load_gpt.c and flash_adaptor.c, on this state. *)
Definition find s (name : bytes) : option (state * Z) :=
  '(f, n) ← find_partition g_flash (fl s) (tab s) name; Some (set_fl f s, n).

Definition fill s (f : flash D) (got : bytes) : option state :=
  b ← into (tmp s) got; Some (set_tmp b (set_fl f s)).

Definition get_image s (e : gpt_ent) (size : Z) : option (state * Z) :=
  let '(f, r, got) := read_image g_flash (fl s) e size in s ← fill s f got; Some (s, r).

(** The callers write from the start of the buffer at TEMP_BUF_ADDR. *)
Definition put_image s (e : gpt_ent) (size : Z) : state * Z :=
  let '(f, r) := write_image g_flash (fl s) e size (tmp s) in (set_fl f s, r).

Definition read_size : Z :=
  if 2048 <? page_size g_flash then page_size g_flash else 2048.

(** ** boot_devinfo.c *)

Definition read_boot_info_from_flash s : option state :=
  '(s, n) ← find s DEVINFO_NAME;
  let e := if 0 <=? n then (fetch_partition_info (tab s) n junk).1 else junk in
  '(s, r) ← get_image s e (Z.of_nat sizeof_boot_info);
  if negb (r =? 0) then Some s
  else b ← memcpy false (boot_info s) 0 (tmp s) sizeof_boot_info; Some (set_boot_info b s).

Definition write_boot_info_to_flash s : option state :=
  '(s, n) ← find s DEVINFO_NAME;
  let e := if 0 <=? n then (fetch_partition_info (tab s) n junk).1 else junk in
  b ← memcpy false (tmp s) 0 (boot_info s) sizeof_boot_info;
  Some (put_image (set_tmp b s) e (Z.of_nat sizeof_boot_info)).1.

Definition get_command_from_boot_info s : bytes := drop off_command (boot_info s).
Definition get_macaddr_from_boot_info s : bytes := drop off_mac_addr (boot_info s).
Definition get_serialno_from_boot_info s : bytes := drop off_serialno (boot_info s).
Definition get_bootoption_from_boot_info s : bytes := drop off_boot_option (boot_info s).
Definition get_debuglevel_from_boot_info s : Z := i32 (field (boot_info s) off_debeg_level 4).

Definition set_string s (off : nat) (str : bytes) : option state :=
  b ← strcpy (boot_info s) off str; write_boot_info_to_flash (set_boot_info b s).

Definition set_command_to_boot_info s (command : bytes) : option state := set_string s off_command command.
Definition set_macaddr_to_boot_info s (macaddr : bytes) : option state := set_string s off_mac_addr macaddr.
Definition set_serialno_to_boot_info s (serialno : bytes) : option state := set_string s off_serialno serialno.

Definition set_bootoption_to_boot_info s (bootoption : option bytes) : option state :=
  match bootoption with
  | Some o => set_string s off_boot_option o
  | None => b ← memset (boot_info s) off_boot_option 0 32; write_boot_info_to_flash (set_boot_info b s)
  end.

Definition set_debuglevel_to_boot_info s (level : Z) : option state :=
  b ← memcpy false (boot_info s) off_debeg_level (le32 level) 4;
  write_boot_info_to_flash (set_boot_info b s).

(** ** Commands *)

Definition is_command (str k : bytes) : option bool :=
  r ← strncmp str k (length k); Some (r =? 0).

Definition check_misc_command s : option (state * Z) :=
  '(s, n) ← find s MISC_NAME;
  if 0 <=? n then
    let e := (fetch_partition_info (tab s) n junk).1 in
    '(s, ret) ← get_image s e read_size;
    if negb (ret =? 0) then Some (s, BOOTMODE_NORMAL)
    else
      c1 ← is_command (tmp s) kFtsBootcmdRecovery;
      if (c1 : bool) then Some (s, BOOTMODE_RECOVERY) else
      c2 ← is_command (tmp s) kFtsBootcmdFastboot;
      if (c2 : bool) then Some (s, BOOTMODE_FASTBOOT) else
      c3 ← is_command (tmp s) kBootcmdFastbootd;
      if (c3 : bool) then Some (s, BOOTMODE_RECOVERY) else Some (s, BOOTMODE_NORMAL)
  else Some (s, BOOTMODE_NORMAL).

Definition set_misc_command s (command : bytes) : option state :=
  '(s, n) ← find s MISC_NAME;
  if 0 <=? n then
    let e := (fetch_partition_info (tab s) n junk).1 in
    '(s, ret) ← get_image s e read_size;
    if negb (ret =? 0) then Some s
    else
      r1 ← strcmp command kFtsBootcmdRecovery;
      r2 ← (if r1 =? 0 then Some 1 else strcmp command kFtsBootcmdFastboot);
      if (r1 =? 0) || (r2 =? 0) then
        b ← memset (tmp s) 0 0 32;
        b ← strcpy b 0 command;
        Some (put_image (set_tmp b s) e read_size).1
      else Some s
  else Some s.

Definition write_android_bootloader_message s (command : bytes) : option state :=
  if devinfo_exist s then s ← set_command_to_boot_info s command; set_misc_command s command
  else Some s.

(** ** Boot options *)

(** The local buffer [boot_option[256]], zero initialised. *)
Definition check_bootoptions s : option (state * Z) :=
  let o := replicate 256 0 in
  o ← (if devinfo_exist s then strcpy o 0 (get_bootoption_from_boot_info s) else Some o);
  o ← (if (soc_ram_ts || soc_ram_param) &&
          ((reboot_reg s =? REBOOT_MODE_RECOVERY_QUIESCENT) || (reboot_reg s =? REBOOT_MODE_QUIESCENT))
       then strcpy o 0 str_true else Some o);
  r ← strcmp o str_true;
  let v := if r =? 0 then Z.lor 0 BOOTOPTION_QUIESCENT else 0 in
  Some (set_BootOptions v s, v).

Definition set_bootoptions s (opt : Z) : option (state * Z) :=
  if opt =? BootOptions s then Some (s, BootOptions s)
  else
    let s := set_BootOptions 0 s in
    let quiet := negb (Z.land opt BOOTOPTION_QUIESCENT =? 0) in
    s ← (if devinfo_exist s then
           if quiet then s ← set_bootoption_to_boot_info s (Some str_true);
                         Some (set_BootOptions (Z.lor (BootOptions s) BOOTOPTION_QUIESCENT) s)
           else set_bootoption_to_boot_info s (Some [0])
         else Some s);
    let s := if soc_ram_ts || soc_ram_param then
               if quiet then set_BootOptions (Z.lor (BootOptions s) BOOTOPTION_QUIESCENT) s
               else set_reg REBOOT_MODE_NORMAL s
             else s in
    Some (s, BootOptions s).

Definition get_bootoptions s : Z := BootOptions s.

(** ** Boot mode *)

Definition boot_command s : option bytes :=
  let c := replicate 256 0 in
  if devinfo_exist s then strcpy c 0 (get_command_from_boot_info s) else Some c.

Definition check_bootloader_recovery_mode s : option (state * Z) :=
  c ← boot_command s;
  rec ← is_command c kFtsBootcmdRecovery;
  if (rec : bool) then Some (s, BOOTMODE_RECOVERY)
  else '(s, m) ← check_misc_command s;
       if m =? BOOTMODE_RECOVERY then Some (s, BOOTMODE_RECOVERY) else Some (s, BOOTMODE_NORMAL).

Definition check_android_bootcommand s : option (state * Z) :=
  c ← boot_command s;
  fast ← is_command c kFtsBootcmdFastboot;
  if (fast : bool) then Some (s, BOOTMODE_FASTBOOT) else
  rec ← is_command c kFtsBootcmdRecovery;
  if (rec : bool) then Some (s, BOOTMODE_RECOVERY) else
  '(s, m) ← check_misc_command s;
  if m =? BOOTMODE_RECOVERY then Some (s, BOOTMODE_RECOVERY) else
  '(s, m) ← check_misc_command s;
  if m =? BOOTMODE_FASTBOOT then Some (s, BOOTMODE_FASTBOOT) else
  if soc_ram_param then
    if reboot_reg s =? REBOOT_MODE_RECOVERY then Some (s, BOOTMODE_RECOVERY)
    else if reboot_reg s =? REBOOT_MODE_BOOTLOADER then Some (s, BOOTMODE_FASTBOOT)
    else Some (s, BOOTMODE_NORMAL)
  else Some (s, BOOTMODE_NORMAL).

(** The index 0 does not count: [if (num > 0)]. *)
Definition init_bootmode s : option (state * Z) :=
  '(s, n) ← find s DEVINFO_NAME;
  s ← (if 0 <? n then read_boot_info_from_flash (set_devinfo true s) else Some s);
  '(s, n) ← find s MISC_NAME;
  Some (if 0 <? n then set_misc true s else s, 0).

Definition check_bootmode s : option (state * Z) :=
  '(s, m) ← check_android_bootcommand s; Some (set_Bootmode m s, m).

Definition get_bootmode s : Z := Bootmode s.

Definition check_bootloader_bootmode s : option (state * Z) :=
  '(s, m) ← check_bootloader_recovery_mode s; Some (set_Bootmode m s, m).

Definition set_bootmode s (boot_mode : Z) : option (state * Z) :=
  if boot_mode =? BOOTMODE_RECOVERY then
    s ← write_android_bootloader_message s kFtsBootcmdRecovery;
    Some (set_Bootmode BOOTMODE_RECOVERY s, BOOTMODE_RECOVERY)
  else if boot_mode =? BOOTMODE_FASTBOOT then
    s ← write_android_bootloader_message s kFtsBootcmdFastboot;
    Some (set_Bootmode BOOTMODE_FASTBOOT s, BOOTMODE_FASTBOOT)
  else if boot_mode =? BOOTMODE_NORMAL then
    s ← write_android_bootloader_message s str_done;
    Some (set_Bootmode BOOTMODE_NORMAL s, BOOTMODE_NORMAL)
  else Some (set_Bootmode boot_mode s, boot_mode).

Definition get_debuglevel_from_flash s : Z :=
  if devinfo_exist s then get_debuglevel_from_boot_info s else 0.

Definition get_serialno_from_flash s (serilno_buf : option bytes) : option (option bytes) :=
  match serilno_buf with
  | Some b => if devinfo_exist s then b ← strcpy b 0 (get_serialno_from_boot_info s); Some (Some b)
              else Some (Some b)
  | None => Some None
  end.

Definition get_macaddr_from_flash s (mac_addr : option bytes) : option (option bytes) :=
  match mac_addr with
  | Some b => if devinfo_exist s then b ← strcpy b 0 (get_macaddr_from_boot_info s); Some (Some b)
              else Some (Some b)
  | None => Some None
  end.

Definition check_fastlogo_start s : Z :=
  if (negb (get_bootmode s =? BOOTMODE_RECOVERY) && negb (get_bootmode s =? BOOTMODE_NORMAL)) ||
     negb (Z.land (BootOptions s) BOOTOPTION_QUIESCENT =? 0)
  then 0 else 1.

(** ** A/B slots *)

Definition bootctrl_is_exist s : bool := devinfo_exist s || misc_exist s.

Definition bootctrl_is_valid s : bool :=
  bootctrl_is_exist s && (magic (misc_bctrl s) =? BOOTCTRL_MAGIC) &&
  (version (misc_bctrl s) =? MISC_BOOT_CONTROL_VERSION).

Definition bootable (sl : misc_slot_metadata) : bool :=
  (1 <? priority sl) && (verity_corrupted sl =? 0) &&
  (negb (successful_boot sl =? 0) || (0 <? tries_remaining sl)).

Definition slot_is_bootable s (slot_num : Z) : option bool :=
  if bootctrl_is_exist s then sl ← slot_info (misc_bctrl s) slot_num; Some (bootable sl)
  else Some false.

Definition bootab_slot_select s : Z :=
  let a := slot_a (misc_bctrl s) in
  let b := slot_b (misc_bctrl s) in
  if bootctrl_is_exist s then
    if negb (priority a =? priority b) then
      if 0 <? priority a - priority b then BOOTSEL_A else BOOTSEL_B
    else if negb (successful_boot a =? successful_boot b) then
      if 0 <? successful_boot a - successful_boot b then BOOTSEL_A else BOOTSEL_B
    else if negb (tries_remaining a =? tries_remaining b) then
      if 0 <? tries_remaining a - tries_remaining b then BOOTSEL_A else BOOTSEL_B
    else BOOTSEL_DEFAULT
  else BOOTSEL_DEFAULT.

(** The address is [ent_lba_start * 512 + offset], in 64 bits. *)
Definition ctrl_addr (e : gpt_ent) : Z := i64 (ent_lba_start e * 512 + SYNA_SPACE_OFFSET_IN_MISC).

Definition write_bootctrl_metadata s : option (state * Z) :=
  if bootctrl_is_exist s then
    '(s, n) ← find s MISC_NAME;
    let e := if 0 <=? n then (fetch_partition_info (tab s) n junk).1 else junk in
    b ← memcpy false (tmp s) 0 (ctrl_bytes (misc_bctrl s)) sizeof_ctrl;
    let s := set_tmp b s in
    let '(f, ret) := write_flash g_flash (fl s) (ctrl_addr e) (Z.of_nat sizeof_ctrl) (tmp s) in
    Some (set_fl f s, if negb (ret =? 0) then -1 else 0)
  else Some (s, 0).

Definition fresh_slot (p : Z) : misc_slot_metadata := mk_slot p 2 0 0 0.

(** The struct is cleared first: nothing else of the old metadata survives. *)
Definition init_bootctrl s (default_slot : Z) : option state :=
  if 1 <? default_slot then Some s
  else if bootctrl_is_exist s then
    let zero := mk_slot 0 0 0 0 0 in
    let c := mk_ctrl BOOTCTRL_MAGIC MISC_BOOT_CONTROL_VERSION 0 zero zero (replicate 16 0) in
    c ← set_slot c default_slot (fresh_slot 8);
    c ← set_slot c (1 - default_slot) (fresh_slot 3);
    '(s, _) ← write_bootctrl_metadata (set_ctrl c s);
    Some s
  else Some s.

Definition check_dmverity_device_corrupted s (bootab_sel : Z) : option (state * Z) :=
  if config_sm && (reboot_reg s =? REBOOT_MODE_DEVICE_CORRUPTED) then
    let final := if bootab_sel =? BOOTSEL_A then BOOTSEL_B else BOOTSEL_A in
    ok ← slot_is_bootable s final;
    if (ok : bool) then
      s ← (if devinfo_exist s then
             sl ← slot_info (misc_bctrl s) bootab_sel;
             c ← set_slot (misc_bctrl s) bootab_sel
                   (mk_slot (priority sl) (tries_remaining sl) (successful_boot sl) 1 (slot_reserved sl));
             '(s, _) ← write_bootctrl_metadata (set_ctrl c s);
             Some s
           else Some s);
      Some (set_reg REBOOT_MODE_NORMAL s, final)
    else Some (s, BOOTSEL_INVALID)
  else Some (s, bootab_sel).

Definition check_android_abcommand s : option (state * Z) :=
  if bootctrl_is_valid s then
    a ← slot_is_bootable s 0;
    b ← slot_is_bootable s 1;
    if (a : bool) && (b : bool) then check_dmverity_device_corrupted s (bootab_slot_select s)
    else if (a : bool) then check_dmverity_device_corrupted s BOOTSEL_A
    else if (b : bool) then check_dmverity_device_corrupted s BOOTSEL_B
    else Some (s, BOOTSEL_INVALID)
  else if bootctrl_is_exist s then
    s ← init_bootctrl s BOOTSEL_DEFAULT;
    check_dmverity_device_corrupted s BOOTSEL_DEFAULT
  else check_dmverity_device_corrupted s GenX_BCM_Get_Boot_Slot.

(** A failed read is reported and the buffer used all the same. *)
Definition init_abmode s : option state :=
  if bootctrl_is_exist s then
    '(s, n) ← find s MISC_NAME;
    let e := if 0 <=? n then (fetch_partition_info (tab s) n junk).1 else junk in
    let '(f, _, got) := read_flash g_flash (fl s) (ctrl_addr e) read_size in
    s ← fill s f got;
    if decide (sizeof_ctrl <= length (tmp s))%nat
    then Some (set_ctrl (ctrl_of_bytes (take sizeof_ctrl (tmp s))) s) else None
  else Some s.

Definition force_init_abmode s : option state :=
  s ← init_bootctrl s BOOTSEL_DEFAULT; init_abmode s.

Definition check_abmode s : option (state * Z) :=
  '(s, sel) ← check_android_abcommand s; Some (set_sel sel s, sel).

Definition get_abmode s : Z := BootAB_sel s.

Definition try_abmode s (abmode_sel : Z) : option (state * Z) :=
  if bootctrl_is_exist s then
    if bootctrl_is_valid s then
      sl ← slot_info (misc_bctrl s) abmode_sel;
      if 0 <? tries_remaining sl then
        c ← set_slot (misc_bctrl s) abmode_sel
              (mk_slot (priority sl) (tries_remaining sl - 1) (successful_boot sl)
                 (verity_corrupted sl) (slot_reserved sl));
        '(s, _) ← write_bootctrl_metadata (set_ctrl c s); Some (s, 0)
      else
        c ← set_slot (misc_bctrl s) abmode_sel
              (mk_slot (u8 (priority sl - 2)) (tries_remaining sl) (successful_boot sl)
                 (verity_corrupted sl) (slot_reserved sl));
        '(s, _) ← write_bootctrl_metadata (set_ctrl c s); Some (s, -1)
    else Some (s, 1)
  else Some (s, -1).

Definition check_boot_success s : option bool :=
  if negb (BootAB_sel s =? BOOTSEL_A) && negb (BootAB_sel s =? BOOTSEL_B) then Some false
  else if devinfo_exist s then
    sl ← slot_info (misc_bctrl s) (BootAB_sel s); Some (negb (successful_boot sl =? 0))
  else Some false.

End BootMode.

Arguments state : clear implicits.

(** ** A/B selection *)

Section Slots.
Context {D : Type} (g_flash : flash_adaptor D).
Context (config_sm : bool) (GenX_BCM_Get_Boot_Slot : Z) (junk : gpt_ent).
Implicit Types (s : state D).

(** The table holds parsed entries and the buffer is large enough. *)
Record wf_state (s : state D) : Prop := {
  ws_names : Forall (fun e => length (ent_name (gpt e)) = 72%nat) (tab s);
  ws_tmp : (512 <= length (tmp s))%nat;
  ws_reserved : length (ctrl_reserved (misc_bctrl s)) = 16%nat;
}.

(** What a call that only works on the flash leaves alone. *)
Record only_flash (s s' : state D) : Prop := {
  of_tab : tab s' = tab s;
  of_tmp : length (tmp s') = length (tmp s);
  of_info : boot_info s' = boot_info s;
  of_mode : Bootmode s' = Bootmode s;
  of_opts : BootOptions s' = BootOptions s;
  of_devinfo : devinfo_exist s' = devinfo_exist s;
  of_misc : misc_exist s' = misc_exist s;
  of_sel : BootAB_sel s' = BootAB_sel s;
  of_ctrl : misc_bctrl s' = misc_bctrl s;
  of_reg : reboot_reg s' = reboot_reg s;
}.

Lemma only_flash_refl s : only_flash s s.
Proof. by constructor. Qed.

Lemma only_flash_wf s s' : only_flash s s' -> wf_state s -> wf_state s'.
Proof. intros [] []. constructor; congruence || lia. Qed.

Lemma find_misc s : wf_state s ->
  exists f n, find g_flash s MISC_NAME = Some (set_fl f s, n).
Proof.
  intros [Hn _ _]. unfold find, find_partition.
  change MISC_NAME with ([109; 105; 115; 99] ++ 0 :: []).
  rewrite find_loop_ok; [|done|repeat constructor; done|simpl; lia|by rewrite length_replicate].
  cbn [mbind option_bind]. destruct (find_result _ _ _ _) as [f n]. by exists f, n.
Qed.

Lemma length_ctrl_bytes c : length (ctrl_reserved c) = 16%nat -> length (ctrl_bytes c) = 32%nat.
Proof. intros Hr. unfold ctrl_bytes, slot_bytes, le32. simpl. lia. Qed.

Lemma write_ctrl_ok s : wf_state s ->
  exists s' r, write_bootctrl_metadata g_flash junk s = Some (s', r) /\ only_flash s s' /\ (r = 0 \/ r = -1).
Proof.
  intros Hw. unfold write_bootctrl_metadata. destruct (bootctrl_is_exist s); [|by exists s, 0; auto using only_flash_refl].
  destruct (find_misc s Hw) as (f & n & ->). cbn [mbind option_bind].
  pose proof Hw as [_ Ht Hr]. pose proof (length_ctrl_bytes _ Hr) as Hl.
  rewrite memcpy_spec by (simpl; unfold sizeof_ctrl; lia). cbn [mbind option_bind].
  destruct (write_flash _ _ _ _ _) as [f' ret]. do 2 eexists. split; [done|]. split.
  - constructor; try done. cbn [tmp set_tmp set_fl]. apply length_splice. unfold sizeof_ctrl. len.
  - destruct (ret =? 0); auto.
Qed.

(** The order of bootab_slot_select: priority, success, tries. *)
Definition better (a b : misc_slot_metadata) : Prop :=
  priority b < priority a \/
  (priority a = priority b /\
   (successful_boot b < successful_boot a \/
    (successful_boot a = successful_boot b /\ tries_remaining b < tries_remaining a))).

Lemma select_best s : bootctrl_is_exist s = true ->
  (bootab_slot_select s = 0 /\ ~ better (slot_b (misc_bctrl s)) (slot_a (misc_bctrl s))) \/
  (bootab_slot_select s = 1 /\ ~ better (slot_a (misc_bctrl s)) (slot_b (misc_bctrl s))).
Proof.
  intros He. unfold bootab_slot_select, better. rewrite He.
  set (a := slot_a (misc_bctrl s)). set (b := slot_b (misc_bctrl s)).
  destruct (Z.eqb_spec (priority a) (priority b)); simpl;
    [destruct (Z.eqb_spec (successful_boot a) (successful_boot b)); simpl;
     [destruct (Z.eqb_spec (tries_remaining a) (tries_remaining b)); simpl|]|];
    try (left; split; [done|lia]);
    match goal with |- context [0 <? ?x] => destruct (Z.ltb_spec 0 x) end;
    (left; split; [done|lia]) || (right; split; [done|lia]).
Qed.

(** [sel] is a bootable slot and no bootable slot is better. *)
Definition best_slot (c : misc_boot_ctrl) (sel : Z) : Prop :=
  exists sl, slot_info c sel = Some sl /\ bootable sl = true /\
    forall n o, slot_info c n = Some o -> bootable o = true -> ~ better o sl.

Lemma better_irrefl a : ~ better a a.
Proof. unfold better. lia. Qed.

Lemma best_intro c sel sl other :
  (sel = 0 /\ sl = slot_a c /\ other = slot_b c) \/ (sel = 1 /\ sl = slot_b c /\ other = slot_a c) ->
  bootable sl = true -> (bootable other = true -> ~ better other sl) -> best_slot c sel.
Proof.
  intros Hs Hb Ho. exists sl. split; [by destruct Hs as [(-> & -> & _)|(-> & -> & _)]|]. split; [done|].
  intros n o Hn Hbo. unfold slot_info in Hn. destruct (n =? 0); [|destruct (n =? 1); [|done]]; simplify_eq;
    destruct Hs as [(_ & -> & ->)|(_ & -> & ->)]; auto using better_irrefl.
Qed.

Lemma valid_exist s : bootctrl_is_valid s = true -> bootctrl_is_exist s = true.
Proof. unfold bootctrl_is_valid. by destruct (bootctrl_is_exist s). Qed.

(** What is selected before the dm-verity check. *)
Lemma choose_slot s : bootctrl_is_valid s = true ->
  (bootable (slot_a (misc_bctrl s)) = false /\ bootable (slot_b (misc_bctrl s)) = false /\
   check_android_abcommand g_flash config_sm GenX_BCM_Get_Boot_Slot junk s = Some (s, BOOTSEL_INVALID)) \/
  exists sel, best_slot (misc_bctrl s) sel /\
    check_android_abcommand g_flash config_sm GenX_BCM_Get_Boot_Slot junk s =
    check_dmverity_device_corrupted g_flash config_sm junk s sel.
Proof.
  intros Hv. pose proof (valid_exist s Hv) as He. unfold check_android_abcommand. rewrite Hv.
  unfold slot_is_bootable. rewrite He. change (slot_info (misc_bctrl s) 0) with (Some (slot_a (misc_bctrl s))).
  change (slot_info (misc_bctrl s) 1) with (Some (slot_b (misc_bctrl s))). cbn [mbind option_bind].
  destruct (bootable (slot_a (misc_bctrl s))) eqn:Ea, (bootable (slot_b (misc_bctrl s))) eqn:Eb;
    cbn [andb]; [right|right|right|left; auto].
  - destruct (select_best s He) as [[-> Hb]|[-> Hb]]; [exists 0|exists 1]; (split; [|reflexivity]).
    + apply (best_intro _ 0 (slot_a (misc_bctrl s)) (slot_b (misc_bctrl s))); auto.
    + apply (best_intro _ 1 (slot_b (misc_bctrl s)) (slot_a (misc_bctrl s))); auto.
  - exists BOOTSEL_A. split; [|done].
    apply (best_intro _ 0 (slot_a (misc_bctrl s)) (slot_b (misc_bctrl s))); auto. congruence.
  - exists BOOTSEL_B. split; [|done].
    apply (best_intro _ 1 (slot_b (misc_bctrl s)) (slot_a (misc_bctrl s))); auto. congruence.
Qed.

Lemma no_verity s sel :
  config_sm && (reboot_reg s =? REBOOT_MODE_DEVICE_CORRUPTED) = false ->
  check_dmverity_device_corrupted g_flash config_sm junk s sel = Some (s, sel).
Proof. intros Hr. unfold check_dmverity_device_corrupted. by rewrite Hr. Qed.

Lemma best_range c sel : best_slot c sel -> sel = 0 \/ sel = 1.
Proof.
  intros (sl & Hs & _). unfold slot_info in Hs.
  destruct (Z.eqb_spec sel 0); [by left|]. destruct (Z.eqb_spec sel 1); [by right|done].
Qed.

(** ** Trying a slot *)

Definition slot_weight (sl : misc_slot_metadata) : Z := priority sl + tries_remaining sl.
Definition weight (c : misc_boot_ctrl) : Z := slot_weight (slot_a c) + slot_weight (slot_b c).

Definition ctrl_ok (c : misc_boot_ctrl) : Prop :=
  is_u8 (priority (slot_a c)) /\ is_u8 (tries_remaining (slot_a c)) /\
  is_u8 (priority (slot_b c)) /\ is_u8 (tries_remaining (slot_b c)).

Lemma set_slot_ok c n sl sl' : slot_info c n = Some sl ->
  exists c', set_slot c n sl' = Some c' /\ magic c' = magic c /\ version c' = version c /\
    ctrl_reserved c' = ctrl_reserved c /\ weight c' = weight c - slot_weight sl + slot_weight sl' /\
    slot_info c' n = Some sl' /\
    (ctrl_ok c -> is_u8 (priority sl') -> is_u8 (tries_remaining sl') -> ctrl_ok c').
Proof.
  unfold slot_info, set_slot. intros Hs.
  destruct (n =? 0); [|destruct (n =? 1); [|done]]; simplify_eq; eexists; (split; [done|]);
    do 3 (split; [done|]); (split; [unfold weight; simpl; lia|]); (split; [done|]);
    intros (? & ? & ? & ?) ? ?; unfold ctrl_ok; simpl; auto.
Qed.

Lemma check_abmode_cases s :
  bootctrl_is_valid s = true -> config_sm && (reboot_reg s =? REBOOT_MODE_DEVICE_CORRUPTED) = false ->
  exists sel, check_abmode g_flash config_sm GenX_BCM_Get_Boot_Slot junk s = Some (set_sel sel s, sel) /\
    ((sel = BOOTSEL_INVALID /\ bootable (slot_a (misc_bctrl s)) = false /\ bootable (slot_b (misc_bctrl s)) = false) \/
     best_slot (misc_bctrl s) sel).
Proof.
  intros Hv Hr. unfold check_abmode. destruct (choose_slot s Hv) as [(Ha & Hb & ->)|(sel & Hbest & ->)].
  - eexists. split; [done|]. auto.
  - rewrite no_verity by done. eexists. split; [done|]. auto.
Qed.

End Slots.

(** ** Properties *)

Definition sample_ctrl : misc_boot_ctrl :=
  mk_ctrl BOOTCTRL_MAGIC 2 0 (mk_slot 8 2 0 0 0) (mk_slot 3 0 1 0 0) (replicate 16 0).

Definition sample_state : state Z :=
  mk_state (mk_flash (0 : Z) 0) [] (replicate 512 0) (replicate 292 0) 0 0 true true 0 sample_ctrl 0.

Lemma sample_wf : wf_state sample_state.
Proof. constructor; [apply Forall_nil_2|apply Nat.leb_le; reflexivity|reflexivity]. Qed.

(** Slot selection.  With valid metadata and no dm-verity report, check_abmode
    changes nothing but its own record of the choice and returns a bootable
    slot such that no bootable slot is better (by priority, then success, then
    tries left); it returns BOOTSEL_INVALID exactly when no slot is bootable. *)
Theorem check_abmode_best {D : Type} (g : flash_adaptor D) (sm : bool) (rom : Z) (junk : gpt_ent)
    (s : state D) :
  bootctrl_is_valid s = true -> sm && (reboot_reg s =? REBOOT_MODE_DEVICE_CORRUPTED) = false ->
  exists sel, check_abmode g sm rom junk s = Some (set_sel sel s, sel) /\
    ((sel = BOOTSEL_INVALID /\ bootable (slot_a (misc_bctrl s)) = false /\
      bootable (slot_b (misc_bctrl s)) = false) \/
     best_slot (misc_bctrl s) sel).
Proof. apply check_abmode_cases. Qed.

Lemma check_abmode_best_witness :
  check_abmode blank_drv true 0 bl_a sample_state = Some (set_sel 0 sample_state, 0) /\
  best_slot sample_ctrl 0.
Proof.
  destruct (check_abmode_best blank_drv true 0 bl_a sample_state) as (sel & H1 & [(_ & H2 & _)|H2]);
    [reflexivity|reflexivity|discriminate H2|].
  change (Some (set_sel 0 sample_state, 0) = Some (set_sel sel sample_state, sel)) in H1.
  assert (0 = sel) as <- by congruence. split; [reflexivity|exact H2].
Defined.

(** Dm-verity.  When the kernel has reported the selected slot as corrupted
    through the reboot register, check_abmode switches to the other slot if that
    one is bootable: the report is acknowledged and, with a devinfo partition,
    the slot is marked so that it is not bootable any more; if the other slot is
    not bootable it returns BOOTSEL_INVALID and changes nothing. *)
Theorem check_abmode_verity {D : Type} (g : flash_adaptor D) (rom : Z) (junk : gpt_ent) (s : state D) :
  wf_state s -> bootctrl_is_valid s = true -> reboot_reg s = REBOOT_MODE_DEVICE_CORRUPTED ->
  devinfo_exist s = true ->
  bootable (slot_a (misc_bctrl s)) = true \/ bootable (slot_b (misc_bctrl s)) = true ->
  exists sel other sl, best_slot (misc_bctrl s) sel /\ sel + other = 1 /\
    slot_info (misc_bctrl s) other = Some sl /\
    (bootable sl = true ->
     exists s' bad, check_abmode g true rom junk s = Some (s', other) /\ reboot_reg s' = REBOOT_MODE_NORMAL /\
       slot_info (misc_bctrl s') sel = Some bad /\ bootable bad = false /\
       slot_info (misc_bctrl s') other = Some sl) /\
    (bootable sl = false -> check_abmode g true rom junk s = Some (set_sel BOOTSEL_INVALID s, BOOTSEL_INVALID)).
Proof.
  intros Hw Hv Hr Hd Hb. destruct (choose_slot g true rom junk s Hv) as [(Ha & Hb' & _)|(sel & Hbest & Hc)].
  { destruct Hb; congruence. }
  pose proof (best_range _ _ Hbest) as Hsel. pose proof Hbest as (bs & Hbs & _ & _).
  assert (Hoth : exists other sl, sel + other = 1 /\ slot_info (misc_bctrl s) other = Some sl /\
    (if sel =? BOOTSEL_A then BOOTSEL_B else BOOTSEL_A) = other).
  { destruct Hsel as [-> | ->]; [exists 1|exists 0]; eexists; (split; [done|split; reflexivity]). }
  destruct Hoth as (other & sl & Hsum & Hsl & Hfin). exists sel, other, sl. do 3 (split; [done|]).
  unfold check_abmode. rewrite Hc. unfold check_dmverity_device_corrupted. rewrite Hr, Z.eqb_refl, Hfin. cbn [andb].
  unfold slot_is_bootable. rewrite (valid_exist s Hv), Hsl. cbn [mbind option_bind]. split; intros Hbo; rewrite Hbo.
  - rewrite Hd, Hbs. cbn [mbind option_bind].
    destruct (set_slot_ok (misc_bctrl s) sel bs (mk_slot (priority bs) (tries_remaining bs) (successful_boot bs) 1
                (slot_reserved bs)) Hbs) as (c & Hsc & _ & _ & Hres & _ & Hsi & _). rewrite Hsc. cbn [mbind option_bind].
    assert (Hw' : wf_state (set_ctrl c s)) by (destruct Hw; constructor; simpl; congruence || done).
    destruct (write_ctrl_ok g junk (set_ctrl c s) Hw') as (s1 & r & -> & Hof & _). cbn [mbind option_bind].
    do 2 eexists. split; [done|]. split; [done|]. cbn [misc_bctrl set_sel set_reg]. rewrite (of_ctrl _ _ Hof).
    cbn [misc_bctrl set_ctrl]. split; [exact Hsi|]. split; [unfold bootable; simpl; by rewrite andb_false_r|].
    unfold set_slot in Hsc. destruct Hsel as [-> | ->]; [assert (other = 1) as -> by lia|assert (other = 0) as -> by lia];
      simpl in Hsc; simplify_eq; done.
  - done.
Qed.

Lemma check_abmode_verity_witness :
  exists s' bad,
    check_abmode blank_drv true 0 bl_a (set_reg REBOOT_MODE_DEVICE_CORRUPTED sample_state) = Some (s', 1) /\
    slot_info (misc_bctrl s') 0 = Some bad /\ bootable bad = false.
Proof.
  destruct (check_abmode_verity blank_drv 0 bl_a (set_reg REBOOT_MODE_DEVICE_CORRUPTED sample_state))
    as (sel & other & sl & Hbest & Hsum & Hsl & H & _);
    [destruct sample_wf; by constructor|reflexivity|reflexivity|reflexivity|left; reflexivity|].
  assert (sel = 0) as ->.
  { destruct (best_range _ _ Hbest) as [->|E]; [reflexivity|]. exfalso. subst sel.
    destruct Hbest as (x & Hx & _ & Hn). injection Hx as <-.
    apply (Hn 0 (mk_slot 8 2 0 0 0) eq_refl eq_refl). left. simpl. lia. }
  assert (other = 1) as -> by lia. injection Hsl as <-.
  destruct (H eq_refl) as (s' & bad & H1 & _ & H2 & H3 & _).
  exists s', bad. split; [exact H1|split; [exact H2|exact H3]].
Defined.
