(* ===== verification/BootPersist.v ===== *)
(** * Boot mode and slot metadata across a restart

    On a flash that works ([ReliableAdaptor]) what boot_mode.c stores in the
    misc and devinfo partitions is what it finds after a restart. *)

From S2P Require Import Prelude Disk CString FlashAdaptor LoadGpt BootMode.

(** ** The metadata and its bytes *)

Record ctrl_u8 (c : misc_boot_ctrl) : Prop := {
  cu_magic : is_u32 (magic c);
  cu_bytes : is_bytes (ctrl_bytes c);
  cu_reserved : length (ctrl_reserved c) = 16%nat;
}.

Lemma ctrl_roundtrip c rest : ctrl_u8 c -> ctrl_of_bytes (ctrl_bytes c ++ rest) = c.
Proof.
  intros [Hm _ Hr]. destruct c as [m v r [a1 a2 a3 a4 a5] [b1 b2 b3 b4 b5] res]. simpl in Hm, Hr.
  unfold ctrl_of_bytes, ctrl_bytes. cbn [magic version recovery_tries_remaining slot_a slot_b ctrl_reserved].
  rewrite <- !app_assoc. change (take 4 (le32 m ++ ?x)) with (le32 m). rewrite le_val_le32 by done.
  f_equal. change (take 16 (res ++ rest) = res). rewrite take_app_le by lia. apply take_ge. lia.
Qed.

Section Persist.
Context {D : Type} {g_flash : flash_adaptor D} `{!ReliableAdaptor g_flash}.
Context (junk : gpt_ent).
Implicit Types (s : state D).

(** The contents of the flash as the state reaches it. *)
Definition cont s : Z -> Z -> Z := contents (drv (fl s)).

(** Partition [name] is entry [e] of the table, in the user area. *)
Record has_part s (nm : bytes) (k : nat) (e : gpt_ent) : Prop := {
  hp_find : list_find (named nm) (tab s) = Some (k, mk_part 0 e);
  hp_ok : ent_ok e;
}.

Definition wf_names s : Prop := Forall (fun e => length (ent_name (gpt e)) = 72%nat) (tab s).

Lemma find_part s nm rest k e :
  wf_names s -> has_part s nm k e -> no_nul nm -> (0 < length nm <= 36)%nat ->
  exists f, find g_flash s (nm ++ 0 :: rest) = Some (set_fl f s, Z.of_nat k) /\
    current (drv f) = 0 /\ (forall q x, contents (drv f) q x = cont s q x) /\
    (fetch_partition_info (tab s) (Z.of_nat k) junk).1 = e.
Proof.
  intros Hn [Hf Hok] Hnm Hl. unfold find, find_partition.
  rewrite find_loop_ok; [|done|done|done|by rewrite length_replicate]. cbn [mbind option_bind].
  unfold find_result. rewrite Hf. destruct (switch_reliable (fl s) (part (mk_part 0 e))) as (f & -> & Hc & Hs).
  simpl in Hc. exists f. split; [done|]. split; [done|]. split; [done|].
  apply list_find_Some in Hf as (Hk & _ & _). apply lookup_lt_Some in Hk as Hlt.
  unfold fetch_partition_info, num. rewrite (proj2 (Z.leb_le _ _)), (proj2 (Z.ltb_lt _ _)) by lia. simpl andb.
  cbv iota. by rewrite Nat2Z.id, Hk.
Qed.

(** A read into the buffer at TEMP_BUF_ADDR. *)
Lemma fill_ok s f got : (length got <= length (tmp s))%nat ->
  fill s f got = Some (set_tmp (splice (tmp s) 0 got) (set_fl f s)).
Proof. intros Hl. unfold fill, into. by rewrite decide_True. Qed.

Lemma get_image_ok s e size :
  ent_ok e -> 0 <= size <= Z.of_nat (length (tmp s)) -> is_u32 size ->
  ent_lba_start e * 512 + size <= (ent_lba_end e + 1) * 512 ->
  exists f, get_image g_flash s e size =
      Some (set_tmp (splice (tmp s) 0 (rng (cont s (current (drv (fl s)))) (ent_lba_start e * 512) (Z.to_nat size)))
              (set_fl f s), 0) /\
    current (drv f) = current (drv (fl s)) /\ (forall q x, contents (drv f) q x = cont s q x).
Proof.
  intros He Hs Hu Hfit. unfold get_image, read_image, read_image_from_offset.
  destruct (exceeds_iff e 0 size He) as [Hst Hx]; [unfold is_u32; lia|done|].
  rewrite Hx, Hst, !Z.add_0_r, (proj2 (Z.leb_le _ _)) by done. cbn [negb].
  destruct (read_reliable (fl s) (ent_lba_start e * 512) size) as (f & -> & Hc & Hsame);
    [destruct He; lia|lia|]. rewrite fill_ok by len. cbn [mbind option_bind]. by exists f.
Qed.

(** A write from that buffer always goes to hardware partition 0. *)
Lemma put_image_ok s e size :
  ent_ok e -> 0 <= size <= Z.of_nat (length (tmp s)) -> is_u32 size -> is_bytes (tmp s) ->
  ent_lba_start e * 512 + size <= (ent_lba_end e + 1) * 512 ->
  exists f, put_image g_flash s e size = (set_fl f s, 0) /\ current (drv f) = 0 /\
    (forall q x, contents (drv f) q x =
       if q =? 0 then upd (cont s q) (ent_lba_start e * 512) (take (Z.to_nat size) (tmp s)) x else cont s q x).
Proof.
  intros He Hs Hu Hb Hfit. unfold put_image, write_image, write_image_to_offset.
  destruct (exceeds_iff e 0 size He) as [Hst Hx]; [unfold is_u32; lia|done|].
  rewrite Hx, Hst, !Z.add_0_r, (proj2 (Z.leb_le _ _)) by done. cbn [negb].
  destruct (switch_reliable (fl s) 0) as (f1 & -> & Hc1 & Hs1).
  destruct (write_reliable f1 (ent_lba_start e * 512) size (tmp s)) as (f & -> & Hc & Hw);
    [destruct He; lia|done|done|]. exists f. split; [done|]. split; [congruence|]. intros q x. rewrite Hw, Hc1.
  destruct (q =? 0); [|apply Hs1]. unfold upd. by rewrite Hs1.
Qed.

(** What the calls below leave alone: everything but the flash and the
    contents of the buffer. *)
Record io_frame s s' : Prop := {
  if_tab : tab s' = tab s;
  if_info : boot_info s' = boot_info s;
  if_devinfo : devinfo_exist s' = devinfo_exist s;
  if_misc : misc_exist s' = misc_exist s;
  if_reg : reboot_reg s' = reboot_reg s;
  if_tmp : length (tmp s') = length (tmp s);
  if_bytes : is_bytes (tmp s) -> is_bytes (tmp s');
}.

(** ** Slot metadata *)

Lemma ctrl_addr_ok e : ent_ok e -> ctrl_addr e = ent_lba_start e * 512 + 4096.
Proof. intros []. unfold ctrl_addr, SYNA_SPACE_OFFSET_IN_MISC. apply i64_id. lia. Qed.

Lemma read_size_bounds : 2048 <= read_size g_flash.
Proof. unfold read_size. destruct (Z.ltb_spec 2048 (page_size g_flash)); lia. Qed.

Definition misc_nm : bytes := [109; 105; 115; 99].
Definition devinfo_nm : bytes := [100; 101; 118; 105; 110; 102; 111].

Lemma misc_nm_ok : no_nul misc_nm /\ (0 < length misc_nm <= 36)%nat.
Proof. split; [by repeat constructor|simpl; lia]. Qed.

Lemma devinfo_nm_ok : no_nul devinfo_nm /\ (0 < length devinfo_nm <= 36)%nat.
Proof. split; [by repeat constructor|simpl; lia]. Qed.

Lemma find_misc_part s k e : wf_names s -> has_part s misc_nm k e ->
  exists f, find g_flash s MISC_NAME = Some (set_fl f s, Z.of_nat k) /\
    current (drv f) = 0 /\ (forall q x, contents (drv f) q x = cont s q x) /\
    (fetch_partition_info (tab s) (Z.of_nat k) junk).1 = e.
Proof. intros Hn Hp. apply (find_part s misc_nm []); try done; apply misc_nm_ok. Qed.

Lemma find_devinfo_part s k e : wf_names s -> has_part s devinfo_nm k e ->
  exists f, find g_flash s DEVINFO_NAME = Some (set_fl f s, Z.of_nat k) /\
    current (drv f) = 0 /\ (forall q x, contents (drv f) q x = cont s q x) /\
    (fetch_partition_info (tab s) (Z.of_nat k) junk).1 = e.
Proof. intros Hn Hp. apply (find_part s devinfo_nm []); try done; apply devinfo_nm_ok. Qed.

Lemma write_ctrl_stored s k e :
  wf_names s -> has_part s misc_nm k e -> bootctrl_is_exist s = true -> ctrl_u8 (misc_bctrl s) ->
  is_bytes (tmp s) -> (32 <= length (tmp s))%nat ->
  exists s', write_bootctrl_metadata g_flash junk s = Some (s', 0) /\ misc_bctrl s' = misc_bctrl s /\
    rng (cont s' 0) (ctrl_addr e) 32 = ctrl_bytes (misc_bctrl s).
Proof.
  intros Hn Hp He Hc Hb Hl. unfold write_bootctrl_metadata. rewrite He.
  destruct (find_misc_part s k e Hn Hp) as (f & -> & Hcur & Hcont & Hfe). cbn [mbind option_bind].
  rewrite (proj2 (Z.leb_le _ _)) by lia. cbn [tab set_fl]. rewrite Hfe.
  pose proof (length_ctrl_bytes _ (cu_reserved _ Hc)) as Hcl.
  cbn [misc_bctrl set_fl tmp set_tmp fl]. unfold sizeof_ctrl.
  rewrite memcpy_spec by lia. cbn [mbind option_bind]. cbn [misc_bctrl set_fl tmp set_tmp fl].
  rewrite (take_ge (ctrl_bytes _)) by lia.
  set (buf := splice (tmp s) 0 (ctrl_bytes (misc_bctrl s))).
  assert (Hbl : length buf = length (tmp s)) by (apply length_splice; lia).
  pose proof (ctrl_addr_ok e (hp_ok _ _ _ _ Hp)) as Ha. destruct (hp_ok _ _ _ _ Hp) as [Hs0 _].
  destruct (write_reliable f (ctrl_addr e) (Z.of_nat 32) buf) as (f' & -> & Hc' & Hw); [lia|lia| |].
  { apply splice_bytes; [done|apply Hc]. }
  eexists. split; [done|]. split; [done|].
  rewrite (rng_ext _ (upd (contents (drv f) 0) (ctrl_addr e) (ctrl_bytes (misc_bctrl s)))).
  - rewrite <- Hcl. apply upd_same.
  - intros x _. unfold cont. cbn [fl set_fl]. rewrite Hw, Hcur. simpl (0 =? 0). cbv iota. f_equal.
    rewrite Nat2Z.id. unfold buf, splice. rewrite take_0, app_nil_l. rewrite <- Hcl. apply take_app_length.
Qed.

Lemma init_ab_loads s k e c :
  wf_names s -> has_part s misc_nm k e -> bootctrl_is_exist s = true -> ctrl_u8 c ->
  read_size g_flash <= Z.of_nat (length (tmp s)) -> rng (cont s 0) (ctrl_addr e) 32 = ctrl_bytes c ->
  exists s', init_abmode g_flash junk s = Some s' /\ misc_bctrl s' = c /\ io_frame s s'.
Proof.
  intros Hn Hp He Hc Hl Hst. pose proof read_size_bounds as Hrs. unfold init_abmode. rewrite He.
  destruct (find_misc_part s k e Hn Hp) as (f & -> & Hcur & Hcont & Hfe). cbn [mbind option_bind].
  rewrite (proj2 (Z.leb_le _ _)) by lia. cbn [tab set_fl fl]. rewrite Hfe.
  pose proof (ctrl_addr_ok e (hp_ok _ _ _ _ Hp)) as Ha. destruct (hp_ok _ _ _ _ Hp) as [Hs0 _].
  destruct (read_reliable f (ctrl_addr e) (read_size g_flash)) as (f' & -> & _ & _); [lia|lia|].
  rewrite fill_ok by (simpl; len). cbn [mbind option_bind].
  set (got := rng _ _ _). assert (Hg : got = ctrl_bytes c ++ rng (contents (drv f) 0) (ctrl_addr e + 32) (Z.to_nat (read_size g_flash) - 32)).
  { unfold got. rewrite Hcur. replace (Z.to_nat (read_size g_flash)) with (32 + (Z.to_nat (read_size g_flash) - 32))%nat at 1 by lia.
    rewrite rng_app, <- Hst. f_equal. apply rng_ext. auto. }
  cbn [tmp set_tmp set_fl]. rewrite decide_True by (unfold sizeof_ctrl; rewrite length_splice; unfold got; len).
  eexists. split; [done|]. split.
  - cbn [misc_bctrl set_ctrl]. unfold splice. rewrite take_0, Hg, app_nil_l.
    pose proof (length_ctrl_bytes _ (cu_reserved _ Hc)) as Hcl. unfold sizeof_ctrl.
    rewrite <- app_assoc, take_app_le by lia. rewrite take_ge by lia.
    rewrite <- (app_nil_r (ctrl_bytes c)). by apply ctrl_roundtrip.
  - constructor; try done; cbn [tmp set_ctrl set_tmp set_fl]; [apply length_splice; unfold got; len|].
    intros Hb. apply splice_bytes; [done|]. apply rng_bytes. intros. apply contents_byte.
Qed.

(** ** Commands *)

(** An image of [size] bytes lies at the start of the partition. *)
Definition roomy (e : gpt_ent) (size : Z) : Prop := ent_lba_start e * 512 + size <= (ent_lba_end e + 1) * 512.

Definition base (e : gpt_ent) : Z := ent_lba_start e * 512.

Lemma write_info_stored s k e :
  wf_names s -> has_part s devinfo_nm k e -> roomy e 292 ->
  length (boot_info s) = 292%nat -> is_bytes (boot_info s) -> is_bytes (tmp s) -> (292 <= length (tmp s))%nat ->
  exists s', write_boot_info_to_flash g_flash junk s = Some s' /\ io_frame s s' /\
    (forall q x, cont s' q x = if q =? 0 then upd (cont s q) (base e) (boot_info s) x else cont s q x).
Proof.
  intros Hn Hp Hroom Hil Hib Hb Hl. unfold write_boot_info_to_flash.
  destruct (find_devinfo_part s k e Hn Hp) as (f & -> & Hcur & Hcont & Hfe). cbn [mbind option_bind].
  rewrite (proj2 (Z.leb_le _ _)) by lia. cbn [tab set_fl tmp boot_info]. rewrite Hfe. unfold sizeof_boot_info.
  rewrite memcpy_spec by lia. cbn [mbind option_bind]. rewrite (take_ge (boot_info s)) by lia.
  set (buf := splice (tmp s) 0 (boot_info s)). set (s1 := set_tmp buf (set_fl f s)).
  assert (Hbl : length buf = length (tmp s)) by (apply length_splice; lia).
  assert (Hbb : is_bytes buf) by (by apply splice_bytes).
  destruct (put_image_ok s1 e (Z.of_nat 292)) as (f' & Hpi & Hc' & Hw).
  { apply Hp. } { simpl. lia. } { unfold is_u32. lia. } { done. } { exact Hroom. }
  rewrite Hpi. eexists. split; [done|]. split.
  - constructor; try done.
  - intros q x. unfold cont at 1. cbn [fl set_fl]. rewrite Hw. unfold cont. cbn [s1 fl set_tmp set_fl tmp].
    replace (take (Z.to_nat (Z.of_nat 292)) buf) with (boot_info s).
    + destruct (q =? 0); [|apply Hcont]. unfold upd, base. by rewrite Hcont.
    + rewrite Nat2Z.id. unfold buf, splice. rewrite take_0, app_nil_l, <- Hil. symmetry. apply take_app_length.
Qed.

Lemma set_misc_ok s k e nm r1 r2 :
  wf_names s -> has_part s misc_nm k e -> roomy e (read_size g_flash) -> is_u32 (read_size g_flash) ->
  is_bytes (tmp s) -> read_size g_flash <= Z.of_nat (length (tmp s)) ->
  no_nul nm -> is_bytes nm -> (length nm < 32)%nat ->
  strcmp (nm ++ [0]) kFtsBootcmdRecovery = Some r1 -> strcmp (nm ++ [0]) kFtsBootcmdFastboot = Some r2 ->
  exists s', set_misc_command g_flash junk s (nm ++ [0]) = Some s' /\ io_frame s s' /\
    (forall q x, q <> 0 \/ x < base e \/ base e + read_size g_flash <= x -> cont s' q x = cont s q x) /\
    (r1 <> 0 -> r2 <> 0 -> forall q x, cont s' q x = cont s q x).
Proof.
  intros Hn Hp Hroom Hu Hb Hl Hnn Hnb Hnl H1 H2. pose proof read_size_bounds as Hrs. unfold set_misc_command.
  destruct (find_misc_part s k e Hn Hp) as (f & -> & Hcur & Hcont & Hfe). cbn [mbind option_bind].
  rewrite (proj2 (Z.leb_le _ _)) by lia. cbn [tab set_fl]. rewrite Hfe.
  destruct (get_image_ok (set_fl f s) e (read_size g_flash)) as (f1 & -> & Hc1 & Hs1);
    [apply Hp|simpl; lia|done|exact Hroom|]. cbn [mbind option_bind]. simpl (negb (0 =? 0)). cbv iota.
  set (got := rng _ _ _). set (s1 := set_tmp _ _). rewrite H1. cbn [mbind option_bind].
  assert (Ht1 : length (tmp s1) = length (tmp s)) by (unfold s1; cbn [tmp set_tmp set_fl]; apply length_splice; unfold got; len).
  assert (Hb1 : is_bytes (tmp s1)).
  { unfold s1. cbn [tmp set_tmp set_fl]. apply splice_bytes; [done|]. apply rng_bytes. intros. apply contents_byte. }
  assert (Hcs : forall q x, cont s1 q x = cont s q x) by (intros q x; unfold cont; cbn [s1 fl set_tmp set_fl]; rewrite Hs1; apply Hcont).
  assert (Hno : exists s', Some s1 = Some s' /\ io_frame s s' /\
    (forall q x, q <> 0 \/ x < base e \/ base e + read_size g_flash <= x -> cont s' q x = cont s q x) /\
    (r1 <> 0 -> r2 <> 0 -> forall q x, cont s' q x = cont s q x)).
  { exists s1. split; [done|]. split; [by constructor|]. by split. }
  assert (Hput : r1 = 0 \/ r2 = 0 -> exists s', (b ← memset (tmp s1) 0 0 32; b ← strcpy b 0 (nm ++ [0]);
        Some (put_image g_flash (set_tmp b s1) e (read_size g_flash)).1) = Some s' /\ io_frame s s' /\
    (forall q x, q <> 0 \/ x < base e \/ base e + read_size g_flash <= x -> cont s' q x = cont s q x) /\
    (r1 <> 0 -> r2 <> 0 -> forall q x, cont s' q x = cont s q x)).
  { intros Hr. rewrite memset_spec by lia. cbn [mbind option_bind]. set (b1 := splice _ _ _).
    assert (Hlb1 : length b1 = length (tmp s1)) by (apply length_splice; rewrite length_replicate; lia).
    rewrite strcpy_spec by (done || lia). cbn [mbind option_bind]. set (b2 := splice b1 _ _).
    assert (Hlb2 : length b2 = length (tmp s1)) by (unfold b2; rewrite length_splice; len).
    assert (Hbb2 : is_bytes b2).
    { apply splice_bytes; [apply splice_bytes; [done|apply Forall_replicate, u8_range]|].
      apply is_bytes_app. split; [done|]. apply is_bytes_cons. split; [apply is_u8_0|constructor]. }
    destruct (put_image_ok (set_tmp b2 s1) e (read_size g_flash)) as (f2 & -> & _ & Hw);
      [apply Hp|cbn [tmp set_tmp]; lia|done|done|exact Hroom|].
    eexists. split; [done|]. split; [constructor; try done; cbn [fst tmp set_fl set_tmp]; lia|]. split.
    - intros q x Hx. unfold cont at 1. cbn [fst fl set_fl]. rewrite Hw.
      destruct (Z.eqb_spec q 0) as [->|Hq]; [|apply Hcs]. rewrite upd_out; [apply Hcs|].
      cbn [tmp set_tmp]. rewrite length_take. fold (base e). lia.
    - intros ? ?. lia. }
  destruct (Z.eqb_spec r1 0) as [E1|E1]; cbn [mbind option_bind orb].
  - apply Hput. by left.
  - rewrite H2. cbn [mbind option_bind]. destruct (Z.eqb_spec r2 0) as [E2|E2]; [apply Hput; by right|done].
Qed.

(** ** A restart *)

(** The two partitions exist, not as entry 0, have room and do not overlap. *)
Record device s (kd km : nat) (ed em : gpt_ent) : Prop := {
  dv_names : wf_names s;
  dv_devinfo : has_part s devinfo_nm kd ed;
  dv_misc : has_part s misc_nm km em;
  dv_index : (0 < kd)%nat /\ (0 < km)%nat;
  dv_info_room : roomy ed 292;
  dv_misc_room : roomy em (read_size g_flash);
  dv_size : is_u32 (read_size g_flash);
  dv_apart : base ed + 292 <= base em \/ base em + read_size g_flash <= base ed;
  dv_tmp : is_bytes (tmp s) /\ read_size g_flash <= Z.of_nat (length (tmp s));
  dv_info : length (boot_info s) = 292%nat /\ is_bytes (boot_info s);
}.

(** The state after a restart: same table and flash, fresh variables. *)
Record restarted s s2 : Prop := {
  rs_tab : tab s2 = tab s;
  rs_cont q x : cont s2 q x = cont s q x;
  rs_tmp : is_bytes (tmp s2) /\ length (tmp s2) = length (tmp s);
  rs_info : length (boot_info s2) = 292%nat /\ is_bytes (boot_info s2);
}.

Lemma device_tab s s2 kd km ed em :
  device s kd km ed em -> tab s2 = tab s -> is_bytes (tmp s2) -> length (tmp s2) = length (tmp s) ->
  length (boot_info s2) = 292%nat -> is_bytes (boot_info s2) -> device s2 kd km ed em.
Proof.
  intros [Hn [Hd Hdo] [Hm Hmo] Hi Hr1 Hr2 Hz Ha [_ Ht] _] Htab Hb Hl Hil Hib.
  constructor; try done; unfold wf_names in *; rewrite ?Htab; try done; [| |split; [done|lia]];
    constructor; rewrite ?Htab; done.
Qed.

Lemma read_info_ok s kd km ed em :
  device s kd km ed em ->
  exists s', read_boot_info_from_flash g_flash junk s = Some s' /\
    boot_info s' = rng (cont s 0) (base ed) 292 /\ (forall q x, cont s' q x = cont s q x) /\
    tab s' = tab s /\ is_bytes (tmp s') /\ length (tmp s') = length (tmp s) /\
    devinfo_exist s' = devinfo_exist s /\ reboot_reg s' = reboot_reg s.
Proof.
  intros [Hn Hd _ _ Hr1 _ _ _ [Hb Ht] [Hil Hib]]. pose proof read_size_bounds as Hrs.
  unfold read_boot_info_from_flash.
  destruct (find_devinfo_part s kd ed Hn Hd) as (f & -> & Hcur & Hcont & Hfe). cbn [mbind option_bind].
  rewrite (proj2 (Z.leb_le _ _)) by lia. cbn [tab set_fl]. rewrite Hfe. unfold sizeof_boot_info.
  destruct (get_image_ok (set_fl f s) ed (Z.of_nat 292)) as (f1 & -> & Hc1 & Hs1);
    [apply Hd|cbn [tmp set_fl]; lia|unfold is_u32; lia|exact Hr1|].
  cbn [mbind option_bind]. simpl (negb (0 =? 0)). cbv iota. cbn [tmp set_tmp set_fl boot_info fl].
  set (got := rng _ _ _). assert (Hgl : length got = 292%nat) by (unfold got; rewrite length_rng; lia).
  rewrite memcpy_spec; [|rewrite length_splice; lia|lia]. cbn [mbind option_bind]. eexists. split; [done|].
  assert (Hg : take 292 (splice (tmp s) 0 got) = got)
    by (unfold splice; rewrite take_0, app_nil_l, <- Hgl; apply take_app_length).
  cbn [boot_info set_boot_info set_tmp set_fl tmp tab devinfo_exist reboot_reg fl]. split; [|split; [|split; [done|split; [|split; [|done]]]]].
  - rewrite Hg. unfold splice. rewrite take_0, app_nil_l, Nat.add_0_l, Hgl, drop_ge, app_nil_r by lia.
    unfold got. cbn [fl set_fl]. rewrite Hcur, Nat2Z.id. apply rng_ext. intros x _. apply Hcont.
  - intros q x. unfold cont at 1. cbn [fl set_boot_info set_tmp set_fl]. rewrite Hs1. apply Hcont.
  - apply splice_bytes; [done|]. apply rng_bytes. intros. apply contents_byte.
  - apply length_splice. lia.
Qed.

Lemma init_bootmode_ok s kd km ed em :
  device s kd km ed em ->
  exists s', init_bootmode g_flash junk s = Some (s', 0) /\ device s' kd km ed em /\
    devinfo_exist s' = true /\ boot_info s' = rng (cont s 0) (base ed) 292 /\
    (forall q x, cont s' q x = cont s q x) /\ reboot_reg s' = reboot_reg s.
Proof.
  intros Hdev. pose proof Hdev as [Hn Hd Hm [Hi1 Hi2] _ _ _ _ _ _]. unfold init_bootmode.
  destruct (find_devinfo_part s kd ed Hn Hd) as (f & -> & Hcur & Hcont & _). cbn [mbind option_bind].
  rewrite (proj2 (Z.ltb_lt _ _)) by lia.
  assert (Hdev1 : device (set_devinfo true (set_fl f s)) kd km ed em)
    by (eapply device_tab; [exact Hdev|reflexivity|apply Hdev|reflexivity|apply Hdev|apply Hdev]).
  destruct (read_info_ok _ _ _ _ _ Hdev1) as (s1 & -> & Hinfo & Hc1 & Ht1 & Hb1 & Hl1 & Hde & Hrg).
  cbn [mbind option_bind].
  assert (Hinfo' : boot_info s1 = rng (cont s 0) (base ed) 292) by (rewrite Hinfo; apply rng_ext; intros; apply Hcont).
  assert (Hdev2 : device s1 kd km ed em).
  { eapply device_tab; [exact Hdev|done..| |]; rewrite Hinfo'; [apply length_rng|].
    apply rng_bytes. intros. apply contents_byte. }
  destruct (find_misc_part s1 km em) as (f2 & -> & _ & Hcont2 & _); [apply Hdev2|apply Hdev2|].
  cbn [mbind option_bind]. rewrite (proj2 (Z.ltb_lt _ _)) by lia. eexists. split; [done|]. split.
  - eapply device_tab; [exact Hdev2|reflexivity|apply Hdev2|reflexivity|apply Hdev2|apply Hdev2].
  - split; [done|]. split; [done|]. split; [|exact Hrg]. intros q x. unfold cont at 1. cbn [fl set_misc set_fl]. rewrite Hcont2, Hc1. apply Hcont.
Qed.

(** The command in the record, as the checks see it. *)
Lemma boot_command_ok s pre nm rest :
  devinfo_exist s = true -> boot_info s = pre ++ nm ++ 0 :: rest -> length pre = 96%nat ->
  no_nul nm -> (length nm < 64)%nat ->
  boot_command s = Some (splice (replicate 256 0) 0 (nm ++ [0])).
Proof.
  intros Hd Hi Hp Hn Hl. unfold boot_command, get_command_from_boot_info, off_command. rewrite Hd, Hi, <- Hp.
  rewrite drop_app_length. apply strcpy_spec; [done|]. rewrite length_replicate. lia.
Qed.

(** Storing a command in devinfo and misc. *)
Lemma write_message_ok s kd km ed em nm r1 r2 :
  device s kd km ed em -> devinfo_exist s = true -> no_nul nm -> is_bytes nm -> (length nm < 32)%nat ->
  strcmp (nm ++ [0]) kFtsBootcmdRecovery = Some r1 -> strcmp (nm ++ [0]) kFtsBootcmdFastboot = Some r2 ->
  exists s', write_android_bootloader_message g_flash junk s (nm ++ [0]) = Some s' /\
    device s' kd km ed em /\
    rng (cont s' 0) (base ed) 292 = splice (boot_info s) 96 (nm ++ [0]) /\
    (r1 <> 0 -> r2 <> 0 -> forall n, (Z.of_nat n <= read_size g_flash) ->
       rng (cont s' 0) (base em) n = rng (cont s 0) (base em) n).
Proof.
  intros Hdev Hde Hnn Hnb Hnl H1 H2. unfold write_android_bootloader_message. rewrite Hde.
  pose proof Hdev as [Hn Hd Hm _ Hr1 Hr2 Hz Hap [Hb Ht] [Hil Hib]]. pose proof read_size_bounds as Hrs.
  unfold set_command_to_boot_info, set_string, off_command. rewrite strcpy_spec by (done || lia).
  cbn [mbind option_bind]. set (info := splice (boot_info s) 96 (nm ++ [0])).
  assert (Hinl : length info = 292%nat) by (unfold info; rewrite length_splice; len).
  assert (Hinb : is_bytes info).
  { apply splice_bytes; [done|]. apply is_bytes_app. split; [done|]. apply is_bytes_cons. split; [apply is_u8_0|constructor]. }
  destruct (write_info_stored (set_boot_info info s) kd ed) as (s1 & -> & Hf1 & Hc1); [exact Hn|destruct Hd; by constructor|done|done|done|done|cbn [tmp set_boot_info]; lia|].
  cbn [mbind option_bind]. destruct Hf1 as [Ht1 Hi1 _ _ _ Hl1 Hbb1].
  assert (Hdev1 : device s1 kd km ed em).
  { eapply device_tab; [exact Hdev|done|by apply Hbb1|done|by rewrite Hi1|by rewrite Hi1]. }
  destruct (set_misc_ok s1 km em nm r1 r2) as (s2 & -> & Hf2 & Hc2 & Hc3); try done; try apply Hdev1.
  destruct Hf2 as [Ht2 Hi2 _ _ _ Hl2 Hbb2]. exists s2. split; [done|]. split.
  { eapply device_tab; [exact Hdev1|done|apply Hbb2, Hdev1|done|rewrite Hi2; apply Hdev1|rewrite Hi2; apply Hdev1]. }
  split.
  - rewrite (rng_ext _ (upd (cont s 0) (base ed) info)); [rewrite <- Hinl; apply upd_same|].
    intros x Hx. rewrite Hc2 by lia. apply (Hc1 0).
  - intros Hz1 Hz2 n Hn'. apply rng_ext. intros x Hx. rewrite Hc3 by done. rewrite (Hc1 0). apply upd_out.
    cbn [boot_info set_boot_info]. rewrite Hinl. lia.
Qed.
(** The command of a restarted device. *)
Lemma restart_command s s2 kd km ed em (info nm : bytes) :
  device s kd km ed em -> restarted s s2 -> rng (cont s 0) (base ed) 292 = splice info 96 (nm ++ [0]) ->
  length info = 292%nat -> no_nul nm -> (length nm < 32)%nat ->
  exists s3, init_bootmode g_flash junk s2 = Some (s3, 0) /\ device s3 kd km ed em /\
    boot_command s3 = Some (splice (replicate 256 0) 0 (nm ++ [0])) /\
    (forall q x, cont s3 q x = cont s q x).
Proof.
  intros Hdev [Ht Hc [Htb Htl] [Hil Hib]] Hr Hinfo Hnn Hnl.
  assert (Hdev2 : device s2 kd km ed em) by (eapply device_tab; eauto).
  destruct (init_bootmode_ok s2 kd km ed em Hdev2) as (s3 & Hi & Hdev3 & Hde & Hbi & Hc3 & _).
  exists s3. split; [done|]. split; [done|]. split; [|intros; by rewrite Hc3].
  assert (Hbi' : boot_info s3 = take 96 info ++ nm ++ 0 :: drop (96 + length (nm ++ [0])) info).
  { rewrite Hbi, (rng_ext _ (cont s 0)) by (intros; apply Hc). rewrite Hr. unfold splice. by rewrite <- app_assoc. }
  eapply boot_command_ok; [done|exact Hbi'|len|done|lia].
Qed.

Lemma check_misc_recovery s kd km ed em :
  device s kd km ed em -> rng (cont s 0) (base em) 14 = kFtsBootcmdRecovery ->
  exists s', check_misc_command g_flash junk s = Some (s', BOOTMODE_RECOVERY).
Proof.
  intros Hdev Hm. pose proof Hdev as [Hn _ Hp _ _ Hr2 Hz _ [Hb Ht] _]. pose proof read_size_bounds as Hrs.
  unfold check_misc_command. destruct (find_misc_part s km em Hn Hp) as (f & -> & Hcur & Hcont & Hfe).
  cbn [mbind option_bind]. rewrite (proj2 (Z.leb_le _ _)) by lia. cbn [tab set_fl]. rewrite Hfe.
  destruct (get_image_ok (set_fl f s) em (read_size g_flash)) as (f1 & -> & Hc1 & Hs1);
    [apply Hp|cbn [tmp set_fl]; lia|done|exact Hr2|].
  cbn [mbind option_bind]. simpl (negb (0 =? 0)). cbv iota. set (got := rng _ _ _).
  assert (Hg : exists rest, got = kFtsBootcmdRecovery ++ rest).
  { eexists. unfold got. replace (Z.to_nat (read_size g_flash)) with (14 + (Z.to_nat (read_size g_flash) - 14))%nat by lia.
    rewrite rng_app. f_equal. rewrite <- Hm. cbn [fl set_fl]. rewrite Hcur. apply rng_ext. intros. apply Hcont. }
  destruct Hg as [rest Hg]. rewrite Hg. cbn [tmp set_tmp set_fl]. unfold splice. rewrite take_0, app_nil_l, <- app_assoc.
  eexists. reflexivity.
Qed.
(** ** Boot attempts

    What every power cycle asks of boot_mode.c: the static variables are set up, the
    metadata loaded, a slot chosen and, if there is one, the attempt accounted for. *)

Section Attempts.
Context (config_sm : bool) (GenX_BCM_Get_Boot_Slot : Z).
Context (kd km : nat) (ed em : gpt_ent).

Definition boot_attempt s : option (state D * Z) :=
  '(s, _) ← init_bootmode g_flash junk s;
  s ← init_abmode g_flash junk s;
  '(s, sel) ← check_abmode g_flash config_sm GenX_BCM_Get_Boot_Slot junk s;
  if sel =? BOOTSEL_INVALID then Some (s, sel)
  else '(s, _) ← try_abmode g_flash junk s sel; Some (s, sel).

(** [fresh i s] is the state in which the device comes up for the [i]-th attempt. *)
Fixpoint attempts (fresh : nat -> state D -> state D) (k : nat) (i : nat) s : option (state D) :=
  match k with
  | O => Some s
  | S k => '(s, _) ← boot_attempt (fresh i s); attempts fresh k (S i) s
  end.

Lemma slot_info_bytes c n sl : ctrl_u8 c -> slot_info c n = Some sl -> is_bytes (slot_bytes sl).
Proof.
  intros [_ Hb _] H. unfold ctrl_bytes in Hb. apply is_bytes_app in Hb as [_ Hb]. apply is_bytes_app in Hb as [_ Hb]. apply is_bytes_app in Hb as [Ha Hb]. apply is_bytes_app in Hb as [Hb _].
  unfold slot_info in H. destruct (n =? 0); [by injection H as <-|]. destruct (n =? 1); [by injection H as <-|done].
Qed.

Lemma set_slot_bytes c n sl c' : ctrl_u8 c -> is_bytes (slot_bytes sl) -> set_slot c n sl = Some c' -> ctrl_u8 c'.
Proof.
  intros [Hm Hb Hr] Hs H. unfold ctrl_bytes in Hb. rewrite !is_bytes_app in Hb. destruct Hb as (H1 & H2 & H3 & H4 & H5).
  unfold set_slot in H. destruct (n =? 0); [|destruct (n =? 1); [|done]]; injection H as <-; (constructor; [done| |done]); unfold ctrl_bytes; rewrite !is_bytes_app; cbn; auto.
Qed.

Lemma u8_ctrl_ok c : ctrl_u8 c -> ctrl_ok c.
Proof.
  intros Hc. pose proof (slot_info_bytes c 0 (slot_a c) Hc eq_refl) as Ha. pose proof (slot_info_bytes c 1 (slot_b c) Hc eq_refl) as Hb.
  unfold slot_bytes in Ha, Hb. rewrite !is_bytes_cons in Ha, Hb. unfold ctrl_ok. tauto.
Qed.

(** What is kept of a state when the power goes: the metadata [c] are in misc. *)
Definition kept s c : Prop := (forall s2, restarted s s2 -> device s2 kd km ed em) /\ rng (cont s 0) (ctrl_addr em) 32 = ctrl_bytes c.

(** A slot is updated and the metadata are written back. *)
Lemma store_slot s sel sl sl' (r : Z) :
  device s kd km ed em -> devinfo_exist s = true -> ctrl_u8 (misc_bctrl s) -> slot_info (misc_bctrl s) sel = Some sl -> is_bytes (slot_bytes sl') ->
  0 <= slot_weight sl' < slot_weight sl ->
  exists s' c', (c ← set_slot (misc_bctrl s) sel sl'; '(s, _) ← write_bootctrl_metadata g_flash junk (set_ctrl c s); Some (s, r)) = Some (s', r) /\
    kept s' c' /\ ctrl_u8 c' /\ magic c' = magic (misc_bctrl s) /\ version c' = version (misc_bctrl s) /\ 0 <= weight c' < weight (misc_bctrl s).
Proof.
  intros Hdev Hde Hc Hsl Hb Hw. destruct (set_slot_ok (misc_bctrl s) sel sl sl' Hsl) as (c & Hset & Hm & Hv & _ & Hwt & _ & _).
  pose proof (set_slot_bytes _ _ _ _ Hc Hb Hset) as Hc'. rewrite Hset. cbn [mbind option_bind]. pose proof (read_size_bounds) as Hrs. destruct (dv_tmp _ _ _ _ _ Hdev) as [Htb Htl].
  assert (Hdevc : device (set_ctrl c s) kd km ed em) by (apply (device_tab s); solve [done | apply Hdev]).
  destruct (write_ctrl_stored (set_ctrl c s) km em) as (s' & Hwr & _ & Hst); try done; [apply Hdevc|apply (dv_misc _ _ _ _ _ Hdevc)|unfold bootctrl_is_exist; cbn; by rewrite Hde|cbn; lia|].
  destruct (write_ctrl_ok g_flash junk (set_ctrl c s)) as (s1 & r1 & Hwr1 & Hof & _); [constructor; [apply Hdev|cbn; lia|apply Hc']|]. rewrite Hwr in Hwr1. injection Hwr1 as <- _.
  rewrite Hwr. cbn [mbind option_bind]. exists s', c. split; [done|]. split; [split; [|done]|split; [done|split; [done|split; [done|]]]].
  - intros s2 [Ht _ [Hb2 Hl2] [Hi2 Hib2]]. apply (device_tab s); try done; [rewrite Ht; apply (of_tab _ _ Hof)|rewrite Hl2; apply (of_tmp _ _ Hof)].
  - pose proof (u8_ctrl_ok _ Hc') as (? & ? & ? & ?). rewrite Hwt at 2. unfold weight, slot_weight, is_u8 in *. lia.
Qed.

(** One attempt on a bootable slot uses up a try or two points of priority, for good. *)
Lemma try_stored s sel :
  device s kd km ed em -> devinfo_exist s = true -> bootctrl_is_valid s = true -> ctrl_u8 (misc_bctrl s) -> best_slot (misc_bctrl s) sel ->
  exists s' r c', try_abmode g_flash junk s sel = Some (s', r) /\
    kept s' c' /\ ctrl_u8 c' /\ magic c' = magic (misc_bctrl s) /\ version c' = version (misc_bctrl s) /\ 0 <= weight c' < weight (misc_bctrl s).
Proof.
  intros Hdev Hde Hv Hc (sl & Hsl & Hb & _). unfold try_abmode. rewrite (valid_exist s Hv), Hv, Hsl. cbn [mbind option_bind].
  pose proof (slot_info_bytes _ _ _ Hc Hsl) as Hby. unfold slot_bytes in Hby. rewrite !is_bytes_cons in Hby. destruct Hby as (Hp & Ht & H3 & H4 & H5 & _).
  assert (Hpr : 1 < priority sl) by (unfold bootable in Hb; bool_simpl; done). unfold is_u8 in Hp, Ht.
  destruct (Z.ltb_spec 0 (tries_remaining sl)).
  - edestruct (store_slot s sel sl (mk_slot (priority sl) (tries_remaining sl - 1) (successful_boot sl) (verity_corrupted sl) (slot_reserved sl)) 0) as (s' & c' & E & R); try done;
      [unfold slot_bytes; cbn; rewrite !is_bytes_cons; unfold is_u8 in *; split_and!; first [lia | apply Forall_nil_2]|unfold slot_weight; cbn; lia|]. by exists s', 0, c'.
  - edestruct (store_slot s sel sl (mk_slot (u8 (priority sl - 2)) (tries_remaining sl) (successful_boot sl) (verity_corrupted sl) (slot_reserved sl)) (-1)) as (s' & c' & E & R); try done;
      [unfold slot_bytes; cbn; rewrite !is_bytes_cons; pose proof (u8_range (priority sl - 2)); unfold is_u8 in *; split_and!; first [lia | apply Forall_nil_2]|unfold slot_weight; cbn; rewrite u8_id by (unfold is_u8; lia); lia|]. by exists s', (-1), c'.
Qed.

Definition ctrl_valid (c : misc_boot_ctrl) : Prop := ctrl_u8 c /\ magic c = BOOTCTRL_MAGIC /\ version c = MISC_BOOT_CONTROL_VERSION.

Lemma attempt_kept s s2 c : kept s c -> ctrl_valid c -> restarted s s2 -> config_sm && (reboot_reg s2 =? REBOOT_MODE_DEVICE_CORRUPTED) = false ->
  exists s' sel, boot_attempt s2 = Some (s', sel) /\
    (sel = BOOTSEL_INVALID /\ bootable (slot_a c) = false /\ bootable (slot_b c) = false \/
     best_slot c sel /\ exists c', kept s' c' /\ ctrl_valid c' /\ 0 <= weight c' < weight c).
Proof.
  intros [Hdev Hst] (Hc & Hm & Hv) Hrs Hreg. specialize (Hdev s2 Hrs). destruct (init_bootmode_ok s2 kd km ed em Hdev) as (s3 & Hi & Hdev3 & Hde & _ & Hc3 & Hrg).
  unfold boot_attempt. rewrite Hi. cbn [mbind option_bind].
  destruct (init_ab_loads s3 km em c) as (s4 & Hi4 & Hm4 & Hf4); [apply Hdev3|apply (dv_misc _ _ _ _ _ Hdev3)|unfold bootctrl_is_exist; by rewrite Hde|done|apply Hdev3|rewrite <- Hst; apply rng_ext; intros; rewrite Hc3; apply Hrs|].
  rewrite Hi4. cbn [mbind option_bind]. destruct Hf4 as [Htab Hinf Hde4 _ Hrg4 Htl Htb].
  assert (Hv4 : bootctrl_is_valid s4 = true) by (unfold bootctrl_is_valid, bootctrl_is_exist; rewrite Hm4, Hm, Hv, Hde4, Hde; reflexivity).
  destruct (check_abmode_cases g_flash config_sm GenX_BCM_Get_Boot_Slot junk s4 Hv4) as (sel & -> & Hsel); [by rewrite Hrg4, Hrg|]. cbn [mbind option_bind].
  rewrite Hm4 in Hsel. destruct Hsel as [(-> & Ha & Hb)|Hbest]; [do 2 eexists; split; [reflexivity|by left]|].
  destruct (try_stored (set_sel sel s4) sel) as (s5 & r & c' & Ht & Hk & Hc' & Hm' & Hv' & Hw); [..|done|cbn; by rewrite Hm4|cbn; by rewrite Hm4|].
  { apply (device_tab s3); try done; [apply Htb, Hdev3|cbn; rewrite Hinf; apply Hdev3|cbn; rewrite Hinf; apply Hdev3]. } { cbn. by rewrite Hde4. }
  rewrite Ht. cbn [mbind option_bind]. cbn [misc_bctrl set_sel] in *. rewrite Hm4 in *. exists s5, sel.
  split; [by destruct (best_range _ _ Hbest) as [-> | ->]|]. right. split; [done|]. exists c'. split; [done|]. split; [by split_and!; [|congruence|congruence]|done].
Qed.

Lemma attempts_end fresh n : (forall i s, restarted s (fresh i s)) -> (forall i s, config_sm && (reboot_reg (fresh i s) =? REBOOT_MODE_DEVICE_CORRUPTED) = false) ->
  forall i s c, kept s c -> ctrl_valid c -> 0 <= weight c <= Z.of_nat n ->
  exists k s' s'', (k <= n)%nat /\ attempts fresh k i s = Some s' /\ boot_attempt (fresh (i + k)%nat s') = Some (s'', BOOTSEL_INVALID).
Proof.
  intros Hfr Hreg. induction n as [|n IH]; intros i s c Hk Hc Hw; destruct (attempt_kept s (fresh i s) c Hk Hc (Hfr i s) (Hreg i s)) as (s1 & sel & E & [(-> & _)|(_ & c' & Hk' & Hc' & Hw')]).
  - exists 0%nat, s, s1. rewrite Nat.add_0_r. done.
  - lia.
  - exists 0%nat, s, s1. rewrite Nat.add_0_r. split; [lia|done].
  - destruct (IH (S i) s1 c' Hk' Hc') as (k & s' & s'' & Hle & Ha & Hi); [lia|]. exists (S k), s', s''. split; [lia|]. split; [cbn [attempts]; rewrite E; exact Ha|]. by rewrite Nat.add_succ_r.
Qed.

End Attempts.
End Persist.

(** ** A sample device: three partitions in the user area of a RAM flash *)

Definition utf16 (nm : bytes) : bytes := concat (map (fun c => [c; 0]) nm) ++ replicate (72 - 2 * length nm) 0.

Definition sample_ent (nm : bytes) (lba last : Z) : gpt_ent_part :=
  mk_part 0 (mk_ent (replicate 16 1) (replicate 16 2) lba last 0 (utf16 nm)).

Definition sample_tab : gpt_table_t :=
  [sample_ent [98; 108] 64 127; sample_ent devinfo_nm 128 129; sample_ent misc_nm 256 271].

(** The misc partition starts with "boot-recovery". *)
Definition sample_flash : ramflash :=
  mk_ramflash 0 (fun _ => upd (fun _ => 0) (256 * 512) kFtsBootcmdRecovery).

Definition sample_device : state ramflash :=
  mk_state (mk_flash sample_flash 0) sample_tab (replicate (Z.to_nat 2048) 0) (replicate 292 0)
    0 0 true true 0 (mk_ctrl BOOTCTRL_MAGIC 2 0 (mk_slot 8 2 0 0 0) (mk_slot 3 2 0 0 0) (replicate 16 0)) 0.

Lemma zeros_bytes n : is_bytes (replicate n 0).
Proof. apply Forall_replicate. apply is_u8_0. Qed.

Lemma sample_device_ok : device (g_flash := ram_adaptor) sample_device 1 2
  (gpt (sample_ent devinfo_nm 128 129)) (gpt (sample_ent misc_nm 256 271)).
Proof.
  constructor.
  - unfold wf_names. cbn [tab sample_device]. unfold sample_tab. repeat constructor.
  - constructor; [vm_compute; reflexivity|constructor; simpl; lia].
  - constructor; [vm_compute; reflexivity|constructor; simpl; lia].
  - split; lia.
  - unfold roomy. simpl. lia.
  - unfold roomy. change (read_size ram_adaptor) with 2048. simpl. lia.
  - unfold is_u32. change (read_size ram_adaptor) with 2048. lia.
  - left. unfold base. simpl. lia.
  - split; [apply zeros_bytes|]. change (read_size ram_adaptor) with 2048.
    cbn [tmp sample_device]. rewrite length_replicate. lia.
  - split; [reflexivity|apply zeros_bytes].
Qed.

(** ** Properties *)

(** C8: a requested mode survives the restart.  With a working flash and the
    devinfo and misc partitions in the table, set_bootmode stores recovery or
    fastboot and returns it, and after a restart from any values of the static
    variables init_bootmode and check_bootmode give the same mode.  (For a request
    of the normal mode see [set_bootmode_normal_keeps_misc].) *)
Theorem set_bootmode_survives_restart {D : Type} {g : flash_adaptor D} `{!ReliableAdaptor g}
    (param : bool) (junk : gpt_ent) (s : state D) (kd km : nat) (ed em : gpt_ent) (mode : Z) :
  device (g_flash := g) s kd km ed em -> devinfo_exist s = true ->
  mode = BOOTMODE_RECOVERY \/ mode = BOOTMODE_FASTBOOT ->
  exists s1, set_bootmode g junk s mode = Some (s1, mode) /\
    forall s2, restarted s1 s2 ->
      exists s3 s4, init_bootmode g junk s2 = Some (s3, 0) /\ check_bootmode g param junk s3 = Some (s4, mode).
Proof.
  intros Hdev Hde Hmode.
  assert (Hnm : exists nm r1 r2, (nm ++ [0] = kFtsBootcmdRecovery /\ mode = BOOTMODE_RECOVERY \/
                            nm ++ [0] = kFtsBootcmdFastboot /\ mode = BOOTMODE_FASTBOOT) /\
    no_nul nm /\ is_bytes nm /\ (length nm < 32)%nat /\
    strcmp (nm ++ [0]) kFtsBootcmdRecovery = Some r1 /\ strcmp (nm ++ [0]) kFtsBootcmdFastboot = Some r2).
  { destruct Hmode as [-> | ->]; [exists (take 13 kFtsBootcmdRecovery)|exists (take 19 kFtsBootcmdFastboot)];
      do 2 eexists; (split; [auto|]); (split; [by repeat constructor|]);
      (split; [repeat constructor; done|]); (split; [simpl; lia|]); by split. }
  destruct Hnm as (nm & r1 & r2 & Hnm & Hnn & Hnb & Hnl & H1 & H2).
  destruct (write_message_ok junk s kd km ed em nm r1 r2 Hdev Hde Hnn Hnb Hnl H1 H2) as (s1 & Hw & Hdev1 & Hinfo & _).
  exists (set_Bootmode mode s1). split.
  { unfold set_bootmode. destruct Hnm as [[Hn ->]|[Hn ->]]; simpl (_ =? _); cbv iota; rewrite <- Hn, Hw; done. }
  intros s2 Hrs. destruct (dv_info _ _ _ _ _ Hdev) as [Hil _].
  destruct (restart_command junk (set_Bootmode mode s1) s2 kd km ed em (boot_info s) nm) as (s3 & Hi & _ & Hbc & _); try done.
  { eapply device_tab; [exact Hdev1|reflexivity|apply Hdev1|reflexivity|apply Hdev1|apply Hdev1]. }
  exists s3, (set_Bootmode mode s3). split; [exact Hi|]. unfold check_bootmode, check_android_bootcommand. rewrite Hbc.
  destruct Hnm as [[-> ->]|[-> ->]]; reflexivity.
Qed.

(** What set_bootmode(BOOTMODE_NORMAL) leaves behind.  It stores "done" in
    devinfo only: a recovery command in the misc partition stays, and the
    device still comes up in recovery after the restart. *)
Theorem set_bootmode_normal_keeps_misc {D : Type} {g : flash_adaptor D} `{!ReliableAdaptor g}
    (param : bool) (junk : gpt_ent) (s : state D) (kd km : nat) (ed em : gpt_ent) :
  device (g_flash := g) s kd km ed em -> devinfo_exist s = true ->
  rng (cont s 0) (base em) 14 = kFtsBootcmdRecovery ->
  exists s1, set_bootmode g junk s BOOTMODE_NORMAL = Some (s1, BOOTMODE_NORMAL) /\
    forall s2, restarted s1 s2 ->
      exists s3 s4, init_bootmode g junk s2 = Some (s3, 0) /\
                    check_bootmode g param junk s3 = Some (s4, BOOTMODE_RECOVERY).
Proof.
  intros Hdev Hde Hm.
  edestruct (write_message_ok junk s kd km ed em (take 4 str_done)) as (s1 & Hw & Hdev1 & Hinfo & Hmisc);
    [exact Hdev|done|by repeat constructor|by repeat constructor|simpl; lia|reflexivity|reflexivity|].
  exists (set_Bootmode BOOTMODE_NORMAL s1). split.
  { unfold set_bootmode. simpl (_ =? _). cbv iota. change str_done with (take 4 str_done ++ [0]). by rewrite Hw. }
  intros s2 Hrs. destruct (dv_info _ _ _ _ _ Hdev) as [Hil _].
  destruct (restart_command junk (set_Bootmode BOOTMODE_NORMAL s1) s2 kd km ed em (boot_info s) (take 4 str_done))
    as (s3 & Hi & Hdev3 & Hbc & Hc3); try done.
  { eapply device_tab; [exact Hdev1|reflexivity|apply Hdev1|reflexivity|apply Hdev1|apply Hdev1]. }
  { by repeat constructor. } { simpl. lia. }
  destruct (check_misc_recovery junk s3 kd km ed em Hdev3) as [s4 Hmc].
  { rewrite (rng_ext _ (cont s1 0)) by (intros; apply Hc3). rewrite Hmisc; [done|done|done|].
    pose proof (read_size_bounds (g_flash := g)). lia. }
  exists s3. eexists. split; [exact Hi|]. unfold check_bootmode, check_android_bootcommand. rewrite Hbc.
  cbn [mbind option_bind]. rewrite Hmc. reflexivity.
Qed.

Lemma set_bootmode_survives_restart_witness :
  exists s1, set_bootmode ram_adaptor bl_a sample_device BOOTMODE_FASTBOOT = Some (s1, BOOTMODE_FASTBOOT) /\
    forall s2, restarted s1 s2 -> exists s3 s4, init_bootmode ram_adaptor bl_a s2 = Some (s3, 0) /\
      check_bootmode ram_adaptor false bl_a s3 = Some (s4, BOOTMODE_FASTBOOT).
Proof.
  apply (set_bootmode_survives_restart false bl_a sample_device 1 2
           (gpt (sample_ent devinfo_nm 128 129)) (gpt (sample_ent misc_nm 256 271)));
    [exact sample_device_ok|reflexivity|right; reflexivity].
Defined.

Lemma set_bootmode_normal_keeps_misc_witness :
  exists s1, set_bootmode ram_adaptor bl_a sample_device BOOTMODE_NORMAL = Some (s1, BOOTMODE_NORMAL) /\
    forall s2, restarted s1 s2 -> exists s3 s4, init_bootmode ram_adaptor bl_a s2 = Some (s3, 0) /\
      check_bootmode ram_adaptor false bl_a s3 = Some (s4, BOOTMODE_RECOVERY).
Proof.
  apply (set_bootmode_normal_keeps_misc false bl_a sample_device 1 2
           (gpt (sample_ent devinfo_nm 128 129)) (gpt (sample_ent misc_nm 256 271)));
    [exact sample_device_ok|reflexivity|vm_compute; reflexivity].
Defined.

(** The slot metadata survive the restart: what write_bootctrl_metadata stores
    in misc is what init_abmode loads, field by field, into fresh memory. *)
Theorem slot_metadata_survive_restart {D : Type} {g : flash_adaptor D} `{!ReliableAdaptor g}
    (junk : gpt_ent) (s : state D) (k : nat) (e : gpt_ent) :
  wf_names s -> has_part s misc_nm k e -> bootctrl_is_exist s = true -> ctrl_u8 (misc_bctrl s) ->
  is_bytes (tmp s) -> (32 <= length (tmp s))%nat ->
  exists s1, write_bootctrl_metadata g junk s = Some (s1, 0) /\
    forall s2, tab s2 = tab s -> (forall q x, cont s2 q x = cont s1 q x) -> bootctrl_is_exist s2 = true ->
      read_size g <= Z.of_nat (length (tmp s2)) ->
      exists s3, init_abmode g junk s2 = Some s3 /\ misc_bctrl s3 = misc_bctrl s.
Proof.
  intros Hn Hp He Hc Hb Hl. destruct (write_ctrl_stored junk s k e Hn Hp He Hc Hb Hl) as (s1 & Hw & _ & Hst).
  exists s1. split; [done|]. intros s2 Ht Hcont He2 Hl2.
  destruct (init_ab_loads junk s2 k e (misc_bctrl s)) as (s3 & Hi & Hm & _); [..|by exists s3]; try done.
  - unfold wf_names. by rewrite Ht.
  - destruct Hp. constructor; [by rewrite Ht|done].
  - rewrite (rng_ext _ (cont s1 0)) by (intros; apply Hcont). done.
Qed.

Lemma slot_metadata_survive_restart_witness :
  exists s1, write_bootctrl_metadata ram_adaptor bl_a sample_device = Some (s1, 0) /\
    forall s2, tab s2 = tab sample_device -> (forall q x, cont s2 q x = cont s1 q x) -> bootctrl_is_exist s2 = true ->
      read_size ram_adaptor <= Z.of_nat (length (tmp s2)) ->
      exists s3, init_abmode ram_adaptor bl_a s2 = Some s3 /\ misc_bctrl s3 = misc_bctrl sample_device.
Proof.
  apply (slot_metadata_survive_restart (g := ram_adaptor) bl_a sample_device 2 (gpt (sample_ent misc_nm 256 271))).
  - exact (dv_names _ _ _ _ _ sample_device_ok).
  - exact (dv_misc _ _ _ _ _ sample_device_ok).
  - reflexivity.
  - constructor; [unfold is_u32; simpl; unfold BOOTCTRL_MAGIC; lia| |reflexivity].
    apply List.Forall_forall. intros x Hx. vm_compute in Hx. unfold is_u8. repeat (destruct Hx as [<-|Hx]; [lia|]). destruct Hx.
  - apply zeros_bytes.
  - cbn [tmp sample_device]. rewrite length_replicate. lia.
Defined.

(** C36: a device whose slots never boot ends in BOOTSEL_INVALID instead of an endless
    loop.  Every power cycle starts from any values of the static variables, loads the
    metadata from the misc partition, chooses a slot and accounts for the attempt; on a
    flash that works, with valid metadata in misc and no dm-verity report, every attempt
    uses up, on the device, a try of the slot or, when none is left, two points of its
    priority, which does not wrap: after at most as many power cycles as there are tries
    and priority points no slot is left. *)
Theorem boot_attempts_end {D : Type} {g : flash_adaptor D} `{!ReliableAdaptor g} (sm : bool) (rom : Z) (junk : gpt_ent)
    (s : state D) (kd km : nat) (ed em : gpt_ent) (c : misc_boot_ctrl) (fresh : nat -> state D -> state D) :
  device (g_flash := g) s kd km ed em -> rng (cont s 0) (ctrl_addr em) 32 = ctrl_bytes c -> ctrl_valid c ->
  (forall i s, restarted s (fresh i s)) -> (forall i s, sm && (reboot_reg (fresh i s) =? REBOOT_MODE_DEVICE_CORRUPTED) = false) ->
  exists k s' s'', Z.of_nat k <= weight c /\ attempts (g_flash := g) junk sm rom fresh k 0 s = Some s' /\
    boot_attempt (g_flash := g) junk sm rom (fresh k s') = Some (s'', BOOTSEL_INVALID).
Proof.
  intros Hdev Hst Hc Hfr Hreg.
  assert (Hk : kept (g_flash := g) kd km ed em s c) by (split; [intros s2 [Ht _ [Hb Hl] [Hi Hib]]; by apply (device_tab s)|done]).
  assert (H0 : 0 <= weight c) by (destruct (u8_ctrl_ok c (proj1 Hc)) as (? & ? & ? & ?); unfold weight, slot_weight, is_u8 in *; lia).
  destruct (attempts_end junk sm rom kd km ed em fresh (Z.to_nat (weight c)) Hfr Hreg 0%nat s c Hk Hc) as (k & s' & s'' & Hle & Ha & Hi); [lia|]. exists k, s', s''. split; [lia|done].
Qed.

(** The sample device with metadata; it comes up with zeroed variables. *)
Definition sample_meta : misc_boot_ctrl := mk_ctrl BOOTCTRL_MAGIC MISC_BOOT_CONTROL_VERSION 0 (mk_slot 8 2 0 0 0) (mk_slot 3 0 1 0 0) (replicate 16 0).
Definition sample_slots : state ramflash :=
  set_fl (mk_flash (mk_ramflash 0 (fun _ => upd (fun _ => 0) (256 * 512 + 4096) (ctrl_bytes sample_meta))) 0) sample_device.
Definition zeroed (i : nat) (s : state ramflash) : state ramflash :=
  mk_state (fl s) (tab s) (replicate (length (tmp s)) 0) (replicate 292 0) 0 0 false false 0 (ctrl_of_bytes (replicate 32 0)) 0.

Lemma boot_attempts_end_witness :
  exists k s' s'', Z.of_nat k <= 13 /\ attempts (g_flash := ram_adaptor) bl_a true 0 zeroed k 0 sample_slots = Some s' /\
    boot_attempt (g_flash := ram_adaptor) bl_a true 0 (zeroed k s') = Some (s'', BOOTSEL_INVALID).
Proof.
  apply (boot_attempts_end (g := ram_adaptor) true 0 bl_a sample_slots 1 2 (gpt (sample_ent devinfo_nm 128 129)) (gpt (sample_ent misc_nm 256 271)) sample_meta zeroed).
  - apply (device_tab sample_device); [exact sample_device_ok|reflexivity|exact (proj1 (dv_tmp _ _ _ _ _ sample_device_ok))|reflexivity|reflexivity|exact (proj2 (dv_info _ _ _ _ _ sample_device_ok))].
  - vm_compute. reflexivity.
  - split; [|split; reflexivity]. constructor; [unfold is_u32; simpl; unfold BOOTCTRL_MAGIC; lia| |reflexivity].
    apply List.Forall_forall. intros x Hx. vm_compute in Hx. unfold is_u8. repeat (destruct Hx as [<-|Hx]; [lia|]). destruct Hx.
  - intros i s. constructor; [reflexivity|reflexivity|split; [apply zeros_bytes|apply length_replicate]|split; [reflexivity|apply zeros_bytes]].
  - reflexivity.
Defined.
