(* ===== verification/Mmgr.v ===== *)
(** * The memory manager (boot/common/lib/mmgr.c)

    A first-fit allocator over an arena.  The nodes live in a pool of 200
    entries and are linked into two doubly linked lists by pointers; a node
    pointer is its index in the pool, NULL is [None].  A write or a read
    through NULL is undefined ([None]), but for the one the code performs in
    [insert_node_2_free] (see [null_zero]). *)

From S2P Require Import Prelude Disk.

Definition RESERVE_MEM_SIZE : Z := 8 * 1024.
Definition MAXNUM_POOL : nat := 200.
Definition PAGE : Z := 4096.
Definition NODE_FREE : Z := 0.
Definition NODE_USED : Z := 1.

Record Mnode := mk_node {
  prev : option nat;
  next : option nat;
  base : Z;     (* unsigned long *)
  size : Z;     (* unsigned int *)
  isused : Z;
}.

Definition zero_node : Mnode := mk_node None None 0 0 NODE_FREE.

Definition set_prev v n := mk_node v (next n) (base n) (size n) (isused n).
Definition set_next v n := mk_node (prev n) v (base n) (size n) (isused n).
Definition set_base v n := mk_node (prev n) (next n) v (size n) (isused n).
Definition set_size v n := mk_node (prev n) (next n) (base n) v (isused n).
Definition set_isused v n := mk_node (prev n) (next n) (base n) (size n) v.

Record Memmgr := mk_mgr {
  membase : Z;
  totalsize : Z;
  num : Z;
  p_free : option nat;
  p_alloc : option nat;
  pool : list Mnode;
}.

Definition set_num v m := mk_mgr (membase m) (totalsize m) v (p_free m) (p_alloc m) (pool m).
Definition set_p_free v m := mk_mgr (membase m) (totalsize m) (num m) v (p_alloc m) (pool m).
Definition set_p_alloc v m := mk_mgr (membase m) (totalsize m) (num m) (p_free m) v (pool m).
Definition set_pool v m := mk_mgr (membase m) (totalsize m) (num m) (p_free m) (p_alloc m) v.

Inductive MEM_TYPE := MEM_COMMON | MEM_ION_CACHEABLE | MEM_ION_NONCACHEABLE.

#[export] Instance MEM_TYPE_dec : EqDecision MEM_TYPE.
Proof. solve_decision. Defined.

(** [p->f] and [p->f = v] for a node of the pool. *)
Definition node (m : Memmgr) (p : nat) : option Mnode := pool m !! p.

Definition upd_node (m : Memmgr) (p : nat) (f : Mnode -> Mnode) : option Memmgr :=
  if decide (p < length (pool m))%nat then Some (set_pool (alter f p (pool m)) m) else None.

(** [if(q) q->f = v] *)
Definition upd_if (m : Memmgr) (q : option nat) (f : Mnode -> Mnode) : option Memmgr :=
  match q with Some p => upd_node m p f | None => Some m end.

Fixpoint first_free (i : nat) (l : list Mnode) : option nat :=
  match l with
  | [] => None
  | n :: l' => if isused n =? NODE_FREE then Some i else first_free (S i) l'
  end.

Definition find_valid_node_from_pool (m : Memmgr) : Memmgr * option nat :=
  match first_free 0 (take MAXNUM_POOL (pool m)) with
  | Some i => (set_num (u32 (num m + 1)) (set_pool (alter (set_isused NODE_USED) i (pool m)) m), Some i)
  | None => (m, None)
  end.

Definition return_node_2_pool (m : Memmgr) (p : nat) : option Memmgr :=
  m ← upd_node m p (fun _ => zero_node); Some (set_num (u32 (num m - 1)) m).

(** What [init_mmgr_by_type] makes of the reserved memory it has cleared. *)
Definition fresh_mmgr (mstart size : Z) : option Memmgr :=
  let m := mk_mgr (u64 (mstart + RESERVE_MEM_SIZE)) (u32 (size - RESERVE_MEM_SIZE)) 0 None None
             (replicate MAXNUM_POOL zero_node) in
  let '(m, p) := find_valid_node_from_pool m in
  let m := set_p_free p m in
  p ← p;
  m ← upd_node m p (set_base (membase m));
  m ← upd_node m p (set_size (totalsize m));
  m ← upd_node m p (set_prev None);
  m ← upd_node m p (set_next None);
  Some (set_p_alloc None m).

(** The requested size rounded up to the unit of the memory type. *)
Definition unit_of (type : MEM_TYPE) : Z :=
  match type with MEM_COMMON => 64 | _ => PAGE end.

Definition alloc_size_of (type : MEM_TYPE) (size : Z) : Z :=
  let mask := unit_of type - 1 in
  u32 (if Z.land size mask =? 0 then size else i32 (Z.land size (Z.lnot mask) + unit_of type)).

(** Taking node [p] out of the list with head [head]: the same statements in
    [mmgr_alloc_by_type] (free list) and [mmgr_free_by_type] (allocated list). *)
Definition unlink (m : Memmgr) (head : option nat) (p : nat) : option (Memmgr * option nat) :=
  n ← node m p;
  match prev n, next n with
  | None, None => Some (m, None)
  | _, _ =>
      '(m, head) ← (if decide (head = Some p)
                    then q ← next n; m ← upd_node m q (set_prev None); Some (m, Some q)
                    else Some (m, head));
      n ← node m p;
      m ← upd_if m (prev n) (set_next (next n));
      m ← upd_if m (next n) (set_prev (prev n));
      Some (m, head)
  end.

(** The body of the search loop of [mmgr_alloc_by_type] for a fitting node. *)
Definition alloc_at (m : Memmgr) (p : nat) (alloc_size : Z) : option (Memmgr * Z) :=
  let '(m, new) := find_valid_node_from_pool m in
  new ← new;
  n ← node m p;
  m ← upd_node m new (set_base (base n));
  m ← upd_node m new (set_size alloc_size);
  m ← upd_node m new (set_next (p_alloc m));
  let m := set_p_alloc (Some new) m in
  nn ← node m new;
  m ← upd_if m (next nn) (set_prev (Some new));
  n ← node m p;
  m ← (if size n =? alloc_size
       then '(m, h) ← unlink m (p_free m) p; return_node_2_pool (set_p_free h m) p
       else m ← upd_node m p (set_base (u64 (base n + alloc_size)));
            upd_node m p (set_size (u32 (size n - alloc_size))));
  h ← p_alloc m; nh ← node m h; Some (m, base nh).

Fixpoint alloc_loop (fuel : nat) (m : Memmgr) (p : option nat) (alloc_size : Z) : option (Memmgr * option Z) :=
  match fuel, p with
  | _, None => Some (m, None)
  | O, _ => None
  | S fuel, Some p =>
      n ← node m p;
      if alloc_size <=? size n
      then '(m, a) ← alloc_at m p alloc_size; Some (m, Some a)
      else alloc_loop fuel m (next n) alloc_size
  end.

(** A list holds at most the 200 nodes of the pool. *)
Definition list_fuel : nat := S MAXNUM_POOL.

Definition mgr_alloc (type : MEM_TYPE) (m : Memmgr) (size : Z) : option (Memmgr * option Z) :=
  if size <=? 0 then Some (m, None)
  else if Z.of_nat MAXNUM_POOL <? num m then Some (m, None)
  else alloc_loop list_fuel m (p_free m) (alloc_size_of type size).

Section Free.
(** [insert_node_2_free] may hand NULL to [check_prevnode_and_merge], which reads
    the word at address 0.  [null_zero] says that this read is allowed and gives
    0; any other outcome is outside the C program's control. *)
Variable null_zero : bool.

Definition check_prevnode_and_merge (m : Memmgr) (p : option nat) : option (Memmgr * option nat) :=
  match p with
  | None => if null_zero then Some (m, None) else None
  | Some p =>
      n ← node m p;
      match prev n with
      | None => Some (m, Some p)
      | Some q =>
          nq ← node m q;
          if u64 (base nq + size nq) =? base n
          then m ← upd_node m q (set_size (u32 (size nq + size n)));
               m ← upd_node m q (set_next (next n));
               m ← upd_if m (next n) (set_prev (Some q));
               m ← return_node_2_pool m p;
               Some (m, Some q)
          else Some (m, Some p)
      end
  end.

(** The loop that looks for the place of a node with base [b]. *)
Fixpoint find_place (fuel : nat) (m : Memmgr) (pf : nat) (b : Z) : option nat :=
  match fuel with
  | O => None
  | S fuel =>
      n ← node m pf;
      if base n <? b
      then match next n with Some q => find_place fuel m q b | None => Some pf end
      else Some pf
  end.

Definition insert_node_2_free (m : Memmgr) (p : nat) : option Memmgr :=
  match p_free m with
  | None => m ← upd_node (set_p_free (Some p) m) p (set_prev None); upd_node m p (set_next None)
  | Some h =>
      n ← node m p;
      pf ← find_place list_fuel m h (base n);
      nf ← node m pf;
      m ← (if base nf <? base n
           then m ← upd_node m pf (set_next (Some p));
                m ← upd_node m p (set_prev (Some pf));
                upd_node m p (set_next None)
           else let m := match prev nf with None => set_p_free (Some p) m | Some _ => m end in
                m ← upd_node m p (set_prev (prev nf));
                m ← upd_if m (prev nf) (set_next (Some p));
                m ← upd_node m p (set_next (Some pf));
                upd_node m pf (set_prev (Some p)));
      '(m, pf) ← check_prevnode_and_merge m (Some p);
      q ← pf; nq ← node m q;
      '(m, _) ← check_prevnode_and_merge m (next nq);
      Some m
  end.

Fixpoint find_alloc (fuel : nat) (m : Memmgr) (p : option nat) (a : Z) : option (option nat) :=
  match fuel, p with
  | _, None => Some None
  | O, _ => None
  | S fuel, Some p => n ← node m p; if base n =? a then Some (Some p) else find_alloc fuel m (next n) a
  end.

Definition mgr_free (m : Memmgr) (a : Z) : option Memmgr :=
  r ← find_alloc list_fuel m (p_alloc m) a;
  match r with
  | None => Some m
  | Some p =>
      '(m, h) ← unlink m (p_alloc m) p;
      insert_node_2_free (set_p_alloc h m) p
  end.

(** ** The managers of the three memory types, and the memory itself *)

Record memory := mk_memory { g_mmgr : MEM_TYPE -> option Memmgr; mem : Z -> Z }.

Definition set_mgr (t : MEM_TYPE) (m : Memmgr) (s : memory) : memory :=
  mk_memory (fun t' => if decide (t' = t) then Some m else g_mmgr s t') (mem s).

Definition init_mmgr_by_type (s : memory) (type : MEM_TYPE) (mstart size : Z) : option memory :=
  match g_mmgr s type with
  | Some _ => Some s
  | None =>
      m ← fresh_mmgr mstart size;
      Some (set_mgr type m (mk_memory (g_mmgr s) (upd (mem s) mstart (replicate (Z.to_nat RESERVE_MEM_SIZE) 0))))
  end.

Definition init_mmgr (s : memory) (mstart size : Z) : option memory :=
  init_mmgr_by_type s MEM_COMMON mstart size.

Definition mmgr_alloc_by_type (s : memory) (type : MEM_TYPE) (size : Z) : option (memory * option Z) :=
  match g_mmgr s type with
  | None => Some (s, None)
  | Some m => '(m, a) ← mgr_alloc type m size; Some (set_mgr type m s, a)
  end.

Definition mmgr_alloc (s : memory) (size : Z) : option (memory * option Z) :=
  mmgr_alloc_by_type s MEM_COMMON size.

Definition mmgr_calloc (s : memory) (n size : Z) : option (memory * option Z) :=
  '(s, ptr) ← mmgr_alloc s (i32 (n * size));
  match ptr with
  | None => Some (s, None)
  | Some a => Some (mk_memory (g_mmgr s) (upd (mem s) a (replicate (Z.to_nat (i32 (n * size))) 0)), Some a)
  end.

Definition mmgr_free_by_type (s : memory) (type : MEM_TYPE) (a : Z) : option memory :=
  match g_mmgr s type with
  | None => Some s
  | Some m => m ← mgr_free m a; Some (set_mgr type m s)
  end.

Definition mmgr_free (s : memory) (a : Z) : option memory := mmgr_free_by_type s MEM_COMMON a.
End Free.
