(* ===== verification/Blocks.v ===== *)
(** * The abstract allocator

    The specification the memory manager (Mmgr.v) is proved against: a state
    is the list of free blocks, in address order, and the list of allocated
    blocks, the latest first; a block is its base and its size.  The
    invariant [arena] says that the blocks are apart, lie inside the arena,
    are aligned and add up to it. *)

From S2P Require Import Prelude.

Abbreviation block := (Z * Z)%type.
Abbreviation blocks := (list block).

(** First fit: the first free block of at least [n] bytes gives its lower part. *)
Fixpoint take_fit (n : Z) (fr : blocks) : option (Z * blocks) :=
  match fr with
  | [] => None
  | (b, s) :: fr' =>
      if n <=? s
      then Some (b, if s =? n then fr' else (b + n, s - n) :: fr')
      else '(a, fr'') ← take_fit n fr'; Some (a, (b, s) :: fr'')
  end.

(** [b] in front of [l], merged with the head of [l] where they touch. *)
Definition join (b : block) (l : blocks) : blocks :=
  match l with
  | x :: l' => if b.1 + b.2 =? x.1 then (b.1, b.2 + x.2) :: l' else b :: l
  | [] => [b]
  end.

Fixpoint give_back (b : block) (fr : blocks) : blocks :=
  match fr with
  | [] => [b]
  | x :: fr' => if x.1 <? b.1 then join x (give_back b fr') else join b fr
  end.

(** The first allocated block at [a], and the others. *)
Fixpoint extract (a : Z) (al : blocks) : option (block * blocks) :=
  match al with
  | [] => None
  | x :: al' => if x.1 =? a then Some (x, al') else '(y, al'') ← extract a al'; Some (y, x :: al'')
  end.

Definition spec_alloc (n : Z) (fr al : blocks) : blocks * blocks * option Z :=
  match take_fit n fr with
  | Some (a, fr') => (fr', (a, n) :: al, Some a)
  | None => (fr, al, None)
  end.

Definition spec_free (a : Z) (fr al : blocks) : blocks * blocks :=
  match extract a al with
  | Some (b, al') => (give_back b fr, al')
  | None => (fr, al)
  end.

(** ** The invariant *)

Definition apart (x y : block) : Prop := x.1 + x.2 <= y.1 \/ y.1 + y.2 <= x.1.

Definition total (l : blocks) : Z := foldr (fun b z => b.2 + z) 0 l.

(** Blocks in address order, with a gap between neighbours. *)
Fixpoint gapped (l : blocks) : Prop :=
  match l with
  | x :: l' => Forall (fun y => x.1 + x.2 < y.1) l' /\ gapped l'
  | [] => True
  end.

Section Arena.
(** The arena starts at [mb], has [ts] bytes and is cut in units of [u] bytes. *)
Context (mb ts u : Z).

Definition placed (b : block) : Prop := 0 < b.2 /\ mb <= b.1 /\ b.1 + b.2 <= mb + ts /\ (u | b.1 - mb).

Record tiling (l : blocks) : Prop := {
  tl_placed : Forall placed l;
  tl_apart : ForallOrdPairs apart l;
  tl_total : total l = ts;
}.

Record arena (fr al : blocks) : Prop := {
  ar_tiling : tiling (fr ++ al);
  ar_gapped : gapped fr;
  ar_units : Forall (fun b => (u | b.2)) al;
}.

Lemma total_perm l l' : l ≡ₚ l' -> total l = total l'.
Proof. induction 1; simpl; lia. Qed.

Lemma total_app l l' : total (l ++ l') = total l + total l'.
Proof. induction l; simpl; lia. Qed.

Lemma apart_sym x y : apart x y -> apart y x.
Proof. unfold apart. lia. Qed.

Lemma apart_perm l l' : l ≡ₚ l' -> ForallOrdPairs apart l -> ForallOrdPairs apart l'.
Proof.
  induction 1 as [|x l l' Hp IH|x y l|l1 l2 l3 _ IH1 _ IH2]; intros H; auto.
  - inversion_clear H. constructor; [by rewrite <- Hp|auto].
  - inversion_clear H as [|? ? Hy Hl]. inversion_clear Hl as [|? ? Hx Hl']. inversion_clear Hy.
    constructor; [constructor; [by apply apart_sym|done]|]. by constructor.
Qed.

Lemma tiling_perm l l' : l ≡ₚ l' -> tiling l -> tiling l'.
Proof.
  intros Hp [H1 H2 H3]. constructor; [by rewrite <- Hp|eauto using apart_perm|].
  by rewrite <- (total_perm _ _ Hp).
Qed.

(** Cutting a block in two, and gluing two blocks that touch. *)
Lemma tiling_cut b s n l :
  0 < n < s -> (u | n) -> tiling ((b, s) :: l) -> tiling ((b, n) :: (b + n, s - n) :: l).
Proof.
  intros Hn Hu [H1 H2 H3]. apply Forall_cons_iff in H1 as [(?&?&?&Hd) Hp]. inversion_clear H2 as [|? ? Ha Hl].
  simpl in *. constructor.
  - constructor; [|constructor; [|done]]; unfold placed; simpl; repeat split; try lia; [done|].
    replace (b + n - mb) with (b - mb + n) by lia. by apply Z.divide_add_r.
  - constructor; [constructor; [unfold apart; simpl; lia|]|constructor; [|done]];
      (eapply Forall_impl; [|exact Ha]); unfold apart; simpl; intros; lia.
  - simpl. lia.
Qed.

Lemma tiling_glue b s s' l :
  tiling ((b, s) :: (b + s, s') :: l) -> tiling ((b, s + s') :: l).
Proof.
  intros [H1 H2 H3]. apply Forall_cons_iff in H1 as [(?&?&?&Hd) Hp]. apply Forall_cons_iff in Hp as [(?&?&?&?) Hp'].
  inversion_clear H2 as [|? ? Ha Hl]. apply Forall_cons_iff in Ha as [_ Ha'].
  inversion_clear Hl as [|? ? Ha2 Hl']. simpl in *. constructor.
  - constructor; [|done]. unfold placed. simpl. repeat split; lia || done.
  - constructor; [|done]. rewrite Forall_forall in *. intros x Hx.
    pose proof (Ha' x Hx). pose proof (Ha2 x Hx). pose proof (Hp' x Hx) as (?&?&?&?).
    unfold apart in *. simpl in *. lia.
  - simpl. lia.
Qed.

Lemma join_tiling b l al : tiling (b :: l ++ al) -> tiling (join b l ++ al).
Proof.
  destruct l as [|[b' s'] l]; simpl; [done|]. destruct (Z.eqb_spec (b.1 + b.2) b') as [<-|]; [|done].
  destruct b as [b s]. apply tiling_glue.
Qed.

Lemma give_back_tiling b fr al : tiling (b :: fr ++ al) -> tiling (give_back b fr ++ al).
Proof.
  revert al. induction fr as [|x fr IH]; intros al H; [done|]. cbn [give_back].
  destruct (Z.ltb_spec x.1 b.1); [|by apply join_tiling].
  apply join_tiling. eapply tiling_perm; [|apply (IH (x :: al))].
  - by rewrite Permutation_middle.
  - eapply tiling_perm; [|exact H]. simpl. by rewrite Permutation_middle.
Qed.

Lemma give_back_length b fr : (length (give_back b fr) <= S (length fr))%nat.
Proof.
  induction fr as [|x fr IH]; [done|]. cbn [give_back].
  assert (Hj : forall y l, (length (join y l) <= S (length l))%nat) by (intros y [|z l]; simpl; [lia|case_match; simpl; lia]).
  case_match; [|apply Hj]. specialize (Hj x (give_back b fr)). simpl. lia.
Qed.

(** ** The free list stays gapped *)

Definition above (z : Z) (l : blocks) : Prop := Forall (fun y => z < y.1) l.

Lemma gapped_app l1 l2 :
  gapped (l1 ++ l2) <-> gapped l1 /\ gapped l2 /\ Forall (fun x => above (x.1 + x.2) l2) l1.
Proof.
  induction l1 as [|x l1 IH]; simpl; [split; [intros; repeat split; auto|tauto]|].
  rewrite IH, Forall_app, Forall_cons_iff. unfold above. tauto.
Qed.

Lemma join_gapped b l : 0 < b.2 -> Forall (fun y => b.1 + b.2 <= y.1 /\ 0 < y.2) l -> gapped l -> gapped (join b l).
Proof.
  intros Hb Hf Hg. destruct l as [|x l]; simpl; [split; [constructor|done]|].
  apply Forall_cons_iff in Hf as [[Hx Hx2] Hf']. destruct Hg as [Hgx Hg].
  case_match; simpl in *; bool_simpl.
  - split; [|done]. eapply Forall_impl; [|exact Hgx]. simpl. lia.
  - split; [|done]. constructor; [lia|]. eapply Forall_impl; [|exact Hgx]. simpl. lia.
Qed.

(** The bases after a release are among those before and the released one. *)
Lemma join_above z b l : above z (join b l) <-> z < b.1 /\ (above z l \/ exists x l', l = x :: l' /\ b.1 + b.2 = x.1 /\ above z l').
Proof.
  unfold above. destruct l as [|x l]; simpl.
  - rewrite Forall_singleton. split; [intros; split; [done|left; constructor]|tauto].
  - case_match; rewrite !Forall_cons_iff; simpl; bool_simpl; split.
    + intros [? ?]. split; [done|]. right. eauto.
    + intros [? [[??]|(?&?&[=<- <-]&?&?)]]; auto.
    + intros (?&?&?). split; [done|]. left. auto.
    + intros [? [[??]|(?&?&[=<- <-]&?&?)]]; [auto|lia].
Qed.

Lemma give_back_above z b fr : z < b.1 -> above z fr -> above z (give_back b fr).
Proof.
  intros Hb. induction fr as [|x fr IH]; intros H; [by constructor|]. cbn [give_back].
  pose proof H as H'. apply Forall_cons_iff in H' as [Hx Hf]. case_match; apply join_above; auto.
Qed.

Lemma join_pos b l : 0 < b.2 -> Forall (fun y => 0 < y.2) l -> Forall (fun y => 0 < y.2) (join b l).
Proof.
  intros Hb Hl. destruct l as [|x l]; simpl; [by constructor|]. apply Forall_cons_iff in Hl as [? ?].
  case_match; repeat constructor; simpl; auto with lia.
Qed.

Lemma give_back_pos b fr : 0 < b.2 -> Forall (fun y => 0 < y.2) fr -> Forall (fun y => 0 < y.2) (give_back b fr).
Proof.
  intros Hb. induction fr as [|x fr IH]; intros H; [by constructor|]. cbn [give_back].
  pose proof H as H'. apply Forall_cons_iff in H' as [Hx Hf]. case_match; apply join_pos; auto.
Qed.

Lemma give_back_gapped b fr :
  0 < b.2 -> Forall (fun y => 0 < y.2 /\ apart b y) fr -> gapped fr -> gapped (give_back b fr).
Proof.
  intros Hb. induction fr as [|x fr IH]; intros Hf Hg; [simpl; split; [constructor|done]|].
  apply Forall_cons_iff in Hf as [[Hx Ha] Hf']. destruct Hg as [Hgx Hg]. cbn [give_back].
  destruct (Z.ltb_spec x.1 b.1).
  - apply join_gapped; [done| |by apply IH].
    assert (Hab : above (x.1 + x.2 - 1) (give_back b fr)).
    { apply give_back_above; [unfold apart in Ha; lia|]. eapply Forall_impl; [|exact Hgx]. simpl. lia. }
    assert (Hpos : Forall (fun y => 0 < y.2) (give_back b fr)).
    { apply give_back_pos; [done|]. eapply Forall_impl; [|exact Hf']. simpl. tauto. }
    unfold above in Hab. rewrite Forall_forall in *. intros y Hy. split; [specialize (Hab y Hy); simpl in *; lia|auto].
  - apply join_gapped; [done| |split; done]. unfold apart in Ha. constructor; [lia|].
    rewrite Forall_forall in *. intros y Hy. specialize (Hgx y Hy). specialize (Hf' y Hy) as [? ?]. simpl in *. lia.
Qed.

(** ** The operations keep the arena *)

Lemma take_fit_split n fr a fr' :
  take_fit n fr = Some (a, fr') ->
  exists f1 s f2, fr = f1 ++ (a, s) :: f2 /\ Forall (fun b => b.2 < n) f1 /\ n <= s /\
    fr' = f1 ++ (if s =? n then f2 else (a + n, s - n) :: f2).
Proof.
  revert fr'. induction fr as [|[b s] fr IH]; intros fr' H; simpl in H; [done|].
  destruct (Z.leb_spec n s) as [Hs|Hs].
  - injection H as <- <-. exists [], s, fr. repeat split; [constructor|done].
  - destruct (take_fit n fr) as [[a' fr'']|]; [|done]. simpl in H. injection H as -> <-.
    destruct (IH fr'' eq_refl) as (f1 & s' & f2 & -> & Hf & Hn & ->).
    exists ((b, s) :: f1), s', f2. repeat split; [by constructor|done].
Qed.

Lemma take_fit_none n fr : take_fit n fr = None <-> Forall (fun b => b.2 < n) fr.
Proof.
  induction fr as [|[b s] fr IH]; simpl; [split; [constructor|done]|]. rewrite Forall_cons_iff, <- IH. simpl.
  destruct (Z.leb_spec n s); [split; [done|lia]|]. destruct (take_fit n fr) as [[? ?]|]; simpl; naive_solver.
Qed.

Lemma gapped_cut f1 a s f2 n :
  0 < n -> n <= s -> gapped (f1 ++ (a, s) :: f2) -> gapped (f1 ++ (if s =? n then f2 else (a + n, s - n) :: f2)).
Proof.
  intros Hn Hs. rewrite !gapped_app. cbn [gapped fst snd]. intros (H1 & [Ha H2] & H3).
  split; [done|]. case_match; bool_simpl.
  - split; [done|]. eapply Forall_impl; [|exact H3]. unfold above. intros x Hx. by apply Forall_cons_iff in Hx as [_ ?].
  - cbn [gapped fst snd]. split.
    + split; [|done]. eapply Forall_impl; [|exact Ha]. simpl. lia.
    + eapply Forall_impl; [|exact H3]. unfold above. intros x Hx. apply Forall_cons_iff in Hx as [? ?].
      simpl in *. constructor; [simpl; lia|done].
Qed.

Lemma spec_alloc_arena n fr al fr' al' r :
  0 < n -> (u | n) -> arena fr al -> spec_alloc n fr al = (fr', al', r) -> arena fr' al'.
Proof.
  unfold spec_alloc. intros Hn Hu Har H. destruct (take_fit n fr) as [[a f]|] eqn:Ht; [|by injection H as <- <- <-].
  injection H as <- <- <-. apply take_fit_split in Ht as (f1 & s & f2 & -> & _ & Hs & ->).
  destruct Har as [Hti Hg Hun]. constructor; [|by apply gapped_cut|by constructor].
  assert (Hti' : tiling ((a, s) :: f1 ++ f2 ++ al)).
  { eapply tiling_perm; [|exact Hti]. solve_Permutation. }
  case_match; bool_simpl.
  - subst s. eapply tiling_perm; [|exact Hti']. solve_Permutation.
  - eapply tiling_perm; [|apply (tiling_cut a s n); [lia|done|exact Hti']].
    solve_Permutation.
Qed.

Lemma extract_perm a al b al' : extract a al = Some (b, al') -> b.1 = a /\ al ≡ₚ b :: al'.
Proof.
  revert al'. induction al as [|x al IH]; intros al' H; simpl in H; [done|].
  destruct (Z.eqb_spec x.1 a); [by injection H as <- <-|].
  destruct (extract a al) as [[y al'']|]; [|done]. simpl in H. injection H as -> <-.
  destruct (IH al'' eq_refl) as [Ha Hp]. split; [done|]. rewrite Hp. apply perm_swap.
Qed.

Lemma spec_free_arena a fr al fr' al' : arena fr al -> spec_free a fr al = (fr', al') -> arena fr' al'.
Proof.
  unfold spec_free. intros Har H. destruct (extract a al) as [[b l]|] eqn:He; [|by injection H as <- <-].
  injection H as <- <-. apply extract_perm in He as [_ Hp]. destruct Har as [Hti Hg Hun].
  assert (Hti' : tiling (b :: fr ++ l)).
  { eapply tiling_perm; [|exact Hti]. rewrite Hp. by rewrite <- Permutation_middle. }
  rewrite Hp in Hun. apply Forall_cons_iff in Hun as [_ Hun].
  constructor; [by apply give_back_tiling| |done].
  destruct Hti' as [Hpl Hap _]. apply Forall_cons_iff in Hpl as [[Hb _] Hpl]. inversion_clear Hap as [|? ? Hab _].
  apply give_back_gapped; [done| |done]. apply Forall_app in Hpl as [Hpl _]. apply Forall_app in Hab as [Hab _].
  rewrite Forall_forall in *. intros y Hy. split; [apply (Hpl y Hy)|auto].
Qed.

(** Giving back what was just taken restores the free list. *)
Lemma give_back_take n fr a fr' :
  0 < n -> gapped fr -> Forall (fun b => 0 < b.2) fr -> take_fit n fr = Some (a, fr') -> give_back (a, n) fr' = fr.
Proof.
  intros Hn Hg Hp Ht. apply take_fit_split in Ht as (f1 & s & f2 & -> & _ & Hs & ->).
  assert (Hj : give_back (a, n) (if s =? n then f2 else (a + n, s - n) :: f2) = (a, s) :: f2).
  { apply gapped_app in Hg as (_ & [Ha Hg] & _). case_match; bool_simpl.
    - subst s. destruct f2 as [|x f2]; [done|]. apply Forall_cons_iff in Ha as [Hx _]. simpl in *.
      destruct (Z.ltb_spec x.1 a); [lia|]. destruct (Z.eqb_spec (a + n) x.1); [lia|done].
    - simpl. destruct (Z.ltb_spec (a + n) a); [lia|]. rewrite Z.eqb_refl. repeat f_equal. lia. }
  induction f1 as [|x f1 IH]; [done|]. simpl in Hg, Hp |- *. destruct Hg as [Hx Hg].
  apply Forall_cons_iff in Hp as [Hx2 Hp]. rewrite IH by done.
  apply Forall_app in Hx as [Hx1 Hx]. apply Forall_cons_iff in Hx as [Hxa Hx]. simpl in Hxa.
  destruct (Z.ltb_spec x.1 a); [|lia]. destruct f1 as [|y f1]; simpl.
  - destruct (Z.eqb_spec (x.1 + x.2) a); [lia|done].
  - apply Forall_cons_iff in Hx1 as [Hy _]. destruct (Z.eqb_spec (x.1 + x.2) y.1); [lia|done].
Qed.

(** Where a block goes: after the blocks below it, merged on both sides. *)
Definition glued (fr1 : blocks) (b : block) (fr2 : blocks) (r : blocks) : Prop :=
  (fr1 = [] /\ r = join b fr2) \/
  (exists g x, fr1 = g ++ [x] /\ r = g ++ join x (join b fr2)).

Lemma join_head b l : exists s l', join b l = (b.1, s) :: l'.
Proof. destruct b, l as [|x l]; simpl; [eauto|]. case_match; eauto. Qed.

Lemma give_back_glued b fr1 fr2 :
  gapped (fr1 ++ fr2) -> Forall (fun x => x.1 < b.1) fr1 -> Forall (fun x => b.1 <= x.1) fr2 ->
  glued fr1 b fr2 (give_back b (fr1 ++ fr2)).
Proof.
  intros Hg H1 H2. assert (H0 : give_back b fr2 = join b fr2).
  { destruct fr2 as [|x fr2]; [done|]. apply Forall_cons_iff in H2 as [Hx _]. cbn [give_back].
    by rewrite (proj2 (Z.ltb_ge _ _)). }
  destruct fr1 as [|x g _] using rev_ind; [left; by rewrite <- H0|]. right. exists g, x. split; [done|].
  rewrite <- app_assoc in *. cbn [app] in *. apply Forall_app in H1 as [H1 Hx]. apply Forall_cons_iff in Hx as [Hx _].
  induction g as [|y g IH]; cbn [app give_back].
  - rewrite (proj2 (Z.ltb_lt _ _)) by done. by rewrite H0.
  - apply Forall_cons_iff in H1 as [Hy H1]. destruct Hg as [Hgy Hg]. rewrite (proj2 (Z.ltb_lt _ _)) by done.
    rewrite IH by done. apply Forall_app in Hgy as [Hgg Hgx]. apply Forall_cons_iff in Hgx as [Hgx _].
    destruct g as [|z g]; cbn [app].
    + destruct (join_head x (join b fr2)) as (s & l' & ->). cbn [join fst].
      by rewrite (proj2 (Z.eqb_neq _ _)) by lia.
    + apply Forall_cons_iff in Hgg as [Hz _]. cbn [join]. by rewrite (proj2 (Z.eqb_neq _ _)) by lia.
Qed.

Lemma join_join x b l : x.1 + x.2 = b.1 -> join x (join b l) = join (x.1, x.2 + b.2) l.
Proof.
  intros H. destruct l as [|y l]; cbn [join fst snd]; [by rewrite H, Z.eqb_refl|].
  replace (x.1 + (x.2 + b.2)) with (b.1 + b.2) by lia. destruct (Z.eqb_spec (b.1 + b.2) y.1); cbn [join fst snd];
    rewrite H, Z.eqb_refl; [|done]. by rewrite Z.add_assoc.
Qed.

Lemma join_apart x b l : x.1 + x.2 <> b.1 -> join x (join b l) = x :: join b l.
Proof. intros H. destruct (join_head b l) as (s & l' & ->). cbn [join fst]. by rewrite (proj2 (Z.eqb_neq _ _)). Qed.

(** A gapped list splits at an address. *)
Lemma gapped_split z fr :
  gapped fr -> Forall (fun x => 0 < x.2) fr ->
  exists fr1 fr2, fr = fr1 ++ fr2 /\ Forall (fun x => x.1 < z) fr1 /\ Forall (fun x => z <= x.1) fr2.
Proof.
  induction fr as [|x fr IH]; intros Hg Hp; [by exists [], []|]. destruct Hg as [Hx Hg]. apply Forall_cons_iff in Hp as [Hx2 Hp].
  destruct (Z.lt_ge_cases x.1 z) as [Hlt|Hge].
  - destruct (IH Hg Hp) as (f1 & f2 & -> & H1 & H2). exists (x :: f1), f2. repeat split; [by constructor|done].
  - exists [], (x :: fr). repeat split; [constructor|]. constructor; [done|].
    eapply Forall_impl; [|exact Hx]. simpl. lia.
Qed.
End Arena.
