(* ===== verification/MmgrRefine.v ===== *)
(** * The memory manager implements the abstract allocator

    [rep m fps fr aps al] relates a manager to lists of blocks: the nodes [fps]
    form the doubly linked free list with the blocks [fr], the nodes [aps] the
    allocated list with the blocks [al], and every other node of the pool is
    zero.  Allocation and release are proved to commute with [spec_alloc] and
    [spec_free] (Blocks.v). *)

From stdpp Require Import sets.
From S2P Require Import Prelude Disk Mmgr Blocks.

(** ** Doubly linked segments

    [dseg P prv ps nxt bs]: the nodes [ps] of pool [P] are linked in this order
    and hold the blocks [bs]; the first points back to [prv], the last forward
    to [nxt]. *)

Definition hd_or (ps : list nat) (nxt : option nat) : option nat :=
  match ps with p :: _ => Some p | [] => nxt end.

Fixpoint last_or (ps : list nat) (prv : option nat) : option nat :=
  match ps with p :: ps' => last_or ps' (Some p) | [] => prv end.

Fixpoint dseg (P : list Mnode) (prv : option nat) (ps : list nat) (nxt : option nat) (bs : blocks) : Prop :=
  match ps, bs with
  | [], [] => True
  | p :: ps', b :: bs' =>
      P !! p = Some (mk_node prv (hd_or ps' nxt) b.1 b.2 NODE_USED) /\ dseg P (Some p) ps' nxt bs'
  | _, _ => False
  end.

Lemma last_or_snoc ps p prv : last_or (ps ++ [p]) prv = Some p.
Proof. revert prv. induction ps as [|q ps IH]; intros prv; [done|apply IH]. Qed.

Lemma hd_or_app ps1 ps2 nxt : hd_or (ps1 ++ ps2) nxt = hd_or ps1 (hd_or ps2 nxt).
Proof. by destruct ps1. Qed.

Lemma head_hd_or ps : head ps = hd_or ps None.
Proof. by destruct ps. Qed.

Lemma dseg_length P prv ps nxt bs : dseg P prv ps nxt bs -> length ps = length bs.
Proof. revert prv bs. induction ps as [|p ps IH]; intros prv [|b bs]; simpl; try done. intros [_ H]. by rewrite (IH _ _ H). Qed.

Lemma dseg_app P prv ps1 ps2 nxt bs1 bs2 :
  length ps1 = length bs1 ->
  dseg P prv (ps1 ++ ps2) nxt (bs1 ++ bs2) <->
  dseg P prv ps1 (hd_or ps2 nxt) bs1 /\ dseg P (last_or ps1 prv) ps2 nxt bs2.
Proof.
  revert prv bs1. induction ps1 as [|p ps1 IH]; intros prv [|b bs1] Hl; simpl in *; try done; [tauto|].
  rewrite IH, hd_or_app by lia. tauto.
Qed.

(** A segment of nodes splits where its blocks do. *)
Lemma dseg_split P prv ps nxt bs1 bs2 :
  dseg P prv ps nxt (bs1 ++ bs2) ->
  exists ps1 ps2, ps = ps1 ++ ps2 /\ length ps1 = length bs1 /\
    dseg P prv ps1 (hd_or ps2 nxt) bs1 /\ dseg P (last_or ps1 prv) ps2 nxt bs2.
Proof.
  intros H. pose proof (dseg_length _ _ _ _ _ H) as Hl. rewrite length_app in Hl.
  exists (take (length bs1) ps), (drop (length bs1) ps). rewrite take_drop.
  assert (length (take (length bs1) ps) = length bs1) by (rewrite length_take; lia).
  repeat split; [done|..]; rewrite <- (take_drop (length bs1) ps) in H; by apply dseg_app in H as [? ?].
Qed.

Lemma dseg_ext P P' prv ps nxt bs :
  (forall p, p ∈ ps -> P' !! p = P !! p) -> dseg P prv ps nxt bs -> dseg P' prv ps nxt bs.
Proof.
  revert prv bs. induction ps as [|p ps IH]; intros prv [|b bs] He; simpl; try done.
  intros [H1 H2]. split; [rewrite He by set_solver; done|]. apply IH; [|done]. intros q Hq. apply He. set_solver.
Qed.

Lemma dseg_alter P f p prv ps nxt bs : p ∉ ps -> dseg P prv ps nxt bs -> dseg (alter f p P) prv ps nxt bs.
Proof. intros Hp. apply dseg_ext. intros q Hq. apply list_lookup_alter_ne. congruence. Qed.

Lemma dseg_lt P prv ps nxt bs p : dseg P prv ps nxt bs -> p ∈ ps -> (p < length P)%nat.
Proof.
  revert prv bs. induction ps as [|q ps IH]; intros prv [|b bs] H Hp; simpl in *; try done; [set_solver|].
  destruct H as [H1 H2]. apply elem_of_cons in Hp as [->|Hp]; [by eapply lookup_lt_Some|eauto].
Qed.

Lemma dseg_set_prev P prv r ps nxt bs v :
  r ∉ ps -> dseg P prv (r :: ps) nxt bs -> dseg (alter (set_prev v) r P) v (r :: ps) nxt bs.
Proof.
  destruct bs as [|b bs]; simpl; [done|]. intros Hr [H1 H2]. split; [|by apply dseg_alter].
  by rewrite list_lookup_alter_eq, H1.
Qed.

Lemma dseg_set_next P prv l q nxt bs v :
  NoDup (l ++ [q]) -> dseg P prv (l ++ [q]) nxt bs -> dseg (alter (set_next v) q P) prv (l ++ [q]) v bs.
Proof.
  revert prv bs. induction l as [|p l IH]; intros prv [|b bs] Hn; simpl; try done.
  - intros [H1 H2]. destruct bs; [|done]. split; [|done]. by rewrite list_lookup_alter_eq, H1.
  - intros [H1 H2]. simpl in Hn. apply list.NoDup_cons in Hn as [Hp Hn]. split; [|by apply IH].
    rewrite list_lookup_alter_ne by set_solver. rewrite H1. rewrite !hd_or_app. by destruct l.
Qed.

(** The block a node of the list holds. *)
Lemma dseg_middle P prv ps1 p ps2 nxt bs1 b bs2 :
  length ps1 = length bs1 -> dseg P prv (ps1 ++ p :: ps2) nxt (bs1 ++ b :: bs2) ->
  P !! p = Some (mk_node (last_or ps1 prv) (hd_or ps2 nxt) b.1 b.2 NODE_USED).
Proof. intros Hl H. apply dseg_app in H as [_ [H _]]; done. Qed.

Lemma dseg_set_block P prv ps1 p ps2 nxt bs1 b bs2 b' s' :
  length ps1 = length bs1 -> NoDup (ps1 ++ p :: ps2) -> dseg P prv (ps1 ++ p :: ps2) nxt (bs1 ++ b :: bs2) ->
  dseg (alter (fun n => set_size s' (set_base b' n)) p P) prv (ps1 ++ p :: ps2) nxt (bs1 ++ (b', s') :: bs2).
Proof.
  intros Hl Hn H. apply dseg_app in H as [H1 [H2 H3]]; [|done].
  apply list.NoDup_app in Hn as (Hn1 & Hn2 & Hn3). apply list.NoDup_cons in Hn3 as [Hp Hn3].
  apply dseg_app; [done|]. split; [apply dseg_alter; [|done]; intros Hp1; apply (Hn2 p Hp1); set_solver|].
  split; [by rewrite list_lookup_alter_eq, H2|by apply dseg_alter].
Qed.

Lemma alter_alter (f g : Mnode -> Mnode) p (P : list Mnode) :
  alter f p (alter g p P) = alter (fun n => f (g n)) p P.
Proof. revert p. induction P as [|x P IH]; intros [|p]; simpl; try done. f_equal. apply IH. Qed.

Lemma upd_node_ok m p f : (p < length (pool m))%nat -> upd_node m p f = Some (set_pool (alter f p (pool m)) m).
Proof. intros H. unfold upd_node. by rewrite decide_True. Qed.

Lemma set_pool_pool m P P' : set_pool P (set_pool P' m) = set_pool P m.
Proof. done. Qed.

Lemma set_pool_id m : set_pool (pool m) m = m.
Proof. by destruct m. Qed.

(** ** Taking a node out of a list *)

Lemma unlink_ok m ps1 p ps2 bs1 b bs2 :
  length ps1 = length bs1 -> NoDup (ps1 ++ p :: ps2) ->
  dseg (pool m) None (ps1 ++ p :: ps2) None (bs1 ++ b :: bs2) ->
  exists P', unlink m (head (ps1 ++ p :: ps2)) p = Some (set_pool P' m, head (ps1 ++ ps2)) /\
    dseg P' None (ps1 ++ ps2) None (bs1 ++ bs2) /\ length P' = length (pool m) /\
    forall i, i ∉ ps1 ++ ps2 -> P' !! i = pool m !! i.
Proof.
  intros Hl Hn H. pose proof (dseg_middle _ _ _ _ _ _ _ _ _ Hl H) as Hnode.
  pose proof (fun q => dseg_lt _ _ _ _ _ q H) as Hlt. apply dseg_app in H as [H1 [_ H2]]; [|done].
  apply list.NoDup_app in Hn as (Hn1 & Hn2 & Hn3). apply list.NoDup_cons in Hn3 as [Hp Hn3].
  unfold unlink, node. rewrite Hnode. cbn [mbind option_bind prev next].
  destruct ps1 as [|q1 l _] using rev_ind; [destruct bs1; [|done]|rewrite last_or_snoc].
  - destruct ps2 as [|r ps2]; cbn [hd_or last_or app head] in Hnode |- *.
    + exists (pool m). rewrite set_pool_id. destruct bs2; [|done]. repeat split; done.
    + destruct (decide _) as [_|]; [|done]. cbn [mbind option_bind].
      rewrite upd_node_ok by (apply Hlt; set_solver). cbn [mbind option_bind pool set_pool].
      rewrite list_lookup_alter_ne, Hnode by set_solver. cbn [mbind option_bind prev next upd_if].
      rewrite upd_node_ok by (cbn [pool set_pool]; rewrite length_alter; apply Hlt; set_solver).
      cbn [mbind option_bind pool set_pool]. eexists. split; [reflexivity|].
      apply list.NoDup_cons in Hn3 as [Hr Hn3]. split; [|split].
      * eapply dseg_set_prev; [done|]. eapply dseg_set_prev; [done|exact H2].
      * by rewrite !length_alter.
      * intros i Hi. rewrite !list_lookup_alter_ne by set_solver. done.
  - destruct (decide _) as [Hh|_].
    { exfalso. apply (Hn2 p); [|set_solver]. destruct l; simpl in Hh; injection Hh as ->; set_solver. }
    assert (Hh : head ((l ++ [q1]) ++ p :: ps2) = head ((l ++ [q1]) ++ ps2)) by (by destruct l).
    assert (Hq : q1 ∈ (l ++ [q1]) ++ p :: ps2) by set_solver.
    assert (Hqp : q1 <> p) by (intros ->; apply (Hn2 p); set_solver).
    cbn [mbind option_bind]. rewrite Hnode. cbn [mbind option_bind prev next]. rewrite ?last_or_snoc. cbn [upd_if].
    rewrite upd_node_ok by auto. cbn [mbind option_bind].
    pose proof (dseg_set_next _ _ _ _ _ _ (hd_or ps2 None) Hn1 H1) as H1'.
    destruct ps2 as [|r ps2]; cbn [hd_or upd_if mbind option_bind] in *.
    + eexists. rewrite Hh. split; [reflexivity|]. destruct bs2; [|done]. rewrite !app_nil_r.
      split; [done|]. split; [by rewrite length_alter|]. intros i Hi. apply list_lookup_alter_ne. set_solver.
    + apply list.NoDup_cons in Hn3 as [Hr Hn3].
      assert (Hrl : r ∉ l ++ [q1]) by (intros Hr'; apply (Hn2 r Hr'); set_solver).
      rewrite upd_node_ok by (cbn [pool set_pool]; rewrite length_alter; apply Hlt; set_solver).
      cbn [mbind option_bind pool set_pool]. eexists. rewrite Hh. split; [reflexivity|]. split; [|split].
      * apply dseg_app; [done|]. rewrite last_or_snoc. split; [by apply dseg_alter|].
        eapply dseg_set_prev; [done|]. apply dseg_alter; [|exact H2].
        intros Hq'. apply (Hn2 q1); set_solver.
      * by rewrite !length_alter.
      * intros i Hi. rewrite !list_lookup_alter_ne by set_solver. done.
Qed.

(** ** The whole pool

    [lo] are nodes in use that are in neither list, between two steps of an
    operation. *)

Record repr (P : list Mnode) (fps : list nat) (fr : blocks) (aps : list nat) (al : blocks) (lo : list nat) : Prop := {
  rp_free : dseg P None fps None fr;
  rp_alloc : dseg P None aps None al;
  rp_nodup : NoDup (fps ++ aps ++ lo);
  rp_length : length P = MAXNUM_POOL;
  rp_zero : forall i, (i < MAXNUM_POOL)%nat -> i ∉ fps ++ aps ++ lo -> P !! i = Some zero_node;
  rp_lo : forall i, i ∈ lo -> (i < MAXNUM_POOL)%nat;
}.

Record rep (m : Memmgr) (fps : list nat) (fr : blocks) (aps : list nat) (al : blocks) : Prop := {
  re_free : p_free m = head fps;
  re_alloc : p_alloc m = head aps;
  re_repr : repr (pool m) fps fr aps al [];
  re_num : num m = Z.of_nat (length fps + length aps);
}.

Lemma repr_lt P fps fr aps al lo i : repr P fps fr aps al lo -> i ∈ fps ++ aps ++ lo -> (i < MAXNUM_POOL)%nat.
Proof.
  intros [H1 H2 _ Hl _ H3] Hi. rewrite <- Hl. apply elem_of_app in Hi as [Hi|Hi]; [exact (dseg_lt _ _ _ _ _ _ H1 Hi)|].
  apply elem_of_app in Hi as [Hi|Hi]; [exact (dseg_lt _ _ _ _ _ _ H2 Hi)|]. rewrite Hl. auto.
Qed.

Lemma repr_length P fps fr aps al lo : repr P fps fr aps al lo -> (length (fps ++ aps ++ lo) <= MAXNUM_POOL)%nat.
Proof.
  intros H. transitivity (length (seq 0 MAXNUM_POOL)); [|by rewrite length_seq].
  apply NoDup_incl_length; [apply NoDup_ListNoDup, H|].
  intros i Hi. apply in_seq. apply list_elem_of_In in Hi. pose proof (repr_lt _ _ _ _ _ _ _ H Hi). lia.
Qed.

Lemma first_free_spec k l :
  match first_free k l with
  | Some i => (k <= i)%nat /\ exists n, l !! (i - k)%nat = Some n /\ isused n = NODE_FREE
  | None => Forall (fun n => isused n <> NODE_FREE) l
  end.
Proof.
  revert k. induction l as [|n l IH]; intros k; simpl; [constructor|].
  destruct (Z.eqb_spec (isused n) NODE_FREE).
  - rewrite Nat.sub_diag. split; [lia|]. by exists n.
  - specialize (IH (S k)). destruct (first_free (S k) l) as [i|]; [|by constructor].
    destruct IH as [Hi Hn]. split; [lia|]. by replace (i - k)%nat with (S (i - S k)) by lia.
Qed.

Lemma dseg_used P prv ps nxt bs p : dseg P prv ps nxt bs -> p ∈ ps -> exists n, P !! p = Some n /\ isused n = NODE_USED.
Proof.
  revert prv bs. induction ps as [|q ps IH]; intros prv [|b bs] H Hp; simpl in *; try done; [set_solver|].
  destruct H as [H1 H2]. apply elem_of_cons in Hp as [->|Hp]; [eauto|eauto].
Qed.

(** While the pool is not full a node is found, and it is a zero one. *)
Lemma find_valid_ok m fps fr aps al :
  repr (pool m) fps fr aps al [] -> (length fps + length aps < MAXNUM_POOL)%nat ->
  exists i, find_valid_node_from_pool m =
      (set_num (u32 (num m + 1)) (set_pool (alter (set_isused NODE_USED) i (pool m)) m), Some i) /\
    i ∉ fps ++ aps /\ pool m !! i = Some zero_node.
Proof.
  intros Hr Hlt. unfold find_valid_node_from_pool. rewrite (take_ge (pool m)) by (rewrite (rp_length _ _ _ _ _ _ Hr); lia).
  pose proof (first_free_spec 0 (pool m)) as Hf. destruct (first_free 0 (pool m)) as [i|].
  - destruct Hf as (_ & n & Hn & Hu). rewrite Nat.sub_0_r in Hn. exists i.
    assert (Hi : i ∉ fps ++ aps).
    { intros Hi. apply elem_of_app in Hi as [Hi|Hi];
        [destruct (dseg_used _ _ _ _ _ _ (rp_free _ _ _ _ _ _ Hr) Hi) as (n' & Hn' & Hu')
        |destruct (dseg_used _ _ _ _ _ _ (rp_alloc _ _ _ _ _ _ Hr) Hi) as (n' & Hn' & Hu')];
        rewrite Hn' in Hn; injection Hn as ->; rewrite Hu' in Hu; discriminate. }
    repeat split; [done|]. apply (rp_zero _ _ _ _ _ _ Hr); [|by rewrite app_nil_r].
    rewrite <- (rp_length _ _ _ _ _ _ Hr). by eapply lookup_lt_Some.
  - exfalso. assert (Hincl : incl (seq 0 MAXNUM_POOL) (fps ++ aps)).
    { intros i Hi. apply in_seq in Hi. apply list_elem_of_In. destruct (decide (i ∈ fps ++ aps)) as [|Hn]; [done|].
      assert (Hz : pool m !! i = Some zero_node) by (apply (rp_zero _ _ _ _ _ _ Hr); [lia|by rewrite app_nil_r]).
      rewrite Forall_lookup in Hf. by apply Hf in Hz. }
    apply NoDup_incl_length in Hincl; [|apply seq_NoDup]. rewrite length_seq, length_app in Hincl. lia.
Qed.

(** ** Allocation *)

Lemma nodup_perm (l l' : list nat) : l ≡ₚ l' -> NoDup l -> NoDup l'.
Proof. intros Hp H. by rewrite <- Hp. Qed.

Lemma elem_perm (l l' : list nat) i : l ≡ₚ l' -> i ∉ l -> i ∉ l'.
Proof. intros Hp H. by rewrite <- Hp. Qed.

(** A node filled in and put at the head of the allocated list. *)
Lemma repr_push P Pi fps fr aps al i b n :
  repr P fps fr aps al [] -> i ∉ fps ++ aps -> (i < MAXNUM_POOL)%nat ->
  Pi !! i = Some (mk_node None (head aps) b n NODE_USED) -> (forall q, q <> i -> Pi !! q = P !! q) ->
  length Pi = length P ->
  repr (match head aps with Some q => alter (set_prev (Some i)) q Pi | None => Pi end)
    fps fr (i :: aps) ((b, n) :: al) [].
Proof.
  intros [H1 H2 Hn Hl Hz _] Hi Hi2 Hnode Hne Hlen. rewrite app_nil_r in Hn, Hz.
  assert (H1' : dseg Pi None fps None fr) by (eapply dseg_ext; [|exact H1]; intros; apply Hne; set_solver).
  assert (H2' : dseg Pi None aps None al) by (eapply dseg_ext; [|exact H2]; intros; apply Hne; set_solver).
  pose proof Hn as Hn'. apply list.NoDup_app in Hn' as (Hn1 & Hn2 & Hn3).
  constructor; rewrite ?app_nil_r; [| | | | |set_solver].
  - destruct aps as [|q aps]; [done|]. apply dseg_alter; [|done]. intros Hq. apply (Hn2 q Hq). set_solver.
  - destruct aps as [|q aps]; cbn [head]; [destruct al; done|]. split.
    + rewrite list_lookup_alter_ne by set_solver. done.
    + apply list.NoDup_cons in Hn3 as [? ?]. by eapply dseg_set_prev.
  - eapply (nodup_perm (i :: fps ++ aps)); [solve_Permutation|]. by constructor.
  - destruct (head aps); rewrite ?length_alter; congruence.
  - intros j Hj Hj'. assert (Pi !! j = Some zero_node) by (rewrite Hne by set_solver; apply Hz; set_solver).
    destruct aps as [|q aps]; [done|]. cbn [head]. rewrite list_lookup_alter_ne by set_solver. done.
Qed.

Lemma repr_unlink_free P P' f1 p f2 g1 b g2 aps al lo :
  repr P (f1 ++ p :: f2) (g1 ++ b :: g2) aps al lo -> dseg P' None (f1 ++ f2) None (g1 ++ g2) ->
  length P' = length P -> (forall i, i ∉ f1 ++ f2 -> P' !! i = P !! i) ->
  repr P' (f1 ++ f2) (g1 ++ g2) aps al (p :: lo).
Proof.
  intros Hr Hd Hlen Hne. pose proof (fun i => repr_lt _ _ _ _ _ _ i Hr) as Hlt. destruct Hr as [H1 H2 Hn Hl Hz Hlo].
  assert (Hp : (f1 ++ p :: f2) ++ aps ++ lo ≡ₚ (f1 ++ f2) ++ aps ++ p :: lo) by solve_Permutation.
  pose proof (nodup_perm _ _ Hp Hn) as Hn'. pose proof Hn' as Hd'. apply list.NoDup_app in Hd' as (_ & Hx & _).
  constructor; [done| |done|congruence| |].
  - eapply dseg_ext; [|exact H2]. intros q Hq. apply Hne. intros Hq'. apply (Hx q Hq'). set_solver.
  - intros i Hi Hi'. rewrite Hne by set_solver. apply Hz; [done|]. by rewrite Hp.
  - intros i Hi. apply Hlt. rewrite Hp. set_solver.
Qed.

Lemma repr_unlink_alloc P P' fps fr a1 p a2 g1 b g2 lo :
  repr P fps fr (a1 ++ p :: a2) (g1 ++ b :: g2) lo -> dseg P' None (a1 ++ a2) None (g1 ++ g2) ->
  length P' = length P -> (forall i, i ∉ a1 ++ a2 -> P' !! i = P !! i) ->
  repr P' fps fr (a1 ++ a2) (g1 ++ g2) (p :: lo).
Proof.
  intros Hr Hd Hlen Hne. pose proof (fun i => repr_lt _ _ _ _ _ _ i Hr) as Hlt. destruct Hr as [H1 H2 Hn Hl Hz Hlo].
  assert (Hp : fps ++ (a1 ++ p :: a2) ++ lo ≡ₚ fps ++ (a1 ++ a2) ++ p :: lo) by solve_Permutation.
  pose proof (nodup_perm _ _ Hp Hn) as Hn'. pose proof Hn' as Hd'. apply list.NoDup_app in Hd' as (_ & Hx & _).
  constructor; [|done|done|congruence| |].
  - eapply dseg_ext; [|exact H1]. intros q Hq. apply Hne. specialize (Hx q Hq). set_solver.
  - intros i Hi Hi'. rewrite Hne by set_solver. apply Hz; [done|]. by rewrite Hp.
  - intros i Hi. apply Hlt. rewrite Hp. set_solver.
Qed.

(** A loose node goes back to the pool. *)
Lemma repr_drop P fps fr aps al p lo :
  repr P fps fr aps al (p :: lo) -> repr (alter (fun _ => zero_node) p P) fps fr aps al lo.
Proof.
  intros [H1 H2 Hn Hl Hz Hlo].
  assert (Hp : fps ++ aps ++ p :: lo ≡ₚ p :: fps ++ aps ++ lo) by solve_Permutation.
  rewrite Hp in Hn. apply list.NoDup_cons in Hn as [Hpn Hn].
  constructor; [apply dseg_alter; [set_solver|done]..|done|by rewrite length_alter| |set_solver].
  intros i Hi Hi'. destruct (decide (p = i)) as [<-|Hne].
  - rewrite list_lookup_alter_eq. assert (Hpl : (p < length P)%nat) by (rewrite Hl; apply Hlo; set_solver).
    apply lookup_lt_is_Some in Hpl as [x ->]. done.
  - rewrite list_lookup_alter_ne by done. apply Hz; [done|]. rewrite Hp. set_solver.
Qed.

(** The block of a free node changes in place. *)
Lemma repr_set_block P f1 p f2 g1 b g2 aps al lo b' s' :
  length f1 = length g1 -> repr P (f1 ++ p :: f2) (g1 ++ b :: g2) aps al lo ->
  repr (alter (fun n => set_size s' (set_base b' n)) p P) (f1 ++ p :: f2) (g1 ++ (b', s') :: g2) aps al lo.
Proof.
  intros Hlen [H1 H2 Hn Hl Hz Hlo]. pose proof Hn as Hd. apply list.NoDup_app in Hd as (Hn1 & Hx & _).
  constructor; [by eapply dseg_set_block| |done|by rewrite length_alter| |done].
  - apply dseg_alter; [|done]. intros Hp. apply (Hx p); set_solver.
  - intros i Hi Hi'. rewrite list_lookup_alter_ne by set_solver. auto.
Qed.

Lemma upd_if_ok m q f :
  (forall p, q = Some p -> (p < length (pool m))%nat) ->
  upd_if m q f = Some (set_pool (match q with Some p => alter f p (pool m) | None => pool m end) m).
Proof. intros H. destruct q as [p|]; cbn [upd_if]; [apply upd_node_ok; auto|by rewrite set_pool_id]. Qed.

Lemma head_elem (ps : list nat) q : head ps = Some q -> q ∈ ps.
Proof. destruct ps; simpl; [done|]. intros [= ->]. set_solver. Qed.

(** The first part of [alloc_at]: the new node heads the allocated list. *)
Definition alloc_push (m : Memmgr) (b n : Z) : option Memmgr :=
  let '(m, new) := find_valid_node_from_pool m in
  new ← new;
  m ← upd_node m new (set_base b);
  m ← upd_node m new (set_size n);
  m ← upd_node m new (set_next (p_alloc m));
  let m := set_p_alloc (Some new) m in
  nn ← node m new;
  upd_if m (next nn) (set_prev (Some new)).

Lemma alloc_push_ok m fps fr aps al b n :
  rep m fps fr aps al -> (length fps + length aps < MAXNUM_POOL)%nat ->
  exists m' i, alloc_push m b n = Some m' /\ rep m' fps fr (i :: aps) ((b, n) :: al) /\
    find_valid_node_from_pool m = (set_num (u32 (num m + 1)) (set_pool (alter (set_isused NODE_USED) i (pool m)) m), Some i) /\
    i ∉ fps ++ aps /\ (i < MAXNUM_POOL)%nat /\
    membase m' = membase m /\ totalsize m' = totalsize m.
Proof.
  intros [Hf Ha Hr Hnum] Hlt. destruct (find_valid_ok _ _ _ _ _ Hr Hlt) as (i & Hfv & Hi & Hz).
  assert (Hi2 : (i < MAXNUM_POOL)%nat) by (rewrite <- (rp_length _ _ _ _ _ _ Hr); by eapply lookup_lt_Some).
  pose proof (rp_length _ _ _ _ _ _ Hr) as Hlen. unfold alloc_push. rewrite Hfv. cbn [mbind option_bind].
  do 3 (rewrite upd_node_ok by (cbn [pool set_pool set_num]; rewrite !length_alter; lia);
        cbn [mbind option_bind pool set_pool set_num]).
  unfold node. cbn [pool set_pool set_num set_p_alloc p_alloc].
  set (Pi := alter _ _ (alter _ _ (alter _ _ (alter _ _ _)))).
  assert (Hnode : Pi !! i = Some (mk_node None (head aps) b n NODE_USED)).
  { unfold Pi. rewrite !list_lookup_alter_eq, Hz, Ha. done. }
  rewrite Hnode. cbn [mbind option_bind next].
  assert (Hlp : length Pi = length (pool m)) by (unfold Pi; by rewrite !length_alter).
  rewrite upd_if_ok.
  - cbn [pool set_pool set_num set_p_alloc p_alloc]. do 2 eexists. split; [reflexivity|].
    split; [|repeat split; try done]. constructor; cbn [pool set_pool set_num set_p_alloc p_alloc p_free num].
    + done.
    + done.
    + eapply repr_push; eauto. intros q Hq. unfold Pi. by rewrite !list_lookup_alter_ne by done.
    + rewrite Hnum. cbn [length]. rewrite u32_id; unfold is_u32, MAXNUM_POOL in *; lia.
  - intros q Hq. cbn [pool set_pool set_num set_p_alloc]. rewrite Hlp, Hlen. eapply repr_lt; [exact Hr|].
    apply head_elem in Hq. set_solver.
Qed.

Lemma alloc_at_ok m f1 p f2 g1 b s g2 aps al n :
  rep m (f1 ++ p :: f2) (g1 ++ (b, s) :: g2) aps al -> length f1 = length g1 ->
  (length (f1 ++ p :: f2) + length aps < MAXNUM_POOL)%nat -> 0 < n <= s -> 0 <= b -> b + s < 2 ^ 64 -> s < 2 ^ 32 ->
  exists m' fps' i, alloc_at m p n = Some (m', b) /\
    rep m' fps' (g1 ++ (if s =? n then g2 else (b + n, s - n) :: g2)) (i :: aps) ((b, n) :: al) /\
    membase m' = membase m /\ totalsize m' = totalsize m.
Proof.
  intros Hrep Hlen Hlt Hn Hb Hbs Hs32.
  destruct (alloc_push_ok _ _ _ _ _ b n Hrep Hlt) as (m1 & i & Hpush & Hrep1 & Hfv & Hi & Hi2 & Hmb & Hts).
  assert (Hnode0 : node m p = Some (mk_node (last_or f1 None) (hd_or f2 None) b s NODE_USED)).
  { apply (dseg_middle _ _ _ _ _ _ _ _ _ Hlen (rp_free _ _ _ _ _ _ (re_repr _ _ _ _ _ Hrep))). }
  assert (Hpi : i <> p) by set_solver.
  unfold alloc_at. unfold alloc_push in Hpush. rewrite Hfv in Hpush |- *. cbn [mbind option_bind] in Hpush |- *.
  assert (Hn0 : node (set_num (u32 (num m + 1)) (set_pool (alter (set_isused NODE_USED) i (pool m)) m)) p =
    Some (mk_node (last_or f1 None) (hd_or f2 None) b s NODE_USED)).
  { unfold node. cbn [pool set_pool set_num]. by rewrite list_lookup_alter_ne. }
  rewrite Hn0. cbn [mbind option_bind base]. clear Hn0.
  destruct (upd_node _ i (set_base b)) as [x|]; [|done]. cbn [mbind option_bind] in Hpush |- *.
  destruct (upd_node _ i (set_size n)) as [y|]; [|done]. cbn [mbind option_bind] in Hpush |- *.
  destruct (upd_node _ i (set_next _)) as [z|]; [|done]. cbn [mbind option_bind] in Hpush |- *.
  destruct (node _ i) as [nn|]; [|done]. cbn [mbind option_bind] in Hpush |- *.
  rewrite Hpush. cbn [mbind option_bind]. clear Hpush x y z nn Hfv Hnode0.
  destruct Hrep1 as [Hf1 Ha1 Hr1 Hnum1].
  pose proof (dseg_middle _ _ _ _ _ _ _ _ _ Hlen (rp_free _ _ _ _ _ _ Hr1)) as Hnode. cbn [fst snd] in Hnode.
  pose proof (rp_length _ _ _ _ _ _ Hr1) as Hl1.
  pose proof (proj1 (rp_alloc _ _ _ _ _ _ Hr1)) as Hhead. cbn [fst snd] in Hhead.
  change (node m1 p) with (pool m1 !! p). rewrite Hnode. cbn [mbind option_bind size base].
  destruct (Z.eqb_spec s n) as [->|Hsn].
  - pose proof (rp_nodup _ _ _ _ _ _ Hr1) as Hnd. apply list.NoDup_app in Hnd as (Hnd & Hx & _).
    destruct (unlink_ok m1 f1 p f2 g1 (b, n) g2 Hlen Hnd (rp_free _ _ _ _ _ _ Hr1)) as (P' & Hu & Hd & HlP & Hne).
    rewrite Hf1, Hu. cbn [mbind option_bind]. unfold return_node_2_pool.
    rewrite upd_node_ok by (cbn [pool set_pool set_p_free]; rewrite HlP; eapply lookup_lt_Some; exact Hnode).
    cbn [mbind option_bind p_alloc set_num set_pool set_p_free pool]. rewrite Ha1. cbn [head mbind option_bind].
    pose proof (repr_drop _ _ _ _ _ _ _ (repr_unlink_free _ _ _ _ _ _ _ _ _ _ _ Hr1 Hd HlP Hne)) as Hr2.
    pose proof (proj1 (rp_alloc _ _ _ _ _ _ Hr2)) as Hhead2. unfold node. cbn [pool set_num set_pool set_p_free].
    rewrite Hhead2. cbn [mbind option_bind base fst].
    exists (set_num (u32 (num m1 - 1)) (set_pool (alter (fun _ => zero_node) p P') (set_p_free (head (f1 ++ f2)) (set_pool P' m1)))), (f1 ++ f2), i.
    split; [reflexivity|]. split; [|done].
    constructor; cbn [pool set_pool set_num set_p_alloc set_p_free p_alloc p_free num]; [done|done|done|].
    rewrite Hnum1. rewrite !length_app in *. cbn [length] in *.
    rewrite u32_id; unfold is_u32, MAXNUM_POOL in *; lia.
  - rewrite upd_node_ok by (eapply lookup_lt_Some; exact Hnode). cbn [mbind option_bind].
    rewrite upd_node_ok by (cbn [pool set_pool]; rewrite length_alter; eapply lookup_lt_Some; exact Hnode).
    cbn [mbind option_bind pool set_pool p_alloc]. rewrite Ha1. cbn [head mbind option_bind].
    rewrite u64_id, u32_id by (unfold is_u32; lia). rewrite alter_alter.
    pose proof (repr_set_block _ _ _ _ _ _ _ _ _ _ (b + n) (s - n) Hlen Hr1) as Hr2.
    pose proof (proj1 (rp_alloc _ _ _ _ _ _ Hr2)) as Hhead2. cbn [fst snd] in Hhead2.
    unfold node. cbn [pool set_pool]. rewrite Hhead2. cbn [mbind option_bind base].
    do 3 eexists. split; [reflexivity|]. split; [|done].
    constructor; cbn [pool set_pool p_alloc p_free num]; [done|done|exact Hr2|done].
Qed.

Lemma alloc_loop_ok n fuel m f1 f2 g1 g2 aps al :
  rep m (f1 ++ f2) (g1 ++ g2) aps al -> length f1 = length g1 -> (length f2 < fuel)%nat ->
  (length (f1 ++ f2) + length aps < MAXNUM_POOL)%nat -> 0 < n ->
  Forall (fun x => 0 <= x.1 /\ x.1 + x.2 < 2 ^ 64 /\ x.2 < 2 ^ 32) g2 ->
  match take_fit n g2 with
  | None => alloc_loop fuel m (hd_or f2 None) n = Some (m, None)
  | Some (a, g2') =>
      exists m' fps' i, alloc_loop fuel m (hd_or f2 None) n = Some (m', Some a) /\
        rep m' fps' (g1 ++ g2') (i :: aps) ((a, n) :: al) /\
        membase m' = membase m /\ totalsize m' = totalsize m
  end.
Proof.
  intros Hrep Hlen Hfuel Hlt Hn Hb. revert fuel f1 f2 g1 Hrep Hlen Hfuel Hlt.
  induction g2 as [|[b s] g2 IH]; intros fuel f1 f2 g1 Hrep Hlen Hfuel Hlt.
  { pose proof (dseg_length _ _ _ _ _ (rp_free _ _ _ _ _ _ (re_repr _ _ _ _ _ Hrep))) as Hl.
    rewrite !length_app in Hl. destruct f2 as [|p f2]; [|simpl in Hl; lia]. by destruct fuel. }
  pose proof (dseg_length _ _ _ _ _ (rp_free _ _ _ _ _ _ (re_repr _ _ _ _ _ Hrep))) as Hl.
  rewrite !length_app in Hl. destruct f2 as [|p f2]; [simpl in Hl; lia|]. destruct fuel as [|fuel]; [simpl in Hfuel; lia|].
  pose proof (dseg_middle _ _ _ _ _ _ _ _ _ Hlen (rp_free _ _ _ _ _ _ (re_repr _ _ _ _ _ Hrep))) as Hnode.
  apply Forall_cons_iff in Hb as [Hb Hbs]. cbn [fst snd] in Hb, Hnode.
  cbn [take_fit hd_or alloc_loop]. change (node m p) with (pool m !! p). rewrite Hnode. cbn [mbind option_bind size next].
  destruct (Z.leb_spec n s).
  - destruct (alloc_at_ok m f1 p f2 g1 b s g2 aps al n) as (m' & fps' & i & -> & Hrest); try done; [lia..|].
    cbn [mbind option_bind]. eauto.
  - specialize (IH Hbs fuel (f1 ++ [p]) f2 (g1 ++ [(b, s)])). rewrite <- !app_assoc in IH. cbn [app] in IH.
    rewrite !length_app in IH. cbn [length] in IH. simpl in Hfuel. rewrite length_app in Hlt. simpl in Hlt.
    specialize (IH Hrep ltac:(lia) ltac:(lia) ltac:(simpl in *; lia)).
    destruct (take_fit n g2) as [[a g2']|]; cbn [mbind option_bind]; [|done].
    by rewrite <- app_assoc in IH.
Qed.

Lemma unit_cases type : unit_of type = 2 ^ 6 \/ unit_of type = 2 ^ 12.
Proof. destruct type; auto. Qed.

(** The request is rounded up to a multiple of the unit, with no overflow. *)
Lemma alloc_size_spec type sz :
  0 < sz < 2 ^ 31 ->
  sz <= alloc_size_of type sz < sz + unit_of type /\ (unit_of type | alloc_size_of type sz).
Proof.
  intros Hs. assert (Hk : exists k, 0 < k <= 12 /\ unit_of type = 2 ^ k /\ unit_of type - 1 = Z.ones k).
  { destruct (unit_cases type) as [H|H]; rewrite H; [exists 6|exists 12]; split; [lia|done|lia|done]. }
  destruct Hk as (k & Hk & Hu & Ho). unfold alloc_size_of. rewrite Ho, <- Z.ldiff_land, Z.land_ones, Z.ldiff_ones_r by lia.
  rewrite Hu. assert (Hp : 0 < 2 ^ k <= 2 ^ 12) by (split; [lia|apply Z.pow_le_mono_r; lia]).
  rewrite Z.shiftl_mul_pow2, Z.shiftr_div_pow2 by lia.
  pose proof (Z.div_mod sz (2 ^ k) ltac:(lia)) as Hdm. pose proof (Z.mod_pos_bound sz (2 ^ k) ltac:(lia)) as Hmb.
  destruct (Z.eqb_spec (sz mod 2 ^ k) 0) as [H0|H0].
  - rewrite u32_id by (unfold is_u32; lia). split; [lia|]. exists (sz / 2 ^ k). lia.
  - set (v := sz / 2 ^ k * 2 ^ k + 2 ^ k). assert (Hv : u32 (i32 v) = v).
    { assert (0 <= v <= 2 ^ 31).
      { unfold v. split; [nia|]. replace (2 ^ 31) with (2 ^ (31 - k) * 2 ^ k) by (rewrite <- Z.pow_add_r by lia; f_equal; lia).
        assert (sz / 2 ^ k < 2 ^ (31 - k)).
        { apply Z.div_lt_upper_bound; [lia|]. rewrite <- Z.pow_add_r by lia. replace (k + (31 - k)) with 31 by lia. lia. }
        nia. }
      unfold u32, i32. rewrite Zminus_mod_idemp_l. replace (v + 2 ^ 31 - 2 ^ 31) with v by lia. apply Z.mod_small. lia. }
    rewrite Hv. unfold v. split; [lia|]. exists (sz / 2 ^ k + 1). lia.
Qed.

(** ** Release: the node goes into the free list *)

Definition alter_if (f : Mnode -> Mnode) (q : option nat) (P : list Mnode) : list Mnode :=
  match q with Some p => alter f p P | None => P end.

Lemma last_or_elem ps q : last_or ps None = Some q -> q ∈ ps.
Proof.
  destruct ps as [|p l _] using rev_ind; [done|]. rewrite last_or_snoc. intros [= ->]. set_solver.
Qed.

Lemma dseg_next_if P prv ps nxt bs v :
  NoDup ps -> dseg P prv ps nxt bs -> dseg (alter_if (set_next v) (last_or ps None) P) prv ps v bs.
Proof.
  intros Hn H. destruct ps as [|q l _] using rev_ind; [by destruct bs|]. rewrite last_or_snoc. by eapply dseg_set_next.
Qed.

Lemma dseg_prev_if P prv ps nxt bs v :
  NoDup ps -> dseg P prv ps nxt bs -> dseg (alter_if (set_prev v) (hd_or ps None) P) v ps nxt bs.
Proof.
  intros Hn H. destruct ps as [|r ps]; [by destruct bs|]. apply list.NoDup_cons in Hn as [? ?]. by eapply dseg_set_prev.
Qed.

Lemma alter_if_ne f q P i : q <> Some i -> alter_if f q P !! i = P !! i.
Proof. destruct q as [p|]; simpl; [|done]. intros H. apply list_lookup_alter_ne. congruence. Qed.

Lemma length_alter_if f q P : length (alter_if f q P) = length P.
Proof. destruct q; simpl; [apply length_alter|done]. Qed.

Lemma dseg_alter_if P f q prv ps nxt bs :
  (forall p, q = Some p -> p ∉ ps) -> dseg P prv ps nxt bs -> dseg (alter_if f q P) prv ps nxt bs.
Proof. destruct q as [p|]; intros H; [apply dseg_alter; auto|done]. Qed.

(** The place of a block with base [b]: before the first block at or above it,
    or after the last one. *)
Lemma find_place_ok b fuel m prv h ps1 ps2 fr1 fr2 :
  dseg (pool m) prv (ps1 ++ ps2) None (fr1 ++ fr2) -> length ps1 = length fr1 ->
  Forall (fun x => x.1 < b) fr1 -> Forall (fun x => b <= x.1) fr2 ->
  head (ps1 ++ ps2) = Some h -> (length (ps1 ++ ps2) <= fuel)%nat ->
  find_place fuel m h b = hd_or ps2 (last_or ps1 None).
Proof.
  revert prv h ps1 fr1. induction fuel as [|fuel IH]; intros prv h ps1 fr1 Hd Hl H1 H2 Hh Hf.
  { destruct ps1; [destruct ps2|]; simpl in *; lia || done. }
  destruct ps1 as [|p ps1], fr1 as [|x fr1]; try done; simpl in Hh.
  - destruct ps2 as [|p ps2], fr2 as [|x fr2]; try done. injection Hh as ->. destruct Hd as [Hn _].
    cbn [find_place]. unfold node. rewrite Hn. apply Forall_cons_iff in H2 as [Hx _]. cbn [mbind option_bind base].
    by rewrite (proj2 (Z.ltb_ge _ _)).
  - injection Hh as ->. destruct Hd as [Hn Hd]. apply Forall_cons_iff in H1 as [Hx H1].
    cbn [find_place]. unfold node. rewrite Hn. cbn [mbind option_bind base next].
    rewrite (proj2 (Z.ltb_lt _ _)) by done. simpl in Hl, Hf. fold (ps1 ++ ps2) in *.
    destruct (ps1 ++ ps2) as [|q l] eqn:E.
    + apply app_eq_nil in E as [-> ->]. done.
    + cbn [hd_or]. rewrite <- E in Hd, Hf. rewrite (IH (Some h) q ps1 fr1); try done; [|lia|by rewrite E|lia].
      destruct ps2; [|done]. simpl. rewrite app_nil_r in E. subst ps1. done.
Qed.

Section Insert.
Context (P : list Mnode) (ps1 ps2 aps : list nat) (fr1 fr2 al : blocks) (p : nat) (b : block).
Context (Hl : length ps1 = length fr1) (Hr : repr P (ps1 ++ ps2) (fr1 ++ fr2) aps al [p]).
Context (np : Mnode) (Hnp : P !! p = Some np) (Hb : base np = b.1) (Hs : size np = b.2) (Hu : isused np = NODE_USED).

Lemma insert_facts :
  NoDup ps1 /\ NoDup ps2 /\ p ∉ ps1 /\ p ∉ ps2 /\ (forall i, i ∈ ps1 -> i ∉ ps2) /\
  (forall i, i ∈ p :: ps1 ++ ps2 -> i ∉ aps).
Proof.
  pose proof (rp_nodup _ _ _ _ _ _ Hr) as Hn.
  apply list.NoDup_app in Hn as (Hn1 & Hx1 & Hn2). apply list.NoDup_app in Hn1 as (? & ? & ?).
  apply list.NoDup_app in Hn2 as (? & Hx2 & ?).
  repeat split; try done; [intros Hp; apply (Hx1 p); set_solver..|].
  intros i Hi Hi2. apply elem_of_cons in Hi as [->|Hi]; [apply (Hx2 p); set_solver|apply (Hx1 i Hi); set_solver].
Qed.

(** Linking [p] between the two parts, in any pool that does it. *)
Lemma repr_link P' :
  P' !! p = Some (mk_node (last_or ps1 None) (hd_or ps2 None) b.1 b.2 NODE_USED) ->
  dseg P' None ps1 (Some p) fr1 -> dseg P' (Some p) ps2 None fr2 -> length P' = length P ->
  (forall i, i ∉ p :: ps1 ++ ps2 -> P' !! i = P !! i) ->
  repr P' (ps1 ++ p :: ps2) (fr1 ++ b :: fr2) aps al [].
Proof.
  intros Hp H1 H2 HlP Hne. destruct insert_facts as (_ & _ & _ & _ & _ & Hx).
  assert (Hperm : (ps1 ++ ps2) ++ aps ++ [p] ≡ₚ (ps1 ++ p :: ps2) ++ aps ++ []) by solve_Permutation.
  destruct Hr as [_ Ha Hn HlenP Hz _]. constructor.
  - apply dseg_app; [done|]. split; [done|]. by split.
  - eapply dseg_ext; [|exact Ha]. intros q Hq. apply Hne. intros Hq'. by apply (Hx q Hq').
  - by rewrite <- Hperm.
  - congruence.
  - intros i Hi Hi'. rewrite Hne by set_solver. apply Hz; [done|]. by rewrite Hperm.
  - set_solver.
Qed.

(** The pool [insert_node_2_free] builds when there is a node after [p]. *)
Lemma repr_insert_before r :
  hd_or ps2 None = Some r ->
  repr (alter (set_prev (Some p)) r (alter (set_next (Some r)) p
         (alter_if (set_next (Some p)) (last_or ps1 None) (alter (set_prev (last_or ps1 None)) p P))))
    (ps1 ++ p :: ps2) (fr1 ++ b :: fr2) aps al [].
Proof.
  intros Hh. destruct insert_facts as (Hn1 & Hn2 & Hp1 & Hp2 & Hx12 & _). pose proof (rp_free _ _ _ _ _ _ Hr) as Hd.
  apply dseg_app in Hd as [Hd1 Hd2]; [|done]. rewrite Hh in Hd1.
  assert (Hr2 : r ∈ ps2) by (destruct ps2; [done|]; injection Hh as ->; set_solver).
  assert (Hlast : forall q, last_or ps1 None = Some q -> q ∈ ps1) by (intros; by apply last_or_elem).
  apply repr_link; rewrite ?length_alter, ?length_alter_if, ?length_alter; [| | |done|].
  - rewrite list_lookup_alter_ne, list_lookup_alter_eq by set_solver.
    rewrite alter_if_ne by (intros Hq; apply Hlast in Hq; done). rewrite list_lookup_alter_eq, Hnp, Hh.
    destruct np. simpl in *. by rewrite Hb, Hs, Hu.
  - apply dseg_alter; [set_solver|]. apply dseg_alter; [done|]. eapply dseg_next_if; [done|]. apply dseg_alter; [done|exact Hd1].
  - pose proof (dseg_prev_if (alter (set_next (Some r)) p (alter_if (set_next (Some p)) (last_or ps1 None)
      (alter (set_prev (last_or ps1 None)) p P))) (last_or ps1 None) ps2 None fr2 (Some p) Hn2) as Hq.
    rewrite Hh in Hq. apply Hq. apply dseg_alter; [done|]. apply dseg_alter_if; [|by apply dseg_alter].
    intros q Hq'. auto.
  - intros i Hi. rewrite !list_lookup_alter_ne by set_solver. rewrite alter_if_ne by (intros Hq; apply Hlast in Hq; set_solver).
    apply list_lookup_alter_ne. set_solver.
Qed.

(** The pool it builds when [p] goes to the end of the list. *)
Lemma repr_insert_tail q :
  ps2 = [] -> last_or ps1 None = Some q ->
  repr (alter (set_next None) p (alter (set_prev (Some q)) p (alter (set_next (Some p)) q P)))
    (ps1 ++ p :: ps2) (fr1 ++ b :: fr2) aps al [].
Proof.
  intros H2 Hq. destruct insert_facts as (Hn1 & _ & Hp1 & _ & _ & _). pose proof (rp_free _ _ _ _ _ _ Hr) as Hd.
  apply dseg_app in Hd as [Hd1 Hd2]; [|done]. pose proof (last_or_elem _ _ Hq) as Hq1.
  apply repr_link; rewrite ?length_alter; [| | |done|].
  - rewrite !list_lookup_alter_eq, list_lookup_alter_ne, Hnp, Hq, H2 by set_solver.
    destruct np. simpl in *. by rewrite Hb, Hs, Hu.
  - do 2 (apply dseg_alter; [done|]). pose proof (dseg_next_if _ _ _ _ _ (Some p) Hn1 Hd1) as H. by rewrite Hq in H.
  - rewrite H2 in *. by destruct fr2.
  - intros i Hi. rewrite !list_lookup_alter_ne by set_solver. done.
Qed.
End Insert.

(** ** Merging with the block before *)

Lemma repr_merge P l q p f2 g x b g2 aps al s :
  length l = length g -> repr P (l ++ q :: p :: f2) (g ++ x :: b :: g2) aps al [] ->
  repr (alter (fun _ => zero_node) p (alter_if (set_prev (Some q)) (hd_or f2 None)
         (alter (set_next (hd_or f2 None)) q (alter (set_size s) q P))))
    (l ++ q :: f2) (g ++ (x.1, s) :: g2) aps al [].
Proof.
  intros Hl [Hd Ha Hn HlP Hz _]. rewrite app_nil_r in Hn, Hz. pose proof (dseg_lt _ _ _ _ _ p Hd ltac:(set_solver)) as Hp.
  apply dseg_app in Hd as [Hd1 (Hq & _ & Hd2)]; [|done].
  assert (Hperm : (l ++ q :: p :: f2) ++ aps ≡ₚ p :: (l ++ q :: f2) ++ aps) by solve_Permutation.
  pose proof (nodup_perm _ _ Hperm Hn) as Hn'. apply list.NoDup_cons in Hn' as [Hpn Hn'].
  pose proof Hn' as Hn2. apply list.NoDup_app in Hn2 as (Hn2 & Hx & _). apply list.NoDup_app in Hn2 as (Hnl & Hxl & Hn2).
  apply list.NoDup_cons in Hn2 as [Hqf Hnf].
  assert (Hh : forall i, hd_or f2 None = Some i -> i ∈ f2) by (intros i Hi; apply head_elem; by rewrite head_hd_or).
  assert (Hdis : forall i, i ∈ l ++ q :: f2 -> i ∉ aps) by done. clear Hx.
  constructor; rewrite ?app_nil_r; [|..|set_solver].
  - apply dseg_alter; [set_solver|]. apply dseg_app; [done|]. split; [|split].
    + apply dseg_alter_if; [intros i Hi; apply Hh in Hi; intros Hi'; apply (Hxl i Hi'); set_solver|].
      do 2 (apply dseg_alter; [intros Hi'; apply (Hxl q Hi'); set_solver|]). done.
    + rewrite alter_if_ne by (intros Hi; apply Hh in Hi; done). rewrite !list_lookup_alter_eq, Hq. done.
    + eapply dseg_prev_if; [done|]. do 2 (apply dseg_alter; [done|]). done.
  - apply dseg_alter; [set_solver|]. apply dseg_alter_if; [intros i Hi; apply Hh in Hi; apply Hdis; set_solver|].
    do 2 (apply dseg_alter; [apply Hdis; set_solver|]). done.
  - done.
  - by rewrite length_alter, length_alter_if, !length_alter.
  - intros i Hi Hi'. destruct (decide (p = i)) as [<-|Hpi].
    + rewrite list_lookup_alter_eq.
      assert (Hp' : (p < length (alter_if (set_prev (Some q)) (hd_or f2 None) (alter (set_next (hd_or f2 None)) q (alter (set_size s) q P))))%nat)
        by (by rewrite length_alter_if, !length_alter).
      by apply lookup_lt_is_Some in Hp' as [y ->].
    + rewrite list_lookup_alter_ne by done. rewrite alter_if_ne by (intros Hi2; apply Hh in Hi2; set_solver).
      rewrite !list_lookup_alter_ne by set_solver. apply Hz; [done|]. rewrite Hperm. set_solver.
Qed.

Section Merge.
Context (null_zero : bool) (mb ts u : Z) (Hmb : 0 <= mb) (Hts : mb + ts < 2 ^ 64) (Hts32 : ts < 2 ^ 32).

Lemma merge_first m p f2 b g2 aps al :
  rep m (p :: f2) (b :: g2) aps al -> check_prevnode_and_merge null_zero m (Some p) = Some (m, Some p).
Proof.
  intros Hrep. destruct (rp_free _ _ _ _ _ _ (re_repr _ _ _ _ _ Hrep)) as [Hp _].
  unfold check_prevnode_and_merge, node. by rewrite Hp.
Qed.

Lemma merge_prev m l q p f2 g x b g2 aps al :
  rep m (l ++ q :: p :: f2) (g ++ x :: b :: g2) aps al -> length l = length g -> placed mb ts u x -> placed mb ts u b ->
  if x.1 + x.2 =? b.1
  then exists m', check_prevnode_and_merge null_zero m (Some p) = Some (m', Some q) /\
         rep m' (l ++ q :: f2) (g ++ (x.1, x.2 + b.2) :: g2) aps al /\
         membase m' = membase m /\ totalsize m' = totalsize m
  else check_prevnode_and_merge null_zero m (Some p) = Some (m, Some p).
Proof.
  intros Hrep Hl (Hx1 & Hx2 & Hx3 & _) (Hb1 & Hb2 & Hb3 & _). destruct Hrep as [Hf Ha Hr Hnum].
  pose proof (rp_free _ _ _ _ _ _ Hr) as Hd. pose proof (fun i => dseg_lt _ _ _ _ _ i Hd) as Hlt.
  apply dseg_app in Hd as [_ (Hq & Hp & _)]; [|done].
  unfold check_prevnode_and_merge. change (node m p) with (pool m !! p). rewrite Hp. cbn [mbind option_bind prev].
  change (node m q) with (pool m !! q). rewrite Hq. cbn [mbind option_bind base size next].
  rewrite u64_id by lia. destruct (Z.eqb_spec (x.1 + x.2) b.1) as [He|]; [|done].
  rewrite u32_id by (unfold is_u32; lia).
  do 2 (rewrite upd_node_ok by (cbn [pool set_pool]; rewrite ?length_alter; apply Hlt; set_solver);
        cbn [mbind option_bind pool set_pool]).
  rewrite upd_if_ok by (intros i Hi; cbn [pool set_pool]; rewrite !length_alter; apply Hlt;
        assert (Hi' : i ∈ f2) by (apply head_elem; by rewrite head_hd_or); set_solver).
  cbn [mbind option_bind pool set_pool]. unfold return_node_2_pool.
  rewrite upd_node_ok.
  2:{ cbn [pool set_pool]. change (match hd_or f2 None with Some p0 => _ | None => _ end) with
        (alter_if (set_prev (Some q)) (hd_or f2 None) (alter (set_next (hd_or f2 None)) q (alter (set_size (x.2 + b.2)) q (pool m)))).
      rewrite length_alter_if, !length_alter. apply Hlt. set_solver. }
  cbn [mbind option_bind]. eexists. split; [reflexivity|]. split; [|done].
  constructor; cbn [pool set_pool set_num p_free p_alloc num]; [by rewrite Hf; destruct l|done| |].
  - by apply (repr_merge (pool m) l q p f2 g x b g2 aps al (x.2 + b.2)).
  - rewrite Hnum. pose proof (repr_length _ _ _ _ _ _ Hr) as Hlen. rewrite !length_app in *. simpl in *.
    rewrite u32_id; unfold is_u32, MAXNUM_POOL in *; lia.
Qed.

Definition merge_next (m : Memmgr) (q : nat) : option Memmgr :=
  nq ← node m q; '(m, _) ← check_prevnode_and_merge null_zero m (next nq); Some m.

Lemma merge_next_ok m l q f2 g x g2 aps al :
  rep m (l ++ q :: f2) (g ++ x :: g2) aps al -> length l = length g -> Forall (placed mb ts u) (x :: g2) ->
  (g2 = [] -> null_zero = true) ->
  exists m' fps', merge_next m q = Some m' /\ rep m' fps' (g ++ join x g2) aps al /\
    membase m' = membase m /\ totalsize m' = totalsize m.
Proof.
  intros Hrep Hl Hpl Hnz. pose proof (rp_free _ _ _ _ _ _ (re_repr _ _ _ _ _ Hrep)) as Hd.
  pose proof (dseg_middle _ _ _ _ _ _ _ _ _ Hl Hd) as Hq. apply dseg_app in Hd as [_ [_ Hd]]; [|done].
  unfold merge_next. change (node m q) with (pool m !! q). rewrite Hq. cbn [mbind option_bind next].
  destruct g2 as [|y g2], f2 as [|r f2]; try done; cbn [hd_or].
  - cbn [check_prevnode_and_merge]. rewrite Hnz by done. cbn [mbind option_bind]. eauto 7.
  - apply Forall_cons_iff in Hpl as [Hx Hpl]. apply Forall_cons_iff in Hpl as [Hy _].
    pose proof (merge_prev m l q r f2 g x y g2 aps al Hrep Hl Hx Hy) as Hm. cbn [join].
    destruct (Z.eqb_spec (x.1 + x.2) y.1).
    + destruct Hm as (m' & -> & ? & ?). cbn [mbind option_bind]. eauto 7.
    + rewrite Hm. cbn [mbind option_bind]. eauto 7.
Qed.

(** The two merges after the insertion. *)
Lemma merge_both m ps1 p ps2 fr1 b fr2 aps al r :
  rep m (ps1 ++ p :: ps2) (fr1 ++ b :: fr2) aps al -> length ps1 = length fr1 ->
  Forall (placed mb ts u) (fr1 ++ b :: fr2) -> (fr2 = [] -> null_zero = true) -> glued fr1 b fr2 r ->
  exists m' fps', ('(m, pf) ← check_prevnode_and_merge null_zero m (Some p); q ← pf; merge_next m q) = Some m' /\
    rep m' fps' r aps al /\ membase m' = membase m /\ totalsize m' = totalsize m.
Proof.
  intros Hrep Hl Hpl Hnz [[-> ->]|(g & x & -> & ->)].
  - destruct ps1; [|done]. rewrite (merge_first m p ps2 b fr2 aps al) by done. cbn [mbind option_bind].
    by apply (merge_next_ok m [] p ps2 [] b fr2).
  - rewrite length_app in Hl. simpl in Hl. destruct ps1 as [|q l _] using rev_ind; [simpl in Hl; lia|].
    rewrite length_app in Hl. simpl in Hl. rewrite <- app_assoc in Hrep, Hpl. rewrite <- app_assoc in Hrep. cbn [app] in Hrep, Hpl.
    apply Forall_app in Hpl as [Hg Hpl]. pose proof Hpl as Hpl'. apply Forall_cons_iff in Hpl' as [Hx Hpb].
    pose proof Hpb as Hpb'. apply Forall_cons_iff in Hpb' as [Hb Hp2].
    pose proof (merge_prev m l q p ps2 g x b fr2 aps al Hrep ltac:(lia) Hx Hb) as Hm.
    destruct (Z.eqb_spec (x.1 + x.2) b.1) as [He|Hne].
    + destruct Hm as (m1 & -> & Hrep1 & Hmb1 & Hts1). cbn [mbind option_bind].
      destruct (merge_next_ok m1 l q ps2 g (x.1, x.2 + b.2) fr2 aps al) as (m2 & fps' & -> & Hrep2 & ? & ?); [done|lia| |done|].
      { constructor; [|done]. destruct Hx as (?&?&?&?), Hb as (?&?&?&?). unfold placed. simpl. repeat split; lia || done. }
      exists m2, fps'. rewrite join_join by done. repeat split; [apply Hrep2..|congruence|congruence].
    + rewrite Hm. cbn [mbind option_bind]. rewrite join_apart by done.
      destruct (merge_next_ok m (l ++ [q]) p ps2 (g ++ [x]) b fr2 aps al) as (m2 & fps' & -> & Hrep2 & ? & ?);
        [by rewrite <- !app_assoc|rewrite !length_app; simpl; lia|done|done|].
      rewrite <- app_assoc in Hrep2. eauto 7.
Qed.
End Merge.

(** A manager with one loose node, between the two halves of a release. *)
Record rep_loose (m : Memmgr) (fps : list nat) (fr : blocks) (aps : list nat) (al : blocks) (p : nat) (b : block) : Prop := {
  rl_free : p_free m = head fps;
  rl_alloc : p_alloc m = head aps;
  rl_repr : repr (pool m) fps fr aps al [p];
  rl_num : num m = Z.of_nat (S (length fps + length aps));
  rl_node : exists n, pool m !! p = Some n /\ base n = b.1 /\ size n = b.2 /\ isused n = NODE_USED;
}.

Section Release.
Context (null_zero : bool) (mb ts u : Z) (Hmb : 0 <= mb) (Hts : mb + ts < 2 ^ 64) (Hts32 : ts < 2 ^ 32).

(** The first half of [insert_node_2_free]: the node is linked in. *)
Lemma insert_link m ps1 ps2 fr1 fr2 aps al p b h :
  rep_loose m (ps1 ++ ps2) (fr1 ++ fr2) aps al p b -> length ps1 = length fr1 ->
  Forall (fun x => x.1 < b.1) fr1 -> Forall (fun x => b.1 <= x.1) fr2 -> head (ps1 ++ ps2) = Some h ->
  exists m1, rep m1 (ps1 ++ p :: ps2) (fr1 ++ b :: fr2) aps al /\ membase m1 = membase m /\ totalsize m1 = totalsize m /\
    insert_node_2_free null_zero m p =
      ('(m, pf) ← check_prevnode_and_merge null_zero m1 (Some p); q ← pf; merge_next null_zero m q).
Proof.
  intros [Hf Ha Hr Hnum (np & Hnp & Hb & Hs & Hu)] Hl H1 H2 Hh.
  pose proof (rp_free _ _ _ _ _ _ Hr) as Hd. pose proof (fun i => dseg_lt _ _ _ _ _ i Hd) as Hlt.
  assert (Hpl : (p < length (pool m))%nat) by (by eapply lookup_lt_Some).
  assert (Hlen : (length (ps1 ++ ps2) <= list_fuel)%nat).
  { pose proof (repr_length _ _ _ _ _ _ Hr) as Hle. rewrite length_app in Hle. unfold list_fuel. lia. }
  pose proof (find_place_ok b.1 list_fuel m None h ps1 ps2 fr1 fr2 Hd Hl H1 H2 Hh Hlen) as Hfp.
  assert (Hn : Z.of_nat (S (length (ps1 ++ ps2) + length aps)) = Z.of_nat (length (ps1 ++ p :: ps2) + length aps))
    by (rewrite !length_app; simpl; lia).
  unfold insert_node_2_free. rewrite Hf, Hh. change (node m p) with (pool m !! p). rewrite Hnp. cbn [mbind option_bind].
  rewrite Hb, Hfp. apply dseg_app in Hd as [Hd1 Hd2]; [|done].
  destruct ps2 as [|r ps2]; cbn [hd_or].
  - destruct ps1 as [|q l _] using rev_ind; [done|]. rewrite last_or_snoc. cbn [mbind option_bind].
    destruct fr1 as [|x g _] using rev_ind; [rewrite length_app in Hl; simpl in Hl; lia|].
    apply dseg_app in Hd1 as [_ [Hq _]]; [|rewrite !length_app in Hl; simpl in Hl; lia].
    change (node m q) with (pool m !! q). rewrite Hq. cbn [mbind option_bind base].
    apply Forall_app in H1 as [_ H1]. apply Forall_cons_iff in H1 as [Hx _]. rewrite (proj2 (Z.ltb_lt _ _)) by done.
    rewrite upd_node_ok by (apply Hlt; clear; set_solver). cbn [mbind option_bind].
    do 2 (rewrite upd_node_ok by (cbn [pool set_pool]; by rewrite ?length_alter); cbn [mbind option_bind pool set_pool]).
    eexists. split; [|split; [|split; [|reflexivity]]]; [|done|done].
    constructor; cbn [pool set_pool p_free p_alloc num]; [rewrite Hf; by destruct l|done| |by rewrite Hnum].
    eapply repr_insert_tail; eauto. apply last_or_snoc.
  - destruct fr2 as [|y fr2]; [by destruct Hd2|]. destruct Hd2 as [Hrn _]. cbn [mbind option_bind].
    change (node m r) with (pool m !! r). rewrite Hrn. cbn [mbind option_bind base prev].
    apply Forall_cons_iff in H2 as [Hy _]. rewrite (proj2 (Z.ltb_ge _ _)) by done.
    set (m0 := match last_or ps1 None with None => _ | Some _ => _ end).
    assert (Hm0 : pool m0 = pool m /\ p_alloc m0 = p_alloc m /\ num m0 = num m /\ p_free m0 = head (ps1 ++ p :: r :: ps2) /\
                  membase m0 = membase m /\ totalsize m0 = totalsize m).
    { unfold m0. destruct ps1 as [|q l _] using rev_ind; [done|]. rewrite last_or_snoc, Hf. repeat split. by destruct l. }
    destruct Hm0 as (Hm1 & Hm2 & Hm3 & Hm4 & Hm5 & Hm6).
    rewrite upd_node_ok by (by rewrite Hm1). cbn [mbind option_bind].
    rewrite upd_if_ok by (intros i Hi; cbn [pool set_pool]; rewrite length_alter, Hm1; apply Hlt; apply last_or_elem in Hi; clear -Hi; set_solver).
    cbn [mbind option_bind pool set_pool]. fold (alter_if (set_next (Some p)) (last_or ps1 None) (alter (set_prev (last_or ps1 None)) p (pool m0))).
    rewrite upd_node_ok by (cbn [pool set_pool]; by rewrite length_alter_if, length_alter, Hm1).
    cbn [mbind option_bind pool set_pool].
    rewrite upd_node_ok by (cbn [pool set_pool]; rewrite length_alter, length_alter_if, length_alter, Hm1; apply Hlt; clear; set_solver).
    cbn [mbind option_bind pool set_pool].
    eexists. split; [|split; [|split; [|reflexivity]]]; [|done|done].
    constructor; cbn [pool set_pool p_free p_alloc num]; [done|congruence| |congruence].
    rewrite Hm1. exact (repr_insert_before (pool m) ps1 (r :: ps2) aps fr1 (y :: fr2) al p b Hl Hr np Hnp Hb Hs Hu r eq_refl).
Qed.

Lemma insert_ok m fps fr aps al p b :
  rep_loose m fps fr aps al p b -> Forall (placed mb ts u) (b :: fr) -> gapped fr ->
  (null_zero = true \/ fr = [] \/ Exists (fun x => b.1 < x.1) fr) -> Forall (apart b) fr ->
  exists m' fps', insert_node_2_free null_zero m p = Some m' /\ rep m' fps' (give_back b fr) aps al /\
    membase m' = membase m /\ totalsize m' = totalsize m.
Proof.
  intros Hrl Hpl Hg Hnz Hap. apply Forall_cons_iff in Hpl as [Hb Hpl].
  assert (Hpos : Forall (fun x => 0 < x.2) fr) by (eapply Forall_impl; [|exact Hpl]; intros ? [? _]; done).
  destruct (gapped_split b.1 fr Hg Hpos) as (fr1 & fr2 & -> & H1 & H2).
  pose proof (give_back_glued b fr1 fr2 Hg H1 H2) as Hgl.
  destruct (dseg_split _ _ _ _ _ _ (rp_free _ _ _ _ _ _ (rl_repr _ _ _ _ _ _ _ Hrl))) as (ps1 & ps2 & -> & Hl & _ & Hd2).
  destruct (head (ps1 ++ ps2)) as [h|] eqn:Hh.
  - destruct (insert_link m ps1 ps2 fr1 fr2 aps al p b h) as (m1 & Hrep1 & Hmb1 & Hts1 & ->); try done.
    rewrite <- Hmb1, <- Hts1. apply (merge_both null_zero mb ts u Hmb Hts Hts32 m1 ps1 p ps2 fr1 b fr2); try done.
    + apply Forall_app in Hpl as [? ?]. apply Forall_app. split; [done|by constructor].
    + intros ->. destruct Hnz as [?|[Hn|He]]; [done|..]; exfalso.
      * rewrite app_nil_r in Hn. subst fr1. apply dseg_length in Hd2. destruct ps1, ps2; done.
      * rewrite app_nil_r in He. rewrite Exists_exists in He. rewrite Forall_forall in H1. destruct He as (x & Hx & ?).
        specialize (H1 x Hx). simpl in H1. lia.
  - destruct ps1; [|done]. destruct ps2; [|done]. destruct fr1; [|done]. destruct fr2; [|done].
    destruct Hrl as [Hf Ha Hr Hnum (np & Hnp & Hnb & Hns & Hnu)].
    assert (Hp : (p < length (pool m))%nat) by (by eapply lookup_lt_Some).
    unfold insert_node_2_free. rewrite Hf. cbn [head app].
    rewrite upd_node_ok by done. cbn [mbind option_bind pool set_pool set_p_free].
    rewrite upd_node_ok by (cbn [pool set_pool]; by rewrite length_alter). cbn [pool set_pool set_p_free].
    do 2 eexists. split; [reflexivity|]. split; [|done].
    constructor; cbn [pool set_pool set_p_free p_free p_alloc num]; [instantiate (1 := [p]); done|done| |by rewrite Hnum].
    apply (repr_link (pool m) [] [] aps [] [] al p b eq_refl Hr np Hnp Hnb Hns Hnu); [|done|done|by rewrite !length_alter|].
    + rewrite !list_lookup_alter_eq, Hnp. destruct np. simpl in *. by rewrite Hnb, Hns, Hnu.
    + intros i Hi. by rewrite !list_lookup_alter_ne by set_solver.
Qed.

Lemma find_alloc_ok a fuel m prv aps al :
  dseg (pool m) prv aps None al -> (length aps <= fuel)%nat ->
  match extract a al with
  | None => find_alloc fuel m (hd_or aps None) a = Some None
  | Some (b, al') => exists a1 p a2 l1 l2, aps = a1 ++ p :: a2 /\ al = l1 ++ b :: l2 /\ al' = l1 ++ l2 /\
      length a1 = length l1 /\ find_alloc fuel m (hd_or aps None) a = Some (Some p)
  end.
Proof.
  revert prv al fuel. induction aps as [|p aps IH]; intros prv [|x al] fuel Hd Hf; try done; [by destruct fuel|].
  destruct Hd as [Hn Hd]. destruct fuel as [|fuel]; [simpl in Hf; lia|]. simpl in Hf.
  cbn [extract hd_or find_alloc]. change (node m p) with (pool m !! p). rewrite Hn. cbn [mbind option_bind base next].
  destruct (Z.eqb_spec x.1 a); [exists [], p, aps, [], al; done|].
  specialize (IH _ _ fuel Hd ltac:(lia)). destruct (extract a al) as [[b al']|]; cbn [mbind option_bind]; [|done].
  destruct IH as (a1 & q & a2 & l1 & l2 & -> & -> & -> & Hl & ->).
  exists (p :: a1), q, a2, (x :: l1), l2. simpl. repeat split; auto.
Qed.

Lemma mgr_free_ok m fps fr aps al a :
  rep m fps fr aps al -> arena mb ts u fr al ->
  (forall b al', extract a al = Some (b, al') -> null_zero = true \/ fr = [] \/ Exists (fun x => b.1 < x.1) fr) ->
  exists m' fps' aps', mgr_free null_zero m a = Some m' /\
    rep m' fps' (fst (spec_free a fr al)) aps' (snd (spec_free a fr al)) /\
    membase m' = membase m /\ totalsize m' = totalsize m.
Proof.
  intros Hrep Har Hnz. pose proof Hrep as [Hf Ha Hr Hnum].
  assert (Hle : (length aps <= list_fuel)%nat).
  { pose proof (repr_length _ _ _ _ _ _ Hr) as Hle. rewrite !length_app in Hle. unfold list_fuel. lia. }
  pose proof (find_alloc_ok a list_fuel m None aps al (rp_alloc _ _ _ _ _ _ Hr) Hle) as Hfa.
  unfold mgr_free, spec_free. rewrite Ha, head_hd_or. destruct (extract a al) as [[b al']|] eqn:He.
  2:{ rewrite Hfa. cbn [mbind option_bind fst snd]. eauto 7. }
  destruct Hfa as (a1 & p & a2 & l1 & l2 & -> & -> & -> & Hl & ->). cbn [mbind option_bind fst snd].
  pose proof (rp_nodup _ _ _ _ _ _ Hr) as Hnd. apply list.NoDup_app in Hnd as (_ & _ & Hnd). rewrite app_nil_r in Hnd.
  destruct (unlink_ok m a1 p a2 l1 b l2 Hl Hnd (rp_alloc _ _ _ _ _ _ Hr)) as (P' & Hu & Hd & HlP & Hne).
  rewrite <- head_hd_or, Hu. cbn [mbind option_bind].
  pose proof (repr_unlink_alloc _ _ _ _ _ _ _ _ _ _ _ Hr Hd HlP Hne) as Hr'.
  assert (Hti : tiling mb ts u (b :: fr ++ l1 ++ l2)) by (eapply tiling_perm; [|apply Har]; solve_Permutation).
  destruct Hti as [Hpl Hap _]. inversion_clear Hap as [|? ? Hab _]. apply Forall_cons_iff in Hpl as [Hpb Hpl].
  apply Forall_app in Hpl as [Hpl _]. apply Forall_app in Hab as [Hab _].
  edestruct (insert_ok (set_p_alloc (head (a1 ++ a2)) (set_pool P' m)) fps fr (a1 ++ a2) (l1 ++ l2) p b)
    as (m' & fps' & -> & Hrep' & Hm1 & Hm2); [|by constructor|apply Har|eauto|done|eauto 7].
  constructor; cbn [p_free p_alloc pool num set_p_alloc set_pool]; [done|done|done|..].
  - rewrite Hnum. rewrite !length_app. simpl. lia.
  - rewrite Hne.
    + rewrite (dseg_middle _ _ _ _ _ _ _ _ _ Hl (rp_alloc _ _ _ _ _ _ Hr)). eauto 7.
    + apply list.NoDup_app in Hnd as (_ & Hx & Hn3). apply list.NoDup_cons in Hn3 as [? _].
      intros Hi. apply elem_of_app in Hi as [Hi|Hi]; [|done]. apply (Hx p Hi). clear. set_solver.
Qed.
End Release.
