(* ===== verification/MmgrSafety.v ===== *)
(** * The memory manager: properties

    The refinement of Mmgr.v to the abstract allocator of Blocks.v at the
    level of the calls the boot stages make, and what follows for a client:
    live blocks never overlap, and every byte is either free or in a live
    block. *)

From stdpp Require Import sets.
From S2P Require Import Prelude Disk Mmgr Blocks MmgrRefine.

(** A manager of memory type [type] in good order, with its free and
    allocated blocks. *)
Definition managed (type : MEM_TYPE) (m : Memmgr) (fr al : blocks) : Prop :=
  (exists fps aps, rep m fps fr aps al) /\ arena (membase m) (totalsize m) (unit_of type) fr al /\
  0 <= membase m /\ membase m + totalsize m < 2 ^ 64 /\ totalsize m < 2 ^ 32.

Definition same_arena (m m' : Memmgr) : Prop := membase m' = membase m /\ totalsize m' = totalsize m.

Lemma managed_placed type m fr al b : managed type m fr al -> b ∈ fr ++ al -> placed (membase m) (totalsize m) (unit_of type) b.
Proof. intros (_ & Har & _) Hb. pose proof (tl_placed _ _ _ _ (ar_tiling _ _ _ _ _ Har)) as H. rewrite list.Forall_forall in H. by apply H. Qed.

Lemma mgr_alloc_ok type m fr al sz :
  managed type m fr al -> 0 < sz < 2 ^ 31 -> num m < Z.of_nat MAXNUM_POOL ->
  exists m' fr' al' r, mgr_alloc type m sz = Some (m', r) /\
    spec_alloc (alloc_size_of type sz) fr al = (fr', al', r) /\ managed type m' fr' al' /\ same_arena m m'.
Proof.
  intros Hm Hsz Hnum. pose proof Hm as ((fps & aps & Hrep) & Har & Hb1 & Hb2 & Hb3).
  destruct (alloc_size_spec type sz Hsz) as [Has Hdiv]. pose proof Hrep as [Hf _ Hr Hn].
  unfold mgr_alloc. rewrite (proj2 (Z.leb_gt _ _)), (proj2 (Z.ltb_ge _ _)) by lia.
  assert (Hl : (length fps < list_fuel)%nat) by (unfold list_fuel; lia).
  pose proof (alloc_loop_ok (alloc_size_of type sz) list_fuel m [] fps [] fr aps al Hrep eq_refl Hl) as Hal.
  rewrite Hf, head_hd_or. unfold spec_alloc.
  assert (Hpl : Forall (fun x => 0 <= x.1 /\ x.1 + x.2 < 2 ^ 64 /\ x.2 < 2 ^ 32) fr).
  { apply list.Forall_forall. intros x Hx. destruct (managed_placed _ _ _ _ x Hm) as (?&?&?&?); [apply elem_of_app; auto|lia]. }
  specialize (Hal ltac:(simpl; lia) ltac:(lia) Hpl).
  destruct (take_fit (alloc_size_of type sz) fr) as [[a fr']|] eqn:Ht.
  - destruct Hal as (m' & fps' & i & Hal & Hrep' & Hmb & Hts). exists m', fr', ((a, alloc_size_of type sz) :: al), (Some a).
    split; [exact Hal|]. split; [done|]. split; [|by split]. split; [by eexists _, _|]. rewrite Hmb, Hts. split; [|done].
    eapply spec_alloc_arena; [|exact Hdiv|exact Har|unfold spec_alloc; by rewrite Ht]. lia.
  - exists m, fr, al, None. rewrite Hal. split; [done|]. split; [done|]. split; [exact Hm|done].
Qed.

Lemma mgr_free_managed nz type m fr al a :
  managed type m fr al ->
  (forall b al', extract a al = Some (b, al') -> nz = true \/ fr = [] \/ Exists (fun x => b.1 < x.1) fr) ->
  exists m', mgr_free nz m a = Some m' /\ managed type m' (fst (spec_free a fr al)) (snd (spec_free a fr al)) /\
    same_arena m m'.
Proof.
  intros ((fps & aps & Hrep) & Har & Hb1 & Hb2 & Hb3) Hnz.
  destruct (mgr_free_ok nz _ _ _ Hb1 Hb2 Hb3 m fps fr aps al a Hrep Har Hnz) as (m' & fps' & aps' & -> & Hrep' & Hmb & Hts).
  exists m'. split; [done|]. split; [|done]. split; [by eexists _, _|]. rewrite Hmb, Hts. split; [|done].
  eapply spec_free_arena; [exact Har|]. apply surjective_pairing.
Qed.

Lemma mgr_alloc_nodes type m fr al sz m' r :
  managed type m fr al -> 0 < sz < 2 ^ 31 -> num m < Z.of_nat MAXNUM_POOL ->
  mgr_alloc type m sz = Some (m', r) -> num m' <= num m + 1.
Proof.
  intros Hm Hsz Hn He. destruct (mgr_alloc_ok type m fr al sz Hm Hsz Hn) as (m1 & fr' & al' & r' & He' & Hs & Hm' & _).
  rewrite He in He'. injection He' as <- <-. unfold spec_alloc in Hs.
  destruct Hm as ((fps & aps & [_ _ Hr Hnum]) & _). destruct Hm' as ((fps' & aps' & [_ _ Hr' Hnum']) & _).
  pose proof (dseg_length _ _ _ _ _ (rp_free _ _ _ _ _ _ Hr)). pose proof (dseg_length _ _ _ _ _ (rp_alloc _ _ _ _ _ _ Hr)).
  pose proof (dseg_length _ _ _ _ _ (rp_free _ _ _ _ _ _ Hr')). pose proof (dseg_length _ _ _ _ _ (rp_alloc _ _ _ _ _ _ Hr')).
  destruct (take_fit _ fr) as [[a f]|] eqn:Ht; injection Hs as <- <- <-; [|lia].
  apply take_fit_split in Ht as (f1 & s & f2 & -> & _ & _ & ->). simpl in *. rewrite !length_app in *.
  case_match; simpl in *; lia.
Qed.

Lemma mgr_free_nodes type m fr al a m' :
  managed type m fr al -> managed type m' (fst (spec_free a fr al)) (snd (spec_free a fr al)) -> num m' <= num m.
Proof.
  intros Hm Hm'. unfold spec_free in Hm'.
  destruct Hm as ((fps & aps & [_ _ Hr Hnum]) & _). destruct Hm' as ((fps' & aps' & [_ _ Hr' Hnum']) & _).
  pose proof (dseg_length _ _ _ _ _ (rp_free _ _ _ _ _ _ Hr)). pose proof (dseg_length _ _ _ _ _ (rp_alloc _ _ _ _ _ _ Hr)).
  pose proof (dseg_length _ _ _ _ _ (rp_free _ _ _ _ _ _ Hr')) as Hf. pose proof (dseg_length _ _ _ _ _ (rp_alloc _ _ _ _ _ _ Hr')) as Ha.
  destruct (extract a al) as [[b l]|] eqn:He2; simpl in Hf, Ha; [|lia].
  apply extract_perm in He2 as [_ Hp]. apply Permutation_length in Hp. simpl in Hp.
  pose proof (give_back_length b fr). lia.
Qed.

(** ** The arena right after its initialisation *)

Lemma fresh_eq mstart sz :
  fresh_mmgr mstart sz =
    Some (mk_mgr (u64 (mstart + RESERVE_MEM_SIZE)) (u32 (sz - RESERVE_MEM_SIZE)) (u32 (0 + 1)) (Some 0%nat) None
      (mk_node None None (u64 (mstart + RESERVE_MEM_SIZE)) (u32 (sz - RESERVE_MEM_SIZE)) NODE_USED :: replicate 199 zero_node)).
Proof. reflexivity. Qed.

Lemma fresh_managed type mstart sz :
  0 <= mstart -> mstart + sz < 2 ^ 64 -> RESERVE_MEM_SIZE < sz < 2 ^ 32 ->
  exists m, fresh_mmgr mstart sz = Some m /\ num m = 1 /\
    membase m = mstart + RESERVE_MEM_SIZE /\ totalsize m = sz - RESERVE_MEM_SIZE /\
    managed type m [(mstart + RESERVE_MEM_SIZE, sz - RESERVE_MEM_SIZE)] [].
Proof.
  intros H1 H2 H3. rewrite fresh_eq. eexists. split; [reflexivity|]. cbn [num membase totalsize].
  unfold RESERVE_MEM_SIZE in *. rewrite u64_id, (u32_id (sz - _)), (u32_id (0 + 1)) by (unfold is_u32; lia).
  do 3 (split; [done|]). unfold managed. cbn [membase totalsize]. split; [|split; [|lia]].
  - exists [0%nat], []. constructor; cbn [p_free p_alloc pool num]; [done|done| |done].
    constructor; [by split|done|repeat constructor; set_solver|done| |set_solver].
    intros i Hi Hn. destruct i as [|i]; [set_solver|]. cbn [lookup list_lookup]. apply lookup_replicate. split; [done|].
    unfold MAXNUM_POOL in Hi. lia.
  - constructor; [constructor| |constructor].
    + constructor; [|constructor]. unfold placed. cbn [fst snd]. rewrite Z.sub_diag.
      split; [lia|]. split; [lia|]. split; [lia|]. apply Z.divide_0_r.
    + repeat constructor.
    + simpl. lia.
    + simpl. split; constructor.
Qed.

(** ** Sequences of calls *)

Inductive mm_op := Alloc (sz : Z) | Release (a : Z).

Definition op_ok (o : mm_op) : Prop := match o with Alloc sz => is_i32 sz | Release _ => True end.

(** [null_zero] as in Mmgr.v; the returned pointers are dropped, a client may
    release any address. *)
Definition mm_step (null_zero : bool) (type : MEM_TYPE) (m : Memmgr) (o : mm_op) : option Memmgr :=
  match o with
  | Alloc sz => '(m, _) ← mgr_alloc type m sz; Some m
  | Release a => mgr_free null_zero m a
  end.

Fixpoint mm_run (null_zero : bool) (type : MEM_TYPE) (ops : list mm_op) (m : Memmgr) : option Memmgr :=
  match ops with
  | [] => Some m
  | o :: ops => m ← mm_step null_zero type m o; mm_run null_zero type ops m
  end.

(** The same on the free and the allocated blocks. *)
Definition spec_step (type : MEM_TYPE) (o : mm_op) (fr al : blocks) : blocks * blocks :=
  match o with
  | Alloc sz => if sz <=? 0 then (fr, al) else fst (spec_alloc (alloc_size_of type sz) fr al)
  | Release a => spec_free a fr al
  end.

(** A release that does not read through NULL: there is no free block, or one above the
    block that is released, or no block at that address. *)
Definition covered_step (o : mm_op) (fr al : blocks) : bool :=
  match o with
  | Alloc _ => true
  | Release a => match fr, extract a al with [], _ | _, None => true | _, _ => existsb (fun x => a <? x.1) fr end
  end.

Fixpoint covered (type : MEM_TYPE) (ops : list mm_op) (fr al : blocks) : bool :=
  match ops with [] => true | o :: ops => covered_step o fr al && covered type ops (fst (spec_step type o fr al)) (snd (spec_step type o fr al)) end.

Lemma covered_release a fr al b al' : covered_step (Release a) fr al = true -> extract a al = Some (b, al') -> fr = [] \/ Exists (fun x => b.1 < x.1) fr.
Proof.
  cbn [covered_step]. intros H He. destruct fr as [|x fr]; [by left|right]. rewrite He in H. apply extract_perm in He as [-> _]. apply existsb_exists in H as (y & Hy & Hlt). apply Exists_exists. exists y. split; [done|lia].
Qed.

Lemma mm_step_managed nz type m fr al o :
  managed type m fr al -> op_ok o -> num m < Z.of_nat MAXNUM_POOL -> nz = true \/ covered_step o fr al = true ->
  exists m', mm_step nz type m o = Some m' /\ managed type m' (fst (spec_step type o fr al)) (snd (spec_step type o fr al)) /\ num m' <= num m + 1 /\
    same_arena m m'.
Proof.
  intros Hm Ho Hn Hc. destruct o as [sz|a]; cbn [mm_step spec_step op_ok] in *.
  - destruct (Z.le_gt_cases sz 0) as [Hz|Hz].
    { exists m. unfold mgr_alloc. rewrite (proj2 (Z.leb_le _ _)) by done. simpl. split; [done|]. split; [done|]. split; [lia|done]. }
    unfold is_i32 in Ho. destruct (mgr_alloc_ok type m fr al sz Hm ltac:(lia) Hn) as (m' & fr' & al' & r & He & Hs & Hm' & Hsa).
    exists m'. rewrite He, (proj2 (Z.leb_gt _ _)), Hs by lia. split; [done|]. split; [done|]. split; [|done].
    exact (mgr_alloc_nodes type m fr al sz m' r Hm (conj Hz (proj2 Ho)) Hn He).
  - destruct (mgr_free_managed nz type m fr al a Hm) as (m' & He & Hm' & Hsa); [intros b al' Hex; destruct Hc as [|Hc]; [by left|right; by eapply covered_release]|].
    exists m'. split; [exact He|]. split; [exact Hm'|]. split; [|done]. pose proof (mgr_free_nodes _ _ _ _ _ _ Hm Hm'). lia.
Qed.

Lemma mm_run_managed nz type ops m fr al :
  managed type m fr al -> Forall op_ok ops -> num m + Z.of_nat (length ops) <= Z.of_nat MAXNUM_POOL -> nz = true \/ covered type ops fr al = true ->
  exists m' fr' al', mm_run nz type ops m = Some m' /\ managed type m' fr' al' /\ same_arena m m'.
Proof.
  revert m fr al. induction ops as [|o ops IH]; intros m fr al Hm Ho Hn Hc; [exists m, fr, al; done|].
  apply Forall_cons_iff in Ho as [Ho Hos]. cbn [length] in Hn. cbn [covered] in Hc. rewrite andb_true_iff in Hc.
  destruct (mm_step_managed nz type m fr al o Hm Ho ltac:(lia) ltac:(tauto)) as (m' & He & Hm' & Hn' & [Hs1 Hs2]).
  cbn [mm_run]. rewrite He. cbn [mbind option_bind].
  destruct (IH m' _ _ Hm' Hos ltac:(lia) ltac:(tauto)) as (m2 & fr2 & al2 & Hrun & Hm2 & [Hs3 Hs4]).
  exists m2, fr2, al2. split; [done|]. split; [done|]. split; congruence.
Qed.

(** ** Properties *)

Lemma set_mgr_same t m s : g_mmgr (set_mgr t m s) t = Some m.
Proof. simpl. by rewrite decide_True. Qed.

Lemma set_mgr_other t t' m s : t' <> t -> g_mmgr (set_mgr t m s) t' = g_mmgr s t'.
Proof. intros H. simpl. by rewrite decide_False. Qed.

(** C24: allocation refines first fit.  For a manager in good order with a node
    left in the pool, mmgr_alloc_by_type returns; it rounds the request up to
    the unit of the memory type, gives the lower part of the first free block
    that is large enough and links it at the head of the allocated list, or
    returns NULL when no free block is large enough; the manager stays in good
    order, and the other managers and the memory are untouched. *)
Theorem mmgr_alloc_refines (s : memory) (type : MEM_TYPE) (m : Memmgr) (fr al : blocks) (sz : Z) :
  g_mmgr s type = Some m -> managed type m fr al -> 0 < sz < 2 ^ 31 -> num m < Z.of_nat MAXNUM_POOL ->
  exists s' m' fr' al' r, mmgr_alloc_by_type s type sz = Some (s', r) /\
    g_mmgr s' type = Some m' /\ managed type m' fr' al' /\
    (exists n, sz <= n < sz + unit_of type /\ (unit_of type | n) /\ spec_alloc n fr al = (fr', al', r)) /\
    (forall t, t <> type -> g_mmgr s' t = g_mmgr s t) /\ mem s' = mem s.
Proof.
  intros Hg Hm Hsz Hn. destruct (mgr_alloc_ok type m fr al sz Hm Hsz Hn) as (m' & fr' & al' & r & He & Hs & Hm' & _).
  destruct (alloc_size_spec type sz Hsz) as [H1 H2].
  unfold mmgr_alloc_by_type. rewrite Hg, He. exists (set_mgr type m' s), m', fr', al', r.
  split; [done|]. split; [apply set_mgr_same|]. split; [done|]. split; [eauto|]. split; [|done].
  intros t Ht. by apply set_mgr_other.
Qed.

(** C25: release refines the merge of address-ordered intervals.  The block that
    starts at the given address moves from the allocated to the free list,
    merged with the free blocks it touches; an address that starts no
    allocated block changes nothing.  When the released block lies above every
    free block the code also reads the word at address 0, and the release is
    right only where that read gives 0. *)
Theorem mmgr_free_refines (null_zero : bool) (s : memory) (type : MEM_TYPE) (m : Memmgr) (fr al : blocks) (a : Z) :
  g_mmgr s type = Some m -> managed type m fr al ->
  null_zero = true \/ fr = [] \/ Exists (fun x => a < x.1) fr ->
  exists s' m' fr' al', mmgr_free_by_type null_zero s type a = Some s' /\
    g_mmgr s' type = Some m' /\ managed type m' fr' al' /\ spec_free a fr al = (fr', al') /\
    (forall t, t <> type -> g_mmgr s' t = g_mmgr s t) /\ mem s' = mem s.
Proof.
  intros Hg Hm Hnz. destruct (mgr_free_managed null_zero type m fr al a Hm) as (m' & He & Hm' & _).
  { intros b al' Hex. apply extract_perm in Hex as [-> _]. done. }
  unfold mmgr_free_by_type. rewrite Hg, He. exists (set_mgr type m' s), m', (spec_free a fr al).1, (spec_free a fr al).2.
  split; [done|]. split; [apply set_mgr_same|]. split; [done|]. split; [apply surjective_pairing|]. split; [|done].
  intros t Ht. by apply set_mgr_other.
Qed.

(** C3: live blocks never overlap.  After init_mmgr_by_type and any sequence of at
    most 199 allocations and releases (of any addresses) in which no block above all
    free blocks is released while there is a free block - there the code reads through
    NULL ([mmgr_limits]) - every call has returned, the allocated blocks are pairwise
    apart and inside the arena, no allocated block meets a free one, and the sizes of
    all blocks add up to the arena. *)
Theorem mmgr_blocks_disjoint (type : MEM_TYPE) (mstart sz : Z) (ops : list mm_op) :
  0 <= mstart -> mstart + sz < 2 ^ 64 -> RESERVE_MEM_SIZE < sz < 2 ^ 32 ->
  Forall op_ok ops -> (length ops < 200)%nat -> covered type ops [(mstart + RESERVE_MEM_SIZE, sz - RESERVE_MEM_SIZE)] [] = true ->
  exists m m' fr al, fresh_mmgr mstart sz = Some m /\ mm_run false type ops m = Some m' /\ managed type m' fr al /\
    ForallOrdPairs apart (fr ++ al) /\ total (fr ++ al) = sz - RESERVE_MEM_SIZE /\
    Forall (fun b => mstart + RESERVE_MEM_SIZE <= b.1 /\ b.1 + b.2 <= mstart + sz) (fr ++ al).
Proof.
  intros H1 H2 H3 Hops Hlen Hcov. destruct (fresh_managed type mstart sz H1 H2 H3) as (m & Hf & Hn & Hmb & Hts & Hm).
  destruct (mm_run_managed false type ops m _ _ Hm Hops) as (m' & fr & al & Hrun & Hm' & [Hb1 Hb2]); [rewrite Hn; unfold MAXNUM_POOL; lia|by right|].
  exists m, m', fr, al. split; [done|]. split; [done|]. split; [done|].
  destruct Hm' as (_ & Har & _).
  destruct (ar_tiling _ _ _ _ _ Har) as [Hpl Hap Htot]. split; [done|]. rewrite Hb1, Hb2, Hmb, Hts in *. split; [done|].
  eapply Forall_impl; [|exact Hpl]. intros b (?&?&?&?). lia.
Qed.

(** Releasing what was just allocated undoes the allocation: the free and the
    allocated blocks are what they were before. *)
Theorem mmgr_alloc_free_undo (s : memory) (type : MEM_TYPE) (m : Memmgr) (fr al : blocks) (sz : Z) (s1 : memory) (a : Z) :
  g_mmgr s type = Some m -> managed type m fr al -> 0 < sz < 2 ^ 31 -> num m < Z.of_nat MAXNUM_POOL ->
  mmgr_alloc_by_type s type sz = Some (s1, Some a) ->
  exists s2 m2, mmgr_free_by_type true s1 type a = Some s2 /\ g_mmgr s2 type = Some m2 /\ managed type m2 fr al.
Proof.
  intros Hg Hm Hsz Hn He. unfold mmgr_alloc_by_type in He. rewrite Hg in He.
  destruct (mgr_alloc_ok type m fr al sz Hm Hsz Hn) as (m1 & fr1 & al1 & r & He1 & Hs & Hm1 & _).
  rewrite He1 in He. injection He as <- ->. unfold spec_alloc in Hs.
  destruct (take_fit (alloc_size_of type sz) fr) as [[a' fr']|] eqn:Ht; [|discriminate].
  injection Hs as <- <- ->.
  destruct (mgr_free_managed true type m1 _ _ a Hm1) as (m2 & Hf & Hm2 & _); [auto|].
  unfold mmgr_free_by_type. rewrite set_mgr_same, Hf. exists (set_mgr type m2 (set_mgr type m1 s)), m2.
  split; [done|]. split; [apply set_mgr_same|].
  unfold spec_free in Hm2. cbn [extract fst] in Hm2. rewrite Z.eqb_refl in Hm2. cbn [fst snd] in Hm2.
  destruct (alloc_size_spec type sz Hsz) as [H1 _]. destruct (ar_tiling _ _ _ _ _ (proj1 (proj2 Hm))) as [Hpl _ _].
  rewrite (give_back_take _ fr a fr') in Hm2; [done|lia|apply Hm| |done].
  apply Forall_app in Hpl as [Hpl _]. eapply Forall_impl; [|exact Hpl]. by intros b [? _].
Qed.

(** A common arena of 2 * 64 bytes behind the reserved memory. *)
Definition mem0 : memory := mk_memory (fun _ => None) (fun _ => 165).
Definition small_ops : list mm_op := [Alloc 64; Alloc 50; Release 8192].

(** The two limits of the allocator.  With an arena of two units, releasing
    both blocks in address order makes insert_node_2_free read through NULL,
    and the release is undefined where that read does not give 0; and the
    200th allocation of a session passes the test against MAXNUM_POOL with the
    pool full and writes through the NULL node. *)
Theorem mmgr_limits :
  (exists m m1, fresh_mmgr 0 (RESERVE_MEM_SIZE + 128) = Some m /\ mm_run false MEM_COMMON small_ops m = Some m1 /\
     mgr_free false m1 8256 = None /\ mgr_free true m1 8256 <> None) /\
  (exists m m1, fresh_mmgr 0 1000000 = Some m /\ mm_run true MEM_COMMON (replicate 199 (Alloc 1)) m = Some m1 /\
     num m1 = Z.of_nat MAXNUM_POOL /\ mgr_alloc MEM_COMMON m1 1 = None).
Proof.
  split.
  - eexists _, _. split; [reflexivity|]. split; [vm_compute; reflexivity|]. split; [vm_compute; reflexivity|]. vm_compute. done.
  - eexists _, _. split; [reflexivity|]. split; [vm_compute; reflexivity|]. split; vm_compute; reflexivity.
Qed.

(** ** Witnesses *)

Lemma sample_managed type : exists m, fresh_mmgr 0x1000000 0x100000 = Some m /\ num m = 1 /\
  managed type m [(0x1002000, 0xfe000)] [].
Proof.
  destruct (fresh_managed type 0x1000000 0x100000) as (m & ? & ? & _ & _ & ?); unfold RESERVE_MEM_SIZE; try lia. by exists m.
Qed.

Lemma mmgr_alloc_refines_witness :
  exists m s' m' fr' al' r, mmgr_alloc_by_type (set_mgr MEM_COMMON m mem0) MEM_COMMON 100 = Some (s', r) /\
    g_mmgr s' MEM_COMMON = Some m' /\ managed MEM_COMMON m' fr' al' /\
    (exists n, 100 <= n < 100 + 64 /\ (64 | n) /\ spec_alloc n [(0x1002000, 0xfe000)] [] = (fr', al', r)) /\
    (forall t, t <> MEM_COMMON -> g_mmgr s' t = g_mmgr (set_mgr MEM_COMMON m mem0) t) /\ mem s' = mem mem0.
Proof.
  destruct (sample_managed MEM_COMMON) as (m & Hf & Hn & Hm). exists m.
  apply (mmgr_alloc_refines (set_mgr MEM_COMMON m mem0) MEM_COMMON m [(0x1002000, 0xfe000)] [] 100);
    [reflexivity|exact Hm|lia|rewrite Hn; reflexivity].
Defined.

(** The same arena with one block of 128 bytes allocated. *)
Lemma sample_allocated : exists m, managed MEM_COMMON m [(0x1002080, 0xfdf80)] [(0x1002000, 128)].
Proof.
  destruct (sample_managed MEM_COMMON) as (m & Hf & Hn & Hm).
  destruct (mgr_alloc_ok MEM_COMMON m _ _ 100 Hm ltac:(lia)) as (m' & fr' & al' & r & _ & Hs & Hm' & _); [rewrite Hn; reflexivity|].
  vm_compute in Hs. injection Hs as <- <- <-. by exists m'.
Qed.

Lemma mmgr_free_refines_witness :
  exists m s' m' fr' al', mmgr_free_by_type false (set_mgr MEM_COMMON m mem0) MEM_COMMON 0x1002000 = Some s' /\
    g_mmgr s' MEM_COMMON = Some m' /\ managed MEM_COMMON m' fr' al' /\
    spec_free 0x1002000 [(0x1002080, 0xfdf80)] [(0x1002000, 128)] = (fr', al') /\
    (forall t, t <> MEM_COMMON -> g_mmgr s' t = g_mmgr (set_mgr MEM_COMMON m mem0) t) /\ mem s' = mem mem0.
Proof.
  destruct sample_allocated as (m & Hm). exists m.
  apply (mmgr_free_refines false (set_mgr MEM_COMMON m mem0) MEM_COMMON m [(0x1002080, 0xfdf80)] [(0x1002000, 128)] 0x1002000);
    [reflexivity|exact Hm|right; right; constructor; reflexivity].
Defined.

Lemma mmgr_blocks_disjoint_witness :
  exists m m' fr al, fresh_mmgr 0x1000000 0x100000 = Some m /\
    mm_run false MEM_ION_CACHEABLE [Alloc 5000; Alloc 1; Release 0x1002000; Alloc 4096] m = Some m' /\
    managed MEM_ION_CACHEABLE m' fr al /\ ForallOrdPairs apart (fr ++ al) /\
    total (fr ++ al) = 0x100000 - RESERVE_MEM_SIZE /\
    Forall (fun b => 0x1000000 + RESERVE_MEM_SIZE <= b.1 /\ b.1 + b.2 <= 0x1000000 + 0x100000) (fr ++ al).
Proof.
  apply (mmgr_blocks_disjoint MEM_ION_CACHEABLE 0x1000000 0x100000 [Alloc 5000; Alloc 1; Release 0x1002000; Alloc 4096]);
    [lia|lia|unfold RESERVE_MEM_SIZE; lia|repeat constructor; simpl; unfold is_i32; lia|simpl; lia|vm_compute; reflexivity].
Defined.

Lemma mmgr_alloc_free_undo_witness :
  exists m s1 s2 m2, mmgr_alloc_by_type (set_mgr MEM_COMMON m mem0) MEM_COMMON 100 = Some (s1, Some 0x1002000) /\
    mmgr_free_by_type true s1 MEM_COMMON 0x1002000 = Some s2 /\ g_mmgr s2 MEM_COMMON = Some m2 /\
    managed MEM_COMMON m2 [(0x1002000, 0xfe000)] [].
Proof.
  destruct (sample_managed MEM_COMMON) as (m & Hf & Hn & Hm). exists m.
  assert (He : exists s1, mmgr_alloc_by_type (set_mgr MEM_COMMON m mem0) MEM_COMMON 100 = Some (s1, Some 0x1002000)).
  { rewrite fresh_eq in Hf. injection Hf as <-. eexists. vm_compute. reflexivity. }
  destruct He as [s1 He]. exists s1.
  destruct (mmgr_alloc_free_undo (set_mgr MEM_COMMON m mem0) MEM_COMMON m [(0x1002000, 0xfe000)] [] 100 s1 0x1002000)
    as (s2 & m2 & H1 & H2 & H3); [reflexivity|exact Hm|lia|rewrite Hn; reflexivity|exact He|]. exists s2, m2. auto.
Defined.
