(* ===== verification/PowerFlow.v ===== *)
(** * The power flows of the system manager
    (boot/bootloader/sm_cm3/syna/src/power/sm_power_flow.c, sm_power_timer.c,
    sm_state.c, and the callers that request a flow)

    The state is the set of static variables; every call takes the value
    [now] that mv_sm_timer_gettimems() gives in it.  What the code does to the
    hardware and the messages it sends are recorded in [out], each effect with
    the time it happened at, the latest last.  The build is the one without
    GETHENABLE and FPSTBYENABLE. *)

From S2P Require Import Prelude.

(** ** Constants (sm_power.h, sm_state.h, sm_common.h) *)

Inductive SM_POWER_FLOW :=
| FLOW_ACTIVE_2_LOWPOWERSTANDBY | FLOW_ACTIVE_2_NORMALSTANDBY | FLOW_ACTIVE_2_SUSPEND
| FLOW_LOWPOWERSTANDBY_2_ACTIVE | FLOW_NORMALSTANDBY_2_ACTIVE | FLOW_SUSPEND_2_ACTIVE
| FLOW_SYSRESET_2_LOWPOWERSTANDBY | FLOW_SYSRESET_2_NORMALSTANDBY | FLOW_SYSRESET_2_ACTIVE
| FLOW_COLD_2_LOWPOWERSTANDBY | FLOW_IDLE.

Inductive POWER_STATUS :=
| STA_ENTERFLOW | STA_POWERON | STA_POWEROFF | STA_POWEROK | STA_ASSERT | STA_DEASSERT
| STA_WAITRSP | STA_LEAVEFLOW | STA_INVALID.

Inductive MV_SM_STATE :=
| MV_SM_STATE_ACTIVE | MV_SM_STATE_LOWPOWERSTANDBY | MV_SM_STATE_NORMALSTANDBY | MV_SM_STATE_SUSPEND
| MV_SM_STATE_ACTIVE_2_LOWPOWERSTANDBY | MV_SM_STATE_ACTIVE_2_NORMALSTANDBY | MV_SM_STATE_ACTIVE_2_SUSPEND
| MV_SM_STATE_STANDBY_2_ACTIVE | MV_SM_STATE_COLD.

#[export] Instance SM_POWER_FLOW_dec : EqDecision SM_POWER_FLOW.
Proof. solve_decision. Defined.
#[export] Instance POWER_STATUS_dec : EqDecision POWER_STATUS.
Proof. solve_decision. Defined.
#[export] Instance MV_SM_STATE_dec : EqDecision MV_SM_STATE.
Proof. solve_decision. Defined.

Definition S_OK : Z := 0.
Definition S_FALSE : Z := 1.
Definition POWEROFF2POWERON : Z := 300.
Definition POWERON2OKTIME : Z := 60.
Definition ASSERT2DEASSERTTIME : Z := 100.

Definition MV_SM_ID_IR : Z := 3.
Definition MV_SM_ID_POWER : Z := 5.
Definition MV_IR_KEY_POWER : Z := 0x200.
Definition MV_IR_UPKEY_FLAG : Z := 0x8000000.
Definition REBOOT : Z := 2.
Definition WATCHDOG : Z := 4.

Definition MV_SM_WAKEUP_SOURCE_INVALID : Z := -1.
Definition MV_SM_WAKEUP_SOURCE_WIFI : Z := 1.
Definition MV_SM_WAKEUP_SOURCE_TIMER : Z := 5.
Definition MV_SM_WAKEUP_SOURCE_BUTTON : Z := 6.
Definition MV_SM_WAKEUP_SOURCE_BT : Z := 7.

Definition MV_SOC_STATE_POWERON : Z := 0.
Definition MV_SOC_STATE_ACTIVE_2_NORMALSTANDBY : Z := 4.
Definition MV_SOC_STATE_ACTIVE_2_SUSPEND : Z := 0xA0.
Definition MV_SOC_STATE_SUSPEND_REQUEST : Z := 0xA1.
Definition MV_SOC_STATE_SYSRESET_2_ACTIVE : Z := 0xFF.
Definition MV_SOC_STATE_SYSRESET_2_LOWPOWERSTANDBY : Z := 0x21.
Definition MV_SOC_STATE_SYSRESET_2_NORMALSTANDBY : Z := 0x22.
Definition MV_SOC_STATE_LOWPOWERSTANDBY_2_ACTIVE : Z := 7.
Definition MV_SOC_STATE_SUSPEND_2_ACTIVE : Z := 6.

Definition MV_SM_POWER_SUSPEND_TYPE_WFI : Z := 0xF1.
Definition MV_SM_POWER_SUSPEND_TYPE_PWROFF : Z := 0xFF.

Definition MV_SoC_STATE_SYSPOWERON : Z := 0.
Definition MV_SoC_STATE_COLDBOOT : Z := 0x21.
Definition MV_SM_IR_Linuxready : Z := 30.
Definition MV_SM_POWER_LOWPOWERSTANDBY_REQUEST : Z := 0x10.
Definition MV_SM_POWER_NORMALSTANDBY_REQUEST : Z := 0x11.
Definition MV_SM_POWER_STANDBY_REQUEST : Z := 1.
Definition MV_SM_POWER_SUSPEND_REQUEST : Z := 2.
Definition MV_SM_POWER_WAKEUP_SOURCE_REQUEST : Z := 3.
Definition MV_SM_POWER_WARMDOWN_TIME : Z := 11.
Definition MV_SM_POWER_WARMUP_TIME : Z := 12.
Definition MV_SM_POWER_WARMUP_TIME_REQUEST : Z := 13.
Definition MV_SM_POWER_CURR_TIME_REQUEST : Z := 19.
Definition MV_SM_POWER_BOOTUP_FLAG_REQUEST : Z := 0xDD.
Definition MV_SM_POWER_FASTBOOT_ENABLE : Z := 0x0F.
Definition MV_SM_POWER_FASTBOOT_DISABLE : Z := 0x0E.
Definition MV_SM_POWER_SYS_RESET : Z := 0xFF.
Definition MV_SM_ACTIVE_2_SUSPEND_RESP : Z := 0xA0.
Definition MV_SM_COLD_2_ACTIVE_RESP : Z := 2.
Definition MV_SM_LOWPOWERSTANDBY_2_ACTIVE_RESP : Z := 0x10.
Definition MV_SM_NORMALSTANDBY_2_ACTIVE_RESP : Z := 7.
Definition MV_SM_SUSPEND_2_ACTIVE_RESP : Z := 6.

(** What leaves the power module: writes to fields of the system-control registers,
    calls into the board code, messages. *)
Inductive effect :=
| Broadcast (flow : SM_POWER_FLOW) (status : POWER_STATUS)
| IsoEn (v : bool)            (* SM_CTRL.ISO_EN: the SoC is isolated *)
| SocRstGo (v : bool)         (* SM_RST_CTRL.SOC_RST_GO: false holds the SoC in reset *)
| Sm2SocIrq (v : bool)        (* SM_CTRL.SM2SOC_SW_INTR *)
| PeripheralReset | PeripheralRun
| BoardPowerOn | BoardPowerOff
| IrIntEnable
| SendMsg (moduleID : Z) (body : list Z)
| RebootReason (r : Z)
| WdtClearInt | AppWdtDisable.

(** ** State *)

Record power := mk_power {
  power_mystatus : POWER_STATUS;
  power_myflow : SM_POWER_FLOW;
  power_lasttime : Z;
  is_get_rsp : bool;
  is_linux_ready : bool;
  standby_type : Z;
  suspend_type : Z;
  linux_resume_addr : Z;
  wakeup_source : Z;
  payload0 : Z;
  payload1 : Z;
  bRequest_Poweron : bool;
  bFastboot : bool;
  is_wakeup : bool;
  sys_state : MV_SM_STATE;
  boot_flag : Z;
  wmup_timer_enable : bool;
  wmup_timer_begin : Z;
  wmup_timer_interval : Z;
  wmup_Timer : bool;
  wmdn_timer_enable : bool;
  wmdn_timer_begin : Z;
  wmdn_timer_interval : Z;
  wmdn_Timer : bool;
  out : list (Z * effect);
}.

Definition set_power_mystatus (v : POWER_STATUS) (s : power) : power :=
  mk_power v (power_myflow s) (power_lasttime s) (is_get_rsp s) (is_linux_ready s) (standby_type s)
    (suspend_type s) (linux_resume_addr s) (wakeup_source s) (payload0 s) (payload1 s)
    (bRequest_Poweron s) (bFastboot s) (is_wakeup s) (sys_state s) (boot_flag s) (wmup_timer_enable s)
    (wmup_timer_begin s) (wmup_timer_interval s) (wmup_Timer s) (wmdn_timer_enable s)
    (wmdn_timer_begin s) (wmdn_timer_interval s) (wmdn_Timer s) (out s).
Definition set_power_myflow (v : SM_POWER_FLOW) (s : power) : power :=
  mk_power (power_mystatus s) v (power_lasttime s) (is_get_rsp s) (is_linux_ready s) (standby_type s)
    (suspend_type s) (linux_resume_addr s) (wakeup_source s) (payload0 s) (payload1 s)
    (bRequest_Poweron s) (bFastboot s) (is_wakeup s) (sys_state s) (boot_flag s) (wmup_timer_enable s)
    (wmup_timer_begin s) (wmup_timer_interval s) (wmup_Timer s) (wmdn_timer_enable s)
    (wmdn_timer_begin s) (wmdn_timer_interval s) (wmdn_Timer s) (out s).
Definition set_power_lasttime (v : Z) (s : power) : power :=
  mk_power (power_mystatus s) (power_myflow s) v (is_get_rsp s) (is_linux_ready s) (standby_type s)
    (suspend_type s) (linux_resume_addr s) (wakeup_source s) (payload0 s) (payload1 s)
    (bRequest_Poweron s) (bFastboot s) (is_wakeup s) (sys_state s) (boot_flag s) (wmup_timer_enable s)
    (wmup_timer_begin s) (wmup_timer_interval s) (wmup_Timer s) (wmdn_timer_enable s)
    (wmdn_timer_begin s) (wmdn_timer_interval s) (wmdn_Timer s) (out s).
Definition set_is_get_rsp (v : bool) (s : power) : power :=
  mk_power (power_mystatus s) (power_myflow s) (power_lasttime s) v (is_linux_ready s) (standby_type s)
    (suspend_type s) (linux_resume_addr s) (wakeup_source s) (payload0 s) (payload1 s)
    (bRequest_Poweron s) (bFastboot s) (is_wakeup s) (sys_state s) (boot_flag s) (wmup_timer_enable s)
    (wmup_timer_begin s) (wmup_timer_interval s) (wmup_Timer s) (wmdn_timer_enable s)
    (wmdn_timer_begin s) (wmdn_timer_interval s) (wmdn_Timer s) (out s).
Definition set_is_linux_ready (v : bool) (s : power) : power :=
  mk_power (power_mystatus s) (power_myflow s) (power_lasttime s) (is_get_rsp s) v (standby_type s)
    (suspend_type s) (linux_resume_addr s) (wakeup_source s) (payload0 s) (payload1 s)
    (bRequest_Poweron s) (bFastboot s) (is_wakeup s) (sys_state s) (boot_flag s) (wmup_timer_enable s)
    (wmup_timer_begin s) (wmup_timer_interval s) (wmup_Timer s) (wmdn_timer_enable s)
    (wmdn_timer_begin s) (wmdn_timer_interval s) (wmdn_Timer s) (out s).
Definition set_standby_type (v : Z) (s : power) : power :=
  mk_power (power_mystatus s) (power_myflow s) (power_lasttime s) (is_get_rsp s) (is_linux_ready s) v
    (suspend_type s) (linux_resume_addr s) (wakeup_source s) (payload0 s) (payload1 s)
    (bRequest_Poweron s) (bFastboot s) (is_wakeup s) (sys_state s) (boot_flag s) (wmup_timer_enable s)
    (wmup_timer_begin s) (wmup_timer_interval s) (wmup_Timer s) (wmdn_timer_enable s)
    (wmdn_timer_begin s) (wmdn_timer_interval s) (wmdn_Timer s) (out s).
Definition set_suspend_type (v : Z) (s : power) : power :=
  mk_power (power_mystatus s) (power_myflow s) (power_lasttime s) (is_get_rsp s) (is_linux_ready s)
    (standby_type s) v (linux_resume_addr s) (wakeup_source s) (payload0 s) (payload1 s)
    (bRequest_Poweron s) (bFastboot s) (is_wakeup s) (sys_state s) (boot_flag s) (wmup_timer_enable s)
    (wmup_timer_begin s) (wmup_timer_interval s) (wmup_Timer s) (wmdn_timer_enable s)
    (wmdn_timer_begin s) (wmdn_timer_interval s) (wmdn_Timer s) (out s).
Definition set_linux_resume_addr (v : Z) (s : power) : power :=
  mk_power (power_mystatus s) (power_myflow s) (power_lasttime s) (is_get_rsp s) (is_linux_ready s)
    (standby_type s) (suspend_type s) v (wakeup_source s) (payload0 s) (payload1 s) (bRequest_Poweron s)
    (bFastboot s) (is_wakeup s) (sys_state s) (boot_flag s) (wmup_timer_enable s) (wmup_timer_begin s)
    (wmup_timer_interval s) (wmup_Timer s) (wmdn_timer_enable s) (wmdn_timer_begin s)
    (wmdn_timer_interval s) (wmdn_Timer s) (out s).
Definition set_wakeup_source (v : Z) (s : power) : power :=
  mk_power (power_mystatus s) (power_myflow s) (power_lasttime s) (is_get_rsp s) (is_linux_ready s)
    (standby_type s) (suspend_type s) (linux_resume_addr s) v (payload0 s) (payload1 s)
    (bRequest_Poweron s) (bFastboot s) (is_wakeup s) (sys_state s) (boot_flag s) (wmup_timer_enable s)
    (wmup_timer_begin s) (wmup_timer_interval s) (wmup_Timer s) (wmdn_timer_enable s)
    (wmdn_timer_begin s) (wmdn_timer_interval s) (wmdn_Timer s) (out s).
Definition set_payload0 (v : Z) (s : power) : power :=
  mk_power (power_mystatus s) (power_myflow s) (power_lasttime s) (is_get_rsp s) (is_linux_ready s)
    (standby_type s) (suspend_type s) (linux_resume_addr s) (wakeup_source s) v (payload1 s)
    (bRequest_Poweron s) (bFastboot s) (is_wakeup s) (sys_state s) (boot_flag s) (wmup_timer_enable s)
    (wmup_timer_begin s) (wmup_timer_interval s) (wmup_Timer s) (wmdn_timer_enable s)
    (wmdn_timer_begin s) (wmdn_timer_interval s) (wmdn_Timer s) (out s).
Definition set_payload1 (v : Z) (s : power) : power :=
  mk_power (power_mystatus s) (power_myflow s) (power_lasttime s) (is_get_rsp s) (is_linux_ready s)
    (standby_type s) (suspend_type s) (linux_resume_addr s) (wakeup_source s) (payload0 s) v
    (bRequest_Poweron s) (bFastboot s) (is_wakeup s) (sys_state s) (boot_flag s) (wmup_timer_enable s)
    (wmup_timer_begin s) (wmup_timer_interval s) (wmup_Timer s) (wmdn_timer_enable s)
    (wmdn_timer_begin s) (wmdn_timer_interval s) (wmdn_Timer s) (out s).
Definition set_bRequest_Poweron (v : bool) (s : power) : power :=
  mk_power (power_mystatus s) (power_myflow s) (power_lasttime s) (is_get_rsp s) (is_linux_ready s)
    (standby_type s) (suspend_type s) (linux_resume_addr s) (wakeup_source s) (payload0 s) (payload1 s) v
    (bFastboot s) (is_wakeup s) (sys_state s) (boot_flag s) (wmup_timer_enable s) (wmup_timer_begin s)
    (wmup_timer_interval s) (wmup_Timer s) (wmdn_timer_enable s) (wmdn_timer_begin s)
    (wmdn_timer_interval s) (wmdn_Timer s) (out s).
Definition set_bFastboot (v : bool) (s : power) : power :=
  mk_power (power_mystatus s) (power_myflow s) (power_lasttime s) (is_get_rsp s) (is_linux_ready s)
    (standby_type s) (suspend_type s) (linux_resume_addr s) (wakeup_source s) (payload0 s) (payload1 s)
    (bRequest_Poweron s) v (is_wakeup s) (sys_state s) (boot_flag s) (wmup_timer_enable s)
    (wmup_timer_begin s) (wmup_timer_interval s) (wmup_Timer s) (wmdn_timer_enable s)
    (wmdn_timer_begin s) (wmdn_timer_interval s) (wmdn_Timer s) (out s).
Definition set_is_wakeup (v : bool) (s : power) : power :=
  mk_power (power_mystatus s) (power_myflow s) (power_lasttime s) (is_get_rsp s) (is_linux_ready s)
    (standby_type s) (suspend_type s) (linux_resume_addr s) (wakeup_source s) (payload0 s) (payload1 s)
    (bRequest_Poweron s) (bFastboot s) v (sys_state s) (boot_flag s) (wmup_timer_enable s)
    (wmup_timer_begin s) (wmup_timer_interval s) (wmup_Timer s) (wmdn_timer_enable s)
    (wmdn_timer_begin s) (wmdn_timer_interval s) (wmdn_Timer s) (out s).
Definition set_sys_state (v : MV_SM_STATE) (s : power) : power :=
  mk_power (power_mystatus s) (power_myflow s) (power_lasttime s) (is_get_rsp s) (is_linux_ready s)
    (standby_type s) (suspend_type s) (linux_resume_addr s) (wakeup_source s) (payload0 s) (payload1 s)
    (bRequest_Poweron s) (bFastboot s) (is_wakeup s) v (boot_flag s) (wmup_timer_enable s)
    (wmup_timer_begin s) (wmup_timer_interval s) (wmup_Timer s) (wmdn_timer_enable s)
    (wmdn_timer_begin s) (wmdn_timer_interval s) (wmdn_Timer s) (out s).
Definition set_boot_flag (v : Z) (s : power) : power :=
  mk_power (power_mystatus s) (power_myflow s) (power_lasttime s) (is_get_rsp s) (is_linux_ready s)
    (standby_type s) (suspend_type s) (linux_resume_addr s) (wakeup_source s) (payload0 s) (payload1 s)
    (bRequest_Poweron s) (bFastboot s) (is_wakeup s) (sys_state s) v (wmup_timer_enable s)
    (wmup_timer_begin s) (wmup_timer_interval s) (wmup_Timer s) (wmdn_timer_enable s)
    (wmdn_timer_begin s) (wmdn_timer_interval s) (wmdn_Timer s) (out s).
Definition set_wmup_timer_enable (v : bool) (s : power) : power :=
  mk_power (power_mystatus s) (power_myflow s) (power_lasttime s) (is_get_rsp s) (is_linux_ready s)
    (standby_type s) (suspend_type s) (linux_resume_addr s) (wakeup_source s) (payload0 s) (payload1 s)
    (bRequest_Poweron s) (bFastboot s) (is_wakeup s) (sys_state s) (boot_flag s) v (wmup_timer_begin s)
    (wmup_timer_interval s) (wmup_Timer s) (wmdn_timer_enable s) (wmdn_timer_begin s)
    (wmdn_timer_interval s) (wmdn_Timer s) (out s).
Definition set_wmup_timer_begin (v : Z) (s : power) : power :=
  mk_power (power_mystatus s) (power_myflow s) (power_lasttime s) (is_get_rsp s) (is_linux_ready s)
    (standby_type s) (suspend_type s) (linux_resume_addr s) (wakeup_source s) (payload0 s) (payload1 s)
    (bRequest_Poweron s) (bFastboot s) (is_wakeup s) (sys_state s) (boot_flag s) (wmup_timer_enable s) v
    (wmup_timer_interval s) (wmup_Timer s) (wmdn_timer_enable s) (wmdn_timer_begin s)
    (wmdn_timer_interval s) (wmdn_Timer s) (out s).
Definition set_wmup_timer_interval (v : Z) (s : power) : power :=
  mk_power (power_mystatus s) (power_myflow s) (power_lasttime s) (is_get_rsp s) (is_linux_ready s)
    (standby_type s) (suspend_type s) (linux_resume_addr s) (wakeup_source s) (payload0 s) (payload1 s)
    (bRequest_Poweron s) (bFastboot s) (is_wakeup s) (sys_state s) (boot_flag s) (wmup_timer_enable s)
    (wmup_timer_begin s) v (wmup_Timer s) (wmdn_timer_enable s) (wmdn_timer_begin s)
    (wmdn_timer_interval s) (wmdn_Timer s) (out s).
Definition set_wmup_Timer (v : bool) (s : power) : power :=
  mk_power (power_mystatus s) (power_myflow s) (power_lasttime s) (is_get_rsp s) (is_linux_ready s)
    (standby_type s) (suspend_type s) (linux_resume_addr s) (wakeup_source s) (payload0 s) (payload1 s)
    (bRequest_Poweron s) (bFastboot s) (is_wakeup s) (sys_state s) (boot_flag s) (wmup_timer_enable s)
    (wmup_timer_begin s) (wmup_timer_interval s) v (wmdn_timer_enable s) (wmdn_timer_begin s)
    (wmdn_timer_interval s) (wmdn_Timer s) (out s).
Definition set_wmdn_timer_enable (v : bool) (s : power) : power :=
  mk_power (power_mystatus s) (power_myflow s) (power_lasttime s) (is_get_rsp s) (is_linux_ready s)
    (standby_type s) (suspend_type s) (linux_resume_addr s) (wakeup_source s) (payload0 s) (payload1 s)
    (bRequest_Poweron s) (bFastboot s) (is_wakeup s) (sys_state s) (boot_flag s) (wmup_timer_enable s)
    (wmup_timer_begin s) (wmup_timer_interval s) (wmup_Timer s) v (wmdn_timer_begin s)
    (wmdn_timer_interval s) (wmdn_Timer s) (out s).
Definition set_wmdn_timer_begin (v : Z) (s : power) : power :=
  mk_power (power_mystatus s) (power_myflow s) (power_lasttime s) (is_get_rsp s) (is_linux_ready s)
    (standby_type s) (suspend_type s) (linux_resume_addr s) (wakeup_source s) (payload0 s) (payload1 s)
    (bRequest_Poweron s) (bFastboot s) (is_wakeup s) (sys_state s) (boot_flag s) (wmup_timer_enable s)
    (wmup_timer_begin s) (wmup_timer_interval s) (wmup_Timer s) (wmdn_timer_enable s) v
    (wmdn_timer_interval s) (wmdn_Timer s) (out s).
Definition set_wmdn_timer_interval (v : Z) (s : power) : power :=
  mk_power (power_mystatus s) (power_myflow s) (power_lasttime s) (is_get_rsp s) (is_linux_ready s)
    (standby_type s) (suspend_type s) (linux_resume_addr s) (wakeup_source s) (payload0 s) (payload1 s)
    (bRequest_Poweron s) (bFastboot s) (is_wakeup s) (sys_state s) (boot_flag s) (wmup_timer_enable s)
    (wmup_timer_begin s) (wmup_timer_interval s) (wmup_Timer s) (wmdn_timer_enable s)
    (wmdn_timer_begin s) v (wmdn_Timer s) (out s).
Definition set_wmdn_Timer (v : bool) (s : power) : power :=
  mk_power (power_mystatus s) (power_myflow s) (power_lasttime s) (is_get_rsp s) (is_linux_ready s)
    (standby_type s) (suspend_type s) (linux_resume_addr s) (wakeup_source s) (payload0 s) (payload1 s)
    (bRequest_Poweron s) (bFastboot s) (is_wakeup s) (sys_state s) (boot_flag s) (wmup_timer_enable s)
    (wmup_timer_begin s) (wmup_timer_interval s) (wmup_Timer s) (wmdn_timer_enable s)
    (wmdn_timer_begin s) (wmdn_timer_interval s) v (out s).
Definition set_out (v : list (Z * effect)) (s : power) : power :=
  mk_power (power_mystatus s) (power_myflow s) (power_lasttime s) (is_get_rsp s) (is_linux_ready s)
    (standby_type s) (suspend_type s) (linux_resume_addr s) (wakeup_source s) (payload0 s) (payload1 s)
    (bRequest_Poweron s) (bFastboot s) (is_wakeup s) (sys_state s) (boot_flag s) (wmup_timer_enable s)
    (wmup_timer_begin s) (wmup_timer_interval s) (wmup_Timer s) (wmdn_timer_enable s)
    (wmdn_timer_begin s) (wmdn_timer_interval s) (wmdn_Timer s) v.

Definition DEFAULT_STANDBY_REQUEST_TYPE : Z := MV_SM_POWER_NORMALSTANDBY_REQUEST.

(** The initial values of the static variables. *)
Definition power_init : power :=
  mk_power STA_INVALID FLOW_IDLE 0 false false DEFAULT_STANDBY_REQUEST_TYPE MV_SM_POWER_SUSPEND_TYPE_PWROFF 0xFFFFFFFF
    MV_SM_WAKEUP_SOURCE_INVALID 0 0 false false false MV_SM_STATE_ACTIVE 0
    false 0 0 false false 0 0 false [].

Definition emit (now : Z) (e : effect) (s : power) : power := set_out (out s ++ [(now, e)]) s.

(** ** sm_state.c *)

Definition mv_sm_set_state (v : MV_SM_STATE) (s : power) : power := set_sys_state v s.
Definition mv_sm_get_state (s : power) : MV_SM_STATE := sys_state s.
Definition mv_sm_set_boot_flag (v : Z) (s : power) : power := set_boot_flag (u32 v) s.
Definition mv_sm_get_boot_flag (s : power) : Z := boot_flag s.

(** ** sm_power_op.c *)

Definition soc_assert (now : Z) (s : power) : power := emit now (SocRstGo false) (emit now (IsoEn true) s).
Definition soc_deassert (now : Z) (s : power) : power := emit now (IsoEn false) (emit now (SocRstGo true) s).
Definition peripheral_assert (now : Z) (s : power) : power := emit now PeripheralReset s.
Definition peripheral_deassert (now : Z) (s : power) : power := emit now PeripheralRun s.
Definition mv_sm_power_socpoweron (now : Z) (s : power) : power := emit now BoardPowerOn s.

Definition mv_sm_power_socpoweroff (now : Z) (s : power) : power :=
  emit now IrIntEnable (emit now BoardPowerOff (peripheral_assert now (soc_assert now s))).

Definition mv_sm_power_soc_power_status : Z := S_OK.

(** ** sm_power_flow.c

    [power_lasttime] is a 32-bit unsigned long: the difference wraps and the
    interval is compared as unsigned. *)

Definition waittime (now interval : Z) (s : power) : bool * power :=
  if u32 interval <=? u32 (now - power_lasttime s) then (true, set_power_lasttime (u32 now) s) else (false, s).

Definition mv_sm_get_linux_state (s : power) : bool := is_linux_ready s.

Definition mv_sm_power_broadcast_power_state (now : Z) (s : power) : power :=
  emit now (Broadcast (power_myflow s) (power_mystatus s)) s.

Definition mv_sm_power_enterflow (now : Z) (flow : SM_POWER_FLOW) (s : power) : power * Z :=
  if decide (power_myflow s <> FLOW_IDLE \/ power_mystatus s <> STA_INVALID) then (s, S_FALSE)
  else (set_power_lasttime (u32 now) (set_power_myflow flow (set_power_mystatus STA_ENTERFLOW (set_is_linux_ready false s))), S_OK).

Definition mv_sm_power_enterflow_bysmstate (now : Z) (s : power) : power * Z :=
  let flow := match mv_sm_get_state s with
              | MV_SM_STATE_LOWPOWERSTANDBY => FLOW_LOWPOWERSTANDBY_2_ACTIVE
              | MV_SM_STATE_NORMALSTANDBY => FLOW_NORMALSTANDBY_2_ACTIVE
              | MV_SM_STATE_SUSPEND => FLOW_SUSPEND_2_ACTIVE
              | _ => FLOW_IDLE
              end in
  mv_sm_power_enterflow now flow s.

Definition mv_sm_power_leaveflow (now : Z) (s : power) : power :=
  set_power_myflow FLOW_IDLE (set_power_mystatus STA_INVALID (mv_sm_power_broadcast_power_state now s)).

Definition mv_sm_power_soc_poweron_2_powerok (now : Z) (s : power) : power * Z :=
  match power_mystatus s with
  | STA_POWERON =>
      let '(due, s) := waittime now POWEROFF2POWERON s in
      if due
      then (set_power_mystatus STA_POWEROK (mv_sm_power_socpoweron now (mv_sm_power_broadcast_power_state now s)), S_OK)
      else (s, S_OK)
  | STA_POWEROK =>
      let '(due, s) := waittime now POWERON2OKTIME s in
      if due
      then if negb (mv_sm_power_soc_power_status =? S_OK)
           then (set_power_lasttime (u32 now) s, S_OK)
           else (set_power_mystatus STA_WAITRSP (soc_deassert now (mv_sm_power_broadcast_power_state now s)), S_OK)
      else (s, S_OK)
  | _ => (s, S_FALSE)
  end.

Definition mv_sm_power_soc_assert_2_deassert (now : Z) (s : power) : power * Z :=
  match power_mystatus s with
  | STA_ASSERT =>
      (set_power_mystatus STA_DEASSERT (soc_assert now (peripheral_assert now (mv_sm_power_broadcast_power_state now s))), S_FALSE)
  | STA_DEASSERT =>
      let '(due, s) := waittime now ASSERT2DEASSERTTIME s in
      if due
      then (set_power_mystatus STA_POWERON (mv_sm_power_broadcast_power_state now (peripheral_deassert now s)), S_FALSE)
      else (s, S_FALSE)
  | STA_WAITRSP => if is_get_rsp s then (set_is_get_rsp false s, S_OK) else (s, S_FALSE)
  | _ => (s, S_FALSE)
  end.

Definition mv_sm_power_flow_warmdown (now : Z) (flow : SM_POWER_FLOW) (s : power) : power * Z :=
  if decide (flow <> power_myflow s) then (set_power_myflow FLOW_IDLE s, S_FALSE) else
  match power_mystatus s with
  | STA_ENTERFLOW =>
      let s := mv_sm_power_broadcast_power_state now (emit now (Sm2SocIrq false) s) in
      match flow with
      | FLOW_ACTIVE_2_LOWPOWERSTANDBY =>
          (set_power_mystatus STA_POWEROFF (mv_sm_set_boot_flag MV_SOC_STATE_ACTIVE_2_NORMALSTANDBY
             (mv_sm_set_state MV_SM_STATE_ACTIVE_2_LOWPOWERSTANDBY s)), S_OK)
      | FLOW_ACTIVE_2_NORMALSTANDBY =>
          (set_power_mystatus STA_POWEROFF (mv_sm_set_boot_flag MV_SOC_STATE_ACTIVE_2_NORMALSTANDBY
             (mv_sm_set_state MV_SM_STATE_ACTIVE_2_NORMALSTANDBY s)), S_OK)
      | FLOW_ACTIVE_2_SUSPEND =>
          let s := mv_sm_set_boot_flag MV_SOC_STATE_SUSPEND_REQUEST (mv_sm_set_state MV_SM_STATE_ACTIVE_2_SUSPEND s) in
          (set_power_mystatus (if suspend_type s =? MV_SM_POWER_SUSPEND_TYPE_WFI then STA_LEAVEFLOW else STA_WAITRSP) s, S_OK)
      | _ => (s, S_OK)
      end
  | STA_ASSERT | STA_DEASSERT | STA_WAITRSP =>
      let '(s, r) := mv_sm_power_soc_assert_2_deassert now s in
      (if S_OK =? r then set_power_mystatus STA_POWEROFF s else s, S_OK)
  | STA_POWEROFF => (set_power_mystatus STA_LEAVEFLOW (mv_sm_power_socpoweroff now s), S_OK)
  | STA_LEAVEFLOW =>
      let s := match power_myflow s with
               | FLOW_ACTIVE_2_LOWPOWERSTANDBY => mv_sm_set_state MV_SM_STATE_LOWPOWERSTANDBY s
               | FLOW_ACTIVE_2_NORMALSTANDBY => mv_sm_set_state MV_SM_STATE_NORMALSTANDBY s
               | FLOW_ACTIVE_2_SUSPEND => mv_sm_set_state MV_SM_STATE_SUSPEND s
               | _ => s
               end in
      (mv_sm_power_leaveflow now s, S_OK)
  | _ => (s, S_OK)
  end.

Definition mv_sm_power_setwakeupsource (ws : Z) (s : power) : power := set_wakeup_source ws s.

Definition mv_sm_power_setwakeuppayload (value : Z) (s : power) : power := set_payload0 value s.

Definition mv_sm_power_flow_colddown (now : Z) (flow : SM_POWER_FLOW) (s : power) : power * Z :=
  if decide (flow <> power_myflow s) then (set_power_myflow FLOW_IDLE s, S_FALSE) else
  match power_mystatus s with
  | STA_ENTERFLOW => (set_power_mystatus STA_POWEROFF (mv_sm_power_broadcast_power_state now s), S_OK)
  | STA_POWEROFF => (set_power_mystatus STA_LEAVEFLOW (mv_sm_power_socpoweroff now s), S_OK)
  | STA_LEAVEFLOW =>
      let s := mv_sm_power_leaveflow now (mv_sm_set_state MV_SM_STATE_LOWPOWERSTANDBY s) in
      if bRequest_Poweron s
      then let s := mv_sm_power_setwakeupsource MV_SM_WAKEUP_SOURCE_INVALID s in
           let '(s, _) := mv_sm_power_enterflow_bysmstate now s in
           (set_bRequest_Poweron false s, S_OK)
      else (s, S_OK)
  | _ => (s, S_OK)
  end.

Definition mv_sm_trigger_irq_2_soc (now : Z) (s : power) : power := emit now (Sm2SocIrq true) s.

Definition mv_sm_power_flow_warmup (now : Z) (flow : SM_POWER_FLOW) (s : power) : power * Z :=
  if decide (flow <> power_myflow s) then (set_power_myflow FLOW_IDLE s, S_FALSE) else
  match power_mystatus s with
  | STA_ENTERFLOW =>
      let s := set_power_mystatus STA_ASSERT
                 (mv_sm_set_state MV_SM_STATE_STANDBY_2_ACTIVE (mv_sm_power_broadcast_power_state now s)) in
      match flow with
      | FLOW_LOWPOWERSTANDBY_2_ACTIVE | FLOW_NORMALSTANDBY_2_ACTIVE =>
          (mv_sm_set_boot_flag MV_SOC_STATE_LOWPOWERSTANDBY_2_ACTIVE s, S_OK)
      | FLOW_SUSPEND_2_ACTIVE => (mv_sm_set_boot_flag MV_SOC_STATE_SUSPEND_2_ACTIVE s, S_OK)
      | _ => (s, S_OK)
      end
  | STA_POWERON =>
      if (mv_sm_get_boot_flag s =? MV_SOC_STATE_SUSPEND_2_ACTIVE) && (suspend_type s =? MV_SM_POWER_SUSPEND_TYPE_WFI)
      then (set_power_mystatus STA_LEAVEFLOW (mv_sm_trigger_irq_2_soc now (set_is_get_rsp false s)), S_OK)
      else (fst (mv_sm_power_soc_poweron_2_powerok now s), S_OK)
  | STA_POWEROK => (fst (mv_sm_power_soc_poweron_2_powerok now s), S_OK)
  | STA_ASSERT => (set_power_mystatus STA_DEASSERT s, S_OK)
  | STA_DEASSERT | STA_WAITRSP =>
      let '(s, r) := mv_sm_power_soc_assert_2_deassert now s in
      (if S_OK =? r then set_power_mystatus STA_LEAVEFLOW s else s, S_OK)
  | STA_LEAVEFLOW =>
      (mv_sm_power_leaveflow now (mv_sm_set_boot_flag MV_SOC_STATE_POWERON (mv_sm_set_state MV_SM_STATE_ACTIVE s)), S_OK)
  | _ => (s, S_OK)
  end.

Definition mv_sm_power_flow_sysreset (now : Z) (flow : SM_POWER_FLOW) (s : power) : power * Z :=
  if decide (flow <> power_myflow s) then (set_power_myflow FLOW_IDLE s, S_FALSE) else
  let s := mv_sm_power_broadcast_power_state now s in
  match power_mystatus s with
  | STA_ENTERFLOW =>
      let s := set_power_mystatus STA_ASSERT s in
      match flow with
      | FLOW_SYSRESET_2_ACTIVE => (mv_sm_set_boot_flag MV_SOC_STATE_SYSRESET_2_ACTIVE s, S_OK)
      | FLOW_SYSRESET_2_LOWPOWERSTANDBY => (mv_sm_set_boot_flag MV_SOC_STATE_SYSRESET_2_LOWPOWERSTANDBY s, S_OK)
      | FLOW_SYSRESET_2_NORMALSTANDBY => (mv_sm_set_boot_flag MV_SOC_STATE_SYSRESET_2_NORMALSTANDBY s, S_OK)
      | _ => (s, S_OK)
      end
  | STA_POWEROFF =>
      (set_power_mystatus STA_DEASSERT (set_power_lasttime (u32 now)
         (mv_sm_power_socpoweroff now (mv_sm_power_broadcast_power_state now s))), S_OK)
  | STA_POWERON | STA_POWEROK => (fst (mv_sm_power_soc_poweron_2_powerok now s), S_OK)
  | STA_ASSERT => (set_power_mystatus STA_DEASSERT (set_power_lasttime (u32 now) (soc_assert now s)), S_OK)
  | STA_WAITRSP =>
      let '(s, r) := mv_sm_power_soc_assert_2_deassert now s in
      (if S_OK =? r then set_power_mystatus STA_LEAVEFLOW s else s, S_OK)
  | STA_DEASSERT => (fst (mv_sm_power_soc_assert_2_deassert now s), S_OK)
  | STA_LEAVEFLOW => (mv_sm_power_leaveflow now s, S_OK)
  | _ => (s, S_OK)
  end.

Definition standby (st : MV_SM_STATE) : bool :=
  match st with
  | MV_SM_STATE_LOWPOWERSTANDBY | MV_SM_STATE_NORMALSTANDBY | MV_SM_STATE_SUSPEND => true
  | _ => false
  end.

(** The flow that wakes the system up. *)
Definition wake_flow (st : MV_SM_STATE) : SM_POWER_FLOW :=
  match st with
  | MV_SM_STATE_LOWPOWERSTANDBY => FLOW_LOWPOWERSTANDBY_2_ACTIVE
  | MV_SM_STATE_NORMALSTANDBY => FLOW_NORMALSTANDBY_2_ACTIVE
  | _ => FLOW_SUSPEND_2_ACTIVE
  end.

Definition state_to_wait_wakeup (s : power) : bool := standby (mv_sm_get_state s).

Definition eth_wifibt_wakeup_handler (now : Z) (s : power) : power :=
  if is_wakeup s then set_is_wakeup false (fst (mv_sm_power_enterflow_bysmstate now s)) else s.

Definition mv_sm_power_flow_idle (now : Z) (s : power) : power :=
  if standby (mv_sm_get_state s) then eth_wifibt_wakeup_handler now s else s.

Definition mv_sm_power_task (now : Z) (s : power) : power :=
  match power_myflow s with
  | FLOW_COLD_2_LOWPOWERSTANDBY => fst (mv_sm_power_flow_colddown now (power_myflow s) s)
  | FLOW_ACTIVE_2_LOWPOWERSTANDBY | FLOW_ACTIVE_2_NORMALSTANDBY | FLOW_ACTIVE_2_SUSPEND =>
      fst (mv_sm_power_flow_warmdown now (power_myflow s) s)
  | FLOW_LOWPOWERSTANDBY_2_ACTIVE | FLOW_NORMALSTANDBY_2_ACTIVE | FLOW_SUSPEND_2_ACTIVE =>
      fst (mv_sm_power_flow_warmup now (power_myflow s) s)
  | FLOW_SYSRESET_2_ACTIVE => fst (mv_sm_power_flow_sysreset now (power_myflow s) s)
  | FLOW_IDLE => mv_sm_power_flow_idle now s
  | _ => s
  end.

(** ** sm_power_timer.c

    The FreeRTOS timer service is outside: [del_ok] and [start_ok] are the
    results of xTimerDelete and xTimerStart, a handle is present or NULL. *)

Definition clear_wmup (s : power) : power :=
  set_wmup_timer_interval 0 (set_wmup_timer_begin 0 (set_wmup_timer_enable false s)).

Definition clear_wmdn (s : power) : power :=
  set_wmdn_timer_interval 0 (set_wmdn_timer_begin 0 (set_wmdn_timer_enable false s)).

Definition wakeup_timer (now : Z) (del_ok : bool) (s : power) : power :=
  let state := mv_sm_get_state s in
  let s := clear_wmup (if del_ok then set_wmup_Timer false s else s) in
  match state with
  | MV_SM_STATE_ACTIVE => emit now (SendMsg MV_SM_ID_POWER [0]) s
  | _ => fst (mv_sm_power_enterflow_bysmstate now (mv_sm_power_setwakeupsource MV_SM_WAKEUP_SOURCE_TIMER s))
  end.

Definition sm_setup_power_up_timer (now : Z) (del_ok start_ok : bool) (msg : Z) (s : power) : power * Z :=
  if (msg =? 0) && wmup_timer_enable s
  then if wmup_Timer s
       then if negb del_ok then (s, S_FALSE) else (clear_wmup (set_wmup_Timer false s), S_OK)
       else (s, S_OK)
  else if negb (0 =? msg) && negb (wmup_timer_enable s)
       then let s := set_wmup_Timer true (set_wmup_timer_interval (i32 (msg * 1000))
                       (set_wmup_timer_begin (u32 now) (set_wmup_timer_enable true s))) in
            if negb start_ok then (clear_wmup s, S_FALSE) else (s, S_OK)
       else (s, S_OK).

Definition sm_get_warmup_remain_time (now : Z) (s : power) : Z :=
  Z.quot (i32 (wmup_timer_interval s - i32 (now - wmup_timer_begin s))) 1000.

Definition powerdown_timer (now : Z) (del_ok : bool) (s : power) : power :=
  let s := clear_wmdn s in
  let s := if del_ok then set_wmdn_Timer false s else s in
  match mv_sm_get_state s with
  | MV_SM_STATE_ACTIVE =>
      emit now (SendMsg MV_SM_ID_IR [Z.lor MV_IR_KEY_POWER MV_IR_UPKEY_FLAG]) (emit now (SendMsg MV_SM_ID_IR [MV_IR_KEY_POWER]) s)
  | _ => s
  end.

Definition sm_setup_power_down_timer (now : Z) (del_ok start_ok : bool) (msg : Z) (s : power) : power * Z :=
  if (msg =? 0) && wmdn_timer_enable s
  then if wmdn_Timer s
       then if negb del_ok then (s, S_FALSE) else (clear_wmdn (set_wmdn_Timer false s), S_OK)
       else (s, S_OK)
  else if negb (0 =? msg) && negb (wmdn_timer_enable s)
       then let s := set_wmdn_Timer true (set_wmdn_timer_interval (i32 (msg * 1000))
                       (set_wmdn_timer_begin (u32 now) (set_wmdn_timer_enable true s))) in
            if negb start_ok then (clear_wmdn s, S_FALSE) else (s, S_OK)
       else (s, S_OK).

(** ** Messages *)

Definition wakeup_info (s : power) : list Z := [u32 (wakeup_source s); payload0 s; payload1 s].

Definition sm_set_reboot_reason (now : Z) (r : Z) (s : power) : power := emit now (RebootReason r) s.

(** The messages accepted in the active state; [w2] is the third word of the
    message and [junk] the high word of the uninitialised [timer_long_t]. *)
Definition process_active_msg (now : Z) (del_ok start_ok : bool) (junk : Z) (iMsgType iMsgContent w2 : Z) (s : power) : power :=
  if iMsgType =? MV_SM_IR_Linuxready then
    let s := set_is_wakeup false (set_is_linux_ready true s) in
    if wakeup_source s =? MV_SM_WAKEUP_SOURCE_TIMER then emit now (SendMsg MV_SM_ID_POWER (wakeup_info s)) s else s
  else if iMsgType =? MV_SM_POWER_LOWPOWERSTANDBY_REQUEST then set_standby_type MV_SM_POWER_LOWPOWERSTANDBY_REQUEST s
  else if iMsgType =? MV_SM_POWER_NORMALSTANDBY_REQUEST then set_standby_type MV_SM_POWER_NORMALSTANDBY_REQUEST s
  else if iMsgType =? MV_SM_POWER_STANDBY_REQUEST then
    fst (mv_sm_power_enterflow now (if standby_type s =? MV_SM_POWER_LOWPOWERSTANDBY_REQUEST
                                    then FLOW_ACTIVE_2_LOWPOWERSTANDBY else FLOW_ACTIVE_2_NORMALSTANDBY) s)
  else if iMsgType =? MV_SM_POWER_SUSPEND_REQUEST then
    fst (mv_sm_power_enterflow now FLOW_ACTIVE_2_SUSPEND (set_suspend_type w2 (set_linux_resume_addr (u32 iMsgContent) s)))
  else if iMsgType =? MV_SM_POWER_WAKEUP_SOURCE_REQUEST then
    let s := emit now (SendMsg MV_SM_ID_POWER (wakeup_info s)) s in
    if negb (iMsgContent =? 0) then mv_sm_power_setwakeuppayload 0 s else s
  else if iMsgType =? MV_SM_POWER_BOOTUP_FLAG_REQUEST then emit now (SendMsg MV_SM_ID_POWER [mv_sm_get_boot_flag s]) s
  else if iMsgType =? MV_SM_POWER_CURR_TIME_REQUEST then emit now (SendMsg MV_SM_ID_POWER [u32 now; junk]) s
  else if iMsgType =? MV_SM_POWER_WARMDOWN_TIME then fst (sm_setup_power_down_timer now del_ok start_ok iMsgContent s)
  else if iMsgType =? MV_SM_POWER_WARMUP_TIME_REQUEST then emit now (SendMsg MV_SM_ID_POWER [u32 (sm_get_warmup_remain_time now s)]) s
  else if iMsgType =? MV_SM_POWER_WARMUP_TIME then fst (sm_setup_power_up_timer now del_ok start_ok iMsgContent s)
  else if iMsgType =? MV_SM_POWER_SYS_RESET then
    fst (mv_sm_power_enterflow now FLOW_SYSRESET_2_ACTIVE (sm_set_reboot_reason now REBOOT s))
  else if iMsgType =? MV_SM_POWER_FASTBOOT_ENABLE then set_bFastboot true s
  else if iMsgType =? MV_SM_POWER_FASTBOOT_DISABLE then set_bFastboot false s
  else s.

Definition is_warmup_resp (iMsgType : Z) : bool :=
  (iMsgType =? MV_SM_LOWPOWERSTANDBY_2_ACTIVE_RESP) || (iMsgType =? MV_SM_NORMALSTANDBY_2_ACTIVE_RESP) ||
  (iMsgType =? MV_SM_SUSPEND_2_ACTIVE_RESP) || (iMsgType =? MV_SM_COLD_2_ACTIVE_RESP).

Definition mv_sm_process_power_msg (now : Z) (del_ok start_ok : bool) (junk : Z) (iMsgType iMsgContent w2 : Z) (s : power) : power :=
  match mv_sm_get_state s with
  | MV_SM_STATE_COLD =>
      if iMsgType =? MV_SoC_STATE_COLDBOOT then fst (mv_sm_power_enterflow now FLOW_COLD_2_LOWPOWERSTANDBY s)
      else if iMsgType =? MV_SoC_STATE_SYSPOWERON then set_bRequest_Poweron true s else s
  | MV_SM_STATE_ACTIVE => process_active_msg now del_ok start_ok junk iMsgType iMsgContent w2 s
  | MV_SM_STATE_ACTIVE_2_SUSPEND =>
      if iMsgType =? MV_SM_ACTIVE_2_SUSPEND_RESP
      then mv_sm_set_boot_flag MV_SOC_STATE_ACTIVE_2_SUSPEND (set_is_get_rsp true s) else s
  | MV_SM_STATE_STANDBY_2_ACTIVE => if is_warmup_resp iMsgType then set_is_get_rsp true s else s
  | MV_SM_STATE_SUSPEND =>
      if iMsgType =? MV_SM_IR_Linuxready
      then fst (mv_sm_power_enterflow_bysmstate now (mv_sm_power_setwakeupsource MV_SM_WAKEUP_SOURCE_INVALID s)) else s
  | _ => s
  end.

(** ** Callers outside the power directory *)

(** sm_power_eth.c, the build without a joint Wi-Fi/BT pin *)
Definition sm_wifi_isr (s : power) : power :=
  if state_to_wait_wakeup s then mv_sm_power_setwakeupsource MV_SM_WAKEUP_SOURCE_WIFI (set_is_wakeup true s) else s.

Definition sm_bt_isr (s : power) : power :=
  if state_to_wait_wakeup s then mv_sm_power_setwakeupsource MV_SM_WAKEUP_SOURCE_BT (set_is_wakeup true s) else s.

(** sm_gpiobtn.c, the branch of handle_gpiobtn_press that wakes the SoC up *)
Definition handle_gpiobtn_wakeup (now : Z) (s : power) : power :=
  if standby (mv_sm_get_state s)
  then fst (mv_sm_power_enterflow_bysmstate now (mv_sm_power_setwakeupsource MV_SM_WAKEUP_SOURCE_BUTTON s)) else s.

(** sm_wdt.c: the watchdog of the SoC expired *)
Definition mv_sm_wdt_1_isr (now : Z) (s : power) : power :=
  emit now AppWdtDisable (emit now WdtClearInt
    (fst (mv_sm_power_enterflow now FLOW_SYSRESET_2_ACTIVE (sm_set_reboot_reason now WATCHDOG s)))).

(** A request to wake up in standby, with no flow under way. *)
Lemma wake_enterflow now s :
  standby (sys_state s) = true -> power_myflow s = FLOW_IDLE -> power_mystatus s = STA_INVALID ->
  let s' := fst (mv_sm_power_enterflow_bysmstate now s) in
  power_myflow s' = wake_flow (sys_state s) /\ power_mystatus s' = STA_ENTERFLOW /\ wakeup_source s' = wakeup_source s /\ payload0 s' = payload0 s.
Proof.
  intros Hst Hf Hs. unfold mv_sm_power_enterflow_bysmstate, mv_sm_get_state, mv_sm_power_enterflow. rewrite decide_False by (rewrite Hf, Hs; tauto).
  by destruct (sys_state s).
Qed.
