(* ===== verification/PowerSafety.v ===== *)
(** * The power flows: properties

    The calls into the power module as the events of a transition system, and
    what holds of every sequence of events from power on: the flow, its status
    and the system state always fit together, the SoC leaves reset only on
    stable power, and every flow but the system reset comes to its end. *)

From S2P Require Import Prelude PowerFlow.

(** ** The transition system *)

Inductive ev :=
| Task
| Msg (del_ok start_ok : bool) (junk iMsgType iMsgContent w2 : Z)
| WakeTimer (del_ok : bool)
| DownTimer (del_ok : bool)
| Wifi | Bt | Button | Watchdog.

#[export] Instance ev_dec : EqDecision ev.
Proof. solve_decision. Defined.

(** One call at time [now]; a timer fires only while it is running. *)
Definition step (now : Z) (e : ev) (s : power) : power :=
  match e with
  | Task => mv_sm_power_task now s
  | Msg d st j ty c w => mv_sm_process_power_msg now d st j ty c w s
  | WakeTimer d => if wmup_timer_enable s then wakeup_timer now d s else s
  | DownTimer d => if wmdn_timer_enable s then powerdown_timer now d s else s
  | Wifi => sm_wifi_isr s
  | Bt => sm_bt_isr s
  | Button => handle_gpiobtn_wakeup now s
  | Watchdog => mv_sm_wdt_1_isr now s
  end.

Fixpoint run (es : list (Z * ev)) (s : power) : power :=
  match es with
  | [] => s
  | (now, e) :: es => run es (step now e s)
  end.

(** An invariant of [step] holds after every sequence of events. *)
Lemma power_run_inv (I : power -> Prop) (P : ev -> Prop) es s :
  (forall now e s, P e -> I s -> I (step now e s)) -> Forall (fun x => P x.2) es -> I s -> I (run es s).
Proof.
  intros Hs. revert s. induction es as [|[now e] es IH]; intros s He Hi; [done|].
  apply Forall_cons_iff in He as [He Hes]. apply IH; auto.
Qed.

(** ** Which statuses and system states a flow goes through *)

Definition warmup_status (st : POWER_STATUS) : bool :=
  match st with
  | STA_ASSERT | STA_DEASSERT | STA_POWERON | STA_POWEROK | STA_WAITRSP | STA_LEAVEFLOW => true
  | _ => false
  end.

Definition flow_fits (f : SM_POWER_FLOW) (st : POWER_STATUS) (sys : MV_SM_STATE) : bool :=
  match f, st, sys with
  | FLOW_IDLE, STA_INVALID,
      (MV_SM_STATE_ACTIVE | MV_SM_STATE_LOWPOWERSTANDBY | MV_SM_STATE_NORMALSTANDBY | MV_SM_STATE_SUSPEND) => true
  | (FLOW_ACTIVE_2_LOWPOWERSTANDBY | FLOW_ACTIVE_2_NORMALSTANDBY | FLOW_ACTIVE_2_SUSPEND), STA_ENTERFLOW, MV_SM_STATE_ACTIVE => true
  | FLOW_ACTIVE_2_LOWPOWERSTANDBY, (STA_POWEROFF | STA_LEAVEFLOW), MV_SM_STATE_ACTIVE_2_LOWPOWERSTANDBY => true
  | FLOW_ACTIVE_2_NORMALSTANDBY, (STA_POWEROFF | STA_LEAVEFLOW), MV_SM_STATE_ACTIVE_2_NORMALSTANDBY => true
  | FLOW_ACTIVE_2_SUSPEND, (STA_WAITRSP | STA_POWEROFF | STA_LEAVEFLOW), MV_SM_STATE_ACTIVE_2_SUSPEND => true
  | FLOW_LOWPOWERSTANDBY_2_ACTIVE, STA_ENTERFLOW, MV_SM_STATE_LOWPOWERSTANDBY => true
  | FLOW_NORMALSTANDBY_2_ACTIVE, STA_ENTERFLOW, MV_SM_STATE_NORMALSTANDBY => true
  | FLOW_SUSPEND_2_ACTIVE, STA_ENTERFLOW, MV_SM_STATE_SUSPEND => true
  | (FLOW_LOWPOWERSTANDBY_2_ACTIVE | FLOW_NORMALSTANDBY_2_ACTIVE | FLOW_SUSPEND_2_ACTIVE), st,
      MV_SM_STATE_STANDBY_2_ACTIVE => warmup_status st
  | FLOW_SYSRESET_2_ACTIVE, st,
      (MV_SM_STATE_ACTIVE | MV_SM_STATE_LOWPOWERSTANDBY | MV_SM_STATE_NORMALSTANDBY | MV_SM_STATE_SUSPEND) =>
      warmup_status st || bool_decide (st = STA_ENTERFLOW)
  | _, _, _ => false
  end.

Definition fits (s : power) : bool := flow_fits (power_myflow s) (power_mystatus s) (sys_state s).

(** Case analysis over the flow, the status and the system state of [s], where
    they fit together. *)
Ltac flow_cases s H :=
  destruct s as [st fl lt gr lr sb sp ra ws p0 p1 rq fb wk sys bf ue ub ui ut de db di dt o]; unfold fits in H;
  cbn [power_myflow power_mystatus sys_state] in H;
  destruct fl, sys; try discriminate H; destruct st; try discriminate H; clear H.

Ltac pw_unfold :=
  unfold step, mv_sm_process_power_msg, process_active_msg, wakeup_timer, powerdown_timer, sm_setup_power_up_timer,
    sm_setup_power_down_timer, sm_wifi_isr, sm_bt_isr, handle_gpiobtn_wakeup, mv_sm_wdt_1_isr, state_to_wait_wakeup,
    mv_sm_power_setwakeupsource, mv_sm_power_setwakeuppayload, sm_set_reboot_reason, clear_wmup, clear_wmdn,
    mv_sm_power_task, mv_sm_power_flow_colddown, mv_sm_power_flow_warmdown, mv_sm_power_flow_warmup,
    mv_sm_power_flow_sysreset, mv_sm_power_flow_idle, eth_wifibt_wakeup_handler, mv_sm_power_soc_assert_2_deassert,
    mv_sm_power_soc_poweron_2_powerok, waittime, mv_sm_power_leaveflow, mv_sm_power_enterflow_bysmstate,
    mv_sm_power_enterflow, mv_sm_power_broadcast_power_state, mv_sm_power_socpoweroff, mv_sm_power_socpoweron,
    soc_assert, soc_deassert, peripheral_assert, peripheral_deassert, mv_sm_trigger_irq_2_soc,
    mv_sm_set_state, mv_sm_get_state, mv_sm_set_boot_flag, mv_sm_get_boot_flag, standby, emit in *.

(** Splits the remaining tests of the code and drops the impossible branches. *)
Ltac pw_split :=
  repeat (case_match; simplify_eq; cbn; try reflexivity; try solve [exfalso; intuition congruence]).

Lemma fits_step now e s : fits s = true -> fits (step now e s) = true.
Proof.
  intros H. flow_cases s H; destruct e; pw_unfold; cbn; pw_split; reflexivity.
Qed.

(** ** The power sequence, by a monitor of the effects

    The monitor keeps the time the board was last powered on, [None] while it
    is off; it rejects a SoC released from reset without power or less than
    60 ms after power on. *)

Definition mon_step (m : option (option Z)) (x : Z * effect) : option (option Z) :=
  p ← m;
  match x.2 with
  | BoardPowerOn => Some (Some x.1)
  | BoardPowerOff => Some None
  | SocRstGo true => t ← p; if POWERON2OKTIME <=? u32 (x.1 - t) then Some p else None
  | _ => Some p
  end.

Definition watch (l : list (Z * effect)) : option (option Z) := foldl mon_step (Some None) l.

#[local] Arguments watch : simpl never.
#[local] Arguments u32 : simpl never.

Lemma watch_snoc l x : watch (l ++ [x]) = mon_step (watch l) x.
Proof. unfold watch. by rewrite foldl_app. Qed.

Definition powered (s : power) (p : option Z) : Prop :=
  power_mystatus s = STA_POWEROK -> exists t, p = Some t /\ power_lasttime s = u32 t.

Definition sequenced (s : power) : Prop := exists p, watch (out s) = Some p /\ powered s p.

Lemma u32_sub_u32 a t : u32 (a - u32 t) = u32 (a - t).
Proof. apply Zminus_mod_idemp_r. Qed.

(** Every call but that of the task only sends messages, and at most enters a flow
    when none is in progress. *)

Definition benign (e : effect) : Prop :=
  match e with SendMsg _ _ | RebootReason _ | WdtClearInt | AppWdtDisable => True | _ => False end.

Record quiet (s s' : power) : Prop := {
  q_out : exists l, out s' = out s ++ l /\ Forall (fun x => benign x.2) l;
  q_rsp : is_get_rsp s' = is_get_rsp s \/ is_get_rsp s' = true;
  q_flow : power_myflow s' = power_myflow s /\ power_mystatus s' = power_mystatus s /\ power_lasttime s' = power_lasttime s \/
           power_myflow s = FLOW_IDLE /\ power_mystatus s = STA_INVALID /\ power_mystatus s' = STA_ENTERFLOW;
}.

Lemma quiet_same s s' :
  out s' = out s -> is_get_rsp s' = is_get_rsp s \/ is_get_rsp s' = true ->
  power_myflow s' = power_myflow s -> power_mystatus s' = power_mystatus s -> power_lasttime s' = power_lasttime s -> quiet s s'.
Proof. intros Ho ? ? ? ?. constructor; [|done|by left]. exists []. rewrite app_nil_r. split; [done|constructor]. Qed.

Lemma quiet_emit now e s s' : benign e -> quiet s s' -> quiet s (emit now e s').
Proof.
  intros He [(l & Ho & Hl) Hr Hf]. constructor; [|done|done]. exists (l ++ [(now, e)]).
  cbn. rewrite Ho, app_assoc. split; [done|]. apply Forall_app. split; [done|]. by repeat constructor.
Qed.

Lemma quiet_enterflow now f s s' :
  quiet s s' -> power_myflow s' = power_myflow s -> power_mystatus s' = power_mystatus s ->
  quiet s (fst (mv_sm_power_enterflow now f s')).
Proof.
  intros Hq Hfl Hst. unfold mv_sm_power_enterflow. destruct (decide _) as [|Hn]; [done|].
  destruct Hq as [Ho Hr _]. constructor; [done|done|]. right. rewrite <- Hfl, <- Hst. cbn.
  destruct (decide (power_myflow s' = FLOW_IDLE)), (decide (power_mystatus s' = STA_INVALID)); tauto.
Qed.

Lemma quiet_payload v s s' : quiet s s' -> quiet s (mv_sm_power_setwakeuppayload v s').
Proof. by intros [Ho Hr Hf]. Qed.

Lemma other_quiet now e s : e <> Task -> quiet s (step now e s).
Proof.
  intros He. destruct e; [done|..]; cbn [step];
    unfold mv_sm_process_power_msg, process_active_msg, wakeup_timer, powerdown_timer, sm_setup_power_up_timer,
      sm_setup_power_down_timer, sm_wifi_isr, sm_bt_isr, handle_gpiobtn_wakeup, mv_sm_wdt_1_isr, mv_sm_power_enterflow_bysmstate,
      sm_set_reboot_reason, clear_wmup, clear_wmdn;
    repeat case_match; cbn [fst];
    repeat first [apply quiet_payload | apply quiet_enterflow; [|reflexivity|reflexivity] | apply quiet_emit; [exact I|]];
    apply quiet_same; cbn; auto.
Qed.

Lemma watch_benign l l' : Forall (fun x => benign x.2) l' -> watch (l ++ l') = watch l.
Proof.
  induction l' as [|[t e] l' IH] using rev_ind; intros H; [by rewrite app_nil_r|].
  apply Forall_app in H as [H He]. apply Forall_cons_iff in He as [He _].
  rewrite app_assoc, watch_snoc, IH by done. destruct (watch l) as [p|]; [|done]. by destruct e.
Qed.

Lemma sequenced_task now s : fits s = true -> sequenced s -> sequenced (mv_sm_power_task now s).
Proof.
  intros H [p [Hw Hp]]. unfold powered in Hp.
  flow_cases s H; cbn [out power_mystatus power_lasttime] in Hw, Hp; pw_unfold; cbn;
    repeat (case_match; simplify_eq; cbn; try solve [exfalso; intuition congruence]);
    unfold sequenced; cbn [out set_out]; cbn; rewrite ?watch_snoc, ?Hw; cbn;
    try (eexists; split; [reflexivity|]; unfold powered; cbn; discriminate || assumption).
  all: first
    [ eexists; split; [reflexivity|]; intros _; exists now; by split
    | destruct (Hp eq_refl) as (t & -> & ->); rewrite u32_sub_u32 in *; cbn;
      change (u32 POWERON2OKTIME) with POWERON2OKTIME in *;
      match goal with E : (POWERON2OKTIME <=? _) = true |- _ => rewrite E end;
      eexists; split; [reflexivity|]; unfold powered; cbn; discriminate ].
Qed.

Lemma sequenced_step now e s : fits s = true -> sequenced s -> sequenced (step now e s).
Proof.
  intros H Hs. destruct (decide (e = Task)) as [->|He]; [by apply sequenced_task|].
  destruct (other_quiet now e s He) as [(l & Ho & Hl) _ Hf]. destruct Hs as (p & Hw & Hp).
  exists p. rewrite Ho, watch_benign by done. split; [done|]. unfold powered in *.
  destruct Hf as [(_ & -> & ->)|(_ & _ & ->)]; [done|discriminate].
Qed.

(** ** Progress of the task *)

Definition rank (s : power) : nat :=
  match power_myflow s with
  | FLOW_IDLE => 0
  | _ => match power_mystatus s with
         | STA_ENTERFLOW => 8 | STA_ASSERT => 7 | STA_DEASSERT => 6 | STA_POWERON => 5 | STA_POWEROK => 4
         | STA_WAITRSP => 3 | STA_POWEROFF => 2 | STA_LEAVEFLOW => 1 | STA_INVALID => 0
         end
  end.

(** The longest wait is over, and the response the flow may wait for is there. *)
Definition ready (now : Z) (s : power) : Prop :=
  POWEROFF2POWERON <= u32 (now - power_lasttime s) /\ (power_mystatus s = STA_WAITRSP -> is_get_rsp s = true).

(** The system state a flow ends in; a reset leaves it as it is, the code does not set it. *)
Definition target (f : SM_POWER_FLOW) (sys : MV_SM_STATE) : MV_SM_STATE :=
  match f with
  | FLOW_ACTIVE_2_LOWPOWERSTANDBY => MV_SM_STATE_LOWPOWERSTANDBY
  | FLOW_ACTIVE_2_NORMALSTANDBY => MV_SM_STATE_NORMALSTANDBY
  | FLOW_ACTIVE_2_SUSPEND => MV_SM_STATE_SUSPEND
  | FLOW_LOWPOWERSTANDBY_2_ACTIVE | FLOW_NORMALSTANDBY_2_ACTIVE | FLOW_SUSPEND_2_ACTIVE => MV_SM_STATE_ACTIVE
  | _ => sys
  end.

Record progressed (now : Z) (s s' : power) : Prop := {
  pr_rank : (rank s' < rank s)%nat;
  pr_time : power_lasttime s' = power_lasttime s \/ power_lasttime s' = u32 now;
  pr_rsp : is_get_rsp s' = is_get_rsp s \/ (rank s' < 3)%nat;
  pr_flow : power_myflow s' = power_myflow s /\
              target (power_myflow s) (sys_state s') = target (power_myflow s) (sys_state s) \/
            power_myflow s' = FLOW_IDLE /\ power_mystatus s' = STA_INVALID /\
              sys_state s' = target (power_myflow s) (sys_state s);
}.

Lemma waited now lt w :
  0 <= w <= POWEROFF2POWERON -> POWEROFF2POWERON <= u32 (now - lt) -> (u32 w <=? u32 (now - lt)) = true.
Proof. intros Hw H. apply Z.leb_le. rewrite u32_id; [lia|]. unfold is_u32, POWEROFF2POWERON in *. lia. Qed.

Lemma task_progress now s :
  fits s = true -> power_myflow s <> FLOW_IDLE -> ready now s -> progressed now s (mv_sm_power_task now s).
Proof.
  intros H Hfl [Ht Hr].
  assert (H1 := waited now (power_lasttime s) POWEROFF2POWERON ltac:(unfold POWEROFF2POWERON; lia) Ht).
  assert (H2 := waited now (power_lasttime s) POWERON2OKTIME ltac:(unfold POWEROFF2POWERON, POWERON2OKTIME; lia) Ht).
  assert (H3 := waited now (power_lasttime s) ASSERT2DEASSERTTIME ltac:(unfold POWEROFF2POWERON, ASSERT2DEASSERTTIME; lia) Ht).
  flow_cases s H; cbn [power_lasttime power_mystatus is_get_rsp power_myflow] in *; try (specialize (Hr eq_refl); subst);
    try (exfalso; congruence); clear Ht; pw_unfold; cbn; rewrite ?H1, ?H2, ?H3; clear H1 H2 H3; cbn;
    repeat (case_match; simplify_eq; cbn; try solve [exfalso; intuition congruence]);
    constructor; cbn; auto with lia.
Qed.

(** Task calls far enough apart, from a clock that does not wrap meanwhile. *)
Fixpoint spaced (L : Z) (ts : list Z) : Prop :=
  match ts with
  | [] => True
  | t :: ts => L + POWEROFF2POWERON <= t < 2 ^ 31 /\ spaced t ts
  end.

Definition tasks (ts : list Z) : list (Z * ev) := map (fun t => (t, Task)) ts.

Lemma flow_ends n : forall s L ts,
  (rank s <= n)%nat -> fits s = true -> power_myflow s <> FLOW_IDLE -> (is_get_rsp s = true \/ (rank s < 3)%nat) ->
  0 <= power_lasttime s <= L -> spaced L ts -> (n <= length ts)%nat ->
  exists k s', (k <= n)%nat /\ run (tasks (take k ts)) s = s' /\ power_myflow s' = FLOW_IDLE /\ power_mystatus s' = STA_INVALID /\
    sys_state s' = target (power_myflow s) (sys_state s).
Proof.
  induction n as [|n IH]; intros s L ts Hn Hf Hi Hr HL Hs Hlen.
  { exfalso. unfold rank in Hn. unfold fits in Hf. destruct (power_myflow s), (power_mystatus s), (sys_state s); try done; simpl in Hn; lia. }
  destruct ts as [|t ts]; [simpl in Hlen; lia|]. destruct Hs as [Ht Hs]. unfold POWEROFF2POWERON in Ht.
  assert (Hready : ready t s).
  { split; [rewrite u32_id; unfold is_u32, POWEROFF2POWERON; lia|]. intros Hw. destruct Hr as [|Hr]; [done|].
    unfold rank in Hr. rewrite Hw in Hr. destruct (power_myflow s); try lia; congruence. }
  destruct (task_progress t s Hf Hi Hready) as [P1 P2 P3 P4].
  pose proof (fits_step t Task s Hf) as Hf'. cbn [step] in Hf'. simpl in Hlen.
  destruct P4 as [[Pf Pt]|(Pi & Pst & Ps)].
  - destruct (IH (mv_sm_power_task t s) t ts) as (k & s' & Hk & Hrun & Hi' & Hst & Hsys);
      [lia|done|congruence| | |done|lia|].
    + destruct P3 as [->|]; [|by right]. destruct Hr as [|Hr]; [by left|right; lia].
    + assert (u32 t = t) by (apply u32_id; unfold is_u32; lia). lia.
    + exists (S k), s'. rewrite Pf in Hsys. rewrite Pt in Hsys. repeat split; [lia|done|done|done|done].
  - exists 1%nat, (mv_sm_power_task t s). repeat split; [lia|done|done|done].
Qed.

(** ** Properties *)

(** The flow, its status and the system state always fit together.  After any
    sequence of task steps, messages, timer and GPIO interrupts, button
    presses and watchdog interrupts from power on, the three variables are in
    one of the combinations [flow_fits] lists; in particular the status is
    STA_INVALID exactly when no flow is in progress, so that a new flow can
    always be entered then. *)
Theorem power_flow_fits (es : list (Z * ev)) :
  let s := run es power_init in
  flow_fits (power_myflow s) (power_mystatus s) (sys_state s) = true /\
  (power_myflow s = FLOW_IDLE <-> power_mystatus s = STA_INVALID).
Proof.
  cbn zeta. assert (H : fits (run es power_init) = true).
  { apply (power_run_inv (fun s => fits s = true) (fun _ => True)); [|by apply Forall_true|done].
    intros now e s _. apply fits_step. }
  split; [exact H|]. unfold fits in H. destruct (power_myflow _), (power_mystatus _), (sys_state _); done.
Qed.

(** C26: the SoC leaves reset only on stable power.  In the effects of any sequence
    of events from power on, each release of the SoC from reset comes at least
    60 ms after a board power on, with no power off in between. *)
Theorem power_sequence_safe (es : list (Z * ev)) : exists p, watch (out (run es power_init)) = Some p.
Proof.
  assert (H : fits (run es power_init) = true /\ sequenced (run es power_init)).
  { apply (power_run_inv (fun s => fits s = true /\ sequenced s) (fun _ => True)); [|by apply Forall_true|].
    - intros now e s _ [Hf Hs]. split; [by apply fits_step|by apply sequenced_step].
    - split; [done|]. exists None. done. }
  destruct H as [_ (p & Hw & _)]. eauto.
Qed.

(** C38: every flow ends in its system state.  From a state in which a flow is in
    progress and the response of the SoC has arrived, at most eight calls of
    the power task, each at least 300 ms after the last, end the flow: the
    module is idle again and the system state is the one the flow leads to. *)
Theorem power_flow_ends (s : power) (ts : list Z) :
  fits s = true -> power_myflow s <> FLOW_IDLE -> is_get_rsp s = true -> 0 <= power_lasttime s ->
  spaced (power_lasttime s) ts -> length ts = 8%nat ->
  exists k, (k <= 8)%nat /\ let s' := run (tasks (take k ts)) s in
    power_myflow s' = FLOW_IDLE /\ power_mystatus s' = STA_INVALID /\ sys_state s' = target (power_myflow s) (sys_state s).
Proof.
  intros Hf Hi Hr Hl Hs Hlen.
  assert (Hrank : (rank s <= 8)%nat) by (unfold rank; destruct (power_myflow s), (power_mystatus s); lia).
  destruct (flow_ends 8 s (power_lasttime s) ts) as (k & s' & Hk & <- & H1 & H2 & H3); [done|done|done|by left|lia|done|lia|].
  exists k. auto.
Qed.

(** ** The response flag *)

(** Outside the two transitional states no message sets the response flag. *)
Lemma other_rsp now e s :
  e <> Task -> sys_state s <> MV_SM_STATE_ACTIVE_2_SUSPEND -> sys_state s <> MV_SM_STATE_STANDBY_2_ACTIVE ->
  is_get_rsp (step now e s) = is_get_rsp s.
Proof.
  intros He H1 H2. destruct e; [done|..]; pw_unfold; cbn; repeat case_match; try reflexivity; congruence.
Qed.

(** A system reset that waits for a response of the SoC. *)
Definition resetting (s : power) : Prop :=
  fits s = true /\ power_myflow s = FLOW_SYSRESET_2_ACTIVE /\ power_mystatus s <> STA_LEAVEFLOW /\ is_get_rsp s = false.

Lemma resetting_step now e s : resetting s -> resetting (step now e s).
Proof.
  intros (Hf & Hfl & Hst & Hr). split; [by apply fits_step|].
  destruct (decide (e = Task)) as [->|He].
  - unfold resetting in *. flow_cases s Hf; cbn in *; try discriminate Hfl; try congruence; subst; pw_unfold; cbn;
      repeat (case_match; simplify_eq; cbn; try solve [exfalso; intuition congruence]); repeat split; congruence.
  - destruct (other_quiet now e s He) as [_ _ [(-> & -> & _)|(Hn & _)]]; [|congruence].
    rewrite other_rsp; [done|done|..]; intros Hs; unfold fits in Hf; rewrite Hfl, Hs in Hf; destruct (power_mystatus s); done.
Qed.

(** A system reset does not come to its end by itself.  The messages that set
    is_get_rsp are accepted only in the two transitional system states, which a
    reset does not enter: once FLOW_SYSRESET_2_ACTIVE is in progress with the
    flag clear, no sequence of events leaves the flow, and every further
    request for a flow is refused. *)
Theorem sysreset_never_ends (s : power) (es : list (Z * ev)) :
  fits s = true -> power_myflow s = FLOW_SYSRESET_2_ACTIVE -> power_mystatus s <> STA_LEAVEFLOW -> is_get_rsp s = false ->
  power_myflow (run es s) = FLOW_SYSRESET_2_ACTIVE /\
  forall now f, mv_sm_power_enterflow now f (run es s) = (run es s, S_FALSE).
Proof.
  intros H1 H2 H3 H4. assert (H : resetting (run es s)).
  { apply (power_run_inv resetting (fun _ => True)); [|by apply Forall_true|by split].
    intros now e s' _. apply resetting_step. }
  destruct H as (_ & Hf & _). split; [done|]. intros now f. unfold mv_sm_power_enterflow.
  rewrite decide_True; [done|]. left. by rewrite Hf.
Qed.

(** ** Suspend *)

(** No message of the SoC about its suspend. *)
Definition no_suspend_msg (e : ev) : Prop :=
  match e with
  | Msg _ _ _ ty _ _ => ty <> MV_SM_ACTIVE_2_SUSPEND_RESP /\ ty <> MV_SM_POWER_SUSPEND_REQUEST
  | _ => True
  end.

Definition stays_on (e : effect) : Prop := e <> BoardPowerOff.

(** Waiting for the suspend response, with nothing powered off since [o]. *)
Definition suspending (o : list (Z * effect)) (s : power) : Prop :=
  power_myflow s = FLOW_ACTIVE_2_SUSPEND /\ is_get_rsp s = false /\ suspend_type s <> MV_SM_POWER_SUSPEND_TYPE_WFI /\
  (power_mystatus s = STA_ENTERFLOW /\ sys_state s = MV_SM_STATE_ACTIVE \/
   power_mystatus s = STA_WAITRSP /\ sys_state s = MV_SM_STATE_ACTIVE_2_SUSPEND) /\
  exists l, out s = o ++ l /\ Forall (fun x => stays_on x.2) l.

Lemma stays_on_app (o l l' : list (Z * effect)) :
  Forall (fun x => stays_on x.2) l -> Forall (fun x => stays_on x.2) l' ->
  exists l2, (o ++ l) ++ l' = o ++ l2 /\ Forall (fun x => stays_on x.2) l2.
Proof. intros H H'. exists (l ++ l'). rewrite app_assoc. split; [done|by apply Forall_app]. Qed.

Lemma suspending_task now o s : suspending o s -> suspending o (mv_sm_power_task now s).
Proof.
  intros (Hfl & Hr & Hsp & Hst & l & Ho & Hl). apply Z.eqb_neq in Hsp as Hw.
  destruct s as [st fl lt gr lr sb sp ra ws p0 p1 rq fb wk sys bf ue ub ui ut de db di dt o'].
  cbn in Hfl, Hr, Hsp, Hst, Ho, Hw. subst fl gr o'.
  destruct Hst as [[-> ->]|[-> ->]]; pw_unfold; cbn; rewrite decide_False by tauto; unfold suspending; cbn.
  - rewrite Hw. do 3 (split; [done|]). split; [auto|]. rewrite <- app_assoc. apply stays_on_app; [done|by repeat constructor].
  - do 3 (split; [done|]). split; [auto|]. eauto.
Qed.

Lemma other_keeps now e s :
  e <> Task -> no_suspend_msg e -> sys_state s = MV_SM_STATE_ACTIVE \/ sys_state s = MV_SM_STATE_ACTIVE_2_SUSPEND ->
  is_get_rsp (step now e s) = is_get_rsp s /\ suspend_type (step now e s) = suspend_type s /\
  sys_state (step now e s) = sys_state s.
Proof.
  intros He Hno Hs.
  destruct s as [st fl lt gr lr sb sp ra ws p0 p1 rq fb wk sys bf ue ub ui ut de db di dt o]. cbn [sys_state] in Hs.
  destruct e; [done|..]; cbn in Hno; try destruct Hno as [Hn1 Hn2]; try (apply Z.eqb_neq in Hn1, Hn2);
    destruct Hs as [-> | ->]; clear He; pw_unfold; cbn; rewrite ?Hn1, ?Hn2; cbn;
    repeat (case_match; cbn); repeat split; reflexivity.
Qed.

Lemma suspending_other now e o s :
  e <> Task -> no_suspend_msg e -> suspending o s -> suspending o (step now e s).
Proof.
  intros He Hno (Hfl & Hr & Hsp & Hst & l & Ho & Hl).
  destruct (other_quiet now e s He) as [(l' & Ho' & Hl') _ [(Hq1 & Hq2 & _)|(Hn & _)]]; [|congruence].
  destruct (other_keeps now e s He Hno ltac:(tauto)) as (Hr' & Hsp' & Hsys). unfold suspending.
  rewrite Hq1, Hq2, Hr', Hsp', Hsys, Ho', Ho.
  do 4 (split; [done|]). apply stays_on_app; [done|]. eapply Forall_impl; [|exact Hl'].
  intros [t e'] Hb. destruct e'; cbn in *; done.
Qed.

(** The SoC is powered off only after its response.  Once a suspend with power
    off has been accepted with the response flag clear, no sequence of events
    without a suspend response (or a second request) switches the power off. *)
Theorem suspend_waits_for_response (s : power) (now c w2 : Z) (d st : bool) (junk : Z) (es : list (Z * ev)) :
  power_myflow s = FLOW_IDLE -> power_mystatus s = STA_INVALID -> sys_state s = MV_SM_STATE_ACTIVE -> is_get_rsp s = false ->
  w2 <> MV_SM_POWER_SUSPEND_TYPE_WFI -> Forall (fun x => no_suspend_msg x.2) es ->
  exists l, out (run es (step now (Msg d st junk MV_SM_POWER_SUSPEND_REQUEST c w2) s)) = out s ++ l /\
    Forall (fun x => stays_on x.2) l.
Proof.
  intros Hfl Hst Hsys Hr Hw Hes.
  assert (H0 : suspending (out s) (step now (Msg d st junk MV_SM_POWER_SUSPEND_REQUEST c w2) s)).
  { cbn [step]. unfold mv_sm_process_power_msg, mv_sm_get_state. rewrite Hsys. unfold process_active_msg. cbn.
    unfold mv_sm_power_enterflow. cbn. rewrite Hfl, Hst, decide_False by tauto. unfold suspending. cbn.
    do 3 (split; [done|]). split; [auto|]. exists []. rewrite app_nil_r. split; [done|constructor]. }
  assert (Hend : suspending (out s) (run es (step now (Msg d st junk MV_SM_POWER_SUSPEND_REQUEST c w2) s))).
  { apply (power_run_inv (suspending (out s)) no_suspend_msg); [|done|done].
    intros n e s' Hno Hs. destruct (decide (e = Task)) as [->|He]; [by apply suspending_task|by apply suspending_other]. }
  apply Hend.
Qed.

(** A power cycle through suspend in which the SoC answers the wake-up twice, and a
    second suspend request. *)
Definition duplicate_answer : list (Z * ev) :=
  let msg ty w2 := Msg true true 0 ty 0 w2 in
  [ (1000, msg MV_SM_POWER_SUSPEND_REQUEST MV_SM_POWER_SUSPEND_TYPE_PWROFF); (1001, Task);
    (1010, msg MV_SM_ACTIVE_2_SUSPEND_RESP 0); (1011, Task); (1012, Task); (1013, Task);
    (5000, Button); (5001, Task); (5002, Task); (5200, Task); (5600, Task); (5700, Task);
    (6000, msg MV_SM_SUSPEND_2_ACTIVE_RESP 0); (6001, Task); (6002, msg MV_SM_SUSPEND_2_ACTIVE_RESP 0); (6003, Task);
    (9000, msg MV_SM_POWER_SUSPEND_REQUEST MV_SM_POWER_SUSPEND_TYPE_PWROFF) ].

(** A stale response is taken for the next one.  mv_sm_power_enterflow leaves
    is_get_rsp as it is: after a wake-up that the SoC answered twice, the next
    suspend request switches the power off with no suspend response received. *)
Theorem stale_response_powers_off :
  let s := run duplicate_answer power_init in
  power_myflow s = FLOW_ACTIVE_2_SUSPEND /\ is_get_rsp s = true /\
  exists l, out (run (tasks [9001; 9002; 9003]) s) = out s ++ l /\ In (9003, BoardPowerOff) l.
Proof. split; [reflexivity|]. split; [reflexivity|]. eexists. split; [vm_compute; reflexivity|]. vm_compute. tauto. Qed.

(** ** Witnesses *)

(** A normal standby requested at 1000 ms, with an answer already recorded. *)
Definition going_down : power :=
  set_is_get_rsp true (step 1000 (Msg true true 0 MV_SM_POWER_STANDBY_REQUEST 0 0) power_init).

Lemma power_flow_ends_witness :
  exists k, (k <= 8)%nat /\ let s' := run (tasks (take k [1300; 1600; 1900; 2200; 2500; 2800; 3100; 3400])) going_down in
    power_myflow s' = FLOW_IDLE /\ power_mystatus s' = STA_INVALID /\
    sys_state s' = target (power_myflow going_down) (sys_state going_down).
Proof.
  apply (power_flow_ends going_down [1300; 1600; 1900; 2200; 2500; 2800; 3100; 3400]);
    [reflexivity|discriminate|reflexivity|vm_compute; discriminate| |reflexivity].
  change (power_lasttime going_down) with 1000. unfold spaced, POWEROFF2POWERON. lia.
Defined.

Lemma sysreset_never_ends_witness :
  power_myflow (run (tasks [1; 200; 600; 700; 900; 5000]) (step 0 Watchdog power_init)) = FLOW_SYSRESET_2_ACTIVE /\
  forall now f, mv_sm_power_enterflow now f (run (tasks [1; 200; 600; 700; 900; 5000]) (step 0 Watchdog power_init)) =
    (run (tasks [1; 200; 600; 700; 900; 5000]) (step 0 Watchdog power_init), S_FALSE).
Proof.
  apply (sysreset_never_ends (step 0 Watchdog power_init) (tasks [1; 200; 600; 700; 900; 5000]));
    [reflexivity|reflexivity|discriminate|reflexivity].
Defined.

Lemma suspend_waits_for_response_witness :
  exists l, out (run (tasks [101; 102; 103; 50000]) (step 100 (Msg true true 0 MV_SM_POWER_SUSPEND_REQUEST 0 0xFF) power_init)) =
    out power_init ++ l /\ Forall (fun x => stays_on x.2) l.
Proof.
  apply (suspend_waits_for_response power_init 100 0 0xFF true true 0 (tasks [101; 102; 103; 50000]));
    [reflexivity|reflexivity|reflexivity|reflexivity|discriminate|repeat constructor].
Defined.
