(* ===== verification/IrRecv.v ===== *)
(** * The infrared receiver: pulse buffer, interrupt handler and decoders
    (boot/bootloader/sm_cm3/syna/src/ir/sm_ir.c, ir_nec.c, ir_tc9012.c, ir_rc5.c)

    The interrupt handler measures how long the level of the IR pin lasted and
    stores it in a circular buffer; the task decodes the buffer into a 32-bit
    code.  ir_nec.c and ir_tc9012.c are the same decoder with other timings,
    another order of the bits and another test for a repeat frame: it is one
    definition here, over the record [protocol] of those choices.  The timer
    register is hardware: [reg k] is its value at the k-th read. *)

From S2P Require Import Prelude.

(** ** Constants (customization/dolphin/chip_config.h, sm_apb_timer.h) *)

Definition SM_SYSTEM_HZ : Z := 25.
Definition INT_MS : Z := 1000.
Definition IR_CBUFF_LENGTH : Z := 256.
Definition CIRC_BUFF_MASK : Z := IR_CBUFF_LENGTH - 1.
Definition NO_CODE : Z := 0xffffffff.

(** ** The circular buffer of level lengths *)

Record cbuf := mk_cbuf { cbuffer : list Z; cb_start : Z; cb_end : Z }.

Definition bump (i : Z) : Z := Z.land (u32 (i + 1)) CIRC_BUFF_MASK.

Definition level (level_len high_low : Z) : Z :=
  Z.lor (Z.land level_len 0x7fffffff) (u32 (Z.shiftl high_low 31)).

Definition store_ircbuffer (level_len high_low : Z) (b : cbuf) : option cbuf :=
  c ← wr (cbuffer b) (Z.to_nat (cb_end b)) (level level_len high_low);
  let cb_end := bump (cb_end b) in
  Some (mk_cbuf c (if cb_end =? cb_start b then bump (cb_start b) else cb_start b) cb_end).

Definition cell (b : cbuf) : option Z := cbuffer b !! Z.to_nat (cb_start b).
Definition advance (b : cbuf) : cbuf := mk_cbuf (cbuffer b) (bump (cb_start b)) (cb_end b).

Definition is_high (c : Z) : bool := negb (Z.land c 0x80000000 =? 0).
Definition len_of (c : Z) : Z := Z.land c 0x7fffffff.

(** ** Time *)

Definition sm_apb_timer_readclock (r : Z) : Z := i32 (u32 (SM_SYSTEM_HZ * 1000 * 1000 - r)).

Definition length_caculate (ticks prev_ticks : Z) : Z :=
  if prev_ticks <? ticks then u32 (ticks - prev_ticks)
  else u32 (ticks - prev_ticks + INT_MS * 1000 * SM_SYSTEM_HZ).

Definition isr_length_caculate (ms ticks prev_ms prev_ticks : Z) : Z :=
  if prev_ticks <? ticks then u32 (ticks - prev_ticks)
  else u32 (ticks - prev_ticks + (ms / INT_MS - prev_ms / INT_MS) * INT_MS * 1000 * SM_SYSTEM_HZ).

Section Clocked.
Variable reg : nat -> Z.

Definition clock (n : nat) : Z := u32 (sm_apb_timer_readclock (reg n)).

(** ** The interrupt handler *)

Record isr_state := mk_isr { iPrev_ticks : Z; ir_current_set_rise : Z }.

(** The loop that reads the clock until the value is plausible. *)
Fixpoint isr_ticks (fuel n : nat) : option (Z * nat) :=
  match fuel with
  | O => None
  | S fuel => if clock n <=? INT_MS * 1000 * SM_SYSTEM_HZ then Some (clock n, S n) else isr_ticks fuel (S n)
  end.

(** The second component of the result: the edge the pin is now armed for
    (1: rising). *)
Definition mv_sm_ir_isr (fuel n : nat) (i : isr_state) (b : cbuf) : option (isr_state * cbuf * nat) :=
  '(iCurr_ticks, n) ← isr_ticks fuel n;
  let rise := Z.lxor (ir_current_set_rise i) 1 in
  let iCurr_length := i32 (length_caculate iCurr_ticks (iPrev_ticks i)) in
  b ← store_ircbuffer (u32 iCurr_length) rise b;
  Some (mk_isr iCurr_ticks rise, b, n).

(** ** The NEC and TC9012 decoders *)

Record protocol := mk_protocol {
  DATA_0_MIN_LEN : Z; DATA_0_MAX_LEN : Z;
  DATA_1_MIN_LEN : Z; DATA_1_MAX_LEN : Z;
  PREAMB_MIN_LEN : Z; PREAMB_MAX_LEN : Z; PREAMB_HOLD_MAX : Z;
  PREAMB_MIN_LOW : Z; PREAMB_MAX_LOW : Z;
  FRAME_MAX_LEN : Z; FRAME_CYCLE_MAX : Z;
  BURST_MIN_LEN : Z; BURST_MAX_LEN : Z;
  HOLD_BIT : Z;               (* value of iCode_Bit at which a repeat is looked for *)
  bit_position : Z -> Z       (* place in iCode of the n-th bit received *)
}.

Definition nec : protocol :=
  mk_protocol (500 * SM_SYSTEM_HZ) (1200 * SM_SYSTEM_HZ) (1200 * SM_SYSTEM_HZ) (4000 * SM_SYSTEM_HZ)
    (10000 * SM_SYSTEM_HZ) (16000 * SM_SYSTEM_HZ) (12475 * SM_SYSTEM_HZ)
    (7500 * SM_SYSTEM_HZ) (10500 * SM_SYSTEM_HZ) (68904 * SM_SYSTEM_HZ) (108900 * SM_SYSTEM_HZ)
    (500 * SM_SYSTEM_HZ) (700 * SM_SYSTEM_HZ) 0 (fun b => b).

Definition tc9012 : protocol :=
  mk_protocol (900 * SM_SYSTEM_HZ) (1325 * SM_SYSTEM_HZ) (1825 * SM_SYSTEM_HZ) (2650 * SM_SYSTEM_HZ)
    (8000 * SM_SYSTEM_HZ) (10000 * SM_SYSTEM_HZ) (12475 * SM_SYSTEM_HZ)
    (4000 * SM_SYSTEM_HZ) (5500 * SM_SYSTEM_HZ) (110000 * SM_SYSTEM_HZ) (157900 * SM_SYSTEM_HZ)
    (500 * SM_SYSTEM_HZ) (700 * SM_SYSTEM_HZ) 1 (fun b => 32 - (8 - b mod 8) - b / 8 * 8).

Record pulse := mk_pulse {
  iPrevCode : Z; iCode : Z; iCode_Bit : Z;
  iPreamble_Found : bool; iPreamble_Maybe_HOLD : bool; iPreamble_Time : Z
}.

(** The initial values of the static variables. *)
Definition pulse_init : pulse := mk_pulse 0 0 0 false false 0.

Definition is_preamble (t : protocol) (low twin : Z) : bool :=
  (PREAMB_MIN_LEN t <? twin) && (twin <? PREAMB_MAX_LEN t) && (PREAMB_MIN_LOW t <? low) && (low <? PREAMB_MAX_LOW t).

Definition start_frame (t : protocol) (twin now : Z) (d : pulse) : pulse :=
  mk_pulse (iPrevCode d) 0 0 true (twin <? PREAMB_HOLD_MAX t) now.

Definition reset_frame (d : pulse) : pulse := mk_pulse (iPrevCode d) 0 0 false false (iPreamble_Time d).

Definition add_bit (t : protocol) (iData : Z) (d : pulse) : pulse :=
  if iCode_Bit d <? 32
  then mk_pulse (iPrevCode d) (u32 (iCode d + u32 (Z.shiftl iData (bit_position t (iCode_Bit d))))) (iCode_Bit d + 1)
         (iPreamble_Found d) (iPreamble_Maybe_HOLD d) (iPreamble_Time d)
  else d.

(** The end of an iteration: a code with all its bits is the result. *)
Definition take_code (d : pulse) (rcv : Z) : pulse * Z :=
  if iCode_Bit d =? 32
  then (mk_pulse (iCode d) 0 0 false (iPreamble_Maybe_HOLD d) (iPreamble_Time d), iCode d)
  else (d, rcv).

(** A low level with the high level after it.  [iData] is a variable of the
    function: it keeps its value from one iteration to the next, and is what a
    preamble or a pause found within a frame adds to the code. *)
Definition read_twin (t : protocol) (n : nat) (low high : Z) (d : pulse) (iData rcv : Z) : pulse * Z * Z * nat :=
  let iTwin_Level := i32 (u32 (low + high)) in
  if iPreamble_Found d then
    if (DATA_1_MIN_LEN t <? iTwin_Level) && (iTwin_Level <? DATA_1_MAX_LEN t) then
      let '(d, rcv) := take_code (add_bit t 1 d) rcv in (d, 1, rcv, n)
    else if (DATA_0_MIN_LEN t <? iTwin_Level) && (iTwin_Level <? DATA_0_MAX_LEN t) then
      let '(d, rcv) := take_code (add_bit t 0 d) rcv in (d, 0, rcv, n)
    else if is_preamble t low iTwin_Level then
      let '(d, rcv) := take_code (add_bit t iData (start_frame t iTwin_Level (clock n) d)) rcv in (d, iData, rcv, S n)
    else if PREAMB_MAX_LEN t <? iTwin_Level then
      let '(d, rcv) := take_code (add_bit t iData (reset_frame d)) rcv in (d, iData, rcv, n)
    else (d, iData, rcv, n)
  else if is_preamble t low iTwin_Level then
    let '(d, rcv) := take_code (start_frame t iTwin_Level (clock n) d) rcv in (d, iData, rcv, S n)
  else let '(d, rcv) := take_code d rcv in (d, iData, rcv, n).

(** "This condition can be considered as data length >= 2". *)
Definition has_two (b : cbuf) : bool :=
  (u32 (cb_start b + 1) <? cb_end b) || ((cb_end b <? cb_start b) && (cb_start b - cb_end b <? IR_CBUFF_LENGTH - 1)).

Fixpoint read_loop (t : protocol) (fuel n : nat) (b : cbuf) (d : pulse) (iData rcv : Z)
  : option (cbuf * pulse * Z * nat) :=
  match fuel with
  | O => None
  | S fuel =>
      if has_two b && (rcv =? NO_CODE) then
        c ← cell b;
        let b := advance b in
        if is_high c then read_loop t fuel n b d iData rcv
        else h ← cell b;
             let b := advance b in
             let '(d, iData, rcv, n) := read_twin t n (len_of c) (len_of h) d iData rcv in
             read_loop t fuel n b d iData rcv
      else Some (b, d, rcv, n)
  end.

(** A repeat frame: a short preamble and one burst, which is looked at and
    left in the buffer. *)
Definition read_hold (t : protocol) (b : cbuf) (d : pulse) (rcv : Z) : option (pulse * Z * bool) :=
  if iPreamble_Maybe_HOLD d && (iCode_Bit d =? HOLD_BIT t) && negb (iPrevCode d =? NO_CODE) then
    c ← cell b;
    if negb (is_high c) && (BURST_MIN_LEN t <? len_of c) && (len_of c <? BURST_MAX_LEN t)
    then Some (reset_frame d, iPrevCode d, true)
    else Some (d, rcv, false)
  else Some (d, rcv, false).

Definition frame_timeout (t : protocol) (n : nat) (d : pulse) : pulse * nat :=
  if iPreamble_Found d
  then (if FRAME_MAX_LEN t <? length_caculate (clock n) (iPreamble_Time d) then reset_frame d else d, S n)
  else (d, n).

Definition code_timeout (t : protocol) (n : nat) (d : pulse) : pulse * nat :=
  if negb (iPrevCode d =? NO_CODE)
  then (if FRAME_CYCLE_MAX t <? length_caculate (clock n) (iPreamble_Time d)
        then mk_pulse NO_CODE (iCode d) (iCode_Bit d) (iPreamble_Found d) (iPreamble_Maybe_HOLD d) (iPreamble_Time d)
        else d, S n)
  else (d, n).

(** An iteration takes a level or two out of the buffer, which holds 255. *)
Definition loop_fuel : nat := 256.

(** The result is the code and whether it is a repeat. *)
Definition read_pulse (t : protocol) (n : nat) (b : cbuf) (d : pulse) : option (cbuf * pulse * Z * bool * nat) :=
  '(b, d, rcv, n) ← read_loop t loop_fuel n b d 0 NO_CODE;
  '(d, rcv, is_hold) ← read_hold t b d rcv;
  let '(d, n) := frame_timeout t n d in
  let '(d, n) := code_timeout t n d in
  Some (b, d, rcv, is_hold, n).

Definition read_nec := read_pulse nec.
Definition read_tc9012 := read_pulse tc9012.

End Clocked.

(** ** The RC5 decoder

    [now] is the time in milliseconds that mv_sm_timer_gettimems() gives. *)

Definition MAX_BIT_TIME : Z := SM_SYSTEM_HZ * 960.
Definition MIN_BIT_TIME : Z := SM_SYSTEM_HZ * 735.

Record rc5 := mk_rc5 {
  rc5_Code_Bit : Z; rc5_Code : Z; rc5_prev_code : Z; iPrev_Data : Z; ERR_time : Z; last_bit : Z
}.

Definition rc5_init : rc5 := mk_rc5 0 0 0 0 0 0.

Inductive rc5_verdict := RcSkip | RcRestart | RcBit | RcError.

(** What a level means, by the number of bits there are already: skipped as
    the first half of a bit, a false start, a bit, or an error. *)
Definition rc5_level (r : rc5) (iData iTime : Z) : rc5_verdict :=
  if rc5_Code_Bit r =? 0 then if iData =? 0 then RcRestart else RcBit
  else if rc5_Code_Bit r =? 1 then
    if (MAX_BIT_TIME <? iTime) || (iTime <? MIN_BIT_TIME) then RcError
    else if negb (iData =? iPrev_Data r) then RcSkip
    else if iData =? 0 then RcRestart else RcBit
  else if (iTime <? MAX_BIT_TIME) && (MIN_BIT_TIME <? iTime) && negb (iData =? iPrev_Data r) then RcSkip
  else if (iTime <? MAX_BIT_TIME) && (MIN_BIT_TIME <? iTime) && (iData =? iPrev_Data r) then RcBit
  else if (iTime <? 2 * MAX_BIT_TIME) && (2 * MIN_BIT_TIME <? iTime) && negb (iData =? iPrev_Data r) then RcBit
  else RcError.

Definition rc5_bit (r : rc5) (iData : Z) (is_hold : bool) (rcv : Z) : rc5 * bool * Z :=
  let iCode := u32 (u32 (Z.shiftl (rc5_Code r) 1) + iData) in
  let iCode_Bit := u32 (rc5_Code_Bit r + 1) in
  if iCode_Bit =? 14
  then (mk_rc5 iCode_Bit iCode iCode iData (ERR_time r) iData, is_hold || (rc5_prev_code r =? iCode), iCode)
  else (mk_rc5 iCode_Bit iCode (rc5_prev_code r) iData (ERR_time r) (last_bit r), is_hold, rcv).

Fixpoint rc5_loop (fuel : nat) (now : Z) (b : cbuf) (r : rc5) (is_hold : bool) (rcv : Z)
  : option (cbuf * rc5 * bool * Z) :=
  match fuel with
  | O => None
  | S fuel =>
      if negb (cb_start b =? cb_end b) && (rcv =? NO_CODE) then
        if negb (last_bit r =? 0)
        then rc5_loop fuel now (advance b)
               (mk_rc5 (rc5_Code_Bit r) (rc5_Code r) (rc5_prev_code r) (iPrev_Data r) (ERR_time r) 0) is_hold rcv
        else
          c ← cell b;
          let iData := if is_high c then 1 else 0 in
          match rc5_level r iData (len_of c) with
          | RcSkip => rc5_loop fuel now (advance b) r is_hold rcv
          | RcRestart =>
              rc5_loop fuel now (advance b)
                (mk_rc5 0 (rc5_Code r) (rc5_prev_code r) (iPrev_Data r) (ERR_time r) (last_bit r)) is_hold rcv
          | RcBit => let '(r, is_hold, rcv) := rc5_bit r iData is_hold rcv in
                     rc5_loop fuel now (advance b) r is_hold rcv
          | RcError =>
              Some (b, mk_rc5 (rc5_Code_Bit r) (rc5_Code r) (rc5_prev_code r) (iPrev_Data r) (u32 now) (last_bit r),
                    is_hold, NO_CODE)
          end
      else if negb (rcv =? NO_CODE)
           then Some (b, mk_rc5 0 0 (rc5_prev_code r) (iPrev_Data r) (ERR_time r) (last_bit r), is_hold, rcv)
           else Some (b, r, is_hold, NO_CODE)
  end.

Definition read_rc5 (now : Z) (b : cbuf) (r : rc5) : option (cbuf * rc5 * bool * Z) :=
  if negb (ERR_time r =? 0) then
    if 90 <? u32 (now - ERR_time r)
    then Some (mk_cbuf (cbuffer b) 0 0, mk_rc5 0 0 NO_CODE (iPrev_Data r) 0 (last_bit r), false, NO_CODE)
    else Some (b, r, false, NO_CODE)
  else rc5_loop loop_fuel now b r false NO_CODE.
