(* ===== verification/IrDecode.v ===== *)
(** * The infrared decoders decode what was sent

    The circular buffer of IrRecv.v is a first-in first-out queue of the latest
    255 levels, and a clean frame is decoded to the code that was sent however
    the interrupts that store its levels and the polls of the task interleave. *)

From S2P Require Import Prelude IrRecv.

(** ** The buffer as a queue *)

Definition slot (b : cbuf) (i : nat) : nat := Z.to_nat ((cb_start b + Z.of_nat i) mod 256).

(** The buffer [b] holds the levels [l], the oldest first. *)
Record holds (b : cbuf) (l : list Z) : Prop := mk_holds {
  holds_size : length (cbuffer b) = Z.to_nat 256;
  holds_start : 0 <= cb_start b < 256;
  holds_room : Z.of_nat (length l) <= 255;
  holds_end : cb_end b = (cb_start b + Z.of_nat (length l)) mod 256;
  holds_cells : forall i x, l !! i = Some x -> cbuffer b !! slot b i = Some x
}.

Definition empty_cbuf : cbuf := mk_cbuf (replicate (Z.to_nat 256) 0) 0 0.

(** The latest [k] elements. *)
Definition latest {A} (k : nat) (l : list A) : list A := drop (length l - k) l.

Lemma empty_cbuf_holds : holds empty_cbuf [].
Proof. split; [reflexivity|cbn; lia|cbn; lia|reflexivity|]. intros i x H. now rewrite lookup_nil in H. Qed.

Lemma bump_mod i : 0 <= i < 256 -> bump i = (i + 1) mod 256.
Proof.
  intros Hi. unfold bump, CIRC_BUFF_MASK, IR_CBUFF_LENGTH. rewrite u32_id by (unfold is_u32; lia).
  change (256 - 1) with (Z.ones 8). now rewrite Z.land_ones by lia.
Qed.

Lemma mod_cases a m : 0 < m -> 0 <= a < 2 * m -> a mod m = if a <? m then a else a - m.
Proof.
  intros Hm Ha. destruct (a <? m) eqn:E; bool_simpl.
  - apply Z.mod_small; lia.
  - rewrite <- (Z_mod_plus_full a (-1)). apply Z.mod_small. lia.
Qed.

(** Bring every index of the ring down to a case distinction. *)
Ltac wrap :=
  repeat match goal with
  | |- context [?a mod 256] => rewrite (mod_cases a 256) by lia
  | H : context [?a mod 256] |- _ => rewrite (mod_cases a 256) in H by lia
  | |- context [if ?c then _ else _] => destruct c eqn:?
  | H : context [if ?c then _ else _] |- _ => destruct c eqn:?
  end; bool_simpl; try lia.

Lemma slot_lt b i : (slot b i < Z.to_nat 256)%nat.
Proof. unfold slot. pose proof (Z.mod_pos_bound (cb_start b + Z.of_nat i) 256). lia. Qed.

Lemma slot_0 b : 0 <= cb_start b < 256 -> slot b 0 = Z.to_nat (cb_start b).
Proof. intros H. unfold slot. rewrite Z.mod_small by lia. f_equal; lia. Qed.

Lemma cell_some b l : holds b l -> exists c, cell b = Some c.
Proof. intros [Hs Hb _ _ _]. apply lookup_lt_is_Some_2. lia. Qed.

Lemma holds_advance b x l : holds b (x :: l) -> cell b = Some x /\ holds (advance b) l.
Proof.
  intros [Hs Hb Hr He Hc]. rewrite length_cons' in *. split.
  { unfold cell. rewrite <- slot_0 by done. now apply (Hc 0%nat). }
  unfold advance. rewrite bump_mod by done. split; cbn [cbuffer cb_start cb_end]; [done| |lia| |].
  - apply Z.mod_pos_bound; lia.
  - rewrite He, Zplus_mod_idemp_l. f_equal; lia.
  - intros i y Hi. unfold slot. cbn [cb_start]. rewrite Zplus_mod_idemp_l.
    replace (cb_start b + 1 + Z.of_nat i) with (cb_start b + Z.of_nat (S i)) by lia. exact (Hc (S i) y Hi).
Qed.

Lemma has_two_spec b l : holds b l -> has_two b = (2 <=? length l)%nat.
Proof.
  intros [Hs Hb Hr He Hc]. unfold has_two, IR_CBUFF_LENGTH. rewrite u32_id by (unfold is_u32; lia).
  rewrite He. apply eq_true_iff_eq. rewrite orb_true_iff, andb_true_iff, Nat.leb_le, !Z.ltb_lt. wrap.
Qed.

(** Storing into a queue with room appends; into a full one it drops the oldest. *)
Lemma store_room b l len hl :
  holds b l -> Z.of_nat (length l) < 255 ->
  exists b', store_ircbuffer len hl b = Some b' /\ holds b' (l ++ [level len hl]).
Proof.
  intros [Hs Hb Hr He Hc] Hroom. unfold store_ircbuffer.
  assert (Hend : 0 <= cb_end b < 256) by (rewrite He; apply Z.mod_pos_bound; lia).
  rewrite wr_Some by lia. cbn. rewrite bump_mod by done. eexists; split; [reflexivity|].
  assert (Hne : ((cb_end b + 1) mod 256 =? cb_start b) = false).
  { apply Z.eqb_neq. rewrite He, Zplus_mod_idemp_l. wrap. }
  rewrite Hne. split; cbn [cbuffer cb_start cb_end]; rewrite ?length_insert, ?length_app; cbn [length]; [done|done|lia| |].
  - rewrite He, Zplus_mod_idemp_l. f_equal; lia.
  - intros i x Hi. change (slot _ i) with (slot b i). apply lookup_app_Some in Hi as [Hi|[Hge Hi]].
    + pose proof (lookup_lt_Some _ _ _ Hi). rewrite list_lookup_insert_ne; [now apply Hc|].
      rewrite He. unfold slot. intros E. apply Z2Nat.inj in E; [|apply Z.mod_pos_bound; lia..]. wrap.
    + apply list_lookup_singleton_Some in Hi as [Hi <-]. assert (i = length l) as -> by lia.
      unfold slot. rewrite <- He. apply list_lookup_insert_eq. lia.
Qed.

(** Dropping the oldest level of a queue is the advance of its start. *)
Lemma store_full b x l len hl :
  holds b (x :: l) -> Z.of_nat (length (x :: l)) = 255 ->
  exists b', store_ircbuffer len hl b = Some b' /\ holds b' (l ++ [level len hl]).
Proof.
  intros H Hfull. pose proof H as [Hs Hb _ He _]. apply holds_advance in H as [_ H].
  rewrite length_cons' in Hfull. destruct (store_room _ _ len hl H ltac:(lia)) as (b' & E & Hb').
  exists b'. split; [|done]. rewrite <- E. unfold store_ircbuffer. cbn [advance cbuffer cb_start cb_end].
  rewrite length_cons', Hfull in He.
  assert (E2 : bump (cb_end b) = cb_start b) by (rewrite bump_mod; rewrite He; [rewrite Zplus_mod_idemp_l|]; wrap).
  destruct (wr _ _ _); [|done]. cbn. rewrite E2, Z.eqb_refl.
  rewrite (proj2 (Z.eqb_neq _ _)); [done|]. rewrite bump_mod by done. wrap.
Qed.

Lemma latest_snoc {A} k (l : list A) x :
  (length l <= k)%nat -> (1 <= k)%nat ->
  latest k (l ++ [x]) = if decide (length l = k) then drop 1 l ++ [x] else l ++ [x].
Proof.
  intros Hl Hk. unfold latest. rewrite length_app. cbn [length]. case_decide as E.
  - rewrite E, Nat.add_comm, Nat.add_sub, drop_app_le by lia. done.
  - replace (length l + 1 - k)%nat with 0%nat by lia. done.
Qed.

Lemma store_holds b l len hl :
  holds b l ->
  exists b', store_ircbuffer len hl b = Some b' /\ holds b' (latest (Z.to_nat 255) (l ++ [level len hl])).
Proof.
  intros H. pose proof (holds_room _ _ H). rewrite latest_snoc by lia. case_decide as E.
  - destruct l as [|x l]; [cbn in E; lia|]. apply (store_full b x l len hl H). lia.
  - apply store_room; [done|lia].
Qed.

Definition store_all (ls : list (Z * Z)) (b : cbuf) : option cbuf :=
  foldl (fun ob p => b ← ob; store_ircbuffer p.1 p.2 b) (Some b) ls.

Definition level_of (p : Z * Z) : Z := level p.1 p.2.

Lemma latest_latest {A} k (l1 l2 : list A) : latest k (latest k l1 ++ l2) = latest k (l1 ++ l2).
Proof.
  unfold latest. rewrite !length_app, length_drop.
  destruct (decide (length l1 <= k)%nat).
  - replace (length l1 - k)%nat with 0%nat by lia. rewrite drop_0. f_equal. lia.
  - rewrite <- (drop_app_le l1 l2 (length l1 - k)) by lia. rewrite drop_drop. f_equal. lia.
Qed.

Lemma store_all_holds ls : forall b l,
  holds b l ->
  exists b', store_all ls b = Some b' /\ holds b' (latest (Z.to_nat 255) (l ++ (level_of <$> ls))).
Proof.
  induction ls as [|p ls IH]; intros b l H.
  - exists b. split; [done|]. pose proof (holds_room _ _ H). rewrite app_nil_r. unfold latest.
    now replace (length l - Z.to_nat 255)%nat with 0%nat by lia.
  - destruct (store_holds b l p.1 p.2 H) as (b' & E & H'). destruct (IH _ _ H') as (b2 & E2 & H2).
    exists b2. unfold store_all in *. cbn [foldl]. cbn [mbind option_bind]. rewrite E. split; [done|].
    rewrite latest_latest, <- app_assoc in H2. exact H2.
Qed.

(** The circular buffer of the interrupt handler is a queue that keeps
    the latest 255 levels: whatever is stored, no store fails, the levels come
    out in the order they went in, and only the oldest are lost. *)
Theorem ircbuffer_keeps_latest b l ls :
  holds b l ->
  exists b', store_all ls b = Some b' /\ holds b' (latest (Z.to_nat 255) (l ++ (level_of <$> ls))).
Proof. apply store_all_holds. Qed.

(** ** The decoder on the queue *)

Section Decode.
Variable reg : nat -> Z.
Variable t : protocol.

(** [read_loop] on the queue that the buffer stands for. *)
Fixpoint twins (n : nat) (l : list Z) (d : pulse) (iData rcv : Z) : list Z * pulse * Z * nat :=
  match l with
  | c :: ((h :: l'') as l') =>
      if negb (rcv =? NO_CODE) then (l, d, rcv, n)
      else if is_high c then twins n l' d iData rcv
      else let '(d, iData, rcv, n) := read_twin reg t n (len_of c) (len_of h) d iData rcv in
           twins n l'' d iData rcv
  | _ => (l, d, rcv, n)
  end.

Lemma twins_cons n c h l d iData rcv :
  twins n (c :: h :: l) d iData rcv =
  if negb (rcv =? NO_CODE) then (c :: h :: l, d, rcv, n)
  else if is_high c then twins n (h :: l) d iData rcv
  else let '(d, iData, rcv, n) := read_twin reg t n (len_of c) (len_of h) d iData rcv in twins n l d iData rcv.
Proof. done. Qed.

Lemma read_loop_twins fuel b l n d iData rcv :
  holds b l -> (length l < fuel)%nat ->
  exists b', holds b' (twins n l d iData rcv).1.1.1 /\
    read_loop reg t fuel n b d iData rcv =
    Some (b', (twins n l d iData rcv).1.1.2, (twins n l d iData rcv).1.2, (twins n l d iData rcv).2).
Proof.
  revert b l n d iData rcv. induction fuel as [|fuel IH]; intros b l n d iData rcv H Hf; [lia|].
  cbn [read_loop]. rewrite (has_two_spec b l H).
  destruct l as [|c [|h l]]; cbn [length Nat.leb andb]; [exists b; done..|].
  rewrite twins_cons. destruct (rcv =? NO_CODE) eqn:Er; cbn [negb]; [|exists b; done].
  apply holds_advance in H as [-> H]. cbn [mbind option_bind].
  destruct (is_high c) eqn:Eh; [apply IH; [done|cbn [length] in *; lia]|].
  apply holds_advance in H as [-> H]. cbn [mbind option_bind].
  destruct (read_twin _ _ _ _ _ _ _ _) as [[[d' iData'] rcv'] n']. apply IH; [done|cbn [length] in *; lia].
Qed.

(** The loop leaves at most one level, or stops at a code. *)
Lemma twins_rest n l d iData rcv :
  (length (twins n l d iData rcv).1.1.1 <= 1)%nat \/ (twins n l d iData rcv).1.2 <> NO_CODE.
Proof.
  revert n d iData rcv. induction l as [l IH] using (induction_ltof1 _ (@length Z)); unfold ltof in IH.
  intros n d iData rcv. destruct l as [|c [|h l]]; rewrite ?twins_cons; [left; cbn; lia..|].
  destruct (rcv =? NO_CODE) eqn:Er; cbn [negb]; [|right; bool_simpl; done].
  destruct (is_high c); [apply IH; cbn; lia|].
  destruct (read_twin _ _ _ _ _ _ _ _) as [[[d' iData'] rcv'] n']. apply IH; cbn; lia.
Qed.

Lemma read_hold_total b l d rcv :
  holds b l -> exists d' rcv' h, read_hold t b d rcv = Some (d', rcv', h).
Proof.
  intros H. destruct (cell_some b l H) as [c Hc]. unfold read_hold. rewrite Hc. cbn [mbind option_bind].
  repeat case_match; eauto.
Qed.

(** A call of the decoder returns, whatever the buffer holds and whatever
    the clock says; it never reads outside the buffer, and afterwards at most
    one level is left in it unless a code was decoded. *)
Theorem read_pulse_total b l d n :
  holds b l ->
  exists b' l' d' rcv h n', read_pulse reg t n b d = Some (b', d', rcv, h, n') /\ holds b' l' /\
    (length l' <= 1 \/ rcv <> NO_CODE)%nat.
Proof.
  intros H. unfold read_pulse.
  destruct (read_loop_twins loop_fuel b l n d 0 NO_CODE H) as (b' & Hb' & ->).
  { pose proof (holds_room _ _ H). unfold loop_fuel. lia. }
  cbn [mbind option_bind]. pose proof (twins_rest n l d 0 NO_CODE) as Hrest.
  destruct (twins n l d 0 NO_CODE) as [[[l' d'] rcv] n'] eqn:Et. cbn [fst snd] in *.
  unfold read_hold. destruct (cell_some b' l' Hb') as [c ->]. cbn [mbind option_bind].
  destruct (iPreamble_Maybe_HOLD d' && (iCode_Bit d' =? HOLD_BIT t) && negb (iPrevCode d' =? NO_CODE)) eqn:E1.
  - destruct (negb (is_high c) && (BURST_MIN_LEN t <? len_of c) && (len_of c <? BURST_MAX_LEN t)); cbn [mbind option_bind];
      destruct (frame_timeout _ _ _ _), (code_timeout _ _ _ _); do 6 eexists; (split; [reflexivity|split; [exact Hb'|]]);
      bool_simpl; tauto.
  - cbn [mbind option_bind]. destruct (frame_timeout _ _ _ _), (code_timeout _ _ _ _).
    do 6 eexists; (split; [reflexivity|split; [exact Hb'|]]); tauto.
Qed.

(** ** Frames *)

Definition twin (p : Z * Z) : Z := i32 (u32 (p.1 + p.2)).

(** What the length of a low and a high level means within a frame. *)
Definition bit_value (p : Z * Z) : option Z :=
  if (DATA_1_MIN_LEN t <? twin p) && (twin p <? DATA_1_MAX_LEN t) then Some 1
  else if (DATA_0_MIN_LEN t <? twin p) && (twin p <? DATA_0_MAX_LEN t) then Some 0
  else None.

(** The levels of pairs, as the interrupt handler stores them. *)
Definition flat (ps : list (Z * Z)) : list Z := ps ≫= (fun p => [level p.1 0; level p.2 1]).

Definition measured (p : Z * Z) : Prop := 0 <= p.1 < 2 ^ 31 /\ 0 <= p.2 < 2 ^ 31.

(** The bits of a code in the order of transmission, and the code the decoder
    builds from the bits that follow the [k] first. *)
Definition bits_of (c : Z) : list Z :=
  (fun i : nat => Z.b2z (Z.testbit c (bit_position t (Z.of_nat i)))) <$> seq 0 32.

Fixpoint build (k : nat) (acc : Z) (bs : list Z) : Z :=
  match bs with
  | [] => acc
  | b :: bs => build (S k) (u32 (acc + u32 (Z.shiftl b (bit_position t (Z.of_nat k))))) bs
  end.

Lemma len_of_level x h : 0 <= x < 2 ^ 31 -> 0 <= h <= 1 -> len_of (level x h) = x.
Proof.
  intros Hx Hh. unfold len_of, level. change 0x7fffffff with (Z.ones 31). rewrite !Z.land_ones by lia.
  rewrite (Z.mod_small x) by lia. apply Z.bits_inj'. intros i Hi. rewrite Z.testbit_mod_pow2 by lia.
  destruct (i <? 31) eqn:E; bool_simpl; cbn [andb].
  - rewrite Z.lor_spec. assert (Z.testbit (u32 (Z.shiftl h 31)) i = false) as ->; [|apply orb_false_r].
    unfold u32. rewrite Z.mod_pow2_bits_low by lia. rewrite Z.shiftl_spec by lia. apply Z.testbit_neg_r. lia.
  - symmetry. destruct (Z.eq_dec x 0) as [->|]; [apply Z.bits_0|].
    apply Z.bits_above_log2; [lia|]. apply (Z.lt_le_trans _ 31); [apply Z.log2_lt_pow2; lia|lia].
Qed.

Lemma low_level x : 0 <= x < 2 ^ 31 -> is_high (level x 0) = false.
Proof.
  intros Hx. unfold is_high, level. change (u32 (Z.shiftl 0 31)) with 0. rewrite Z.lor_0_r.
  change 0x7fffffff with (Z.ones 31). rewrite Z.land_ones, Z.mod_small by lia.
  apply negb_false_iff, Z.eqb_eq. apply Z.bits_inj'. intros i Hi. rewrite Z.land_spec, Z.bits_0.
  change 0x80000000 with (2 ^ 31). rewrite Z.pow2_bits_eqb by lia. destruct (31 =? i) eqn:E; [|apply andb_false_r].
  bool_simpl. subst i. rewrite andb_true_r. destruct (Z.eq_dec x 0) as [->|]; [apply Z.bits_0|].
  apply Z.bits_above_log2; [lia|]. apply Z.log2_lt_pow2; lia.
Qed.

Lemma twins_pair n p l d iData :
  measured p ->
  twins n (flat [p] ++ l) d iData NO_CODE =
  let '(d, iData, rcv, n) := read_twin reg t n p.1 p.2 d iData NO_CODE in twins n l d iData rcv.
Proof.
  intros [H1 H2]. unfold flat. cbn [mbind list_bind app]. rewrite twins_cons. change (NO_CODE =? NO_CODE) with true. cbn [negb].
  rewrite low_level, !len_of_level by lia. done.
Qed.

Lemma pairs_cons p ps : flat (p :: ps) = flat [p] ++ flat ps.
Proof. done. Qed.

Lemma pairs_app ps qs : flat (ps ++ qs) = flat ps ++ flat qs.
Proof. apply bind_app. Qed.

(** A decoder that has read the preamble and [k] bits, which make [acc]. *)
Record reading (k : nat) (acc : Z) (d : pulse) : Prop := mk_reading {
  reading_found : iPreamble_Found d = true;
  reading_bits : iCode_Bit d = Z.of_nat k;
  reading_code : iCode d = acc
}.

Definition with_bits (k : nat) (acc : Z) (d : pulse) : pulse :=
  mk_pulse (iPrevCode d) acc (Z.of_nat k) (iPreamble_Found d) (iPreamble_Maybe_HOLD d) (iPreamble_Time d).

Definition with_code (c : Z) (d : pulse) : pulse :=
  mk_pulse c 0 0 false (iPreamble_Maybe_HOLD d) (iPreamble_Time d).

Lemma read_bit n p b k acc d iData :
  reading k acc d -> bit_value p = Some b -> (k < 32)%nat ->
  let acc' := u32 (acc + u32 (Z.shiftl b (bit_position t (Z.of_nat k)))) in
  exists iData', read_twin reg t n p.1 p.2 d iData NO_CODE =
    (if decide (S k = 32)%nat then (with_code acc' d, iData', acc', n) else (with_bits (S k) acc' d, iData', NO_CODE, n)).
Proof.
  intros [Hf Hb Hc] Hv Hk acc'. unfold read_twin. fold (twin p). rewrite Hf. unfold bit_value in Hv.
  assert (Hadd : add_bit t b d = with_bits (S k) acc' d).
  { unfold add_bit, with_bits. rewrite Hb, Hc. rewrite (proj2 (Z.ltb_lt _ _)) by lia. f_equal. lia. }
  assert (Htake : take_code (with_bits (S k) acc' d) NO_CODE =
    if decide (S k = 32)%nat then (with_code acc' d, acc') else (with_bits (S k) acc' d, NO_CODE)).
  { unfold take_code. cbn [with_bits iCode_Bit]. case_decide as E.
    - rewrite E. done.
    - rewrite (proj2 (Z.eqb_neq _ _)) by lia. done. }
  exists b. destruct (_ && _)%bool in Hv |- *; simplify_eq.
  - rewrite Hadd, Htake. case_decide; done.
  - destruct (_ && _)%bool in Hv |- *; simplify_eq. rewrite Hadd, Htake. case_decide; done.
Qed.

Lemma twins_stop n l d iData rcv :
  (length l <= 1)%nat \/ rcv <> NO_CODE -> twins n l d iData rcv = (l, d, rcv, n).
Proof.
  intros H. destruct l as [|c [|h l]]; [done..|]. rewrite twins_cons. destruct H as [H|H]; [cbn in H; lia|].
  rewrite (proj2 (Z.eqb_neq _ _)) by done. done.
Qed.

(** The loop over the pairs of a frame, up to the code if they complete it. *)
Lemma twins_bits ps : forall bs k acc d n l iData,
  reading k acc d -> Forall measured ps -> bit_value <$> ps = Some <$> bs ->
  (length l <= 1)%nat \/ (bs <> [] /\ k + length bs = 32 /\ build k acc bs <> NO_CODE)%nat ->
  (k + length bs <= 32)%nat ->
  twins n (flat ps ++ l) d iData NO_CODE =
  if decide (bs <> [] /\ k + length bs = 32)%nat then (l, with_code (build k acc bs) d, build k acc bs, n)
  else (l, with_bits (k + length bs) (build k acc bs) d, NO_CODE, n).
Proof.
  induction ps as [|p ps IH]; intros bs k acc d n l iData Hr Hm Hv Hl Hk.
  - destruct bs; [|done]. cbn [flat mbind list_bind app build length] in *. rewrite decide_False by tauto.
    rewrite Nat.add_0_r. assert (with_bits k acc d = d) as ->.
    { destruct Hr, d; cbn in *; subst; done. }
    apply twins_stop. tauto.
  - destruct bs as [|b bs]; [done|]. apply Forall_cons_iff in Hm as [Hp Hm]. cbn [length build] in *.
    rewrite 2!fmap_cons in Hv. injection Hv as Hb Hv.
    rewrite pairs_cons, <- app_assoc, twins_pair by done.
    destruct (read_bit n p b k acc d iData Hr Hb ltac:(lia)) as [iData' ->].
    set (acc' := u32 _) in *. case_decide as E.
    + destruct bs; [|cbn [length] in Hk; lia]. destruct ps; [|done]. cbn [build length flat mbind list_bind app] in *.
      rewrite decide_True by (split; [done|lia]). apply twins_stop. tauto.
    + rewrite (IH bs (S k) acc'); [|split; try done; apply Hr|done|done| |lia].
      2:{ destruct Hl as [|(_ & Hlen & Hc)]; [now left|right]. split_and!; [|lia|done]. intros ->. cbn in Hlen. lia. }
      cbn [with_bits iPrevCode iPreamble_Found]. destruct bs as [|b2 bs]; cbn [length build] in *.
      * rewrite !decide_False by (tauto || lia). rewrite Nat.add_0_r, Nat.add_1_r. done.
      * destruct (decide (S k + S (length bs) = 32)%nat).
        -- rewrite !decide_True by (split; [done|lia]). done.
        -- rewrite !decide_False by lia. unfold with_bits. cbn. do 4 f_equal. f_equal. lia.
Qed.

(** ** The bits of a code put the code together *)

(** Every bit of the code has a place of its own. *)
Fixpoint places (m : Z) (ps : list Z) : bool :=
  match ps with
  | [] => m =? 0xffffffff
  | p :: ps => (0 <=? p) && (p <? 32) && negb (Z.testbit m p) && places (Z.lor m (2 ^ p)) ps
  end.

Definition well_placed : bool := places 0 ((fun i : nat => bit_position t (Z.of_nat i)) <$> seq 0 32).

Lemma land_place c m p :
  0 <= p -> Z.testbit m p = false ->
  Z.land c m + Z.shiftl (Z.b2z (Z.testbit c p)) p = Z.land c (Z.lor m (2 ^ p)).
Proof.
  intros Hp Hm. rewrite Z.land_lor_distr_r.
  assert (Z.land c (2 ^ p) = Z.shiftl (Z.b2z (Z.testbit c p)) p) as ->.
  { apply Z.bits_inj'. intros i Hi. rewrite Z.land_spec, Z.shiftl_spec, Z.pow2_bits_eqb by lia.
    destruct (p =? i) eqn:E; bool_simpl.
    - subst. rewrite Z.sub_diag, Z.b2z_bit0, andb_true_r. done.
    - rewrite andb_false_r. symmetry. destruct (Z.testbit c p); [|apply Z.bits_0]. cbn [Z.b2z].
      change 1 with (2 ^ 0). rewrite Z.pow2_bits_eqb by lia. apply Z.eqb_neq. lia. }
  rewrite <- Z.lxor_lor; [apply Z.add_nocarry_lxor|]; apply Z.bits_inj'; intros i Hi;
    rewrite !Z.land_spec, Z.bits_0, Z.shiftl_spec by lia;
    (destruct (Z.eq_dec i p) as [->|]; [now rewrite Hm, andb_false_r|]);
    (destruct (Z.testbit c p); [|rewrite Z.bits_0; apply andb_false_r]); cbn [Z.b2z];
    change 1 with (2 ^ 0); rewrite Z.pow2_bits_eqb by lia; rewrite (proj2 (Z.eqb_neq _ _)) by lia; apply andb_false_r.
Qed.

Lemma land_u32 c m : is_u32 c -> is_u32 (Z.land c m).
Proof.
  intros Hc. rewrite <- (u32_id c Hc). unfold u32 at 1. rewrite <- Z.land_ones, <- Z.land_assoc, (Z.land_comm _ m) by lia.
  rewrite Z.land_assoc, Z.land_ones by lia. apply u32_range.
Qed.

Lemma build_places c ks : forall k m,
  is_u32 c -> places m ((fun i : nat => bit_position t (Z.of_nat i)) <$> seq k ks) = true ->
  build k (Z.land c m) ((fun i : nat => Z.b2z (Z.testbit c (bit_position t (Z.of_nat i)))) <$> seq k ks) = c.
Proof.
  induction ks as [|ks IH]; intros k m Hc Hp; cbn [seq] in *; rewrite ?fmap_cons in *; cbn [places build fmap list_fmap] in *.
  - bool_simpl. subst m. change 0xffffffff with (Z.ones 32). rewrite Z.land_ones by lia. apply Z.mod_small. exact Hc.
  - bool_simpl. set (p := bit_position t (Z.of_nat k)) in *.
    assert (Hs : is_u32 (Z.shiftl (Z.b2z (Z.testbit c p)) p)).
    { rewrite <- (Z.add_0_l (Z.shiftl _ _)). rewrite <- (Z.land_0_r c).
      rewrite land_place; [apply land_u32; done|lia|apply Z.bits_0]. }
    rewrite (u32_id (Z.shiftl _ _)) by done. rewrite land_place by done. rewrite u32_id by now apply land_u32.
    now apply IH.
Qed.

Lemma build_bits c : well_placed = true -> is_u32 c -> build 0 0 (bits_of c) = c.
Proof. intros Hw Hc. rewrite <- (Z.land_0_r c) at 1. now apply build_places. Qed.

(** ** Any interleaving of the interrupts and the polls *)

Inductive ir_event := Level (level_len high_low : Z) | Poll.

(** The codes the polls return, with whether each is a repeat. *)
Fixpoint ir_run (evs : list ir_event) (b : cbuf) (d : pulse) (n : nat) : option (cbuf * pulse * nat * list (Z * bool)) :=
  match evs with
  | [] => Some (b, d, n, [])
  | Level len hl :: evs => b ← store_ircbuffer len hl b; ir_run evs b d n
  | Poll :: evs =>
      '(b, d, rcv, h, n) ← read_pulse reg t n b d;
      '(b, d, n, codes) ← ir_run evs b d n;
      Some (b, d, n, if rcv =? NO_CODE then codes else (rcv, h) :: codes)
  end.

Fixpoint stored (evs : list ir_event) : list Z :=
  match evs with
  | [] => []
  | Level len hl :: evs => level len hl :: stored evs
  | Poll :: evs => stored evs
  end.

(** A prefix of the levels of some pairs is some pairs and at most one level. *)
Lemma flat_split ps : forall s fut, s ++ fut = flat ps ->
  exists qs rs tl, ps = qs ++ rs /\ s = flat qs ++ tl /\ tl ++ fut = flat rs /\ (length tl <= 1)%nat /\
    (fut = [] -> rs = [] /\ tl = []).
Proof.
  induction ps as [|p ps IH]; intros s fut E.
  - apply app_nil in E as [-> ->]. exists [], [], []. repeat split; auto.
  - rewrite pairs_cons in E. destruct s as [|x [|y s]].
    + exists [], (p :: ps), []. split_and!; [done..|cbn; lia|]. intros ->. done.
    + exists [], (p :: ps), [x]. split_and!; [done..|cbn; lia|]. intros ->. done.
    + cbn [flat mbind list_bind app] in E. injection E as -> -> E. destruct (IH s fut E) as (qs & rs & tl & -> & -> & E2 & Hl & Hf).
      exists (p :: qs), rs, tl. split_and!; done.
Qed.

(** The first [N] looks at the clock never show a frame as overdue. *)
Definition in_time (N : nat) : Prop :=
  forall i j, (i < j)%nat -> (j < N)%nat -> length_caculate (clock reg j) (clock reg i) <= FRAME_MAX_LEN t.

(** No repeat is looked for: the preamble was long, or the protocol looks for
    one after the first bit and there is nothing to repeat, or no bit. *)
Definition no_repeat (d : pulse) : Prop :=
  iPreamble_Maybe_HOLD d = false \/ (HOLD_BIT t <> 0 /\ (iPrevCode d = NO_CODE \/ iCode_Bit d = 0)).

Lemma no_hold b d rcv : no_repeat d -> read_hold t b d rcv = Some (d, rcv, false).
Proof.
  intros H. unfold read_hold. destruct H as [->|[Hh [->| ->]]]; [done|..].
  - change (NO_CODE =? NO_CODE) with true. rewrite andb_false_r. done.
  - rewrite (proj2 (Z.eqb_neq 0 _)) by auto. rewrite andb_false_r. done.
Qed.

Definition expired (d : pulse) : pulse :=
  mk_pulse NO_CODE (iCode d) (iCode_Bit d) (iPreamble_Found d) (iPreamble_Maybe_HOLD d) (iPreamble_Time d).

Lemma code_timeout_cases n d :
  exists n', (n <= n' <= S n)%nat /\ (code_timeout reg t n d = (d, n') \/
    code_timeout reg t n d = (expired d, n') /\ FRAME_CYCLE_MAX t < length_caculate (clock reg n) (iPreamble_Time d)).
Proof. unfold code_timeout. repeat case_match; bool_simpl; eexists; (split; [|eauto]); lia. Qed.

(** The preamble was read at an earlier look at the clock. *)
Definition timed (n : nat) (d : pulse) : Prop := exists i, (i < n)%nat /\ iPreamble_Time d = clock reg i.

Lemma frame_timeout_no N n d :
  in_time N -> (n < N)%nat -> iPreamble_Found d = false \/ timed n d ->
  exists n', (n <= n' <= S n)%nat /\ frame_timeout reg t n d = (d, n').
Proof.
  intros Ht HN Hd. unfold frame_timeout. destruct (iPreamble_Found d); [|exists n; split; [lia|done]].
  destruct Hd as [|(i & Hi & ->)]; [done|]. rewrite (proj2 (Z.ltb_ge _ _)) by now apply Ht. exists (S n). split; [lia|done].
Qed.

(** A poll while no repeat is looked for is the loop on the queue. *)
Lemma poll_queue N b s n d l' d' rcv n' :
  in_time N -> (n' + 2 <= N)%nat -> holds b s -> twins n s d 0 NO_CODE = (l', d', rcv, n') -> no_repeat d' ->
  iPreamble_Found d' = false \/ timed n' d' ->
  exists b' n2 d2, read_pulse reg t n b d = Some (b', d2, rcv, false, n2) /\ holds b' l' /\ (n' <= n2 <= n' + 2)%nat /\
    (d2 = d' \/ d2 = expired d') /\
    (FRAME_MAX_LEN t <= FRAME_CYCLE_MAX t -> timed n' d' -> d2 = d').
Proof.
  intros Ht HN Hb Et Hn Hf. unfold read_pulse.
  destruct (read_loop_twins loop_fuel b s n d 0 NO_CODE Hb) as (b' & Hb' & ->).
  { pose proof (holds_room _ _ Hb). unfold loop_fuel. lia. }
  rewrite Et in *. cbn [fst snd mbind option_bind] in *. rewrite no_hold by done. cbn [mbind option_bind].
  destruct (frame_timeout_no N n' d' Ht ltac:(lia) Hf) as (n1 & Hn1 & ->).
  destruct (code_timeout_cases n1 d') as (n2 & Hn2 & Hc).
  exists b', n2. destruct Hc as [->|[-> Hc]].
  - exists d'. split_and!; [done|done|lia|lia|auto|done].
  - exists (expired d'). split_and!; [done|done|lia|lia|auto|]. intros Hle (i & Hi & Hti). exfalso.
    pose proof (Ht i n1 ltac:(lia) ltac:(lia)) as Hlen. rewrite <- Hti in Hlen. lia.
Qed.

Lemma poll_code b s n d l' d' rcv n' :
  holds b s -> twins n s d 0 NO_CODE = (l', d', rcv, n') -> no_repeat d' ->
  exists b' d2 n2, read_pulse reg t n b d = Some (b', d2, rcv, false, n2).
Proof.
  intros Hb Et Hn. unfold read_pulse.
  destruct (read_loop_twins loop_fuel b s n d 0 NO_CODE Hb) as (b' & Hb' & ->).
  { pose proof (holds_room _ _ Hb). unfold loop_fuel. lia. }
  rewrite Et. cbn [fst snd mbind option_bind]. rewrite no_hold by done. cbn [mbind option_bind].
  destruct (frame_timeout _ _ _ _), (code_timeout _ _ _ _). eauto.
Qed.

(** A poll that ends outside a frame. *)
Lemma poll_outside b s n d l' d' rcv n' :
  holds b s -> twins n s d 0 NO_CODE = (l', d', rcv, n') -> no_repeat d' -> iPreamble_Found d' = false ->
  exists b', read_pulse reg t n b d = Some (b', (code_timeout reg t n' d').1, rcv, false, (code_timeout reg t n' d').2) /\ holds b' l'.
Proof.
  intros Hb Et Hn Hf. unfold read_pulse.
  destruct (read_loop_twins loop_fuel b s n d 0 NO_CODE Hb) as (b' & Hb' & ->).
  { pose proof (holds_room _ _ Hb). unfold loop_fuel. lia. }
  rewrite Et in *. cbn [fst snd mbind option_bind] in *. rewrite no_hold by done. cbn [mbind option_bind].
  unfold frame_timeout. rewrite Hf. exists b'. destruct (code_timeout _ _ _ _). done.
Qed.

(** A poll that ends on a burst where a repeat is looked for. *)
Lemma poll_repeat b s n d d' n' burst c :
  holds b s -> twins n s d 0 NO_CODE = ([level burst 0], d', NO_CODE, n') ->
  iPreamble_Maybe_HOLD d' = true -> iCode_Bit d' = HOLD_BIT t -> iPrevCode d' = c -> c <> NO_CODE ->
  0 <= burst < 2 ^ 31 -> BURST_MIN_LEN t < burst < BURST_MAX_LEN t ->
  exists b' d2 n2, read_pulse reg t n b d = Some (b', d2, c, true, n2) /\ holds b' [level burst 0] /\
    iPreamble_Found d2 = false /\ iPreamble_Maybe_HOLD d2 = false.
Proof.
  intros Hb Et Hm Hbit Hp Hc Hr Hbu. unfold read_pulse.
  destruct (read_loop_twins loop_fuel b s n d 0 NO_CODE Hb) as (b' & Hb' & ->).
  { pose proof (holds_room _ _ Hb). unfold loop_fuel. lia. }
  rewrite Et in *. cbn [fst snd mbind option_bind] in *. pose proof (holds_advance _ _ _ Hb') as [Hcell _].
  unfold read_hold. rewrite Hm, Hbit, Z.eqb_refl, Hp, (proj2 (Z.eqb_neq _ _) Hc), Hcell. cbn [negb andb mbind option_bind].
  rewrite low_level, len_of_level, !(proj2 (Z.ltb_lt _ _)) by lia. cbn [negb andb mbind option_bind].
  unfold frame_timeout. cbn [reset_frame iPreamble_Found]. unfold code_timeout. cbn [iPrevCode reset_frame].
  rewrite Hp, (proj2 (Z.eqb_neq _ _) Hc). cbn [negb]. case_match; exists b'; eexists _, _; done.
Qed.

Lemma timed_mono n n' d : (n <= n')%nat -> timed n d -> timed n' d.
Proof. intros H (i & Hi & E). exists i. split; [lia|done]. Qed.

Lemma build_app bs1 : forall bs2 k acc, build k acc (bs1 ++ bs2) = build (k + length bs1) (build k acc bs1) bs2.
Proof.
  induction bs1 as [|b bs1 IH]; intros bs2 k acc; cbn [app build length]; [now rewrite Nat.add_0_r|].
  rewrite IH. f_equal. lia.
Qed.

(** The rest of a run after the code: polls of an empty buffer. *)
Definition settled (c : Z) (n : nat) (d : pulse) : Prop :=
  iPreamble_Found d = false /\ iCode_Bit d = 0 /\ iPrevCode d = c /\ timed n d /\ no_repeat d.

Variable N : nat.
Hypothesis Htime : in_time N.
Hypothesis Hcycle : FRAME_MAX_LEN t <= FRAME_CYCLE_MAX t.

Fixpoint polls (evs : list ir_event) : nat :=
  match evs with
  | [] => 0
  | Level _ _ :: evs => polls evs
  | Poll :: evs => S (polls evs)
  end.

Lemma run_settled evs : forall b d n c,
  (n + 2 * polls evs <= N)%nat -> stored evs = [] -> holds b [] -> settled c n d ->
  exists b' d' n', ir_run evs b d n = Some (b', d', n', []) /\ holds b' [] /\ settled c n' d' /\
    iPreamble_Maybe_HOLD d' = iPreamble_Maybe_HOLD d.
Proof.
  induction evs as [|[len hl|] evs IH]; intros b d n c HN Hs Hb Hd; [exists b, d, n; done|done|].
  cbn [polls] in HN.
  destruct Hd as (Hf & Hbit & Hp & Hti & Hn). cbn [ir_run].
  destruct (poll_queue N b [] n d [] d NO_CODE n Htime ltac:(lia) Hb eq_refl Hn (or_introl Hf)) as (b' & n2 & d2 & -> & Hb' & Hn2 & _ & Heq).
  rewrite (Heq Hcycle Hti). cbn [mbind option_bind].
  destruct (IH b' d n2 c ltac:(lia) Hs Hb') as (b3 & d3 & n3 & E & ?).
  { split_and!; [done..|eapply timed_mono; [|eassumption]; lia|done]. }
  rewrite E. cbn. exists b3, d3, n3. tauto.
Qed.

(** What a run that has read the preamble and [k] bits makes of the rest. *)
Definition decodes (c : Z) (h : bool) (r : option (cbuf * pulse * nat * list (Z * bool))) : Prop :=
  exists b' d' n', r = Some (b', d', n', [(c, false)]) /\ holds b' [] /\ settled c n' d' /\ iPreamble_Maybe_HOLD d' = h.

Definition quiet (d : pulse) : Prop :=
  iPreamble_Maybe_HOLD d = false \/ (HOLD_BIT t <> 0 /\ iPrevCode d = NO_CODE).

Lemma quiet_no_repeat d : quiet d -> no_repeat d.
Proof. unfold quiet, no_repeat. tauto. Qed.

(** In the middle of the frame of [c]: the levels [fut] are still to come. *)
Inductive midframe (c : Z) (h : bool) (fut s : list Z) (d : pulse) (n : nat) : Prop :=
| mk_midframe k acc bs ps :
    s ++ fut = flat ps -> Forall measured ps -> bit_value <$> ps = Some <$> bs ->
    bs <> [] -> (k + length bs = 32)%nat -> build k acc bs = c -> reading k acc d ->
    timed n d -> quiet d -> iPreamble_Maybe_HOLD d = h -> midframe c h fut s d n.

Lemma with_bits_reading k acc d k' acc' : reading k acc d -> reading k' acc' (with_bits k' acc' d).
Proof. intros [Hf _ _]. now split. Qed.

Lemma quiet_expired d : quiet d -> quiet (expired d).
Proof. unfold quiet, expired. cbn. tauto. Qed.

Lemma quiet_with_bits k acc d : quiet d -> quiet (with_bits k acc d).
Proof. done. Qed.

Lemma quiet_code c d : quiet d -> no_repeat (with_code c d).
Proof. unfold quiet, no_repeat, with_code. cbn. tauto. Qed.

(** A poll in the middle of a frame completes the code or stays in the frame. *)
Lemma poll_midframe c h fut b s0 d0 n0 s d n :
  (n + 2 <= N)%nat -> c <> NO_CODE -> holds b s0 -> twins n0 s0 d0 0 NO_CODE = twins n s d 0 NO_CODE -> midframe c h fut s d n ->
  exists b' d' n', (n <= n' <= n + 2)%nat /\
    ((read_pulse reg t n0 b d0 = Some (b', d', c, false, n') /\ fut = [] /\ holds b' [] /\ settled c n' d' /\
      iPreamble_Maybe_HOLD d' = h) \/
     (exists s', read_pulse reg t n0 b d0 = Some (b', d', NO_CODE, false, n') /\ fut <> [] /\ holds b' s' /\
      midframe c h fut s' d' n')).
Proof.
  intros HN Hc Hb Et [k acc bs ps Hl Hm Hv Hbs Hk Hcode Hr Hti Hq Hh].
  destruct (flat_split ps s fut Hl) as (qs & rs & tl & -> & -> & Hfut & Htl & Hdone).
  apply Forall_app in Hm as [Hmq Hmr]. rewrite fmap_app in Hv. symmetry in Hv.
  apply fmap_app_inv in Hv as (bq & br & Hvq & Hvr & ->). rewrite build_app in Hcode. rewrite length_app in Hk.
  destruct rs as [|r rs].
  - destruct br; [|done]. cbn [length build] in *. destruct tl; [|done]. cbn [app] in Hfut. subst fut.
    rewrite (twins_bits qs bq k acc d n [] 0) in Et by (done || lia || now left).
    rewrite app_nil_r in *. rewrite decide_True in Et by (split; [done|lia]).
    destruct (poll_queue N b s0 n0 d0 _ _ _ _ Htime HN Hb Et) as (b' & n2 & d2 & E & Hb' & Hn2 & _ & Heq).
    { now apply quiet_code. } { now left. }
    rewrite (Heq Hcycle) in E by done. rewrite Hcode in E. exists b', (with_code c d), n2. split; [done|]. left.
    split_and!; [done|done|done| |done]. split_and!; [done..| |now apply quiet_code].
    eapply timed_mono; [|exact Hti]. lia.
  - destruct br as [|b1 br]; [done|].
    assert (Hfe : fut <> []) by (intros ->; destruct (Hdone eq_refl); done).
    cbn [length] in Hk. rewrite (twins_bits qs bq k acc d n tl 0) in Et by (done || lia || now left).
    rewrite decide_False in Et by lia. set (k1 := (k + length bq)%nat) in *.
    destruct (poll_queue N b s0 n0 d0 _ _ _ _ Htime HN Hb Et) as (b' & n2 & d2 & E & Hb' & Hn2 & _ & Heq).
    { now apply quiet_no_repeat. } { now right. }
    rewrite (Heq Hcycle) in E by done. exists b', (with_bits k1 (build k acc bq) d), n2. split; [done|]. right.
    exists tl. split_and!; [done..|].
    apply (mk_midframe c h fut tl _ n2 k1 (build k acc bq) (b1 :: br) (r :: rs)); try done.
    + cbn [length]. lia.
    + eapply with_bits_reading, Hr.
    + eapply timed_mono; [|exact Hti]. lia.
Qed.

Lemma length_flat ps : length (flat ps) = (2 * length ps)%nat.
Proof. induction ps as [|p ps IH]; [done|]. rewrite pairs_cons, length_app, IH. cbn. lia. Qed.

Lemma store_pending b s x len hl fut ps :
  holds b s -> s ++ level len hl :: fut = flat ps -> (length ps <= 33)%nat -> x = level len hl ->
  exists b', store_ircbuffer len hl b = Some b' /\ holds b' (s ++ [x]).
Proof.
  intros Hb E Hl ->. apply store_room; [done|]. apply (f_equal length) in E.
  rewrite length_app, length_flat in E. cbn [length] in E. lia.
Qed.

Lemma stored_poll evs : stored (evs ++ [Poll]) = stored evs.
Proof. induction evs as [|[] evs IH]; cbn; [done|now rewrite IH|done]. Qed.

Lemma decodes_code evs b d n b' d' n' c h :
  (n' + 2 * polls evs <= N)%nat ->
  c <> NO_CODE -> read_pulse reg t n b d = Some (b', d', c, false, n') -> stored evs = [] ->
  holds b' [] -> settled c n' d' -> iPreamble_Maybe_HOLD d' = h -> decodes c h (ir_run (Poll :: evs) b d n).
Proof.
  intros HN Hc E Hf Hb Hs Hh. cbn [ir_run]. rewrite E. cbn [mbind option_bind].
  destruct (run_settled evs b' d' n' c HN Hf Hb Hs) as (b3 & d3 & n3 & -> & Hb3 & Hs3 & Hh3).
  cbn [mbind option_bind]. rewrite (proj2 (Z.eqb_neq _ _)) by done. exists b3, d3, n3. split_and!; [done..|congruence].
Qed.

Lemma decodes_wait evs b d n b' d' n' c h :
  read_pulse reg t n b d = Some (b', d', NO_CODE, false, n') -> decodes c h (ir_run evs b' d' n') ->
  decodes c h (ir_run (Poll :: evs) b d n).
Proof.
  intros E (b3 & d3 & n3 & E3 & ?). cbn [ir_run]. rewrite E. cbn [mbind option_bind]. rewrite E3. exists b3, d3, n3. done.
Qed.

Lemma polls_poll evs : polls (evs ++ [Poll]) = S (polls evs).
Proof. induction evs as [|[] evs IH]; cbn; auto. Qed.

Lemma run_midframe evs c h : forall b s d n,
  (n + 2 * S (polls evs) <= N)%nat -> c <> NO_CODE -> holds b s -> midframe c h (stored evs) s d n -> decodes c h (ir_run (evs ++ [Poll]) b d n).
Proof.
  induction evs as [|[len hl|] evs IH]; intros b s d n HN Hc Hb Hm; cbn [polls] in HN.
  - destruct (poll_midframe c h [] b s d n s d n ltac:(lia) Hc Hb eq_refl Hm) as (b' & d' & n' & Hn' & [(E & _ & Hb' & Hs & Hh)|(? & _ & ? & _)]); [|done].
    apply (decodes_code [] b d n b' d' n'); [cbn [polls]; lia|done..].
  - destruct Hm as [k acc bs ps Hl Hm Hv Hne Hk Hcode Hr Hti Hq Hh]. cbn [stored] in Hl.
    assert (length ps = length bs) by (apply (f_equal length) in Hv; now rewrite !length_fmap in Hv).
    destruct (store_pending b s _ len hl _ ps Hb Hl ltac:(lia) eq_refl) as (b' & E & Hb').
    cbn [app ir_run]. rewrite E. cbn [mbind option_bind]. apply (IH b' (s ++ [level len hl]) d n HN Hc Hb').
    apply (mk_midframe c h _ _ d n k acc bs ps); try done. rewrite <- app_assoc. done.
  - destruct (poll_midframe c h (stored evs) b s d n s d n ltac:(lia) Hc Hb eq_refl Hm)
      as (b' & d' & n' & Hn' & [(E & Hf & Hb' & Hs & Hh)|(s' & E & _ & Hb' & Hm')]).
    + apply (decodes_code _ b d n b' d' n' c h); rewrite ?polls_poll, ?stored_poll; try done. lia.
    + apply (decodes_wait _ b d n b' d' n' c h E). apply (IH b' s'); try done. lia.
Qed.

Lemma read_preamble n p d iData :
  iPreamble_Found d = false -> is_preamble t p.1 (twin p) = true ->
  read_twin reg t n p.1 p.2 d iData NO_CODE = (start_frame t (twin p) (clock reg n) d, iData, NO_CODE, S n).
Proof. intros Hf Hp. unfold read_twin. fold (twin p). rewrite Hf, Hp. done. Qed.

(** The frame of the code [c]: a preamble and the 32 bits of [c]. *)
Record frame (c : Z) (p : Z * Z) (ps : list (Z * Z)) : Prop := mk_frame {
  frame_code : is_u32 c;
  frame_real : c <> NO_CODE;
  frame_measured : Forall measured (p :: ps);
  frame_preamble : is_preamble t p.1 (twin p) = true;
  frame_bits : bit_value <$> ps = Some <$> bits_of c
}.

(** Waiting for a frame, with nothing that would be taken for a repeat. *)
Definition waiting (p : Z * Z) (d : pulse) : Prop :=
  iPreamble_Found d = false /\ quiet d /\ (PREAMB_HOLD_MAX t <= twin p \/ (HOLD_BIT t <> 0 /\ iPrevCode d = NO_CODE)).

Lemma start_midframe c p ps s fut d n :
  well_placed = true -> frame c p ps -> waiting p d -> s ++ fut = flat ps ->
  midframe c (twin p <? PREAMB_HOLD_MAX t) fut s (start_frame t (twin p) (clock reg n) d) (S n).
Proof.
  intros Hw [Hc _ Hm Hp Hb] (Hf & Hq & Hh) Hl. apply Forall_cons_iff in Hm as [_ Hm].
  apply (mk_midframe c _ fut s _ (S n) 0 0 (bits_of c) ps); try done.
  - now apply build_bits.
  - exists n. split; [lia|done].
  - destruct Hh as [Hh|[Hh Hn]]; [left|right; done]. apply Z.ltb_ge. done.
Qed.

(** The poll that finds the preamble in the buffer. *)
Lemma run_started evs c p ps b s d n :
  (S n + 2 * S (polls evs) <= N)%nat ->
  well_placed = true -> frame c p ps -> holds b (flat [p] ++ s) -> s ++ stored evs = flat ps -> waiting p d ->
  ((S n + 2 * S (S (polls evs)) <= N)%nat -> decodes c (twin p <? PREAMB_HOLD_MAX t) (ir_run (Poll :: evs ++ [Poll]) b d n)) /\
  (stored evs = [] -> decodes c (twin p <? PREAMB_HOLD_MAX t) (ir_run (Poll :: evs) b d n)).
Proof.
  intros HN Hw Hfr Hb Hl Hd. pose proof (frame_real _ _ _ Hfr) as Hc.
  pose proof (frame_measured _ _ _ Hfr) as Hm. apply Forall_cons_iff in Hm as [Hmp _].
  destruct (poll_midframe c (twin p <? PREAMB_HOLD_MAX t) (stored evs) b _ d n s (start_frame t (twin p) (clock reg n) d) (S n) ltac:(lia) Hc Hb)
    as (b' & d' & n' & Hn' & [(E & Hf & Hb' & Hs & Hh)|(s' & E & Hf & Hb' & Hm')]).
  - rewrite twins_pair, read_preamble by (done || apply Hd || apply Hfr). done.
  - eapply start_midframe; done.
  - split; [intros HN2|intros _]; apply (decodes_code _ b d n b' d' n'); rewrite ?polls_poll, ?stored_poll; try done; lia.
  - split; [intros HN2|done]. apply (decodes_wait _ b d n b' d' n' _ _ E). apply (run_midframe evs c _ b' s'); try done. lia.
Qed.

(** A poll before the preamble is there changes nothing but the previous code,
    which may expire; one after it starts the frame. *)
Lemma run_waiting evs c p ps : forall b s d n,
  (S n + 2 * S (polls evs) <= N)%nat ->
  well_placed = true -> frame c p ps -> holds b s -> s ++ stored evs = flat (p :: ps) -> waiting p d ->
  decodes c (twin p <? PREAMB_HOLD_MAX t) (ir_run (evs ++ [Poll]) b d n).
Proof.
  intros b s d n HN Hw Hfr. revert HN.
  assert (Hlen : length (p :: ps) = 33%nat).
  { pose proof (f_equal length (frame_bits _ _ _ Hfr)) as H. unfold bits_of in H. rewrite !length_fmap, length_seq in H. cbn [length]. lia. }
  revert b s d n. induction evs as [|[len hl|] evs IH]; intros b s d n HN Hb Hl Hd; cbn [polls] in HN.
  - cbn [stored] in Hl. rewrite app_nil_r in Hl. subst s. rewrite pairs_cons in Hb.
    apply (run_started [] c p ps b (flat ps) d n); [done..|apply app_nil_r|done|done].
  - cbn [stored] in Hl. destruct (store_pending b s _ len hl _ _ Hb Hl ltac:(lia) eq_refl) as (b' & E & Hb').
    cbn [app ir_run]. rewrite E. cbn [mbind option_bind]. apply (IH b' (s ++ [level len hl]) d n HN Hb'); [|done].
    rewrite <- app_assoc. done.
  - cbn [stored] in Hl. destruct (decide (length s <= 1)%nat) as [Hs|Hs].
    + destruct (poll_queue N b s n d s d NO_CODE n Htime ltac:(lia) Hb) as (b' & n2 & d2 & E & Hb' & Hn2 & Hd2 & _);
        [now apply twins_stop; left|apply quiet_no_repeat, Hd|left; apply Hd|].
      apply (decodes_wait _ b d n b' d2 n2 _ _ E). apply (IH b' s d2 n2 ltac:(lia) Hb' Hl). destruct Hd2 as [->| ->]; [done|].
      destruct Hd as (? & ? & ?). split; [done|split; [now apply quiet_expired|cbn; tauto]].
    + destruct s as [|x [|y s]]; [cbn in Hs; lia..|]. rewrite pairs_cons in Hl.
      cbn [flat mbind list_bind app] in Hl. injection Hl as -> -> Hl. apply (run_started evs c p ps b s d n); (done || lia).
Qed.

End Decode.

(** ** The protocols *)

Definition supported (t : protocol) : Prop := t = nec \/ t = tc9012.

Lemma supported_placed t : supported t -> well_placed t = true.
Proof. intros [->| ->]; vm_compute; reflexivity. Qed.

Lemma supported_cycle t : supported t -> FRAME_MAX_LEN t <= FRAME_CYCLE_MAX t.
Proof. intros [->| ->]; vm_compute; discriminate. Qed.

(** C23: a frame of the code [c] - a preamble and the bits of [c], each pair of
    levels within the tolerances of the protocol - is decoded to [c], once and
    not as a repeat, however the interrupts that store its levels and the polls
    of the task interleave, wherever in the ring the frame lies, provided a poll
    comes last and the clock shows no look at it later than FRAME_MAX_LEN after
    another.  The preamble must be too long for that of a repeat, or, as every TC9012
    preamble is short, no code may be remembered that could be repeated
    ([tc9012_frame_taken_for_repeat]).  The buffer is then empty and [c] is what a repeat would repeat. *)
Theorem ir_frame_decoded reg t c p ps evs b d n :
  supported t -> frame t c p ps -> holds b [] -> waiting t p d -> stored evs = flat (p :: ps) ->
  in_time reg t (S n + 2 * S (polls evs)) ->
  exists b' d' n', ir_run reg t (evs ++ [Poll]) b d n = Some (b', d', n', [(c, false)]) /\
    holds b' [] /\ iPrevCode d' = c /\ iPreamble_Found d' = false /\ iPreamble_Maybe_HOLD d' = (twin p <? PREAMB_HOLD_MAX t).
Proof.
  intros Ht Hfr Hb Hd Hs Htime.
  destruct (run_waiting reg t _ Htime (supported_cycle t Ht) evs c p ps b [] d n) as (b' & d' & n' & E & Hb' & Hset & Hh);
    try done; [now apply supported_placed|].
  destruct Hset as (? & ? & ? & ? & ?). exists b', d', n'. done.
Qed.

(** The time between two looks at the clock, which counts up to one second. *)
Definition PERIOD : Z := INT_MS * 1000 * SM_SYSTEM_HZ.

(** Length_caculate gives the time that passed between two readings of
    the clock, across its wrap-around, for every time from one tick to a whole
    period; no time at all counts as a whole period. *)
Theorem length_caculate_exact t0 e :
  0 <= t0 < PERIOD -> 0 <= e <= PERIOD ->
  length_caculate ((t0 + e) mod PERIOD) t0 = if e =? 0 then PERIOD else e.
Proof.
  intros Ht He. assert (HP : PERIOD = 25000000) by reflexivity.
  rewrite mod_cases by lia. unfold length_caculate. change (INT_MS * 1000 * SM_SYSTEM_HZ) with PERIOD.
  destruct (t0 + e <? PERIOD) eqn:E1, (e =? 0) eqn:E2; bool_simpl;
    match goal with |- context [t0 <? ?x] => destruct (t0 <? x) eqn:E3 end; bool_simpl; try lia;
    rewrite u32_id by (unfold is_u32; lia); lia.
Qed.

(** The interrupt handler returns at its first look at the clock when the
    counter is within its period, arms the other edge, and appends the time
    since the last edge with the level that ended to the buffer. *)
Theorem mv_sm_ir_isr_spec reg fuel n i b l :
  holds b l -> 0 <= reg n <= PERIOD -> 0 <= iPrev_ticks i <= PERIOD ->
  ir_current_set_rise i = 0 \/ ir_current_set_rise i = 1 ->
  let now := PERIOD - reg n in
  let rise := 1 - ir_current_set_rise i in
  let x := level (if iPrev_ticks i <? now then now - iPrev_ticks i else now - iPrev_ticks i + PERIOD) rise in
  exists b', mv_sm_ir_isr reg (S fuel) n i b = Some (mk_isr now rise, b', S n) /\
    holds b' (latest (Z.to_nat 255) (l ++ [x])).
Proof.
  intros Hb Hr Hi Hs now rise x. assert (HP : PERIOD = 25000000) by reflexivity.
  assert (Hc : clock reg n = now).
  { unfold clock, sm_apb_timer_readclock. change (SM_SYSTEM_HZ * 1000 * 1000) with PERIOD.
    rewrite (u32_id (PERIOD - reg n)), i32_id, u32_id; unfold is_u32, is_i32; lia. }
  unfold mv_sm_ir_isr. cbn [isr_ticks]. change (INT_MS * 1000 * SM_SYSTEM_HZ) with PERIOD.
  rewrite Hc, (proj2 (Z.leb_le _ _)) by lia. cbn [mbind option_bind].
  replace (Z.lxor (ir_current_set_rise i) 1) with rise by (unfold rise; destruct Hs as [->| ->]; reflexivity).
  assert (El : u32 (i32 (length_caculate now (iPrev_ticks i))) =
    if iPrev_ticks i <? now then now - iPrev_ticks i else now - iPrev_ticks i + PERIOD).
  { unfold length_caculate. change (INT_MS * 1000 * SM_SYSTEM_HZ) with PERIOD.
    destruct (iPrev_ticks i <? now) eqn:E; bool_simpl;
      [rewrite (u32_id (now - iPrev_ticks i))|rewrite (u32_id (now - iPrev_ticks i + PERIOD))]; rewrite ?i32_id, ?u32_id;
      unfold is_u32, is_i32; lia. }
  rewrite El. unfold x. set (len := if _ <? _ then _ else _). destruct (store_holds b l len rise Hb) as (b' & -> & Hb'). cbn [mbind option_bind].
  exists b'. done.
Qed.

(** ** Repeats and false repeats *)

(** A repeat frame - a short preamble and a burst - polled with the whole
    of it in the buffer gives the previous code again, as a repeat, and leaves
    the burst in the buffer, where the next poll finds no preamble in it. *)
Theorem nec_repeat_decoded reg c p burst b d n :
  c <> NO_CODE -> iPrevCode d = c -> iPreamble_Found d = false ->
  measured p -> is_preamble nec p.1 (twin p) = true -> twin p < PREAMB_HOLD_MAX nec ->
  BURST_MIN_LEN nec < burst < BURST_MAX_LEN nec ->
  holds b (flat [p] ++ [level burst 0]) ->
  exists b' d' n', read_nec reg n b d = Some (b', d', c, true, n') /\ holds b' [level burst 0] /\
    iPreamble_Found d' = false /\ iPreamble_Maybe_HOLD d' = false.
Proof.
  intros Hc Hp Hf Hm Hpre Hs Hbu Hb.
  assert (Hbr : 0 <= burst < 2 ^ 31).
  { change (BURST_MIN_LEN nec) with 12500 in Hbu. change (BURST_MAX_LEN nec) with 17500 in Hbu. lia. }
  apply (poll_repeat reg nec b _ n d (start_frame nec (twin p) (clock reg n) d) (S n) burst c Hb); try done.
  - rewrite twins_pair, read_preamble by done. rewrite twins_stop by (left; cbn; lia). done.
  - now apply Z.ltb_lt.
Qed.

Lemma read_second_preamble reg t n p d iData :
  iPreamble_Found d = true -> bit_value t p = None -> is_preamble t p.1 (twin p) = true ->
  read_twin reg t n p.1 p.2 d iData NO_CODE =
  (add_bit t iData (start_frame t (twin p) (clock reg n) d), iData, NO_CODE, S n).
Proof.
  intros Hf Hv Hp. unfold read_twin. fold (twin p). rewrite Hf, Hp. unfold bit_value in Hv.
  destruct ((DATA_1_MIN_LEN t <? twin p) && (twin p <? DATA_1_MAX_LEN t)); [done|].
  destruct ((DATA_0_MIN_LEN t <? twin p) && (twin p <? DATA_0_MAX_LEN t)); [done|]. done.
Qed.

(** The bits of the doubled code: a 0 and all bits but the last. *)
Lemma nec_bits_shift c : bits_of nec (u32 (2 * c)) = 0 :: take 31 (bits_of nec c).
Proof.
  unfold bits_of. cbn [nec bit_position]. rewrite <- fmap_take. change (take 31 (seq 0 32)) with (seq 0 31).
  change (seq 0 32) with (0%nat :: seq 1 31). rewrite fmap_cons. rewrite <- (fmap_S_seq 0 31), <- list_fmap_compose.
  f_equal.
  - unfold u32. rewrite Z.mod_pow2_bits_low by lia. change (Z.of_nat 0) with 0. now rewrite Z.testbit_even_0.
  - apply list_fmap_ext. intros i x Hx. apply lookup_seq in Hx as [-> Hi]. unfold compose, u32.
    rewrite Z.mod_pow2_bits_low by lia. rewrite Nat2Z.inj_succ. f_equal. now rewrite Z.testbit_even_succ by lia.
Qed.

Lemma nec_build_shift c : build nec 1 0 (take 31 (bits_of nec c)) = u32 (2 * c).
Proof.
  transitivity (build nec 0 0 (bits_of nec (u32 (2 * c)))).
  2:{ apply build_bits; [apply (supported_placed nec); now left|apply u32_range]. }
  rewrite nec_bits_shift. generalize (take 31 (bits_of nec c)). intros l. cbn [build].
  change (u32 (0 + u32 (Z.shiftl 0 (bit_position nec (Z.of_nat 0))))) with 0. reflexivity.
Qed.

Lemma nec_preamble_no_bit p : is_preamble nec p.1 (twin p) = true -> bit_value nec p = None.
Proof.
  unfold is_preamble, bit_value. intros Hp. bool_simpl.
  change (PREAMB_MIN_LEN nec) with 250000 in *. change (DATA_1_MAX_LEN nec) with 100000. change (DATA_0_MAX_LEN nec) with 30000.
  rewrite !(proj2 (Z.ltb_ge (twin p) _)) by lia. rewrite !andb_false_r. done.
Qed.

(** A second preamble before the bits of a frame is counted as a bit of
    it: the decoder takes the first 31 bits of the code after a stray 0, and
    returns the code shifted by one.  (The branch for a preamble within a frame
    falls through to the statements that add a bit.) *)
Theorem nec_second_preamble_shifts reg c p p2 ps b d n :
  frame nec c p ps -> measured p2 -> is_preamble nec p2.1 (twin p2) = true ->
  PREAMB_HOLD_MAX nec <= twin p -> u32 (2 * c) <> NO_CODE -> iPreamble_Found d = false ->
  holds b (flat (p2 :: p :: ps)) ->
  exists b' d' n', read_nec reg n b d = Some (b', d', u32 (2 * c), false, n').
Proof.
  intros Hfr Hm2 Hp2 Hlong Hc Hf Hb. pose proof Hfr as [Hcu _ Hm Hp Hbits].
  apply Forall_cons_iff in Hm as [Hmp Hm].
  set (d1 := add_bit nec 0 (start_frame nec (twin p) (clock reg (S n)) (start_frame nec (twin p2) (clock reg n) d))).
  assert (Et : twins reg nec n (flat (p2 :: p :: ps)) d 0 NO_CODE = twins reg nec (S (S n)) (flat ps) d1 0 NO_CODE).
  { rewrite !(pairs_cons _ (_ :: _)), (pairs_cons p ps). rewrite twins_pair, read_preamble by done.
    rewrite twins_pair, read_second_preamble; [done| | |done|done]; [done|].
    now apply (nec_preamble_no_bit p). }
  assert (Hlen : length ps = 32%nat).
  { apply (f_equal length) in Hbits. unfold bits_of in Hbits. rewrite !length_fmap, length_seq in Hbits. done. }
  pose proof (nec_build_shift c) as Hbuild.
  assert (Hb31 : length (take 31 (bits_of nec c)) = 31%nat) by (unfold bits_of; rewrite length_take, length_fmap; done).
  rewrite <- (take_drop 31 ps) in Et at 2. rewrite pairs_app in Et.
  rewrite (twins_bits reg nec (take 31 ps) (take 31 (bits_of nec c)) 1 0) in Et.
  2:{ done. } 2:{ now apply Forall_take. } 2:{ now rewrite !fmap_take, Hbits. }
  2:{ right. rewrite Hbuild, Hb31. split_and!; [|done|done]. intros E. rewrite E in Hb31. done. } 2:{ lia. }
  rewrite decide_True, Hbuild in Et by (rewrite Hb31; split; [intros E; rewrite E in Hb31; done|done]).
  apply (poll_code reg nec b _ n d _ _ _ _ Hb Et).
  left. unfold d1, with_code, add_bit, start_frame. cbn. apply Z.ltb_ge. done.
Qed.

(** With TC9012 timings the beginning of a frame - its preamble, its first
    bit and the burst of its second - is taken for a repeat of the previous code
    when a poll finds just that in the buffer, whatever key the frame is for;
    the decoder is then out of the frame, and the rest of it is lost.  (Every
    TC9012 preamble is below PREAMB_HOLD_MAX, and bursts are alike in all frames.) *)
Theorem tc9012_frame_taken_for_repeat reg c p q v burst b d n :
  c <> NO_CODE -> iPrevCode d = c -> iPreamble_Found d = false ->
  measured p -> is_preamble tc9012 p.1 (twin p) = true -> measured q -> bit_value tc9012 q = Some v ->
  BURST_MIN_LEN tc9012 < burst < BURST_MAX_LEN tc9012 ->
  holds b (flat [p; q] ++ [level burst 0]) ->
  exists b' d' n', read_tc9012 reg n b d = Some (b', d', c, true, n') /\ iPreamble_Found d' = false.
Proof.
  intros Hc Hp Hf Hm Hpre Hmq Hv Hbu Hb.
  assert (Hbr : 0 <= burst < 2 ^ 31).
  { change (BURST_MIN_LEN tc9012) with 12500 in Hbu. change (BURST_MAX_LEN tc9012) with 17500 in Hbu. lia. }
  set (d1 := start_frame tc9012 (twin p) (clock reg n) d).
  destruct (poll_repeat reg tc9012 b _ n d (with_bits 1 (build tc9012 0 0 [v]) d1) (S n) burst c Hb) as (b' & d2 & n2 & E & _ & ? & _); try done.
  - rewrite pairs_cons, <- app_assoc, twins_pair, read_preamble by done.
    rewrite (twins_bits reg tc9012 [q] [v] 0 0 d1); [|done|now constructor| |left; cbn; lia|cbn; lia]; [done|].
    cbn [fmap list_fmap]. now rewrite Hv.
  - change (iPreamble_Maybe_HOLD _) with (twin p <? PREAMB_HOLD_MAX tc9012). unfold is_preamble in Hpre. bool_simpl. apply Z.ltb_lt.
    change (PREAMB_HOLD_MAX tc9012) with 311875. change (PREAMB_MAX_LEN tc9012) with 250000 in *. lia.
  - exists b', d2, n2. done.
Qed.

(** ** Witnesses: the frame of the power key of the reference remote control *)

Definition sample_pair (b : Z) : Z * Z := if b =? 0 then (14000, 14000) else (14000, 42250).
Definition sample_code : Z := 0xfd02ff00.
Definition sample_preamble : Z * Z := (225000, 112500).
Definition sample_frame : list (Z * Z) := sample_pair <$> bits_of nec sample_code.

(** A task that polls after every interrupt. *)
Definition sample_events : list ir_event :=
  (sample_preamble :: sample_frame) ≫= (fun p => [Level p.1 0; Poll; Level p.2 1; Poll]).

Definition sample_reg (k : nat) : Z := 24000000 - 1000 * Z.of_nat k.

#[export] Instance measured_dec p : Decision (measured p).
Proof. unfold measured. apply _. Defined.

Lemma sample_frame_ok : frame nec sample_code sample_preamble sample_frame.
Proof.
  split; [unfold is_u32, sample_code; lia|discriminate|apply (bool_decide_unpack _); vm_compute; exact I|
    reflexivity|vm_compute; reflexivity].
Qed.

Lemma sample_in_time t : 1722600 <= FRAME_MAX_LEN t -> in_time sample_reg t (S 0 + 2 * S (polls sample_events)).
Proof.
  intros Ht i j Hij Hj. assert (HN : (S 0 + 2 * S (polls sample_events) = 135)%nat) by reflexivity. rewrite HN in Hj.
  assert (Hc : forall k, (k < 135)%nat -> clock sample_reg k = 1000000 + 1000 * Z.of_nat k).
  { intros k Hk. unfold clock, sm_apb_timer_readclock, sample_reg. change (SM_SYSTEM_HZ * 1000 * 1000) with 25000000.
    rewrite (u32_id (25000000 - _)), i32_id, u32_id; unfold is_u32, is_i32; lia. }
  rewrite !Hc by lia. unfold length_caculate. rewrite (proj2 (Z.ltb_lt _ _)) by lia.
  rewrite u32_id by (unfold is_u32; lia). lia.
Qed.

(** The same code with TC9012 timings. *)
Definition tc_preamble : Z * Z := (112500, 112500).
Definition tc_frame : list (Z * Z) := sample_pair <$> bits_of tc9012 sample_code.
Definition tc_events : list ir_event := (tc_preamble :: tc_frame) ≫= (fun p => [Level p.1 0; Poll; Level p.2 1; Poll]).

Lemma tc_frame_ok : frame tc9012 sample_code tc_preamble tc_frame.
Proof.
  split; [unfold is_u32, sample_code; lia|discriminate|apply (bool_decide_unpack _); vm_compute; exact I|
    reflexivity|vm_compute; reflexivity].
Qed.

Lemma ir_frame_decoded_witness :
  (exists b' d' n', ir_run sample_reg nec (sample_events ++ [Poll]) empty_cbuf pulse_init 0 =
    Some (b', d', n', [(sample_code, false)]) /\
    holds b' [] /\ iPrevCode d' = sample_code /\ iPreamble_Found d' = false /\
    iPreamble_Maybe_HOLD d' = (twin sample_preamble <? PREAMB_HOLD_MAX nec)) /\
  (exists b' d' n', ir_run sample_reg tc9012 (tc_events ++ [Poll]) empty_cbuf (mk_pulse NO_CODE 0 0 false false 0) 0 =
    Some (b', d', n', [(sample_code, false)]) /\
    holds b' [] /\ iPrevCode d' = sample_code /\ iPreamble_Found d' = false /\
    iPreamble_Maybe_HOLD d' = (twin tc_preamble <? PREAMB_HOLD_MAX tc9012)).
Proof.
  split.
  - apply (ir_frame_decoded sample_reg nec sample_code sample_preamble sample_frame sample_events empty_cbuf pulse_init 0).
    + now left.
    + exact sample_frame_ok.
    + exact empty_cbuf_holds.
    + split; [reflexivity|]. split; [left; reflexivity|left; vm_compute; discriminate].
    + vm_compute. reflexivity.
    + apply sample_in_time. vm_compute. discriminate.
  - apply (ir_frame_decoded sample_reg tc9012 sample_code tc_preamble tc_frame tc_events empty_cbuf (mk_pulse NO_CODE 0 0 false false 0) 0).
    + now right.
    + exact tc_frame_ok.
    + exact empty_cbuf_holds.
    + split; [reflexivity|]. split; [left; reflexivity|right; split; [discriminate|reflexivity]].
    + vm_compute. reflexivity.
    + apply sample_in_time. vm_compute. discriminate.
Defined.

Lemma ircbuffer_keeps_latest_witness :
  exists b', store_all (replicate 300 (14000, 0)) empty_cbuf = Some b' /\
    holds b' (latest (Z.to_nat 255) ([] ++ (level_of <$> replicate 300 (14000, 0)))).
Proof. apply (ircbuffer_keeps_latest empty_cbuf [] (replicate 300 (14000, 0))). exact empty_cbuf_holds. Defined.

Lemma length_caculate_exact_witness : length_caculate ((24999000 + 2000) mod PERIOD) 24999000 = 2000.
Proof. apply (length_caculate_exact 24999000 2000); vm_compute; split; discriminate || reflexivity. Defined.

(** Buffers with given levels in them. *)
Definition raw_levels (ps : list (Z * Z)) : list (Z * Z) := ps ≫= (fun p => [(p.1, 0); (p.2, 1)]).
Definition sample_buf (ls : list (Z * Z)) : cbuf := default empty_cbuf (store_all ls empty_cbuf).

Lemma flat_raw_levels ps : level_of <$> raw_levels ps = flat ps.
Proof. induction ps as [|p ps IH]; [done|]. unfold raw_levels, flat in *. cbn. now rewrite IH. Qed.

Lemma sample_buf_holds ls : (length ls <= Z.to_nat 255)%nat -> holds (sample_buf ls) (level_of <$> ls).
Proof.
  intros Hl. destruct (store_all_holds ls empty_cbuf [] empty_cbuf_holds) as (b & E & Hb). unfold sample_buf. rewrite E. cbn [default].
  cbn [app] in Hb. unfold latest in Hb. rewrite length_fmap in Hb. now replace (length ls - Z.to_nat 255)%nat with 0%nat in Hb by lia.
Qed.

Lemma sample_pairs_hold ps tl :
  (length (raw_levels ps ++ tl) <= Z.to_nat 255)%nat -> holds (sample_buf (raw_levels ps ++ tl)) (flat ps ++ (level_of <$> tl)).
Proof. intros H. rewrite <- flat_raw_levels, <- fmap_app. now apply sample_buf_holds. Qed.

Definition sample_levels (p : Z * Z) (ps : list (Z * Z)) : cbuf := sample_buf (raw_levels (p :: ps) ++ []).

Lemma nec_second_preamble_shifts_witness :
  exists b' d' n', read_nec sample_reg 0 (sample_levels sample_preamble (sample_preamble :: sample_frame)) pulse_init =
    Some (b', d', u32 (2 * sample_code), false, n').
Proof.
  apply (nec_second_preamble_shifts sample_reg sample_code sample_preamble sample_preamble sample_frame).
  - exact sample_frame_ok.
  - apply (bool_decide_unpack _). vm_compute. exact I.
  - reflexivity.
  - vm_compute. discriminate.
  - vm_compute. discriminate.
  - reflexivity.
  - rewrite <- (app_nil_r (flat _)). apply (sample_pairs_hold _ []). vm_compute. lia.
Defined.

Lemma tc9012_frame_taken_for_repeat_witness :
  exists b' d' n', read_tc9012 sample_reg 0 (sample_buf (raw_levels [(112500, 112500); (14000, 14000)] ++ [(14000, 0)]))
    (mk_pulse 0xfd 0 0 false false 0) = Some (b', d', 0xfd, true, n') /\ iPreamble_Found d' = false.
Proof.
  apply (tc9012_frame_taken_for_repeat sample_reg 0xfd (112500, 112500) (14000, 14000) 0 14000).
  - discriminate.
  - reflexivity.
  - reflexivity.
  - apply (bool_decide_unpack _). vm_compute. exact I.
  - reflexivity.
  - apply (bool_decide_unpack _). vm_compute. exact I.
  - reflexivity.
  - vm_compute. split; reflexivity.
  - apply (sample_pairs_hold [(112500, 112500); (14000, 14000)] [(14000, 0)]). vm_compute. lia.
Defined.
