(* ===== verification/IrRc5.v ===== *)
(** * The RC5 decoder decodes what was sent

    RC5 codes every bit as two half-bits of opposite level, the first of which
    is the value of the bit; equal neighbouring levels merge into one level of
    double length. *)

From S2P Require Import Prelude IrRecv IrDecode.

Definition half (x : Z) : Prop := MIN_BIT_TIME < x < MAX_BIT_TIME.
Definition double (x : Z) : Prop := 2 * MIN_BIT_TIME < x < 2 * MAX_BIT_TIME.
Definition is_bit (b : Z) : Prop := b = 0 \/ b = 1.

(** The levels of the bits [bs] after the first half of a bit [p]. *)
Inductive wave : Z -> list Z -> list Z -> Prop :=
| WEnd p : wave p [] []
| WSame p bs ls x y : is_bit p -> half x -> half y -> wave p bs ls ->
    wave p (p :: bs) (level x (1 - p) :: level y p :: ls)
| WTurn p bs ls x : is_bit p -> double x -> wave (1 - p) bs ls ->
    wave p ((1 - p) :: bs) (level x (1 - p) :: ls).

(** The number that bits stand for, the first the highest, after [acc]. *)
Definition number (acc : Z) (bs : list Z) : Z := foldl (fun a b => 2 * a + b) acc bs.

Lemma half_measured x : half x -> 0 <= x < 2 ^ 31.
Proof. unfold half. change MIN_BIT_TIME with 18375. change MAX_BIT_TIME with 24000. lia. Qed.

Lemma double_measured x : double x -> 0 <= x < 2 ^ 31.
Proof. unfold double. change MIN_BIT_TIME with 18375. change MAX_BIT_TIME with 24000. lia. Qed.

Lemma is_high_level x h : 0 <= x < 2 ^ 31 -> is_bit h -> (if is_high (level x h) then 1 else 0) = h.
Proof.
  intros Hx [->| ->]; [now rewrite low_level|]. unfold is_high, level.
  rewrite Z.land_lor_distr_l. change (Z.land (u32 (Z.shiftl 1 31)) 0x80000000) with 0x80000000.
  rewrite (proj2 (Z.eqb_neq _ _)); [done|]. intros H. apply (f_equal (fun z => Z.testbit z 31)) in H.
  rewrite Z.lor_spec, orb_true_r in H. done.
Qed.

(** The state between two bits of a frame: [k] bits, which make [acc]. *)
Record rc5_at (k acc p prev : Z) (r : rc5) : Prop := mk_rc5_at {
  at_bits : rc5_Code_Bit r = k; at_code : rc5_Code r = acc; at_data : iPrev_Data r = p;
  at_prev : rc5_prev_code r = prev; at_err : ERR_time r = 0; at_last : last_bit r = 0
}.

Lemma level_turn r k acc p prev x :
  rc5_at k acc p prev r -> 2 <= k -> is_bit p -> double x -> rc5_level r (1 - p) x = RcBit.
Proof.
  intros [Hk _ Hp _ _ _] H2 Hb Hx. unfold rc5_level. rewrite Hk, Hp. unfold double in Hx.
  change MIN_BIT_TIME with 18375 in *. change MAX_BIT_TIME with 24000 in *.
  rewrite !(proj2 (Z.eqb_neq k _)) by lia. rewrite (proj2 (Z.ltb_ge x 24000)) by lia. cbn [andb].
  rewrite !(proj2 (Z.ltb_lt _ _)) by lia. rewrite (proj2 (Z.eqb_neq _ _)) by (destruct Hb; lia). done.
Qed.

Lemma level_skip r k acc p prev x :
  rc5_at k acc p prev r -> 1 <= k -> is_bit p -> half x -> rc5_level r (1 - p) x = RcSkip.
Proof.
  intros [Hk _ Hp _ _ _] H1 Hb Hx. unfold rc5_level. rewrite Hk, Hp. unfold half in Hx.
  assert (Hne : (1 - p =? p) = false) by (apply Z.eqb_neq; destruct Hb; lia). rewrite Hne.
  rewrite (proj2 (Z.eqb_neq k 0)) by lia. destruct (k =? 1).
  - rewrite (proj2 (Z.ltb_ge MAX_BIT_TIME x)), (proj2 (Z.ltb_ge x MIN_BIT_TIME)) by lia. done.
  - rewrite !(proj2 (Z.ltb_lt _ _)) by lia. done.
Qed.

Lemma level_same r k acc p prev x :
  rc5_at k acc p prev r -> 2 <= k \/ (k = 1 /\ p = 1) -> is_bit p -> half x -> rc5_level r p x = RcBit.
Proof.
  intros [Hk _ Hp _ _ _] H1 Hb Hx. unfold rc5_level. rewrite Hk, Hp, Z.eqb_refl. unfold half in Hx.
  destruct H1 as [H1|[-> ->]].
  - rewrite !(proj2 (Z.eqb_neq k _)) by lia. rewrite !(proj2 (Z.ltb_lt _ _)) by lia. cbn [negb andb].
    done.
  - cbn [Z.eqb Pos.eqb]. rewrite (proj2 (Z.ltb_ge MAX_BIT_TIME x)), (proj2 (Z.ltb_ge x MIN_BIT_TIME)) by lia. done.
Qed.

Definition rc5_step (r : rc5) (b : Z) : rc5 :=
  mk_rc5 (rc5_Code_Bit r + 1) (2 * rc5_Code r + b) (rc5_prev_code r) b (ERR_time r) (last_bit r).

Lemma rc5_bit_more r b h :
  is_bit b -> 0 <= rc5_Code r < 2 ^ 14 -> 0 <= rc5_Code_Bit r < 13 -> rc5_bit r b h NO_CODE = (rc5_step r b, h, NO_CODE).
Proof.
  intros Hb Hc Hk. unfold rc5_bit. rewrite Z.shiftl_mul_pow2 by lia. change (2 ^ 1) with 2.
  rewrite !(u32_id (_ + 1)), (u32_id (rc5_Code r * 2)), u32_id by (unfold is_u32; destruct Hb; lia).
  rewrite (proj2 (Z.eqb_neq _ 14)) by lia. unfold rc5_step. do 4 f_equal. lia.
Qed.

Lemma rc5_bit_last r b :
  is_bit b -> 0 <= rc5_Code r < 2 ^ 13 -> rc5_Code_Bit r = 13 ->
  let c := 2 * rc5_Code r + b in
  rc5_bit r b false NO_CODE = (mk_rc5 14 c c b (ERR_time r) b, rc5_prev_code r =? c, c).
Proof.
  intros Hb Hc Hk c. unfold rc5_bit. rewrite Z.shiftl_mul_pow2, Hk by lia. change (2 ^ 1) with 2.
  rewrite (u32_id (rc5_Code r * 2)), (u32_id (rc5_Code r * 2 + b)) by (unfold is_u32; destruct Hb; lia).
  change (u32 (13 + 1)) with 14. replace (rc5_Code r * 2 + b) with c by (unfold c; lia). done.
Qed.

(** One level at the front of the queue. *)
Lemma loop_level fuel now b x h ls r hold :
  holds b (level x h :: ls) -> 0 <= x < 2 ^ 31 -> is_bit h -> last_bit r = 0 ->
  holds (advance b) ls /\
  rc5_loop (S fuel) now b r hold NO_CODE =
  match rc5_level r h x with
  | RcSkip => rc5_loop fuel now (advance b) r hold NO_CODE
  | RcRestart => rc5_loop fuel now (advance b)
      (mk_rc5 0 (rc5_Code r) (rc5_prev_code r) (iPrev_Data r) (ERR_time r) (last_bit r)) hold NO_CODE
  | RcBit => let '(r, hold, rcv) := rc5_bit r h hold NO_CODE in rc5_loop fuel now (advance b) r hold rcv
  | RcError => Some (b, mk_rc5 (rc5_Code_Bit r) (rc5_Code r) (rc5_prev_code r) (iPrev_Data r) (u32 now) (last_bit r), hold, NO_CODE)
  end.
Proof.
  intros Hb Hx Hh Hl. pose proof Hb as [_ Hs Hr He _]. apply holds_advance in Hb as [Hc Hb]. split; [done|].
  cbn [rc5_loop]. rewrite Hc, Hl. rewrite (proj2 (Z.eqb_neq (cb_start b) (cb_end b))).
  2:{ rewrite He. rewrite length_cons' in *. wrap. }
  change (NO_CODE =? NO_CODE) with true. cbn [negb andb mbind option_bind Z.eqb].
  rewrite is_high_level, len_of_level by (done || destruct Hh; lia). destruct (rc5_level r h x); try done.
Qed.

Lemma number_bound bs : forall acc k,
  Forall is_bit bs -> 0 <= acc < 2 ^ Z.of_nat k -> 0 <= number acc bs < 2 ^ Z.of_nat (k + length bs).
Proof.
  induction bs as [|b bs IH]; intros acc k Hb Ha; cbn [number foldl length].
  - now rewrite Nat.add_0_r.
  - apply Forall_cons_iff in Hb as [Hb Hbs]. rewrite <- Nat.add_succ_comm. apply (IH (2 * acc + b) (S k) Hbs).
    rewrite Nat2Z.inj_succ, Z.pow_succ_r by lia. destruct Hb; lia.
Qed.

Lemma wave_bits p bs ls : is_bit p -> wave p bs ls -> Forall is_bit bs.
Proof.
  intros Hp H. induction H; [constructor|constructor; [done|auto]|].
  assert (is_bit (1 - p)) by (destruct Hp as [->| ->]; [right|left]; lia). constructor; auto.
Qed.

(** What the loop does with a bit, once its level is at the front. *)
Definition rc5_done (c b : Z) (prev : Z) (r : option (cbuf * rc5 * bool * Z)) : Prop :=
  exists b', r = Some (b', mk_rc5 0 0 c b 0 b, prev =? c, c) /\ holds b' [].

Lemma last_level fuel now b c x prev :
  holds b [] -> 0 <= c < 2 ^ 14 ->
  rc5_done c x prev (rc5_loop (S fuel) now b (mk_rc5 14 c c x 0 x) (prev =? c) c).
Proof.
  intros Hb Hc. cbn [rc5_loop]. rewrite (proj2 (Z.eqb_neq c NO_CODE)) by (unfold NO_CODE; lia).
  rewrite andb_false_r. cbn [negb]. exists b. done.
Qed.

Lemma rc5_at_step k acc p prev r b : rc5_at k acc p prev r -> rc5_at (k + 1) (2 * acc + b) b prev (rc5_step r b).
Proof. intros [Hk Hc _ Hp He Hl]. split; cbn; congruence. Qed.

Lemma pow_14 k acc : 0 <= acc < 2 ^ Z.of_nat k -> (k <= 13)%nat -> 0 <= acc < 2 ^ 13.
Proof. intros Ha Hk. pose proof (Z.pow_le_mono_r 2 (Z.of_nat k) 13). lia. Qed.

Lemma last_default (bs : list Z) p q : bs <> [] -> List.last bs p = List.last bs q.
Proof. intros H. destruct (exists_last H) as (l & x & ->). now rewrite !last_last. Qed.

Lemma after_bit fuel now b ls bs k acc p prev r v :
  holds b ls -> rc5_at (Z.of_nat k) acc p prev r -> is_bit v -> (k + S (length bs) = 14)%nat ->
  0 <= acc < 2 ^ Z.of_nat k -> (0 < fuel)%nat -> (bs = [] -> ls = []) ->
  (bs <> [] -> rc5_done (number (2 * acc + v) bs) (List.last bs v) prev (rc5_loop fuel now b (rc5_step r v) false NO_CODE)) ->
  rc5_done (number acc (v :: bs)) (List.last (v :: bs) p) prev
    (let '(r, hold, rcv) := rc5_bit r v false NO_CODE in rc5_loop fuel now b r hold rcv).
Proof.
  intros Hb [Hk Hc _ Hp He Hl] Hv Hlen Ha Hf Hend Hnext. pose proof (pow_14 k acc Ha ltac:(lia)) as Ha2.
  destruct bs as [|b2 bs].
  - rewrite Hend in Hb by done. cbn [length] in Hlen. rewrite rc5_bit_last by (done || rewrite ?Hc, ?Hk; lia).
    rewrite Hc, Hp, He. destruct fuel; [lia|]. cbn [number foldl List.last]. apply last_level; [done|]. destruct Hv; lia.
  - cbn [length] in Hlen. rewrite rc5_bit_more by (done || rewrite ?Hc, ?Hk; lia).
    change (List.last (v :: b2 :: bs) p) with (List.last (b2 :: bs) p). rewrite (last_default (b2 :: bs) p v) by done. now apply Hnext.
Qed.

Lemma bit_bound v acc k : is_bit v -> 0 <= acc < 2 ^ Z.of_nat k -> 0 <= 2 * acc + v < 2 ^ Z.of_nat (S k).
Proof. intros Hv Ha. rewrite Nat2Z.inj_succ, Z.pow_succ_r by lia. destruct Hv; lia. Qed.

Lemma wave_nil p ls : wave p [] ls -> ls = [].
Proof. inversion 1. done. Qed.

Lemma not_bit p : is_bit p -> is_bit (1 - p).
Proof. intros [->| ->]; [right|left]; lia. Qed.

Lemma rc5_wave now p bs ls : wave p bs ls -> forall fuel b k acc prev r,
  holds b ls -> rc5_at (Z.of_nat k) acc p prev r -> is_bit p -> bs <> [] -> (k + length bs = 14)%nat ->
  (2 <= k)%nat \/ (k = 1%nat /\ p = 1 /\ head bs = Some 1) -> 0 <= acc < 2 ^ Z.of_nat k -> (length ls < fuel)%nat ->
  rc5_done (number acc bs) (List.last bs p) prev (rc5_loop fuel now b r false NO_CODE).
Proof.
  intros H. induction H as [p|p bs ls x y _ Hx Hy H IH|p bs ls x _ Hx H IH];
    intros fuel b k acc prev r Hb Hr Hp Hne Hlen Hk Ha Hf; [done| |]; cbn [length] in Hf, Hlen.
  - destruct fuel as [|[|fuel]]; [lia..|].
    destruct (loop_level (S fuel) now b x (1 - p) _ r false Hb (half_measured x Hx) (not_bit p Hp) (at_last _ _ _ _ _ Hr)) as [Hb1 ->].
    rewrite (level_skip r _ acc p prev) by (done || lia).
    destruct (loop_level fuel now (advance b) y p _ r false Hb1 (half_measured y Hy) Hp (at_last _ _ _ _ _ Hr)) as [Hb2 ->].
    rewrite (level_same r _ acc p prev) by (done || (destruct Hk as [|(-> & -> & _)]; [left; lia|now right])).
    apply (after_bit fuel now _ ls bs k acc p prev r p); try done; [lia|intros ->; now apply wave_nil in H|].
    intros Hbs. apply (IH fuel _ (S k)); try done; [|lia|left; lia|now apply bit_bound|lia].
    rewrite Nat2Z.inj_succ. now apply (rc5_at_step _ _ p).
  - destruct fuel as [|fuel]; [lia|]. pose proof (not_bit p Hp) as Hv.
    destruct Hk as [Hk|(-> & -> & Hd)]; [|done].
    destruct (loop_level fuel now b x (1 - p) _ r false Hb (double_measured x Hx) Hv (at_last _ _ _ _ _ Hr)) as [Hb1 ->].
    rewrite (level_turn r _ acc p prev) by (done || lia).
    apply (after_bit fuel now _ ls bs k acc p prev r (1 - p)); try done; [lia|intros ->; now apply wave_nil in H|].
    intros Hbs. apply (IH fuel _ (S k)); try done; [|lia|left; lia|now apply bit_bound|lia].
    rewrite Nat2Z.inj_succ. now apply (rc5_at_step _ _ p).
Qed.

(** An RC5 frame - two start bits, then twelve bits in half-bits or merged
    levels, each within the tolerances - that a poll finds in the buffer, after
    the pause whose end starts it, is decoded to the number its fourteen bits
    stand for; it counts as a repeat exactly when it is the code of the frame
    before, and the decoder is ready for the next frame. *)
Theorem rc5_frame_decoded now b r pause bs ls :
  0 <= pause < 2 ^ 31 -> wave 1 (1 :: bs) ls -> length bs = 12%nat ->
  holds b (level pause 1 :: ls) ->
  rc5_Code_Bit r = 0 -> rc5_Code r = 0 -> ERR_time r = 0 -> last_bit r = 0 ->
  let c := number 0 (1 :: 1 :: bs) in
  exists b', read_rc5 now b r = Some (b', mk_rc5 0 0 c (List.last bs 1) 0 (List.last bs 1), rc5_prev_code r =? c, c) /\ holds b' [].
Proof.
  intros Hpause Hw Hlen Hb Hk Hc He Hl c. unfold read_rc5. rewrite He. cbn [Z.eqb negb].
  pose proof (holds_room _ _ Hb) as Hroom. rewrite length_cons' in Hroom.
  change loop_fuel with (S 255).
  destruct (loop_level 255 now b pause 1 ls r false Hb Hpause) as [Hb1 ->]; [now right|done|].
  unfold rc5_level. rewrite Hk. cbn [Z.eqb]. rewrite rc5_bit_more by (try (now right); rewrite ?Hc, ?Hk; lia).
  assert (bs <> []) by (intros ->; done).
  destruct (rc5_wave now 1 (1 :: bs) ls Hw 255 (advance b) 1 1 (rc5_prev_code r) (rc5_step r 1)) as (b' & E & Hb').
  - done.
  - split; cbn; rewrite ?Hk, ?Hc; done.
  - now right.
  - done.
  - cbn [length]. lia.
  - now right.
  - cbn. lia.
  - lia.
  - exists b'. split; [|done]. rewrite E. cbn [List.last]. destruct bs; done.
Qed.

(** ** Witness: the power key of the reference remote control *)

Definition sample_half : Z := 22225.

Fixpoint sample_wave (p : Z) (bs : list Z) : list (Z * Z) :=
  match bs with
  | [] => []
  | b :: bs => if b =? p then (sample_half, 1 - p) :: (sample_half, p) :: sample_wave p bs
               else (2 * sample_half, 1 - p) :: sample_wave (1 - p) bs
  end.

Lemma sample_wave_ok bs : forall p, is_bit p -> Forall is_bit bs -> wave p bs (level_of <$> sample_wave p bs).
Proof.
  induction bs as [|b bs IH]; intros p Hp Hb; [constructor|]. apply Forall_cons_iff in Hb as [Hb Hbs].
  cbn [sample_wave]. destruct (b =? p) eqn:E; bool_simpl.
  - subst b. rewrite 2!fmap_cons. constructor; [done|vm_compute; split; reflexivity..|auto].
  - assert (b = 1 - p) as -> by (destruct Hb, Hp; lia). rewrite fmap_cons.
    constructor; [done|vm_compute; split; reflexivity|]. apply IH; [now apply not_bit|done].
Qed.

Definition sample_bits : list Z := [0; 0; 0; 0; 0; 0; 0; 0; 1; 1; 0; 0].
Definition sample_rc5 : list (Z * Z) := (1000000, 1) :: sample_wave 1 (1 :: sample_bits).

Lemma rc5_frame_decoded_witness :
  exists b', read_rc5 1000 (sample_buf sample_rc5) rc5_init = Some (b', mk_rc5 0 0 0x300c 0 0 0, false, 0x300c) /\ holds b' [].
Proof.
  apply (rc5_frame_decoded 1000 (sample_buf sample_rc5) rc5_init 1000000 sample_bits (level_of <$> sample_wave 1 (1 :: sample_bits))).
  - lia.
  - apply sample_wave_ok; [now right|]. unfold sample_bits. repeat (constructor; [first [now left|now right]|]). constructor.
  - reflexivity.
  - apply (sample_buf_holds sample_rc5). vm_compute. lia.
  - reflexivity.
  - reflexivity.
  - reflexivity.
  - reflexivity.
Defined.
