(* ===== verification/IrKeys.v ===== *)
(** * The infrared keys
    (boot/bootloader/sm_cm3/syna/src/ir/sm_ir.c and the key tables)

    The codes that the decoder returns become key-down, key-hold and key-up
    events, which are broadcast inside the system manager and sent to the SoC,
    or wake it up.  The build is the NEC one, without LWSTANDBY_ENABLE;
    [SM_IR_Flavor] of chip_config.h, the remote control's key table and the
    timer register are parameters. *)

From S2P Require Import Prelude IrRecv PowerFlow.

(** ** Keys (sm_ir_key_def.h) *)

Definition MV_IR_KEY_NULL : Z := 0.
Definition MV_IR_HOLDKEY_FLAG : Z := 0x80000000.

Definition MV_IR_KEY2UPKEY (key : Z) : Z := Z.lor (Z.land key (Z.lnot MV_IR_HOLDKEY_FLAG)) MV_IR_UPKEY_FLAG.
Definition MV_IR_HOLDKEY_KEY (key : Z) : Z := Z.lor key MV_IR_HOLDKEY_FLAG.
Definition MV_IR_HOLDKEY2KEY (key : Z) : Z := Z.land key (Z.lnot MV_IR_HOLDKEY_FLAG).

Definition has_flag (flag key : Z) : bool := negb (Z.land key flag =? 0).

Record ir_key_table_t := mk_key { key_bitpos : Z; key_mask : Z; ir_encode : Z; ir_key : Z }.

(** The table ends with an entry whose key is MV_IR_KEY_NULL. *)
Fixpoint Translate_IRCode (ir_key_table : list ir_key_table_t) (uiIRCode : Z) : option Z :=
  match ir_key_table with
  | [] => None
  | e :: table =>
      if ir_key e =? MV_IR_KEY_NULL then Some MV_IR_KEY_NULL
      else let tmp_code := Z.land (Z.shiftr uiIRCode (key_bitpos e)) (key_mask e) in
           if Z.land (ir_encode e) (key_mask e) =? tmp_code then Some (ir_key e)
           else Translate_IRCode table uiIRCode
  end.

(** ** State *)

Record keys := mk_keys {
  keydown : bool; keyhold : bool; currkey : Z;
  keydown_ticks : Z; lastkeyhold_ticks : Z; iHoldKeyCount : Z
}.

Definition keys_init : keys := mk_keys false false MV_IR_KEY_NULL 0 0 0.

Definition HoldKeySkipTime : Z := 3.
Definition FRAME_CYCLE_NORMAL_MAX : Z := 115000 * SM_SYSTEM_HZ.
Definition FRAME_CYCLE_FIRSTHOLD_MAX : Z := 60000 * SM_SYSTEM_HZ.

(** What leaves the IR module beside the messages and flows of PowerFlow. *)
Inductive ir_effect :=
| KeyState (is_down key : Z)     (* broadcast inside the system manager *)
| IrIntOn | IrIntOff.            (* the interrupt of the IR pin *)

Record ir_module := mk_ir {
  ir_buf : cbuf; ir_dec : pulse; ir_isr : isr_state; ir_keys : keys; ir_reads : nat;
  is_linuxready : bool; bInputDisable : bool; ir_out : list ir_effect
}.

Definition set_ir_keys (k : keys) (n : nat) (m : ir_module) : ir_module :=
  mk_ir (ir_buf m) (ir_dec m) (ir_isr m) k n (is_linuxready m) (bInputDisable m) (ir_out m).
Definition set_linuxready (v : bool) (m : ir_module) : ir_module :=
  mk_ir (ir_buf m) (ir_dec m) (ir_isr m) (ir_keys m) (ir_reads m) v (bInputDisable m) (ir_out m).
Definition set_input_disable (v : bool) (m : ir_module) : ir_module :=
  mk_ir (ir_buf m) (ir_dec m) (ir_isr m) (ir_keys m) (ir_reads m) (is_linuxready m) v (ir_out m).
Definition ir_emit (e : ir_effect) (m : ir_module) : ir_module :=
  mk_ir (ir_buf m) (ir_dec m) (ir_isr m) (ir_keys m) (ir_reads m) (is_linuxready m) (bInputDisable m) (ir_out m ++ [e]).

(** The message numbers of sm_common.h. *)
Definition MV_SM_INPUT_DISABLE : Z := 1.
Definition MV_SM_INPUT_ENABLE : Z := 2.
Definition MV_SM_INPUT_SEND_KEY : Z := 4.
Definition MV_SM_WAKEUP_SOURCE_IR : Z := 0.
Definition MV_SM_WAKEUP_SOURCE_WOL : Z := 2.

Section Keys.
Variable reg : nat -> Z.
Variable SM_IR_Flavor : Z.
Variable ir_key_table : list ir_key_table_t.

Definition IR_HOLDKEY_SEND : bool := negb (Z.land SM_IR_Flavor 1 =? 0).
Definition IR_UPKEY_SEND : bool := negb (Z.land (Z.shiftr SM_IR_Flavor 1) 1 =? 0).

(** The key that the decoder's result stands for. *)
Definition raw_key (ir_code : Z) (is_hold : bool) : option Z :=
  if ir_code =? NO_CODE then Some MV_IR_KEY_NULL
  else uiIRKey ← Translate_IRCode ir_key_table ir_code;
       Some (if is_hold then MV_IR_HOLDKEY_KEY uiIRKey else uiIRKey).

Definition filter_hold (uiIRKey : Z) : Z := if has_flag MV_IR_HOLDKEY_FLAG uiIRKey then MV_IR_KEY_NULL else uiIRKey.

(** The keys that are down, held and up: [n] counts the looks at the clock. *)
Definition track_key (n : nat) (uiIRKey : Z) (k : keys) : Z * keys * nat :=
  if negb (uiIRKey =? MV_IR_KEY_NULL) then
    if has_flag MV_IR_HOLDKEY_FLAG uiIRKey then
      if (uiIRKey =? MV_IR_HOLDKEY_KEY (currkey k)) && keydown k then
        let count := i32 (iHoldKeyCount k + 1) in
        (if count <? HoldKeySkipTime then MV_IR_KEY_NULL else uiIRKey,
         mk_keys (keydown k) true (currkey k) (keydown_ticks k) (clock reg n) count, S n)
      else (MV_IR_KEY_NULL, k, n)
    else if keydown k then (MV_IR_KEY_NULL, k, n)
    else (uiIRKey, mk_keys true (keyhold k) uiIRKey (clock reg n) (lastkeyhold_ticks k) 0, S n)
  else if keydown k then
    if keyhold k then
      if FRAME_CYCLE_NORMAL_MAX <? length_caculate (clock reg n) (lastkeyhold_ticks k)
      then (MV_IR_KEY2UPKEY (currkey k), mk_keys false false MV_IR_KEY_NULL (keydown_ticks k) (lastkeyhold_ticks k) (iHoldKeyCount k), S n)
      else (uiIRKey, k, S n)
    else
      if FRAME_CYCLE_FIRSTHOLD_MAX <? length_caculate (clock reg n) (keydown_ticks k)
      then (MV_IR_KEY2UPKEY (currkey k), mk_keys false (keyhold k) MV_IR_KEY_NULL (keydown_ticks k) (lastkeyhold_ticks k) (iHoldKeyCount k), S n)
      else (uiIRKey, k, S n)
  else (uiIRKey, k, n).

(** The key for a decoded code. *)
Definition preprocess (n : nat) (ir_code : Z) (is_hold : bool) (k : keys) : option (Z * keys * nat) :=
  uiIRKey ← raw_key ir_code is_hold;
  if IR_HOLDKEY_SEND && negb IR_UPKEY_SEND then Some (uiIRKey, k, n)
  else if negb IR_HOLDKEY_SEND && negb IR_UPKEY_SEND then Some (filter_hold uiIRKey, k, n)
  else let '(uiIRKey, k, n) := track_key n uiIRKey k in
       Some (if IR_HOLDKEY_SEND && IR_UPKEY_SEND then uiIRKey else filter_hold uiIRKey, k, n).

Definition ir_preprocess_key (m : ir_module) : option (Z * ir_module) :=
  '(b, d, ir_code, is_hold, n) ← read_nec reg (ir_reads m) (ir_buf m) (ir_dec m);
  '(uiIRKey, k, n) ← preprocess n ir_code is_hold (ir_keys m);
  Some (uiIRKey, mk_ir b d (ir_isr m) k n (is_linuxready m) (bInputDisable m) (ir_out m)).

(** ** What a key does, by the state of the system *)

Definition mv_sm_process_key (now module_id key : Z) (m : ir_module) (s : power) : power :=
  match mv_sm_get_state s with
  | MV_SM_STATE_ACTIVE =>
      if is_linuxready m then if bInputDisable m then s else emit now (SendMsg module_id [key]) s else s
  | MV_SM_STATE_LOWPOWERSTANDBY | MV_SM_STATE_NORMALSTANDBY | MV_SM_STATE_SUSPEND =>
      if negb (has_flag MV_IR_HOLDKEY_FLAG key) && has_flag MV_IR_UPKEY_FLAG key
      then fst (mv_sm_power_enterflow_bysmstate now (mv_sm_power_setwakeuppayload key
             (mv_sm_power_setwakeupsource MV_SM_WAKEUP_SOURCE_IR s)))
      else s
  | _ => s
  end.

Definition mv_sm_ir_broadcast_key_state (is_down key : Z) (m : ir_module) : ir_module := ir_emit (KeyState is_down key) m.

(** What the task does with a key. *)
Definition deliver_key (now uiIRKey : Z) (m : ir_module) (s : power) : ir_module * power :=
  if negb (uiIRKey =? MV_IR_KEY_NULL) then
    let m := if has_flag MV_IR_UPKEY_FLAG uiIRKey then mv_sm_ir_broadcast_key_state 0 uiIRKey m
             else if negb (has_flag MV_IR_HOLDKEY_FLAG uiIRKey) then mv_sm_ir_broadcast_key_state 1 uiIRKey m
             else m in
    (m, mv_sm_process_key now MV_SM_ID_IR uiIRKey m s)
  else (m, s).

Definition mv_sm_ir_task (now : Z) (m : ir_module) (s : power) : option (ir_module * power) :=
  '(uiIRKey, m) ← ir_preprocess_key m;
  Some (deliver_key now uiIRKey m s).

(** ** Messages *)

(** The message body is [w0; w1]. *)
Definition mv_sm_process_ir_msg (now w0 w1 : Z) (m : ir_module) (s : power) : ir_module * power :=
  if w0 =? MV_SM_IR_Linuxready then (ir_emit IrIntOn (set_linuxready true m), s)
  else if w0 =? MV_SM_INPUT_DISABLE then (set_input_disable true m, s)
  else if w0 =? MV_SM_INPUT_ENABLE then (set_input_disable false m, s)
  else if w0 =? MV_SM_INPUT_SEND_KEY then (m, emit now (SendMsg MV_SM_ID_IR [u32 w1]) s)
  else (m, s).

Definition sm_send_power_key (now : Z) (s : power) : power :=
  let w := wakeup_source s in
  if (w =? MV_SM_WAKEUP_SOURCE_IR) || (w =? MV_SM_WAKEUP_SOURCE_WIFI) || (w =? MV_SM_WAKEUP_SOURCE_BT) ||
     (w =? MV_SM_WAKEUP_SOURCE_WOL) || (w =? MV_SM_WAKEUP_SOURCE_BUTTON)
  then emit now (SendMsg MV_SM_ID_IR [Z.lor MV_IR_KEY_POWER 0x8000000]) (emit now (SendMsg MV_SM_ID_IR [MV_IR_KEY_POWER]) s)
  else s.

(** A broadcast of the power module: the flow and its status.  The case of a
    wake-up from suspend falls through into the one of the other wake-ups. *)
Definition mv_sm_process_internal_ir_msg (now : Z) (flow : SM_POWER_FLOW) (status : POWER_STATUS)
  (m : ir_module) (s : power) : ir_module * power :=
  let entering := if decide (status = STA_ENTERFLOW) then if negb (is_linuxready m) then ir_emit IrIntOff m else m else m in
  match flow with
  | FLOW_COLD_2_LOWPOWERSTANDBY | FLOW_ACTIVE_2_LOWPOWERSTANDBY | FLOW_ACTIVE_2_NORMALSTANDBY | FLOW_ACTIVE_2_SUSPEND
  | FLOW_SYSRESET_2_LOWPOWERSTANDBY | FLOW_SYSRESET_2_NORMALSTANDBY | FLOW_SYSRESET_2_ACTIVE => (set_linuxready false m, s)
  | FLOW_SUSPEND_2_ACTIVE =>
      (entering, if decide (status = STA_LEAVEFLOW) then sm_send_power_key now s else s)
  | FLOW_LOWPOWERSTANDBY_2_ACTIVE | FLOW_NORMALSTANDBY_2_ACTIVE => (entering, s)
  | FLOW_IDLE => (m, s)
  end.

End Keys.

(** ** The key tables (ir_nec_key_table.h, ir_tc9012_key_table.h)

    The keys are the values of the enumeration in sm_ir_key_def.h. *)

Definition vendor_ir_nec_table : list ir_key_table_t := [
  mk_key 0 0xffffffff 0xfd02ff00 0x200  (* POWER *);
  mk_key 0 0xffffffff 0x9f60ff00 0x6023  (* SWITCHVIDEOMODE *);
  mk_key 0 0xffffffff 0xe11eff00 0x201  (* OPENCLOSE *);
  mk_key 0 0xffffffff 0xfc03ff00 0x2003  (* DISCMENU *);
  mk_key 0 0xffffffff 0xf807ff00 0x2004  (* TITLEMENU *);
  mk_key 0 0xffffffff 0xbf40ff00 0x2005  (* SUBTITLE *);
  mk_key 0 0xffffffff 0xbb44ff00 0x2006  (* ANGLE *);
  mk_key 0 0xffffffff 0xf40bff00 0x1000  (* DIGIT_1 *);
  mk_key 0 0xffffffff 0xec13ff00 0x1001  (* DIGIT_2 *);
  mk_key 0 0xffffffff 0xe41bff00 0x1002  (* DIGIT_3 *);
  mk_key 0 0xffffffff 0xf00fff00 0x1003  (* DIGIT_4 *);
  mk_key 0 0xffffffff 0xe817ff00 0x1004  (* DIGIT_5 *);
  mk_key 0 0xffffffff 0xe01fff00 0x1005  (* DIGIT_6 *);
  mk_key 0 0xffffffff 0xb748ff00 0x1006  (* DIGIT_7 *);
  mk_key 0 0xffffffff 0xaf50ff00 0x1007  (* DIGIT_8 *);
  mk_key 0 0xffffffff 0xa758ff00 0x1008  (* DIGIT_9 *);
  mk_key 0 0xffffffff 0xab54ff00 0x1009  (* DIGIT_0 *);
  mk_key 0 0xffffffff 0xb34cff00 0x2000  (* INFO *);
  mk_key 0 0xffffffff 0xa35cff00 0x5002  (* F3 *);
  mk_key 0 0xffffffff 0xbe41ff00 0x2007  (* AUDIO *);
  mk_key 0 0xffffffff 0xb649ff00 0x2008  (* SEARCH *);
  mk_key 0 0xffffffff 0xae51ff00 0x2009  (* ZOOM *);
  mk_key 0 0xffffffff 0xa659ff00 0x200a  (* DISPLAY *);
  mk_key 0 0xffffffff 0xba45ff00 0x200b  (* REPEAT *);
  mk_key 0 0xffffffff 0xb24dff00 0x200c  (* REPEAT_AB *);
  mk_key 0 0xffffffff 0xaa55ff00 0x200d  (* PIP *);
  mk_key 0 0xffffffff 0xa25dff00 0x200e  (* EXIT *);
  mk_key 0 0xffffffff 0xbd42ff00 0x200f  (* A *);
  mk_key 0 0xffffffff 0xb54aff00 0x2010  (* B *);
  mk_key 0 0xffffffff 0xa956ff00 0x2011  (* C *);
  mk_key 0 0xffffffff 0xa15eff00 0x2012  (* D *);
  mk_key 0 0xffffffff 0x8b74ff00 0x6022  (* BOOKMARKS *);
  mk_key 0 0xffffffff 0xbc43ff00 0x6005  (* HOME *);
  mk_key 0 0xffffffff 0xa55aff00 0x2004  (* TITLEMENU *);
  mk_key 0 0xffffffff 0xb04fff00 0x4000  (* UP *);
  mk_key 0 0xffffffff 0xa857ff00 0x4001  (* DOWN *);
  mk_key 0 0xffffffff 0xb44bff00 0x4002  (* LEFT *);
  mk_key 0 0xffffffff 0xa45bff00 0x4003  (* RIGHT *);
  mk_key 0 0xffffffff 0xac53ff00 0x4004  (* ENTER *);
  mk_key 0 0xffffffff 0xb847ff00 0x3002  (* STEP *);
  mk_key 0 0xffffffff 0xa05fff00 0x6021  (* BACK *);
  mk_key 0 0xffffffff 0xfe01ff00 0x4005  (* SLOW *);
  mk_key 0 0xffffffff 0xf609ff00 0x4006  (* PAUSE *);
  mk_key 0 0xffffffff 0xee11ff00 0x4009  (* PLAY_PAUSE *);
  mk_key 0 0xffffffff 0xe619ff00 0x4008  (* STOP *);
  mk_key 0 0xffffffff 0xfa05ff00 0x400e  (* FAST_BACKWARD *);
  mk_key 0 0xffffffff 0xf20dff00 0x400f  (* FAST_FORWARD *);
  mk_key 0 0xffffffff 0xea15ff00 0x400a  (* SKIP_BACKWARD *);
  mk_key 0 0xffffffff 0xe21dff00 0x400b  (* SKIP_FORWARD *);
  mk_key 0 0xffffffff 0xff00ff00 0x5000  (* F1 *);
  mk_key 0 0xffffffff 0xf708ff00 0x5001  (* F2 *);
  mk_key 0 0xffffffff 0xef10ff00 0x5002  (* F3 *);
  mk_key 0 0xffffffff 0xe718ff00 0x2008  (* SEARCH *);
  mk_key 0 0xffffffff 0xfb04ff00 0x6002  (* VOL_MUTE *);
  mk_key 0 0xffffffff 0xf30cff00 0x6001  (* VOL_MINUS *);
  mk_key 0 0xffffffff 0xeb14ff00 0x6000  (* VOL_PLUS *);
  mk_key 0 0xffffffff 0xcc33ff00 0x6003  (* CHANNEL_PLUS *);
  mk_key 0 0xffffffff 0xcb34ff00 0x6004  (* CHANNEL_MINUS *);
  mk_key 0 0xffffffff 0xe31cff00 0x5007  (* F8 *);
  mk_key 0 0xffffffff 0x9c63ff00 0x5001  (* F2 *);
  mk_key 0 0xffffffff 0x9b64ff00 0x5000  (* F1 *);
  mk_key 0 0xffffffff 0xb946ff00 0x2008  (* SEARCH *);
  mk_key 0 0xffffffff 0xcd32ff00 0x6010  (* GUIDE *);
  mk_key 0 0xffffffff 0xde217788 0x200  (* POWER *);
  mk_key 0 0xffffffff 0x9f607788 0x6018  (* INPUT *);
  mk_key 0 0xffffffff 0xfe017788 0x1000  (* DIGIT_1 *);
  mk_key 0 0xffffffff 0xfd027788 0x1001  (* DIGIT_2 *);
  mk_key 0 0xffffffff 0xfc037788 0x1002  (* DIGIT_3 *);
  mk_key 0 0xffffffff 0xfb047788 0x1003  (* DIGIT_4 *);
  mk_key 0 0xffffffff 0xfa057788 0x1004  (* DIGIT_5 *);
  mk_key 0 0xffffffff 0xf9067788 0x1005  (* DIGIT_6 *);
  mk_key 0 0xffffffff 0xf8077788 0x1006  (* DIGIT_7 *);
  mk_key 0 0xffffffff 0xf7087788 0x1007  (* DIGIT_8 *);
  mk_key 0 0xffffffff 0xf6097788 0x1008  (* DIGIT_9 *);
  mk_key 0 0xffffffff 0xf50a7788 0x1009  (* DIGIT_0 *);
  mk_key 0 0xffffffff 0xa7587788 0x2005  (* SUBTITLE *);
  mk_key 0 0xffffffff 0xd6297788 0x2000  (* INFO *);
  mk_key 0 0xffffffff 0xb44b7788 0x200f  (* RED *);
  mk_key 0 0xffffffff 0xb54a7788 0x2010  (* GREEN *);
  mk_key 0 0xffffffff 0xb6497788 0x2011  (* YELLOW *);
  mk_key 0 0xffffffff 0xb34c7788 0x2012  (* BLUE *);
  mk_key 0 0xffffffff 0x8b747788 0x600e  (* MARKER *);
  mk_key 0 0xffffffff 0xb9467788 0x2008  (* SEARCH *);
  mk_key 0 0xffffffff 0xf00f7788 0x5002  (* F3 *);
  mk_key 0 0xffffffff 0xea157788 0x4000  (* UP *);
  mk_key 0 0xffffffff 0xe9167788 0x4001  (* DOWN *);
  mk_key 0 0xffffffff 0xe8177788 0x4002  (* LEFT *);
  mk_key 0 0xffffffff 0xe7187788 0x4003  (* RIGHT *);
  mk_key 0 0xffffffff 0xe6197788 0x4004  (* ENTER *);
  mk_key 0 0xffffffff 0xb7487788 0x6021  (* BACK *);
  mk_key 0 0xffffffff 0xb8477788 0x6005  (* HOME *);
  mk_key 0 0xffffffff 0xcd327788 0x6010  (* GUIDE *);
  mk_key 0 0xffffffff 0xdc237788 0x6000  (* VOL_PLUS *);
  mk_key 0 0xffffffff 0xdb247788 0x6001  (* VOL_MINUS *);
  mk_key 0 0xffffffff 0xda257788 0x6002  (* VOL_MUTE *);
  mk_key 0 0xffffffff 0xcc337788 0x6003  (* CHANNEL_PLUS *);
  mk_key 0 0xffffffff 0xcb347788 0x6004  (* CHANNEL_MINUS *);
  mk_key 0 0xffffffff 0x9b647788 0x5000  (* F1 *);
  mk_key 0 0xffffffff 0x9c637788 0x5001  (* F2 *);
  mk_key 0 0xffffffff 0x98677788 0x2004  (* TITLEMENU *);
  mk_key 0 0xffffffff 0x97687788 0x3004  (* TITLE *);
  mk_key 0 0xffffffff 0xffffffff 0x0  (* NULL *)
].

Definition vendor_ir_tc9012_table : list ir_key_table_t := [
  mk_key 0 0x7ff 0x0000000c 0x200  (* POWER *);
  mk_key 0 0x7ff 0x00000001 0x1000  (* DIGIT_1 *);
  mk_key 0 0x7ff 0x00000002 0x1001  (* DIGIT_2 *);
  mk_key 0 0x7ff 0x00000003 0x1002  (* DIGIT_3 *);
  mk_key 0 0x7ff 0x00000004 0x1003  (* DIGIT_4 *);
  mk_key 0 0x7ff 0x00000005 0x1004  (* DIGIT_5 *);
  mk_key 0 0x7ff 0x00000006 0x1005  (* DIGIT_6 *);
  mk_key 0 0x7ff 0x00000007 0x1006  (* DIGIT_7 *)
].
