(* ===== verification/IrSafety.v ===== *)
(** * The infrared keys are well bracketed and wake the system up

    Theorems about IrKeys.v: the stream of key events, the key tables, and a
    key press in a standby state. *)

From S2P Require Import Prelude IrRecv IrDecode PowerFlow IrKeys.

(** ** Keys without flags *)

(** A key has none of the bits that mark a hold or an up event. *)
Definition plain (k : Z) : bool := (0 <? k) && (k <? 2 ^ 27).

Lemma plain_bits k i : plain k = true -> 27 <= i -> Z.testbit k i = false.
Proof.
  unfold plain. intros H Hi. bool_simpl. apply Z.bits_above_log2; [lia|].
  apply (Z.lt_le_trans _ 27); [apply Z.log2_lt_pow2; lia|lia].
Qed.

Lemma has_flag_bit k i : 0 <= i -> has_flag (2 ^ i) k = Z.testbit k i.
Proof.
  intros Hi. unfold has_flag. destruct (Z.testbit k i) eqn:E.
  - apply negb_true_iff, Z.eqb_neq. intros H. apply (f_equal (fun x => Z.testbit x i)) in H.
    rewrite Z.land_spec, Z.pow2_bits_true, Z.bits_0, E in H by lia. done.
  - apply negb_false_iff, Z.eqb_eq, Z.bits_inj'. intros j Hj. rewrite Z.land_spec, Z.bits_0, Z.pow2_bits_eqb by lia.
    destruct (i =? j) eqn:Ej; [|apply andb_false_r]. bool_simpl. subst. now rewrite E.
Qed.

Lemma hold_flag k : has_flag MV_IR_HOLDKEY_FLAG k = Z.testbit k 31.
Proof. apply (has_flag_bit k 31). lia. Qed.

Lemma up_flag k : has_flag MV_IR_UPKEY_FLAG k = Z.testbit k 27.
Proof. apply (has_flag_bit k 27). lia. Qed.

Lemma plain_hold k : plain k = true -> has_flag MV_IR_HOLDKEY_FLAG k = false.
Proof. intros H. rewrite hold_flag. apply plain_bits; [done|lia]. Qed.

Lemma plain_up k : plain k = true -> has_flag MV_IR_UPKEY_FLAG k = false.
Proof. intros H. rewrite up_flag. apply plain_bits; [done|lia]. Qed.

Lemma plain_nonzero k : plain k = true -> k <> MV_IR_KEY_NULL.
Proof. unfold plain, MV_IR_KEY_NULL. intros H. bool_simpl. lia. Qed.

Lemma holdkey_bits k : plain k = true ->
  has_flag MV_IR_HOLDKEY_FLAG (MV_IR_HOLDKEY_KEY k) = true /\ has_flag MV_IR_UPKEY_FLAG (MV_IR_HOLDKEY_KEY k) = false /\
  MV_IR_HOLDKEY_KEY k <> MV_IR_KEY_NULL.
Proof.
  intros H. unfold MV_IR_HOLDKEY_KEY. rewrite hold_flag, up_flag, !Z.lor_spec, (plain_bits k 27), orb_true_r by (done || lia).
  split_and!; [done|done|]. intros E. apply (f_equal (fun x => Z.testbit x 31)) in E.
  rewrite Z.lor_spec, orb_true_r in E. done.
Qed.

Lemma upkey_bits k : plain k = true ->
  has_flag MV_IR_HOLDKEY_FLAG (MV_IR_KEY2UPKEY k) = false /\ has_flag MV_IR_UPKEY_FLAG (MV_IR_KEY2UPKEY k) = true /\
  MV_IR_KEY2UPKEY k <> MV_IR_KEY_NULL.
Proof.
  intros H. unfold MV_IR_KEY2UPKEY. rewrite hold_flag, up_flag, !Z.lor_spec, !Z.land_spec, (plain_bits k 31), orb_true_r by (done || lia).
  split_and!; [done|done|]. intros E. apply (f_equal (fun x => Z.testbit x 27)) in E.
  rewrite Z.lor_spec, orb_true_r in E. done.
Qed.

Lemma holdkey_inj j k : plain j = true -> plain k = true -> MV_IR_HOLDKEY_KEY j = MV_IR_HOLDKEY_KEY k -> j = k.
Proof.
  intros Hj Hk E. apply Z.bits_inj'. intros i Hi. apply (f_equal (fun x => Z.testbit x i)) in E.
  unfold MV_IR_HOLDKEY_KEY in E. rewrite !Z.lor_spec in E. destruct (Z.eq_dec i 31) as [->|Hn].
  - rewrite !plain_bits by (done || lia). done.
  - change MV_IR_HOLDKEY_FLAG with (2 ^ 31) in E. rewrite Z.pow2_bits_eqb, (proj2 (Z.eqb_neq 31 i)), !orb_false_r in E by lia. done.
Qed.

(** ** Key events *)

(** The key that is down, and what an event does to it: a key goes down only
    when none is, is held only while it is down, and goes up. *)
Inductive key_step : option Z -> Z -> option Z -> Prop :=
| KDown k : plain k = true -> key_step None k (Some k)
| KHold k : plain k = true -> key_step (Some k) (MV_IR_HOLDKEY_KEY k) (Some k)
| KUp k : plain k = true -> key_step (Some k) (MV_IR_KEY2UPKEY k) None.

Inductive key_stream : option Z -> list Z -> option Z -> Prop :=
| KNil o : key_stream o [] o
| KCons o k o1 ks o2 : key_step o k o1 -> key_stream o1 ks o2 -> key_stream o (k :: ks) o2.

Definition key_down (k : keys) : option Z := if keydown k then Some (currkey k) else None.

Section Stream.
Variable reg : nat -> Z.
Variable table : list ir_key_table_t.

(** The keys that the polls report for what the decoder returned in each: the
    code, whether it is a repeat, and how often the decoder looked at the clock. *)
Fixpoint key_events (n : nat) (ins : list (Z * bool * nat)) (k : keys) : option (list Z * keys) :=
  match ins with
  | [] => Some ([], k)
  | (code, is_hold, looks) :: ins =>
      '(key, k, n) ← preprocess reg 3 table (n + looks)%nat code is_hold k;
      '(ks, k) ← key_events n ins k;
      Some (if key =? MV_IR_KEY_NULL then ks else key :: ks, k)
  end.

(** Every key of the table is plain, and the table has its end mark. *)
Definition table_ok : bool :=
  forallb (fun e => (ir_key e =? MV_IR_KEY_NULL) || plain (ir_key e)) table &&
  existsb (fun e => ir_key e =? MV_IR_KEY_NULL) table.

End Stream.

Lemma translate_ok table code :
  table_ok table = true ->
  exists key, Translate_IRCode table code = Some key /\ (key = MV_IR_KEY_NULL \/ plain key = true).
Proof.
  unfold table_ok. intros H. apply andb_true_iff in H as [Hall Hex]. induction table as [|e table IH]; [done|].
  cbn [forallb existsb Translate_IRCode] in *. apply andb_true_iff in Hall as [He Hall].
  destruct (ir_key e =? MV_IR_KEY_NULL) eqn:E; [eauto|]. cbn [orb] in *.
  destruct (Z.land (ir_encode e) (key_mask e) =? _); [eauto|]. now apply IH.
Qed.

(** The key state that the code keeps: a key that is down is plain. *)
Definition keys_ok (k : keys) : Prop := keydown k = true -> plain (currkey k) = true.

Lemma track_plain reg n key k :
  keys_ok k -> plain key = true ->
  exists r k' n', track_key reg n key k = (r, k', n') /\ keys_ok k' /\
    (r = MV_IR_KEY_NULL /\ key_down k' = key_down k \/ r <> MV_IR_KEY_NULL /\ key_step (key_down k) r (key_down k')).
Proof.
  intros Hk Hp. unfold track_key, key_down. rewrite (proj2 (Z.eqb_neq _ _) (plain_nonzero key Hp)), plain_hold by done. cbn [negb].
  destruct (keydown k) eqn:Ed.
  - exists MV_IR_KEY_NULL, k, n. rewrite Ed. auto.
  - do 3 eexists. split; [reflexivity|]. cbn. split; [intros _; exact Hp|]. right. split; [now apply plain_nonzero|]. now constructor.
Qed.

Lemma track_hold reg n key k :
  keys_ok k -> plain key = true \/ key = MV_IR_KEY_NULL ->
  exists r k' n', track_key reg n (MV_IR_HOLDKEY_KEY key) k = (r, k', n') /\ keys_ok k' /\
    (r = MV_IR_KEY_NULL /\ key_down k' = key_down k \/ r <> MV_IR_KEY_NULL /\ key_step (key_down k) r (key_down k')).
Proof.
  intros Hk Hp. unfold track_key, key_down.
  assert (Hf : has_flag MV_IR_HOLDKEY_FLAG (MV_IR_HOLDKEY_KEY key) = true /\ MV_IR_HOLDKEY_KEY key <> MV_IR_KEY_NULL).
  { destruct Hp as [Hp| ->]; [destruct (holdkey_bits key Hp) as (? & _ & ?); done|done]. }
  destruct Hf as [-> Hn]. rewrite (proj2 (Z.eqb_neq _ _) Hn). cbn [negb].
  destruct ((MV_IR_HOLDKEY_KEY key =? MV_IR_HOLDKEY_KEY (currkey k)) && keydown k) eqn:E.
  - bool_simpl. match goal with H : keydown k = true |- _ => rename H into Ed end. pose proof (Hk Ed) as Hc.
    do 3 eexists. split; [reflexivity|]. cbn. rewrite Ed. split; [intros _; exact Hc|].
    destruct (_ <? _); [left; done|right]. split; [done|].
    match goal with H : MV_IR_HOLDKEY_KEY key = _ |- _ => rewrite H end. now constructor.
  - do 3 eexists. split; [reflexivity|]. auto.
Qed.

Lemma track_silence reg n k :
  keys_ok k ->
  exists r k' n', track_key reg n MV_IR_KEY_NULL k = (r, k', n') /\ keys_ok k' /\
    (r = MV_IR_KEY_NULL /\ key_down k' = key_down k \/ r <> MV_IR_KEY_NULL /\ key_step (key_down k) r (key_down k')).
Proof.
  intros Hk. unfold track_key, key_down. cbn [Z.eqb negb MV_IR_KEY_NULL]. destruct (keydown k) eqn:Ed.
  - pose proof (Hk Ed) as Hc. destruct (upkey_bits _ Hc) as (_ & _ & Hne).
    destruct (keyhold k); (destruct (_ <? _); do 3 eexists; (split; [reflexivity|]); cbn; rewrite ?Ed;
      [split; [done|]; right; split; [done|]; now constructor|auto]).
  - do 3 eexists. split; [reflexivity|]. rewrite Ed. auto.
Qed.

Lemma preprocess_step reg table n code is_hold k :
  table_ok table = true -> keys_ok k ->
  exists r k' n', preprocess reg 3 table n code is_hold k = Some (r, k', n') /\ keys_ok k' /\
    (r = MV_IR_KEY_NULL /\ key_down k' = key_down k \/ r <> MV_IR_KEY_NULL /\ key_step (key_down k) r (key_down k')).
Proof.
  intros Ht Hk. unfold preprocess, raw_key.
  assert (H : exists key, (if code =? NO_CODE then Some MV_IR_KEY_NULL
      else key ← Translate_IRCode table code; Some (if is_hold then MV_IR_HOLDKEY_KEY key else key)) = Some key /\
    exists r k' n', track_key reg n key k = (r, k', n') /\ keys_ok k' /\
    (r = MV_IR_KEY_NULL /\ key_down k' = key_down k \/ r <> MV_IR_KEY_NULL /\ key_step (key_down k) r (key_down k'))).
  { destruct (code =? NO_CODE); [eexists; split; [reflexivity|]; now apply track_silence|].
    destruct (translate_ok table code Ht) as (key & -> & Hkey). cbn [mbind option_bind]. eexists; split; [reflexivity|].
    destruct is_hold; [apply track_hold; tauto|]. destruct Hkey as [->|Hkey]; [now apply track_silence|now apply track_plain]. }
  destruct H as (key & -> & r & k' & n' & E & Hr). cbn [mbind option_bind].
  change (IR_HOLDKEY_SEND 3) with true. change (IR_UPKEY_SEND 3) with true. cbn [negb andb]. rewrite E. eauto 6.
Qed.

(** Whatever the decoder returns and whatever the clock shows, the key
    events are well bracketed: a key goes down only when no key is down, only
    the key that is down is held, every key that went down goes up before
    another goes down; and no poll fails. *)
Theorem ir_keys_bracketed reg table n ins :
  table_ok table = true ->
  exists ks k', key_events reg table n ins keys_init = Some (ks, k') /\ key_stream None ks (key_down k').
Proof.
  intros Ht. enough (H : forall n k, keys_ok k ->
    exists ks k', key_events reg table n ins k = Some (ks, k') /\ key_stream (key_down k) ks (key_down k')).
  { apply (H n keys_init). intros H'. done. }
  clear n. induction ins as [|[[code is_hold] looks] ins IH]; intros n k Hk.
  - exists [], k. split; [done|constructor].
  - cbn [key_events]. destruct (preprocess_step reg table (n + looks) code is_hold k Ht Hk) as (r & k1 & n1 & -> & Hk1 & Hr).
    cbn [mbind option_bind]. destruct (IH n1 k1 Hk1) as (ks & k2 & -> & Hs). cbn [mbind option_bind].
    do 2 eexists. split; [reflexivity|]. destruct Hr as [[-> Hd]|[Hne Hstep]].
    + rewrite <- Hd. done.
    + rewrite (proj2 (Z.eqb_neq _ _)) by done. econstructor; eassumption.
Qed.

(** ** The tables *)

(** Every entry but the end mark is the one its own code is translated with. *)
Definition reachable (table : list ir_key_table_t) : bool :=
  forallb (fun e => (ir_key e =? MV_IR_KEY_NULL) ||
    match Translate_IRCode table (Z.shiftl (Z.land (ir_encode e) (key_mask e)) (key_bitpos e)) with
    | Some k => k =? ir_key e
    | None => false
    end) table.

(** The table of the reference NEC remote control translates every code
    of it to its own key - no entry hides another -, its keys carry no event
    flags, and every other code is answered with MV_IR_KEY_NULL. *)
Theorem nec_table_sound :
  table_ok vendor_ir_nec_table = true /\ reachable vendor_ir_nec_table = true /\
  forall code, is_u32 code -> ~ In code (ir_encode <$> vendor_ir_nec_table) ->
    Translate_IRCode vendor_ir_nec_table code = Some MV_IR_KEY_NULL.
Proof.
  split; [vm_compute; reflexivity|]. split; [vm_compute; reflexivity|]. intros code Hc.
  assert (Hmask : Forall (fun e => key_bitpos e = 0 /\ key_mask e = Z.ones 32 /\ is_u32 (ir_encode e)) vendor_ir_nec_table).
  { apply (bool_decide_unpack _). vm_compute. exact I. }
  assert (Hend : existsb (fun e => ir_key e =? MV_IR_KEY_NULL) vendor_ir_nec_table = true) by (vm_compute; reflexivity).
  revert Hmask Hend. generalize vendor_ir_nec_table. intros table Hmask Hend Hin. induction table as [|e table IH]; [done|].
  cbn [Translate_IRCode existsb] in *. apply Forall_cons_iff in Hmask as [(-> & -> & He) Hmask].
  destruct (ir_key e =? MV_IR_KEY_NULL) eqn:E; [done|]. rewrite Z.shiftr_0_r, !Z.land_ones by lia.
  change (ir_encode e mod 2 ^ 32) with (u32 (ir_encode e)). change (code mod 2 ^ 32) with (u32 code). rewrite !u32_id by done.
  rewrite (proj2 (Z.eqb_neq _ _)) by (intros Eq; apply Hin; left; exact Eq). apply IH; [done|done|]. intros H. apply Hin. now right.
Qed.

(** The table of the TC9012 build has no end mark: for a code that is not in it
    the search runs past the end of the array. *)
Lemma tc9012_table_overrun : Translate_IRCode vendor_ir_tc9012_table 0x123 = None.
Proof. reflexivity. Qed.

(** ** A key press in standby *)

(** An up key in standby starts the flow that wakes the system; a down or hold key nothing. *)
Lemma process_up now m s k :
  plain k = true -> standby (sys_state s) = true -> power_myflow s = FLOW_IDLE -> power_mystatus s = STA_INVALID ->
  let s' := mv_sm_process_key now MV_SM_ID_IR (MV_IR_KEY2UPKEY k) m s in
  power_myflow s' = wake_flow (sys_state s) /\ power_mystatus s' = STA_ENTERFLOW /\
  wakeup_source s' = MV_SM_WAKEUP_SOURCE_IR /\ payload0 s' = MV_IR_KEY2UPKEY k.
Proof.
  intros Hk Hst Hf Hs. destruct (upkey_bits k Hk) as (Eh & Eu & _). unfold mv_sm_process_key, mv_sm_get_state.
  rewrite Eh, Eu. cbn [negb andb].
  destruct (wake_enterflow now (mv_sm_power_setwakeuppayload (MV_IR_KEY2UPKEY k) (mv_sm_power_setwakeupsource MV_SM_WAKEUP_SOURCE_IR s)) Hst Hf Hs) as (G1 & G2 & G3 & G4).
  change (sys_state (mv_sm_power_setwakeuppayload _ _)) with (sys_state s) in G1. destruct (sys_state s); try discriminate Hst; (split; [exact G1|split; [exact G2|split; [exact G3|exact G4]]]).
Qed.

Lemma process_down now m s k :
  plain k = true -> standby (sys_state s) = true -> mv_sm_process_key now MV_SM_ID_IR k m s = s.
Proof.
  intros Hk Hst. unfold mv_sm_process_key, mv_sm_get_state. rewrite plain_hold, plain_up by done.
  destruct (sys_state s); done.
Qed.

(** The decoder on a whole frame in the buffer, then on an empty one. *)
Lemma frame_twins reg c p ps d n :
  frame nec c p ps -> iPreamble_Found d = false ->
  twins reg nec n (flat (p :: ps)) d 0 NO_CODE = ([], with_code c (start_frame nec (twin p) (clock reg n) d), c, S n).
Proof.
  intros [Hc Hn Hm Hp Hb] Hf. apply Forall_cons_iff in Hm as [Hmp Hm].
  assert (Hlen : length (bits_of nec c) = 32%nat) by (unfold bits_of; now rewrite length_fmap).
  rewrite pairs_cons, twins_pair, read_preamble by done. rewrite <- (app_nil_r (flat ps)).
  rewrite (twins_bits reg nec ps (bits_of nec c) 0 0); [|done|done|done|left; cbn; lia|lia].
  rewrite decide_True by (split; [intros E; rewrite E in Hlen; done|lia]).
  rewrite build_bits; [done|apply (supported_placed nec); now left|done].
Qed.

Lemma code_timeout_long reg n d :
  iPreamble_Maybe_HOLD (code_timeout reg nec n d).1 = iPreamble_Maybe_HOLD d /\
  iPreamble_Found (code_timeout reg nec n d).1 = iPreamble_Found d.
Proof. unfold code_timeout. repeat case_match; done. Qed.

Lemma frame_then_silence reg c p ps b d n :
  frame nec c p ps -> holds b (flat (p :: ps)) -> waiting nec p d ->
  exists b1 d1 b2 d2 n2, read_nec reg n b d = Some (b1, d1, c, false, n + 2)%nat /\
    read_nec reg (n + 3) b1 d1 = Some (b2, d2, NO_CODE, false, n2) /\ (n + 3 <= n2 <= n + 4)%nat.
Proof.
  intros Hfr Hb (Hf & _ & Hl). destruct Hl as [Hl|[Hl _]]; [|done]. pose proof (frame_real _ _ _ _ Hfr) as Hn.
  set (d0 := with_code c (start_frame nec (twin p) (clock reg n) d)).
  assert (Hm0 : iPreamble_Maybe_HOLD d0 = false) by now apply Z.ltb_ge.
  destruct (poll_outside reg nec b _ n d _ d0 _ _ Hb (frame_twins reg c p ps d n Hfr Hf)) as (b1 & E1 & Hb1); [now left|done|].
  destruct (code_timeout_long reg (S n) d0) as [Hm1 Hf1]. set (d1 := (code_timeout reg nec (S n) d0).1) in *.
  assert (En : (code_timeout reg nec (S n) d0).2 = (n + 2)%nat).
  { unfold code_timeout. cbn [d0 with_code iPrevCode]. rewrite (proj2 (Z.eqb_neq _ _) Hn). cbn [negb snd]. lia. }
  rewrite En in E1. rewrite Hm0 in Hm1.
  destruct (poll_outside reg nec b1 [] (n + 3) d1 [] d1 NO_CODE (n + 3) Hb1 eq_refl) as (b2 & E2 & Hb2); [now left|done|].
  destruct (code_timeout_cases reg nec (n + 3) d1) as (n2 & Hn2 & Hc).
  exists b1, d1, b2, (code_timeout reg nec (n + 3) d1).1, n2. split; [exact E1|].
  split; [|lia]. destruct Hc as [Hc|[Hc _]]; rewrite Hc in *; exact E2.
Qed.

(** C27: a press of a key of the table wakes the system up.  In a standby
    state with no flow in progress, the task that finds the frame of the key in
    the buffer announces the key as down and leaves the power state alone; the
    task that finds silence, when the clock shows that no repeat can come any
    more, announces it as up and enters the flow that leads from this standby
    state to the active one, with the remote control as the source and the key
    as the payload. *)
Theorem ir_press_wakes reg table c k p ps m s now1 now2 :
  let n := ir_reads m in
  frame nec c p ps -> holds (ir_buf m) (flat (p :: ps)) -> waiting nec p (ir_dec m) ->
  Translate_IRCode table c = Some k -> plain k = true ->
  keydown (ir_keys m) = false -> keyhold (ir_keys m) = false ->
  (forall j, (n + 3 <= j <= n + 4)%nat -> FRAME_CYCLE_FIRSTHOLD_MAX < length_caculate (clock reg j) (clock reg (n + 2))) ->
  standby (sys_state s) = true -> power_myflow s = FLOW_IDLE -> power_mystatus s = STA_INVALID ->
  exists m1 m2 s2, mv_sm_ir_task reg 3 table now1 m s = Some (m1, s) /\ mv_sm_ir_task reg 3 table now2 m1 s = Some (m2, s2) /\
    ir_out m2 = ir_out m ++ [KeyState 1 k; KeyState 0 (MV_IR_KEY2UPKEY k)] /\
    power_myflow s2 = wake_flow (sys_state s) /\ power_mystatus s2 = STA_ENTERFLOW /\
    wakeup_source s2 = MV_SM_WAKEUP_SOURCE_IR /\ payload0 s2 = MV_IR_KEY2UPKEY k.
Proof.
  intros n Hfr Hb Hw Ht Hk Hd Hh Hgap Hst Hfl Hsta. pose proof (frame_real _ _ _ _ Hfr) as Hn.
  destruct (frame_then_silence reg c p ps _ _ n Hfr Hb Hw) as (b1 & d1 & b2 & d2 & n2 & E1 & E2 & Hn2).
  pose proof (plain_nonzero k Hk) as Hk0. destruct (upkey_bits k Hk) as (_ & Eu & Hu0).
  unfold mv_sm_ir_task, ir_preprocess_key. fold n. rewrite E1. cbn [mbind option_bind].
  unfold preprocess, raw_key. rewrite (proj2 (Z.eqb_neq _ _) Hn), Ht. cbn [mbind option_bind].
  change (IR_HOLDKEY_SEND 3) with true. change (IR_UPKEY_SEND 3) with true. cbn [negb andb].
  unfold track_key at 1. rewrite (proj2 (Z.eqb_neq _ _) Hk0), plain_hold, Hd, Hh by done. cbn [negb mbind option_bind].
  unfold deliver_key at 1. rewrite (proj2 (Z.eqb_neq _ _) Hk0), plain_hold, plain_up by done. cbn [negb]. rewrite process_down by done.
  eexists _, _, _. split; [reflexivity|]. cbn [mv_sm_ir_broadcast_key_state ir_emit ir_reads ir_buf ir_dec ir_keys].
  replace (S (n + 2)) with (n + 3)%nat by lia. rewrite E2. cbn [mbind option_bind Z.eqb NO_CODE Pos.eqb].
  unfold track_key. cbn [Z.eqb negb MV_IR_KEY_NULL keydown keyhold keydown_ticks currkey].
  rewrite (proj2 (Z.ltb_lt _ _)) by (apply Hgap; lia). cbn [mbind option_bind].
  unfold deliver_key. rewrite (proj2 (Z.eqb_neq _ _) Hu0), Eu. cbn [negb]. split; [reflexivity|].
  split; [cbn [ir_out ir_emit mv_sm_ir_broadcast_key_state]; now rewrite <- app_assoc|]. now apply process_up.
Qed.

(** ** Witnesses *)

Lemma ir_keys_bracketed_witness :
  exists ks k', key_events sample_reg vendor_ir_nec_table 0 [(sample_code, false, 2%nat); (NO_CODE, false, 1%nat)] keys_init =
    Some (ks, k') /\ key_stream None ks (key_down k').
Proof.
  apply (ir_keys_bracketed sample_reg vendor_ir_nec_table 0 [(sample_code, false, 2%nat); (NO_CODE, false, 1%nat)]).
  vm_compute. reflexivity.
Defined.

Definition sample_module : ir_module :=
  mk_ir (sample_levels sample_preamble sample_frame) pulse_init (mk_isr 0 0) keys_init 0 false false [].
Definition sample_standby : power := set_sys_state MV_SM_STATE_SUSPEND power_init.

(** A clock that looks at the buffer and 80 ms later again. *)
Definition press_reg (k : nat) : Z := 24000000 - 2000000 * Z.of_nat k.

Lemma ir_press_wakes_witness :
  exists m1 m2 s2, mv_sm_ir_task press_reg 3 vendor_ir_nec_table 100 sample_module sample_standby = Some (m1, sample_standby) /\
    mv_sm_ir_task press_reg 3 vendor_ir_nec_table 200 m1 sample_standby = Some (m2, s2) /\
    ir_out m2 = ir_out sample_module ++ [KeyState 1 MV_IR_KEY_POWER; KeyState 0 (MV_IR_KEY2UPKEY MV_IR_KEY_POWER)] /\
    power_myflow s2 = wake_flow (sys_state sample_standby) /\ power_mystatus s2 = STA_ENTERFLOW /\
    wakeup_source s2 = MV_SM_WAKEUP_SOURCE_IR /\ payload0 s2 = MV_IR_KEY2UPKEY MV_IR_KEY_POWER.
Proof.
  apply (ir_press_wakes press_reg vendor_ir_nec_table sample_code MV_IR_KEY_POWER sample_preamble sample_frame
    sample_module sample_standby 100 200).
  - exact sample_frame_ok.
  - cbn [sample_module ir_buf]. rewrite <- (app_nil_r (flat _)). apply (sample_pairs_hold _ []). vm_compute. lia.
  - split; [reflexivity|]. split; [left; reflexivity|left; vm_compute; discriminate].
  - vm_compute. reflexivity.
  - reflexivity.
  - reflexivity.
  - reflexivity.
  - intros j Hj. change (ir_reads sample_module) with 0%nat in *.
    assert (j = 3 \/ j = 4)%nat as [-> | ->] by lia; vm_compute; reflexivity.
  - reflexivity.
  - reflexivity.
  - reflexivity.
Defined.
