(* ===== verification/RingBuffer.v ===== *)
(** * The USB console and its ring buffers
    (boot/u-boot_2019_10/arch/arm/mach-synaptics/drivers/usbconsole/ring_buffer.c,
    usbconsole.c)

    A ring buffer lies in memory that two processors share: a header and the
    bytes after it.  One side pushes, the other pops.  The asserts of U-Boot are
    compiled out without DEBUG and are left out here; a copy outside the bytes of
    the buffer is undefined behaviour and gives [None]. *)

From S2P Require Import Prelude.

(** ** Data *)

Record ring_buffer := mk_ring { magic : Z; cur_rd : Z; cur_wr : Z; flags : Z; buffer_end : Z; data : bytes }.

Definition RING_BUFFER_MAGIC : Z := 0x52494e47.
Definition MIN_BUFFER_SIZE : Z := 512.
Definition HEAD_SIZE : Z := 32.

Definition set_rd (v : Z) (r : ring_buffer) : ring_buffer := mk_ring (magic r) v (cur_wr r) (flags r) (buffer_end r) (data r).
Definition set_wr (v : Z) (r : ring_buffer) : ring_buffer := mk_ring (magic r) (cur_rd r) v (flags r) (buffer_end r) (data r).
Definition set_bytes (d : bytes) (r : ring_buffer) : ring_buffer := mk_ring (magic r) (cur_rd r) (cur_wr r) (flags r) (buffer_end r) d.

(** memcpy into and out of the bytes of the buffer. *)
Definition copy_in (d : bytes) (off : Z) (l : bytes) : option bytes :=
  if decide (0 <= off /\ off + Z.of_nat (length l) <= Z.of_nat (length d)) then Some (splice d (Z.to_nat off) l) else None.

Definition copy_out (d : bytes) (off n : Z) : option bytes :=
  if decide (0 <= off /\ off + n <= Z.of_nat (length d)) then Some (take (Z.to_nat n) (drop (Z.to_nat off) d)) else None.

(** ** Operations *)

(** [r] is what the memory at [base_address] holds; the result says whether
    there is a handle. *)
Definition ring_buffer_attach (base_address size : Z) (r : ring_buffer) : ring_buffer * bool :=
  if (base_address =? 0) || (size <=? HEAD_SIZE + MIN_BUFFER_SIZE) then (r, false)
  else if negb (magic r =? RING_BUFFER_MAGIC)
       then (mk_ring RING_BUFFER_MAGIC 0 0 0 (u32 (size - 1 - HEAD_SIZE)) (data r), true)
       else if negb (buffer_end r =? u32 (size - 1 - HEAD_SIZE)) then (r, false) else (r, true).

(** The condition of the loop at the start of a push, which waits for the
    other side. *)
Definition push_waits (r : ring_buffer) : bool :=
  (u32 (cur_wr r + 1) =? cur_rd r) || ((cur_rd r =? 0) && (cur_wr r =? buffer_end r)).

(** A push once it waits no longer. *)
Definition ring_buffer_push (r : ring_buffer) (buffer : bytes) : option (ring_buffer * Z) :=
  let size := Z.of_nat (length buffer) in
  let remaining := u32 (buffer_end r - cur_wr r + 1) in
  if size <? remaining
  then d ← copy_in (data r) (cur_wr r) buffer;
       Some (set_wr (u32 (cur_wr r + size)) (set_bytes d r), size)
  else let rollback := u32 (size - remaining) in
       d ← copy_in (data r) (cur_wr r) (take (Z.to_nat remaining) buffer);
       d ← copy_in d 0 (take (Z.to_nat rollback) (drop (Z.to_nat remaining) buffer));
       Some (set_wr rollback (set_bytes d r), size).

(** The result is what was written to the caller's buffer. *)
Definition ring_buffer_pop (r : ring_buffer) (max_size : Z) : option (ring_buffer * bytes) :=
  if cur_rd r =? cur_wr r then Some (r, [])
  else if cur_rd r <? cur_wr r then
    let data_size := u32 (cur_wr r - cur_rd r) in
    let data_size := if max_size <? data_size then max_size else data_size in
    out ← copy_out (data r) (cur_rd r) data_size;
    Some (set_rd (u32 (cur_rd r + data_size)) r, out)
  else
    let remaining := u32 (buffer_end r - cur_rd r + 1) in
    if max_size <? remaining
    then out ← copy_out (data r) (cur_rd r) max_size;
         Some (set_rd (u32 (cur_rd r + max_size)) r, out)
    else let data_size := u32 (remaining + cur_wr r) in
         let data_size := if max_size <? data_size then max_size else data_size in
         let rollback := u32 (data_size - remaining) in
         out1 ← copy_out (data r) (cur_rd r) remaining;
         out2 ← copy_out (data r) 0 rollback;
         Some (set_rd rollback r, out1 ++ out2).

Definition ring_buffer_not_empty (r : ring_buffer) : Z := if cur_rd r =? cur_wr r then 0 else 1.

(** ** usbconsole.c *)

Definition EAGAIN : Z := 11.

Definition usbconsole_putc (put_buf : ring_buffer) (ch : Z) : option (ring_buffer * Z) :=
  '(r, ret) ← ring_buffer_push put_buf [ch];
  Some (r, if negb (ret =? 1) then -1 else 0).

Definition usbconsole_pending (get_buf : ring_buffer) (input : bool) : Z :=
  if input then ring_buffer_not_empty get_buf else 1.

Definition usbconsole_getc (get_buf : ring_buffer) : option (ring_buffer * Z) :=
  '(r, out) ← ring_buffer_pop get_buf 1;
  match out with
  | [] => Some (r, - EAGAIN)
  | ch :: _ => Some (r, ch)
  end.

(** ** The queue that a buffer stands for *)

Definition capacity (r : ring_buffer) : Z := buffer_end r + 1.

Record queue (r : ring_buffer) (l : bytes) : Prop := mk_queue {
  q_size : Z.of_nat (length (data r)) = capacity r;
  q_width : 1 <= capacity r < 2 ^ 31;
  q_rd : 0 <= cur_rd r < capacity r;
  q_wr : cur_wr r = (cur_rd r + Z.of_nat (length l)) mod capacity r;
  q_room : Z.of_nat (length l) < capacity r;
  q_cells : forall i x, l !! i = Some x -> data r !! Z.to_nat ((cur_rd r + Z.of_nat i) mod capacity r) = Some x
}.

Lemma mod_wrap a m : 0 < m -> 0 <= a < 2 * m -> a mod m = if a <? m then a else a - m.
Proof.
  intros Hm Ha. destruct (a <? m) eqn:E; bool_simpl; [apply Z.mod_small; lia|].
  rewrite <- (Z_mod_plus_full a (-1)). apply Z.mod_small. lia.
Qed.

(** The two cases of a queue: its bytes lie in one piece, or wrap around. *)
Lemma queue_wr r l : queue r l ->
  (cur_wr r = cur_rd r + Z.of_nat (length l) /\ cur_wr r < capacity r) \/
  (cur_wr r = cur_rd r + Z.of_nat (length l) - capacity r /\ capacity r <= cur_rd r + Z.of_nat (length l)).
Proof.
  intros [Hs Hw Hr Hwr Hm _]. rewrite mod_wrap in Hwr by lia. destruct (_ <? _) eqn:E in Hwr; bool_simpl; lia.
Qed.

Lemma queue_index r l i : queue r l -> 0 <= i < Z.of_nat (length l) ->
  (cur_rd r + i) mod capacity r = if cur_rd r + i <? capacity r then cur_rd r + i else cur_rd r + i - capacity r.
Proof. intros [Hs Hw Hr Hwr Hm _] Hi. apply mod_wrap; lia. Qed.

Lemma lookup_in l k i : (i < k)%nat -> take k l !! i = (l : bytes) !! i.
Proof. apply lookup_take_lt. Qed.

(** What is popped is the front of the queue. *)
Lemma pop_take r l k : queue r l -> (k <= length l)%nat ->
  queue (set_rd ((cur_rd r + Z.of_nat k) mod capacity r) r) (drop k l).
Proof.
  intros [Hs Hw Hr Hwr Hm Hc] Hk. split; cbn [data cur_rd cur_wr set_rd]; change (capacity (set_rd _ r)) with (capacity r); [done|done| | | |].
  - apply Z.mod_pos_bound. lia.
  - rewrite Hwr, Zplus_mod_idemp_l, length_drop. f_equal. lia.
  - rewrite length_drop. lia.
  - intros i x Hi. rewrite lookup_drop in Hi. rewrite Zplus_mod_idemp_l.
    replace (cur_rd r + Z.of_nat k + Z.of_nat i) with (cur_rd r + Z.of_nat (k + i)) by lia. now apply Hc.
Qed.

(** A copy out of the buffer that follows the queue for [k] bytes from its
    [i]-th on. *)
Lemma copy_out_queue r l off i k : queue r l -> 0 <= off ->
  off + Z.of_nat k <= capacity r -> (i + k <= length l)%nat ->
  (forall j, (j < k)%nat -> (cur_rd r + Z.of_nat (i + j)) mod capacity r = off + Z.of_nat j) ->
  copy_out (data r) off (Z.of_nat k) = Some (take k (drop i l)).
Proof.
  intros Hq Ho Hk Hi Hmod. unfold copy_out. rewrite decide_True by (rewrite (q_size _ _ Hq); lia). f_equal.
  rewrite Nat2Z.id. apply list_eq. intros j. destruct (decide (j < k)%nat) as [Hj|Hj].
  - rewrite !lookup_in, !lookup_drop by done. assert (Hl : (i + j < length l)%nat) by lia.
    destruct (lookup_lt_is_Some_2 l _ Hl) as [x Hx]. rewrite Hx. pose proof (q_cells _ _ Hq _ _ Hx) as H.
    rewrite Hmod in H by done. rewrite <- H. f_equal. lia.
  - rewrite !lookup_ge_None_2; [done|rewrite length_take; lia..].
Qed.

Lemma set_rd_queue r l k v : queue r l -> (k <= length l)%nat -> v = (cur_rd r + Z.of_nat k) mod capacity r ->
  queue (set_rd v r) (drop k l).
Proof. intros Hq Hk ->. now apply pop_take. Qed.

Lemma take_min (l : bytes) m : take (Nat.min m (length l)) l = take m l /\ drop (Nat.min m (length l)) l = drop m l.
Proof.
  destruct (decide (m <= length l)%nat); [now rewrite Nat.min_l by done|]. rewrite Nat.min_r by lia.
  rewrite !take_ge, !drop_ge by lia. done.
Qed.

(** Popping at most [m] bytes gives the first [m] of the queue. *)
Lemma ring_buffer_pop_spec r l m : queue r l -> 0 <= m < 2 ^ 32 ->
  exists r', ring_buffer_pop r m = Some (r', take (Z.to_nat m) l) /\ queue r' (drop (Z.to_nat m) l).
Proof.
  intros Hq Hm. pose proof Hq as [Hs Hw Hr _ Hroom _]. pose proof (queue_wr r l Hq) as Hwr.
  destruct (take_min l (Z.to_nat m)) as [Et Ed]. set (k := Nat.min (Z.to_nat m) (length l)) in *.
  rewrite <- Et, <- Ed. clear Et Ed. assert (Hk : (k <= length l)%nat) by lia. unfold ring_buffer_pop.
  destruct (cur_rd r =? cur_wr r) eqn:E1; bool_simpl.
  { exists r. assert (l = []) as -> by (apply nil_length_inv; lia). rewrite take_nil, drop_nil. done. }
  destruct (cur_rd r <? cur_wr r) eqn:E2; bool_simpl.
  - rewrite (u32_id (cur_wr r - cur_rd r)) by (unfold is_u32; lia).
    assert (Ek : (if m <? cur_wr r - cur_rd r then m else cur_wr r - cur_rd r) = Z.of_nat k).
    { destruct (m <? _) eqn:E; bool_simpl; lia. }
    rewrite Ek. rewrite (copy_out_queue r l (cur_rd r) 0 k Hq) by (lia || (intros j Hj; rewrite Z.mod_small; lia)).
    cbn [mbind option_bind]. rewrite u32_id by (unfold is_u32; lia). eexists. split; [reflexivity|].
    apply (set_rd_queue r l k); [done|done|]. rewrite Z.mod_small; lia.
  - change (buffer_end r - cur_rd r + 1) with (buffer_end r - cur_rd r + 1).
    replace (buffer_end r - cur_rd r + 1) with (capacity r - cur_rd r) by (unfold capacity; lia).
    rewrite (u32_id (capacity r - cur_rd r)) by (unfold is_u32; lia).
    destruct (m <? capacity r - cur_rd r) eqn:E3; bool_simpl.
    + replace m with (Z.of_nat k) by lia.
      rewrite (copy_out_queue r l (cur_rd r) 0 k Hq) by (lia || (intros j Hj; rewrite Z.mod_small; lia)).
      cbn [mbind option_bind]. rewrite u32_id by (unfold is_u32; lia). eexists. split; [reflexivity|].
      apply (set_rd_queue r l k); [done|done|]. rewrite Z.mod_small; lia.
    + rewrite (u32_id (capacity r - cur_rd r + cur_wr r)) by (unfold is_u32; lia).
      assert (Ek : (if m <? capacity r - cur_rd r + cur_wr r then m else capacity r - cur_rd r + cur_wr r) = Z.of_nat k).
      { destruct (m <? _) eqn:E; bool_simpl; lia. }
      rewrite Ek. set (k1 := Z.to_nat (capacity r - cur_rd r)). set (k2 := (k - k1)%nat).
      replace (capacity r - cur_rd r) with (Z.of_nat k1) by lia.
      replace (u32 (Z.of_nat k - Z.of_nat k1)) with (Z.of_nat k2) by (rewrite u32_id by (unfold is_u32; lia); lia).
      rewrite (copy_out_queue r l (cur_rd r) 0 k1 Hq) by (lia || (intros j Hj; rewrite Z.mod_small; lia)). cbn [mbind option_bind].
      rewrite (copy_out_queue r l 0 k1 k2 Hq); [|lia..|].
      2:{ intros j Hj. rewrite mod_wrap by lia. rewrite (proj2 (Z.ltb_ge _ _)) by lia. lia. }
      cbn [mbind option_bind]. eexists. split.
      * rewrite drop_0. replace k with (k1 + k2)%nat by lia. rewrite <- take_take_drop. reflexivity.
      * apply (set_rd_queue r l k); [done|done|]. rewrite mod_wrap by lia. rewrite (proj2 (Z.ltb_ge _ _)) by lia. lia.
Qed.

(** The bytes [d] extend the queue [l] by [bs]. *)
Lemma push_queue r l bs d v : queue r l -> Z.of_nat (length l + length bs) < capacity r ->
  length d = length (data r) -> v = (cur_wr r + Z.of_nat (length bs)) mod capacity r ->
  (forall i, 0 <= i < Z.of_nat (length l) ->
    d !! Z.to_nat ((cur_rd r + i) mod capacity r) = data r !! Z.to_nat ((cur_rd r + i) mod capacity r)) ->
  (forall j, (j < length bs)%nat -> d !! Z.to_nat ((cur_wr r + Z.of_nat j) mod capacity r) = bs !! j) ->
  queue (set_wr v (set_bytes d r)) (l ++ bs).
Proof.
  intros [Hs Hw Hr Hwr Hm Hc] Hroom Hd -> Hold Hnew.
  split; cbn [data cur_rd cur_wr set_wr set_bytes]; change (capacity (set_wr _ _)) with (capacity r);
    [now rewrite Hd|done|done| |rewrite length_app; lia|].
  - rewrite Hwr, Zplus_mod_idemp_l, length_app. f_equal. lia.
  - intros i x Hi. apply lookup_app_Some in Hi as [Hi|[Hge Hi]].
    + rewrite Hold; [now apply Hc|]. apply lookup_lt_Some in Hi. lia.
    + pose proof (lookup_lt_Some _ _ _ Hi). rewrite <- Hi, <- (Hnew (i - length l)%nat) by lia. do 2 f_equal.
      rewrite Hwr, Zplus_mod_idemp_l. f_equal. lia.
Qed.

Lemma copy_in_ok d off l : 0 <= off -> off + Z.of_nat (length l) <= Z.of_nat (length d) ->
  copy_in d off l = Some (splice d (Z.to_nat off) l).
Proof. intros. unfold copy_in. now rewrite decide_True by lia. Qed.

(** Pushing bytes for which there is room appends them to the queue. *)
Lemma ring_buffer_push_spec r l bs : queue r l -> Z.of_nat (length l + length bs) < capacity r ->
  exists r', ring_buffer_push r bs = Some (r', Z.of_nat (length bs)) /\ queue r' (l ++ bs).
Proof.
  intros Hq Hroom. pose proof Hq as [Hs Hw Hr _ _ _]. pose proof (queue_wr r l Hq) as Hwr.
  unfold ring_buffer_push. replace (buffer_end r - cur_wr r + 1) with (capacity r - cur_wr r) by (unfold capacity; lia).
  rewrite (u32_id (capacity r - cur_wr r)) by (unfold is_u32; lia).
  destruct (Z.of_nat (length bs) <? capacity r - cur_wr r) eqn:E; bool_simpl.
  - rewrite copy_in_ok by lia. cbn [mbind option_bind]. rewrite u32_id by (unfold is_u32; lia).
    eexists. split; [reflexivity|]. apply (push_queue r l bs); [done|done|apply length_splice; lia|rewrite Z.mod_small; lia| |].
    + intros i Hi. rewrite (queue_index r l i Hq Hi). apply splice_lookup_old; [lia|].
      destruct (_ <? _) eqn:E2; bool_simpl; lia.
    + intros j Hj. rewrite Z.mod_small by lia. rewrite splice_lookup_new by lia. f_equal. lia.
  - assert (Hrem : Z.of_nat (length bs) - (capacity r - cur_wr r) < cur_rd r) by lia.
    set (k := Z.to_nat (capacity r - cur_wr r)).
    rewrite (u32_id (Z.of_nat (length bs) - _)) by (unfold is_u32; lia).
    rewrite copy_in_ok by (rewrite ?length_take; lia). cbn [mbind option_bind].
    assert (Hl1 : length (splice (data r) (Z.to_nat (cur_wr r)) (take k bs)) = length (data r)) by (apply length_splice; rewrite length_take; lia).
    rewrite (take_ge (drop k bs)) by (rewrite length_drop; lia).
    rewrite copy_in_ok by (rewrite ?length_drop, ?Hl1; lia). cbn [mbind option_bind].
    eexists. split; [reflexivity|]. apply (push_queue r l bs); [done|done| | | |].
    + rewrite length_splice; [done|]. rewrite Hl1, length_drop. lia.
    + rewrite mod_wrap by lia. rewrite (proj2 (Z.ltb_ge _ _)) by lia. lia.
    + intros i Hi. rewrite (queue_index r l i Hq Hi). rewrite (proj2 (Z.ltb_lt _ _)) by lia.
      rewrite splice_lookup_old; [|rewrite Hl1, length_drop; lia|rewrite length_drop; lia].
      apply splice_lookup_old; rewrite length_take; lia.
    + intros j Hj. rewrite mod_wrap by lia. destruct (_ <? _) eqn:E2; bool_simpl.
      * rewrite splice_lookup_old; [|rewrite Hl1, length_drop; lia|rewrite length_drop; lia].
        rewrite splice_lookup_new by (rewrite length_take; lia). rewrite lookup_in by lia. f_equal. lia.
      * rewrite splice_lookup_new by (rewrite ?Hl1, length_drop; lia). rewrite lookup_drop. f_equal. lia.
Qed.

Lemma push_waits_spec r l : queue r l -> push_waits r = true <-> Z.of_nat (length l) = capacity r - 1.
Proof.
  intros Hq. pose proof Hq as [Hs Hw Hr _ Hroom _]. pose proof (queue_wr r l Hq) as Hwr. unfold push_waits.
  rewrite u32_id by (unfold is_u32; lia). unfold capacity in *.
  rewrite orb_true_iff, andb_true_iff, !Z.eqb_eq. lia.
Qed.

(** ** The console as a byte stream *)

Inductive console_op := Put (ch : Z) | Get (max_size : Z).

(** The writer waits while the buffer is full: a put that would wait is no step
    yet.  The bytes put and got so far are returned. *)
Fixpoint console_run (ops : list console_op) (r : ring_buffer) : option (ring_buffer * bytes * bytes) :=
  match ops with
  | [] => Some (r, [], [])
  | Put ch :: ops =>
      if push_waits r then console_run ops r
      else '(r, ret) ← usbconsole_putc r ch;
           '(r, put, got) ← console_run ops r; Some (r, ch :: put, got)
  | Get m :: ops =>
      '(r, out) ← ring_buffer_pop r m;
      '(r, put, got) ← console_run ops r; Some (r, put, out ++ got)
  end.

Definition op_ok (o : console_op) : Prop := match o with Put _ => True | Get m => 0 <= m < 2 ^ 32 end.

(** C32: The console is a lossless byte stream: for any sequence of characters that
    one side puts, each after the wait for room, and of reads of any size by the
    other, no operation fails, and what was read followed by what is still in the
    buffer is what was put, in order. *)
Theorem console_stream ops r l :
  queue r l -> Forall op_ok ops ->
  exists r' l' put got, console_run ops r = Some (r', put, got) /\ queue r' l' /\ l ++ put = got ++ l'.
Proof.
  revert r l. induction ops as [|[ch|m] ops IH]; intros r l Hq Hops.
  - exists r, l, [], []. rewrite app_nil_r. done.
  - apply Forall_cons_iff in Hops as [_ Hops]. cbn [console_run]. destruct (push_waits r) eqn:Ew; [now apply IH|].
    destruct (ring_buffer_push_spec r l [ch] Hq) as (r1 & E1 & Hq1).
    { pose proof (q_room _ _ Hq). pose proof (push_waits_spec r l Hq) as Hw. rewrite Ew in Hw. cbn [length].
      assert (Z.of_nat (length l) <> capacity r - 1) by (intros H1; apply Hw in H1; done). lia. }
    unfold usbconsole_putc. rewrite E1. cbn [mbind option_bind].
    destruct (IH r1 (l ++ [ch]) Hq1 Hops) as (r2 & l2 & put & got & -> & Hq2 & E2). cbn [mbind option_bind].
    exists r2, l2, (ch :: put), got. split_and!; [done|done|]. rewrite <- E2, <- app_assoc. done.
  - apply Forall_cons_iff in Hops as [Hm Hops]. cbn [console_run].
    destruct (ring_buffer_pop_spec r l m Hq Hm) as (r1 & -> & Hq1). cbn [mbind option_bind].
    destruct (IH r1 _ Hq1 Hops) as (r2 & l2 & put & got & -> & Hq2 & E2). cbn [mbind option_bind].
    exists r2, l2, put, (take (Z.to_nat m) l ++ got). split_and!; [done|done|].
    rewrite <- app_assoc, <- E2, app_assoc, take_drop. done.
Qed.

(** ** Attaching *)

(** Memory without the magic number becomes an empty queue; memory that has
    been attached before, with the same size, keeps its bytes for the reader. *)
Theorem ring_buffer_attach_spec base size r :
  base <> 0 -> HEAD_SIZE + MIN_BUFFER_SIZE < size < 2 ^ 31 -> Z.of_nat (length (data r)) = size - HEAD_SIZE ->
  (magic r <> RING_BUFFER_MAGIC -> exists r', ring_buffer_attach base size r = (r', true) /\ queue r' []) /\
  (forall l, magic r = RING_BUFFER_MAGIC -> queue r l -> ring_buffer_attach base size r = (r, true)).
Proof.
  intros Hb Hs Hd. unfold HEAD_SIZE, MIN_BUFFER_SIZE in *. unfold ring_buffer_attach, HEAD_SIZE, MIN_BUFFER_SIZE.
  rewrite (proj2 (Z.eqb_neq base 0) Hb), (proj2 (Z.leb_gt _ _)) by lia. cbn [orb].
  assert (E : u32 (size - 1 - 32) = size - 33) by (rewrite u32_id; unfold is_u32; lia). rewrite E. split.
  - intros Hm. rewrite (proj2 (Z.eqb_neq _ _) Hm). cbn [negb]. eexists. split; [reflexivity|].
    split; unfold capacity; cbn [data cur_rd cur_wr buffer_end length]; try lia.
    + now rewrite Z.mod_small by lia.
    + intros i x Hi. now rewrite lookup_nil in Hi.
  - intros l Hm Hq. rewrite Hm. cbn [Z.eqb negb]. rewrite (proj2 (Z.eqb_eq (buffer_end r) _)); [done|].
    pose proof (q_size _ _ Hq). unfold capacity in *. lia.
Qed.

(** A push of more than one byte checks that there is room for one only: here
    510 bytes are in a buffer of 513, the push of three more does not wait,
    reports success, and leaves a buffer that is empty for the reader. *)
Theorem ring_buffer_push_overruns :
  let r := fst (ring_buffer_attach 0x1000 545 (mk_ring 0 0 0 0 0 (replicate (Z.to_nat 513) 0))) in
  exists r1 r2, ring_buffer_push r (replicate (Z.to_nat 510) 65) = Some (r1, 510) /\ push_waits r1 = false /\
    ring_buffer_push r1 [66; 67; 68] = Some (r2, 3) /\ ring_buffer_pop r2 1000 = Some (r2, []).
Proof.
  assert (H : match ring_buffer_push (fst (ring_buffer_attach 0x1000 545 (mk_ring 0 0 0 0 0 (replicate (Z.to_nat 513) 0)))) (replicate (Z.to_nat 510) 65) with
    | Some (r1, n1) => match ring_buffer_push r1 [66; 67; 68] with
        | Some (r2, n2) => (n1 =? 510) && negb (push_waits r1) && (n2 =? 3) && (cur_rd r2 =? cur_wr r2)
        | None => false end
    | None => false end = true) by (vm_compute; reflexivity).
  intros r. fold r in H. destruct (ring_buffer_push r _) as [[r1 n1]|] eqn:E1; [|done].
  destruct (ring_buffer_push r1 _) as [[r2 n2]|] eqn:E2; [|done]. bool_simpl. subst. exists r1, r2.
  split_and!; [done..|]. unfold ring_buffer_pop. rewrite (proj2 (Z.eqb_eq (cur_rd r2) (cur_wr r2))) by done. done.
Qed.

(** ** Witness *)

Definition sample_ring : ring_buffer := fst (ring_buffer_attach 0x1000 545 (mk_ring 0 0 0 0 0 (replicate (Z.to_nat 513) 0))).

Lemma sample_ring_queue : queue sample_ring [].
Proof.
  split; [reflexivity|vm_compute; split; [discriminate|reflexivity]..|reflexivity|vm_compute; reflexivity|].
  intros i x Hi. now rewrite lookup_nil in Hi.
Qed.

Lemma console_stream_witness :
  exists r' l' put got, console_run [Put 104; Put 105; Get 1; Put 33; Get 10] sample_ring = Some (r', put, got) /\
    queue r' l' /\ [] ++ put = got ++ l'.
Proof.
  apply (console_stream [Put 104; Put 105; Get 1; Put 33; Get 10] sample_ring []).
  - exact sample_ring_queue.
  - repeat constructor; vm_compute; discriminate.
Defined.
