(* ===== verification/Buttons.v ===== *)
(** * The buttons of the board
    (boot/bootloader/sm_cm3/syna/src/btn/sm_gpiobtn.c, sm_adcbtn.c)

    The button on a GPIO pin: the interrupt handler times the press, the task
    acts on it.  The buttons on the two ADC inputs: the task samples the voltage,
    filters bounces and acts on the press.  [now] is what mv_sm_timer_gettimems()
    gives, and messages and flows are effects on the power state of PowerFlow.v. *)

From S2P Require Import Prelude PowerFlow.

Definition MV_IR_KEY_NULL : Z := 0.
Definition MV_IR_KEY_BEGIN_PAIRING : Z := 0x202.
Definition MV_IR_KEY_RECOVERY : Z := 0x203.

(** A key is sent as a down and an up event. *)
Definition send_key (now key : Z) (s : power) : power :=
  emit now (SendMsg MV_SM_ID_IR [Z.lor key 0x8000000]) (emit now (SendMsg MV_SM_ID_IR [key]) s).

Module Gpio.

Definition LONG_PRESS_ACTION_TIME : Z := 10 * 1000.
Definition SHORT_PRESS_ACTION_TIME : Z := 3 * 1000.
Definition LONG_PRESS_TIMEOUT : Z := 10 * 1000 * 2.
Definition SHORT_PRESS_THRESHOLD : Z := 1000.

(** [falling]: the edge the pin is armed for. *)
Record btn := mk_btn { press_time : Z; long_press_time : Z; falling : bool }.

Definition btn_init : btn := mk_btn 0 0 true.

Definition handle_gpiobtn_press (now dur : Z) (b : btn) (s : power) : btn * power :=
  let s := if standby (mv_sm_get_state s) then handle_gpiobtn_wakeup now s
           else if mv_sm_get_linux_state s then
             if (SHORT_PRESS_ACTION_TIME <? dur) && (dur <? LONG_PRESS_ACTION_TIME) then send_key now MV_IR_KEY_BEGIN_PAIRING s
             else if LONG_PRESS_ACTION_TIME <? dur then
               if dur <? LONG_PRESS_TIMEOUT then send_key now MV_IR_KEY_RECOVERY s else s
             else s
           else s in
  (mk_btn (press_time b) 0 (falling b), s).

Definition sm_gpiobtn_task_entry (now : Z) (b : btn) (s : power) : btn * power :=
  let curr_time := i32 now in
  if negb (long_press_time b =? 0) then handle_gpiobtn_press now (u32 (long_press_time b)) b s
  else if negb (press_time b =? 0) then
    let dur := i32 (curr_time - press_time b) in
    if LONG_PRESS_ACTION_TIME <? dur then
      let '(b, s) := handle_gpiobtn_press now (u32 dur) (mk_btn (press_time b) (long_press_time b) true) s in
      (mk_btn 0 (long_press_time b) (falling b), s)
    else (b, s)
  else (b, s).

Definition sm_gpiobtn_isr (now : Z) (b : btn) : btn :=
  if falling b then
    if press_time b =? 0 then mk_btn (i32 now) 0 false
    else mk_btn 0 (long_press_time b) (falling b)
  else
    let release_time := i32 now in
    let dur := i32 (release_time - press_time b) in
    mk_btn 0 (if SHORT_PRESS_THRESHOLD <? dur then dur else long_press_time b) true.

End Gpio.

Module Adc.

(** The thresholds and times of sm_adcbtn.h, and the level that counts as
    pressed, a choice of the build. *)
Definition VOLTAGE_STAGE1_THRESHOLD : Z := 0x6aa.
Definition VOLTAGE_STAGE2_THRESHOLD : Z := 0xc99.
Definition BUTTON_FILTER1 : Z := 15.
Definition BUTTON_FILTER2 : Z := 20.
Definition ADC_SAMPLE_TIME : Z := 4.
Definition SHORT_PRESS_THRESHOLD : Z := 100.
Definition LONG_PRESS_TIMEOUT : Z := 10 * 1000.

Inductive ADC_INPUT := ADC_INPUT0 | ADC_INPUT1.
Inductive ADC_BTN_ID := SW1 | SW2 | SW3 | SW4.

Definition short_press_action_time (k : ADC_BTN_ID) : Z := match k with SW1 => 500 | _ => 100 end.
Definition long_press_action_time (k : ADC_BTN_ID) : Z := 5 * 1000.
Definition MV_IR_KEY_VOL_MINUS : Z := 0x6001.
Definition MV_IR_KEY_VOL_PLUS : Z := 0x6000.

Definition short_press_ir_key (k : ADC_BTN_ID) : Z :=
  match k with
  | SW1 => MV_IR_KEY_BEGIN_PAIRING
  | SW2 => MV_IR_KEY_POWER
  | SW3 => MV_IR_KEY_VOL_MINUS
  | SW4 => MV_IR_KEY_VOL_PLUS
  end.

Definition long_press_ir_key (k : ADC_BTN_ID) : Z := match k with SW2 => MV_IR_KEY_RECOVERY | _ => MV_IR_KEY_NULL end.

(** The sum over the samples, which ends at the first that failed. *)
Fixpoint adc_sum (samples : list Z) (acc : Z) : option Z :=
  match samples with
  | [] => Some acc
  | data :: samples => if data <? 0 then None else adc_sum samples (u32 (acc + data))
  end.

(** sm_adc_read on what sm_adc_getdata() returns for each sample; the
    programming of the converter is outside. *)
Definition sm_adc_read (samples : list Z) : Z :=
  match adc_sum samples 0 with
  | None => -1
  | Some sum => i32 (sum / Z.of_nat (length samples))
  end.

Record input := mk_input { start_time : Z; end_time : Z; first_time : Z; last_time : Z }.

Definition input_init : input := mk_input 0 0 0 0.

Section Level.
Variable HIGH_LEV_VALID : bool.

Definition BUTTON_PRESSED (val : Z) : bool :=
  if HIGH_LEV_VALID then VOLTAGE_STAGE1_THRESHOLD <=? val else val <=? VOLTAGE_STAGE2_THRESHOLD.
Definition BUTTON_RELEASED (val : Z) : bool :=
  if HIGH_LEV_VALID then val <? VOLTAGE_STAGE1_THRESHOLD else VOLTAGE_STAGE2_THRESHOLD <? val.

Definition key_id (i : ADC_INPUT) (value : Z) : option ADC_BTN_ID :=
  match i with
  | ADC_INPUT0 => if VOLTAGE_STAGE2_THRESHOLD <=? value then Some SW2 else if VOLTAGE_STAGE1_THRESHOLD <=? value then Some SW1 else None
  | ADC_INPUT1 => if VOLTAGE_STAGE2_THRESHOLD <=? value then Some SW4 else if VOLTAGE_STAGE1_THRESHOLD <=? value then Some SW3 else None
  end.

(** The key of a press of [dur] milliseconds. *)
Definition press_key (i : ADC_INPUT) (value dur : Z) : Z :=
  match key_id i value with
  | Some k =>
      if (short_press_action_time k <? dur) && (dur <? long_press_action_time k) then short_press_ir_key k
      else if (long_press_action_time k <? dur) && (dur <? LONG_PRESS_TIMEOUT) then long_press_ir_key k
      else MV_IR_KEY_NULL
  | None => MV_IR_KEY_NULL
  end.

Definition handle_cbtn_press (now : Z) (i : ADC_INPUT) (value dur : Z) (s : power) : input * power :=
  let iMsg := press_key i value dur in
  let s := if negb (iMsg =? MV_IR_KEY_NULL) then
             if mv_sm_get_linux_state s then send_key now iMsg s
             else if iMsg =? MV_IR_KEY_POWER then
               if standby (mv_sm_get_state s)
               then fst (mv_sm_power_enterflow_bysmstate now (mv_sm_power_setwakeupsource MV_SM_WAKEUP_SOURCE_BUTTON s)) else s
             else s
           else s in
  (input_init, s).

(** The first half of an iteration: the start of a press.  The result [None]
    is the continue. *)
Definition press_begin (now value key : Z) (a : input) : option (input * Z) :=
  if (first_time a =? 0) && BUTTON_PRESSED value then
    if start_time a =? 0 then Some (mk_input now (end_time a) (first_time a) (last_time a), value)
    else if BUTTON_FILTER1 <? u32 (now - start_time a) then Some (mk_input (start_time a) (end_time a) now (last_time a), value)
    else Some (a, value)
  else if (first_time a =? 0) && BUTTON_RELEASED value then None
  else Some (a, key).

Definition press_none (now : Z) (a : input) : input :=
  if negb (start_time a =? 0) && (BUTTON_FILTER2 <? u32 (now - start_time a))
  then mk_input 0 (end_time a) (first_time a) (last_time a) else a.

(** The second half: the end of a press. *)
Definition press_end (now value key : Z) (a : input) : input * Z :=
  if negb (first_time a =? 0) && BUTTON_RELEASED value then
    if end_time a =? 0 then (mk_input (start_time a) now (first_time a) (last_time a), key)
    else if BUTTON_FILTER2 <? u32 (now - end_time a) then (mk_input (start_time a) (end_time a) (first_time a) now, key)
    else (a, key)
  else if negb (first_time a =? 0) && BUTTON_PRESSED value then
    (if negb (end_time a =? 0) && (BUTTON_FILTER1 <? u32 (now - end_time a))
     then mk_input (start_time a) 0 (first_time a) (last_time a) else a, value)
  else (a, key).

(** One input; [key] is the value of the static variable that all inputs share. *)
Definition input_step (now : Z) (i : ADC_INPUT) (value key : Z) (a : input) (s : power) : input * Z * power :=
  if value <? 0 then (a, key, s)
  else match press_begin now value key a with
       | None => (press_none now a, key, s)
       | Some (a, key) =>
           let '(a, key) := press_end now value key a in
           if negb (last_time a =? 0) then
             let dur := u32 (last_time a - first_time a) in
             if SHORT_PRESS_THRESHOLD <? dur
             then let '(a, s) := handle_cbtn_press now i key dur s in (a, key, s)
             else (input_init, key, s)
           else (a, key, s)
       end.

Record adc := mk_adc { in0 : input; in1 : input; adc_key : Z }.

Definition adc_init : adc := mk_adc input_init input_init 0.

(** [v0] and [v1] are what sm_adc_read() gives for the two inputs. *)
Definition sm_adcbtn_task_entry (now v0 v1 : Z) (m : adc) (s : power) : adc * power :=
  let curr_time := u32 now in
  let '(a0, key, s) := input_step curr_time ADC_INPUT0 v0 (adc_key m) (in0 m) s in
  let '(a1, key, s) := input_step curr_time ADC_INPUT1 v1 key (in1 m) s in
  (mk_adc a0 a1 key, s).

End Level.
End Adc.
