(* ===== verification/ButtonSafety.v ===== *)
(** * The buttons act once per press, on the right key

    Theorems about Buttons.v. *)

From S2P Require Import Prelude PowerFlow Buttons.

(** ** The ADC buttons *)

Section Samples.
Variable HIGH_LEV_VALID : bool.
Variable i : Adc.ADC_INPUT.

(** An input sampled at given times with given values. *)
Fixpoint feed (samples : list (Z * Z)) (a : Adc.input) (key : Z) (s : power) : Adc.input * Z * power :=
  match samples with
  | [] => (a, key, s)
  | (now, value) :: samples =>
      let '(a, key, s) := Adc.input_step HIGH_LEV_VALID now i value key a s in feed samples a key s
  end.

Lemma feed_app l1 : forall l2 a key s,
  feed (l1 ++ l2) a key s = let '(a, key, s) := feed l1 a key s in feed l2 a key s.
Proof.
  induction l1 as [|[now value] l1 IH]; intros l2 a key s; [done|]. cbn [app feed].
  destruct (Adc.input_step _ _ _ _ _ _ _) as [[a1 key1] s1]. apply IH.
Qed.

Definition pressed (v : Z) : Prop := 0 <= v /\ Adc.BUTTON_PRESSED HIGH_LEV_VALID v = true.
Definition released (v : Z) : Prop := 0 <= v /\ Adc.BUTTON_RELEASED HIGH_LEV_VALID v = true.

Lemma pressed_not_released v : Adc.BUTTON_PRESSED HIGH_LEV_VALID v = negb (Adc.BUTTON_RELEASED HIGH_LEV_VALID v).
Proof. unfold Adc.BUTTON_PRESSED, Adc.BUTTON_RELEASED. destruct HIGH_LEV_VALID; [apply Z.leb_antisym|apply Z.leb_antisym]. Qed.

(** Times of one window of at most [d] milliseconds from [t0] on. *)
Definition within (t0 d : Z) (t : Z) : Prop := t0 <= t <= t0 + d /\ 0 < t0 /\ t < 2 ^ 32.

Lemma elapsed t0 d t : within t0 d t -> u32 (t - t0) = t - t0 /\ t <> 0.
Proof. intros (H1 & H2 & H3). rewrite u32_id by (unfold is_u32; lia). lia. Qed.

(** The value of the last sample, or [v] without one. *)
Definition last_value (l : list (Z * Z)) (v : Z) : Z := List.last (snd <$> l) v.

Lemma last_value_cons t x l v : last_value ((t, x) :: l) v = last_value l x.
Proof.
  unfold last_value. rewrite fmap_cons. cbn [snd]. induction (snd <$> l) as [|y r _] using rev_ind; [done|].
  rewrite app_comm_cons, !last_last. done.
Qed.

Ltac step_pressed Hv :=
  unfold Adc.input_step, Adc.press_begin, Adc.press_end; destruct Hv as [Hv0 Hv1];
  rewrite (proj2 (Z.ltb_ge _ _) Hv0), ?Hv1.

(** While the button is seen as pressed, for at most 15 ms since it was first. *)
Lemma feed_starting l t0 : forall v s, 0 < t0 -> Forall (fun p => within t0 15 p.1 /\ pressed p.2) l ->
  feed l (Adc.mk_input t0 0 0 0) v s = (Adc.mk_input t0 0 0 0, last_value l v, s).
Proof.
  induction l as [|[t x] l IH]; intros v s Ht0 Hl; [done|]. apply Forall_cons_iff in Hl as [[Ht Hx] Hl]. cbn [fst snd] in *.
  rewrite last_value_cons. cbn [feed]. pose proof (elapsed t0 15 t Ht) as [E Hne]. pose proof (pressed_not_released x) as Hpr.
  step_pressed Hx. cbn [Adc.first_time Adc.start_time Adc.end_time Adc.last_time Z.eqb andb negb].
  rewrite (proj2 (Z.eqb_neq t0 0)) by lia. rewrite E. unfold Adc.BUTTON_FILTER1. rewrite (proj2 (Z.ltb_ge 15 _)) by (destruct Ht; lia).
  cbn [Adc.first_time Adc.last_time Z.eqb andb negb]. now apply IH.
Qed.

(** While a press that has begun goes on. *)
Lemma feed_pressed l t0 f : forall v s, 0 < f -> Forall (fun p => pressed p.2) l ->
  feed l (Adc.mk_input t0 0 f 0) v s = (Adc.mk_input t0 0 f 0, last_value l v, s).
Proof.
  induction l as [|[t x] l IH]; intros v s Hf Hl; [done|]. apply Forall_cons_iff in Hl as [Hx Hl]. cbn [fst snd] in *.
  rewrite last_value_cons. cbn [feed]. pose proof (pressed_not_released x) as Hpr.
  step_pressed Hx. rewrite Hv1 in Hpr. symmetry in Hpr. apply negb_true_iff in Hpr. rewrite ?Hpr.
  cbn [Adc.first_time Adc.start_time Adc.end_time Adc.last_time]. rewrite (proj2 (Z.eqb_neq f 0)) by lia.
  cbn [Z.eqb andb negb Adc.first_time Adc.start_time Adc.end_time Adc.last_time]. rewrite ?(proj2 (Z.eqb_neq f 0)) by lia.
  rewrite ?Hv1, ?Hpr. cbn [Z.eqb andb negb Adc.first_time Adc.end_time Adc.last_time]. now apply IH.
Qed.

(** While the button is seen as released, for at most 20 ms since it was first. *)
Lemma feed_ending l t0 f r0 : forall v s, 0 < f -> 0 < r0 -> Forall (fun p => within r0 20 p.1 /\ released p.2) l ->
  feed l (Adc.mk_input t0 r0 f 0) v s = (Adc.mk_input t0 r0 f 0, v, s).
Proof.
  induction l as [|[t x] l IH]; intros v s Hf Hr Hl; [done|]. apply Forall_cons_iff in Hl as [[Ht Hx] Hl]. cbn [fst snd] in *.
  cbn [feed]. pose proof (elapsed r0 20 t Ht) as [E Hne]. pose proof (pressed_not_released x) as Hpr.
  step_pressed Hx. rewrite Hv1 in Hpr. cbn [negb] in Hpr. rewrite ?Hpr.
  cbn [Adc.first_time Adc.start_time Adc.end_time Adc.last_time]. rewrite (proj2 (Z.eqb_neq f 0)) by lia.
  cbn [Z.eqb andb negb Adc.first_time Adc.start_time Adc.end_time Adc.last_time]. rewrite ?(proj2 (Z.eqb_neq f 0)), ?Hv1 by lia.
  cbn [andb negb]. rewrite (proj2 (Z.eqb_neq r0 0)), E by lia. unfold Adc.BUTTON_FILTER2.
  rewrite (proj2 (Z.ltb_ge 20 _)) by (destruct Ht; lia). cbn [Adc.last_time Z.eqb negb]. now apply IH.
Qed.


Definition on (p : Z * Z) : Prop := pressed p.2.

(** The samples of a clean press: first seen at [t0], still there at [tf] more
    than 15 ms later, released at [r0] and still so at [rl] more than 20 ms later. *)
Record clean_press (t0 tf r0 rl v0 vf vr vl : Z) (mid held rel : list (Z * Z)) : Prop := mk_clean_press {
  cp_start : 0 < t0; cp_first : t0 + 15 < tf < 2 ^ 32; cp_down : 0 <= rl - tf; cp_up : 0 < r0 /\ r0 + 20 < rl < 2 ^ 32;
  cp_v0 : pressed v0; cp_vf : pressed vf; cp_vr : released vr; cp_vl : released vl;
  cp_mid : Forall (fun p => within t0 15 p.1 /\ pressed p.2) mid;
  cp_held : Forall (fun p => pressed p.2) held;
  cp_rel : Forall (fun p => within r0 20 p.1 /\ released p.2) rel
}.

Definition press_samples (t0 tf r0 rl v0 vf vr vl : Z) (mid held rel : list (Z * Z)) : list (Z * Z) :=
  (t0, v0) :: mid ++ (tf, vf) :: held ++ (r0, vr) :: rel ++ [(rl, vl)].

Lemma step_start t0 v0 key s : 0 < t0 -> pressed v0 ->
  Adc.input_step HIGH_LEV_VALID t0 i v0 key Adc.input_init s = (Adc.mk_input t0 0 0 0, v0, s).
Proof.
  intros Ht Hv. step_pressed Hv. cbn. done.
Qed.

Lemma step_first t0 tf vf key s : 0 < t0 -> t0 + 15 < tf < 2 ^ 32 -> pressed vf ->
  Adc.input_step HIGH_LEV_VALID tf i vf key (Adc.mk_input t0 0 0 0) s = (Adc.mk_input t0 0 tf 0, vf, s).
Proof.
  intros Ht Hf Hv. pose proof (pressed_not_released vf) as Hpr. step_pressed Hv.
  rewrite Hv1 in Hpr. symmetry in Hpr. apply negb_true_iff in Hpr.
  cbn [Adc.first_time Adc.start_time Adc.end_time Adc.last_time Z.eqb andb negb].
  rewrite (proj2 (Z.eqb_neq t0 0)) by lia. rewrite u32_id by (unfold is_u32; lia). unfold Adc.BUTTON_FILTER1.
  rewrite (proj2 (Z.ltb_lt 15 _)) by lia. cbn [Adc.first_time Adc.end_time Adc.last_time Adc.start_time].
  rewrite (proj2 (Z.eqb_neq tf 0)) by lia. rewrite Hpr. cbn. done.
Qed.

Lemma step_release t0 f r0 vr key s : 0 < f -> 0 < r0 -> released vr ->
  Adc.input_step HIGH_LEV_VALID r0 i vr key (Adc.mk_input t0 0 f 0) s = (Adc.mk_input t0 r0 f 0, key, s).
Proof.
  intros Hf Hr Hv. pose proof (pressed_not_released vr) as Hpr. step_pressed Hv. rewrite Hv1 in Hpr. cbn [negb] in Hpr. rewrite Hpr.
  cbn [Adc.first_time Adc.start_time Adc.end_time Adc.last_time]. rewrite (proj2 (Z.eqb_neq f 0)) by lia.
  cbn [Z.eqb andb negb Adc.first_time Adc.start_time Adc.end_time Adc.last_time]. rewrite ?(proj2 (Z.eqb_neq f 0)), ?Hv1 by lia. cbn. done.
Qed.

Lemma step_last t0 f r0 rl vl key s : 0 < f -> 0 < r0 -> r0 + 20 < rl < 2 ^ 32 -> 0 <= rl - f -> released vl ->
  Adc.input_step HIGH_LEV_VALID rl i vl key (Adc.mk_input t0 r0 f 0) s =
  (Adc.input_init, key, if 100 <? rl - f then snd (Adc.handle_cbtn_press rl i key (rl - f) s) else s).
Proof.
  intros Hf Hr Hrl Hd Hv. pose proof (pressed_not_released vl) as Hpr. step_pressed Hv. rewrite Hv1 in Hpr. cbn [negb] in Hpr. rewrite Hpr.
  cbn [Adc.first_time Adc.start_time Adc.end_time Adc.last_time]. rewrite (proj2 (Z.eqb_neq f 0)) by lia.
  cbn [Z.eqb andb negb Adc.first_time Adc.start_time Adc.end_time Adc.last_time]. rewrite ?(proj2 (Z.eqb_neq f 0)), ?Hv1 by lia.
  cbn [andb negb]. rewrite (proj2 (Z.eqb_neq r0 0)) by lia. rewrite (u32_id (rl - r0)) by (unfold is_u32; lia).
  unfold Adc.BUTTON_FILTER2. rewrite (proj2 (Z.ltb_lt 20 _)) by lia. cbn [Adc.last_time Adc.first_time].
  rewrite (proj2 (Z.eqb_neq rl 0)) by lia. cbn [negb]. rewrite (u32_id (rl - f)) by (unfold is_u32; lia).
  unfold Adc.SHORT_PRESS_THRESHOLD. destruct (100 <? rl - f); done.
Qed.

(** A clean press of an ADC button: whatever was sampled while it lasted, it is
    acted on exactly once, at its end, with the time between the two confirmed
    edges and the last voltage seen while it was down; a press of at most 100 ms
    does nothing.  The input is then as at the start. *)
Theorem adc_press_acts_once t0 tf r0 rl v0 vf vr vl mid held rel key s :
  clean_press t0 tf r0 rl v0 vf vr vl mid held rel ->
  let v := last_value held vf in
  feed (press_samples t0 tf r0 rl v0 vf vr vl mid held rel) Adc.input_init key s =
  (Adc.input_init, v, if 100 <? rl - tf then snd (Adc.handle_cbtn_press rl i v (rl - tf) s) else s).
Proof.
  intros [Ht0 Htf Hd [Hr0 Hrl] H0 Hf Hr Hl Hmid Hheld Hrel] v. unfold press_samples. cbn [feed]. rewrite step_start by done.
  rewrite feed_app, feed_starting by done. cbn [feed]. rewrite step_first by done.
  rewrite feed_app, feed_pressed by (done || lia). cbn [feed]. rewrite step_release by (done || lia).
  rewrite feed_app, feed_ending by (done || lia). cbn [feed]. rewrite step_last by (done || lia). done.
Qed.

(** What bounces leave behind: no end of a press, and a start after [t0], up to [t]. *)
Definition bounced (t0 t : Z) (a : Adc.input) : Prop :=
  (Adc.first_time a = 0 \/ t0 <= Adc.first_time a <= t) /\ Adc.last_time a = 0.

Lemma bounce_begin t0 tp t v key a :
  0 < t0 <= tp -> tp <= t -> bounced t0 tp a ->
  match Adc.press_begin HIGH_LEV_VALID t v key a with None => True | Some (a1, _) => bounced t0 t a1 end.
Proof.
  intros Ht0 Ht [Hf Hl]. unfold Adc.press_begin, bounced. repeat case_match; simplify_eq; cbn; auto; lia.
Qed.

Lemma bounce_end t0 t v key a :
  0 < t0 <= t -> bounced t0 t a ->
  let '(a2, _) := Adc.press_end HIGH_LEV_VALID t v key a in
  bounced t0 t a2 \/ (Adc.last_time a2 = t /\ t0 <= Adc.first_time a2 <= t).
Proof.
  intros Ht [Hf Hl]. unfold Adc.press_end, bounced. repeat case_match; simplify_eq; cbn; bool_simpl; lia.
Qed.

Lemma bounce_step t0 tp t v key a s :
  0 < t0 <= tp -> tp <= t <= t0 + 100 -> t < 2 ^ 32 -> bounced t0 tp a ->
  exists a' key', Adc.input_step HIGH_LEV_VALID t i v key a s = (a', key', s) /\ bounced t0 t a'.
Proof.
  intros Ht0 Ht Hw Hb. assert (Hb' : bounced t0 t a) by (destruct Hb; split; [lia|done]).
  unfold Adc.input_step. destruct (v <? 0); [eauto|].
  pose proof (bounce_begin t0 tp t v key a Ht0 ltac:(lia) Hb) as Hbegin.
  destruct (Adc.press_begin HIGH_LEV_VALID t v key a) as [[a1 k1]|].
  2:{ exists (Adc.press_none t a), key. split; [done|]. unfold Adc.press_none. destruct (_ && _); [|done].
      destruct Hb' as [Hf Hl]. now split. }
  pose proof (bounce_end t0 t v k1 a1 ltac:(lia) Hbegin) as Hend.
  destruct (Adc.press_end HIGH_LEV_VALID t v k1 a1) as [a2 k2]. destruct Hend as [Hb2|[Hl2 Hf2]].
  - destruct Hb2 as [Hf2 Hl2]. rewrite Hl2. cbn [Z.eqb negb]. exists a2, k2. now split.
  - rewrite Hl2, (proj2 (Z.eqb_neq t 0)) by lia. cbn [negb]. rewrite u32_id by (unfold is_u32; lia).
    unfold Adc.SHORT_PRESS_THRESHOLD. rewrite (proj2 (Z.ltb_ge 100 _)) by lia. exists Adc.input_init, k2. split; [done|].
    split; [now left|done].
Qed.

(** Samples in the order of time, from [tp] to [t1]. *)
Fixpoint in_order (tp t1 : Z) (l : list (Z * Z)) : Prop :=
  match l with
  | [] => True
  | (t, _) :: l => tp <= t <= t1 /\ in_order t t1 l
  end.

(** However an ADC input bounces within 100 ms, nothing happens: no message is
    sent, no flow is entered. *)
Theorem adc_bounce_ignored t0 l key s :
  0 < t0 -> t0 + 100 < 2 ^ 32 -> in_order t0 (t0 + 100) l ->
  snd (feed l Adc.input_init key s) = s.
Proof.
  intros Ht0 Hw Hl.
  enough (H : forall tp a key, t0 <= tp -> bounced t0 tp a -> in_order tp (t0 + 100) l -> snd (feed l a key s) = s).
  { apply (H t0); [lia|split; [now left|done]|done]. }
  clear Hl key. induction l as [|[t v] l IH]; intros tp a key Htp Hb Hl; [done|]. destruct Hl as [Ht Hl]. cbn [feed].
  destruct (bounce_step t0 tp t v key a s) as (a' & key' & -> & Hb'); [lia|lia|lia|done|]. apply (IH t); [lia|done|done].
Qed.

End Samples.

(** Both inputs share the variable that keeps the voltage of the press: while
    the button of the first input is held at the lower voltage (the pairing key)
    a touch of the second input at the higher one overwrites it, and the release
    of the first button is taken for its other key, the power key. *)
Theorem adc_inputs_share_key :
  let '(m, s) := fold_left (fun '(m, s) '(now, v0, v1) => Adc.sm_adcbtn_task_entry true now v0 v1 m s)
      [(1000, 0x700, 0); (1020, 0x700, 0); (1600, 0x700, 0xd00); (1601, 0, 0xd00); (1630, 0, 0)]
      (Adc.adc_init, set_is_linux_ready true power_init) in
  Adc.key_id Adc.ADC_INPUT0 0x700 = Some Adc.SW1 /\
  out s = [(1630, SendMsg MV_SM_ID_IR [MV_IR_KEY_POWER]); (1630, SendMsg MV_SM_ID_IR [Z.lor MV_IR_KEY_POWER 0x8000000])].
Proof. vm_compute. split; reflexivity. Qed.

(** ** The GPIO button *)

Inductive gpio_event := Edge (now : Z) | Tick (now : Z).

Fixpoint gpio_run (evs : list gpio_event) (b : Gpio.btn) (s : power) : Gpio.btn * power :=
  match evs with
  | [] => (b, s)
  | Edge now :: evs => gpio_run evs (Gpio.sm_gpiobtn_isr now b) s
  | Tick now :: evs => let '(b, s) := Gpio.sm_gpiobtn_task_entry now b s in gpio_run evs b s
  end.

Definition ticks (ts : list Z) : list gpio_event := Tick <$> ts.

Lemma gpio_run_app l1 : forall l2 b s, gpio_run (l1 ++ l2) b s = let '(b, s) := gpio_run l1 b s in gpio_run l2 b s.
Proof.
  induction l1 as [|[now|now] l1 IH]; intros l2 b s; [done|apply IH|]. cbn [app gpio_run].
  destruct (Gpio.sm_gpiobtn_task_entry _ _ _). apply IH.
Qed.

(** Polls during a press that is not long yet do nothing; without one neither. *)
Lemma ticks_held ts t0 : forall s, 0 < t0 -> Forall (fun t => t0 <= t <= t0 + 10000 /\ t < 2 ^ 31) ts ->
  gpio_run (ticks ts) (Gpio.mk_btn t0 0 false) s = (Gpio.mk_btn t0 0 false, s).
Proof.
  induction ts as [|t ts IH]; intros s Ht0 Hts; [done|]. apply Forall_cons_iff in Hts as [Ht Hts].
  change (ticks (t :: ts)) with (Tick t :: ticks ts). cbn [gpio_run].
  unfold Gpio.sm_gpiobtn_task_entry. cbn [Gpio.long_press_time Gpio.press_time Z.eqb negb].
  rewrite (proj2 (Z.eqb_neq t0 0)) by lia. cbn [negb]. rewrite (i32_id t), i32_id by (unfold is_i32; lia).
  unfold Gpio.LONG_PRESS_ACTION_TIME. rewrite (proj2 (Z.ltb_ge _ _)) by lia. now apply IH.
Qed.

Lemma ticks_idle ts s : gpio_run (ticks ts) Gpio.btn_init s = (Gpio.btn_init, s).
Proof. induction ts as [|t ts IH]; [done|]. exact IH. Qed.

Lemma gpio_edge_down t0 : 0 < t0 < 2 ^ 31 -> Gpio.sm_gpiobtn_isr t0 Gpio.btn_init = Gpio.mk_btn t0 0 false.
Proof. intros Ht. unfold Gpio.sm_gpiobtn_isr. cbn. rewrite i32_id by (unfold is_i32; lia). done. Qed.

(** A press of the GPIO button at [t0], released at [t1] before it counts as
    long, is acted on once, by the next poll, with its length - or not at all
    when that is at most a second -, however often the task polls meanwhile and
    afterwards; a button that is still down after ten seconds is acted on then,
    once, without waiting for its release. *)
Theorem gpio_press_acts_once t0 t1 t2 ts more s :
  0 < t0 <= t1 -> t1 < 2 ^ 31 -> Forall (fun t => t0 <= t <= t0 + 10000 /\ t < 2 ^ 31) ts ->
  gpio_run (Edge t0 :: ticks ts ++ Edge t1 :: Tick t2 :: ticks more) Gpio.btn_init s =
    (Gpio.btn_init, if 1000 <? t1 - t0 then snd (Gpio.handle_gpiobtn_press t2 (t1 - t0) Gpio.btn_init s) else s) /\
  (t0 + 10000 < t1 ->
   gpio_run (Edge t0 :: ticks ts ++ Tick t1 :: ticks more) Gpio.btn_init s =
     (Gpio.btn_init, snd (Gpio.handle_gpiobtn_press t1 (t1 - t0) Gpio.btn_init s))).
Proof.
  intros Ht0 Ht1 Hts. split; [|intros Hlong]; cbn [gpio_run]; rewrite gpio_edge_down, gpio_run_app, ticks_held by (done || lia); cbn [gpio_run].
  - unfold Gpio.sm_gpiobtn_isr. cbn [Gpio.falling Gpio.press_time Gpio.long_press_time].
    rewrite (i32_id t1), i32_id by (unfold is_i32; lia). unfold Gpio.SHORT_PRESS_THRESHOLD.
    destruct (1000 <? t1 - t0) eqn:E; bool_simpl; unfold Gpio.sm_gpiobtn_task_entry; cbn [Gpio.long_press_time Gpio.press_time].
    + rewrite (proj2 (Z.eqb_neq _ 0)) by lia. cbn [negb]. rewrite u32_id by (unfold is_u32; lia).
      unfold Gpio.handle_gpiobtn_press. cbn [snd Gpio.falling Gpio.press_time]. apply ticks_idle.
    + cbn [Z.eqb negb]. apply ticks_idle.
  - unfold Gpio.sm_gpiobtn_task_entry. cbn [Gpio.long_press_time Gpio.press_time Z.eqb negb].
    rewrite (proj2 (Z.eqb_neq t0 0)) by lia. cbn [negb]. rewrite (i32_id t1), i32_id by (unfold is_i32; lia).
    unfold Gpio.LONG_PRESS_ACTION_TIME. rewrite (proj2 (Z.ltb_lt _ _)) by lia. rewrite u32_id by (unfold is_u32; lia).
    unfold Gpio.handle_gpiobtn_press. cbn [snd Gpio.falling Gpio.press_time Gpio.long_press_time]. apply ticks_idle.
Qed.

(** ** Witnesses *)

Lemma gpio_press_acts_once_witness :
  gpio_run (Edge 1000 :: ticks [1500; 4000] ++ Edge 5000 :: Tick 5001 :: ticks [5002]) Gpio.btn_init (set_is_linux_ready true power_init) =
    (Gpio.btn_init, if 1000 <? 5000 - 1000 then snd (Gpio.handle_gpiobtn_press 5001 (5000 - 1000) Gpio.btn_init (set_is_linux_ready true power_init))
                    else set_is_linux_ready true power_init).
Proof.
  apply (gpio_press_acts_once 1000 5000 5001 [1500; 4000] [5002] (set_is_linux_ready true power_init)).
  - lia.
  - lia.
  - repeat constructor; lia.
Defined.

Lemma adc_press_acts_once_witness :
  feed true Adc.ADC_INPUT0 (press_samples 1000 1020 1500 1530 0x700 0x700 0 0 [(1010, 0x700)] [(1300, 0xd00)] [(1510, 0)])
    Adc.input_init 0 power_init =
  (Adc.input_init, 0xd00, if 100 <? 1530 - 1020 then snd (Adc.handle_cbtn_press 1530 Adc.ADC_INPUT0 0xd00 (1530 - 1020) power_init) else power_init).
Proof.
  apply (adc_press_acts_once true Adc.ADC_INPUT0 1000 1020 1500 1530 0x700 0x700 0 0 [(1010, 0x700)] [(1300, 0xd00)] [(1510, 0)] 0 power_init).
  split; try lia; try (split; [lia|reflexivity]); repeat constructor; cbn; try lia; reflexivity.
Defined.

Lemma adc_bounce_ignored_witness :
  snd (feed true Adc.ADC_INPUT1 [(1000, 0xd00); (1001, 0); (1050, 0xd00); (1100, 0)] Adc.input_init 0 power_init) = power_init.
Proof. apply (adc_bounce_ignored true Adc.ADC_INPUT1 1000); [lia|lia|]. cbn. lia. Defined.
