(* ===== verification/Crc32.v ===== *)
(** * CRC-32 (boot/common/lib/crc32.c, build/tools/src/executables/crc/main.c)

    The table-driven checksum that the loader checks and the build tool that
    appends it to a file.  The bit-by-bit definition of TsData.v is the reference
    it is proved equal to. *)

From S2P Require Import Prelude CString TsData.

(** ** The table *)

(** [make_crc_table], under DYNAMIC_CRC_TABLE: the exponents of the polynomial,
    its bit pattern, and the table. *)
Definition crc_poly_terms : list Z := [0; 1; 2; 4; 5; 7; 8; 10; 11; 12; 16; 22; 23; 26].

Definition crc_poly : Z := fold_left (fun poly p => Z.lor poly (Z.shiftl 1 (31 - p))) crc_poly_terms 0.

Definition crc_shift (c : Z) : Z :=
  if negb (Z.land c 1 =? 0) then Z.lxor crc_poly (Z.shiftr c 1) else Z.shiftr c 1.

Definition make_crc_table : list Z := map (fun n => Nat.iter 8 crc_shift (Z.of_nat n)) (seq 0 256).

(** The table of the default build. *)
Definition crc_table : list Z := [
  0x00000000; 0x77073096; 0xee0e612c; 0x990951ba; 0x076dc419; 0x706af48f; 0xe963a535; 0x9e6495a3;
  0x0edb8832; 0x79dcb8a4; 0xe0d5e91e; 0x97d2d988; 0x09b64c2b; 0x7eb17cbd; 0xe7b82d07; 0x90bf1d91;
  0x1db71064; 0x6ab020f2; 0xf3b97148; 0x84be41de; 0x1adad47d; 0x6ddde4eb; 0xf4d4b551; 0x83d385c7;
  0x136c9856; 0x646ba8c0; 0xfd62f97a; 0x8a65c9ec; 0x14015c4f; 0x63066cd9; 0xfa0f3d63; 0x8d080df5;
  0x3b6e20c8; 0x4c69105e; 0xd56041e4; 0xa2677172; 0x3c03e4d1; 0x4b04d447; 0xd20d85fd; 0xa50ab56b;
  0x35b5a8fa; 0x42b2986c; 0xdbbbc9d6; 0xacbcf940; 0x32d86ce3; 0x45df5c75; 0xdcd60dcf; 0xabd13d59;
  0x26d930ac; 0x51de003a; 0xc8d75180; 0xbfd06116; 0x21b4f4b5; 0x56b3c423; 0xcfba9599; 0xb8bda50f;
  0x2802b89e; 0x5f058808; 0xc60cd9b2; 0xb10be924; 0x2f6f7c87; 0x58684c11; 0xc1611dab; 0xb6662d3d;
  0x76dc4190; 0x01db7106; 0x98d220bc; 0xefd5102a; 0x71b18589; 0x06b6b51f; 0x9fbfe4a5; 0xe8b8d433;
  0x7807c9a2; 0x0f00f934; 0x9609a88e; 0xe10e9818; 0x7f6a0dbb; 0x086d3d2d; 0x91646c97; 0xe6635c01;
  0x6b6b51f4; 0x1c6c6162; 0x856530d8; 0xf262004e; 0x6c0695ed; 0x1b01a57b; 0x8208f4c1; 0xf50fc457;
  0x65b0d9c6; 0x12b7e950; 0x8bbeb8ea; 0xfcb9887c; 0x62dd1ddf; 0x15da2d49; 0x8cd37cf3; 0xfbd44c65;
  0x4db26158; 0x3ab551ce; 0xa3bc0074; 0xd4bb30e2; 0x4adfa541; 0x3dd895d7; 0xa4d1c46d; 0xd3d6f4fb;
  0x4369e96a; 0x346ed9fc; 0xad678846; 0xda60b8d0; 0x44042d73; 0x33031de5; 0xaa0a4c5f; 0xdd0d7cc9;
  0x5005713c; 0x270241aa; 0xbe0b1010; 0xc90c2086; 0x5768b525; 0x206f85b3; 0xb966d409; 0xce61e49f;
  0x5edef90e; 0x29d9c998; 0xb0d09822; 0xc7d7a8b4; 0x59b33d17; 0x2eb40d81; 0xb7bd5c3b; 0xc0ba6cad;
  0xedb88320; 0x9abfb3b6; 0x03b6e20c; 0x74b1d29a; 0xead54739; 0x9dd277af; 0x04db2615; 0x73dc1683;
  0xe3630b12; 0x94643b84; 0x0d6d6a3e; 0x7a6a5aa8; 0xe40ecf0b; 0x9309ff9d; 0x0a00ae27; 0x7d079eb1;
  0xf00f9344; 0x8708a3d2; 0x1e01f268; 0x6906c2fe; 0xf762575d; 0x806567cb; 0x196c3671; 0x6e6b06e7;
  0xfed41b76; 0x89d32be0; 0x10da7a5a; 0x67dd4acc; 0xf9b9df6f; 0x8ebeeff9; 0x17b7be43; 0x60b08ed5;
  0xd6d6a3e8; 0xa1d1937e; 0x38d8c2c4; 0x4fdff252; 0xd1bb67f1; 0xa6bc5767; 0x3fb506dd; 0x48b2364b;
  0xd80d2bda; 0xaf0a1b4c; 0x36034af6; 0x41047a60; 0xdf60efc3; 0xa867df55; 0x316e8eef; 0x4669be79;
  0xcb61b38c; 0xbc66831a; 0x256fd2a0; 0x5268e236; 0xcc0c7795; 0xbb0b4703; 0x220216b9; 0x5505262f;
  0xc5ba3bbe; 0xb2bd0b28; 0x2bb45a92; 0x5cb36a04; 0xc2d7ffa7; 0xb5d0cf31; 0x2cd99e8b; 0x5bdeae1d;
  0x9b64c2b0; 0xec63f226; 0x756aa39c; 0x026d930a; 0x9c0906a9; 0xeb0e363f; 0x72076785; 0x05005713;
  0x95bf4a82; 0xe2b87a14; 0x7bb12bae; 0x0cb61b38; 0x92d28e9b; 0xe5d5be0d; 0x7cdcefb7; 0x0bdbdf21;
  0x86d3d2d4; 0xf1d4e242; 0x68ddb3f8; 0x1fda836e; 0x81be16cd; 0xf6b9265b; 0x6fb077e1; 0x18b74777;
  0x88085ae6; 0xff0f6a70; 0x66063bca; 0x11010b5c; 0x8f659eff; 0xf862ae69; 0x616bffd3; 0x166ccf45;
  0xa00ae278; 0xd70dd2ee; 0x4e048354; 0x3903b3c2; 0xa7672661; 0xd06016f7; 0x4969474d; 0x3e6e77db;
  0xaed16a4a; 0xd9d65adc; 0x40df0b66; 0x37d83bf0; 0xa9bcae53; 0xdebb9ec5; 0x47b2cf7f; 0x30b5ffe9;
  0xbdbdf21c; 0xcabac28a; 0x53b39330; 0x24b4a3a6; 0xbad03605; 0xcdd70693; 0x54de5729; 0x23d967bf;
  0xb3667a2e; 0xc4614ab8; 0x5d681b02; 0x2a6f2b94; 0xb40bbe37; 0xc30c8ea1; 0x5a05df1b; 0x2d02ef8d].

(** ** The checksum *)

(** The macro, for a little-endian machine. *)
Definition DO_CRC (crc x : Z) : Z :=
  Z.lxor (nth (Z.to_nat (Z.land (Z.lxor crc x) 255)) crc_table 0) (Z.shiftr crc 8).

(** [do { DO_CRC( *p++ ); } while ((--len) && ((long)p) & 3)] with [p] at [addr]. *)
Fixpoint align_loop (crc addr : Z) (buf : bytes) (len : Z) : option (Z * bytes * Z) :=
  match buf with
  | [] => None
  | x :: buf =>
      let crc := DO_CRC crc x in
      let len := len - 1 in
      if negb (len =? 0) && negb (Z.land (addr + 1) 3 =? 0) then align_loop crc (addr + 1) buf len
      else Some (crc, buf, len)
  end.

(** The loop over the words: each is read as a little-endian integer. *)
Fixpoint word_loop (n : nat) (crc : Z) (buf : bytes) : option (Z * bytes) :=
  match n, buf with
  | O, _ => Some (crc, buf)
  | S n, b0 :: b1 :: b2 :: b3 :: buf =>
      let crc := Z.lxor crc (le_val [b0; b1; b2; b3]) in
      word_loop n (DO_CRC (DO_CRC (DO_CRC (DO_CRC crc 0) 0) 0) 0) buf
  | S _, _ => None
  end.

(** The last few bytes. *)
Fixpoint last_loop (n : nat) (crc : Z) (buf : bytes) : option Z :=
  match n, buf with
  | O, _ => Some crc
  | S n, x :: buf => last_loop n (DO_CRC crc x) buf
  | S _, [] => None
  end.

(** [addr] is the address of [buf]; [None] when [len] bytes leave the object. *)
Definition crc32_no_comp (crc addr : Z) (buf : bytes) (len : Z) : option Z :=
  '(crc, buf, len) ← (if negb (Z.land addr 3 =? 0) && negb (len =? 0) then align_loop crc addr buf len
                      else Some (crc, buf, len));
  '(crc, buf) ← word_loop (Z.to_nat (Z.shiftr len 2)) crc buf;
  last_loop (Z.to_nat (Z.land len 3)) crc buf.

Definition crc32 (crc addr : Z) (buf : bytes) (len : Z) : option Z :=
  r ← crc32_no_comp (Z.lxor crc 0xffffffff) addr buf len;
  Some (Z.lxor r 0xffffffff).

(** [crc32_wd] of a build with a watchdog (without one it is [crc32]): the same
    in chunks, for a length below 2^31 that the int [chunk] holds; one round of
    fuel per byte is enough for a chunk size that is not zero. *)
Fixpoint crc32_wd_loop (fuel : nat) (crc addr : Z) (buf : bytes) (len chunk_sz : Z) : option Z :=
  if 0 <? len then
    match fuel with
    | O => None
    | S fuel =>
        let chunk := if chunk_sz <? len then chunk_sz else len in
        crc ← crc32 crc addr buf chunk;
        crc32_wd_loop fuel crc (addr + chunk) (drop (Z.to_nat chunk) buf) (len - chunk) chunk_sz
    end
  else Some crc.

Definition crc32_wd (crc addr : Z) (buf : bytes) (len chunk_sz : Z) : option Z :=
  crc32_wd_loop (Z.to_nat len) crc addr buf len chunk_sz.

(** ** The tool *)

Definition BUFSZ : Z := 1024 * 1024.

(** The loop of [fcrc32] on what is left of the file; [addr] is the address of
    its buffer. *)
Fixpoint fcrc32_loop (fuel : nat) (addr crc : Z) (file : bytes) : option Z :=
  match fuel with
  | O => None
  | S fuel =>
      let buf := take (Z.to_nat BUFSZ) file in
      let readlen := Z.of_nat (length buf) in
      if 0 <? readlen then
        crc ← crc32 crc addr buf readlen;
        if readlen <? BUFSZ then Some crc
        else fcrc32_loop fuel addr crc (drop (Z.to_nat BUFSZ) file)
      else Some crc
  end.

Definition fcrc32 (addr : Z) (file : bytes) : option Z := fcrc32_loop (S (length file)) addr 0 file.

(** [main]: the file after the tool and the checksum it prints. *)
Definition crc_main (append : bool) (addr : Z) (file : bytes) : option (bytes * Z) :=
  crc ← fcrc32 addr file;
  Some (if append then file ++ le32 (Z.lxor crc 0xffffffff) else file, crc).

(** ** Shifting is linear *)

Definition crc_step (c : Z) : Z := Nat.iter 8 crc_bit c.

Lemma crc_bit_lxor a b : crc_bit (Z.lxor a b) = Z.lxor (crc_bit a) (crc_bit b).
Proof.
  assert (odd : forall c, negb (Z.land c 1 =? 0) = Z.odd c).
  { intros c. change 1 with (Z.ones 1). rewrite Z.land_ones by lia. change (2 ^ 1) with 2.
    rewrite Zmod_odd. destruct (Z.odd c); done. }
  unfold crc_bit. rewrite !odd, Z.shiftr_lxor, <- !Z.bit0_odd, Z.lxor_spec.
  assert (swap : forall p q x y, Z.lxor (Z.lxor p q) (Z.lxor x y) = Z.lxor (Z.lxor p x) (Z.lxor q y)).
  { intros. rewrite !Z.lxor_assoc. f_equal. rewrite <- !Z.lxor_assoc. f_equal. apply Z.lxor_comm. }
  rewrite <- swap. f_equal. destruct (Z.testbit a 0), (Z.testbit b 0); reflexivity.
Qed.

Lemma crc_iter_lxor n a b : Nat.iter n crc_bit (Z.lxor a b) = Z.lxor (Nat.iter n crc_bit a) (Nat.iter n crc_bit b).
Proof. induction n as [|n IH]; [done|]. simpl Nat.iter. now rewrite IH, crc_bit_lxor. Qed.

Lemma crc_step_lxor a b : crc_step (Z.lxor a b) = Z.lxor (crc_step a) (crc_step b).
Proof. apply crc_iter_lxor. Qed.

Lemma crc_bit_even x : crc_bit (2 * x) = x.
Proof.
  unfold crc_bit. replace (Z.land (2 * x) 1) with 0.
  - cbn [Z.eqb negb]. rewrite Z.lxor_0_r, Z.shiftr_div_pow2 by lia. change (2 ^ 1) with 2. now rewrite Z.mul_comm, Z.div_mul.
  - change 1 with (Z.ones 1). rewrite Z.land_ones by lia. change (2 ^ 1) with 2. now rewrite Z.mul_comm, Z.mod_mul.
Qed.

Lemma crc_step_byte_up x : crc_step (256 * x) = x.
Proof.
  replace (256 * x) with (2 * (2 * (2 * (2 * (2 * (2 * (2 * (2 * x)))))))) by lia.
  cbv [crc_step Nat.iter nat_rect]. now rewrite !crc_bit_even.
Qed.

Lemma crc_step_range c : is_u32 c -> is_u32 (crc_step c).
Proof. intros Hc. exact (crc_iter_range 8 c Hc). Qed.

Lemma crc_byte_step c b : crc_byte c b = crc_step (Z.lxor c b).
Proof. unfold crc_byte, crc_step. reflexivity. Qed.

Lemma crc_bit_zero x : is_u32 x -> crc_bit x = 0 -> x = 0.
Proof.
  intros Hx E. unfold crc_bit in E. apply Z.lxor_eq in E. unfold is_u32 in Hx. rewrite Z.shiftr_div_pow2 in E by lia.
  change (2 ^ 1) with 2 in E. assert (Hd : 0 <= x / 2 < 2 ^ 31) by (split; [apply Z.div_pos; lia|apply Z.div_lt_upper_bound; lia]).
  destruct (negb (Z.land x 1 =? 0)) eqn:E1; [lia|]. bool_simpl. change 1 with (Z.ones 1) in E1.
  rewrite Z.land_ones in E1 by lia. change (2 ^ 1) with 2 in E1. pose proof (Z.div_mod x 2). lia.
Qed.

Lemma crc_iter_zero n x : is_u32 x -> Nat.iter n crc_bit x = 0 -> x = 0.
Proof.
  intros Hx. induction n as [|n IH]; [done|]. intros E. apply IH, crc_bit_zero; [now apply crc_iter_range|exact E].
Qed.

Lemma crc_step_zero x : is_u32 x -> crc_step x = 0 -> x = 0.
Proof. unfold crc_step. apply crc_iter_zero. Qed.

#[local] Opaque crc_step crc_byte.

(** A byte below a multiple of 256 is a sum without carries. *)
Lemma byte_lxor b w : is_u8 b -> b + 256 * w = Z.lxor b (256 * w).
Proof.
  intros Hb. rewrite <- Z.add_nocarry_lxor; [done|]. apply Z.bits_inj'. intros n Hn.
  rewrite Z.land_spec, Z.bits_0. replace (256 * w) with (Z.shiftl w 8) by (rewrite Z.shiftl_mul_pow2 by lia; lia).
  destruct (Z.lt_ge_cases n 8).
  - rewrite Z.shiftl_spec_low by lia. apply andb_false_r.
  - rewrite <- (Z.mod_small b (2 ^ 8)) by exact Hb. now rewrite Z.mod_pow2_bits_high by lia.
Qed.

Lemma crc_step_word c b w : is_u8 b -> crc_step (Z.lxor c (b + 256 * w)) = Z.lxor (crc_step (Z.lxor c b)) w.
Proof. intros Hb. now rewrite byte_lxor, <- Z.lxor_assoc, crc_step_lxor, crc_step_byte_up. Qed.

(** ** The table and the macro *)

(** The table is that of [make_crc_table]. *)
Lemma crc_table_made : crc_table = make_crc_table.
Proof. vm_compute. reflexivity. Qed.

Lemma crc_table_steps : crc_table = map (fun n => crc_step (Z.of_nat n)) (seq 0 256).
Proof. vm_compute. reflexivity. Qed.

Lemma crc_table_nth i : is_u8 i -> nth (Z.to_nat i) crc_table 0 = crc_step i.
Proof.
  intros Hi. unfold is_u8 in Hi. rewrite crc_table_steps. change 0 with (crc_step (Z.of_nat 0)) at 1.
  rewrite (map_nth (fun n => crc_step (Z.of_nat n))), seq_nth by lia. f_equal. lia.
Qed.

Lemma split_low_byte y : y = Z.lxor (Z.land y 255) (256 * Z.shiftr y 8).
Proof.
  change 255 with (Z.ones 8). rewrite Z.land_ones, Z.shiftr_div_pow2 by lia. rewrite <- byte_lxor by apply u8_range.
  change (2 ^ 8) with 256. pose proof (Z.div_mod y 256). lia.
Qed.

Lemma DO_CRC_step c x : is_u8 x -> DO_CRC c x = crc_byte c x.
Proof.
  intros Hx. rewrite crc_byte_step. unfold DO_CRC. set (y := Z.lxor c x).
  rewrite (split_low_byte y) at 2. rewrite crc_step_lxor, crc_step_byte_up.
  rewrite crc_table_nth by (change 255 with (Z.ones 8); rewrite Z.land_ones by lia; apply u8_range). f_equal.
  unfold y. rewrite Z.shiftr_lxor, (Z.shiftr_div_pow2 x), Z.div_small by (lia || exact Hx). now rewrite Z.lxor_0_r.
Qed.

Lemma DO_CRC_zero c : DO_CRC c 0 = crc_step c.
Proof. rewrite DO_CRC_step by apply is_u8_0. now rewrite crc_byte_step, Z.lxor_0_r. Qed.

Lemma word_step c b0 b1 b2 b3 : is_u8 b0 -> is_u8 b1 -> is_u8 b2 -> is_u8 b3 ->
  DO_CRC (DO_CRC (DO_CRC (DO_CRC (Z.lxor c (le_val [b0; b1; b2; b3])) 0) 0) 0) 0 = fold_left crc_byte [b0; b1; b2; b3] c.
Proof.
  intros H0 H1 H2 H3. rewrite !DO_CRC_zero. unfold le_val. cbn [fold_right fold_left].
  rewrite !crc_byte_step, !crc_step_word by done. now rewrite Z.lxor_0_r.
Qed.

(** ** The loops compute the reference *)

Lemma fold_take_cons {A B} (f : A -> B -> A) k x l a :
  fold_left f (take (S k) (x :: l)) a = fold_left f (take k l) (f a x).
Proof. reflexivity. Qed.

Lemma align_loop_ok buf : forall crc addr len, is_bytes buf -> 0 < len <= Z.of_nat (length buf) ->
  exists k, (0 < k)%nat /\ Z.of_nat k <= len /\
    align_loop crc addr buf len = Some (fold_left crc_byte (take k buf) crc, drop k buf, len - Z.of_nat k).
Proof.
  induction buf as [|x buf IH]; intros crc addr len Hb Hl; [simpl in Hl; lia|].
  apply is_bytes_cons in Hb as [Hx Hb]. rewrite length_cons' in Hl. cbn [align_loop]. rewrite DO_CRC_step by done.
  destruct (negb (len - 1 =? 0) && negb (Z.land (addr + 1) 3 =? 0)) eqn:E; bool_simpl.
  - destruct (IH (crc_byte crc x) (addr + 1) (len - 1) Hb) as (k & Hk & Hkl & ->); [lia|].
    exists (S k). split_and!; [lia..|]. rewrite fold_take_cons. cbn [drop].
    now replace (len - 1 - Z.of_nat k) with (len - Z.of_nat (S k)) by lia.
  - exists 1%nat. split_and!; [lia..|]. rewrite fold_take_cons, take_0. reflexivity.
Qed.

Lemma word_loop_ok n : forall crc buf, is_bytes buf -> (4 * n <= length buf)%nat ->
  word_loop n crc buf = Some (fold_left crc_byte (take (4 * n) buf) crc, drop (4 * n) buf).
Proof.
  induction n as [|n IH]; intros crc buf Hb Hl; [cbn [word_loop]; rewrite Nat.mul_0_r, take_0, drop_0; done|].
  destruct buf as [|b0 [|b1 [|b2 [|b3 buf]]]]; try (cbn [length] in Hl; lia).
  inv_bytes. cbn [word_loop]. cbn [length] in Hl. rewrite word_step, IH by (done || lia).
  replace (4 * S n)%nat with (4 + 4 * n)%nat by lia.
  assert (Et : take (4 + 4 * n) (b0 :: b1 :: b2 :: b3 :: buf) = [b0; b1; b2; b3] ++ take (4 * n) buf) by reflexivity.
  rewrite Et, fold_left_app. reflexivity.
Qed.

Lemma last_loop_ok n : forall crc buf, is_bytes buf -> (n <= length buf)%nat ->
  last_loop n crc buf = Some (fold_left crc_byte (take n buf) crc).
Proof.
  induction n as [|n IH]; intros crc buf Hb Hl; [done|]. destruct buf as [|x buf]; [cbn [length] in Hl; lia|].
  inv_bytes. cbn [last_loop]. cbn [length] in Hl. rewrite fold_take_cons, DO_CRC_step by done. apply IH; [done|lia].
Qed.

Lemma words_and_rest len : 0 <= len -> len = 4 * Z.shiftr len 2 + Z.land len 3 /\ 0 <= Z.shiftr len 2 /\ 0 <= Z.land len 3.
Proof.
  intros Hl. change 3 with (Z.ones 2). rewrite Z.land_ones, Z.shiftr_div_pow2 by lia. change (2 ^ 2) with 4.
  pose proof (Z.div_mod len 4). pose proof (Z.mod_pos_bound len 4). pose proof (Z.div_pos len 4). lia.
Qed.

Lemma crc_tail crc buf len : is_bytes buf -> 0 <= len <= Z.of_nat (length buf) ->
  ('(crc, buf) ← word_loop (Z.to_nat (Z.shiftr len 2)) crc buf; last_loop (Z.to_nat (Z.land len 3)) crc buf) =
  Some (fold_left crc_byte (take (Z.to_nat len) buf) crc).
Proof.
  intros Hb Hl. destruct (words_and_rest len) as (E & Hw & Hr); [lia|].
  set (w := Z.shiftr len 2) in *. set (r := Z.land len 3) in *. clearbody w r. subst len.
  rewrite word_loop_ok by (done || lia). cbn [mbind option_bind].
  rewrite last_loop_ok; [|now apply Forall_drop|rewrite length_drop; lia].
  rewrite <- fold_left_app. do 2 f_equal. rewrite take_take_drop. f_equal. lia.
Qed.

Lemma crc32_no_comp_ok crc addr buf len : is_bytes buf -> 0 <= len <= Z.of_nat (length buf) ->
  crc32_no_comp crc addr buf len = Some (fold_left crc_byte (take (Z.to_nat len) buf) crc).
Proof.
  intros Hb Hl. unfold crc32_no_comp. destruct (negb (Z.land addr 3 =? 0) && negb (len =? 0)) eqn:E; bool_simpl.
  - destruct (align_loop_ok buf crc addr len Hb) as (k & Hk & Hkl & ->); [lia|]. cbn [mbind option_bind].
    rewrite crc_tail; [|now apply Forall_drop|rewrite length_drop; lia].
    rewrite <- fold_left_app. do 2 f_equal. rewrite take_take_drop. f_equal. lia.
  - cbn [mbind option_bind]. now apply crc_tail.
Qed.

(** The checksum of the reference definition. *)
Definition crc32_ref (crc : Z) (l : bytes) : Z := Z.lxor (fold_left crc_byte l (Z.lxor crc 0xffffffff)) 0xffffffff.

Lemma crc32_ok crc addr buf len : is_bytes buf -> 0 <= len <= Z.of_nat (length buf) ->
  crc32 crc addr buf len = Some (crc32_ref crc (take (Z.to_nat len) buf)).
Proof. intros Hb Hl. unfold crc32. rewrite crc32_no_comp_ok by done. done. Qed.

Lemma crc32_all crc addr buf : is_bytes buf -> crc32 crc addr buf (Z.of_nat (length buf)) = Some (crc32_ref crc buf).
Proof. intros Hb. rewrite crc32_ok by (done || lia). now rewrite Nat2Z.id, take_ge. Qed.

Lemma crc32_ref_app crc l1 l2 : crc32_ref crc (l1 ++ l2) = crc32_ref (crc32_ref crc l1) l2.
Proof.
  unfold crc32_ref. rewrite fold_left_app. do 2 f_equal. now rewrite Z.lxor_assoc, Z.lxor_nilpotent, Z.lxor_0_r.
Qed.

Lemma crc32_ref_nil crc : crc32_ref crc [] = crc.
Proof. unfold crc32_ref. cbn [fold_left]. now rewrite Z.lxor_assoc, Z.lxor_nilpotent, Z.lxor_0_r. Qed.

(** C33: The table-driven checksum is the bit-by-bit one, for any start value and
    any address, with the table that [make_crc_table] would make. *)
Theorem crc32_equals_reference crc addr buf len :
  is_bytes buf -> 0 <= len <= Z.of_nat (length buf) ->
  crc_table = make_crc_table /\ crc32 crc addr buf len = Some (crc32_ref crc (take (Z.to_nat len) buf)).
Proof. intros Hb Hl. split; [apply crc_table_made|now apply crc32_ok]. Qed.

(** ** Chunks *)

Lemma crc32_wd_loop_ok fuel : forall crc addr buf len chunk_sz,
  is_bytes buf -> 0 <= len <= Z.of_nat (length buf) -> 0 < chunk_sz -> len <= Z.of_nat fuel ->
  crc32_wd_loop fuel crc addr buf len chunk_sz = Some (crc32_ref crc (take (Z.to_nat len) buf)).
Proof.
  induction fuel as [|fuel IH]; intros crc addr buf len cs Hb Hl Hc Hf; cbn [crc32_wd_loop];
    destruct (0 <? len) eqn:E; bool_simpl; try lia; try (replace len with 0 by lia; now rewrite take_0, crc32_ref_nil).
  set (chunk := if cs <? len then cs else len).
  assert (Hch : 0 < chunk <= len) by (unfold chunk; destruct (cs <? len) eqn:E1; bool_simpl; lia).
  clearbody chunk. rewrite crc32_ok by (done || lia). cbn [mbind option_bind].
  rewrite IH; [|now apply Forall_drop|rewrite length_drop; lia|lia..].
  rewrite <- crc32_ref_app, take_take_drop. do 3 f_equal. lia.
Qed.

(** In chunks of any size, as with a watchdog, the checksum is the same. *)
Theorem crc32_wd_same crc addr buf len chunk_sz :
  is_bytes buf -> 0 <= len <= Z.of_nat (length buf) -> 0 < chunk_sz ->
  crc32_wd crc addr buf len chunk_sz = crc32 crc addr buf len.
Proof. intros. unfold crc32_wd. rewrite crc32_wd_loop_ok, crc32_ok by (done || lia). done. Qed.

Lemma fcrc32_loop_ok fuel : forall addr crc file, is_bytes file -> (length file < fuel)%nat ->
  fcrc32_loop fuel addr crc file = Some (crc32_ref crc file).
Proof.
  assert (HB : 0 < BUFSZ) by (unfold BUFSZ; lia). pose proof (Z2Nat.id BUFSZ) as HN.
  remember (Z.to_nat BUFSZ) as N eqn:EN. induction fuel as [|fuel IH]; intros addr crc file Hb Hl; [lia|].
  cbn [fcrc32_loop]. rewrite <- EN. rewrite length_take. destruct (0 <? Z.of_nat (Nat.min N (length file))) eqn:E; bool_simpl.
  - rewrite <- length_take, crc32_all by now apply Forall_take. cbn [mbind option_bind].
    rewrite length_take. destruct (Z.of_nat (Nat.min N (length file)) <? BUFSZ) eqn:E1; bool_simpl.
    + now rewrite take_ge by lia.
    + rewrite IH; [|now apply Forall_drop|rewrite length_drop; lia]. now rewrite <- crc32_ref_app, take_drop.
  - assert (length file = 0%nat) as Hn by lia. apply nil_length_inv in Hn as ->. now rewrite crc32_ref_nil.
Qed.

Lemma fcrc32_ok addr file : is_bytes file -> fcrc32 addr file = Some (crc32_ref 0 file).
Proof. intros Hb. apply fcrc32_loop_ok; [done|lia]. Qed.

(** ** The register as a number *)

Lemma fold_le_val w : forall c, is_bytes w -> fold_left crc_byte w c = Nat.iter (length w) crc_step (Z.lxor c (le_val w)).
Proof.
  induction w as [|b w IH]; intros c Hw; [cbn [fold_left length]; unfold le_val; cbn [fold_right]; now rewrite Z.lxor_0_r|].
  apply is_bytes_cons in Hw as [Hb Hw]. rewrite fold_left_cons, IH, length_cons' by done. rewrite Nat.iter_succ_r. f_equal.
  unfold le_val. cbn [fold_right]. fold (le_val w). now rewrite crc_step_word, crc_byte_step.
Qed.

(** The register followed by itself gives zero. *)
Lemma crc_residue r : is_u32 r -> fold_left crc_byte (le32 r) r = 0.
Proof.
  intros Hr. rewrite fold_le_val, le_val_le32 by (done || apply le32_bytes). rewrite Z.lxor_nilpotent.
  vm_compute. reflexivity.
Qed.

Lemma all_ones_u32 : is_u32 0xffffffff.
Proof. unfold is_u32. lia. Qed.

Lemma crc32_ref_appended d : is_bytes d -> crc32_ref 0 (d ++ le32 (Z.lxor (crc32_ref 0 d) 0xffffffff)) = 0xffffffff.
Proof.
  intros Hd. unfold crc32_ref. rewrite fold_left_app. set (r := fold_left crc_byte d _).
  rewrite (Z.lxor_assoc r), Z.lxor_nilpotent, Z.lxor_0_r, crc_residue; [done|].
  apply crc_fold_range; [|done]. apply all_ones_u32.
Qed.

Lemma crc_main_append addr file : is_bytes file ->
  crc_main true addr file = Some (file ++ le32 (Z.lxor (crc32_ref 0 file) 0xffffffff), crc32_ref 0 file).
Proof. intros Hf. unfold crc_main. now rewrite fcrc32_ok. Qed.

(** The tool and the loader agree: a file to which the tool has appended the
    checksum is one whose checksum is all ones, wherever the loader puts it. *)
Theorem crc_appended_checks addr file :
  is_bytes file -> exists out crc, crc_main true addr file = Some (out, crc) /\ file `prefix_of` out /\
    length out = (length file + 4)%nat /\ is_bytes out /\
    forall addr', crc32 0 addr' out (Z.of_nat (length out)) = Some 0xffffffff.
Proof.
  intros Hf. rewrite crc_main_append by done. eexists _, _.
  assert (Hb : is_bytes (file ++ le32 (Z.lxor (crc32_ref 0 file) 0xffffffff))) by (apply is_bytes_app; split; [done|apply le32_bytes]).
  split_and!; [done|by apply prefix_app_r|rewrite length_app; done|done|].
  intros addr'. rewrite crc32_all by done. now rewrite crc32_ref_appended.
Qed.

(** ** Changes that are detected *)

Lemma crc_step_inj a b : is_u32 a -> is_u32 b -> crc_step a = crc_step b -> a = b.
Proof.
  intros Ha Hb E. apply Z.lxor_eq, crc_step_zero; [now apply lxor_u32|]. rewrite crc_step_lxor, E. apply Z.lxor_nilpotent.
Qed.

Lemma crc_steps_range n c : is_u32 c -> is_u32 (Nat.iter n crc_step c).
Proof. intros Hc. induction n as [|n IH]; [done|]. cbn [Nat.iter]. now apply crc_step_range. Qed.

Lemma crc_steps_inj n a b : is_u32 a -> is_u32 b -> Nat.iter n crc_step a = Nat.iter n crc_step b -> a = b.
Proof.
  intros Ha Hb. induction n as [|n IH]; [done|]. intros E.
  apply IH, crc_step_inj; [now apply crc_steps_range..|exact E].
Qed.

Lemma lxor_cancel a b c : Z.lxor a b = Z.lxor a c -> b = c.
Proof.
  intros E. apply (f_equal (Z.lxor a)) in E. now rewrite <- !Z.lxor_assoc, Z.lxor_nilpotent, !Z.lxor_0_l in E.
Qed.

Lemma crc_fold_inj l : forall a b, is_bytes l -> is_u32 a -> is_u32 b ->
  fold_left crc_byte l a = fold_left crc_byte l b -> a = b.
Proof.
  induction l as [|x l IH]; intros a b Hl Ha Hb E; [done|]. inv_bytes. rewrite !fold_left_cons in E.
  apply IH in E; [|auto using crc_byte_range..]. rewrite !crc_byte_step in E.
  apply crc_step_inj in E; [|apply lxor_u32; auto with boot..]. rewrite !(Z.lxor_comm _ x) in E. now apply lxor_cancel in E.
Qed.

Lemma crc_burst w w' c : is_bytes w -> is_bytes w' -> length w = length w' -> (length w <= 4)%nat -> is_u32 c ->
  fold_left crc_byte w c = fold_left crc_byte w' c -> w = w'.
Proof.
  intros Hw Hw' Hl H4 Hc E. rewrite !fold_le_val, <- Hl in E by done.
  assert (small : forall v, is_bytes v -> (length v <= 4)%nat -> is_u32 (le_val v)).
  { intros v Hv Hlv. pose proof (le_val_bound v Hv). pose proof (Z.pow_le_mono_r 256 (Z.of_nat (length v)) 4).
    unfold is_u32. lia. }
  apply crc_steps_inj in E; [|apply lxor_u32; auto with lia..]. apply le_val_inj; [done..|]. now apply lxor_cancel in E.
Qed.

Lemma crc32_ref_burst crc pre w w' post :
  is_u32 crc -> is_bytes pre -> is_bytes w -> is_bytes w' -> is_bytes post -> length w = length w' -> (length w <= 4)%nat ->
  crc32_ref crc (pre ++ w ++ post) = crc32_ref crc (pre ++ w' ++ post) -> w = w'.
Proof.
  intros Hc Hp Hw Hw' Hs Hl H4 E. unfold crc32_ref in E. rewrite !(Z.lxor_comm _ 0xffffffff) in E. apply lxor_cancel in E.
  rewrite !fold_left_app in E. set (c := fold_left crc_byte pre _) in E.
  assert (Hc' : is_u32 c) by (apply crc_fold_range; [apply lxor_u32; [apply all_ones_u32|done]|done]).
  apply crc_fold_inj in E; [|done|now apply crc_fold_range..]. now apply crc_burst in E.
Qed.

(** A change of any kind that lies within four consecutive bytes changes the
    checksum: no burst of up to 32 bits goes undetected. *)
Theorem crc32_detects_burst addr addr' crc pre w w' post :
  is_u32 crc -> is_bytes pre -> is_bytes w -> is_bytes w' -> is_bytes post ->
  length w = length w' -> (length w <= 4)%nat -> w <> w' ->
  let d := pre ++ w ++ post in
  let d' := pre ++ w' ++ post in
  crc32 crc addr d (Z.of_nat (length d)) <> crc32 crc addr' d' (Z.of_nat (length d')).
Proof.
  intros Hc Hp Hw Hw' Hs Hl H4 Hne d d' E. apply Hne. unfold d, d' in E. rewrite !crc32_all in E by (rewrite !is_bytes_app; done).
  injection E as E. now apply crc32_ref_burst in E.
Qed.

(** ** Witnesses *)

Lemma crc32_equals_reference_witness :
  crc32 0 1 [49; 50; 51; 52; 53; 54; 55; 56; 57] 9 = Some 0xcbf43926.
Proof.
  rewrite (proj2 (crc32_equals_reference 0 1 [49; 50; 51; 52; 53; 54; 55; 56; 57] 9
    (sample_bytes_ok [49; 50; 51; 52; 53; 54; 55; 56; 57] eq_refl) ltac:(cbn; lia))).
  vm_compute. reflexivity.
Defined.

Lemma crc32_wd_same_witness :
  crc32_wd 0 2 [49; 50; 51; 52; 53; 54; 55; 56; 57] 9 4 = crc32 0 2 [49; 50; 51; 52; 53; 54; 55; 56; 57] 9.
Proof. apply crc32_wd_same; [apply sample_bytes_ok; reflexivity|cbn; lia|lia]. Defined.

Lemma crc_appended_checks_witness :
  exists out crc, crc_main true 0 [86; 84; 33] = Some (out, crc) /\ [86; 84; 33] `prefix_of` out /\
    length out = 7%nat /\ is_bytes out /\ forall addr', crc32 0 addr' out (Z.of_nat (length out)) = Some 0xffffffff.
Proof. exact (crc_appended_checks 0 [86; 84; 33] (sample_bytes_ok [86; 84; 33] eq_refl)). Defined.

Lemma crc32_detects_burst_witness :
  crc32 0 0 [1; 2; 3] 3 <> crc32 0 2 [1; 7; 3] 3.
Proof.
  apply (crc32_detects_burst 0 2 0 [1] [2] [7] [3]); try (apply sample_bytes_ok; reflexivity).
  - unfold is_u32. lia.
  - reflexivity.
  - cbn. lia.
  - discriminate.
Defined.
