(* ===== verification/LoadVt.v ===== *)
(** * The version table (boot/common/driver/flash/load_vt.c)

    On a device without a GPT the partitions are described by a version table at
    the end of each boot partition, protected by the checksum of Crc32.v.  The
    loader reads the first copy that is intact into a static table of 32 entries;
    images are found by name and read or written inside their partition. *)

From S2P Require Import Prelude Disk CString TsData FlashAdaptor Crc32.

Definition MAGIC_NUMBER : Z := 0xD2ADA3F1.
Definition CRC32_SIZE : Z := 4.
Definition MAX_VERSION_TABLE : Z := 32.
Definition CLEAR_VT_SIZE : Z := 2048.
Definition PARTITION_NOT_EXIST : Z := -1.
Definition FLASH_SWITCH_PART_NOEXIST : Z := -1.

(** An entry, for a build without CONFIG_EMMC_WRITE_PROTECT. *)
Record ver_table_entry_t := mk_vte {
  name : bytes;
  part1_version : Z;
  part1_start_blkind : Z;
  part1_blks : Z;
  part2_version : Z;
  part2_start_blkind : Z;
  part2_blks : Z;
  write_protect_flag : Z;
  part_type : bytes;
}.

Definition sizeof_version_table : nat := 12.
Definition sizeof_ver_table_entry : nat := 68.

Definition vte_of_bytes (b : bytes) : ver_table_entry_t :=
  mk_vte (take 16 b) (field b 16 8) (field b 24 4) (field b 28 4) (field b 32 8) (field b 40 4) (field b 44 4)
    (field b 48 4) (take 16 (drop 52 b)).

(** The entries in use, each with its [dev_ids]; [vts.num] is the length. *)
Abbreviation ver_table_t := (list (ver_table_entry_t * Z)).

Definition num (vts : ver_table_t) : Z := Z.of_nat (length vts).

(** [&vt->table[i]]; [None] when it leaves the buffer. *)
Definition vt_entry (buff : bytes) (i : Z) : option bytes :=
  let off := (sizeof_version_table + Z.to_nat i * sizeof_ver_table_entry)%nat in
  if decide (off + sizeof_ver_table_entry <= length buff)%nat
  then Some (take sizeof_ver_table_entry (drop off buff)) else None.

(** [vts.vt[i] = ...; vts.num++]: the table has room for 32. *)
Definition add_vte (vts : ver_table_t) (e : ver_table_entry_t) (dev_id : Z) : option ver_table_t :=
  if num vts <? MAX_VERSION_TABLE then Some (vts ++ [(e, dev_id)]) else None.

Definition vt_size_of (num_entries : Z) : Z :=
  u32 (Z.of_nat sizeof_version_table + num_entries * Z.of_nat sizeof_ver_table_entry).

Section VersionTable.
Context {D : Type} (g_flash : flash_adaptor D).
Implicit Types (fl : flash D) (vts : ver_table_t).

(** ** Parsing *)

(** The loop over the entries.  The 33rd round writes past the table, so that 33
    rounds of fuel are enough. *)
Fixpoint vt_loop (fuel : nat) (i : Z) (num_entries : Z) (dev_id : Z) (buff : bytes) fl vts
  : option (flash D * ver_table_t) :=
  if i <? num_entries then
    match fuel with
    | O => None
    | S fuel =>
        b ← vt_entry buff i;
        let e := vte_of_bytes b in
        vts ← add_vte vts e dev_id;
        let '(fl, dev_id) := flash_dev_id_inc g_flash fl dev_id in
        let '(fl, dev_id) := if negb (part1_start_blkind e =? part2_start_blkind e)
                             then flash_dev_id_inc g_flash fl dev_id else (fl, dev_id) in
        vt_loop fuel (i + 1) num_entries dev_id buff fl vts
    end
  else Some (fl, vts).

Definition vt_fuel : nat := Z.to_nat (MAX_VERSION_TABLE + 1).

(** [addr] is the address of [buff]. *)
Definition parse_version_table (addr : Z) (buff : bytes) fl vts : option (flash D * ver_table_t * Z) :=
  if decide (length buff < sizeof_version_table)%nat then None
  else
    let num_entries := field buff 8 4 in
    let vt_size := vt_size_of num_entries in
    if 2048 <=? vt_size then Some (fl, vts, FLASH_OP_ERR)
    else if negb (field buff 0 4 =? MAGIC_NUMBER) then Some (fl, vts, FLASH_OP_ERR)
    else
      crc ← crc32 0 addr buff (vt_size + CRC32_SIZE);
      if negb (crc =? 0xffffffff) then Some (fl, vts, FLASH_OP_ERR)
      else '(fl, vts) ← vt_loop vt_fuel 0 num_entries 0 buff fl []; Some (fl, vts, 0).

(** The boot partitions from [i] on; [buff] is the caller's buffer from its first
    64-byte boundary on, at [addr]. *)
Fixpoint gpi_loop (n : nat) (i : Z) (addr : Z) (buff : bytes) fl vts : option (flash D * ver_table_t * Z) :=
  match n with
  | O => Some (fl, vts, FLASH_SWITCH_PART_NOEXIST)
  | S n =>
      let start := i64 (get_boot_part_size g_flash - CLEAR_VT_SIZE) in
      let '(fl, r, got) := read_flash_from_part g_flash fl i start CLEAR_VT_SIZE in
      buff ← into buff got;
      if negb (r =? 0) then gpi_loop n (i + 1) addr buff fl vts
      else
        '(fl, vts, ret) ← parse_version_table addr buff fl vts;
        if negb (ret =? 0) then gpi_loop n (i + 1) addr buff fl vts else Some (fl, vts, 0)
  end.

Definition get_partition_info (addr : Z) (buff : bytes) fl vts : option (flash D * ver_table_t * Z) :=
  let '(fl, n) := get_boot_partition_number g_flash fl in
  gpi_loop (Z.to_nat n) 1 addr buff fl vts.

(** ** Lookup *)

Fixpoint find_vt (todo : ver_table_t) (i : Z) (nm : bytes) : option Z :=
  match todo with
  | [] => Some PARTITION_NOT_EXIST
  | (e, _) :: todo =>
      n1 ← strlen (Some nm);
      n2 ← strlen (Some (name e));
      if negb (n1 =? n2)%nat then find_vt todo (i + 1) nm
      else
        r ← memcmp (Some nm) (Some (name e)) n1;
        if r =? 0 then Some i else find_vt todo (i + 1) nm
  end.

Definition find_partition vts (nm : bytes) : option Z := find_vt vts 0 nm.

Definition fetch_partition_info vts (n : Z) (vt : ver_table_entry_t) : ver_table_entry_t * Z :=
  if (0 <=? n) && (n <? num vts) then
    match vts !! Z.to_nat n with
    | Some (e, dev_id) => (e, i32 dev_id)
    | None => (vt, PARTITION_NOT_EXIST)
    end
  else (vt, PARTITION_NOT_EXIST).

Definition get_version_table_entry_number vts : Z := num vts.

(** ** Images *)

Definition vt_start (vt : ver_table_entry_t) (pt_offset : Z) : Z :=
  i64 (i64 (part1_start_blkind vt * get_block_size g_flash) + pt_offset).

(** The sum of the block numbers is an unsigned int. *)
Definition vt_end (vt : ver_table_entry_t) : Z :=
  i64 (u32 (part1_start_blkind vt + part1_blks vt) * get_block_size g_flash).

Definition read_image_from_offset fl (vt : ver_table_entry_t) (pt_offset size : Z) : flash D * Z * bytes :=
  if vt_end vt <? i64 (vt_start vt pt_offset + size) then (fl, -1, [])
  else let '(fl, _) := switch_flash_part g_flash fl 0 in
       read_flash g_flash fl (vt_start vt pt_offset) size.

Definition read_image fl (vt : ver_table_entry_t) (image_size : Z) : flash D * Z * bytes :=
  read_image_from_offset fl vt 0 image_size.

(** [vt]: the uninitialised local. *)
Definition read_image_by_ptname fl vts (module_name : bytes) (image_size : Z) (vt : ver_table_entry_t)
  : option (flash D * Z * bytes) :=
  ret ← find_partition vts module_name;
  if ret <? 0 then Some (fl, ret, [])
  else let '(vt, _) := fetch_partition_info vts ret vt in
       Some (read_image_from_offset fl vt 0 image_size).

Definition write_image_to_offset fl (vt : ver_table_entry_t) (pt_offset size : Z) (image_buf : bytes) : flash D * Z :=
  if vt_end vt <? i64 (vt_start vt pt_offset + size) then (fl, -1)
  else let '(fl, _) := switch_flash_part g_flash fl 0 in
       write_flash g_flash fl (vt_start vt pt_offset) size image_buf.

Definition write_image fl (vt : ver_table_entry_t) (image_size : Z) (image_buff : bytes) : flash D * Z :=
  write_image_to_offset fl vt 0 image_size image_buff.

End VersionTable.

(** ** What the loop over the entries leaves *)

Definition entry_of (buff : bytes) (j : nat) : ver_table_entry_t :=
  vte_of_bytes (take sizeof_ver_table_entry (drop (sizeof_version_table + j * sizeof_ver_table_entry) buff)).

Definition entries_of (buff : bytes) (i k : nat) : list ver_table_entry_t := map (entry_of buff) (seq i k).

(** The device numbers of a driver without a rule of its own: one per partition,
    two for a partition with two copies. *)
Fixpoint dev_ids_from (dev_id : Z) (es : list ver_table_entry_t) : list Z :=
  match es with
  | [] => []
  | e :: es =>
      let next := u32 (dev_id + 1) in
      dev_id :: dev_ids_from (if negb (part1_start_blkind e =? part2_start_blkind e) then u32 (next + 1) else next) es
  end.

Lemma entries_of_length buff i k : length (entries_of buff i k) = k.
Proof. unfold entries_of. now rewrite List.length_map, length_seq. Qed.

Lemma vt_entry_Some buff i : 0 <= i -> (12 + (Z.to_nat i + 1) * 68 <= length buff)%nat ->
  vt_entry buff i = Some (take 68 (drop (12 + Z.to_nat i * 68) buff)).
Proof.
  intros Hi Hl. unfold vt_entry, sizeof_version_table, sizeof_ver_table_entry. rewrite decide_True by lia. done.
Qed.

Section Parsing.
Context {D : Type} (g : flash_adaptor D).

Lemma vt_loop_ok k : forall fuel i n dev_id buff fl vts,
  n = i + Z.of_nat k -> num vts = i -> n <= MAX_VERSION_TABLE -> (12 + Z.to_nat n * 68 <= length buff)%nat -> (k <= fuel)%nat ->
  exists fl' ids, vt_loop g fuel i n dev_id buff fl vts = Some (fl', vts ++ zip (entries_of buff (Z.to_nat i) k) ids) /\
    length ids = k /\ (dev_id_inc g = None -> ids = dev_ids_from dev_id (entries_of buff (Z.to_nat i) k)).
Proof.
  induction k as [|k IH]; intros fuel i n dev buff fl vts Hn Hi Hm Hl Hf.
  - exists fl, []. rewrite zip_with_nil_r, app_nil_r. destruct fuel; cbn [vt_loop]; rewrite (proj2 (Z.ltb_ge _ _)) by lia; done.
  - destruct fuel as [|fuel]; [lia|]. assert (0 <= i) by (unfold num in Hi; lia). cbn [vt_loop].
    rewrite (proj2 (Z.ltb_lt _ _)) by lia. rewrite vt_entry_Some by lia. cbn [mbind option_bind].
    unfold add_vte. rewrite (proj2 (Z.ltb_lt _ _)) by lia. cbn [mbind option_bind].
    set (e := vte_of_bytes _). destruct (flash_dev_id_inc g fl dev) as [fl1 d1] eqn:E1.
    set (two := negb (part1_start_blkind e =? part2_start_blkind e)).
    destruct (if two then flash_dev_id_inc g fl1 d1 else (fl1, d1)) as [fl2 d2] eqn:E2.
    destruct (IH fuel (i + 1) n d2 buff fl2 (vts ++ [(e, dev)])) as (fl' & ids & -> & Hids & Hdev);
      [lia|unfold num in *; len|lia..|].
    replace (Z.to_nat (i + 1)) with (S (Z.to_nat i)) in * by lia.
    assert (Ee : entries_of buff (Z.to_nat i) (S k) = e :: entries_of buff (S (Z.to_nat i)) k) by reflexivity.
    exists fl', (dev :: ids). rewrite Ee. split_and!; [|now rewrite length_cons', Hids|].
    + cbn [zip_with]. now rewrite <- app_assoc.
    + intros Hd. cbn [dev_ids_from]. fold two. unfold flash_dev_id_inc in E1, E2. rewrite Hd in E1, E2.
      injection E1 as <- <-. rewrite (Hdev Hd). do 2 f_equal. destruct two; now injection E2.
Qed.

(** The table size without the wrap-around: at most 29 entries. *)
Lemma vt_size_small n : 0 <= n -> 12 + n * 68 < 2 ^ 32 -> vt_size_of n = 12 + n * 68.
Proof. intros Hn Hl. unfold vt_size_of, sizeof_version_table, sizeof_ver_table_entry. rewrite u32_id; [done|]. unfold is_u32. lia. Qed.

(** A table that the loader takes: its size is below 2 KiB, it has the magic number and
    the checksum over header, entries and the appended checksum is the residue. *)
Definition table_good (buff : bytes) : Prop :=
  let n := field buff 8 4 in
  12 + n * 68 < 2048 /\ field buff 0 4 = MAGIC_NUMBER /\ crc32_ref 0 (take (Z.to_nat (16 + n * 68)) buff) = 0xffffffff.

#[export] Instance table_good_dec buff : Decision (table_good buff).
Proof. unfold table_good. apply _. Defined.

(** The entries that such a buffer holds. *)
Definition table_entries (buff : bytes) : list ver_table_entry_t := entries_of buff 0 (Z.to_nat (field buff 8 4)).

(** The entries of [buff] with the device numbers [vts'] gives them. *)
Definition holds (buff : bytes) (vts' : ver_table_t) : Prop := exists ids, vts' = zip (table_entries buff) ids /\ length ids = length (table_entries buff) /\
  (dev_id_inc g = None -> ids = dev_ids_from 0 (table_entries buff)).

(** The outcome of a parse of the buffer. *)
Definition parsed (buff : bytes) (fl : flash D) (vts : ver_table_t) (fl' : flash D) (vts' : ver_table_t) (r : Z) : Prop :=
  if decide (table_good buff) then r = 0 /\ holds buff vts' else r = FLASH_OP_ERR /\ fl' = fl /\ vts' = vts.

Lemma parse_ok addr buff fl vts : is_bytes buff -> (Z.to_nat 2048 <= length buff)%nat -> 12 + field buff 8 4 * 68 < 2 ^ 32 ->
  exists fl' vts' r, parse_version_table g addr buff fl vts = Some (fl', vts', r) /\ parsed buff fl vts fl' vts' r.
Proof.
  intros Hb Hl Hn. pose proof (field_nonneg buff 8 4 Hb) as H0. unfold parse_version_table.
  rewrite decide_False by (unfold sizeof_version_table; lia). rewrite vt_size_small by done.
  unfold parsed. destruct (2048 <=? 12 + field buff 8 4 * 68) eqn:E; bool_simpl; [eexists _, _, _; split; [done|]; rewrite decide_False; [done|]; intros [? _]; lia|].
  destruct (field buff 0 4 =? MAGIC_NUMBER) eqn:Em; cbn [negb]; [|eexists _, _, _; split; [done|]; bool_simpl; rewrite decide_False; [done|]; by intros (_ & ? & _)].
  unfold CRC32_SIZE. rewrite crc32_ok by (done || lia). cbn [mbind option_bind]. replace (12 + field buff 8 4 * 68 + 4) with (16 + field buff 8 4 * 68) by lia.
  destruct (crc32_ref 0 _ =? 0xffffffff) eqn:Ec; cbn [negb]; [|eexists _, _, _; split; [done|]; bool_simpl; rewrite decide_False; [done|]; by intros (_ & _ & ?)].
  destruct (vt_loop_ok (Z.to_nat (field buff 8 4)) vt_fuel 0 (field buff 8 4) 0 buff fl []) as (fl' & ids & -> & Hids & Hdev);
    [lia|done|unfold MAX_VERSION_TABLE; lia|lia|unfold vt_fuel, MAX_VERSION_TABLE; lia|].
  cbn [mbind option_bind]. bool_simpl. eexists _, _, _. split; [done|]. rewrite decide_True by done. split; [done|]. exists ids. unfold table_entries. rewrite entries_of_length. done.
Qed.

End Parsing.

(** ** The copies in the boot partitions *)

Lemma entries_of_app buff tail k : (12 + k * 68 <= length buff)%nat -> entries_of (buff ++ tail) 0 k = entries_of buff 0 k.
Proof.
  intros Hl. unfold entries_of. apply map_ext_in. intros j Hj. apply in_seq in Hj. unfold entry_of, sizeof_ver_table_entry, sizeof_version_table.
  rewrite drop_app_le by lia. rewrite take_app_le; [done|]. rewrite length_drop. lia.
Qed.

(** Only the first 2 KiB of a buffer count. *)
Lemma good_app buff tail : is_bytes buff -> (Z.to_nat 2048 <= length buff)%nat -> table_good (buff ++ tail) <-> table_good buff.
Proof.
  intros Hb Hl. pose proof (field_nonneg buff 8 4 Hb) as H0. unfold table_good. rewrite !field_app by lia.
  split; intros (H1 & H2 & H3); (split; [done|]); (split; [done|]); [rewrite take_app_le in H3 by lia|rewrite take_app_le by lia]; done.
Qed.

Lemma entries_app buff tail : table_good buff -> is_bytes buff -> (Z.to_nat 2048 <= length buff)%nat -> table_entries (buff ++ tail) = table_entries buff.
Proof. intros (H & _) Hb Hl. unfold table_entries. rewrite field_app by lia. apply entries_of_app. pose proof (field_nonneg buff 8 4 Hb). lia. Qed.

(** A copy in which up to four consecutive bytes under the checksum, other than the
    number of entries, have changed is refused. *)
Theorem damaged_copy_refused pre w w' post :
  table_good (pre ++ w ++ post) -> is_bytes (pre ++ w ++ post) -> is_bytes w' -> w <> w' -> length w = length w' -> (length w <= 4)%nat ->
  field (pre ++ w' ++ post) 8 4 = field (pre ++ w ++ post) 8 4 -> Z.of_nat (length pre + length w) <= 16 + field (pre ++ w ++ post) 8 4 * 68 -> ~ table_good (pre ++ w' ++ post).
Proof.
  intros (_ & _ & Hc) Hb Hw' Hne Hl H4 Hnum Hin (_ & _ & Hc'). rewrite Hnum in Hc'. rewrite <- Hc in Hc'. revert Hc' Hin. generalize (field (pre ++ w ++ post) 8 4) as n. intros n Hc' Hin. set (m := Z.to_nat (16 + n * 68)) in Hc'.
  rewrite !is_bytes_app in Hb. destruct Hb as (Hp & Hw & Hpo).
  assert (Et : forall x, length x = length w -> take m (pre ++ x ++ post) = pre ++ x ++ take (m - length pre - length w) post).
  { intros x Hx. rewrite take_app_ge by lia. f_equal. rewrite take_app_ge by lia. do 2 f_equal. lia. }
  rewrite (Et w), (Et w') in Hc' by lia. apply Hne. symmetry. apply (crc32_ref_burst 0 pre w' w (take (m - length pre - length w) post)); first [done | lia | by apply Forall_take | apply is_u8_u32, is_u8_0].
Qed.

(** The last 2 KiB of boot partition [i] of a device. *)
Definition copy {D} (g : flash_adaptor D) `{!ReliableAdaptor g} (d : D) (i : Z) : bytes :=
  rng (contents d i) (get_boot_part_size g - CLEAR_VT_SIZE) (Z.to_nat CLEAR_VT_SIZE).

(** Those of [n] boot partitions from [i] on. *)
Definition copies {D} (g : flash_adaptor D) `{!ReliableAdaptor g} (d : D) (i : Z) (n : nat) : list bytes := map (fun j => copy g d (i + Z.of_nat j)) (seq 0 n).

(** The outcome of the load: the first good copy counts. *)
Definition loaded_from {D} (g : flash_adaptor D) (l : list bytes) (vts vts' : ver_table_t) (r : Z) : Prop :=
  match list_find table_good l with
  | Some (_, t) => r = 0 /\ holds g t vts'
  | None => r = FLASH_SWITCH_PART_NOEXIST /\ vts' = vts
  end.

Section Loading.
Context {D : Type} {g : flash_adaptor D} `{!ReliableAdaptor g}.
Hypothesis Hsize : CLEAR_VT_SIZE <= get_boot_part_size g < 2 ^ 63.
Implicit Types (fl : flash D).

Lemma copy_length d i : length (copy g d i) = Z.to_nat CLEAR_VT_SIZE.
Proof. apply length_rng. Qed.

Lemma copy_bytes d i : is_bytes (copy g d i).
Proof. apply rng_bytes. intros x. apply contents_byte. Qed.

Lemma copy_same d d' i : (forall q x, contents d' q x = contents d q x) -> copy g d' i = copy g d i.
Proof. intros H. apply rng_ext. intros. apply H. Qed.

Lemma copies_same d d' i n : (forall q x, contents d' q x = contents d q x) -> copies g d' i n = copies g d i n.
Proof. intros H. unfold copies. apply map_ext. intros j. by apply copy_same. Qed.

Lemma copies_S d i n : copies g d i (S n) = copy g d i :: copies g d (i + 1) n.
Proof. unfold copies. cbn [seq map]. rewrite Z.add_0_r. f_equal. rewrite <- seq_shift, map_map. apply map_ext. intros j. f_equal. lia. Qed.

(** The read of a copy. *)
Lemma read_copy fl i : exists fl', read_flash_from_part g fl i (i64 (get_boot_part_size g - CLEAR_VT_SIZE)) CLEAR_VT_SIZE =
  (fl', 0, copy g (drv fl) i) /\ forall q x, contents (drv fl') q x = contents (drv fl) q x.
Proof.
  unfold CLEAR_VT_SIZE in *. unfold read_flash_from_part. destruct (switch_reliable fl i) as (fl1 & -> & Hc1 & Hs1).
  cbn [Z.ltb Z.compare]. rewrite Z.add_0_l, (i64_id (get_boot_part_size g - 2048)), i64_id by lia.
  destruct (read_reliable fl1 (get_boot_part_size g - 2048) 2048) as (fl2 & -> & _ & Hs2); [lia..|].
  rewrite Hc1. exists fl2. split; [|intros q x; now rewrite Hs2]. f_equal. apply rng_ext. intros. apply Hs1.
Qed.

Lemma parse_copy addr t tail fl vts : is_bytes t -> is_bytes tail -> Z.of_nat (length t) = 2048 -> 12 + field t 8 4 * 68 < 2 ^ 32 ->
  exists fl' vts' r, parse_version_table g addr (t ++ tail) fl vts = Some (fl', vts', r) /\ parsed g t fl vts fl' vts' r.
Proof.
  intros Ht Hd Hl Hw. destruct (parse_ok g addr (t ++ tail) fl vts) as (fl' & vts' & r & E & Hp); [by apply is_bytes_app|rewrite length_app; lia|by rewrite field_app by lia|].
  exists fl', vts', r. split; [done|]. unfold parsed in *. destruct (decide (table_good t)) as [Hg|Hg].
  - rewrite decide_True in Hp by (apply good_app; [done|lia|done]). unfold holds in *. by rewrite entries_app in Hp by (done || lia).
  - by rewrite decide_False in Hp by (rewrite good_app; [done|done|lia]).
Qed.

Lemma into_copy (buff t : bytes) : is_bytes buff -> Z.of_nat (length t) = CLEAR_VT_SIZE -> (Z.to_nat CLEAR_VT_SIZE <= length buff)%nat -> exists tail, into buff t = Some (t ++ tail) /\ is_bytes tail.
Proof. intros Hb Hl Hle. unfold into. rewrite decide_True by lia. exists (drop (length t) buff). split; [done|by apply Forall_drop]. Qed.

Lemma gpi_loop_ok n : forall i addr buff fl vts,
  is_bytes buff -> (Z.to_nat CLEAR_VT_SIZE <= length buff)%nat ->
  Forall (fun t => 12 + field t 8 4 * 68 < 2 ^ 32) (copies g (drv fl) i n) ->
  exists fl' vts' r, gpi_loop g n i addr buff fl vts = Some (fl', vts', r) /\ loaded_from g (copies g (drv fl) i n) vts vts' r.
Proof.
  induction n as [|n IH]; intros i addr buff fl vts Hb Hl Hw; [by eexists _, _, _|]. rewrite copies_S in *. apply Forall_cons_iff in Hw as [Hw Hws]. cbn [gpi_loop].
  destruct (read_copy fl i) as (fl1 & -> & Hs1). assert (Htl : Z.of_nat (length (copy g (drv fl) i)) = CLEAR_VT_SIZE) by (rewrite copy_length; apply Z2Nat.id; discriminate).
  pose proof (copy_bytes (drv fl) i) as Ht. revert Hw Htl Ht. generalize (copy g (drv fl) i) as t. intros t Hw Htl Ht.
  destruct (into_copy buff t Hb Htl Hl) as (tail & -> & Hd). cbn [mbind option_bind Z.eqb negb].
  destruct (parse_copy addr t tail fl1 vts Ht Hd Htl Hw) as (fl2 & vts2 & r & -> & Hp). cbn [mbind option_bind]. unfold parsed in Hp. unfold loaded_from. cbn [list_find].
  destruct (decide (table_good t)) as [Hg|Hg]; [destruct Hp as [-> Hh]; by eexists _, _, _|]. destruct Hp as (-> & -> & ->). unfold FLASH_OP_ERR. cbn [Z.eqb negb].
  destruct (IH (i + 1) addr (t ++ tail) fl1 vts) as (fl' & vts' & r & -> & Hld); [by apply is_bytes_app|rewrite length_app; lia|by rewrite (copies_same _ _ _ _ Hs1)|].
  eexists _, _, _. split; [done|]. rewrite (copies_same _ _ _ _ Hs1) in Hld. unfold loaded_from in Hld. by destruct (list_find table_good (copies g (drv fl) (i + 1) n)) as [[k t']|].
Qed.


End Loading.

(** On any buffer whose entry count does not wrap the table size, parsing is
    total and stays within the buffer and the table of 32 entries: it
    refuses the buffer and leaves everything as it was, or, exactly if the magic
    number and the checksum are right and there are at most 29 entries, loads them. *)
Theorem vt_parse_total {D : Type} (g : flash_adaptor D) addr buff fl vts :
  is_bytes buff -> (Z.to_nat CLEAR_VT_SIZE <= length buff)%nat -> 12 + field buff 8 4 * 68 < 2 ^ 32 ->
  exists fl' vts' r, parse_version_table g addr buff fl vts = Some (fl', vts', r) /\ parsed g buff fl vts fl' vts' r.
Proof. apply parse_ok. Qed.

(** A header that claims 2^30 entries. *)
Definition wrapping_header : bytes := le32 MAGIC_NUMBER ++ le32 0 ++ le32 (2 ^ 30).

(** The table size is 32 bits wide: a table that claims 2^30 entries and has the
    checksum of its header passes the size check, and the loop then runs out of
    the table of 32. *)
Theorem vt_size_wraps {D : Type} (g : flash_adaptor D) fl vts :
  dev_id_inc g = None ->
  let buff := wrapping_header ++ le32 (Z.lxor (crc32_ref 0 wrapping_header) 0xffffffff) ++ replicate (Z.to_nat (8192 - 16)) 0 in
  field buff 8 4 = 2 ^ 30 /\ vt_size_of (2 ^ 30) = 12 /\ parse_version_table g 0 buff fl vts = None.
Proof.
  intros Hd buff. assert (Hn : field buff 8 4 = 2 ^ 30) by reflexivity. assert (Hv : vt_size_of (2 ^ 30) = 12) by reflexivity.
  assert (Hb : is_bytes buff) by (unfold buff, wrapping_header; rewrite !is_bytes_app; split_and!; try apply le32_bytes;
    apply Forall_replicate; apply is_u8_0).
  assert (Hl : length buff = Z.to_nat 8192) by (unfold buff; rewrite !length_app, length_replicate; cbn [length wrapping_header le32 app]; lia).
  split_and!; [done..|]. unfold parse_version_table. rewrite decide_False by (rewrite Hl; unfold sizeof_version_table; lia). rewrite Hn, Hv.
  change (field buff 0 4) with MAGIC_NUMBER. cbn [Z.leb Z.compare Pos.compare Pos.compare_cont]. rewrite Z.eqb_refl. cbn [negb].
  rewrite crc32_ok by (done || (unfold CRC32_SIZE; lia)). cbn [mbind option_bind].
  assert (Et : take (Z.to_nat (12 + CRC32_SIZE)) buff = wrapping_header ++ le32 (Z.lxor (crc32_ref 0 wrapping_header) 0xffffffff)).
  { unfold buff. rewrite app_assoc. apply take_app_length'. reflexivity. }
  rewrite Et, crc32_ref_appended by (unfold wrapping_header; rewrite !is_bytes_app; split_and!; apply le32_bytes).
  rewrite Z.eqb_refl. cbn [negb].
  assert (Hover : forall fuel i dev vts', num vts' = i -> 0 <= i <= 32 -> (Z.to_nat (32 - i) < fuel)%nat ->
    vt_loop g fuel i (2 ^ 30) dev buff fl vts' = None).
  { induction fuel as [|fuel IH]; intros i dev vts' Hi H32 Hf; [lia|]. cbn [vt_loop]. rewrite (proj2 (Z.ltb_lt i _)) by lia.
    rewrite vt_entry_Some by lia. cbn [mbind option_bind]. unfold add_vte, MAX_VERSION_TABLE. rewrite Hi.
    destruct (i <? 32) eqn:E; bool_simpl; [|done]. cbn [mbind option_bind]. unfold flash_dev_id_inc. rewrite Hd.
    destruct (negb _); cbn [fst snd]; (apply IH; [unfold num in *; len|lia..]). }
  rewrite Hover; [done|done|lia|]. unfold vt_fuel, MAX_VERSION_TABLE. lia.
Qed.

(** ** Images stay inside their partition *)

(** The fields fit. *)
Record vte_ok (e : ver_table_entry_t) : Prop := mk_vte_ok {
  ok_name : length (name e) = 16%nat /\ is_bytes (name e);
  ok_type : length (part_type e) = 16%nat /\ is_bytes (part_type e);
  ok_versions : (0 <= part1_version e < 2 ^ 64) /\ (0 <= part2_version e < 2 ^ 64);
  ok_part1 : is_u32 (part1_start_blkind e) /\ is_u32 (part1_blks e);
  ok_part2 : is_u32 (part2_start_blkind e) /\ is_u32 (part2_blks e) /\ is_u32 (write_protect_flag e);
}.

Lemma vt_bounds {D} (g : flash_adaptor D) e off size :
  vte_ok e -> is_u32 off -> is_u32 size -> 0 < get_block_size g <= 2 ^ 24 ->
  let bs := get_block_size g in
  let inside := part1_start_blkind e + part1_blks e < 2 ^ 32 /\
                part1_start_blkind e * bs + off + size <= (part1_start_blkind e + part1_blks e) * bs in
  vt_start g e off = part1_start_blkind e * bs + off /\
  ((vt_end g e <? i64 (vt_start g e off + size)) = false <-> inside).
Proof.
  intros [_ _ _ [Hs Hb] _] Ho Hz Hbs bs inside. unfold is_u32 in *. fold bs in Hbs.
  assert (Hp : forall x, 0 <= x < 2 ^ 32 -> 0 <= x * bs < 2 ^ 56) by (intros; nia).
  assert (E : vt_start g e off = part1_start_blkind e * bs + off).
  { unfold vt_start. fold bs. specialize (Hp _ Hs). rewrite (i64_id (part1_start_blkind e * bs)), i64_id by lia. done. }
  split; [exact E|]. rewrite E, Z.ltb_ge. unfold vt_end. fold bs.
  rewrite (i64_id (_ + size)) by (specialize (Hp _ Hs); lia). rewrite (i64_id (u32 _ * bs)) by (specialize (Hp _ (u32_range (part1_start_blkind e + part1_blks e))); lia).
  unfold inside. destruct (Z.lt_ge_cases (part1_start_blkind e + part1_blks e) (2 ^ 32)) as [Hlt|Hge].
  - rewrite u32_id by (unfold is_u32; lia). lia.
  - assert (Hu : u32 (part1_start_blkind e + part1_blks e) = part1_start_blkind e + part1_blks e - 2 ^ 32).
    { unfold u32. rewrite <- (Z_mod_plus_full (part1_start_blkind e + part1_blks e) (-1)), Z.mod_small; lia. }
    rewrite Hu. split; [|lia]. intros Hx. exfalso. nia.
Qed.

(** An image is read or written only inside its partition, for any entry with
    32-bit fields and blocks of up to 16 MiB: an accepted request lies between
    the first and the last block, in the user area; one that does not, or a
    partition whose last block number does not fit in 32 bits, is refused before
    the flash is touched. *)
Theorem vt_image_inside_partition {D} (g : flash_adaptor D) fl e off size buf :
  vte_ok e -> is_u32 off -> is_u32 size -> 0 < get_block_size g <= 2 ^ 24 ->
  let bs := get_block_size g in
  let start := part1_start_blkind e * bs + off in
  let inside := part1_start_blkind e + part1_blks e < 2 ^ 32 /\ start + size <= (part1_start_blkind e + part1_blks e) * bs in
  (inside -> read_image_from_offset g fl e off size = read_flash g (switch_flash_part g fl 0).1 start size /\
             write_image_to_offset g fl e off size buf = write_flash g (switch_flash_part g fl 0).1 start size buf) /\
  (~ inside -> read_image_from_offset g fl e off size = (fl, -1, []) /\ write_image_to_offset g fl e off size buf = (fl, -1)).
Proof.
  intros He Ho Hz Hbs bs start inside. destruct (vt_bounds g e off size He Ho Hz Hbs) as [E Hx]. fold bs in E, Hx. fold start inside in E, Hx.
  unfold read_image_from_offset, write_image_to_offset. split; intros Hi.
  - rewrite (proj2 Hx Hi), E. now destruct (switch_flash_part g fl 0).
  - destruct (vt_end g e <? i64 (vt_start g e off + size)); [done|]. exfalso. apply Hi, Hx. done.
Qed.

(** ** Lookup finds the first entry of that name *)

(** The name as a C string of its 16 bytes. *)
Definition called (nm : bytes) (p : ver_table_entry_t * Z) : Prop := exists rest, name p.1 = nm ++ 0 :: rest.

Lemma called_unique s nm p : no_nul s -> no_nul nm -> called s p -> called nm p -> s = nm.
Proof.
  intros Hs Hn [r1 E1] [r2 E2]. rewrite E1 in E2. pose proof (strlen_loop_cstr s r1 Hs) as L1. rewrite E2, (strlen_loop_cstr nm r2 Hn) in L1.
  injection L1 as L. apply (f_equal (take (length s))) in E2. rewrite take_app_length, <- L, take_app_length in E2. done.
Qed.

Lemma find_vt_ok nm rest : no_nul nm -> (0 < length nm)%nat -> forall vts i,
  Forall (fun p => exists s, no_nul s /\ called s p) vts -> exists r, find_vt vts i (nm ++ 0 :: rest) = Some r /\
    ((r = PARTITION_NOT_EXIST /\ Forall (fun p => ~ called nm p) vts) \/
     exists k p, r = i + Z.of_nat k /\ vts !! k = Some p /\ called nm p /\ Forall (fun p => ~ called nm p) (take k vts)).
Proof.
  intros Hn Hl vts. induction vts as [|[e id] vts IH]; intros i Hv; [eexists; split; [done|left; by split]|].
  apply Forall_cons_iff in Hv as [(s & Hs & Hc) Hv]. cbn [find_vt]. pose proof Hc as [r0 E]. cbn [fst] in E.
  rewrite E. unfold strlen. rewrite !strlen_loop_cstr by done. cbn [mbind option_bind].
  assert (Hskip : s <> nm -> exists r, find_vt vts (i + 1) (nm ++ 0 :: rest) = Some r /\
    ((r = PARTITION_NOT_EXIST /\ Forall (fun p => ~ called nm p) ((e, id) :: vts)) \/
     exists k p, r = i + Z.of_nat k /\ ((e, id) :: vts) !! k = Some p /\ called nm p /\ Forall (fun p => ~ called nm p) (take k ((e, id) :: vts)))).
  { intros Hne. assert (~ called nm (e, id)) by (intros Hcn; apply Hne; by apply (called_unique s nm (e, id))).
    destruct (IH (i + 1) Hv) as (r & -> & [[-> Hf]|(k & p & -> & Hk & Hcp & Hf)]); (eexists; split; [done|]).
    - left. split; [done|]. by constructor.
    - right. exists (S k), p. split_and!; [lia|done|done|]. by constructor. }
  destruct (length nm =? length s)%nat eqn:El; cbn [negb].
  - apply Nat.eqb_eq in El. unfold memcmp. destruct (memcmp_loop_eq 1 (nm ++ 0 :: rest) (s ++ 0 :: r0) (length nm)) as (r & -> & Hr);
      [rewrite length_app; lia..|]. specialize (Hr Hl). rewrite take_app_length, El, take_app_length in Hr. cbn [mbind option_bind].
    destruct (Z.eqb_spec r 0) as [E0|E0].
    + eexists. split; [done|]. right. exists 0%nat, (e, id). rewrite (proj1 Hr E0). split_and!; [lia|done|done|constructor].
    + apply Hskip. intros ->. by apply E0, Hr.
  - apply Nat.eqb_neq in El. apply Hskip. congruence.
Qed.

(** In a table whose names are terminated, [find_partition] returns the index of
    the first entry of that name, or PARTITION_NOT_EXIST when there is none;
    [read_image_by_ptname] reads from that entry. *)
Theorem vt_find_first {D} (g : flash_adaptor D) fl vts nm rest size vt0 :
  Forall (fun p => exists s, no_nul s /\ called s p) vts -> no_nul nm -> (0 < length nm)%nat ->
  let by_name := read_image_by_ptname g fl vts (nm ++ 0 :: rest) size vt0 in
  (find_partition vts (nm ++ 0 :: rest) = Some PARTITION_NOT_EXIST /\ Forall (fun p => ~ called nm p) vts /\
   by_name = Some (fl, PARTITION_NOT_EXIST, [])) \/
  (exists k e id, find_partition vts (nm ++ 0 :: rest) = Some (Z.of_nat k) /\ vts !! k = Some (e, id) /\ called nm (e, id) /\
     Forall (fun p => ~ called nm p) (take k vts) /\ by_name = Some (read_image_from_offset g fl e 0 size)).
Proof.
  intros Hv Hn Hl by_name. unfold by_name, read_image_by_ptname, find_partition.
  destruct (find_vt_ok nm rest Hn Hl vts 0 Hv) as (r & -> & [[-> Hf]|(k & [e id] & -> & Hk & Hc & Hf)]).
  - left. done.
  - right. exists k, e, id. split_and!; [done..|]. cbn [mbind option_bind]. rewrite (proj2 (Z.ltb_ge _ _)) by lia.
    unfold fetch_partition_info. pose proof (lookup_lt_Some _ _ _ Hk). rewrite Z.add_0_l.
    rewrite (proj2 (Z.leb_le _ _)), (proj2 (Z.ltb_lt _ _)) by (unfold num; lia). cbn [andb]. now rewrite Nat2Z.id, Hk.
Qed.

(** ** Witnesses *)

(** A RAM flash with two boot partitions of 4 KiB and blocks of 512 KiB. *)
Definition boot_ram : flash_adaptor ramflash :=
  mk_adaptor ramflash 4096 (2 ^ 19) 512 0 (init ram_adaptor) (get_capacity ram_adaptor) None (Some (fun d => (d, 2)))
    (switch_part ram_adaptor) None None None (read ram_adaptor) (write ram_adaptor).

#[export] Instance boot_ram_reliable : ReliableAdaptor boot_ram.
Proof.
  refine {| contents := contents (g := ram_adaptor); current := current (g := ram_adaptor) |}.
  - exact (contents_byte (g := ram_adaptor)).
  - exact (switch_law (g := ram_adaptor)).
  - exact (read_law (g := ram_adaptor)).
  - exact (write_law (g := ram_adaptor)).
Defined.

(** The entry "bl_a" of eight blocks from block 4, and "misc" from block 12. *)
Definition vt_bl_a : ver_table_entry_t :=
  mk_vte ([98; 108; 95; 97] ++ replicate 12 0) 7 4 8 7 4 8 0 (replicate 16 0).
Definition vt_misc : ver_table_entry_t :=
  mk_vte ([109; 105; 115; 99] ++ replicate 12 0) 0 12 1 0 13 1 0 (replicate 16 0).

Lemma sample_vte_ok : Forall vte_ok [vt_bl_a; vt_misc].
Proof.
  repeat constructor; cbn; unfold is_u32, is_bytes, is_u8; repeat (constructor || lia).
Qed.

(** The two entries behind a header, with the checksum the tool crc appends. *)
Definition sample_entry (e : ver_table_entry_t) : bytes :=
  name e ++ le64 (part1_version e) ++ le32 (part1_start_blkind e) ++ le32 (part1_blks e) ++ le64 (part2_version e) ++
  le32 (part2_start_blkind e) ++ le32 (part2_blks e) ++ le32 (write_protect_flag e) ++ part_type e.
Definition sample_sealed : bytes :=
  match crc_main true 0 (le32 MAGIC_NUMBER ++ le32 0 ++ le32 2 ++ sample_entry vt_bl_a ++ sample_entry vt_misc) with Some (o, _) => o | None => [] end.
Definition sample_bad : bytes := <[20%nat := 99]> sample_sealed.

(** The first copy is damaged, the second intact. *)
Definition sample_device : flash ramflash :=
  mk_flash (mk_ramflash 0 (fun p x => nth (Z.to_nat (x - 2048)) (if p =? 1 then sample_bad else sample_sealed) 0)) 0.


Lemma vt_parse_total_witness :
  exists fl' vts' r, parse_version_table boot_ram 0 (sample_sealed ++ replicate (Z.to_nat 2000) 0) sample_device [] = Some (fl', vts', r) /\
    parsed boot_ram (sample_sealed ++ replicate (Z.to_nat 2000) 0) sample_device [] fl' vts' r.
Proof.
  apply (vt_parse_total boot_ram 0 (sample_sealed ++ replicate (Z.to_nat 2000) 0) sample_device []).
  - apply sample_bytes_ok. vm_compute. reflexivity.
  - rewrite length_app, length_replicate. change (length sample_sealed) with 152%nat. unfold CLEAR_VT_SIZE. lia.
  - vm_compute. reflexivity.
Defined.

Lemma vt_size_wraps_witness :
  let buff := wrapping_header ++ le32 (Z.lxor (crc32_ref 0 wrapping_header) 0xffffffff) ++ replicate (Z.to_nat (8192 - 16)) 0 in
  field buff 8 4 = 2 ^ 30 /\ vt_size_of (2 ^ 30) = 12 /\ parse_version_table boot_ram 0 buff sample_device [] = None.
Proof. exact (vt_size_wraps boot_ram sample_device [] eq_refl). Defined.

Lemma vt_image_inside_partition_witness :
  read_image_from_offset boot_ram sample_device vt_misc 0 (2 ^ 19 + 1) = (sample_device, -1, []) /\
  write_image_to_offset boot_ram sample_device vt_misc 0 (2 ^ 19 + 1) [] = (sample_device, -1).
Proof.
  apply (vt_image_inside_partition boot_ram sample_device vt_misc 0 (2 ^ 19 + 1) []);
    [pose proof sample_vte_ok as H; inversion H as [|? ? _ H1]; inversion H1; done|unfold is_u32; lia..|cbn; lia|cbn; lia].
Defined.

Lemma vt_find_first_witness :
  let vts := [(vt_bl_a, 0); (vt_misc, 1)] in
  let by_name := read_image_by_ptname boot_ram sample_device vts [109; 105; 115; 99; 0] 512 vt_bl_a in
  (find_partition vts [109; 105; 115; 99; 0] = Some PARTITION_NOT_EXIST /\ Forall (fun p => ~ called [109; 105; 115; 99] p) vts /\
   by_name = Some (sample_device, PARTITION_NOT_EXIST, [])) \/
  (exists k e id, find_partition vts [109; 105; 115; 99; 0] = Some (Z.of_nat k) /\ vts !! k = Some (e, id) /\ called [109; 105; 115; 99] (e, id) /\
     Forall (fun p => ~ called [109; 105; 115; 99] p) (take k vts) /\ by_name = Some (read_image_from_offset boot_ram sample_device e 0 512)).
Proof.
  apply (vt_find_first boot_ram sample_device [(vt_bl_a, 0); (vt_misc, 1)] [109; 105; 115; 99] [] 512 vt_bl_a).
  - repeat constructor; [exists [98; 108; 95; 97]|exists [109; 105; 115; 99]]; (split; [repeat constructor; lia|eexists; reflexivity]).
  - repeat constructor; lia.
  - cbn. lia.
Defined.
