(* ===== verification/GenImage.v ===== *)
(** * Image headers (build/tools/src/executables/genimg/genimg.c,
    boot/common/driver/flash/load_gih.c, mach-synaptics/drivers/plat/genimg.c)

    The build tool packs files into an image: a header with one entry per chunk,
    then the chunks, each filled up to the alignment.  The boot stages find a
    chunk by its four-character id and read it.  The second half of the file shows
    that what is read is what was packed. *)

From S2P Require Import Prelude Disk FlashAdaptor.

(** ** The header *)

Record chunk_param := mk_chunk {
  id : Z;
  offset : Z;
  size : Z;
  attr0 : Z;
  dest_start : Z;
  dest_size : Z;
  attr1 : Z;
}.

Definition sizeof_image_header : Z := 64.
Definition sizeof_chunk_param : Z := 32.
Definition IMAGE_HEADER_MAGIC_NUM : Z := 0x482a4d49.
Definition MAX_IMAGE_CHUNK_ENTRY : Z := 128.
Definition CHUNK_NON_EXIST : Z := -1.

Definition chunk_bytes (c : chunk_param) : bytes :=
  le32 (id c) ++ le32 (offset c) ++ le32 (size c) ++ le32 (attr0 c) ++ le64 (dest_start c) ++ le32 (dest_size c) ++ le32 (attr1 c).

Definition chunk_of_bytes (b : bytes) : chunk_param :=
  mk_chunk (field b 0 4) (field b 4 4) (field b 8 4) (field b 12 4) (field b 16 8) (field b 24 4) (field b 28 4).

(** ** The tool *)

(** One [-i id -d file] of the command line with its options; [data] is the file,
    [None] when there is no such file. *)
Record chunk_record := mk_record {
  cr_id : Z;
  data : option bytes;
  cr_dest_start : Z;
  cr_dest_size : Z;
  cr_attr0 : Z;
  cr_attr1 : Z;
}.

Definition get_aligned (address page_size : Z) : Z := u32 (u32 (address + page_size - 1) / page_size * page_size).

(** [get_file_size], as it is stored in the unsigned field. *)
Definition file_size (f : option bytes) : Z := match f with Some b => u32 (Z.of_nat (length b)) | None => u32 (-1) end.

(** The loop that fills in the chunks; [prev] is the end of the chunk before. *)
Fixpoint fill_chunks (align_size prev : Z) (l : list chunk_record) : list chunk_param :=
  match l with
  | [] => []
  | r :: l =>
      let c := mk_chunk (cr_id r) prev (file_size (data r)) (cr_attr0 r) (cr_dest_start r) (cr_dest_size r) (cr_attr1 r) in
      c :: fill_chunks align_size (u32 (offset c + get_aligned (size c) align_size)) l
  end.

(** What [cat] and [dd] append for a chunk: the file, and as many random bytes as
    the alignment asks for. *)
Definition chunk_data (urandom : Z -> bytes) (align_size : Z) (r : chunk_record) : bytes :=
  let sz := get_aligned (file_size (data r)) align_size in
  default [] (data r) ++ (if file_size (data r) <? sz then urandom (sz - file_size (data r)) else []).

Record options := mk_options {
  image_name : bytes;
  align_size : Z;
  header_size_arg : Z;         (* -S name size, 0 when not given *)
  is_seperate_header : bool;
  h_ver : Z;
  i_ver : Z;
}.

Definition image_header_size (l : list chunk_record) : Z := u32 (sizeof_image_header + Z.of_nat (length l) * sizeof_chunk_param).

Definition header_size (o : options) (l : list chunk_record) : Z :=
  get_aligned (if header_size_arg o =? 0 then image_header_size l else header_size_arg o) (align_size o).

Definition first_offset (o : options) (l : list chunk_record) : Z :=
  get_aligned (image_header_size l) (if is_seperate_header o then header_size o l else align_size o).

(** The header file.  [junk1] and [junk2] are the fields that [main] leaves as
    malloc() returned them. *)
Definition header_bytes (junk1 junk2 : bytes) (o : options) (l : list chunk_record) : bytes :=
  le32 IMAGE_HEADER_MAGIC_NUM ++ le32 (image_header_size l) ++ le32 (h_ver o) ++ junk1 ++
  (take 31 (image_name o ++ replicate 31 0) ++ [0]) ++ le32 (i_ver o) ++ junk2 ++ le32 (Z.of_nat (length l)) ++
  concat (map chunk_bytes (fill_chunks (align_size o) (first_offset o l) l)).

(** [main] from the parsed options on: the header file and the output file.
    [old] is what the output file holds before: it is replaced when the header
    goes there too, and appended to when the header is separate.  [urandom n] is
    what dd writes for n bytes.  A zero alignment divides by zero. *)
Definition genimg (urandom : Z -> bytes) (junk1 junk2 old : bytes) (o : options) (l : list chunk_record) : option (bytes * bytes) :=
  if (align_size o =? 0) || (is_seperate_header o && (header_size o l =? 0)) then None
  else
    let hdr := header_bytes junk1 junk2 o l in
    let hsz := image_header_size l in
    let sz := get_aligned hsz (align_size o) in
    let out := if is_seperate_header o then old
               else hdr ++ (if hsz <? sz then urandom (sz - hsz) else []) in
    Some (hdr, out ++ concat (map (chunk_data urandom (align_size o)) l)).

(** ** The boot stages *)

(** The chunk at index [i] of a header in memory. *)
Definition chunk_at (buff : bytes) (i : Z) : option chunk_param :=
  let off := sizeof_image_header + i * sizeof_chunk_param in
  if decide (0 <= off /\ off + sizeof_chunk_param <= Z.of_nat (length buff))
  then Some (chunk_of_bytes (take 32 (drop (Z.to_nat off) buff))) else None.

Definition chunk_num (buff : bytes) : Z := field buff 60 4.

Fixpoint find_chunk_loop (n : nat) (i : Z) (cid : Z) (buff : bytes) : option Z :=
  match n with
  | O => Some CHUNK_NON_EXIST
  | S n => c ← chunk_at buff i; if cid =? id c then Some i else find_chunk_loop n (i + 1) cid buff
  end.

Definition find_chunk (cid : Z) (buff : bytes) : option Z :=
  if decide (Z.of_nat (length buff) < sizeof_image_header) then None
  else if chunk_num buff <? MAX_IMAGE_CHUNK_ENTRY then find_chunk_loop (Z.to_nat (chunk_num buff)) 0 cid buff
  else Some CHUNK_NON_EXIST.

(** The end of the last chunk; without chunks the entry before the first, that
    is, part of the name. *)
Definition get_image_size_from_GIH (buff : bytes) : option Z :=
  if decide (Z.of_nat (length buff) < sizeof_image_header) then None
  else c ← chunk_at buff (i32 (chunk_num buff) - 1); Some (u32 (offset c + size c)).

(** A call returns or ends in an endless loop. *)
Inductive outcome (A : Type) := Returns (a : A) | Spins.
Arguments Returns {A}. Arguments Spins {A}.

Definition BOOT_PARTITION_SIZE : Z := 512 * 1024.

Section Boot.
Context {D : Type} (g_flash : flash_adaptor D).
(** The build: where the header is in a boot partition (img_layout.h), and
    CONFIG_UBOOT, which has no limit on the size. *)
Variables (IMG_HEADER_ADDR : Z) (CONFIG_UBOOT : bool).
Implicit Types (fl : flash D).

Definition read_image_from_GIH (part : Z) (gih : bytes) (cid : Z) fl : option (outcome (flash D * Z * bytes)) :=
  chunk_id ← find_chunk cid gih;
  if chunk_id <? 0 then Some Spins
  else
    c ← chunk_at gih chunk_id;
    let off := u32 (offset c + IMG_HEADER_ADDR) in
    let '(fl, part_addr) := switch_flash_part g_flash fl part in
    if part_addr <? 0 then Some (Returns (fl, FLASH_OP_ERR, []))
    else if negb CONFIG_UBOOT && (BOOT_PARTITION_SIZE <? u32 (off + size c)) then Some Spins
    else
      let '(fl, ret, got) := read_flash g_flash fl (u32 (part_addr + off)) (size c) in
      if negb (ret =? 0) then Some (Returns (fl, FLASH_OP_ERR, got))
      else
        let '(fl, part_addr) := switch_flash_part g_flash fl 0 in
        Some (Returns (fl, if part_addr <? 0 then FLASH_OP_ERR else 0, got)).

End Boot.

(** ** Alignment *)

Lemma get_aligned_spec a p : 0 <= a -> 0 < p -> a + p <= 2 ^ 32 ->
  a <= get_aligned a p < a + p /\ (p | get_aligned a p).
Proof.
  intros Ha Hp Hl. unfold get_aligned. rewrite (u32_id (a + p - 1)) by (unfold is_u32; lia).
  pose proof (Z.div_mod (a + p - 1) p ltac:(lia)) as E. pose proof (Z.mod_pos_bound (a + p - 1) p Hp) as Hm.
  set (q := (a + p - 1) / p) in *. rewrite u32_id by (unfold is_u32; nia). split; [nia|]. now exists q.
Qed.

(** ** Encoding and decoding a chunk *)

Record chunk_ok (c : chunk_param) : Prop := mk_chunk_ok {
  ok_id : is_u32 (id c); ok_offset : is_u32 (offset c); ok_size : is_u32 (size c); ok_attr0 : is_u32 (attr0 c);
  ok_dest : 0 <= dest_start c < 2 ^ 64; ok_dest_size : is_u32 (dest_size c); ok_attr1 : is_u32 (attr1 c);
}.

Lemma chunk_bytes_length c : length (chunk_bytes c) = 32%nat.
Proof. reflexivity. Qed.

Lemma chunk_roundtrip c : chunk_ok c -> chunk_of_bytes (chunk_bytes c) = c.
Proof.
  intros [Hi Ho Hs H0 Hd Hz H1]. destruct c as [i o s a0 d z a1]. cbn [id offset size attr0 dest_start dest_size attr1] in *.
  assert (E : chunk_of_bytes (chunk_bytes (mk_chunk i o s a0 d z a1)) =
    mk_chunk (le_val (le32 i)) (le_val (le32 o)) (le_val (le32 s)) (le_val (le32 a0)) (le_val (le64 d)) (le_val (le32 z)) (le_val (le32 a1)))
    by reflexivity.
  rewrite E, le_val_le64, !le_val_le32 by done. done.
Qed.

Lemma chunks_lookup cs rest k c : Forall chunk_ok cs -> cs !! k = Some c ->
  chunk_of_bytes (take 32 (drop (k * 32) (concat (map chunk_bytes cs) ++ rest))) = c.
Proof.
  intros Hcs. revert k. induction Hcs as [|c0 cs Hc Hcs IH]; intros k Hk; [done|]. cbn [map concat]. rewrite <- app_assoc.
  destruct k as [|k].
  - injection Hk as <-. rewrite Nat.mul_0_l, drop_0, (take_app_length' _ _ 32) by (now rewrite chunk_bytes_length). now apply chunk_roundtrip.
  - rewrite drop_app_ge by (rewrite chunk_bytes_length; lia). rewrite chunk_bytes_length.
    replace (S k * 32 - 32)%nat with (k * 32)%nat by lia. now apply IH.
Qed.

Lemma chunks_length cs : length (concat (map chunk_bytes cs)) = (32 * length cs)%nat.
Proof. induction cs as [|c cs IH]; [done|]. cbn [map concat]. rewrite length_app, IH, chunk_bytes_length. cbn [length]. lia. Qed.

(** ** Looking a chunk up *)

(** A header in memory: 64 bytes with the number of chunks at their end, and the chunks. *)
Definition header_of (buff : bytes) (cs : list chunk_param) : Prop :=
  exists pre rest, buff = pre ++ concat (map chunk_bytes cs) ++ rest /\ length pre = 64%nat /\
    field buff 60 4 = Z.of_nat (length cs) /\ Forall chunk_ok cs.

Lemma chunk_at_ok buff cs k c : header_of buff cs -> cs !! k = Some c -> chunk_at buff (Z.of_nat k) = Some c.
Proof.
  intros (pre & rest & E & Hp & _ & Hcs) Hk. unfold chunk_at, sizeof_image_header, sizeof_chunk_param.
  pose proof (lookup_lt_Some _ _ _ Hk). pose proof (chunks_length cs).
  rewrite decide_True by (rewrite E, !length_app; lia). f_equal.
  replace (Z.to_nat (64 + Z.of_nat k * 32)) with (64 + k * 32)%nat by lia. rewrite <- drop_drop, E.
  rewrite (drop_app_length' pre) by done. now apply chunks_lookup.
Qed.

Lemma find_chunk_loop_ok buff cs cid : header_of buff cs -> forall n i, (i + n = length cs)%nat ->
  find_chunk_loop n (Z.of_nat i) cid buff =
  Some (match list_find (fun c => id c = cid) (drop i cs) with Some (k, _) => Z.of_nat (i + k) | None => CHUNK_NON_EXIST end).
Proof.
  intros Hh. induction n as [|n IH]; intros i Hi; cbn [find_chunk_loop].
  - now rewrite drop_ge by lia.
  - destruct (lookup_lt_is_Some_2 cs i) as [c Hc]; [lia|]. rewrite (chunk_at_ok _ _ _ _ Hh Hc). cbn [mbind option_bind].
    rewrite (drop_S _ _ _ Hc). cbn [list_find]. destruct (Z.eqb_spec cid (id c)) as [E|E].
    + rewrite decide_True by done. now rewrite Nat.add_0_r.
    + rewrite decide_False by (intros E1; now apply E). replace (Z.of_nat i + 1) with (Z.of_nat (S i)) by lia. rewrite IH by lia.
      destruct (list_find _ (drop (S i) cs)) as [[k c']|]; [|done]. cbn. f_equal. lia.
Qed.

Lemma find_chunk_ok buff cs cid : header_of buff cs -> (length cs < 128)%nat ->
  find_chunk cid buff = Some (match list_find (fun c => id c = cid) cs with Some (k, _) => Z.of_nat k | None => CHUNK_NON_EXIST end).
Proof.
  intros Hh Hl. pose proof Hh as (pre & rest & E & Hp & Hn & _). unfold find_chunk, sizeof_image_header, MAX_IMAGE_CHUNK_ENTRY.
  rewrite decide_False by (rewrite E, length_app; lia). unfold chunk_num. rewrite Hn, (proj2 (Z.ltb_lt _ _)) by lia.
  rewrite Nat2Z.id. apply (find_chunk_loop_ok buff cs cid Hh (length cs) 0). lia.
Qed.

(** ** Where the tool puts the chunks *)

Section Layout.
(** dd writes as many bytes as it is told to. *)
Variable urandom : Z -> bytes.
Hypothesis urandom_length : forall n, 0 <= n -> length (urandom n) = Z.to_nat n.
Variable align : Z.
Hypothesis align_pos : 0 < align < 2 ^ 31.

(** A file that exists and whose options fit. *)
Record record_ok (r : chunk_record) : Prop := mk_record_ok {
  rec_data : exists b, data r = Some b /\ Z.of_nat (length b) + align <= 2 ^ 32;
  rec_id : is_u32 (cr_id r); rec_attr : is_u32 (cr_attr0 r) /\ is_u32 (cr_attr1 r);
  rec_dest : 0 <= cr_dest_start r < 2 ^ 64 /\ is_u32 (cr_dest_size r);
}.

(** The end of the last chunk, filled up. *)
Fixpoint end_offset (prev : Z) (l : list chunk_record) : Z :=
  match l with [] => prev | r :: l => end_offset (prev + get_aligned (file_size (data r)) align) l end.

Lemma file_size_ok r b : data r = Some b -> Z.of_nat (length b) + align <= 2 ^ 32 -> file_size (data r) = Z.of_nat (length b).
Proof. intros -> Hl. cbn [file_size]. apply u32_id. unfold is_u32. lia. Qed.

Lemma chunk_data_ok r b : data r = Some b -> Z.of_nat (length b) + align <= 2 ^ 32 ->
  exists fill, chunk_data urandom align r = b ++ fill /\ length (b ++ fill) = Z.to_nat (get_aligned (file_size (data r)) align).
Proof.
  intros Hd Hl. pose proof (file_size_ok r b Hd Hl) as Es. unfold chunk_data. rewrite Es, Hd. cbn [default from_option].
  destruct (get_aligned_spec (Z.of_nat (length b)) align) as [Ha _]; [lia..|]. eexists. split; [done|].
  rewrite length_app. destruct (Z.ltb_spec (Z.of_nat (length b)) (get_aligned (Z.of_nat (length b)) align)).
  - rewrite urandom_length by lia. lia.
  - cbn [length]. lia.
Qed.

Lemma end_offset_mono l : forall prev, Forall record_ok l -> prev <= end_offset prev l.
Proof.
  induction l as [|r l IH]; intros prev Hl; [cbn; lia|]. apply Forall_cons_iff in Hl as [[(b & Hd & Hb) _ _ _] Hl]. cbn [end_offset].
  specialize (IH (prev + get_aligned (file_size (data r)) align) Hl). rewrite (file_size_ok r b Hd Hb) in *.
  destruct (get_aligned_spec (Z.of_nat (length b)) align); lia.
Qed.

Lemma packed_length l : forall prev, Forall record_ok l -> Z.of_nat (length (concat (map (chunk_data urandom align) l))) = end_offset prev l - prev.
Proof.
  induction l as [|r l IH]; intros prev Hl; [cbn; lia|]. apply Forall_cons_iff in Hl as [[(b & Hd & Hb) _ _ _] Hl]. cbn [end_offset map concat].
  destruct (chunk_data_ok r b Hd Hb) as (fl & -> & L). rewrite length_app, L, Nat2Z.inj_add.
  rewrite (IH (prev + get_aligned (file_size (data r)) align) Hl), Z2Nat.id; [lia|]. apply u32_range.
Qed.

(** Chunk [k] of the header describes where the bytes of file [k] are. *)
Lemma fill_chunks_ok l : forall prev, Forall record_ok l -> 0 <= prev -> end_offset prev l < 2 ^ 32 ->
  Forall chunk_ok (fill_chunks align prev l) /\ length (fill_chunks align prev l) = length l /\
  forall k r b, l !! k = Some r -> data r = Some b -> exists c, fill_chunks align prev l !! k = Some c /\
    id c = cr_id r /\ size c = Z.of_nat (length b) /\ prev <= offset c /\ offset c + size c <= end_offset prev l /\
    forall rest, take (length b) (drop (Z.to_nat (offset c - prev)) (concat (map (chunk_data urandom align) l) ++ rest)) = b.
Proof.
  induction l as [|r l IH]; intros prev Hl Hp He; [done|]. apply Forall_cons_iff in Hl as [Hr Hl].
  destruct Hr as [(b & Hd & Hb) Hi [Ha0 Ha1] [Hds Hdz]]. cbn [end_offset] in He. pose proof (file_size_ok r b Hd Hb) as Es.
  destruct (chunk_data_ok r b Hd Hb) as (fl & Ecd & Lcd). rewrite Es in He, Lcd.
  destruct (get_aligned_spec (Z.of_nat (length b)) align) as [Hal _]; [lia..|].
  pose proof (end_offset_mono l (prev + get_aligned (Z.of_nat (length b)) align) Hl) as Hmono.
  cbn [fill_chunks offset size]. rewrite Es, u32_id by (unfold is_u32; lia). cbn [end_offset]. rewrite Es.
  destruct (IH (prev + get_aligned (Z.of_nat (length b)) align) Hl) as (IHok & IHl & IHk); [lia..|].
  split_and!; [constructor; [split; cbn; done || (unfold is_u32; lia)|done]|cbn [length]; lia|].
  intros [|k] r' b' Hk Hd'.
  - injection Hk as <-. assert (b' = b) as -> by congruence. eexists. split; [done|]. cbn [id size offset]. split_and!; [done|done|lia|lia|].
    intros rest. rewrite Z.sub_diag, drop_0. cbn [map concat]. rewrite Ecd, <- !app_assoc. apply take_app_length.
  - destruct (IHk k r' b' Hk Hd') as (c & Hc & Eid & Esz & Ho & Hend & Htake). exists c. split_and!; [done..|lia|lia|].
    intros rest. cbn [map concat]. rewrite Ecd, <- (app_assoc (b ++ fl)), drop_app_ge by lia. rewrite Lcd.
    replace (Z.to_nat (offset c - prev) - Z.to_nat (get_aligned (Z.of_nat (length b)) align))%nat
      with (Z.to_nat (offset c - (prev + get_aligned (Z.of_nat (length b)) align))) by lia. apply Htake.
Qed.

End Layout.

(** ** From the tool to the boot stages *)

(** A run of the tool that fits its table of sixty chunks and 32-bit offsets. *)
Record build_ok (junk1 junk2 : bytes) (o : options) (l : list chunk_record) : Prop := mk_build_ok {
  b_junk : length junk1 = 4%nat /\ length junk2 = 8%nat;
  b_align : 0 < align_size o < 2 ^ 31;
  b_num : (length l <= 60)%nat;
  b_records : Forall (record_ok (align_size o)) l;
  b_end : end_offset (align_size o) (first_offset o l) l < 2 ^ 32;
}.

Section Build.
Variable urandom : Z -> bytes.
Hypothesis urandom_length : forall n, 0 <= n -> length (urandom n) = Z.to_nat n.
Variables (junk1 junk2 : bytes) (o : options) (l : list chunk_record).
Hypothesis Hok : build_ok junk1 junk2 o l.

Let cs := fill_chunks (align_size o) (first_offset o l) l.

Lemma first_offset_nonneg : 0 <= first_offset o l.
Proof. unfold first_offset, get_aligned. apply u32_range. Qed.

Lemma hdr_size_ok : image_header_size l = 64 + 32 * Z.of_nat (length l).
Proof.
  destruct Hok as [_ _ Hn _ _]. unfold image_header_size, sizeof_image_header, sizeof_chunk_param.
  rewrite u32_id by (unfold is_u32; lia). lia.
Qed.

Lemma header_built rest : header_of (header_bytes junk1 junk2 o l ++ rest) cs.
Proof.
  destruct Hok as [[Hj1 Hj2] Hal Hn Hrec Hend].
  destruct (fill_chunks_ok urandom urandom_length (align_size o) Hal l (first_offset o l) Hrec first_offset_nonneg Hend) as (Hcs & Hlen & _).
  fold cs in Hcs, Hlen. unfold header_bytes. fold cs. set (nm := take 31 (image_name o ++ replicate 31 0) ++ [0]).
  assert (Hnm : length nm = 32%nat) by (unfold nm; len).
  set (p := le32 IMAGE_HEADER_MAGIC_NUM ++ le32 (image_header_size l) ++ le32 (h_ver o) ++ junk1 ++ nm ++ le32 (i_ver o) ++ junk2).
  assert (Hp : length p = 60%nat) by (unfold p; rewrite !length_app, Hj1, Hj2, Hnm; reflexivity).
  set (n := le32 (Z.of_nat (length l))). exists (p ++ n), rest.
  assert (E : (le32 IMAGE_HEADER_MAGIC_NUM ++ le32 (image_header_size l) ++ le32 (h_ver o) ++ junk1 ++ nm ++ le32 (i_ver o) ++ junk2 ++
    n ++ concat (map chunk_bytes cs)) ++ rest = (p ++ n) ++ concat (map chunk_bytes cs) ++ rest) by (unfold p; now rewrite <- !app_assoc).
  split_and!; [exact E|rewrite length_app, Hp; reflexivity| |done].
  rewrite E, <- app_assoc. unfold field. rewrite drop_app_length' by done. rewrite take_app_length' by reflexivity.
  unfold n. rewrite le_val_le32 by (unfold is_u32; lia). now rewrite Hlen.
Qed.

(** The bytes before the first chunk of an image with its header. *)
Lemma header_filled : let hsz := image_header_size l in let sz := get_aligned hsz (align_size o) in
  length (header_bytes junk1 junk2 o l ++ (if hsz <? sz then urandom (sz - hsz) else [])) = Z.to_nat sz.
Proof.
  intros hsz sz. destruct (header_built []) as (pre & rest & E & Hp & _). rewrite app_nil_r in E.
  destruct Hok as [[Hj1 Hj2] Hal Hn Hrec Hend].
  destruct (fill_chunks_ok urandom urandom_length (align_size o) Hal l (first_offset o l) Hrec first_offset_nonneg Hend) as (_ & Hlen & _).
  assert (Hl : length (header_bytes junk1 junk2 o l) = Z.to_nat hsz).
  { unfold header_bytes. fold cs in Hlen |- *. unfold hsz. rewrite hdr_size_ok, !length_app, chunks_length, Hlen, Hj1, Hj2. unfold le32.
    cbn [length]. rewrite length_take, length_app, length_replicate. lia. }
  destruct (get_aligned_spec hsz (align_size o)) as [Ha _]; [unfold hsz; rewrite hdr_size_ok; lia|lia|unfold hsz; rewrite hdr_size_ok; lia|].
  fold sz in Ha. assert (0 <= hsz) by (unfold hsz; rewrite hdr_size_ok; lia).
  rewrite length_app, Hl. destruct (Z.ltb_spec hsz sz); [rewrite urandom_length by lia; lia|cbn [length]; lia].
Qed.

Lemma build_fill : Forall chunk_ok cs /\ length cs = length l /\
  forall k r b, l !! k = Some r -> data r = Some b -> exists c, cs !! k = Some c /\
    id c = cr_id r /\ size c = Z.of_nat (length b) /\ first_offset o l <= offset c /\ offset c + size c < 2 ^ 32 /\
    offset c + size c <= first_offset o l + Z.of_nat (length (concat (map (chunk_data urandom (align_size o)) l))) /\
    take (length b) (drop (Z.to_nat (offset c - first_offset o l)) (concat (map (chunk_data urandom (align_size o)) l))) = b.
Proof.
  destruct Hok as [_ Hal _ Hrec Hend].
  destruct (fill_chunks_ok urandom urandom_length (align_size o) Hal l (first_offset o l) Hrec first_offset_nonneg Hend) as (Hcs & Hlen & Hf).
  split_and!; [done..|]. intros k r b Hk Hd. destruct (Hf k r b Hk Hd) as (c & Hc & Eid & Esz & Ho & He & Ht). exists c.
  specialize (Ht []). rewrite app_nil_r in Ht.
  rewrite (packed_length urandom urandom_length (align_size o) Hal l (first_offset o l) Hrec). split_and!; [done..|lia|lia|done].
Qed.

(** The first chunk of an id. *)
Lemma first_with_id k r b : l !! k = Some r -> data r = Some b -> (forall j r', (j < k)%nat -> l !! j = Some r' -> cr_id r' <> cr_id r) ->
  exists c, cs !! k = Some c /\ list_find (fun c => id c = cr_id r) cs = Some (k, c).
Proof.
  intros Hk Hd Hfirst. destruct build_fill as (_ & Hlen & Hf). destruct (Hf k r b Hk Hd) as (c & Hc & Eid & _). exists c. split; [done|].
  apply list_find_Some. split_and!; [done..|]. intros j c' Hj Hjk Ec'. pose proof (lookup_lt_Some _ _ _ Hj).
  destruct (lookup_lt_is_Some_2 l j) as [r' Hr']; [lia|]. apply (Hfirst j r' Hjk Hr'). destruct Hok as [_ _ _ Hrec _].
  pose proof (list.Forall_lookup_1 _ _ _ _ Hrec Hr') as [(b' & Hd' & _) _ _ _].
  destruct (Hf j r' b' Hr' Hd') as (c2 & Hc2 & Eid2 & _). congruence.
Qed.

(** The size computed from the last entry. *)
Lemma image_size_built rest k c : cs !! k = Some c -> S k = length l ->
  get_image_size_from_GIH (header_bytes junk1 junk2 o l ++ rest) = Some (u32 (offset c + size c)).
Proof.
  intros Hc Hk. pose proof (header_built rest) as Hh. pose proof (chunk_at_ok _ _ _ _ Hh Hc) as Hat. destruct build_fill as (_ & Hlen & _).
  destruct Hok as [_ _ Hn _ _]. destruct Hh as (pre & rs & E & Hp & Hnum & _). unfold get_image_size_from_GIH, chunk_num.
  rewrite decide_False by (unfold sizeof_image_header; rewrite E, length_app; lia). rewrite Hnum, i32_id by (unfold is_i32; lia).
  replace (Z.of_nat (length cs) - 1) with (Z.of_nat k) by lia. now rewrite Hat.
Qed.

End Build.

Lemma packed_found urandom junk1 junk2 old o l hdr out k r b rest :
  (forall n, 0 <= n -> length (urandom n) = Z.to_nat n) -> build_ok junk1 junk2 o l ->
  genimg urandom junk1 junk2 old o l = Some (hdr, out) ->
  l !! k = Some r -> data r = Some b -> (forall j r', (j < k)%nat -> l !! j = Some r' -> cr_id r' <> cr_id r) ->
  find_chunk (cr_id r) (hdr ++ rest) = Some (Z.of_nat k) /\
  exists c, chunk_at (hdr ++ rest) (Z.of_nat k) = Some c /\ size c = Z.of_nat (length b) /\
    (S k = length l -> get_image_size_from_GIH (hdr ++ rest) = Some (offset c + size c)) /\
    (if is_seperate_header o
     then first_offset o l <= offset c /\ Z.of_nat (length old) + (offset c - first_offset o l) + size c <= Z.of_nat (length out) /\
       take (length b) (drop (length old + Z.to_nat (offset c - first_offset o l)) out) = b
     else hdr `prefix_of` out /\ take (length b) (drop (Z.to_nat (offset c)) out) = b).
Proof.
  intros Hu Hok Hg Hk Hd Hfirst. unfold genimg in Hg. destruct (_ || _) eqn:Ez; [done|].
  assert (Eh : hdr = header_bytes junk1 junk2 o l) by congruence.
  assert (Eo : out = (if is_seperate_header o then old else header_bytes junk1 junk2 o l ++
    (if image_header_size l <? get_aligned (image_header_size l) (align_size o)
     then urandom (get_aligned (image_header_size l) (align_size o) - image_header_size l) else [])) ++
    concat (map (chunk_data urandom (align_size o)) l)) by congruence.
  clear Hg. pose proof (header_built urandom Hu junk1 junk2 o l Hok rest) as Hh. rewrite <- Eh in Hh.
  destruct (build_fill urandom Hu junk1 junk2 o l Hok) as (_ & Hlen & Hfill).
  destruct (first_with_id urandom Hu junk1 junk2 o l Hok k r b Hk Hd Hfirst) as (c & Hc & Hlf).
  destruct (Hfill k r b Hk Hd) as (c2 & Hc2 & Eid & Esz & Ho & Hce & Hin & Htake). assert (c2 = c) as -> by congruence. split.
  - rewrite (find_chunk_ok _ _ _ Hh), Hlf; [done|]. pose proof (b_num _ _ _ _ Hok). lia.
  - exists c. split_and!; [exact (chunk_at_ok _ _ _ _ Hh Hc)|done| |].
    + intros Hlast. rewrite Eh, (image_size_built urandom Hu junk1 junk2 o l Hok rest k c Hc Hlast), u32_id; [done|].
      pose proof (first_offset_nonneg o l). unfold is_u32. lia.
    + pose proof (header_filled urandom Hu junk1 junk2 o l Hok) as Hfl. cbv zeta in Hfl. pose proof (first_offset_nonneg o l) as H0.
      unfold first_offset in H0, Ho, Hin, Htake |- *. destruct (is_seperate_header o) eqn:Esep.
      * split_and!; [done|rewrite Eo, length_app; lia|]. rewrite Eo, drop_app_ge by lia. rewrite Nat.add_comm, Nat.add_sub. exact Htake.
      * split; [rewrite Eo, Eh, <- app_assoc; by apply prefix_app_r|]. rewrite Eo, drop_app_ge by lia.
        rewrite Hfl, <- Z2Nat.inj_sub by lia. exact Htake.
Qed.

(** Whatever files the tool packs, the boot stages find them: looking up an id in
    the header gives the first chunk that was packed with it, and the bytes that
    its entry describes are those of the file, in the image with its header as
    well as in the image whose header is separate; the size computed from the
    last entry is the end of the last file. *)
Theorem genimg_chunk_found urandom junk1 junk2 old o l hdr out k r b rest :
  (forall n, 0 <= n -> length (urandom n) = Z.to_nat n) -> build_ok junk1 junk2 o l ->
  genimg urandom junk1 junk2 old o l = Some (hdr, out) ->
  l !! k = Some r -> data r = Some b -> (forall j r', (j < k)%nat -> l !! j = Some r' -> cr_id r' <> cr_id r) ->
  find_chunk (cr_id r) (hdr ++ rest) = Some (Z.of_nat k) /\
  exists c, chunk_at (hdr ++ rest) (Z.of_nat k) = Some c /\ size c = Z.of_nat (length b) /\
    (S k = length l -> get_image_size_from_GIH (hdr ++ rest) = Some (offset c + size c)) /\
    (if is_seperate_header o
     then first_offset o l <= offset c /\ take (length b) (drop (length old + Z.to_nat (offset c - first_offset o l)) out) = b
     else hdr `prefix_of` out /\ take (length b) (drop (Z.to_nat (offset c)) out) = b).
Proof.
  intros Hu Hok Hg Hk Hd Hf.
  destruct (packed_found urandom junk1 junk2 old o l hdr out k r b rest Hu Hok Hg Hk Hd Hf) as (H1 & c & H2 & H3 & H4 & H5).
  split; [done|]. exists c. split_and!; [done..|]. destruct (is_seperate_header o); [|done]. split; apply H5.
Qed.

(** ** The read of a boot stage *)

Section Read.
Context {D : Type} {g : flash_adaptor D} `{!ReliableAdaptor g}.
Variables (IMG_HEADER_ADDR : Z) (CONFIG_UBOOT : bool).

Lemma read_from_GIH_ok part hdr cid k c (fl : flash D) :
  find_chunk cid hdr = Some (Z.of_nat k) -> chunk_at hdr (Z.of_nat k) = Some c ->
  0 <= IMG_HEADER_ADDR -> 0 <= offset c -> 0 <= size c -> IMG_HEADER_ADDR + offset c + size c <= BOOT_PARTITION_SIZE ->
  exists fl', read_image_from_GIH g IMG_HEADER_ADDR CONFIG_UBOOT part hdr cid fl =
      Some (Returns (fl', 0, rng (contents (drv fl) part) (IMG_HEADER_ADDR + offset c) (Z.to_nat (size c)))) /\
    current (drv fl') = 0 /\ forall q x, contents (drv fl') q x = contents (drv fl) q x.
Proof.
  intros Hf Hat Hi Ho Hs Hb. unfold BOOT_PARTITION_SIZE in *. unfold read_image_from_GIH. rewrite Hf. cbn [mbind option_bind].
  rewrite (proj2 (Z.ltb_ge _ _)) by lia. rewrite Hat. cbn [mbind option_bind].
  rewrite (u32_id (offset c + IMG_HEADER_ADDR)) by (unfold is_u32; lia).
  destruct (switch_reliable fl part) as (fl1 & -> & Hc1 & Hs1). cbn [Z.ltb Z.compare].
  rewrite (u32_id (_ + size c)) by (unfold is_u32; lia). unfold BOOT_PARTITION_SIZE. rewrite (proj2 (Z.ltb_ge _ _)) by lia.
  rewrite andb_false_r, Z.add_0_l, u32_id by (unfold is_u32; lia).
  destruct (read_reliable fl1 (offset c + IMG_HEADER_ADDR) (size c)) as (fl2 & -> & Hc2 & Hs2); [lia..|]. cbn [Z.eqb negb].
  destruct (switch_reliable fl2 0) as (fl3 & -> & Hc3 & Hs3). cbn [Z.ltb Z.compare]. exists fl3. split_and!; [|done|].
  - rewrite Hc1, Z.add_comm. do 3 f_equal. apply rng_ext. intros. apply Hs1.
  - intros q x. now rewrite Hs3, Hs2, Hs1.
Qed.

(** C10: On a device that holds the image where the header says, a boot stage reads
    exactly the file that was packed, and leaves the user area selected. *)
Theorem gih_reads_packed_file urandom junk1 junk2 o l hdr out k r b part (fl : flash D) :
  (forall n, 0 <= n -> length (urandom n) = Z.to_nat n) -> build_ok junk1 junk2 o l ->
  genimg urandom junk1 junk2 [] o l = Some (hdr, out) -> is_seperate_header o = true ->
  l !! k = Some r -> data r = Some b -> (forall j r', (j < k)%nat -> l !! j = Some r' -> cr_id r' <> cr_id r) ->
  let base := IMG_HEADER_ADDR + first_offset o l in
  0 <= IMG_HEADER_ADDR -> base + Z.of_nat (length out) <= BOOT_PARTITION_SIZE ->
  rng (contents (drv fl) part) base (length out) = out ->
  exists fl', read_image_from_GIH g IMG_HEADER_ADDR CONFIG_UBOOT part hdr (cr_id r) fl = Some (Returns (fl', 0, b)) /\
    current (drv fl') = 0 /\ forall q x, contents (drv fl') q x = contents (drv fl) q x.
Proof.
  intros Hu Hok Hg Hsep Hk Hd Hfirst base Hi Hb Hc.
  destruct (packed_found urandom junk1 junk2 [] o l hdr out k r b [] Hu Hok Hg Hk Hd Hfirst) as (Hf & c & Hat & Esz & _ & Hin).
  rewrite Hsep, app_nil_r in *. destruct Hin as (Ho & Hend & Htake). cbn [length] in Hend, Htake. rewrite Nat.add_0_l in Htake.
  pose proof (first_offset_nonneg o l) as H0.
  destruct (read_from_GIH_ok part hdr (cr_id r) k c fl Hf Hat) as (fl' & -> & Hcur & Hs); [lia..|].
  exists fl'. split_and!; [|done|done]. do 3 f_equal. rewrite <- Htake, <- Hc, Esz, Nat2Z.id. unfold base.
  rewrite rng_sub by lia. f_equal. lia.
Qed.
End Read.

(** ** What is not checked *)

(** A driver that only records the reads it is asked for. *)
Definition read_log : flash_adaptor (list (Z * Z)) :=
  mk_adaptor (list (Z * Z)) 0 512 512 0 None None None None (Some (fun d _ => (d, 0))) None None None
    (Some (fun d a n => (d ++ [(a, n)], 0, []))) None.

Definition id_BTLR : Z := 0x524c5442.

(** The end of a chunk is computed in 32 bits: an entry whose size wraps it
    around passes the check against the 512 KiB of the boot partition, and almost
    4 GiB are read into the buffer. *)
Theorem gih_end_wraps :
  let hdr := replicate 60 0 ++ le32 1 ++ chunk_bytes (mk_chunk id_BTLR 0 0xfffc4000 0 0 0 0) in
  exists fl, read_image_from_GIH read_log 0x3c000 false 1 hdr id_BTLR (mk_flash [] 0) = Some (Returns (fl, 0, [])) /\
    drv fl = [(0x3c000, 0xfffc4000)].
Proof. eexists. split; vm_compute; reflexivity. Qed.

(** A file that does not exist gets a chunk of 2^32 - 1 bytes, and the chunk
    after it the same offset; the tool goes on. *)
Theorem genimg_missing_input urandom junk1 junk2 o r1 r2 b :
  data r1 = None -> data r2 = Some b -> align_size o = 16 -> is_seperate_header o = false ->
  exists hdr out c1 c2, genimg urandom junk1 junk2 [] o [r1; r2] = Some (hdr, out) /\
    fill_chunks 16 (first_offset o [r1; r2]) [r1; r2] = [c1; c2] /\ size c1 = 2 ^ 32 - 1 /\ offset c2 = offset c1.
Proof.
  intros H1 H2 Ha Hs. unfold genimg. rewrite Ha, Hs. cbn [Z.eqb orb andb]. eexists _, _, _, _. split; [reflexivity|].
  assert (E : first_offset o [r1; r2] = 128) by (unfold first_offset; rewrite Hs, Ha; reflexivity).
  cbn [fill_chunks offset size]. rewrite E, H1. split_and!; reflexivity.
Qed.

(** ** Witnesses *)

Definition sample_urandom (n : Z) : bytes := replicate (Z.to_nat n) 7.
Definition sample_options (sep : bool) : options := mk_options [98; 108] 16 (if sep then 256 else 0) sep 0 1.
Definition sample_records : list chunk_record :=
  [mk_record id_BTLR (Some [1; 2; 3]) 0 0 0 0; mk_record 0x54425346 (Some [4; 5]) 0 0 0 0].
Definition sample_build (sep : bool) : bytes * bytes :=
  default ([], []) (genimg sample_urandom (replicate 4 0) (replicate 8 0) [] (sample_options sep) sample_records).

Lemma sample_urandom_length n : 0 <= n -> length (sample_urandom n) = Z.to_nat n.
Proof. intros _. apply length_replicate. Qed.

Lemma sample_build_ok sep : build_ok (replicate 4 0) (replicate 8 0) (sample_options sep) sample_records.
Proof.
  split; [by split|cbn; lia|cbn; lia| |destruct sep; vm_compute; reflexivity].
  unfold sample_records. rewrite !Forall_cons_iff. split_and!; [| |apply Forall_nil; done]; (split; cbn; unfold is_u32, id_BTLR; [eexists; split; [reflexivity|cbn; lia]|lia..]).
Qed.

Lemma sample_first j r' : (j < 1)%nat -> sample_records !! j = Some r' -> cr_id r' <> 0x54425346.
Proof. intros Hj H. assert (j = 0%nat) as -> by lia. injection H as <-. discriminate. Qed.

Lemma genimg_chunk_found_witness : exists c,
  find_chunk 0x54425346 ((sample_build false).1 ++ []) = Some 1 /\ chunk_at ((sample_build false).1 ++ []) 1 = Some c /\
  take 2 (drop (Z.to_nat (offset c)) (sample_build false).2) = [4; 5].
Proof.
  destruct (genimg_chunk_found sample_urandom (replicate 4 0) (replicate 8 0) [] (sample_options false) sample_records
    (sample_build false).1 (sample_build false).2 1 (mk_record 0x54425346 (Some [4; 5]) 0 0 0 0) [4; 5] []
    sample_urandom_length (sample_build_ok false) eq_refl eq_refl eq_refl sample_first) as (H1 & c & H2 & _ & _ & _ & H3).
  exists c. done.
Defined.

Definition sample_flash : flash ramflash :=
  mk_flash (mk_ramflash 0 (fun p x => nth (Z.to_nat (x - (0x3c000 + 256))) (sample_build true).2 0)) 0.

Lemma gih_reads_packed_file_witness : exists fl',
  read_image_from_GIH ram_adaptor 0x3c000 false 1 (sample_build true).1 0x54425346 sample_flash = Some (Returns (fl', 0, [4; 5])).
Proof.
  destruct (gih_reads_packed_file (g := ram_adaptor) 0x3c000 false sample_urandom (replicate 4 0) (replicate 8 0) (sample_options true) sample_records
    (sample_build true).1 (sample_build true).2 1 (mk_record 0x54425346 (Some [4; 5]) 0 0 0 0) [4; 5] 1 sample_flash
    sample_urandom_length (sample_build_ok true) eq_refl eq_refl eq_refl eq_refl sample_first) as (fl' & H & _).
  - lia.
  - vm_compute. discriminate.
  - vm_compute. reflexivity.
  - exists fl'. exact H.
Defined.

Lemma genimg_missing_input_witness : exists hdr out c1 c2,
  genimg sample_urandom [] [] [] (sample_options false) [mk_record 1 None 0 0 0 0; mk_record 2 (Some [4]) 0 0 0 0] = Some (hdr, out) /\
  fill_chunks 16 (first_offset (sample_options false) [mk_record 1 None 0 0 0 0; mk_record 2 (Some [4]) 0 0 0 0])
    [mk_record 1 None 0 0 0 0; mk_record 2 (Some [4]) 0 0 0 0] = [c1; c2] /\ size c1 = 2 ^ 32 - 1 /\ offset c2 = offset c1.
Proof.
  exact (genimg_missing_input sample_urandom [] [] (sample_options false) (mk_record 1 None 0 0 0 0) (mk_record 2 (Some [4]) 0 0 0 0) [4]
    eq_refl eq_refl eq_refl eq_refl).
Defined.
