(* ===== verification/UbootMmc.v ===== *)
(** * The MMC partitions of U-Boot
    (boot/u-boot_2019_10/arch/arm/mach-synaptics/misc.c and the readers of
    drivers/fastboot/fastboot_syna.c)

    A partition is found by name, in the hardware partition it lies in, and read
    from an offset.  U-Boot's block layer, its partition driver and its
    environment are parameters; a string is a list of characters without its
    terminator. *)

From S2P Require Import Prelude Disk.

(** ** U-Boot's block layer *)

Record disk_partition_t := mk_disk_part { start : Z; size : Z; blksz : Z; pname : bytes }.

(** The operations on device [dev]: whether find_mmc_device() and blk_get_dev()
    give a usable device; its size in blocks and block size; whether a partition
    driver recognises it, how many entries that has and get_info (entry [i],
    [None] for an error); selection of a hardware partition, reads and writes of
    whole blocks with the number of blocks done. *)
Record blk (D : Type) := mk_blk {
  present : D -> Z -> bool;
  dev_lba : D -> Z -> Z;
  dev_blksz : Z;
  recognised : D -> Z -> bool;
  max_entries : Z;
  get_info : D -> Z -> Z -> option disk_partition_t;
  dselect_hwpart : D -> Z -> Z -> D * Z;
  dread : D -> Z -> Z -> Z -> D * Z * bytes;
  dwrite : D -> Z -> Z -> Z -> bytes -> D * Z;
}.

Arguments present {D}. Arguments dev_lba {D}. Arguments dev_blksz {D}. Arguments recognised {D}.
Arguments max_entries {D}. Arguments get_info {D}. Arguments dselect_hwpart {D}. Arguments dread {D}. Arguments dwrite {D}.

Definition DEV_EMMC : Z := 0.
Definition DEV_SD : Z := 1.
Definition DEFAULT_PARTITION : Z := 0.
Definition EMMC_GPP_PARTITION : Z := 1.
Definition MAX_GPT_ENTRY : Z := 64.
Definition ENOENT : Z := 2.
Definition ENOMEM : Z := 12.
Definition EINVAL : Z := 22.

Record emmc_part := mk_emmc_part { hwpart : Z; part : Z; info : disk_partition_t }.

(** The device and the static variables [emmc_partition_type] (misc.c) and
    [emmc_part_table] (fastboot_syna.c, [None] for NULL). *)
Record mmc_state (D : Type) := mk_mmc { dev : D; emmc_partition_type : Z; emmc_part_table : option (list emmc_part) }.
Arguments mk_mmc {D}. Arguments dev {D}. Arguments emmc_partition_type {D}. Arguments emmc_part_table {D}.

(** "bootloader", "fastboot_partition_alias_", "mmc_dev" *)
Definition str_bootloader : bytes := [98; 111; 111; 116; 108; 111; 97; 100; 101; 114].
Definition str_alias : bytes :=
  [102; 97; 115; 116; 98; 111; 111; 116; 95; 112; 97; 114; 116; 105; 116; 105; 111; 110; 95; 97; 108; 105; 97; 115; 95].
Definition str_mmc_dev : bytes := [109; 109; 99; 95; 100; 101; 118].

(** [got] stored from [off] on in an object. *)
Definition store_at (m : bytes) (off : nat) (got : bytes) : option bytes :=
  if decide (off + length got <= length m)%nat then Some (splice m off got) else None.

Section Mmc.
Context {D : Type} (ops : blk D).
(** The environment with its number parser; whether the ROM booted from SPI (with
    CONFIG_SYNA_SUBOOT); what malloc() returns for the table, [None] for NULL. *)
Context (env_get : bytes -> option bytes) (simple_strtol : bytes -> Z) (rom_spi_boot : bool).
Context (malloc_table : option (list emmc_part)).
Implicit Types (s : mmc_state D).

Definition set_dev (d : D) s : mmc_state D := mk_mmc d (emmc_partition_type s) (emmc_part_table s).

Definition select_hwpart s (mmc_dev hw : Z) : mmc_state D * Z :=
  let '(d, r) := dselect_hwpart ops (dev s) mmc_dev hw in (set_dev d s, r).

(** ** Devices *)

Definition get_mmc_boot_dev : Z := if rom_spi_boot then DEV_SD else DEV_EMMC.

Definition get_mmc_active_dev : Z :=
  match env_get str_mmc_dev with
  | Some v => if i32 (simple_strtol v) =? 0 then 0 else 1
  | None => get_mmc_boot_dev
  end.

(** ** The table of the partitions of all hardware partitions *)

(** One hardware partition: [i] is the next entry of the table, [j] the entry of
    the partition table.  An entry that is not there ends the loop with its
    numbers already stored. *)
Fixpoint save_loop (fuel : nat) (mmc_dev hw i j : Z) s (t : list emmc_part) : option (Z * list emmc_part) :=
  if (j <? max_entries ops) && (i <? MAX_GPT_ENTRY) then
    match fuel with
    | O => None
    | S fuel =>
        e ← t !! Z.to_nat i;
        match get_info ops (dev s) mmc_dev j with
        | None => Some (i, <[Z.to_nat i := mk_emmc_part (u8 hw) (u8 j) (info e)]> t)
        | Some inf => save_loop fuel mmc_dev hw (i + 1) (j + 1) s (<[Z.to_nat i := mk_emmc_part (u8 hw) (u8 j) inf]> t)
        end
    end
  else Some (i, t).

Definition save_fuel : nat := Z.to_nat MAX_GPT_ENTRY.

(** The general-purpose partitions from [k] on. *)
Fixpoint save_gpps (n : nat) (mmc_dev k i : Z) s (t : list emmc_part) : option (mmc_state D * Z * list emmc_part) :=
  match n with
  | O => Some (s, i, t)
  | S n =>
      let '(s, r) := select_hwpart s mmc_dev k in
      if negb (r =? 0) then Some (s, i, t)
      else '(i, t) ← save_loop save_fuel mmc_dev k i 1 s t; save_gpps n mmc_dev (k + 1) i s t
  end.

Definition f_mmc_save_part_table s (mmc_dev : Z) : option (mmc_state D * Z) :=
  if negb (present ops (dev s) mmc_dev) then Some (s, - ENOENT)
  else if negb (recognised ops (dev s) mmc_dev) then Some (s, -1)
  else match malloc_table with
       | None => Some (mk_mmc (dev s) (emmc_partition_type s) None, - ENOMEM)
       | Some t =>
           let set_table s t := mk_mmc (dev s) (emmc_partition_type s) (Some t) in
           let '(s, r) := select_hwpart s mmc_dev 0 in
           if negb (r =? 0) then Some (set_table s t, - ENOENT)
           else
             '(i, t) ← save_loop save_fuel mmc_dev 0 0 1 s t;
             '(s, i, t) ← save_gpps 4 mmc_dev 4 i s t;
             Some (set_table s t, if i =? MAX_GPT_ENTRY then - EINVAL else 0)
       end.

(** The first of the 64 entries of that name. *)
Definition table_find (sel : emmc_part -> Z) s (part_name : bytes) : Z :=
  match emmc_part_table s with
  | None => - EINVAL
  | Some t => match list_find (fun e => pname (info e) = part_name) t with Some (_, e) => sel e | None => - EINVAL end
  end.

Definition f_mmc_get_hwpart_from_table s (part_name : bytes) : Z := table_find hwpart s part_name.
Definition f_mmc_get_part_from_table s (part_name : bytes) : Z := table_find part s part_name.

(** [blk_get_device_by_str("mmc", "0.4")] selects the first general-purpose
    partition. *)
Definition get_mmc_partition_type s (mmc_dev : Z) : option (mmc_state D * Z) :=
  if mmc_dev =? DEV_EMMC then
    if 0 <=? emmc_partition_type s then Some (s, emmc_partition_type s)
    else
      let set_type v s := mk_mmc (dev s) v (emmc_part_table s) in
      let '(s, r) := if present ops (dev s) mmc_dev then select_hwpart s mmc_dev 4 else (s, -1) in
      if r =? 0 then '(s, _) ← f_mmc_save_part_table s mmc_dev; Some (set_type EMMC_GPP_PARTITION s, EMMC_GPP_PARTITION)
      else Some (set_type DEFAULT_PARTITION s, DEFAULT_PARTITION)
  else Some (s, DEFAULT_PARTITION).

Definition get_mmc_part_by_name s (mmc_dev : Z) (name : bytes) : option (mmc_state D * Z) :=
  if decide (name = str_bootloader \/ name = str_bootloader ++ [49]) then Some (s, 1)
  else if decide (name = str_bootloader ++ [50]) then Some (s, 2)
  else
    '(s, ty) ← get_mmc_partition_type s mmc_dev;
    if ty =? DEFAULT_PARTITION then Some (s, 0)
    else let ret := f_mmc_get_hwpart_from_table s name in Some (s, if 0 <=? ret then ret else 0).

(** ** Lookup in the selected hardware partition *)

(** Also U-Boot's part_get_info_by_name(), which the metadata are found with. *)
Fixpoint info_loop (n : nat) (mmc_dev i : Z) s (name : bytes) : option (Z * disk_partition_t) :=
  match n with
  | O => None
  | S n =>
      inf ← get_info ops (dev s) mmc_dev i;
      if decide (pname inf = name) then Some (i, inf) else info_loop n mmc_dev (i + 1) s name
  end.

Definition f_part_get_info_by_name s (mmc_dev : Z) (name : bytes) : option (Z * disk_partition_t) :=
  if recognised ops (dev s) mmc_dev then info_loop (Z.to_nat (max_entries ops - 1)) mmc_dev 1 s name else None.

Definition f_part_get_info_by_name_or_alias s (mmc_dev : Z) (name : bytes) : option (Z * disk_partition_t) :=
  match f_part_get_info_by_name s mmc_dev name with
  | Some r => Some r
  | None => aliased ← env_get (str_alias ++ take 32 name); f_part_get_info_by_name s mmc_dev aliased
  end.

(** The result is [None] for a negative return value. *)
Definition f_mmc_get_part_info s (mmc_dev : Z) (part_name : bytes) : option (mmc_state D * option (Z * disk_partition_t)) :=
  if negb (present ops (dev s) mmc_dev) then Some (s, None)
  else
    '(s, p) ← get_mmc_part_by_name s mmc_dev part_name;
    let '(s, _) := select_hwpart s mmc_dev p in
    if (p =? 1) || (p =? 2) then Some (s, Some (0, mk_disk_part 0 (dev_lba ops (dev s) mmc_dev) (dev_blksz ops) []))
    else Some (s, f_part_get_info_by_name_or_alias s mmc_dev part_name).

(** ** Reading *)

(** The bytes are stored at [off] of the caller's object [m]. *)
Definition read_raw_image_from_offset s (mmc_dev : Z) (inf : disk_partition_t) (m : bytes) (off : nat) (read_bytes offset : Z)
  : option (mmc_state D * bytes) :=
  let blkcnt := Z.land (u64 (read_bytes + (blksz inf - 1))) (u64 (Z.lnot (blksz inf - 1))) / blksz inf in
  if negb (offset mod blksz inf =? 0) then Some (s, m)
  else
    let st := u64 (start inf + offset / blksz inf) in
    if size inf <? blkcnt then Some (s, m)
    else let '(d, _, got) := dread ops (dev s) mmc_dev st blkcnt in
         m ← store_at m off got; Some (set_dev d s, m).

Definition fb_mmc_flash_read_from_offset s (cmd : bytes) (m : bytes) (off : nat) (read_bytes offset : Z) : option (mmc_state D * bytes) :=
  let mmc_dev := get_mmc_active_dev in
  if negb (present ops (dev s) mmc_dev) then Some (s, m)
  else
    '(s, r) ← f_mmc_get_part_info s mmc_dev cmd;
    match r with
    | None => Some (s, m)
    | Some (_, inf) => read_raw_image_from_offset s mmc_dev inf m off read_bytes offset
    end.

Definition fb_mmc_flash_read s (cmd : bytes) (m : bytes) (off : nat) (read_bytes : Z) : option (mmc_state D * bytes) :=
  fb_mmc_flash_read_from_offset s cmd m off read_bytes 0.

End Mmc.

(** ** What a working device promises

    Device [m] has the user area, hardware partition 0, and no general-purpose
    partitions; its partition table does not change; reads and writes of the
    selected hardware partition succeed. *)
Class ReliableBlk {D : Type} (ops : blk D) (m : Z) := {
  bcontents : D -> Z -> Z;
  btable : Z -> option disk_partition_t;
  in_user_area : D -> Prop;
  b_byte d x : is_u8 (bcontents d x);
  b_blksz : exists j, 5 <= j <= 12 /\ dev_blksz ops = 2 ^ j;
  b_present d : present ops d m = true;
  b_recognised d : recognised ops d m = true;
  b_info d i : in_user_area d -> get_info ops d m i = btable i;
  b_select d : exists d', dselect_hwpart ops d m 0 = (d', 0) /\ in_user_area d' /\ forall x, bcontents d' x = bcontents d x;
  b_no_gpp d : exists d' r, dselect_hwpart ops d m 4 = (d', r) /\ r <> 0 /\ forall x, bcontents d' x = bcontents d x;
  b_read d a n : in_user_area d -> 0 <= a -> 0 <= n -> exists d',
    dread ops d m a n = (d', n, rng (bcontents d) (a * dev_blksz ops) (Z.to_nat (n * dev_blksz ops))) /\
    in_user_area d' /\ forall x, bcontents d' x = bcontents d x;
  b_write d a n buf : in_user_area d -> 0 <= a -> 0 <= n -> Z.of_nat (length buf) = n * dev_blksz ops -> is_bytes buf -> exists d',
    dwrite ops d m a n buf = (d', n) /\ in_user_area d' /\ forall x, bcontents d' x = upd (bcontents d) (a * dev_blksz ops) buf x;
}.

(** ** A device in memory

    A user area of 512-byte blocks with its partition table, two boot partitions
    (hardware partitions 1 and 2) and no others. *)
Record ramblk := mk_ramblk { mem : Z -> Z; hw : Z }.

Definition ram_byte (d : ramblk) (x : Z) : Z := u8 (mem d x).

Definition ram_ops (tbl : Z -> option disk_partition_t) : blk ramblk :=
  mk_blk ramblk (fun _ m => m =? 0) (fun _ _ => 2 ^ 20) 512 (fun _ _ => true) 128 (fun d _ i => if hw d =? 0 then tbl i else None)
    (fun d _ h => if h <? 3 then (mk_ramblk (mem d) h, 0) else (d, -1))
    (fun d _ a n => (d, n, rng (ram_byte d) (a * 512) (Z.to_nat (n * 512))))
    (fun d _ a n buf => (mk_ramblk (upd (mem d) (a * 512) buf) (hw d), n)).

#[global] Instance ram_reliable tbl : ReliableBlk (ram_ops tbl) 0.
Proof.
  refine {| bcontents := ram_byte; btable := tbl; in_user_area := fun d => hw d = 0 |}; cbn.
  - intros d x. apply u8_range.
  - exists 9. split; [lia|done].
  - done.
  - done.
  - intros d i ->. done.
  - intros d. by eexists.
  - intros d. by exists d, (-1).
  - intros d a n Hd _ _. by exists d.
  - intros d a n buf Hd _ _ _ Hb. eexists. split; [done|]. split; [done|]. intros x. unfold ram_byte. cbn [mem]. now rewrite u8_upd.
Defined.

(** The first entry of a name. *)
Fixpoint find_in (tbl : Z -> option disk_partition_t) (n : nat) (i : Z) (name : bytes) : option (Z * disk_partition_t) :=
  match n with
  | O => None
  | S n => inf ← tbl i; if decide (pname inf = name) then Some (i, inf) else find_in tbl n (i + 1) name
  end.

(** The number of blocks of a read, rounded up. *)
Lemma round_up_blocks bs j n : bs = 2 ^ j -> 0 <= j <= 12 -> 0 <= n < 2 ^ 63 ->
  Z.land (u64 (n + (bs - 1))) (u64 (Z.lnot (bs - 1))) / bs = (n + (bs - 1)) / bs.
Proof.
  intros E Hj Hn. assert (Hb : 1 <= bs <= 4096) by (rewrite E; change 1 with (2 ^ 0); change 4096 with (2 ^ 12); split; apply Z.pow_le_mono_r; lia).
  rewrite u64_id by lia. set (x := n + (bs - 1)).
  assert (Hl : Z.land x (u64 (Z.lnot (bs - 1))) = Z.ldiff x (Z.ones j)).
  { rewrite E. replace (2 ^ j - 1) with (Z.ones j) by (rewrite Z.ones_equiv; lia).
    apply Z.bits_inj'. intros i Hi. rewrite Z.land_spec, Z.ldiff_spec. unfold u64.
    destruct (Z.lt_ge_cases i 64).
    - now rewrite Z.mod_pow2_bits_low, Z.lnot_spec by lia.
    - assert (Hx : Z.testbit x i = false); [|now rewrite Hx].
      rewrite <- (Z.mod_small x (2 ^ 64)) by (unfold x; lia). now rewrite Z.mod_pow2_bits_high by lia. }
  rewrite Hl, Z.ldiff_ones_r, E by lia. rewrite Z.shiftl_mul_pow2, Z.div_mul, Z.shiftr_div_pow2 by lia. done.
Qed.

Section Reliable.
Context {D : Type} {ops : blk D} {m : Z} `{!ReliableBlk ops m}.
Context (malloc_table : option (list emmc_part)).
Implicit Types (s : mmc_state D).

Lemma blksz_facts : 32 <= dev_blksz ops <= 4096 /\ (dev_blksz ops | 4096).
Proof.
  destruct b_blksz as (j & Hj & ->). change 4096 with (2 ^ 12). split; [|exists (2 ^ (12 - j)); rewrite <- Z.pow_add_r by lia; f_equal; lia].
  change 32 with (2 ^ 5). split; apply Z.pow_le_mono_r; lia.
Qed.

(** No table of general-purpose partitions has been made. *)
Definition plain s : Prop := emmc_partition_type s = -1 \/ emmc_partition_type s = DEFAULT_PARTITION.

(** Same contents, and still no such table. *)
Definition same s s' : Prop := plain s' /\ forall x, bcontents (dev s') x = bcontents (dev s) x.

Lemma same_trans s1 s2 s3 : same s1 s2 -> same s2 s3 -> same s1 s3.
Proof. intros [_ H1] [H2 H3]. split; [done|]. intros x. now rewrite H3. Qed.

Definition locate (name : bytes) : option (Z * disk_partition_t) := find_in btable (Z.to_nat (max_entries ops - 1)) 1 name.

Lemma info_loop_ok s name n : in_user_area (dev s) -> forall i, info_loop ops n m i s name = find_in btable n i name.
Proof.
  intros Hu. induction n as [|n IH]; intros i; [done|]. cbn [info_loop find_in]. rewrite b_info by done.
  destruct (btable i) as [inf|]; [|done]. cbn [mbind option_bind]. destruct (decide _); [done|apply IH].
Qed.

Lemma get_info_ok s name : in_user_area (dev s) -> f_part_get_info_by_name ops s m name = locate name.
Proof. intros Hu. unfold f_part_get_info_by_name. rewrite b_recognised. now apply info_loop_ok. Qed.

Lemma user_area_name s name : plain s ->
  name <> str_bootloader -> name <> str_bootloader ++ [49] -> name <> str_bootloader ++ [50] ->
  exists s', get_mmc_part_by_name ops malloc_table s m name = Some (s', 0) /\ same s s'.
Proof.
  intros Hp H0 H1 H2. unfold get_mmc_part_by_name. rewrite decide_False by tauto. rewrite decide_False by done.
  unfold get_mmc_partition_type. destruct (m =? DEV_EMMC); [|exists s; done].
  destruct Hp as [Ht|Ht]; rewrite Ht; cbn [Z.leb Z.compare DEFAULT_PARTITION].
  - rewrite b_present. unfold select_hwpart. destruct (b_no_gpp (dev s)) as (d' & r & -> & Hr & Hs).
    rewrite (proj2 (Z.eqb_neq _ _) Hr). cbn [mbind option_bind]. eexists. split; [reflexivity|]. split; [by right|exact Hs].
  - cbn [mbind option_bind]. exists s. split; [reflexivity|]. split; [by right|done].
Qed.

Lemma select_user_area s : plain s -> exists s', select_hwpart ops s m 0 = (s', 0) /\ same s s' /\ in_user_area (dev s').
Proof.
  intros Hp. unfold select_hwpart. destruct (b_select (dev s)) as (d' & -> & Hu & Hs). eexists. split; [reflexivity|].
  split; [|done]. by split.
Qed.

Lemma blkcnt_ok n : 0 <= n < 2 ^ 63 ->
  Z.land (u64 (n + (dev_blksz ops - 1))) (u64 (Z.lnot (dev_blksz ops - 1))) / dev_blksz ops = (n + (dev_blksz ops - 1)) / dev_blksz ops.
Proof. intros Hn. destruct b_blksz as (j & Hj & E). apply (round_up_blocks _ j); lia || done. Qed.

Definition blocks (n : Z) : Z := (n + (dev_blksz ops - 1)) / dev_blksz ops.

Lemma blocks_bound n : 0 <= n -> 0 <= blocks n /\ n <= blocks n * dev_blksz ops < n + dev_blksz ops.
Proof.
  intros Hn. pose proof blksz_facts as [Hb _]. unfold blocks. pose proof (Z.div_mod (n + (dev_blksz ops - 1)) (dev_blksz ops)).
  pose proof (Z.mod_pos_bound (n + (dev_blksz ops - 1)) (dev_blksz ops)). pose proof (Z.div_pos (n + (dev_blksz ops - 1)) (dev_blksz ops)). lia.
Qed.

(** A partition of the device, in its user area. *)
Record part_ok (inf : disk_partition_t) : Prop := mk_part_ok {
  po_blksz : blksz inf = dev_blksz ops; po_start : 0 <= start inf; po_end : start inf + size inf < 2 ^ 63;
}.

(** A read at a block boundary that the check accepts stores the bytes of the
    partition, up to the end of the last block. *)
Lemma read_raw_ok s inf mem off n offset : plain s -> in_user_area (dev s) -> part_ok inf -> 0 <= n < 2 ^ 32 -> 0 <= offset < 2 ^ 32 ->
  (dev_blksz ops | offset) -> blocks n <= size inf ->
  exists s', read_raw_image_from_offset ops s m inf mem off n offset =
      (mem ← store_at mem off (rng (bcontents (dev s)) (start inf * dev_blksz ops + offset) (Z.to_nat (blocks n * dev_blksz ops))); Some (s', mem)) /\ same s s'.
Proof.
  intros Hp Hu [Hbs Hst He] Hn Ho Hdiv Hsz. pose proof blksz_facts as [Hb _]. pose proof (blocks_bound n ltac:(lia)) as [H0 _].
  unfold read_raw_image_from_offset. rewrite Hbs, blkcnt_ok by lia. fold (blocks n).
  rewrite (proj2 (Z.mod_divide offset (dev_blksz ops) ltac:(lia)) Hdiv). cbn [Z.eqb negb]. rewrite (proj2 (Z.ltb_ge _ _)) by lia.
  assert (Hq : 0 <= offset / dev_blksz ops < 2 ^ 32) by (split; [apply Z.div_pos; lia|apply Z.div_lt_upper_bound; nia]).
  rewrite u64_id by lia. destruct (b_read (dev s) (start inf + offset / dev_blksz ops) (blocks n) Hu) as (d' & -> & _ & Hs); [lia..|].
  replace ((start inf + offset / dev_blksz ops) * dev_blksz ops) with (start inf * dev_blksz ops + offset).
  2: { destruct Hdiv as [q ->]. rewrite Z.div_mul by lia. lia. }
  exists (set_dev d' s). split; [reflexivity|]. by split.
Qed.

End Reliable.
