(* ===== verification/UbootSlots.v ===== *)
(** * The A/B slots of U-Boot (mach-synaptics/drivers/fastboot/fastboot_syna.c)

    U-Boot reads the slot metadata that the boot stage (BootMode.v) keeps in the
    misc partition, chooses the slot to boot, and counts down the tries of a slot
    whose image does not load.  The build is the one with CONFIG_MMC. *)

From S2P Require Import Prelude Disk FlashAdaptor LoadGpt UbootMmc BootMode BootPersist.

Definition str_misc : bytes := [109; 105; 115; 99].

Section Slots.
Context {D : Type} (ops : blk D).
Context (rom_spi_boot : bool) (malloc_table : option (list emmc_part)).
(** What lies after the struct on the stack, the block malloc() returns, and what
    get_boot_slot() gets from the earlier boot stage. *)
Context (stack heap : bytes) (get_boot_slot : Z).
Implicit Types (s : mmc_state D).

Definition is_valid_bootctrl (c : misc_boot_ctrl) : bool :=
  (magic c =? BOOTCTRL_MAGIC) && (version c =? MISC_BOOT_CONTROL_VERSION).

Definition slot_is_bootable (sl : misc_slot_metadata) : bool :=
  (0 <? priority sl) && (negb (successful_boot sl =? 0) || (0 <? tries_remaining sl)).

(** The misc partition, in its hardware partition. *)
Definition find_misc s : option (mmc_state D * option disk_partition_t) :=
  let mmc_dev := get_mmc_boot_dev rom_spi_boot in
  if negb (present ops (dev s) mmc_dev) then Some (s, None)
  else
    '(s, p) ← get_mmc_part_by_name ops malloc_table s mmc_dev str_misc;
    let '(s, _) := select_hwpart ops s mmc_dev p in
    Some (s, snd <$> f_part_get_info_by_name ops s mmc_dev str_misc).

(** Whole blocks are written from the address of the 32-byte struct; the result
    of the write is ignored. *)
Definition write_bootctrl_metadata s (c : misc_boot_ctrl) : option (mmc_state D * Z) :=
  '(s, r) ← find_misc s;
  match r with
  | None => Some (s, -1)
  | Some inf =>
      let bs := dev_blksz ops in
      let strat_blk := u64 (start inf + 4096 / bs) in
      let size_blk := (Z.of_nat sizeof_ctrl + bs) / bs in
      let src := ctrl_bytes c ++ stack in
      if decide (Z.of_nat (length src) < size_blk * bs) then None
      else let '(d, _) := dwrite ops (dev s) (get_mmc_boot_dev rom_spi_boot) strat_blk size_blk (take (Z.to_nat (size_blk * bs)) src) in
           Some (set_dev d s, 0)
  end.

(** The result of the read is ignored too. *)
Definition get_bootctrl_metadata s : option (mmc_state D * option misc_boot_ctrl) :=
  '(s, r) ← find_misc s;
  match r with
  | None => Some (s, None)
  | Some inf =>
      let strat_blk := u64 (start inf + 4096 / dev_blksz ops) in
      let '(d, _, got) := dread ops (dev s) (get_mmc_boot_dev rom_spi_boot) strat_blk 1 in
      misc_bootctrl ← store_at heap 0 got;
      if decide (length misc_bootctrl < sizeof_ctrl)%nat then None
      else Some (set_dev d s, Some (ctrl_of_bytes (take sizeof_ctrl misc_bootctrl)))
  end.

Definition init_bootctrl s (default_slot : Z) : option (mmc_state D * Z) :=
  if 1 <? default_slot then Some (s, -1)
  else
    let zero := mk_slot 0 0 0 0 0 in
    let c := mk_ctrl BOOTCTRL_MAGIC MISC_BOOT_CONTROL_VERSION 0 zero zero (replicate 16 0) in
    c ← set_slot c default_slot (fresh_slot 8);
    c ← set_slot c (1 - default_slot) (fresh_slot 3);
    '(s, r) ← write_bootctrl_metadata s c;
    Some (s, if negb (r =? 0) then -1 else 0).

(** The choice between two bootable slots. *)
Definition select_slot (a b : misc_slot_metadata) : Z :=
  if negb (priority a =? priority b) then if 0 <? priority a - priority b then BOOTSEL_A else BOOTSEL_B
  else if negb (successful_boot a =? successful_boot b) then
    if 0 <? successful_boot a - successful_boot b then BOOTSEL_A else BOOTSEL_B
  else if negb (tries_remaining a =? tries_remaining b) then
    if 0 <? tries_remaining a - tries_remaining b then BOOTSEL_A else BOOTSEL_B
  else BOOTSEL_DEFAULT.

Definition choose (c : misc_boot_ctrl) : Z :=
  if slot_is_bootable (slot_a c) && slot_is_bootable (slot_b c) then select_slot (slot_a c) (slot_b c)
  else if slot_is_bootable (slot_a c) then BOOTSEL_A
  else if slot_is_bootable (slot_b c) then BOOTSEL_B
  else BOOTSEL_INVALID.

Definition get_current_slot s : option (mmc_state D * Z) :=
  '(s, r) ← get_bootctrl_metadata s;
  match r with
  | None => Some (s, get_boot_slot)
  | Some c =>
      if is_valid_bootctrl c then Some (s, choose c)
      else '(s, r) ← init_bootctrl s BOOTSEL_DEFAULT;
           Some (s, if r =? 0 then BOOTSEL_DEFAULT else BOOTSEL_INVALID)
  end.

Definition set_active_slot s (slot_index : Z) : option (mmc_state D * bool) :=
  if 1 <? u32 slot_index then Some (s, false)
  else
    '(s, r) ← get_bootctrl_metadata s;
    match r with
    | None => Some (s, false)
    | Some c =>
        if is_valid_bootctrl c then
          sl ← slot_info c slot_index;
          c ← set_slot c slot_index (mk_slot 15 2 0 (verity_corrupted sl) (slot_reserved sl));
          other ← slot_info c (1 - slot_index);
          c ← set_slot c (1 - slot_index)
                (if 15 <=? priority other
                 then mk_slot 14 (tries_remaining other) (successful_boot other) (verity_corrupted other) (slot_reserved other)
                 else other);
          '(s, r) ← write_bootctrl_metadata s c;
          Some (s, r =? 0)
        else '(s, r) ← init_bootctrl s slot_index; Some (s, r =? 0)
    end.

(** What a failed attempt does to the slot: a try less, or two points of priority
    when no try is left, in eight bits. *)
Definition charge (sl : misc_slot_metadata) : misc_slot_metadata :=
  if 0 <? tries_remaining sl
  then mk_slot (priority sl) (tries_remaining sl - 1) (successful_boot sl) (verity_corrupted sl) (slot_reserved sl)
  else mk_slot (u8 (priority sl - 2)) (tries_remaining sl) (successful_boot sl) (verity_corrupted sl) (slot_reserved sl).

Definition try_abmode s (abmode_sel : Z) : option (mmc_state D * Z) :=
  '(s, r) ← get_bootctrl_metadata s;
  match r with
  | None => Some (s, 1)
  | Some c =>
      if is_valid_bootctrl c then
        sl ← slot_info c abmode_sel;
        c ← set_slot c abmode_sel (charge sl);
        '(s, _) ← write_bootctrl_metadata s c;
        Some (s, if 0 <? tries_remaining sl then 0 else -1)
      else Some (s, 1)
  end.

End Slots.

(** A bootable slot is chosen when it is better than the other, or that one is not
    bootable. *)
Lemma choose_better ct x y sx sl : (x = 0 /\ y = 1) \/ (x = 1 /\ y = 0) -> slot_info ct x = Some sx -> slot_info ct y = Some sl ->
  slot_is_bootable sx = true -> (slot_is_bootable sl = true -> better sx sl) -> choose ct = x.
Proof.
  intros Hxy Hx Hy Bx Hbt. unfold choose, select_slot. unfold better in Hbt.
  destruct Hxy as [[-> ->]|[-> ->]]; injection Hx as ->; injection Hy as ->; rewrite Bx; destruct (slot_is_bootable sl); try done;
  specialize (Hbt eq_refl); cbn [andb];
  (destruct (Z.eqb_spec (priority sx) (priority sl)), (Z.eqb_spec (priority sl) (priority sx)); try lia; cbn [negb];
   [destruct (Z.eqb_spec (successful_boot sx) (successful_boot sl)), (Z.eqb_spec (successful_boot sl) (successful_boot sx)); try lia; cbn [negb];
    [destruct (Z.eqb_spec (tries_remaining sx) (tries_remaining sl)), (Z.eqb_spec (tries_remaining sl) (tries_remaining sx)); try lia; cbn [negb]|]|]);
  match goal with |- context [0 <? ?z] => destruct (Z.ltb_spec 0 z) end; lia || done.
Qed.

(** ** The metadata on a working device *)

Section Metadata.
Context {D : Type} {ops : blk D} (rom_spi_boot : bool) (malloc_table : option (list emmc_part)).
Let m := get_mmc_boot_dev rom_spi_boot.
Context `{!ReliableBlk ops m}.
Variables (stack heap : bytes) (inf : disk_partition_t) (k : Z).

(** There is a misc partition; a block of memory is as large as a block of the
    device, and as much follows the struct on the stack. *)
Record misc_ok : Prop := mk_misc_ok {
  mo_heap : Z.of_nat (length heap) = dev_blksz ops;
  mo_stack : dev_blksz ops <= Z.of_nat (length stack) /\ is_bytes stack;
  mo_misc : locate (ops := ops) (m := m) str_misc = Some (k, inf);
  mo_start : 0 <= start inf /\ start inf + 4096 < 2 ^ 64;
}.
Hypothesis Hok : misc_ok.
Implicit Types (s : mmc_state D).

Definition misc_addr : Z := (start inf + 4096 / dev_blksz ops) * dev_blksz ops.
Definition misc_len : Z := (Z.of_nat sizeof_ctrl + dev_blksz ops) / dev_blksz ops * dev_blksz ops.
Definition meta (s : mmc_state D) : misc_boot_ctrl := ctrl_of_bytes (rng (bcontents (dev s)) misc_addr sizeof_ctrl).

Lemma misc_blk : 0 <= start inf + 4096 / dev_blksz ops < 2 ^ 64.
Proof.
  pose proof blksz_facts as [Hb _]. destruct Hok as [_ _ _ [H0 H1]]. pose proof (Z.div_pos 4096 (dev_blksz ops)).
  pose proof (Z.div_le_upper_bound 4096 (dev_blksz ops) 4096). lia.
Qed.

Lemma find_misc_ok s : plain s -> exists s', find_misc ops rom_spi_boot malloc_table s = Some (s', Some inf) /\ same s s' /\ in_user_area (dev s').
Proof.
  intros Hp. unfold find_misc. fold m. rewrite b_present. cbn [negb].
  destruct (user_area_name malloc_table s str_misc Hp) as (s1 & -> & Hs1); [done..|]. cbn [mbind option_bind].
  destruct (select_user_area s1 (proj1 Hs1)) as (s2 & -> & Hs2 & Hu). rewrite get_info_ok by done.
  rewrite (mo_misc Hok). exists s2. split; [reflexivity|]. split; [by eapply same_trans|done].
Qed.

Lemma get_metadata_ok s : plain s ->
  exists s', get_bootctrl_metadata ops rom_spi_boot malloc_table heap s = Some (s', Some (meta s)) /\ same s s'.
Proof.
  intros Hp. unfold get_bootctrl_metadata. destruct (find_misc_ok s Hp) as (s1 & -> & Hs1 & Hu). cbn [mbind option_bind]. fold m.
  pose proof misc_blk as Hblk. rewrite u64_id by done. pose proof blksz_facts as [Hb _].
  destruct (b_read (dev s1) (start inf + 4096 / dev_blksz ops) 1 Hu) as (d' & -> & Hu' & Hs'); [lia..|].
  rewrite Z.mul_1_l. set (got := rng _ _ _). assert (Hg : length got = length heap) by (unfold got; rewrite length_rng; pose proof (mo_heap Hok); lia).
  unfold store_at. rewrite decide_True by lia. cbn [mbind option_bind]. unfold splice. rewrite take_0, app_nil_l, drop_ge, app_nil_r by lia.
  unfold sizeof_ctrl. rewrite decide_False by (rewrite Hg; pose proof (mo_heap Hok); lia).
  assert (Et : take 32 got = rng (bcontents (dev s)) misc_addr 32).
  { unfold got. rewrite <- (drop_0 (rng _ _ _)), rng_sub by lia. rewrite Z.add_0_r. apply rng_ext. intros x _. apply Hs1. }
  rewrite Et. exists (set_dev d' s1). split; [done|]. split; [apply Hs1|]. intros x. cbn [dev set_dev]. rewrite Hs'. apply Hs1.
Qed.

Lemma ctrl_bytes_length c : ctrl_u8 c -> length (ctrl_bytes c) = sizeof_ctrl.
Proof. intros [_ _ Hr]. unfold ctrl_bytes, slot_bytes. rewrite !length_app, Hr. reflexivity. Qed.

Lemma write_metadata_ok s c : plain s -> ctrl_u8 c ->
  exists s', write_bootctrl_metadata ops rom_spi_boot malloc_table stack s c = Some (s', 0) /\ plain s' /\ meta s' = c /\
    forall x, x < misc_addr \/ misc_addr + misc_len <= x -> bcontents (dev s') x = bcontents (dev s) x.
Proof.
  intros Hp Hc. unfold write_bootctrl_metadata. destruct (find_misc_ok s Hp) as (s1 & -> & Hs1 & Hu). cbn [mbind option_bind]. fold m.
  pose proof misc_blk as Hblk. rewrite u64_id by done. pose proof blksz_facts as [Hb _]. destruct (mo_stack Hok) as [Hst Hsb].
  pose proof (ctrl_bytes_length c Hc) as Hcl. fold misc_len. set (n := (Z.of_nat sizeof_ctrl + dev_blksz ops) / dev_blksz ops) in *.
  assert (Hn : 32 < misc_len <= 32 + dev_blksz ops /\ 0 <= n).
  { unfold misc_len. fold n. unfold n, sizeof_ctrl. pose proof (Z.div_mod (Z.of_nat 32 + dev_blksz ops) (dev_blksz ops)).
    pose proof (Z.mod_pos_bound (Z.of_nat 32 + dev_blksz ops) (dev_blksz ops)). pose proof (Z.div_pos (Z.of_nat 32 + dev_blksz ops) (dev_blksz ops)). lia. }
  unfold sizeof_ctrl in Hcl. rewrite decide_False by (rewrite length_app; lia).
  set (buf := take (Z.to_nat misc_len) (ctrl_bytes c ++ stack)).
  assert (Hbl : Z.of_nat (length buf) = misc_len) by (unfold buf; rewrite length_take, length_app; lia).
  destruct (b_write (dev s1) (start inf + 4096 / dev_blksz ops) n buf Hu) as (d' & -> & Hu' & Hs'); [lia|lia|exact Hbl| |].
  { apply Forall_take, is_bytes_app. split; [apply cu_bytes, Hc|done]. }
  exists (set_dev d' s1). split_and!; [done|apply Hs1| |].
  - unfold meta. cbn [dev set_dev]. rewrite (rng_ext _ (upd (bcontents (dev s1)) misc_addr buf)) by (intros x _; apply Hs').
    assert (Et : rng (upd (bcontents (dev s1)) misc_addr buf) misc_addr sizeof_ctrl = ctrl_bytes c).
    { rewrite <- (Z.add_0_r misc_addr) at 2. change 0 with (Z.of_nat 0). rewrite <- (rng_sub _ _ (length buf)) by (unfold sizeof_ctrl; lia).
      rewrite upd_same, drop_0. unfold buf. rewrite take_take, take_app_le, take_ge by (unfold sizeof_ctrl; lia). done. }
    rewrite Et, <- (app_nil_r (ctrl_bytes c)). now apply ctrl_roundtrip.
  - intros x Hx. cbn [dev set_dev]. rewrite Hs'. fold misc_addr. rewrite upd_out by lia. apply Hs1.
Qed.

Lemma nth_byte (l : bytes) i : is_bytes l -> is_u8 (nth i l 0).
Proof.
  intros Hl. destruct (decide (i < length l)%nat) as [Hi|Hi].
  - apply (list.Forall_forall is_u8 l); [exact Hl|]. apply list_elem_of_In, nth_In. exact Hi.
  - rewrite nth_overflow by lia. apply is_u8_0.
Qed.

Lemma ctrl_of_bytes_u8 b : is_bytes b -> (32 <= length b)%nat -> ctrl_u8 (ctrl_of_bytes b).
Proof.
  intros Hb Hl. split; cbn [ctrl_of_bytes magic ctrl_reserved].
  - pose proof (le_val_bound (take 4 b)) as H. rewrite length_take, Nat.min_l in H by lia. apply H. now apply Forall_take.
  - unfold ctrl_bytes, slot_bytes, ctrl_of_bytes. cbn [app magic version recovery_tries_remaining slot_a slot_b ctrl_reserved slot_of_bytes
      priority tries_remaining successful_boot verity_corrupted slot_reserved]. apply is_bytes_app. split; [apply le32_bytes|].
    repeat (apply is_bytes_cons; split; [apply nth_byte; try apply Forall_drop; exact Hb|]).
    now apply Forall_take, Forall_drop.
  - rewrite length_take, length_drop. lia.
Qed.

Lemma meta_u8 s : ctrl_u8 (meta s).
Proof.
  apply ctrl_of_bytes_u8; [|rewrite length_rng; unfold sizeof_ctrl; lia]. apply rng_bytes. intros x. apply b_byte.
Qed.

(** What the code sees of a slot. *)
Record slot_u8 (sl : misc_slot_metadata) : Prop := mk_slot_u8 {
  su_priority : is_u8 (priority sl); su_tries : is_u8 (tries_remaining sl); su_success : is_u8 (successful_boot sl);
  su_rest : is_u8 (verity_corrupted sl) /\ is_u8 (slot_reserved sl);
}.

Lemma ctrl_slots c : ctrl_u8 c -> slot_u8 (slot_a c) /\ slot_u8 (slot_b c).
Proof.
  intros [_ Hb _]. unfold ctrl_bytes, slot_bytes in Hb. cbn [app] in Hb. inv_bytes. split; (split; [done..|]); (split; done).
Qed.

Lemma set_slot_u8 c n sl c' : ctrl_u8 c -> slot_u8 sl -> set_slot c n sl = Some c' -> ctrl_u8 c'.
Proof.
  intros [Hm Hb Hr] [Hp Ht Hs [Hv Hx]] E. unfold ctrl_bytes, slot_bytes in Hb. cbn [app] in Hb. inv_bytes.
  unfold set_slot in E. destruct (n =? 0); [|destruct (n =? 1); [|done]]; injection E as <-; (split; [exact Hm| |exact Hr]);
    unfold ctrl_bytes, slot_bytes; cbn [app magic version recovery_tries_remaining slot_a slot_b ctrl_reserved];
    apply is_bytes_app; (split; [apply le32_bytes|]);
    repeat (apply is_bytes_cons; split; [assumption|]); assumption.
Qed.

Lemma charge_u8 sl : slot_u8 sl -> slot_u8 (charge sl).
Proof.
  intros [Hp Ht Hs [Hv Hx]]. unfold charge. destruct (Z.ltb_spec 0 (tries_remaining sl)); split; cbn; try done; try apply u8_range.
  unfold is_u8 in *. lia.
Qed.

Lemma slot_info_u8 c n sl : ctrl_u8 c -> slot_info c n = Some sl -> slot_u8 sl.
Proof.
  intros Hc E. destruct (ctrl_slots c Hc). unfold slot_info in E. destruct (n =? 0); [|destruct (n =? 1); [|done]]; congruence.
Qed.

Lemma current_slot_ok s get_boot_slot : plain s -> is_valid_bootctrl (meta s) = true ->
  exists s', get_current_slot ops rom_spi_boot malloc_table stack heap get_boot_slot s = Some (s', choose (meta s)) /\ same s s'.
Proof.
  intros Hp Hv. unfold get_current_slot. destruct (get_metadata_ok s Hp) as (s' & -> & Hs). cbn [mbind option_bind]. rewrite Hv. eauto.
Qed.

Lemma same_meta s s' : same s s' -> meta s' = meta s.
Proof. intros [_ H]. unfold meta. f_equal. apply rng_ext. auto. Qed.

(** A failed attempt is charged to the slot. *)
Lemma try_abmode_ok s sel sl c' : plain s -> is_valid_bootctrl (meta s) = true ->
  slot_info (meta s) sel = Some sl -> set_slot (meta s) sel (charge sl) = Some c' ->
  exists s', try_abmode ops rom_spi_boot malloc_table stack heap s sel = Some (s', if 0 <? tries_remaining sl then 0 else -1) /\
    plain s' /\ meta s' = c' /\ forall x, x < misc_addr \/ misc_addr + misc_len <= x -> bcontents (dev s') x = bcontents (dev s) x.
Proof.
  intros Hp Hv Hsl Hc. unfold try_abmode. destruct (get_metadata_ok s Hp) as (s1 & -> & Hs1). cbn [mbind option_bind].
  rewrite Hv, Hsl. cbn [mbind option_bind]. rewrite Hc. cbn [mbind option_bind].
  destruct (write_metadata_ok s1 c' (proj1 Hs1)) as (s2 & -> & Hp2 & Hm2 & Hf2).
  { eapply set_slot_u8; [apply meta_u8|apply charge_u8; eapply slot_info_u8; [apply meta_u8|exact Hsl]|exact Hc]. }
  cbn [mbind option_bind]. exists s2. split_and!; [done..|]. intros x Hx. rewrite Hf2 by done. apply Hs1.
Qed.

(** After an activation the slot is the one to boot, in whichever state the
    metadata were. *)
Lemma activated_choice c x c1 c2 sl other : ctrl_u8 c -> x = 0 \/ x = 1 -> slot_info c x = Some sl ->
  set_slot c x (mk_slot 15 2 0 (verity_corrupted sl) (slot_reserved sl)) = Some c1 -> slot_info c1 (1 - x) = Some other ->
  set_slot c1 (1 - x) (if 15 <=? priority other
    then mk_slot 14 (tries_remaining other) (successful_boot other) (verity_corrupted other) (slot_reserved other) else other) = Some c2 ->
  choose c2 = x /\ ctrl_u8 c2 /\ is_valid_bootctrl c2 = is_valid_bootctrl c.
Proof.
  intros Hu Hx Hsl E1 Ho E2. pose proof (slot_info_u8 _ _ _ Hu Hsl) as [_ _ _ [Hv Hr]].
  assert (Hu1 : ctrl_u8 c1) by (eapply set_slot_u8; [exact Hu| |exact E1]; split; cbn; unfold is_u8; try lia; by split).
  pose proof (slot_info_u8 _ _ _ Hu1 Ho) as Hso. set (o2 := if 15 <=? _ then _ else _) in E2.
  assert (Ho2 : slot_u8 o2 /\ priority o2 < 15).
  { unfold o2. destruct (Z.leb_spec 15 (priority other)); [|by split]. destruct Hso as [H1 H2 H3 H4]. split; [split; cbn; unfold is_u8; try lia; done|done]. }
  assert (Hu2 : ctrl_u8 c2) by (eapply set_slot_u8; [exact Hu1|apply Ho2|exact E2]). clearbody o2. destruct Ho2 as [_ Hlt].
  destruct Hx as [-> | ->]; injection E1 as <-; injection E2 as <-; (split; [|split; [exact Hu2|reflexivity]]);
    [eapply (choose_better _ 0 1); [by left|reflexivity..|]|eapply (choose_better _ 1 0); [by right|reflexivity..|]];
    intros _; unfold better; cbn [priority slot_a slot_b]; lia.
Qed.

Lemma set_active_ok s x : plain s -> x = 0 \/ x = 1 ->
  exists s', set_active_slot ops rom_spi_boot malloc_table stack heap s x = Some (s', true) /\ plain s' /\
    is_valid_bootctrl (meta s') = true /\ choose (meta s') = x /\
    forall a, a < misc_addr \/ misc_addr + misc_len <= a -> bcontents (dev s') a = bcontents (dev s) a.
Proof.
  intros Hp Hx. unfold set_active_slot. replace (1 <? u32 x) with false by (destruct Hx as [-> | ->]; reflexivity).
  destruct (get_metadata_ok s Hp) as (s1 & -> & Hs1). cbn [mbind option_bind].
  destruct (is_valid_bootctrl (meta s)) eqn:Ev.
  - assert (Hsl : exists sl, slot_info (meta s) x = Some sl) by (destruct Hx as [-> | ->]; by eexists). destruct Hsl as [sl Hsl]. rewrite Hsl. cbn [mbind option_bind].
    destruct (set_slot (meta s) x _) as [c1|] eqn:E1; [|destruct Hx as [-> | ->]; done]. cbn [mbind option_bind].
    destruct (slot_info c1 (1 - x)) as [other|] eqn:Eo; [|destruct Hx as [-> | ->]; done]. cbn [mbind option_bind].
    destruct (set_slot c1 (1 - x) _) as [c2|] eqn:E2; [|destruct Hx as [-> | ->]; done]. cbn [mbind option_bind].
    destruct (activated_choice _ _ _ _ _ _ (meta_u8 s) Hx Hsl E1 Eo E2) as (Hc & Hu & Hv).
    destruct (write_metadata_ok s1 c2 (proj1 Hs1) Hu) as (s2 & -> & Hp2 & Hm & Hk). cbn [mbind option_bind]. exists s2. rewrite Hm.
    split_and!; [done|done|congruence|done|]. intros a Ha. rewrite Hk by done. apply Hs1.
  - unfold init_bootctrl. replace (1 <? x) with false by (destruct Hx as [-> | ->]; reflexivity).
    set (z := mk_slot 0 0 0 0 0). set (c := mk_ctrl _ _ _ z z _).
    assert (Hi : exists c2, (c ← set_slot c x (fresh_slot 8); set_slot c (1 - x) (fresh_slot 3)) = Some c2 /\ ctrl_u8 c2 /\ is_valid_bootctrl c2 = true /\ choose c2 = x).
    { destruct Hx as [-> | ->]; (eexists; split; [reflexivity|]); (split; [split; [done|by repeat constructor|done]|]); by split. }
    destruct Hi as (c2 & E & Hu & Hv & Hc). apply bind_Some in E as (c1 & -> & E). cbn [mbind option_bind]. rewrite E. cbn [mbind option_bind].
    destruct (write_metadata_ok s1 c2 (proj1 Hs1) Hu) as (s2 & -> & Hp2 & Hm & Hk). cbn [mbind option_bind]. exists s2. rewrite Hm.
    split_and!; [done|done|done|done|]. intros a Ha. rewrite Hk by done. apply Hs1.
Qed.

End Metadata.

(** ** Agreement with the boot stage

    boot_mode.c (BootMode.v) has chosen the slot whose boot loader runs, from the
    same metadata, by rules of its own. *)

(** The slots the two files judge alike. *)
Definition plain_slot (sl : misc_slot_metadata) : Prop := priority sl <> 1 /\ verity_corrupted sl = 0.

Lemma bootable_agrees sl : plain_slot sl -> slot_is_bootable sl = bootable sl.
Proof.
  intros [Hp Hv]. unfold slot_is_bootable, bootable. rewrite Hv. cbn [Z.eqb andb]. rewrite andb_true_r. f_equal.
  destruct (Z.ltb_spec 0 (priority sl)), (Z.ltb_spec 1 (priority sl)); lia || done.
Qed.

Lemma check_choose {E : Type} (g : flash_adaptor E) (sm : bool) (rom : Z) (junk : gpt_ent) (t : state E) :
  bootctrl_is_valid t = true -> sm && (reboot_reg t =? REBOOT_MODE_DEVICE_CORRUPTED) = false ->
  check_abmode g sm rom junk t =
    let c := misc_bctrl t in
    let sel := if bootable (slot_a c) && bootable (slot_b c) then select_slot (slot_a c) (slot_b c)
               else if bootable (slot_a c) then BOOTSEL_A else if bootable (slot_b c) then BOOTSEL_B else BOOTSEL_INVALID in
    Some (set_sel sel t, sel).
Proof.
  intros Hv Hr. pose proof (valid_exist t Hv) as He. unfold check_abmode, check_android_abcommand, BootMode.slot_is_bootable. rewrite Hv, He.
  change (slot_info (misc_bctrl t) 0) with (Some (slot_a (misc_bctrl t))).
  change (slot_info (misc_bctrl t) 1) with (Some (slot_b (misc_bctrl t))). cbn [mbind option_bind]. cbv zeta.
  unfold bootab_slot_select. rewrite He. fold (select_slot (slot_a (misc_bctrl t)) (slot_b (misc_bctrl t))).
  destruct (bootable (slot_a (misc_bctrl t))), (bootable (slot_b (misc_bctrl t))); cbn [andb]; rewrite ?no_verity by done; done.
Qed.

Lemma valid_ctrl {E : Type} (t : state E) : bootctrl_is_valid t = true -> is_valid_bootctrl (misc_bctrl t) = true.
Proof. unfold bootctrl_is_valid. rewrite <- andb_assoc. intros H. now apply andb_true_iff in H. Qed.

(** ** Properties *)

(** C13: The boot stage and U-Boot boot the same slot.  Whenever both read the same
    valid metadata, no slot has priority 1 or is marked as corrupted, and no
    dm-verity report is pending, check_abmode of boot_mode.c and
    get_current_slot of fastboot_syna.c return the same slot, and U-Boot's
    device keeps its contents. *)
Theorem slot_choice_agrees {D : Type} (ops : blk D) (spi : bool) `{!ReliableBlk ops (get_mmc_boot_dev spi)}
    (tbl : option (list emmc_part)) (stack heap : bytes) (inf : disk_partition_t) (k boot_slot : Z) (s : mmc_state D)
    {E : Type} (g : flash_adaptor E) (sm : bool) (rom : Z) (junk : gpt_ent) (t : state E) :
  misc_ok spi stack heap inf k -> plain s -> meta spi inf s = misc_bctrl t -> bootctrl_is_valid t = true ->
  sm && (reboot_reg t =? REBOOT_MODE_DEVICE_CORRUPTED) = false ->
  plain_slot (slot_a (misc_bctrl t)) -> plain_slot (slot_b (misc_bctrl t)) ->
  exists sel s', check_abmode g sm rom junk t = Some (set_sel sel t, sel) /\
    get_current_slot ops spi tbl stack heap boot_slot s = Some (s', sel) /\ same (ops := ops) (m := get_mmc_boot_dev spi) s s'.
Proof.
  intros Hok Hp Hm Hv Hr Ha Hb. assert (Hc : is_valid_bootctrl (meta spi inf s) = true) by (rewrite Hm; now apply valid_ctrl).
  destruct (current_slot_ok spi tbl stack heap inf k Hok s boot_slot Hp Hc) as (s' & E' & Hs).
  exists (choose (misc_bctrl t)), s'. rewrite Hm in E'. split; [|done]. rewrite check_choose by done.
  unfold choose. now rewrite !bootable_agrees.
Qed.

(** C37: A slot that fastboot makes active is the one that boots: on a working device
    with any metadata, valid or not, set_active_slot succeeds, get_current_slot
    returns that slot afterwards, and nothing outside the block that the metadata
    begin has changed; the rest of that block is what was on the stack. *)
Theorem set_active_slot_takes_effect {D : Type} (ops : blk D) (spi : bool) `{!ReliableBlk ops (get_mmc_boot_dev spi)}
    (tbl : option (list emmc_part)) (stack heap : bytes) (inf : disk_partition_t) (k boot_slot : Z) (s : mmc_state D) (x : Z) :
  misc_ok spi stack heap inf k -> plain s -> x = 0 \/ x = 1 ->
  exists s' s'', set_active_slot ops spi tbl stack heap s x = Some (s', true) /\
    get_current_slot ops spi tbl stack heap boot_slot s' = Some (s'', x) /\
    forall a, a < misc_addr (ops := ops) inf \/ misc_addr (ops := ops) inf + misc_len (ops := ops) <= a -> bcontents (dev s'') a = bcontents (dev s) a.
Proof.
  intros Hok Hp Hx. destruct (set_active_ok spi tbl stack heap inf k Hok s x Hp Hx) as (s1 & E1 & Hp1 & Hv & Hc & Hk).
  destruct (current_slot_ok spi tbl stack heap inf k Hok s1 boot_slot Hp1 Hv) as (s2 & E2 & Hs2). rewrite Hc in E2.
  exists s1, s2. split; [done|]. split; [done|]. intros a Ha. rewrite <- Hk by done. apply Hs2.
Qed.

(** The two choices differ on a slot marked as corrupted (BootMode's
    [check_abmode_verity] sets the mark).  With slot a marked, of the higher
    priority and otherwise bootable, and slot b bootable, the boot stage runs the
    boot loader of slot b, and U-Boot boots the kernel of slot a. *)
Theorem slot_choice_differs {D : Type} (ops : blk D) (spi : bool) `{!ReliableBlk ops (get_mmc_boot_dev spi)}
    (tbl : option (list emmc_part)) (stack heap : bytes) (inf : disk_partition_t) (k boot_slot : Z) (s : mmc_state D)
    {E : Type} (g : flash_adaptor E) (sm : bool) (rom : Z) (junk : gpt_ent) (t : state E) :
  misc_ok spi stack heap inf k -> plain s -> meta spi inf s = misc_bctrl t -> bootctrl_is_valid t = true ->
  sm && (reboot_reg t =? REBOOT_MODE_DEVICE_CORRUPTED) = false ->
  let a := slot_a (misc_bctrl t) in let b := slot_b (misc_bctrl t) in
  verity_corrupted a <> 0 -> slot_is_bootable a = true -> bootable b = true -> priority b < priority a ->
  exists s', check_abmode g sm rom junk t = Some (set_sel BOOTSEL_B t, BOOTSEL_B) /\
    get_current_slot ops spi tbl stack heap boot_slot s = Some (s', BOOTSEL_A).
Proof.
  intros Hok Hp Hm Hv Hr a b Hcor Ha Hb Hpr. assert (Hc : is_valid_bootctrl (meta spi inf s) = true) by (rewrite Hm; now apply valid_ctrl).
  destruct (current_slot_ok spi tbl stack heap inf k Hok s boot_slot Hp Hc) as (s' & E' & _).
  exists s'. split.
  - assert (Hna : bootable a = false) by (unfold bootable; now rewrite (proj2 (Z.eqb_neq _ _) Hcor), andb_false_r).
    rewrite check_choose by done. cbv zeta. fold a b. now rewrite Hna, Hb.
  - rewrite E', Hm. do 2 f_equal. unfold choose. fold a b. rewrite Ha. cbn [andb].
    destruct (slot_is_bootable b); [|done]. unfold select_slot. rewrite (proj2 (Z.eqb_neq _ _)) by lia. cbn [negb].
    now rewrite (proj2 (Z.ltb_lt _ _)) by lia.
Qed.

(** A device with the partitions misc, boot_a, boot_b and firmware_a, whose
    metadata are [c]; the rest of its bytes are those of [f]. *)
Definition sample_table (i : Z) : option disk_partition_t :=
  if i =? 1 then Some (mk_disk_part 64 2048 512 str_misc)
  else if i =? 2 then Some (mk_disk_part 4096 65536 512 [98; 111; 111; 116; 95; 97])
  else if i =? 3 then Some (mk_disk_part 81920 65536 512 [98; 111; 111; 116; 95; 98])
  else if i =? 4 then Some (mk_disk_part 163840 4096 512 [102; 105; 114; 109; 119; 97; 114; 101; 95; 97])
  else None.

Definition sample_misc : disk_partition_t := mk_disk_part 64 2048 512 str_misc.

Definition sample_mmc (f : Z -> Z) (c : misc_boot_ctrl) : mmc_state ramblk :=
  mk_mmc (mk_ramblk (upd f 36864 (ctrl_bytes c)) 0) (-1) None.

Definition corrupted_ctrl : misc_boot_ctrl :=
  mk_ctrl BOOTCTRL_MAGIC 2 0 (mk_slot 8 2 0 1 0) (mk_slot 3 0 1 0 0) (replicate 16 0).

Definition with_ctrl (c : misc_boot_ctrl) : state Z := set_ctrl c sample_state.

Lemma sample_misc_ok : misc_ok (ops := ram_ops sample_table) false (replicate (Z.to_nat 512) 0) (replicate (Z.to_nat 512) 0) sample_misc 1.
Proof. split; cbn; rewrite ?length_replicate; try lia; [|done]. split; [lia|apply zeros_bytes]. Qed.

Lemma slot_choice_agrees_witness : exists sel s',
  check_abmode blank_drv true 0 bl_a (with_ctrl sample_ctrl) = Some (set_sel sel (with_ctrl sample_ctrl), sel) /\
  get_current_slot (ram_ops sample_table) false None (replicate (Z.to_nat 512) 0) (replicate (Z.to_nat 512) 0) 0
    (sample_mmc (fun _ => 0) sample_ctrl) = Some (s', sel).
Proof.
  destruct (slot_choice_agrees (ram_ops sample_table) false None _ _ sample_misc 1 0 (sample_mmc (fun _ => 0) sample_ctrl)
    blank_drv true 0 bl_a (with_ctrl sample_ctrl) sample_misc_ok) as (sel & s' & H1 & H2 & _);
    [by left|vm_compute; reflexivity|reflexivity|reflexivity|done|done|].
  exists sel, s'. split; [exact H1|exact H2].
Defined.

Lemma slot_choice_differs_witness : exists s',
  check_abmode blank_drv true 0 bl_a (with_ctrl corrupted_ctrl) = Some (set_sel BOOTSEL_B (with_ctrl corrupted_ctrl), BOOTSEL_B) /\
  get_current_slot (ram_ops sample_table) false None (replicate (Z.to_nat 512) 0) (replicate (Z.to_nat 512) 0) 0
    (sample_mmc (fun _ => 0) corrupted_ctrl) = Some (s', BOOTSEL_A).
Proof.
  apply (slot_choice_differs (ram_ops sample_table) false None _ _ sample_misc 1 0 (sample_mmc (fun _ => 0) corrupted_ctrl)
    blank_drv true 0 bl_a (with_ctrl corrupted_ctrl) sample_misc_ok); try done. by left.
Defined.

Lemma set_active_slot_takes_effect_witness : exists s' s'',
  set_active_slot (ram_ops sample_table) false None (replicate (Z.to_nat 512) 0) (replicate (Z.to_nat 512) 0) (sample_mmc (fun _ => 0) sample_ctrl) 1 = Some (s', true) /\
  get_current_slot (ram_ops sample_table) false None (replicate (Z.to_nat 512) 0) (replicate (Z.to_nat 512) 0) 0 s' = Some (s'', 1).
Proof.
  destruct (set_active_slot_takes_effect (ram_ops sample_table) false None _ _ sample_misc 1 0 (sample_mmc (fun _ => 0) sample_ctrl) 1 sample_misc_ok)
    as (s' & s'' & H1 & H2 & _); [by left|by right|]. exists s', s''. split; [exact H1|exact H2].
Defined.
