(* ===== verification/SynaBoot.v ===== *)
(** * Booting Linux and loading the System Manager from U-Boot
    (mach-synaptics/cmd/syna_boot.c, drivers/plat/sm.c)

    [syna_boot] loads the boot image of the current slot, has the TEE verify it
    and hands it to bootm; a slot whose image does not load loses its tries and
    its priority until the other slot is chosen.  [syna_load_sm] loads the
    firmware of the System Manager out of the firmware image.  The build is the
    one with CONFIG_MMC and without CONFIG_SPI_FLASH_MTD. *)

From S2P Require Import Prelude Disk UbootMmc BootMode UbootSlots GenImage.

Definition GENX_IMAGE_HEADER_LINUX_SIZE : nat := 336.
Definition IMAGE_TYPE_LINUX_KERNEL : Z := 0x21.
Definition IMAGE_TYPE_SM : Z := 0x34.
Definition LINUX_KERNEL_ADDR : Z := 0x7c00000.
Definition MIN_ANDROID_IMG_SIZE : Z := 1 * 1024 * 1024.
Definition MAX_ANDROID_IMG_SIZE : Z := 30 * 1024 * 1024.
Definition MAX_PAGESIZE : Z := 8192.
Definition CUSTKEY_SIZE : Z := 5 * 1024.
Definition SYNA_SM_MAX_FW_SIZE : Z := 0x20000.
Definition SDIO_BLK_SIZE : Z := 512.
Definition IMG_INFO_MAGIC : Z := 0xE11D.
Definition PREPEND_IMAGE_INFO_SIZE : Z := 64.
Definition IMAGE_CHUNK_ID_LINUX_DTB : Z := 0x4254444c.
Definition IMAGE_CHUNK_ID_SM_FW : Z := 0x57464d53.

(** "boot_a", "boot_b", "firmware_a", "firmware_b", "ANDROID!" *)
Definition KERNEL_A_NAME : bytes := [98; 111; 111; 116; 95; 97].
Definition KERNEL_B_NAME : bytes := [98; 111; 111; 116; 95; 98].
Definition FIRMWARE_A_NAME : bytes := [102; 105; 114; 109; 119; 97; 114; 101; 95; 97].
Definition FIRMWARE_B_NAME : bytes := [102; 105; 114; 109; 119; 97; 114; 101; 95; 98].
Definition ANDR_BOOT_MAGIC : bytes := [65; 78; 68; 82; 79; 73; 68; 33].

Inductive boot_type_t := BOOT_TYPE_MMC | BOOT_TYPE_SPI | BOOT_TYPE_RAM.

(** How the command ends: with its usage (CMD_RET_USAGE), in a reset, or after
    boot_android_image(), with the memory bootm was given if it ran. *)
Inductive boot_result := BootUsage | BootReset | BootDone (bootm : option bytes).

(** [ALIGN(x, 16)] in 32 bits. *)
Definition ALIGN16 (x : Z) : Z := Z.land (u32 (x + 15)) (u32 (Z.lnot 15)).

Section Boot.
Context {D : Type} (ops : blk D).
Context (env_get : bytes -> option bytes) (simple_strtol : bytes -> Z) (rom_spi_boot : bool).
Context (malloc_table : option (list emmc_part)) (stack heap : bytes) (get_boot_slot : Z).
(** U-Boot's parser of hexadecimal numbers; the TEE: the result and what it stores
    in the output buffer; the memory outside the loader; the buffer
    malloc_ion_cacheable() gives and its address. *)
Context (simple_strtoul16 : bytes -> Z).
Context (tee_verify_image : Z -> bytes -> Z * bytes) (ram : Z -> Z) (malloc_ion : option bytes) (ion_addr : Z).
Implicit Types (s : mmc_state D).

(** ** Loading *)

(** [buff] is an object, [off] where the bytes go. *)
Definition read_image s (boot_type : boot_type_t) (pt_name : bytes) (offset : Z) (buff : bytes) (off : nat) (read_bytes : Z)
  : option (mmc_state D * bytes) :=
  match boot_type with
  | BOOT_TYPE_MMC => fb_mmc_flash_read ops env_get simple_strtol rom_spi_boot malloc_table s pt_name buff off read_bytes
  | BOOT_TYPE_SPI => Some (s, buff)
  | BOOT_TYPE_RAM => buff ← store_at buff off (rng ram offset (Z.to_nat read_bytes)); Some (s, buff)
  end.

(** The result is the offset of the boot image in the buffer, [None] for NULL. *)
Definition load_android_image s (boot_type : boot_type_t) (pt_name : bytes) (offset : Z) (buff : bytes)
  : option (mmc_state D * bytes * option nat) :=
  let img_buff := Z.to_nat CUSTKEY_SIZE in
  '(s, buff) ← read_image s boot_type pt_name offset buff img_buff MAX_PAGESIZE;
  if decide (length buff < img_buff + Z.to_nat PREPEND_IMAGE_INFO_SIZE)%nat then None
  else if negb (field buff (img_buff + 4) 2 =? IMG_INFO_MAGIC) then Some (s, buff, None)
  else
    let img_size := ALIGN16 (field buff (img_buff + 8) 4) in
    let read_size := u32 (img_size + PREPEND_IMAGE_INFO_SIZE) in
    if (MAX_ANDROID_IMG_SIZE <? read_size) || (read_size <? MIN_ANDROID_IMG_SIZE) then Some (s, buff, None)
    else
      '(s, buff) ← read_image s boot_type pt_name offset buff img_buff read_size;
      let img_hdr := (img_buff + Z.to_nat PREPEND_IMAGE_INFO_SIZE)%nat in
      if decide (length buff < img_hdr + Z.to_nat img_size)%nat then None
      else
        let '(ret, out) := tee_verify_image IMAGE_TYPE_LINUX_KERNEL (take (Z.to_nat img_size) (drop img_hdr buff)) in
        buff ← store_at buff img_hdr (take (Z.to_nat img_size) out);
        if ret <=? 0 then Some (s, buff, None)
        else Some (s, buff, Some (img_hdr + GENX_IMAGE_HEADER_LINUX_SIZE)%nat).

(** [None] is an access outside the buffer or through NULL; otherwise the memory
    that bootm gets, if it is run. *)
Definition boot_android_image (buff : bytes) (p : option nat) : option (option bytes) :=
  p ← p;
  if decide (length buff < p + 40)%nat then None
  else if decide (take 8 (drop p buff) <> ANDR_BOOT_MAGIC) then Some None
  else
    buff ← store_at buff (p + 12) (le32 LINUX_KERNEL_ADDR);
    let mkbootimg_page := field buff (p + 36) 4 in
    let gih := drop (p + Z.to_nat mkbootimg_page) buff in
    result ← find_chunk IMAGE_CHUNK_ID_LINUX_DTB gih;
    if result <? 0 then Some None
    else
      c ← chunk_at gih result;
      buff ← store_at buff (p + 28) (le32 (u32 (ion_addr + Z.of_nat p + mkbootimg_page + offset c)));
      buff ← store_at buff (p + 24) (le32 (GenImage.size c));
      Some (Some buff).

(** ** The command *)

Definition get_boot_type (name : bytes) : option boot_type_t :=
  if decide (name = [109; 109; 99]) then Some BOOT_TYPE_MMC
  else if decide (name = [115; 112; 105]) then Some BOOT_TYPE_SPI
  else if decide (name = [114; 97; 109]) then Some BOOT_TYPE_RAM
  else None.

(** The loop at [retry_image_load].  A try is used up per round, so that 256
    rounds are enough; without [try_ab] a failed load goes on to
    boot_android_image(NULL). *)
Fixpoint retry_image_load (fuel : nat) s (boot_type : boot_type_t) (pt_name : bytes) (off : Z) (buff : bytes) (try_ab : bool) (ab_mode : Z)
  : option (mmc_state D * boot_result) :=
  match fuel with
  | O => None
  | S fuel =>
      '(s, buff, p) ← load_android_image s boot_type pt_name off buff;
      match p with
      | None =>
          if try_ab then
            '(s, r) ← try_abmode ops rom_spi_boot malloc_table stack heap s ab_mode;
            if negb (r =? 0) then Some (s, BootReset) else retry_image_load fuel s boot_type pt_name off buff try_ab ab_mode
          else r ← boot_android_image buff None; Some (s, BootDone r)
      | Some _ => r ← boot_android_image buff p; Some (s, BootDone r)
      end
  end.

Definition retry_fuel : nat := Z.to_nat 256.

(** [argv] are the arguments after the name of the command; the number parser of
    U-Boot gives the offset. *)
Definition do_syna_boot s (argv : list bytes) : option (mmc_state D * boot_result) :=
  let load s bt nm off try_ab ab :=
    match malloc_ion with
    | None => Some (s, BootUsage)
    | Some buff => retry_image_load retry_fuel s bt nm off buff try_ab ab
    end in
  let by_slot s bt :=
    '(s, ab_mode) ← get_current_slot ops rom_spi_boot malloc_table stack heap get_boot_slot s;
    if negb (ab_mode =? BOOTSEL_A) && negb (ab_mode =? BOOTSEL_B) then Some (s, BootReset)
    else load s bt (if ab_mode =? BOOTSEL_A then KERNEL_A_NAME else KERNEL_B_NAME) 0 true ab_mode in
  match argv with
  | [] => Some (s, BootUsage)
  | a :: args =>
      match get_boot_type a, args with
      | None, _ => Some (s, BootUsage)
      | Some BOOT_TYPE_MMC, _ => by_slot s BOOT_TYPE_MMC
      | Some BOOT_TYPE_SPI, [] => by_slot s BOOT_TYPE_SPI
      | Some BOOT_TYPE_SPI, [o] => load s BOOT_TYPE_SPI [] (u32 (simple_strtoul16 o)) false BOOTSEL_INVALID
      | Some BOOT_TYPE_SPI, _ => Some (s, BootUsage)
      | Some BOOT_TYPE_RAM, [o] => load s BOOT_TYPE_RAM [] (u32 (simple_strtoul16 o)) false BOOTSEL_INVALID
      | Some BOOT_TYPE_RAM, _ => Some (s, BootUsage)
      end
  end.

(** ** The firmware of the System Manager *)

(** [header] and [payload] are the buffers malloc_ion_noncacheable() gives. *)
Definition syna_load_sm s (payload header : option bytes) : option (mmc_state D * Z) :=
  '(s, slot) ← get_current_slot ops rom_spi_boot malloc_table stack heap get_boot_slot s;
  let pt_name := if negb (slot =? 0) then FIRMWARE_B_NAME else FIRMWARE_A_NAME in
  match payload, header with
  | Some payload, Some header =>
      '(s, header) ← fb_mmc_flash_read ops env_get simple_strtol rom_spi_boot malloc_table s pt_name header 0 MAX_PAGESIZE;
      if decide (length header < Z.to_nat PREPEND_IMAGE_INFO_SIZE)%nat then None
      else if negb (field header 4 2 =? IMG_INFO_MAGIC) then Some (s, -1)
      else
        let img_hdr := drop (Z.to_nat PREPEND_IMAGE_INFO_SIZE) header in
        idx ← find_chunk IMAGE_CHUNK_ID_SM_FW img_hdr;
        if idx <? 0 then Some (s, -1)
        else
          c ← chunk_at img_hdr idx;
          let img_size := GenImage.size c in
          let img_offset := u32 (offset c + PREPEND_IMAGE_INFO_SIZE) in
          let img_read_offset := img_offset / SDIO_BLK_SIZE * SDIO_BLK_SIZE in
          let img_read_size := u32 (u32 (img_size + 2 * SDIO_BLK_SIZE - 1) / SDIO_BLK_SIZE * SDIO_BLK_SIZE) in
          let aligned_offset := img_offset - img_read_offset in
          '(s, payload) ← fb_mmc_flash_read_from_offset ops env_get simple_strtol rom_spi_boot malloc_table s pt_name payload 0
                            img_read_size img_read_offset;
          if decide (length payload < Z.to_nat (aligned_offset + img_size))%nat then None
          else
            let '(ret, out) := tee_verify_image IMAGE_TYPE_SM (take (Z.to_nat img_size) (drop (Z.to_nat aligned_offset) payload)) in
            Some (s, if ret <=? 0 then -1 else 0)
  | _, _ => Some (s, -1)
  end.

End Boot.
