(* ===== verification/SynaLoad.v ===== *)
(** * What the boot command loads (mach-synaptics/cmd/syna_boot.c)

    On a working device, load_android_image gives the verified image of the
    partition whatever the buffer held, or fails when the image is bad. *)

From S2P Require Import Prelude Disk GenImage UbootMmc BootMode UbootSlots SynaBoot.

(** ** Objects that were stored into *)

Lemma drop_splice (mem l : bytes) off i : (off + length l <= length mem)%nat -> (i <= length l)%nat ->
  drop (off + i) (splice mem off l) = drop i l ++ drop (off + length l) mem.
Proof.
  intros Hl Hi. unfold splice. rewrite drop_app, length_take, Nat.min_l by lia. rewrite drop_ge by (rewrite length_take; lia). cbn [app].
  replace (off + i - off)%nat with i by lia. now rewrite drop_app_le by lia.
Qed.

Lemma take_drop_splice (mem l : bytes) off i n : (off + length l <= length mem)%nat -> (i + n <= length l)%nat ->
  take n (drop (off + i) (splice mem off l)) = take n (drop i l).
Proof. intros Hl Hi. rewrite drop_splice by lia. rewrite take_app_le by (rewrite length_drop; lia). done. Qed.

Lemma field_splice mem l off i n : (off + length l <= length mem)%nat -> (i + n <= length l)%nat ->
  field (splice mem off l) (off + i) n = field l i n.
Proof. intros Hl Hi. unfold field. now rewrite take_drop_splice. Qed.

Lemma field_rng f a n i k : (i + k <= n)%nat -> field (rng f a n) i k = le_val (rng f (a + Z.of_nat i) k).
Proof. intros Hi. unfold field. now rewrite rng_sub. Qed.

Lemma store_at_ok mem off l : (off + length l <= length mem)%nat -> store_at mem off l = Some (splice mem off l).
Proof. intros H. unfold store_at. now rewrite decide_True. Qed.

Lemma ALIGN16_range x : 0 <= ALIGN16 x < 2 ^ 32.
Proof.
  unfold ALIGN16. change (u32 (Z.lnot 15)) with (Z.ldiff (Z.ones 32) (Z.ones 4)).
  assert (E : Z.land (u32 (x + 15)) (Z.ldiff (Z.ones 32) (Z.ones 4)) = Z.ldiff (u32 (x + 15)) (Z.ones 4)).
  { apply Z.bits_inj'. intros i Hi. rewrite Z.land_spec, !Z.ldiff_spec. destruct (Z.lt_ge_cases i 32).
    - now rewrite (Z.ones_spec_low 32) by lia.
    - unfold u32. now rewrite Z.mod_pow2_bits_high by lia. }
  rewrite E, Z.ldiff_ones_r, Z.shiftl_mul_pow2, Z.shiftr_div_pow2 by lia. pose proof (u32_range (x + 15)) as Hr. unfold is_u32 in Hr.
  pose proof (Z.div_mod (u32 (x + 15)) (2 ^ 4)). pose proof (Z.mod_pos_bound (u32 (x + 15)) (2 ^ 4)).
  pose proof (Z.div_pos (u32 (x + 15)) (2 ^ 4)). lia.
Qed.

(** The sum does not wrap when the result is accepted. *)
Lemma u32_add_info n : 0 <= n < 2 ^ 32 -> MIN_ANDROID_IMG_SIZE <= u32 (n + PREPEND_IMAGE_INFO_SIZE) -> u32 (n + PREPEND_IMAGE_INFO_SIZE) = n + PREPEND_IMAGE_INFO_SIZE.
Proof.
  unfold MIN_ANDROID_IMG_SIZE, PREPEND_IMAGE_INFO_SIZE. intros Hn Hm. destruct (Z.lt_ge_cases (n + 64) (2 ^ 32)); [apply u32_id; unfold is_u32; lia|].
  exfalso. assert (E : u32 (n + 64) = n + 64 - 2 ^ 32); [|lia]. unfold u32. symmetry. apply (Z.mod_unique_pos _ _ 1); lia.
Qed.

Section Load.
Context {D : Type} {ops : blk D} (env_get : bytes -> option bytes) (simple_strtol : bytes -> Z) (rom_spi_boot : bool).
Context (malloc_table : option (list emmc_part)).
Let m := get_mmc_boot_dev rom_spi_boot.
Context `{!ReliableBlk ops m}.
(** The images are on the device that holds the metadata. *)
Hypothesis Hactive : get_mmc_active_dev env_get simple_strtol rom_spi_boot = m.
Implicit Types (s : mmc_state D).

(** A partition of the user area, found by its name. *)
Record found (name : bytes) (inf : disk_partition_t) : Prop := mk_found {
  fo_name : name <> str_bootloader /\ name <> str_bootloader ++ [49] /\ name <> str_bootloader ++ [50];
  fo_entry : exists k, locate (ops := ops) (m := m) name = Some (k, inf);
  fo_part : part_ok (ops := ops) inf;
}.

Definition at_byte (inf : disk_partition_t) : Z := start inf * dev_blksz ops.

Lemma read_from_offset_at s name inf mem off n offset : plain s -> found name inf -> 0 <= n < 2 ^ 32 -> 0 <= offset < 2 ^ 32 ->
  (dev_blksz ops | offset) -> blocks (ops := ops) n <= size inf ->
  exists s', fb_mmc_flash_read_from_offset ops env_get simple_strtol rom_spi_boot malloc_table s name mem off n offset =
      (mem ← store_at mem off (rng (bcontents (dev s)) (at_byte inf + offset) (Z.to_nat (blocks (ops := ops) n * dev_blksz ops))); Some (s', mem)) /\
    same s s'.
Proof.
  intros Hp [(Hn1 & Hn2 & Hn3) [k Hk] Hpart] Hn Ho Hdiv Hsz.
  unfold fb_mmc_flash_read_from_offset. rewrite Hactive, b_present. cbn [negb]. unfold f_mmc_get_part_info. rewrite b_present. cbn [negb].
  destruct (user_area_name malloc_table s name Hp Hn1 Hn2 Hn3) as (s1 & -> & Hs1). cbn [mbind option_bind].
  destruct (select_user_area s1 (proj1 Hs1)) as (s2 & -> & Hs2 & Hu). cbn [Z.eqb orb].
  unfold f_part_get_info_by_name_or_alias. rewrite get_info_ok, Hk by done. cbn [mbind option_bind].
  pose proof (same_trans _ _ _ Hs1 Hs2) as Hs. destruct (read_raw_ok s2 inf mem off n offset (proj1 Hs2) Hu Hpart) as (s3 & -> & Hs3); try done.
  exists s3. split; [|by eapply same_trans]. f_equal. f_equal. apply rng_ext. intros x _. apply Hs.
Qed.

Lemma read_from_offset_ok s name inf mem off n offset : plain s -> found name inf -> 0 <= n < 2 ^ 32 -> 0 <= offset < 2 ^ 32 ->
  (dev_blksz ops | offset) -> blocks (ops := ops) n <= size inf ->
  (off + Z.to_nat (blocks (ops := ops) n * dev_blksz ops) <= length mem)%nat ->
  exists s', fb_mmc_flash_read_from_offset ops env_get simple_strtol rom_spi_boot malloc_table s name mem off n offset =
      Some (s', splice mem off (rng (bcontents (dev s)) (at_byte inf + offset) (Z.to_nat (blocks (ops := ops) n * dev_blksz ops)))) /\
    same s s'.
Proof.
  intros Hp Hf Hn Ho Hdiv Hsz Hlen. destruct (read_from_offset_at s name inf mem off n offset Hp Hf Hn Ho Hdiv Hsz) as (s' & -> & Hs).
  exists s'. rewrite store_at_ok by (rewrite length_rng; lia). done.
Qed.

(** ** The image of a slot, by the contents of the device *)

Variables (tee_verify_image : Z -> bytes -> Z * bytes) (ram : Z -> Z).
Implicit Types (f : Z -> Z).

Definition img_size f inf : Z := ALIGN16 (le_val (rng f (at_byte inf + 8) 4)).
Definition img_read_size f inf : Z := u32 (img_size f inf + PREPEND_IMAGE_INFO_SIZE).
Definition verified f inf : Z * bytes :=
  tee_verify_image IMAGE_TYPE_LINUX_KERNEL (rng f (at_byte inf + PREPEND_IMAGE_INFO_SIZE) (Z.to_nat (img_size f inf))).
Definition img_good f inf : bool :=
  (le_val (rng f (at_byte inf + 4) 2) =? IMG_INFO_MAGIC) && (img_read_size f inf <=? MAX_ANDROID_IMG_SIZE) &&
  (MIN_ANDROID_IMG_SIZE <=? img_read_size f inf) && (0 <? (verified f inf).1).

(** What the TEE stored. *)
Definition image f inf : bytes := take (Z.to_nat (img_size f inf)) (verified f inf).2.

Definition hdr_off : nat := Z.to_nat (CUSTKEY_SIZE + PREPEND_IMAGE_INFO_SIZE).

(** The buffer do_syna_boot allocates. *)
Definition buffer (buff : bytes) : Prop := Z.of_nat (length buff) = MAX_ANDROID_IMG_SIZE + 0x100000.

(** A partition large enough for any boot image. *)
Definition boot_part (name : bytes) (inf : disk_partition_t) : Prop :=
  found name inf /\ MAX_ANDROID_IMG_SIZE <= size inf * dev_blksz ops.

Lemma boot_part_blocks name inf n : boot_part name inf -> 0 <= n <= MAX_ANDROID_IMG_SIZE -> blocks (ops := ops) n <= size inf.
Proof.
  intros [_ Hs] Hn. pose proof blksz_facts as [Hb _]. unfold blocks. apply Z.lt_succ_r, Z.div_lt_upper_bound; lia.
Qed.

Ltac sizes := unfold buffer, hdr_off, CUSTKEY_SIZE, PREPEND_IMAGE_INFO_SIZE, MAX_PAGESIZE, MAX_ANDROID_IMG_SIZE, MIN_ANDROID_IMG_SIZE in *; lia.

Lemma read_boot_ok s name inf buff n : plain s -> boot_part name inf -> buffer buff -> 0 <= n <= MAX_ANDROID_IMG_SIZE ->
  exists s' got, fb_mmc_flash_read ops env_get simple_strtol rom_spi_boot malloc_table s name buff (Z.to_nat CUSTKEY_SIZE) n =
      Some (s', splice buff (Z.to_nat CUSTKEY_SIZE) got) /\ same s s' /\ buffer (splice buff (Z.to_nat CUSTKEY_SIZE) got) /\
    (Z.to_nat CUSTKEY_SIZE + length got <= length buff)%nat /\ n <= Z.of_nat (length got) /\
    forall i k, (i + k <= length got)%nat -> take k (drop i got) = rng (bcontents (dev s)) (at_byte inf + Z.of_nat i) k.
Proof.
  intros Hp Hpt Hb Hn. pose proof (boot_part_blocks name inf n Hpt Hn) as Hblk. pose proof (blocks_bound n (proj1 Hn)) as [H0 Hbd].
  pose proof blksz_facts as [Hbs _]. unfold fb_mmc_flash_read.
  destruct (read_from_offset_ok s name inf buff (Z.to_nat CUSTKEY_SIZE) n 0 Hp (proj1 Hpt)) as (s' & E & Hs); try done; [sizes|apply Z.divide_0_r|sizes|].
  rewrite E. rewrite Z.add_0_r. set (got := rng _ _ _). assert (Hg : length got = Z.to_nat (blocks (ops := ops) n * dev_blksz ops)) by apply length_rng.
  exists s', got. split_and!; [reflexivity|exact Hs| |sizes|sizes|].
  - unfold buffer. rewrite length_splice by sizes. exact Hb.
  - intros i k Hi. unfold got. apply rng_sub. lia.
Qed.

Lemma read_size_exact f inf : MIN_ANDROID_IMG_SIZE <= img_read_size f inf -> img_read_size f inf = img_size f inf + PREPEND_IMAGE_INFO_SIZE.
Proof using Type. apply u32_add_info, ALIGN16_range. Qed.

(** The second read and the verification. *)
Lemma verify_ok s f name inf buff : plain s -> (forall x, bcontents (dev s) x = f x) -> boot_part name inf -> buffer buff ->
  MIN_ANDROID_IMG_SIZE <= img_read_size f inf <= MAX_ANDROID_IMG_SIZE ->
  exists s' buff', ('(s, buff) ← fb_mmc_flash_read ops env_get simple_strtol rom_spi_boot malloc_table s name buff (Z.to_nat CUSTKEY_SIZE) (img_read_size f inf);
      let img_hdr := (Z.to_nat CUSTKEY_SIZE + Z.to_nat PREPEND_IMAGE_INFO_SIZE)%nat in
      if decide (length buff < img_hdr + Z.to_nat (img_size f inf))%nat then None
      else
        let '(ret, out) := tee_verify_image IMAGE_TYPE_LINUX_KERNEL (take (Z.to_nat (img_size f inf)) (drop img_hdr buff)) in
        buff ← store_at buff img_hdr (take (Z.to_nat (img_size f inf)) out);
        if ret <=? 0 then Some (s, buff, None)
        else Some (s, buff, Some (img_hdr + GENX_IMAGE_HEADER_LINUX_SIZE)%nat)) =
      Some (s', buff', if 0 <? (verified f inf).1 then Some (hdr_off + GENX_IMAGE_HEADER_LINUX_SIZE)%nat else None) /\
    same s s' /\ buffer buff' /\ exists tail, drop hdr_off buff' = image f inf ++ tail.
Proof.
  intros Hp Hf Hpt Hb Hsz. pose proof (read_size_exact f inf (proj1 Hsz)) as Ers.
  destruct (read_boot_ok s name inf buff (img_read_size f inf) Hp Hpt Hb) as (s' & got & -> & Hs & Hb' & Hfit & Hlen & Hgot); [sizes|].
  pose proof (ALIGN16_range (le_val (rng f (at_byte inf + 8) 4))) as Hr. fold (img_size f inf) in Hr.
  cbn [mbind option_bind]. cbv zeta. set (buff1 := splice _ _ _) in *. replace (Z.to_nat CUSTKEY_SIZE + Z.to_nat PREPEND_IMAGE_INFO_SIZE)%nat with hdr_off by sizes.
  rewrite decide_False by sizes.
  assert (Eg : take (Z.to_nat (img_size f inf)) (drop hdr_off buff1) = rng f (at_byte inf + PREPEND_IMAGE_INFO_SIZE) (Z.to_nat (img_size f inf))).
  { replace hdr_off with (Z.to_nat CUSTKEY_SIZE + Z.to_nat PREPEND_IMAGE_INFO_SIZE)%nat by sizes. unfold buff1.
    rewrite take_drop_splice by sizes. rewrite Hgot by sizes. rewrite (rng_ext _ f) by (intros x _; apply Hf). f_equal; sizes. }
  rewrite Eg. fold (verified f inf). unfold image. destruct (verified f inf) as [ret out]. cbn [fst snd].
  set (o := take _ out). assert (Ho : Z.of_nat (length o) <= img_size f inf) by (unfold o; rewrite length_take; lia).
  rewrite store_at_ok by sizes. cbn [mbind option_bind]. exists s', (splice buff1 hdr_off o). split_and!.
  - destruct (Z.leb_spec ret 0), (Z.ltb_spec 0 ret); lia || done.
  - done.
  - unfold buffer. rewrite length_splice by sizes. exact Hb'.
  - exists (drop (hdr_off + length o) buff1). rewrite <- (Nat.add_0_r hdr_off) at 1. now rewrite drop_splice by sizes.
Qed.

(** The load gives the verified image of the partition, or NULL when the image is
    bad; the device keeps its contents and the buffer its size. *)
Lemma load_ok s name inf buff : plain s -> boot_part name inf -> buffer buff -> let f := bcontents (dev s) in
  exists s' buff', load_android_image ops env_get simple_strtol rom_spi_boot malloc_table tee_verify_image ram s BOOT_TYPE_MMC name 0 buff =
      Some (s', buff', if img_good f inf then Some (hdr_off + GENX_IMAGE_HEADER_LINUX_SIZE)%nat else None) /\
    same s s' /\ buffer buff' /\ (img_good f inf = true -> exists tail, drop hdr_off buff' = image f inf ++ tail).
Proof.
  intros Hp Hpt Hb f. unfold load_android_image. cbv zeta. cbn [read_image].
  destruct (read_boot_ok s name inf buff MAX_PAGESIZE Hp Hpt Hb) as (s1 & got & -> & Hs & Hb' & Hfit & Hlen & Hgot); [sizes|].
  cbn [mbind option_bind]. rewrite decide_False by sizes.
  rewrite !field_splice by sizes. unfold field. rewrite !Hgot by sizes. fold f. change (Z.of_nat 4) with 4. change (Z.of_nat 8) with 8.
  fold (img_size f inf). fold (img_read_size f inf). unfold img_good.
  destruct (le_val (rng f (at_byte inf + 4) 2) =? IMG_INFO_MAGIC); cbn [negb andb]; [|by exists s1, (splice buff (Z.to_nat CUSTKEY_SIZE) got)].
  rewrite (Z.ltb_antisym (img_read_size f inf) MAX_ANDROID_IMG_SIZE), (Z.ltb_antisym MIN_ANDROID_IMG_SIZE (img_read_size f inf)).
  destruct (Z.leb_spec (img_read_size f inf) MAX_ANDROID_IMG_SIZE) as [Hmax|]; cbn [negb andb orb]; [|by exists s1, (splice buff (Z.to_nat CUSTKEY_SIZE) got)].
  destruct (Z.leb_spec MIN_ANDROID_IMG_SIZE (img_read_size f inf)) as [Hmin|]; cbn [negb andb orb]; [|by exists s1, (splice buff (Z.to_nat CUSTKEY_SIZE) got)].
  assert (Ef : forall x, bcontents (dev s1) x = f x) by apply Hs.
  destruct (verify_ok s1 f name inf _ (proj1 Hs) Ef Hpt Hb' (conj Hmin Hmax)) as (s2 & buff2 & E & Hs2 & Hb2 & Ht).
  exists s2, buff2. split_and!; [exact E|by eapply same_trans|done|done].
Qed.

End Load.

(** ** What bootm is given *)

Lemma chunk_at_app b tail i c : chunk_at b i = Some c -> chunk_at (b ++ tail) i = Some c.
Proof.
  unfold chunk_at, sizeof_image_header, sizeof_chunk_param. case_decide as Hd; [|done]. intros E. rewrite decide_True by (rewrite length_app; lia).
  rewrite <- E. do 2 f_equal. rewrite drop_app_le by lia. rewrite take_app_le; [done|]. rewrite length_drop. lia.
Qed.

Lemma find_chunk_app cid b tail r : find_chunk cid b = Some r -> find_chunk cid (b ++ tail) = Some r.
Proof.
  unfold find_chunk, sizeof_image_header. case_decide as Hd; [done|]. rewrite decide_False by (rewrite length_app; lia).
  unfold chunk_num. rewrite field_app by lia. destruct (_ <? _); [|done]. generalize 0 as i. generalize (Z.to_nat (field b 60 4)) as n.
  induction n as [|n IH]; intros i; [done|]. cbn [find_chunk_loop]. intros (c & Hc & E)%bind_Some. rewrite (chunk_at_app _ _ _ _ Hc).
  cbn [mbind option_bind]. destruct (cid =? id c); [done|]. now apply IH.
Qed.

Lemma splice_app_l (b tail l : bytes) d : (d + length l <= length b)%nat -> splice (b ++ tail) d l = splice b d l ++ tail.
Proof. intros H. unfold splice. rewrite take_app_le, drop_app_le by lia. now rewrite <- !app_assoc. Qed.

Lemma splice_shift (mem l : bytes) p d : (p + d + length l <= length mem)%nat -> splice mem (p + d) l = take p mem ++ splice (drop p mem) d l.
Proof.
  intros H. unfold splice. rewrite <- (take_drop p (take (p + d) mem)), take_take, Nat.min_l by lia. rewrite <- app_assoc. f_equal.
  rewrite <- take_drop_commute, drop_drop. do 3 f_equal; lia.
Qed.

Lemma field_drop b p i n : field b (p + i) n = field (drop p b) i n.
Proof. unfold field. now rewrite drop_drop. Qed.

(** An Android image: its header, the page size in it, and the device tree among
    the chunks that start after the first page. *)
Record android_image (img : bytes) (page : Z) (c : chunk_param) : Prop := mk_android {
  ai_magic : take 8 img = ANDR_BOOT_MAGIC;
  ai_page : field img 36 4 = page /\ 40 <= page;
  ai_dtb : exists i, 0 <= i /\ find_chunk IMAGE_CHUNK_ID_LINUX_DTB (drop (Z.to_nat page) img) = Some i /\
           chunk_at (drop (Z.to_nat page) img) i = Some c;
}.

(** The image with the addresses of the kernel and of the device tree, and the
    size of the latter, for an image at address [a]. *)
Definition patched (a page : Z) (c : chunk_param) (img : bytes) : bytes :=
  splice (splice (splice img 12 (le32 LINUX_KERNEL_ADDR)) 28 (le32 (u32 (a + page + offset c)))) 24 (le32 (GenImage.size c)).

Lemma android_length img page c : android_image img page c -> page + 64 <= Z.of_nat (length img).
Proof.
  intros [_ [_ Hp] (i & _ & Hf & _)]. unfold find_chunk, sizeof_image_header in Hf. case_decide as Hd; [done|]. rewrite length_drop in Hd. lia.
Qed.

(** One store into the image. *)
Lemma store_in_image buff p img tail d l : (p <= length buff)%nat -> drop p buff = img ++ tail -> (d + length l <= length img)%nat ->
  exists buff', store_at buff (p + d) l = Some buff' /\ length buff' = length buff /\ drop p buff' = splice img d l ++ tail /\ take p buff' = take p buff.
Proof.
  intros Hp Hd Hl. assert (Hlen : length buff = (p + length img + length tail)%nat).
  { apply (f_equal length) in Hd. rewrite length_drop, length_app in Hd. lia. }
  exists (splice buff (p + d) l). rewrite store_at_ok by lia. split; [done|]. split; [apply length_splice; lia|].
  rewrite splice_shift, Hd, splice_app_l by lia. split.
  - rewrite drop_app, drop_ge by (rewrite length_take; lia). cbn [app]. rewrite length_take, Nat.min_l, Nat.sub_diag by lia. done.
  - rewrite take_app_le by (rewrite length_take; lia). now rewrite take_take, Nat.min_id.
Qed.

Lemma boot_ok ion_addr buff p img tail page c : (p <= length buff)%nat -> drop p buff = img ++ tail -> android_image img page c ->
  exists mem, boot_android_image ion_addr buff (Some p) = Some (Some mem) /\ length mem = length buff /\
    drop p mem = patched (ion_addr + Z.of_nat p) page c img ++ tail.
Proof.
  intros Hp Hd Ha. pose proof (android_length _ _ _ Ha) as Hl. destruct Ha as [Hmg [Hpg Hp40] (i & Hi & Hf & Hc)].
  assert (Hlen : length buff = (p + length img + length tail)%nat).
  { apply (f_equal length) in Hd. rewrite length_drop, length_app in Hd. lia. }
  unfold boot_android_image. cbn [mbind option_bind]. rewrite decide_False by lia.
  rewrite Hd, take_app_le, Hmg, decide_False by (congruence || lia).
  destruct (store_in_image buff p img tail 12 (le32 LINUX_KERNEL_ADDR) Hp Hd) as (b1 & -> & L1 & D1 & _); [cbn [le32 length]; lia|].
  cbn [mbind option_bind]. set (img1 := splice img 12 _) in *. assert (Hl1 : length img1 = length img) by (apply length_splice; cbn [le32 length]; lia).
  assert (Hd1 : forall k, (16 <= k)%nat -> drop k img1 = drop k img).
  { intros k Hk. unfold img1, splice. rewrite app_assoc, drop_app, drop_ge by (rewrite length_app, length_take; cbn [le32 length]; lia).
    cbn [app]. rewrite drop_drop, length_app, length_take. cbn [le32 length]. f_equal. lia. }
  rewrite field_drop, D1, field_app by lia.
  assert (Ep : field img1 36 4 = page) by (unfold field; rewrite Hd1 by lia; exact Hpg). rewrite Ep.
  replace (drop (p + Z.to_nat page) b1) with (drop (Z.to_nat page) img ++ tail).
  2: { rewrite <- drop_drop, D1, drop_app_le, Hd1 by lia. done. }
  rewrite (find_chunk_app _ _ tail _ Hf). cbn [mbind option_bind]. rewrite (proj2 (Z.ltb_ge i 0)) by lia.
  rewrite (chunk_at_app _ tail _ _ Hc). cbn [mbind option_bind].
  destruct (store_in_image b1 p img1 tail 28 (le32 (u32 (ion_addr + Z.of_nat p + page + offset c))) ltac:(lia) D1) as (b2 & -> & L2 & D2 & _); [cbn [le32 length]; lia|].
  cbn [mbind option_bind]. set (img2 := splice img1 28 _) in *. assert (Hl2 : length img2 = length img1) by (apply length_splice; cbn [le32 length]; lia).
  destruct (store_in_image b2 p img2 tail 24 (le32 (GenImage.size c)) ltac:(lia) D2) as (b3 & -> & L3 & D3 & _); [cbn [le32 length]; lia|].
  cbn [mbind option_bind]. exists b3. split; [done|]. split; [lia|exact D3].
Qed.
