(* ===== verification/SynaFailover.v ===== *)
(** * Falling back to the other slot (mach-synaptics/cmd/syna_boot.c,
    drivers/fastboot/fastboot_syna.c)

    A slot whose image is bad loses its tries, then two points of priority per
    reset, until the other slot is chosen. *)

From S2P Require Import Prelude Disk FlashAdaptor LoadGpt GenImage UbootMmc BootMode BootPersist UbootSlots SynaBoot SynaLoad.

Definition str_mmc : bytes := [109; 109; 99].

(** ** Choice and update of a slot *)

Lemma slot_info_cases c n sl : slot_info c n = Some sl -> (n = 0 /\ sl = slot_a c) \/ (n = 1 /\ sl = slot_b c).
Proof. unfold slot_info. destruct (Z.eqb_spec n 0); [left; split; congruence|]. destruct (Z.eqb_spec n 1); [right; split; congruence|done]. Qed.

(** Some bootable slot is chosen if there is one, of the highest priority. *)
Lemma choose_best c n o : slot_info c n = Some o -> slot_is_bootable o = true ->
  exists sl, slot_info c (choose c) = Some sl /\ slot_is_bootable sl = true /\ priority o <= priority sl /\ (choose c = 0 \/ choose c = 1).
Proof.
  intros Ho Hb. unfold choose. set (a := slot_a c). set (b := slot_b c).
  assert (Ha' : slot_info c BOOTSEL_A = Some a) by done. assert (Hb' : slot_info c BOOTSEL_B = Some b) by done.
  assert (Hcase : (o = a \/ o = b)) by (apply slot_info_cases in Ho as [[_ ->]|[_ ->]]; auto).
  destruct (slot_is_bootable a) eqn:Ea, (slot_is_bootable b) eqn:Eb; cbn [andb].
  - unfold select_slot. destruct (Z.eqb_spec (priority a) (priority b)); cbn [negb].
    + assert (Hall : forall z, z = BOOTSEL_A \/ z = BOOTSEL_B ->
        exists sl, slot_info c z = Some sl /\ slot_is_bootable sl = true /\ priority o <= priority sl /\ (z = 0 \/ z = 1)).
      { intros z [-> | ->]; [exists a|exists b]; split_and!; auto; destruct Hcase as [-> | ->]; lia. }
      repeat match goal with |- context [if ?x then _ else _] => destruct x end; apply Hall; auto.
    + destruct (Z.ltb_spec 0 (priority a - priority b)); [exists a|exists b]; split_and!; auto; destruct Hcase as [-> | ->]; lia.
  - exists a. split_and!; auto. destruct Hcase as [-> | ->]; [lia|congruence].
  - exists b. split_and!; auto. destruct Hcase as [-> | ->]; [congruence|lia].
  - destruct Hcase as [-> | ->]; congruence.
Qed.

(** [c'] is [c] with another slot [n]. *)
Record updated (c : misc_boot_ctrl) (n : Z) (sl : misc_slot_metadata) (c' : misc_boot_ctrl) : Prop := mk_updated {
  up_slot : slot_info c' n = Some sl;
  up_other : forall n', n' <> n -> slot_info c' n' = slot_info c n';
  up_valid : is_valid_bootctrl c' = is_valid_bootctrl c;
}.

Lemma set_slot_updated c n sl0 sl : slot_info c n = Some sl0 -> exists c', set_slot c n sl = Some c' /\ updated c n sl c'.
Proof.
  intros H. apply slot_info_cases in H as [[-> _]|[-> _]]; (eexists; split; [reflexivity|]); split; try done; intros n' Hn;
    unfold slot_info; cbn [slot_a slot_b]; destruct (Z.eqb_spec n' 0), (Z.eqb_spec n' 1); lia || done.
Qed.

Lemma updated_trans c c1 c2 n sl1 sl2 : updated c n sl1 c1 -> updated c1 n sl2 c2 -> updated c n sl2 c2.
Proof. intros [_ H1 V1] [S2 H2 V2]. split; [done| |congruence]. intros n' Hn. now rewrite H2, H1. Qed.

(** What is left of a slot after a reset. *)
Definition drained (sl : misc_slot_metadata) : misc_slot_metadata :=
  mk_slot (u8 (priority sl - 2)) 0 (successful_boot sl) (verity_corrupted sl) (slot_reserved sl).

Section Failover.
Context {D : Type} {ops : blk D} (env_get : bytes -> option bytes) (simple_strtol : bytes -> Z) (rom_spi_boot : bool).
Context (malloc_table : option (list emmc_part)) (stack heap : bytes) (get_boot_slot : Z) (simple_strtoul16 : bytes -> Z).
Context (tee_verify_image : Z -> bytes -> Z * bytes) (ram : Z -> Z) (malloc_ion : option bytes) (ion_addr : Z).
Context `{!ReliableBlk ops (get_mmc_boot_dev rom_spi_boot)}.
Implicit Types (s : mmc_state D) (x y : Z).

Definition syna_boot s := do_syna_boot ops env_get simple_strtol rom_spi_boot malloc_table stack heap get_boot_slot simple_strtoul16
  tee_verify_image ram malloc_ion ion_addr s [str_mmc].

(** A reset gives the static variables their initial values back. *)
Definition restart s : mmc_state D := mk_mmc (dev s) (-1) None.

(** At most [n] runs of the command, with a reset in between. *)
Fixpoint power_cycles (n : nat) s : option (mmc_state D * boot_result) :=
  match n with
  | O => Some (s, BootReset)
  | S n => '(s, r) ← syna_boot s; match r with BootReset => power_cycles n (restart s) | r => Some (s, r) end
  end.

(** A board: the metadata, a boot partition per slot outside of them, the buffer. *)
Definition slot_name x : bytes := if x =? BOOTSEL_A then KERNEL_A_NAME else KERNEL_B_NAME.

Variables (minf : disk_partition_t) (k : Z) (inf : Z -> disk_partition_t).

Definition apart (i : disk_partition_t) : Prop :=
  misc_addr (ops := ops) minf + misc_len (ops := ops) <= at_byte (ops := ops) i \/
  at_byte (ops := ops) i + size i * dev_blksz ops <= misc_addr (ops := ops) minf.

Record board : Prop := mk_board {
  bd_active : get_mmc_active_dev env_get simple_strtol rom_spi_boot = get_mmc_boot_dev rom_spi_boot;
  bd_misc : misc_ok rom_spi_boot stack heap minf k;
  bd_boot : forall x, x = 0 \/ x = 1 -> boot_part rom_spi_boot (slot_name x) (inf x) /\ apart (inf x);
  bd_buffer : exists buff, malloc_ion = Some buff /\ buffer buff;
}.
Hypothesis Hbd : board.

Notation meta := (meta rom_spi_boot minf).
Notation good f x := (img_good (ops := ops) tee_verify_image f (inf x)).
Notation kernel f x := (drop GENX_IMAGE_HEADER_LINUX_SIZE (image (ops := ops) tee_verify_image f (inf x))).

(** Only the metadata differ. *)
Definition kept s s' : Prop := forall a, a < misc_addr (ops := ops) minf \/ misc_addr (ops := ops) minf + misc_len (ops := ops) <= a ->
  bcontents (dev s') a = bcontents (dev s) a.

Lemma kept_trans s1 s2 s3 : kept s1 s2 -> kept s2 s3 -> kept s1 s3.
Proof. intros H1 H2 a Ha. now rewrite H2, H1. Qed.

Lemma same_kept s s' : same s s' -> kept s s'.
Proof. intros [_ H] a _. apply H. Qed.

(** The images stay as they are. *)
Lemma good_kept s s' x : x = 0 \/ x = 1 -> kept s s' ->
  good (bcontents (dev s')) x = good (bcontents (dev s)) x /\
  (good (bcontents (dev s)) x = true -> kernel (bcontents (dev s')) x = kernel (bcontents (dev s)) x).
Proof.
  intros Hx Hk. destruct (bd_boot Hbd x Hx) as [[_ Hsz] Hap].
  assert (Hr : forall o n, 0 <= o -> o + Z.of_nat n <= MAX_ANDROID_IMG_SIZE ->
    rng (bcontents (dev s')) (at_byte (ops := ops) (inf x) + o) n = rng (bcontents (dev s)) (at_byte (ops := ops) (inf x) + o) n).
  { intros o n Ho Hn. apply rng_ext. intros a Ha. apply Hk. unfold apart in Hap. unfold MAX_ANDROID_IMG_SIZE in *. lia. }
  assert (Es : img_size (ops := ops) (bcontents (dev s')) (inf x) = img_size (ops := ops) (bcontents (dev s)) (inf x))
    by (unfold img_size; rewrite Hr by (unfold MAX_ANDROID_IMG_SIZE; lia); done).
  assert (Er : img_read_size (ops := ops) (bcontents (dev s')) (inf x) = img_read_size (ops := ops) (bcontents (dev s)) (inf x))
    by (unfold img_read_size; now rewrite Es).
  unfold img_good. rewrite Er, Hr by (unfold MAX_ANDROID_IMG_SIZE; lia).
  destruct (_ =? IMG_INFO_MAGIC); [|done]. cbn [andb].
  destruct (Z.leb_spec (img_read_size (ops := ops) (bcontents (dev s)) (inf x)) MAX_ANDROID_IMG_SIZE); [|done]. cbn [andb].
  destruct (Z.leb_spec MIN_ANDROID_IMG_SIZE (img_read_size (ops := ops) (bcontents (dev s)) (inf x))); [|done]. cbn [andb].
  assert (Ev : verified (ops := ops) tee_verify_image (bcontents (dev s')) (inf x) = verified (ops := ops) tee_verify_image (bcontents (dev s)) (inf x)).
  { pose proof (read_size_exact (ops := ops) (bcontents (dev s)) (inf x)) as Hex. unfold verified. rewrite Es, Hr; [done|by unfold PREPEND_IMAGE_INFO_SIZE|].
    pose proof (ALIGN16_range (le_val (rng (bcontents (dev s)) (at_byte (ops := ops) (inf x) + 8) 4))) as Hal.
    fold (img_size (ops := ops) (bcontents (dev s)) (inf x)) in Hal. lia. }
  unfold image. now rewrite Ev, Es.
Qed.

(** ** One run of the command *)

Notation retry := (retry_image_load ops env_get simple_strtol rom_spi_boot malloc_table stack heap tee_verify_image ram ion_addr).

(** A bad image uses up the tries of its slot, and two points of its priority. *)
Lemma retry_bad fuel x : x = 0 \/ x = 1 -> forall s buff sl, plain s -> is_valid_bootctrl (meta s) = true -> buffer buff ->
  slot_info (meta s) x = Some sl -> good (bcontents (dev s)) x = false -> 0 <= tries_remaining sl < Z.of_nat fuel ->
  exists s', retry fuel s BOOT_TYPE_MMC (slot_name x) 0 buff true x = Some (s', BootReset) /\ plain s' /\
    updated (meta s) x (drained sl) (meta s') /\ kept s s'.
Proof.
  intros Hx. destruct (bd_boot Hbd x Hx) as [Hpt _]. induction fuel as [|fuel IH]; intros s buff sl Hp Hv Hb Hsl Hg Ht; [lia|].
  cbn [retry_image_load].
  destruct (load_ok env_get simple_strtol rom_spi_boot malloc_table (bd_active Hbd) tee_verify_image ram s _ _ buff Hp Hpt Hb)
    as (s1 & b1 & -> & Hs1 & Hb1 & _). cbv zeta. rewrite Hg. cbn [mbind option_bind].
  pose proof (same_meta rom_spi_boot minf s s1 Hs1) as Em.
  destruct (set_slot_updated (meta s) x sl (charge sl) Hsl) as (c1 & Ec & Hu).
  destruct (try_abmode_ok rom_spi_boot malloc_table stack heap minf k (bd_misc Hbd) s1 x sl c1 (proj1 Hs1)) as (s2 & -> & Hp2 & Em2 & Hk2);
    [congruence..|]. cbn [mbind option_bind]. pose proof (kept_trans _ _ _ (same_kept _ _ Hs1) Hk2) as Hk.
  rewrite <- Em2 in Hu. unfold charge in Hu. destruct (Z.ltb_spec 0 (tries_remaining sl)) as [Hlt|Hge]; cbn [Z.eqb negb].
  - destruct (IH s2 b1 _ Hp2 ltac:(rewrite (up_valid _ _ _ _ Hu); exact Hv) Hb1 (up_slot _ _ _ _ Hu)) as (s3 & -> & Hp3 & Hu3 & Hk3).
    + rewrite (proj1 (good_kept s s2 x Hx Hk)). exact Hg.
    + cbn [tries_remaining]. lia.
    + exists s3. split; [done|]. split; [done|]. split; [|by eapply kept_trans]. exact (updated_trans _ _ _ _ _ _ Hu Hu3).
  - exists s2. split; [done|]. split; [done|]. split; [|done]. unfold drained. replace 0 with (tries_remaining sl) by lia. exact Hu.
Qed.

(** A good one is given to bootm. *)
Lemma retry_good fuel x s buff page c : x = 0 \/ x = 1 -> plain s -> buffer buff -> good (bcontents (dev s)) x = true ->
  android_image (kernel (bcontents (dev s)) x) page c ->
  exists s' mem tail, retry (S fuel) s BOOT_TYPE_MMC (slot_name x) 0 buff true x = Some (s', BootDone (Some mem)) /\ same s s' /\
    let p := (hdr_off + GENX_IMAGE_HEADER_LINUX_SIZE)%nat in
    drop p mem = patched (ion_addr + Z.of_nat p) page c (kernel (bcontents (dev s)) x) ++ tail.
Proof.
  intros Hx Hp Hb Hg Ha. destruct (bd_boot Hbd x Hx) as [Hpt _]. cbn [retry_image_load].
  destruct (load_ok env_get simple_strtol rom_spi_boot malloc_table (bd_active Hbd) tee_verify_image ram s _ _ buff Hp Hpt Hb)
    as (s1 & b1 & -> & Hs1 & Hb1 & Ht). cbv zeta in *. rewrite Hg in *. destruct (Ht eq_refl) as [tail Ed]. cbn [mbind option_bind].
  pose proof (android_length _ _ _ Ha) as Hl. rewrite length_drop in Hl. destruct (ai_page _ _ _ Ha) as [_ Hpg].
  set (im := image _ _ _) in *. destruct (boot_ok ion_addr b1 (hdr_off + GENX_IMAGE_HEADER_LINUX_SIZE) (drop GENX_IMAGE_HEADER_LINUX_SIZE im) tail page c) as (mem & -> & _ & Em).
  - apply (f_equal length) in Ed. rewrite length_drop, length_app in Ed. lia.
  - rewrite <- drop_drop, Ed, drop_app_le by lia. done.
  - done.
  - cbn [mbind option_bind]. by exists s1, mem, tail.
Qed.

Lemma boot_command s x : plain s -> is_valid_bootctrl (meta s) = true -> choose (meta s) = x -> x = 0 \/ x = 1 ->
  exists s1 buff, syna_boot s = retry retry_fuel s1 BOOT_TYPE_MMC (slot_name x) 0 buff true x /\ same s s1 /\ buffer buff.
Proof.
  intros Hp Hv Hc Hx. destruct (bd_buffer Hbd) as (buff & Eb & Hb). unfold syna_boot, do_syna_boot. cbn [get_boot_type str_mmc decide].
  destruct (current_slot_ok rom_spi_boot malloc_table stack heap minf k (bd_misc Hbd) s get_boot_slot Hp Hv) as (s1 & -> & Hs1).
  rewrite Hc, Eb. cbn [mbind option_bind]. exists s1, buff. split; [|done]. destruct Hx as [-> | ->]; done.
Qed.

(** A run on a bad slot ends in a reset. *)
Lemma run_bad s x sl : plain s -> is_valid_bootctrl (meta s) = true -> choose (meta s) = x -> slot_info (meta s) x = Some sl ->
  good (bcontents (dev s)) x = false ->
  exists s', syna_boot s = Some (s', BootReset) /\ plain s' /\ updated (meta s) x (drained sl) (meta s') /\ kept s s'.
Proof.
  intros Hp Hv Hc Hsl Hg. assert (Hx : x = 0 \/ x = 1) by (apply slot_info_cases in Hsl; tauto).
  destruct (boot_command s x Hp Hv Hc Hx) as (s1 & buff & -> & Hs1 & Hb). pose proof (same_meta rom_spi_boot minf s s1 Hs1) as Em.
  pose proof (su_tries _ (slot_info_u8 _ _ _ (meta_u8 rom_spi_boot minf s) Hsl)) as Ht. unfold is_u8 in Ht.
  destruct (retry_bad retry_fuel x Hx s1 buff sl (proj1 Hs1)) as (s2 & -> & Hp2 & Hu & Hk); try congruence.
  - rewrite (proj1 (good_kept s s1 x Hx (same_kept _ _ Hs1))). exact Hg.
  - unfold retry_fuel. lia.
  - exists s2. rewrite Em in Hu. split_and!; [done|done|done|]. eapply kept_trans; [by apply same_kept|done].
Qed.

Lemma run_good s x page c : plain s -> is_valid_bootctrl (meta s) = true -> choose (meta s) = x -> x = 0 \/ x = 1 ->
  good (bcontents (dev s)) x = true -> android_image (kernel (bcontents (dev s)) x) page c ->
  exists s' mem tail, syna_boot s = Some (s', BootDone (Some mem)) /\ same s s' /\
    let p := (hdr_off + GENX_IMAGE_HEADER_LINUX_SIZE)%nat in
    drop p mem = patched (ion_addr + Z.of_nat p) page c (kernel (bcontents (dev s)) x) ++ tail.
Proof.
  intros Hp Hv Hc Hx Hg Ha. destruct (boot_command s x Hp Hv Hc Hx) as (s1 & buff & -> & Hs1 & Hb).
  destruct (good_kept s s1 x Hx (same_kept _ _ Hs1)) as [Eg Ek]. rewrite <- (Ek Hg) in Ha. rewrite Hg in Eg.
  change retry_fuel with (S (Z.to_nat 255)).
  destruct (retry_good (Z.to_nat 255) x s1 buff page c Hx (proj1 Hs1) Hb Eg Ha) as (s2 & mem & tail & -> & Hs2 & Em).
  exists s2, mem, tail. rewrite (Ek Hg) in Em. split; [done|]. split; [by eapply same_trans|exact Em].
Qed.

Lemma restart_plain s : plain (restart s).
Proof. by left. Qed.

(** Slot [x] is bad, slot [y] is good and bootable. *)
Record one_bad s x y (sl : misc_slot_metadata) : Prop := mk_one_bad {
  ob_slots : (x = 0 /\ y = 1) \/ (x = 1 /\ y = 0);
  ob_valid : is_valid_bootctrl (meta s) = true;
  ob_bad : good (bcontents (dev s)) x = false;
  ob_good : good (bcontents (dev s)) y = true;
  ob_slot : slot_info (meta s) y = Some sl /\ slot_is_bootable sl = true;
}.

(** A run keeps that, on whichever slot it is. *)
Lemma one_bad_kept s s' x y sl sx : one_bad s x y sl -> kept s s' -> updated (meta s) x sx (meta s') -> one_bad (restart s') x y sl.
Proof.
  intros [Hxy Hv Hb Hg [Hs Hbt]] Hk Hu. split; [done| | | |].
  - change (meta (restart s')) with (meta s'). rewrite (up_valid _ _ _ _ Hu). exact Hv.
  - change (dev (restart s')) with (dev s'). rewrite (proj1 (good_kept s s' x ltac:(lia) Hk)). exact Hb.
  - change (dev (restart s')) with (dev s'). rewrite (proj1 (good_kept s s' y ltac:(lia) Hk)). exact Hg.
  - change (meta (restart s')) with (meta s'). rewrite (up_other _ _ _ _ Hu) by lia. done.
Qed.

Lemma failover s x y sl sx page c n : plain s -> one_bad s x y sl -> 2 <= priority sl -> slot_info (meta s) x = Some sx ->
  priority sx < 2 * Z.of_nat n -> android_image (kernel (bcontents (dev s)) y) page c ->
  exists s' mem tail, power_cycles n s = Some (s', BootDone (Some mem)) /\
    let p := (hdr_off + GENX_IMAGE_HEADER_LINUX_SIZE)%nat in
    drop p mem = patched (ion_addr + Z.of_nat p) page c (kernel (bcontents (dev s)) y) ++ tail.
Proof.
  revert s sx. induction n as [|n IH]; intros s sx Hp Hob Hpr Hsx Hn Ha;
    pose proof (su_priority _ (slot_info_u8 _ _ _ (meta_u8 rom_spi_boot minf s) Hsx)) as Hu8; unfold is_u8 in Hu8; [lia|].
  pose proof Hob as [Hxy Hv Hb Hg [Hs Hbt]]. cbn [power_cycles].
  destruct (choose_best (meta s) y sl Hs Hbt) as (ch & Hch & Hchb & Hple & Hc01).
  destruct (decide (choose (meta s) = y)) as [Ey|Ny].
  - destruct (run_good s y page c Hp Hv Ey ltac:(lia) Hg Ha) as (s' & mem & tail & -> & _ & Em). cbn [mbind option_bind]. by exists s', mem, tail.
  - assert (Ex : choose (meta s) = x) by lia. assert (ch = sx) as -> by congruence.
    destruct (run_bad s x sx Hp Hv Ex Hsx Hb) as (s1 & -> & Hp1 & Hu & Hk). cbn [mbind option_bind].
    pose proof (one_bad_kept _ _ _ _ _ _ Hob Hk Hu) as Hob1. pose proof (proj2 (good_kept s s1 y ltac:(lia) Hk) Hg) as Ek.
    destruct (IH (restart s1) (drained sx) (restart_plain s1) Hob1 Hpr (up_slot _ _ _ _ Hu)) as (s2 & mem & tail & E & Em).
    + unfold drained. cbn [priority]. rewrite u8_id by (unfold is_u8; lia). lia.
    + change (dev (restart s1)) with (dev s1). now rewrite Ek.
    + exists s2, mem, tail. split; [exact E|]. cbv zeta in Em. change (dev (restart s1)) with (dev s1) in Em. now rewrite Ek in Em.
Qed.

(** An odd priority stays odd, through the wrap from 1 to 255. *)
Lemma no_failover s x y sl sx q n : plain s -> one_bad s x y sl -> priority sl = 1 -> slot_info (meta s) x = Some sx ->
  priority sx = 2 * q + 1 -> 0 <= q -> successful_boot sl < successful_boot sx ->
  exists s', power_cycles n s = Some (s', BootReset).
Proof.
  revert s sx q. induction n as [|n IH]; intros s sx q Hp Hob Hpr Hsx Hq H0 Hsu; [by exists s|].
  pose proof (slot_info_u8 _ _ _ (meta_u8 rom_spi_boot minf s) Hsx) as Hux. pose proof Hob as [Hxy Hv Hb Hg [Hs Hbt]].
  pose proof (slot_info_u8 _ _ _ (meta_u8 rom_spi_boot minf s) Hs) as Huy.
  pose proof (su_priority _ Hux) as Hup. pose proof (su_success _ Huy) as Hus. unfold is_u8 in Hup, Hus. cbn [power_cycles].
  assert (Hbx : slot_is_bootable sx = true).
  { unfold slot_is_bootable. rewrite (proj2 (Z.ltb_lt 0 (priority sx))) by lia. rewrite (proj2 (Z.eqb_neq (successful_boot sx) 0)) by lia. done. }
  assert (Ex : choose (meta s) = x) by (apply (choose_better _ x y sx sl); try done; intros _; unfold better; lia).
  destruct (run_bad s x sx Hp Hv Ex Hsx Hb) as (s1 & -> & Hp1 & Hu & Hk). cbn [mbind option_bind].
  pose proof (one_bad_kept _ _ _ _ _ _ Hob Hk Hu) as Hob1.
  assert (Hdr : exists q', priority (drained sx) = 2 * q' + 1 /\ 0 <= q').
  { unfold drained. cbn [priority]. destruct (decide (q = 0)) as [-> |].
    - exists 127. rewrite Hq. done.
    - exists (q - 1). rewrite u8_id by (unfold is_u8; lia). lia. }
  destruct Hdr as (q' & Hq' & H0'). exact (IH (restart s1) (drained sx) q' (restart_plain s1) Hob1 Hpr (up_slot _ _ _ _ Hu) Hq' H0' Hsu).
Qed.

End Failover.

(** ** Properties *)

(** C11: A bad slot does not keep the board from booting.  Let the image of one slot be
    bad (no magic, a size out of bounds, or refused by the TEE) and the other
    slot, bootable and of priority 2 at least, have a good Android image.  Then,
    whatever the tries and the priority of the bad slot, one of the first 128
    runs of "syna_boot mmc", each but the last ending in a reset, gives bootm the
    verified image of the good slot, with the addresses of the kernel and of its
    device tree filled in.  The device is one that works; the boot partitions do
    not overlap the metadata. *)
Theorem syna_boot_fails_over {D : Type} (ops : blk D) env_get strtol spi tbl stack heap boot_slot strtoul tee ram ion ion_addr
    `{!ReliableBlk ops (get_mmc_boot_dev spi)} (minf : disk_partition_t) (k : Z) (inf : Z -> disk_partition_t)
    (s : mmc_state D) (x y page : Z) (sl : misc_slot_metadata) (c : chunk_param) :
  board (ops := ops) env_get strtol spi stack heap ion minf k inf -> plain s -> one_bad spi tee minf inf s x y sl -> 2 <= priority sl ->
  let kernel := drop GENX_IMAGE_HEADER_LINUX_SIZE (image (ops := ops) tee (bcontents (dev s)) (inf y)) in
  android_image kernel page c ->
  exists s' mem tail, power_cycles env_get strtol spi tbl stack heap boot_slot strtoul tee ram ion ion_addr (ops := ops) (Z.to_nat 128) s =
      Some (s', BootDone (Some mem)) /\
    let p := (hdr_off + GENX_IMAGE_HEADER_LINUX_SIZE)%nat in drop p mem = patched (ion_addr + Z.of_nat p) page c kernel ++ tail.
Proof.
  intros Hbd Hp Hob Hpr kernel Ha. assert (Hsx : exists sx, slot_info (meta spi minf s) x = Some sx) by (destruct (ob_slots _ _ _ _ _ _ _ _ Hob) as [[-> _]|[-> _]]; by eexists).
  destruct Hsx as [sx Hsx]. pose proof (su_priority _ (slot_info_u8 _ _ _ (meta_u8 spi minf s) Hsx)) as Hu. unfold is_u8 in Hu.
  eapply failover; try done. lia.
Qed.

(** The bound on the priority is needed: try_abmode takes two points off in eight
    bits, so that 1 becomes 255.  When both slots are down to priority 1, or the
    bad one has any odd priority, and the bad slot is the one marked as
    successful, the board resets for ever although the image of the other slot
    is good and its slot bootable. *)
Theorem syna_boot_never_fails_over {D : Type} (ops : blk D) env_get strtol spi tbl stack heap boot_slot strtoul tee ram ion ion_addr
    `{!ReliableBlk ops (get_mmc_boot_dev spi)} (minf : disk_partition_t) (k : Z) (inf : Z -> disk_partition_t)
    (s : mmc_state D) (x y q : Z) (sl sx : misc_slot_metadata) (n : nat) :
  board (ops := ops) env_get strtol spi stack heap ion minf k inf -> plain s -> one_bad spi tee minf inf s x y sl -> priority sl = 1 ->
  slot_info (meta spi minf s) x = Some sx -> priority sx = 2 * q + 1 -> 0 <= q -> successful_boot sl < successful_boot sx ->
  exists s', power_cycles env_get strtol spi tbl stack heap boot_slot strtoul tee ram ion ion_addr (ops := ops) n s = Some (s', BootReset).
Proof. intros. eapply no_failover; try done. Qed.

(** The board of [sample_mmc]: slot a has no image, that of slot b is good; the TEE
    gives a small Android image with a device tree. *)
Definition sample_kernel : bytes :=
  ANDR_BOOT_MAGIC ++ replicate 28 0 ++ le32 64 ++ replicate 24 0 ++
  replicate 60 0 ++ le32 1 ++ le32 IMAGE_CHUNK_ID_LINUX_DTB ++ replicate 28 7.

Definition sample_tee (_ : Z) (_ : bytes) : Z * bytes := (1, replicate GENX_IMAGE_HEADER_LINUX_SIZE 0 ++ sample_kernel).

Definition sample_image_b : Z -> Z := upd (fun _ => 0) 41943044 [29; 225; 0; 0; 0; 0; 16; 0].

Definition sample_inf (x : Z) : disk_partition_t :=
  if x =? 0 then mk_disk_part 4096 65536 512 KERNEL_A_NAME else mk_disk_part 81920 65536 512 KERNEL_B_NAME.

Definition sample_ion : option bytes := Some (replicate (Z.to_nat (MAX_ANDROID_IMG_SIZE + 0x100000)) 0).

Definition blk_zeros : bytes := replicate (Z.to_nat 512) 0.

Lemma sample_board : board (ops := ram_ops sample_table) (fun _ => None) (fun _ => 0) false blk_zeros blk_zeros sample_ion sample_misc 1 sample_inf.
Proof.
  split.
  - done.
  - exact sample_misc_ok.
  - intros x [-> | ->]; (split; [split; [split; [done|by eexists|split; cbn; lia]|cbn; unfold MAX_ANDROID_IMG_SIZE; lia]|]); [left|left]; vm_compute; done.
  - eexists. split; [reflexivity|]. unfold buffer. rewrite length_replicate. unfold MAX_ANDROID_IMG_SIZE. lia.
Qed.

Definition odd_ctrl : misc_boot_ctrl :=
  mk_ctrl BOOTCTRL_MAGIC 2 0 (mk_slot 1 0 1 0 0) (mk_slot 1 2 0 0 0) (replicate 16 0).

Lemma sample_one_bad (c : misc_boot_ctrl) sl : ctrl_u8 c -> is_valid_bootctrl c = true -> slot_b c = sl -> slot_is_bootable sl = true ->
  one_bad (ops := ram_ops sample_table) false sample_tee sample_misc sample_inf (sample_mmc sample_image_b c) 0 1 sl /\
  meta (ops := ram_ops sample_table) false sample_misc (sample_mmc sample_image_b c) = c.
Proof.
  intros Hc Hv Hs Hb. pose proof (ctrl_bytes_length c Hc) as Hl.
  assert (Em : meta (ops := ram_ops sample_table) false sample_misc (sample_mmc sample_image_b c) = c).
  { unfold meta. change (misc_addr sample_misc) with 36864. cbn [dev sample_mmc bcontents ram_reliable].
    rewrite (rng_ext _ (upd (fun x => u8 (sample_image_b x)) 36864 (ctrl_bytes c))) by (intros x _; unfold ram_byte; cbn [mem]; apply u8_upd, cu_bytes, Hc).
    rewrite <- Hl, upd_same. rewrite <- (app_nil_r (ctrl_bytes c)). now apply ctrl_roundtrip. }
  split; [|done].
  assert (Ei : forall a n, 36896 <= a -> rng (bcontents (ops := ram_ops sample_table) (dev (sample_mmc sample_image_b c))) a n = rng (fun x => u8 (sample_image_b x)) a n).
  { intros a n Ha. apply rng_ext. intros i Hi. change (u8 (upd sample_image_b 36864 (ctrl_bytes c) i) = u8 (sample_image_b i)). rewrite upd_out; [done|]. unfold sizeof_ctrl in Hl. lia. }
  split; [by left|now rewrite Em| | |rewrite Em; split; [by rewrite <- Hs|done]].
  - unfold img_good. rewrite Ei by (vm_compute; discriminate). vm_compute. done.
  - unfold img_good, img_read_size, img_size. rewrite !Ei by (vm_compute; discriminate). unfold verified, sample_tee. vm_compute. done.
Qed.

Definition sample_dtb : chunk_param := chunk_of_bytes (le32 IMAGE_CHUNK_ID_LINUX_DTB ++ replicate 28 7).

Lemma sample_android : android_image (drop GENX_IMAGE_HEADER_LINUX_SIZE (image (ops := ram_ops sample_table) sample_tee
    (bcontents (ops := ram_ops sample_table) (dev (sample_mmc sample_image_b sample_ctrl))) (sample_inf 1))) 64 sample_dtb.
Proof.
  replace (drop _ _) with sample_kernel by (unfold image, verified, sample_tee; vm_compute; reflexivity).
  split; [reflexivity|split; [reflexivity|lia]|]. exists 0. split; [lia|]. split; vm_compute; reflexivity.
Qed.

Lemma syna_boot_fails_over_witness : exists s' mem tail,
  power_cycles (fun _ => None) (fun _ => 0) false None blk_zeros blk_zeros 0 (fun _ => 0) sample_tee (fun _ => 0) sample_ion 0x1000000
    (ops := ram_ops sample_table) (Z.to_nat 128) (sample_mmc sample_image_b sample_ctrl) = Some (s', BootDone (Some mem)) /\
  drop (hdr_off + GENX_IMAGE_HEADER_LINUX_SIZE) mem =
    patched (0x1000000 + Z.of_nat (hdr_off + GENX_IMAGE_HEADER_LINUX_SIZE)) 64 sample_dtb
      (drop GENX_IMAGE_HEADER_LINUX_SIZE (image (ops := ram_ops sample_table) sample_tee
        (bcontents (ops := ram_ops sample_table) (dev (sample_mmc sample_image_b sample_ctrl))) (sample_inf 1))) ++ tail.
Proof.
  refine (syna_boot_fails_over (ram_ops sample_table) _ _ _ _ _ _ _ _ _ _ _ _ _ _ _ _ 0 1 64 (slot_b sample_ctrl) sample_dtb sample_board _ _ _ sample_android).
  - by left.
  - apply (sample_one_bad sample_ctrl); try done. split; [done|by repeat constructor|done].
  - cbn. lia.
Defined.

Lemma syna_boot_never_fails_over_witness : exists s',
  power_cycles (fun _ => None) (fun _ => 0) false None blk_zeros blk_zeros 0 (fun _ => 0) sample_tee (fun _ => 0) sample_ion 0x1000000
    (ops := ram_ops sample_table) (Z.to_nat 1000) (sample_mmc sample_image_b odd_ctrl) = Some (s', BootReset).
Proof.
  destruct (sample_one_bad odd_ctrl (slot_b odd_ctrl)) as [Hob Em]; try done; [split; [done|by repeat constructor|done]|].
  refine (syna_boot_never_fails_over (ram_ops sample_table) _ _ _ _ _ _ _ _ _ _ _ _ _ _ _ _ 0 1 0 (slot_b odd_ctrl) (slot_a odd_ctrl) _
    sample_board _ Hob _ _ _ _ _); [by left|done|by rewrite Em|done|done|done].
Defined.
