(* ===== verification/SynaSafety.v ===== *)
(** * Memory safety of the loaders of U-Boot (mach-synaptics/cmd/syna_boot.c,
    drivers/plat/sm.c, drivers/fastboot/fastboot_syna.c)

    Whatever a device holds, and when it fails too, load_android_image stays
    inside its buffer; syna_load_sm does when the chunk in the image header is not
    too large. *)

From S2P Require Import Prelude Disk GenImage UbootMmc BootMode BootPersist UbootSlots SynaBoot SynaLoad.

(** What any device promises: a block size that is a power of two, a partition
    table in blocks of that size, and no more data than was asked for. *)
Class BoundedBlk {D : Type} (ops : blk D) := {
  bb_blksz : exists j, 0 <= j <= 12 /\ dev_blksz ops = 2 ^ j;
  bb_info d m i inf : get_info ops d m i = Some inf -> blksz inf = dev_blksz ops;
  bb_read d m a n : 0 <= n -> Z.of_nat (length (dread ops d m a n).2) <= n * dev_blksz ops;
}.

Section Bounded.
Context {D : Type} {ops : blk D} `{!BoundedBlk ops}.
Context (env_get : bytes -> option bytes) (simple_strtol : bytes -> Z) (rom_spi_boot : bool).
Context (malloc_table : option (list emmc_part)) (tee_verify_image : Z -> bytes -> Z * bytes) (ram : Z -> Z).
(** The table that malloc() gives, if any, has the 64 entries asked for. *)
Hypothesis Htable : forall t, malloc_table = Some t -> Z.of_nat (length t) = MAX_GPT_ENTRY.
Implicit Types (s : mmc_state D).

(** ** The table of partitions *)

Lemma save_loop_ok fuel m h s : forall i j t, Z.of_nat (length t) = MAX_GPT_ENTRY -> 0 <= i -> MAX_GPT_ENTRY - i <= Z.of_nat fuel ->
  exists i' t', save_loop ops fuel m h i j s t = Some (i', t') /\ i <= i' /\ Z.of_nat (length t') = MAX_GPT_ENTRY.
Proof.
  unfold MAX_GPT_ENTRY. induction fuel as [|fuel IH]; intros i j t Ht Hi Hf; cbn [save_loop]; unfold MAX_GPT_ENTRY;
    (destruct ((j <? max_entries ops) && (i <? 64)) eqn:E; [|by exists i, t; split_and!; [|lia|]]); apply andb_true_iff in E as [_ E%Z.ltb_lt]; [lia|].
  destruct (lookup_lt_is_Some_2 t (Z.to_nat i)) as [e ->]; [lia|]. cbn [mbind option_bind].
  destruct (get_info ops (dev s) m j) as [inf|].
  - edestruct (IH (i + 1) (j + 1) (<[Z.to_nat i:=mk_emmc_part (u8 h) (u8 j) inf]> t)) as (i' & t' & -> & Hi' & Ht'); [by rewrite length_insert|lia..|].
    exists i', t'. split_and!; [done|lia|done].
  - eexists i, _. split; [reflexivity|]. split; [lia|]. by rewrite length_insert.
Qed.

Lemma save_gpps_ok n m : forall h i s t, Z.of_nat (length t) = MAX_GPT_ENTRY -> 0 <= i -> exists r, save_gpps ops n m h i s t = Some r.
Proof.
  induction n as [|n IH]; intros h i s t Ht Hi; [by eexists|]. cbn [save_gpps]. destruct (select_hwpart ops s m h) as [s1 r].
  destruct (r =? 0); cbn [negb]; [|by eexists].
  destruct (save_loop_ok save_fuel m h s1 i 1 t Ht Hi) as (i' & t' & -> & Hi' & Ht'); [unfold save_fuel, MAX_GPT_ENTRY; lia|].
  cbn [mbind option_bind]. apply IH; [done|lia].
Qed.

Lemma save_part_table_ok s m : exists r, f_mmc_save_part_table ops malloc_table s m = Some r.
Proof.
  unfold f_mmc_save_part_table. destruct (present ops (dev s) m); cbn [negb]; [|by eexists]. destruct (recognised ops (dev s) m); cbn [negb]; [|by eexists].
  destruct malloc_table as [table|]; [|by eexists]. specialize (Htable table eq_refl).
  destruct (select_hwpart ops s m 0) as [s1 r]. destruct (r =? 0); cbn [negb]; [|by eexists].
  destruct (save_loop_ok save_fuel m 0 s1 0 1 table Htable) as (i' & t' & -> & Hi' & Ht'); [lia|unfold save_fuel, MAX_GPT_ENTRY; lia|].
  cbn [mbind option_bind]. destruct (save_gpps_ok 4 m 4 i' s1 t' Ht' Hi') as [[[s2 i2] t2] ->]. cbn [mbind option_bind]. by eexists.
Qed.

Lemma part_by_name_ok s m name : exists r, get_mmc_part_by_name ops malloc_table s m name = Some r.
Proof.
  unfold get_mmc_part_by_name. case_decide; [by eexists|]. case_decide; [by eexists|].
  assert (Ht : exists r, get_mmc_partition_type ops malloc_table s m = Some r).
  { unfold get_mmc_partition_type. destruct (m =? DEV_EMMC); [|by eexists]. destruct (0 <=? emmc_partition_type s); [by eexists|].
    destruct (if present ops (dev s) m then select_hwpart ops s m 4 else (s, -1)) as [s1 r]. destruct (r =? 0); [|by eexists].
    destruct (save_part_table_ok s1 m) as [[s2 r2] ->]. by eexists. }
  destruct Ht as [[s1 ty] ->]. cbn [mbind option_bind]. destruct (ty =? DEFAULT_PARTITION); by eexists.
Qed.

(** ** Reads *)

Lemma info_blksz s m name i inf : f_part_get_info_by_name ops s m name = Some (i, inf) -> blksz inf = dev_blksz ops.
Proof.
  unfold f_part_get_info_by_name. destruct (recognised ops (dev s) m); [|done]. generalize (Z.to_nat (max_entries ops - 1)) as n. generalize 1 as j. intros j n. revert j.
  induction n as [|n IH]; intros j; [done|]. cbn [info_loop]. intros (e & He & E)%bind_Some. case_decide; [|by apply (IH (j + 1))].
  injection E as <- <-. eapply bb_info, He.
Qed.

Lemma part_info_ok s m name : exists s' r, f_mmc_get_part_info ops env_get malloc_table s m name = Some (s', r) /\
  forall i inf, r = Some (i, inf) -> blksz inf = dev_blksz ops.
Proof.
  unfold f_mmc_get_part_info. destruct (present ops (dev s) m); cbn [negb]; [|by exists s, None].
  destruct (part_by_name_ok s m name) as [[s1 p] ->]. cbn [mbind option_bind]. destruct (select_hwpart ops s1 m p) as [s2 r].
  destruct ((p =? 1) || (p =? 2)); [eexists _, _; split; [reflexivity|]; intros i inf [= <- <-]; done|].
  eexists _, _. split; [reflexivity|]. intros i inf. unfold f_part_get_info_by_name_or_alias.
  destruct (f_part_get_info_by_name ops s2 m name) as [[i' inf']|] eqn:E; [intros [= <- <-]; by eapply info_blksz|].
  intros (al & _ & Hal)%bind_Some. by eapply info_blksz.
Qed.

Lemma store_in_place (mem got : bytes) off : (off + length got <= length mem)%nat ->
  exists mem', store_at mem off got = Some mem' /\ length mem' = length mem.
Proof. intros H. eexists. split; [now apply store_at_ok|now apply length_splice]. Qed.

(** A read stays inside an object that has room for it and for one block more. *)
Lemma read_from_offset_safe s name mem off n offset : 0 <= n < 2 ^ 32 -> Z.of_nat off + n + dev_blksz ops <= Z.of_nat (length mem) ->
  exists s' mem', fb_mmc_flash_read_from_offset ops env_get simple_strtol rom_spi_boot malloc_table s name mem off n offset = Some (s', mem') /\
    length mem' = length mem.
Proof.
  intros Hn Hl. unfold fb_mmc_flash_read_from_offset. set (m := get_mmc_active_dev _ _ _).
  destruct (present ops (dev s) m); cbn [negb]; [|by exists s, mem]. destruct (part_info_ok s m name) as (s1 & r & -> & Hr). cbn [mbind option_bind].
  destruct r as [[i inf]|]; [|by exists s1, mem]. unfold read_raw_image_from_offset. rewrite (Hr i inf eq_refl).
  destruct (offset mod dev_blksz ops =? 0); cbn [negb]; [|by exists s1, mem]. destruct bb_blksz as (j & Hj & Ej).
  rewrite (round_up_blocks _ j) by (done || lia). set (b := _ / _). destruct (size inf <? b); [by exists s1, mem|].
  assert (Hb1 : 1 <= dev_blksz ops) by (rewrite Ej; change 1 with (2 ^ 0); apply Z.pow_le_mono_r; lia).
  assert (Hb : 0 <= b /\ b * dev_blksz ops <= n + dev_blksz ops - 1).
  { unfold b. pose proof (Z.div_mod (n + (dev_blksz ops - 1)) (dev_blksz ops)). pose proof (Z.mod_pos_bound (n + (dev_blksz ops - 1)) (dev_blksz ops)).
    pose proof (Z.div_pos (n + (dev_blksz ops - 1)) (dev_blksz ops)). lia. }
  set (st := u64 _). pose proof (bb_read (dev s1) m st b (proj1 Hb)) as Hg. destruct (dread ops (dev s1) m st b) as [[d' r'] got]. cbn [snd] in Hg.
  destruct (store_in_place mem got off) as (mem' & -> & Hm); [lia|]. cbn [mbind option_bind]. by eexists _, _.
Qed.

(** ** The boot image *)

Lemma read_image_safe s bt name offset buff n : buffer buff -> 0 <= n <= MAX_ANDROID_IMG_SIZE ->
  exists s' buff', read_image ops env_get simple_strtol rom_spi_boot malloc_table ram s bt name offset buff (Z.to_nat CUSTKEY_SIZE) n = Some (s', buff') /\
    buffer buff'.
Proof.
  intros Hb Hn. unfold buffer, MAX_ANDROID_IMG_SIZE, CUSTKEY_SIZE in *. destruct bt; cbn [read_image].
  - destruct bb_blksz as (j & Hj & Ej). assert (Hb1 : dev_blksz ops <= 4096) by (rewrite Ej; change 4096 with (2 ^ 12); apply Z.pow_le_mono_r; lia).
    destruct (read_from_offset_safe s name buff (Z.to_nat (5 * 1024)) n 0) as (s' & b' & E & Hl); [lia|lia|]. exists s', b'. split; [exact E|lia].
  - by exists s, buff.
  - destruct (store_in_place buff (rng ram offset (Z.to_nat n)) (Z.to_nat (5 * 1024))) as (b' & -> & Hl); [rewrite length_rng; lia|].
    cbn [mbind option_bind]. exists s, b'. split; [done|lia].
Qed.

Lemma load_safe s bt name offset buff : buffer buff -> exists s' buff' p,
  load_android_image ops env_get simple_strtol rom_spi_boot malloc_table tee_verify_image ram s bt name offset buff = Some (s', buff', p) /\
  buffer buff' /\ forall q, p = Some q -> q = (hdr_off + GENX_IMAGE_HEADER_LINUX_SIZE)%nat.
Proof.
  intros Hb. unfold load_android_image. destruct (read_image_safe s bt name offset buff MAX_PAGESIZE Hb) as (s1 & b1 & -> & Hb1);
    [unfold MAX_PAGESIZE, MAX_ANDROID_IMG_SIZE; lia|]. cbn [mbind option_bind]. cbv zeta.
  rewrite decide_False by (unfold buffer, MAX_ANDROID_IMG_SIZE, CUSTKEY_SIZE, PREPEND_IMAGE_INFO_SIZE in *; lia).
  destruct (_ =? IMG_INFO_MAGIC); cbn [negb]; [|by exists s1, b1, None]. set (isz := ALIGN16 _). pose proof (ALIGN16_range (field b1 (Z.to_nat CUSTKEY_SIZE + 8) 4)) as Hr.
  fold isz in Hr. destruct (Z.ltb_spec MAX_ANDROID_IMG_SIZE (u32 (isz + PREPEND_IMAGE_INFO_SIZE))); cbn [orb]; [by exists s1, b1, None|].
  destruct (Z.ltb_spec (u32 (isz + PREPEND_IMAGE_INFO_SIZE)) MIN_ANDROID_IMG_SIZE); [by exists s1, b1, None|].
  pose proof (u32_range (isz + PREPEND_IMAGE_INFO_SIZE)) as Hu. unfold is_u32 in Hu.
  destruct (read_image_safe s1 bt name offset b1 (u32 (isz + PREPEND_IMAGE_INFO_SIZE)) Hb1) as (s2 & b2 & -> & Hb2); [lia|]. cbn [mbind option_bind].
  assert (Hisz : isz + PREPEND_IMAGE_INFO_SIZE <= MAX_ANDROID_IMG_SIZE) by (rewrite <- u32_add_info; lia).
  unfold buffer, MAX_ANDROID_IMG_SIZE, CUSTKEY_SIZE, PREPEND_IMAGE_INFO_SIZE in Hb2, Hisz |- *. rewrite decide_False by lia.
  destruct (tee_verify_image _ _) as [ret out].
  destruct (store_in_place b2 (take (Z.to_nat isz) out) (Z.to_nat (5 * 1024) + Z.to_nat 64)) as (b3 & -> & Hl3); [rewrite length_take; lia|].
  cbn [mbind option_bind]. destruct (ret <=? 0); eexists _, _, _; (split; [reflexivity|]); (split; [lia|]); [done|]. intros q [= <-]. reflexivity.
Qed.
End Bounded.

(** ** The firmware of the System Manager *)

Lemma chunk_at_range b i c : is_bytes b -> chunk_at b i = Some c -> 0 <= offset c < 2 ^ 32 /\ 0 <= GenImage.size c < 2 ^ 32.
Proof.
  intros Hb. unfold chunk_at. case_decide as Hd; [|done]. intros [= <-]. cbn [chunk_of_bytes offset GenImage.size].
  set (t := take 32 _). assert (Ht : is_bytes t) by (now apply Forall_take, Forall_drop).
  assert (H : forall o, 0 <= field t o 4 < 2 ^ 32); [|split; apply H]. intros o. split; [now apply field_nonneg|].
  unfold field. pose proof (le_val_bound (take 4 (drop o t)) ltac:(now apply Forall_take, Forall_drop)) as Hv.
  eapply Z.lt_le_trans; [apply Hv|]. change (2 ^ 32) with (256 ^ 4). apply Z.pow_le_mono_r; [lia|]. rewrite length_take. lia.
Qed.

Section Firmware.
Context {D : Type} {ops : blk D} (env_get : bytes -> option bytes) (simple_strtol : bytes -> Z) (rom_spi_boot : bool).
Context (malloc_table : option (list emmc_part)) (stack heap : bytes) (get_boot_slot : Z) (tee_verify_image : Z -> bytes -> Z * bytes).
Context `{!ReliableBlk ops (get_mmc_boot_dev rom_spi_boot)}.
Variables (minf : disk_partition_t) (k : Z) (inf : disk_partition_t) (payload header : bytes).
Implicit Types (s : mmc_state D).

Definition firmware_name (c : misc_boot_ctrl) : bytes := if negb (choose c =? 0) then FIRMWARE_B_NAME else FIRMWARE_A_NAME.

Definition fw_header s : bytes := rng (bcontents (dev s)) (at_byte (ops := ops) inf + PREPEND_IMAGE_INFO_SIZE) (Z.to_nat (MAX_PAGESIZE - PREPEND_IMAGE_INFO_SIZE)).

(** A device of 512-byte blocks whose current slot has a firmware partition with
    the chunk [c] for the System Manager; the buffers that were asked for. *)
Record firmware s (c : chunk_param) : Prop := mk_firmware {
  fw_active : get_mmc_active_dev env_get simple_strtol rom_spi_boot = get_mmc_boot_dev rom_spi_boot;
  fw_misc : misc_ok rom_spi_boot stack heap minf k;
  fw_plain : plain s;
  fw_valid : is_valid_bootctrl (meta rom_spi_boot minf s) = true;
  fw_blksz : dev_blksz ops = 512;
  fw_part : found rom_spi_boot (firmware_name (meta rom_spi_boot minf s)) inf /\ MAX_PAGESIZE <= size inf * 512;
  fw_magic : le_val (rng (bcontents (dev s)) (at_byte (ops := ops) inf + 4) 2) = IMG_INFO_MAGIC;
  fw_chunk : exists i, 0 <= i /\ find_chunk IMAGE_CHUNK_ID_SM_FW (fw_header s) = Some i /\ chunk_at (fw_header s) i = Some c;
  fw_offset : offset c + PREPEND_IMAGE_INFO_SIZE < 2 ^ 32;
  fw_buffers : Z.of_nat (length payload) = SYNA_SM_MAX_FW_SIZE /\ Z.of_nat (length header) = MAX_PAGESIZE;
}.

(** The aligned read. *)
Definition fw_read_offset (c : chunk_param) : Z := (offset c + PREPEND_IMAGE_INFO_SIZE) / SDIO_BLK_SIZE * SDIO_BLK_SIZE.
Definition fw_read_size (c : chunk_param) : Z := (GenImage.size c + 2 * SDIO_BLK_SIZE - 1) / SDIO_BLK_SIZE * SDIO_BLK_SIZE.

(** What is left after the header has been read. *)
Lemma firmware_header s c : firmware s c ->
  exists s1, same s s1 /\
  syna_load_sm ops env_get simple_strtol rom_spi_boot malloc_table stack heap get_boot_slot tee_verify_image s (Some payload) (Some header) =
  ('(s, payload) ← fb_mmc_flash_read_from_offset ops env_get simple_strtol rom_spi_boot malloc_table s1
      (firmware_name (meta rom_spi_boot minf s)) payload 0 (u32 (u32 (GenImage.size c + 2 * SDIO_BLK_SIZE - 1) / SDIO_BLK_SIZE * SDIO_BLK_SIZE)) (fw_read_offset c);
   let aligned_offset := offset c + PREPEND_IMAGE_INFO_SIZE - fw_read_offset c in
   if decide (length payload < Z.to_nat (aligned_offset + GenImage.size c))%nat then None
   else
     let '(ret, out) := tee_verify_image IMAGE_TYPE_SM (take (Z.to_nat (GenImage.size c)) (drop (Z.to_nat aligned_offset) payload)) in
     Some (s, if ret <=? 0 then -1 else 0)).
Proof.
  intros [Hact Hm Hp Hv Hbs [Hfo Hsz] Hmg (i & Hi & Hf & Hc) Hoff [Hpl Hhl]]. unfold syna_load_sm.
  destruct (current_slot_ok rom_spi_boot malloc_table stack heap minf k Hm s get_boot_slot Hp Hv) as (s1 & -> & Hs1). cbn [mbind option_bind].
  fold (firmware_name (meta rom_spi_boot minf s)). unfold fb_mmc_flash_read.
  assert (Hblk : blocks (ops := ops) MAX_PAGESIZE = 16) by (unfold blocks; rewrite Hbs; reflexivity).
  destruct (read_from_offset_ok env_get simple_strtol rom_spi_boot malloc_table Hact s1 _ inf header 0 MAX_PAGESIZE 0 (proj1 Hs1) Hfo) as (s2 & -> & Hs2);
    [unfold MAX_PAGESIZE; lia|lia|apply Z.divide_0_r|rewrite Hblk; unfold MAX_PAGESIZE in Hsz; lia|rewrite Hblk, Hbs; unfold MAX_PAGESIZE in Hhl; lia|].
  cbn [mbind option_bind]. rewrite Hblk, Hbs, Z.add_0_r. unfold MAX_PAGESIZE in Hhl. set (got := rng _ _ _).
  assert (Hgl : length got = length header) by (unfold got; rewrite length_rng; lia).
  assert (Eh : splice header 0 got = got) by (unfold splice; cbn [take app]; rewrite drop_ge, app_nil_r by lia; done). rewrite Eh.
  assert (Hgot : forall o n, (o + n <= Z.to_nat 8192)%nat -> take n (drop o got) = rng (bcontents (dev s)) (at_byte (ops := ops) inf + Z.of_nat o) n).
  { intros o n Ho. unfold got. rewrite rng_sub by lia. apply rng_ext. intros x _. apply Hs1. }
  rewrite decide_False by (rewrite Hgl; unfold PREPEND_IMAGE_INFO_SIZE; lia). unfold field at 1. rewrite Hgot by lia. change (Z.of_nat 4) with 4. rewrite Hmg.
  cbn [Z.eqb negb IMG_INFO_MAGIC Pos.eqb].
  assert (Ed : drop (Z.to_nat PREPEND_IMAGE_INFO_SIZE) got = fw_header s).
  { rewrite <- (take_ge (drop _ got) (Z.to_nat (MAX_PAGESIZE - PREPEND_IMAGE_INFO_SIZE))) by (rewrite length_drop; unfold MAX_PAGESIZE, PREPEND_IMAGE_INFO_SIZE; lia).
    rewrite Hgot by (unfold MAX_PAGESIZE, PREPEND_IMAGE_INFO_SIZE; lia). reflexivity. }
  rewrite Ed, Hf. cbn [mbind option_bind]. rewrite (proj2 (Z.ltb_ge i 0)) by lia. rewrite Hc. cbn [mbind option_bind].
  assert (Hr : 0 <= offset c < 2 ^ 32) by (eapply (chunk_at_range (fw_header s)); [apply rng_bytes; intros x; apply b_byte|exact Hc]).
  rewrite (u32_id (offset c + PREPEND_IMAGE_INFO_SIZE)) by (unfold is_u32, PREPEND_IMAGE_INFO_SIZE in *; lia).
  exists s2. split; [by eapply same_trans|]. reflexivity.
Qed.

(** The sizes of the aligned read: whole blocks that hold the chunk. *)
Lemma fw_read_bounds (o n : Z) : 0 <= o -> 0 <= n ->
  let a := o + PREPEND_IMAGE_INFO_SIZE - (o + PREPEND_IMAGE_INFO_SIZE) / SDIO_BLK_SIZE * SDIO_BLK_SIZE in
  0 <= a /\ a + n <= (n + 2 * SDIO_BLK_SIZE - 1) / SDIO_BLK_SIZE * SDIO_BLK_SIZE < n + 2 * SDIO_BLK_SIZE.
Proof.
  unfold PREPEND_IMAGE_INFO_SIZE, SDIO_BLK_SIZE. intros Ho Hn. cbv zeta. pose proof (Z.div_mod (o + 64) 512). pose proof (Z.mod_pos_bound (o + 64) 512).
  pose proof (Z.div_mod (n + 2 * 512 - 1) 512). pose proof (Z.mod_pos_bound (n + 2 * 512 - 1) 512). lia.
Qed.

Lemma firmware_chunk s c : firmware s c ->
  0 <= offset c /\ 0 <= GenImage.size c /\ 0 <= offset c + PREPEND_IMAGE_INFO_SIZE - fw_read_offset c /\
  offset c + PREPEND_IMAGE_INFO_SIZE - fw_read_offset c + GenImage.size c <= fw_read_size c < GenImage.size c + 2 * SDIO_BLK_SIZE.
Proof.
  intros [_ _ _ _ _ _ _ (i & _ & _ & Hc) _ _].
  destruct (chunk_at_range (fw_header s) i c) as [Hro Hrs]; [apply rng_bytes; intros x; apply b_byte|exact Hc|].
  pose proof (fw_read_bounds (offset c) (GenImage.size c) ltac:(lia) ltac:(lia)) as [Ha Hb]. split; [lia|]. split; [lia|]. by split.
Qed.

Lemma firmware_read s c : firmware s c -> GenImage.size c + 2 * SDIO_BLK_SIZE - 1 < 2 ^ 32 -> fw_read_size c <= size inf * 512 ->
  exists s1, same s s1 /\
  syna_load_sm ops env_get simple_strtol rom_spi_boot malloc_table stack heap get_boot_slot tee_verify_image s (Some payload) (Some header) =
  (payload ← store_at payload 0 (rng (bcontents (dev s)) (at_byte (ops := ops) inf + fw_read_offset c) (Z.to_nat (fw_read_size c)));
   let aligned_offset := offset c + PREPEND_IMAGE_INFO_SIZE - fw_read_offset c in
   if decide (length payload < Z.to_nat (aligned_offset + GenImage.size c))%nat then None
   else
     let '(ret, out) := tee_verify_image IMAGE_TYPE_SM (take (Z.to_nat (GenImage.size c)) (drop (Z.to_nat aligned_offset) payload)) in
     Some (s1, if ret <=? 0 then -1 else 0)).
Proof.
  intros Hfw Hw Hsz. destruct (firmware_header s c Hfw) as (s1 & Hs1 & ->). destruct (firmware_chunk s c Hfw) as (Hro & Hrs & Ha & Hb1 & Hb2).
  destruct Hfw as [Hact _ _ _ Hbs [Hfo _] _ _ Hoff _].
  assert (Er : u32 (u32 (GenImage.size c + 2 * SDIO_BLK_SIZE - 1) / SDIO_BLK_SIZE * SDIO_BLK_SIZE) = fw_read_size c).
  { rewrite (u32_id (GenImage.size c + 2 * SDIO_BLK_SIZE - 1)) by (unfold is_u32, SDIO_BLK_SIZE in *; lia). fold (fw_read_size c).
    apply u32_id. unfold is_u32. unfold SDIO_BLK_SIZE in Hw, Hb2. lia. }
  rewrite Er. assert (Eb : blocks (ops := ops) (fw_read_size c) * 512 = fw_read_size c).
  { unfold blocks. rewrite Hbs. unfold fw_read_size, SDIO_BLK_SIZE. set (q := (GenImage.size c + 2 * 512 - 1) / 512). replace (q * 512 + (512 - 1)) with (511 + q * 512) by lia. rewrite Z.div_add by lia. change (511 / 512) with 0. lia. }
  destruct (read_from_offset_at env_get simple_strtol rom_spi_boot malloc_table Hact s1 (firmware_name (meta rom_spi_boot minf s)) inf payload 0 (fw_read_size c) (fw_read_offset c) (proj1 Hs1) Hfo)
    as (s2 & -> & Hs2).
  - unfold SDIO_BLK_SIZE in *. lia.
  - split; [|unfold PREPEND_IMAGE_INFO_SIZE in *; lia]. unfold fw_read_offset, SDIO_BLK_SIZE, PREPEND_IMAGE_INFO_SIZE. pose proof (Z.div_pos (offset c + 64) 512). lia.
  - rewrite Hbs. unfold fw_read_offset, SDIO_BLK_SIZE. apply Z.divide_factor_r.
  - lia.
  - exists s2. split; [by eapply same_trans|]. rewrite Hbs, Eb.
    rewrite (rng_ext _ (bcontents (dev s))) by (intros x _; apply Hs1). destruct (store_at _ _ _); reflexivity.
Qed.

End Firmware.

(** ** Properties *)

(** C12: The boot image stays inside its buffer.  On any device, working or not, with
    any contents and any partition table, from any of the three sources and with
    any TEE, load_android_image makes no access outside the buffer that
    do_syna_boot allocates, keeps the size of that buffer, and returns NULL or the
    address of the kernel in it. *)
Theorem load_android_image_safe {D : Type} (ops : blk D) `{!BoundedBlk ops} env_get strtol (spi : bool) (table : option (list emmc_part)) tee ram
    (s : mmc_state D) (bt : boot_type_t) (name : bytes) (off : Z) (buff : bytes) :
  (forall t, table = Some t -> Z.of_nat (length t) = MAX_GPT_ENTRY) -> buffer buff ->
  exists s' buff' p, load_android_image ops env_get strtol spi table tee ram s bt name off buff = Some (s', buff', p) /\
    buffer buff' /\ forall q, p = Some q -> q = (hdr_off + GENX_IMAGE_HEADER_LINUX_SIZE)%nat.
Proof. intros Ht Hb. now apply load_safe. Qed.

(** The System Manager is verified as it lies on the device.  When the aligned
    read of its chunk fits in the buffer and in the partition, syna_load_sm
    succeeds exactly when the TEE accepts the bytes of the chunk, found after the
    prepended image info at the offset that the header of the current slot's
    firmware gives, and the device keeps its contents. *)
Theorem syna_load_sm_verifies {D : Type} (ops : blk D) env_get strtol (spi : bool) table stack heap boot_slot tee
    `{!ReliableBlk ops (get_mmc_boot_dev spi)} (minf inf : disk_partition_t) (k : Z) (payload header : bytes) (s : mmc_state D) (c : chunk_param) :
  firmware (ops := ops) env_get strtol spi stack heap minf k inf payload header s c ->
  fw_read_size c <= SYNA_SM_MAX_FW_SIZE -> fw_read_size c <= size inf * 512 ->
  exists s', same s s' /\
    syna_load_sm ops env_get strtol spi table stack heap boot_slot tee s (Some payload) (Some header) =
    Some (s', if (tee IMAGE_TYPE_SM (rng (bcontents (dev s)) (at_byte (ops := ops) inf + PREPEND_IMAGE_INFO_SIZE + offset c)
                   (Z.to_nat (GenImage.size c)))).1 <=? 0 then -1 else 0).
Proof.
  intros Hfw Hmax Hsz. pose proof (firmware_chunk _ _ _ _ _ _ _ _ _ _ _ _ Hfw) as (Hro & Hrs & Ha & Hb1 & Hb2). destruct (fw_buffers _ _ _ _ _ _ _ _ _ _ _ _ Hfw) as [Hpl _].
  unfold SYNA_SM_MAX_FW_SIZE in *. destruct (firmware_read env_get strtol spi table stack heap boot_slot tee minf k inf payload header s c Hfw) as (s1 & Hs1 & ->);
    [unfold SDIO_BLK_SIZE, PREPEND_IMAGE_INFO_SIZE in *; lia|done|].
  set (a := offset c + PREPEND_IMAGE_INFO_SIZE - fw_read_offset c) in *. rewrite store_at_ok by (rewrite length_rng; lia). cbn [mbind option_bind]. cbv zeta.
  rewrite decide_False by (rewrite length_splice by (rewrite length_rng; lia); lia).
  change (Z.to_nat a) with (0 + Z.to_nat a)%nat. rewrite take_drop_splice by (rewrite length_rng; lia). rewrite rng_sub by lia.
  replace (at_byte (ops := ops) inf + fw_read_offset c + Z.of_nat (Z.to_nat a)) with (at_byte (ops := ops) inf + PREPEND_IMAGE_INFO_SIZE + offset c) by lia.
  destruct (tee IMAGE_TYPE_SM _) as [ret out]. exists s1. by split.
Qed.

(** The size in the header is not checked against the buffer of 0x20000 bytes: a
    chunk whose aligned read is larger, in a partition that holds it, is read
    past the end of the buffer, before anything of it has been verified. *)
Theorem syna_load_sm_overflows {D : Type} (ops : blk D) env_get strtol (spi : bool) table stack heap boot_slot tee
    `{!ReliableBlk ops (get_mmc_boot_dev spi)} (minf inf : disk_partition_t) (k : Z) (payload header : bytes) (s : mmc_state D) (c : chunk_param) :
  firmware (ops := ops) env_get strtol spi stack heap minf k inf payload header s c ->
  SYNA_SM_MAX_FW_SIZE < fw_read_size c -> fw_read_size c <= size inf * 512 -> GenImage.size c + 2 * SDIO_BLK_SIZE - 1 < 2 ^ 32 ->
  syna_load_sm ops env_get strtol spi table stack heap boot_slot tee s (Some payload) (Some header) = None.
Proof.
  intros Hfw Hmax Hsz Hw. destruct (fw_buffers _ _ _ _ _ _ _ _ _ _ _ _ Hfw) as [Hpl _]. unfold SYNA_SM_MAX_FW_SIZE in *.
  destruct (firmware_read env_get strtol spi table stack heap boot_slot tee minf k inf payload header s c Hfw Hw Hsz) as (s1 & _ & ->).
  unfold store_at. now rewrite decide_False by (rewrite length_rng; lia).
Qed.

Definition str_ram : bytes := [114; 97; 109].

(** Without a slot to fall back to, a failed load is not noticed: when the memory
    that "syna_boot ram <address>" is given has no image, boot_android_image gets
    NULL and reads through it. *)
Theorem syna_boot_ram_null {D : Type} (ops : blk D) env_get strtol (spi : bool) table stack heap boot_slot strtoul tee ram ion_addr
    (buff : bytes) (s : mmc_state D) (o : bytes) :
  buffer buff -> le_val (rng ram (u32 (strtoul o) + 4) 2) <> IMG_INFO_MAGIC ->
  do_syna_boot ops env_get strtol spi table stack heap boot_slot strtoul tee ram (Some buff) ion_addr s [str_ram; o] = None.
Proof.
  intros Hb Hm. unfold do_syna_boot. cbn [get_boot_type str_ram]. change retry_fuel with (S (Z.to_nat 255)).
  replace (get_boot_type str_ram) with (Some BOOT_TYPE_RAM) by done. cbn [retry_image_load]. unfold load_android_image. cbn [read_image].
  unfold buffer, MAX_ANDROID_IMG_SIZE in Hb. rewrite store_at_ok by (rewrite length_rng; unfold CUSTKEY_SIZE, MAX_PAGESIZE; lia). cbn [mbind option_bind].
  rewrite decide_False by (rewrite length_splice; rewrite ?length_rng; unfold CUSTKEY_SIZE, MAX_PAGESIZE, PREPEND_IMAGE_INFO_SIZE; lia).
  rewrite field_splice by (rewrite length_rng; unfold CUSTKEY_SIZE, MAX_PAGESIZE; lia). rewrite field_rng by (unfold MAX_PAGESIZE; lia).
  change (Z.of_nat 4) with 4. now rewrite (proj2 (Z.eqb_neq _ _) Hm).
Qed.

#[global] Instance sample_bounded : BoundedBlk (ram_ops sample_table).
Proof.
  split.
  - exists 9. split; [lia|done].
  - intros d m i inf. cbn. destruct (hw d =? 0); [|done]. unfold sample_table. repeat (case_match; [intros [= <-]; done|]). done.
  - intros d m a n Hn. cbn. rewrite length_rng. lia.
Defined.

Lemma load_android_image_safe_witness : exists s' buff' p,
  load_android_image (ram_ops sample_table) (fun _ => None) (fun _ => 0) false None (fun _ _ => (1, [])) (fun _ => 0)
    (sample_mmc (fun _ => 0) sample_ctrl) BOOT_TYPE_MMC KERNEL_A_NAME 0 (replicate (Z.to_nat (MAX_ANDROID_IMG_SIZE + 0x100000)) 0) = Some (s', buff', p) /\
  buffer buff' /\ forall q, p = Some q -> q = (hdr_off + GENX_IMAGE_HEADER_LINUX_SIZE)%nat.
Proof.
  apply (load_android_image_safe (ram_ops sample_table)); [done|]. unfold buffer. rewrite length_replicate. unfold MAX_ANDROID_IMG_SIZE. lia.
Defined.

Lemma syna_boot_ram_null_witness :
  do_syna_boot (ram_ops sample_table) (fun _ => None) (fun _ => 0) false None [] [] 0 (fun _ => 0x1000) (fun _ _ => (1, [])) (fun _ => 0)
    (Some (replicate (Z.to_nat (MAX_ANDROID_IMG_SIZE + 0x100000)) 0)) 0 (sample_mmc (fun _ => 0) sample_ctrl) [str_ram; [49]] = None.
Proof.
  apply (syna_boot_ram_null (ram_ops sample_table)); [|done]. unfold buffer. rewrite length_replicate. unfold MAX_ANDROID_IMG_SIZE. lia.
Defined.

(** A firmware partition with a chunk of [n] bytes for the System Manager. *)
Definition sample_chunk (n : Z) : chunk_param := chunk_of_bytes (le32 IMAGE_CHUNK_ID_SM_FW ++ le32 8192 ++ le32 n ++ replicate 20 0).

Definition sample_firmware (n : Z) : mmc_state ramblk :=
  sample_mmc (upd (upd (fun _ => 0) 83886084 [29; 225]) 83886204 (le32 1 ++ le32 IMAGE_CHUNK_ID_SM_FW ++ le32 8192 ++ le32 n ++ replicate 20 0)) sample_ctrl.

Definition firmware_inf : disk_partition_t := mk_disk_part 163840 4096 512 FIRMWARE_A_NAME.

Definition sample_payload : bytes := replicate (Z.to_nat SYNA_SM_MAX_FW_SIZE) 0.
Definition sample_header : bytes := replicate (Z.to_nat MAX_PAGESIZE) 0.

Ltac sample_fw :=
  split; [done|exact sample_misc_ok|by left|vm_compute; reflexivity|done|split; [split; [done|by eexists|split; cbn; lia]|cbn; unfold MAX_PAGESIZE; lia]
    |vm_compute; reflexivity|exists 0; split; [lia|split; vm_compute; reflexivity]|vm_compute; reflexivity
    |unfold sample_payload, sample_header; rewrite !length_replicate; unfold SYNA_SM_MAX_FW_SIZE, MAX_PAGESIZE; lia].

Lemma sample_firmware_ok : firmware (ops := ram_ops sample_table) (fun _ => None) (fun _ => 0) false (replicate (Z.to_nat 512) 0) (replicate (Z.to_nat 512) 0)
  sample_misc 1 firmware_inf sample_payload sample_header (sample_firmware 1000) (sample_chunk 1000).
Proof. sample_fw. Qed.

Lemma large_firmware_ok : firmware (ops := ram_ops sample_table) (fun _ => None) (fun _ => 0) false (replicate (Z.to_nat 512) 0) (replicate (Z.to_nat 512) 0)
  sample_misc 1 firmware_inf sample_payload sample_header (sample_firmware 0x30000) (sample_chunk 0x30000).
Proof. sample_fw. Qed.

Lemma syna_load_sm_verifies_witness : exists s',
  syna_load_sm (ram_ops sample_table) (fun _ => None) (fun _ => 0) false None (replicate (Z.to_nat 512) 0) (replicate (Z.to_nat 512) 0) 0
    (fun _ b => (Z.of_nat (length b), b)) (sample_firmware 1000) (Some sample_payload) (Some sample_header) = Some (s', 0).
Proof.
  destruct (syna_load_sm_verifies (ram_ops sample_table) _ _ _ None _ _ 0 (fun _ b => (Z.of_nat (length b), b)) _ _ _ _ _ _ _ sample_firmware_ok) as (s' & _ & E);
    [vm_compute; discriminate|vm_compute; discriminate|]. exists s'. rewrite E. cbn [fst]. rewrite length_rng. reflexivity.
Defined.

Lemma syna_load_sm_overflows_witness :
  syna_load_sm (ram_ops sample_table) (fun _ => None) (fun _ => 0) false None (replicate (Z.to_nat 512) 0) (replicate (Z.to_nat 512) 0) 0
    (fun _ b => (Z.of_nat (length b), b)) (sample_firmware 0x30000) (Some sample_payload) (Some sample_header) = None.
Proof.
  apply (syna_load_sm_overflows (ram_ops sample_table) _ _ _ None _ _ 0 (fun _ b => (Z.of_nat (length b), b)) _ _ _ _ _ _ _ large_firmware_ok);
    vm_compute; reflexivity || discriminate.
Defined.
