(* ===== verification/Cec.v ===== *)
(** * HDMI-CEC in standby (sm_cm3/syna/src/cec)

    sm_cec.c drives the CEC controller: the interrupt handler and the services
    hand frames to the task through two queues, and the task transmits them;
    cec_srv.c turns frames into messages and answers them, or wakes the system
    up.  The build is the one with HWCEC, without BUDDY_RELEASE.  Of the registers
    of the controller the interrupt enables are part of the state; transmissions,
    resets and messages to the SoC are recorded as effects. *)

From S2P Require Import Prelude PowerFlow.

(** ** Constants (cec_type.h, cec_prv.h, sm_common.h)

    [OP_] is CEC_MSG_OPCODE_. *)

Definition CEC_TX_TIMEOUT : Z := 6000.
Definition CEC_CMD_RX_MSG : Z := 0.
Definition CEC_CMD_RX_FAILED : Z := 1.
Definition CEC_CMD_TX_MSG : Z := 2.
Definition CEC_CMD_TX_DONE : Z := 3.
Definition CEC_CMD_TX_FAILED : Z := 4.
Definition CEC_CMD_EXIT : Z := 5.
Definition CEC_MODE_UNICAST : Z := 1.
Definition CEC_MODE_BROADCAST : Z := 2.
Definition CEC_BROADCAST_DESTADDR : Z := 0xF.
Definition CEC_MAX_MSG_LEN : Z := 16.
Definition OSD_NAME_MAX_LENGTH : nat := 14.
Definition MAX_RETRANS_TIME : Z := 5.
Definition CEC_FIFO_LENGTH : Z := 3.
Definition MAX_SOC_REQ_LENGTH : nat := 28.
Definition CEC_DEVICE_TV : Z := 0.
Definition CEC_DEVICE_RES : Z := 2.
Definition CEC_TX_SIGNAL_FREE_TIME : Z := 7 * 2400.
Definition CEC_RETX_SIGNAL_FREE_TIME : Z := 5 * 2400.

Definition CEC_FAIL_NONE : Z := 0.
Definition CEC_TX_FAIL_LINE_BUSY : Z := 1.
Definition CEC_TX_FAIL_SIGNAL_FREE_TIME : Z := 2.
Definition CEC_TX_FAIL_INDATA : Z := 4.
Definition CEC_TX_FAIL_NACK : Z := 5.

Definition CEC_STATUS_SUCCESS : Z := 0.
Definition CEC_STATUS_ERR_MSG_UNSUPPORTED : Z := 3.
Definition CEC_STATUS_ERR_MSG_IGNORED : Z := 5.

Definition CEC_ABORT_REASON_UNREC_OPCODE : Z := 0.
Definition CEC_ABORT_REASON_INV_MODE_TO_RESPOND : Z := 1.
Definition CEC_ABORT_REASON_REFUSED : Z := 4.

Definition OP_FEATURE_ABORT : Z := 0x00.
Definition OP_ABORT : Z := 0xFF.
Definition OP_ACTIVE_SOURCE : Z := 0x82.
Definition OP_IMAGE_VIEW_ON : Z := 0x04.
Definition OP_TEXT_VIEW_ON : Z := 0x0D.
Definition OP_REQUEST_ACTIVE_SOURCE : Z := 0x85.
Definition OP_SET_STREAM_PATH : Z := 0x86.
Definition OP_ROUTING_CHANGE : Z := 0x80.
Definition OP_ROUTING_INFO : Z := 0x81.
Definition OP_INACTIVE_SOURCE : Z := 0x9D.
Definition OP_STANDBY : Z := 0x36.
Definition OP_RECORD_STATUS : Z := 0x0A.
Definition OP_RECORD_TV_SCREEN : Z := 0x0F.
Definition OP_GET_MENU_LANG : Z := 0x91.
Definition OP_GIVE_PHY_ADDR : Z := 0x83.
Definition OP_REPORT_PHY_ADDR : Z := 0x84.
Definition OP_SET_MENU_LANG : Z := 0x32.
Definition OP_CEC_VERSION : Z := 0x9E.
Definition OP_GET_CEC_VERSION : Z := 0x9F.
Definition OP_DECK_STATUS : Z := 0x1B.
Definition OP_GIVE_DECK_STATUS : Z := 0x1A.
Definition OP_DECK_CONTROL : Z := 0x42.
Definition OP_PLAY : Z := 0x41.
Definition OP_TUNER_DEVICE_STATUS : Z := 0x07.
Definition OP_DEVICE_VENDOR_ID : Z := 0x87.
Definition OP_GIVE_DEVICE_VENDOR_ID : Z := 0x8C.
Definition OP_VENDOR_COMMAND : Z := 0x89.
Definition OP_VENDOR_COMMAND_WITH_ID : Z := 0xA0.
Definition OP_VENDOR_REMOTE_BTN_DOWN : Z := 0x8A.
Definition OP_VENDOR_REMOTE_BTN_UP : Z := 0x8B.
Definition OP_GIVE_OSD_NAME : Z := 0x46.
Definition OP_SET_OSD_NAME : Z := 0x47.
Definition OP_USER_CONTROL_PRESSED : Z := 0x44.
Definition OP_USER_CONTROL_RELEASED : Z := 0x45.
Definition OP_MENU_REQUEST : Z := 0x8D.
Definition OP_MENU_STATUS : Z := 0x8E.
Definition OP_GIVE_DEVICE_POWER_STATUS : Z := 0x8F.
Definition OP_REPORT_POWER_STATUS : Z := 0x90.
Definition OP_REPORT_AUDIO_STATUS : Z := 0x7A.
Definition OP_SET_SYS_AUDIO_MODE : Z := 0x72.
Definition OP_TIMER_CLEARED_STATUS : Z := 0x43.
Definition OP_TIMER_STATUS : Z := 0x35.

Definition CEC_UC_POWER : Z := 0x40.
Definition CEC_UC_PLAY : Z := 0x44.
Definition CEC_UC_EJECT : Z := 0x4A.
Definition CEC_UC_PLAY_FN : Z := 0x60.
Definition CEC_UC_POWER_TOGGLE : Z := 0x6B.
Definition CEC_UC_POWER_ON : Z := 0x6D.
Definition CEC_PLAY_MODE_FORWARD : Z := 0x24.
Definition CEC_DECK_CTRL_MODE_EJECT : Z := 0x04.
Definition CEC_DECK_INFO_STOP : Z := 0x1A.
Definition CEC_STATUS_REQUEST_ON : Z := 0x01.
Definition CEC_STATUS_REQUEST_OFF : Z := 0x02.
Definition CEC_PWR_STS_STANDBY : Z := 1.
Definition CEC_PWR_STS_IN_TRANS_STANDBY_TO_ON : Z := 2.
Definition CEC_PWR_STS_IN_TRANS_ON_TO_STANDBY : Z := 3.
Definition CEC_VERSION : Z := 4.
Definition CEC_VERSION_1_4a : Z := 5.

Definition MV_SM_CEC_APPREADY : Z := 0x1.
Definition MV_SM_CEC_INFO : Z := 0x2.
Definition MV_SM_CEC_OSD_INFO : Z := 0x3.
Definition MV_SM_CEC_HDMICTRL_ONOFF : Z := 0x4.
Definition MV_SM_CEC_NO_APP_REQUESTED : Z := 0x6.
Definition MV_SM_CEC_ACTIVE_SOURCE_EVENT : Z := 0x7.
Definition MV_SM_CEC_STREAM_PATH_EVENT : Z := 0x8.
Definition MV_SM_CEC_UC_PRESSED_EVENT : Z := 0x9.
Definition MV_SM_CEC_WAKEUP_MSG : Z := 0xA.
Definition MV_SM_WAKEUP_SOURCE_CEC : Z := 4.

(** ** Data *)

(** [msg_cfg.mode] and [msg_cfg.retry] are the two used bit fields. *)
Record CEC_TASK_DATA := mk_data {
  cmd : Z; mode : Z; retry : Z; status : Z; msg_len : Z; msg_fifo : bytes; txtime : Z;
}.

(** The operand is the 16 bytes of the union. *)
Record CEC_MSG := mk_msg { srcAddr : Z; destAddr : Z; opcode : Z; operandlen : Z; operand : bytes }.

Record CECConfig := mk_config { iDeviceType : Z; iLogicAddr : Z; uiPhyAddr : Z; bActiveSource : Z; bValid : Z }.

Record CEC_MSG_TABLE := mk_entry { t_opcode : Z; t_len : Z; t_mode : Z; t_action : bool }.

Record fifo := mk_fifo { ucStart_index : Z; ucEnd_index : Z; ucFifo_buf : list CEC_TASK_DATA }.

Inductive CEC_TASK_STATE := CEC_TASK_STATE_IDLE | CEC_TASK_STATE_LISTENING | CEC_TASK_STATE_SENDING.

(** A transmission with its signal free time in microseconds, of a broadcast or
    not; the transmitter off; the receiver restarted; the controller reset or
    disabled; the interrupt of the controller; a logical address register; a
    message to the SoC. *)
Inductive cec_effect :=
| Transmit (free_time : Z) (broadcast : bool) (frame : bytes)
| TxOff | RxOn | CecReset | CecDisable | GlobalIrq (on : bool)
| LogicAddr (index addr : Z)
| ToSoc (body : bytes).

(** The static variables of the two files and the interrupt enable registers. *)
Record cec := mk_cec {
  isr_fifo : fifo;
  app_fifo : fifo;
  retrans_time : Z;
  tx_data : CEC_TASK_DATA;
  rx_data : CEC_TASK_DATA;
  taskstate : CEC_TASK_STATE;
  rememberHdmiCtrlState : Z;
  soc_length : Z;
  soc_operands : bytes;
  wakeup_msg : CEC_MSG;
  config : CECConfig;
  bCECTaskExit : bool;
  osd_name : bytes;
  host_tv : bool;
  intr_enable : Z;
  cec_out : list cec_effect;
}.

Definition set_isr_fifo (v : fifo) (c : cec) : cec :=
  mk_cec v (app_fifo c) (retrans_time c) (tx_data c) (rx_data c) (taskstate c) (rememberHdmiCtrlState c)
    (soc_length c) (soc_operands c) (wakeup_msg c) (config c) (bCECTaskExit c) (osd_name c) (host_tv c)
    (intr_enable c) (cec_out c).
Definition set_app_fifo (v : fifo) (c : cec) : cec :=
  mk_cec (isr_fifo c) v (retrans_time c) (tx_data c) (rx_data c) (taskstate c) (rememberHdmiCtrlState c)
    (soc_length c) (soc_operands c) (wakeup_msg c) (config c) (bCECTaskExit c) (osd_name c) (host_tv c)
    (intr_enable c) (cec_out c).
Definition set_retrans_time (v : Z) (c : cec) : cec :=
  mk_cec (isr_fifo c) (app_fifo c) v (tx_data c) (rx_data c) (taskstate c) (rememberHdmiCtrlState c)
    (soc_length c) (soc_operands c) (wakeup_msg c) (config c) (bCECTaskExit c) (osd_name c) (host_tv c)
    (intr_enable c) (cec_out c).
Definition set_tx_data (v : CEC_TASK_DATA) (c : cec) : cec :=
  mk_cec (isr_fifo c) (app_fifo c) (retrans_time c) v (rx_data c) (taskstate c) (rememberHdmiCtrlState c)
    (soc_length c) (soc_operands c) (wakeup_msg c) (config c) (bCECTaskExit c) (osd_name c) (host_tv c)
    (intr_enable c) (cec_out c).
Definition set_rx_data (v : CEC_TASK_DATA) (c : cec) : cec :=
  mk_cec (isr_fifo c) (app_fifo c) (retrans_time c) (tx_data c) v (taskstate c) (rememberHdmiCtrlState c)
    (soc_length c) (soc_operands c) (wakeup_msg c) (config c) (bCECTaskExit c) (osd_name c) (host_tv c)
    (intr_enable c) (cec_out c).
Definition set_taskstate (v : CEC_TASK_STATE) (c : cec) : cec :=
  mk_cec (isr_fifo c) (app_fifo c) (retrans_time c) (tx_data c) (rx_data c) v (rememberHdmiCtrlState c)
    (soc_length c) (soc_operands c) (wakeup_msg c) (config c) (bCECTaskExit c) (osd_name c) (host_tv c)
    (intr_enable c) (cec_out c).
Definition set_rememberHdmiCtrlState (v : Z) (c : cec) : cec :=
  mk_cec (isr_fifo c) (app_fifo c) (retrans_time c) (tx_data c) (rx_data c) (taskstate c) v (soc_length c)
    (soc_operands c) (wakeup_msg c) (config c) (bCECTaskExit c) (osd_name c) (host_tv c) (intr_enable c)
    (cec_out c).
Definition set_soc_length (v : Z) (c : cec) : cec :=
  mk_cec (isr_fifo c) (app_fifo c) (retrans_time c) (tx_data c) (rx_data c) (taskstate c)
    (rememberHdmiCtrlState c) v (soc_operands c) (wakeup_msg c) (config c) (bCECTaskExit c) (osd_name c)
    (host_tv c) (intr_enable c) (cec_out c).
Definition set_soc_operands (v : bytes) (c : cec) : cec :=
  mk_cec (isr_fifo c) (app_fifo c) (retrans_time c) (tx_data c) (rx_data c) (taskstate c)
    (rememberHdmiCtrlState c) (soc_length c) v (wakeup_msg c) (config c) (bCECTaskExit c) (osd_name c)
    (host_tv c) (intr_enable c) (cec_out c).
Definition set_wakeup_msg (v : CEC_MSG) (c : cec) : cec :=
  mk_cec (isr_fifo c) (app_fifo c) (retrans_time c) (tx_data c) (rx_data c) (taskstate c)
    (rememberHdmiCtrlState c) (soc_length c) (soc_operands c) v (config c) (bCECTaskExit c) (osd_name c)
    (host_tv c) (intr_enable c) (cec_out c).
Definition set_config (v : CECConfig) (c : cec) : cec :=
  mk_cec (isr_fifo c) (app_fifo c) (retrans_time c) (tx_data c) (rx_data c) (taskstate c)
    (rememberHdmiCtrlState c) (soc_length c) (soc_operands c) (wakeup_msg c) v (bCECTaskExit c) (osd_name c)
    (host_tv c) (intr_enable c) (cec_out c).
Definition set_bCECTaskExit (v : bool) (c : cec) : cec :=
  mk_cec (isr_fifo c) (app_fifo c) (retrans_time c) (tx_data c) (rx_data c) (taskstate c)
    (rememberHdmiCtrlState c) (soc_length c) (soc_operands c) (wakeup_msg c) (config c) v (osd_name c)
    (host_tv c) (intr_enable c) (cec_out c).
Definition set_osd_name (v : bytes) (c : cec) : cec :=
  mk_cec (isr_fifo c) (app_fifo c) (retrans_time c) (tx_data c) (rx_data c) (taskstate c)
    (rememberHdmiCtrlState c) (soc_length c) (soc_operands c) (wakeup_msg c) (config c) (bCECTaskExit c) v
    (host_tv c) (intr_enable c) (cec_out c).
Definition set_host_tv (v : bool) (c : cec) : cec :=
  mk_cec (isr_fifo c) (app_fifo c) (retrans_time c) (tx_data c) (rx_data c) (taskstate c)
    (rememberHdmiCtrlState c) (soc_length c) (soc_operands c) (wakeup_msg c) (config c) (bCECTaskExit c)
    (osd_name c) v (intr_enable c) (cec_out c).
Definition set_intr_enable (v : Z) (c : cec) : cec :=
  mk_cec (isr_fifo c) (app_fifo c) (retrans_time c) (tx_data c) (rx_data c) (taskstate c)
    (rememberHdmiCtrlState c) (soc_length c) (soc_operands c) (wakeup_msg c) (config c) (bCECTaskExit c)
    (osd_name c) (host_tv c) v (cec_out c).
Definition set_cec_out (v : list cec_effect) (c : cec) : cec :=
  mk_cec (isr_fifo c) (app_fifo c) (retrans_time c) (tx_data c) (rx_data c) (taskstate c)
    (rememberHdmiCtrlState c) (soc_length c) (soc_operands c) (wakeup_msg c) (config c) (bCECTaskExit c)
    (osd_name c) (host_tv c) (intr_enable c) v.

Definition cec_emit (e : cec_effect) (c : cec) : cec := set_cec_out (cec_out c ++ [e]) c.

Definition zero_data : CEC_TASK_DATA := mk_data 0 0 0 0 0 (replicate 16 0) 0.
Definition zero_msg : CEC_MSG := mk_msg 0 0 0 0 (replicate 16 0).

(** ** Queues *)

Definition CEC_FIFO_WRAP_AROUND (index : Z) : Z := if CEC_FIFO_LENGTH <=? index then 0 else index.

Definition cec_write_fifo (d : CEC_TASK_DATA) (f : fifo) : fifo * bool :=
  if CEC_FIFO_WRAP_AROUND (ucEnd_index f + 1) =? ucStart_index f then (f, false)
  else (mk_fifo (ucStart_index f) (CEC_FIFO_WRAP_AROUND (ucEnd_index f + 1)) (<[Z.to_nat (ucEnd_index f) := d]> (ucFifo_buf f)), true).

Definition cec_read_fifo (f : fifo) : option (option CEC_TASK_DATA * fifo) :=
  if ucStart_index f =? ucEnd_index f then Some (None, f)
  else d ← ucFifo_buf f !! Z.to_nat (ucStart_index f);
       Some (Some d, mk_fifo (CEC_FIFO_WRAP_AROUND (ucStart_index f + 1)) (ucEnd_index f) (ucFifo_buf f)).

Definition cec_clear_fifo (f : fifo) : fifo := mk_fifo 0 0 (ucFifo_buf f).

Definition cec_clear_data (d : CEC_TASK_DATA) : CEC_TASK_DATA := mk_data (cmd d) 0 0 0 0 (replicate 16 0) (txtime d).

Definition CEC_WRITE_ISR_FIFO (d : CEC_TASK_DATA) (c : cec) : cec := set_isr_fifo (cec_write_fifo d (isr_fifo c)).1 c.
Definition CEC_WRITE_APP_FIFO (d : CEC_TASK_DATA) (c : cec) : cec := set_app_fifo (cec_write_fifo d (app_fifo c)).1 c.
Definition cec_add_app_cmd (d : CEC_TASK_DATA) (c : cec) : cec := CEC_WRITE_APP_FIFO d c.

(** ** The controller *)

Definition CEC_INTR_TX_UNICAST_NOACK : Z := 0x0001.
Definition CEC_INTR_TX_BRDCAST_NOACK : Z := 0x0002.
Definition CEC_INTR_TX_COLLISION : Z := 0x0004.
Definition CEC_INTR_TX_SFT_FAIL : Z := 0x2008.
Definition CEC_INTR_TX_FAIL : Z := 0x200F.
Definition CEC_INTR_TX_COMPLETE : Z := 0x0010.
Definition CEC_INTR_RX_COMPLETE : Z := 0x0020.
Definition CEC_INTR_RX_FAIL : Z := 0x00C0.
Definition CEC_INTR_ALL : Z := 0x3FFF.

Definition has (reg flags : Z) : bool := negb (Z.land reg flags =? 0).

Definition cec_hw_enable_interrupt (intr : Z) (enable : bool) (c : cec) : cec :=
  set_intr_enable (if enable then Z.lor (intr_enable c) intr else Z.ldiff (intr_enable c) intr) c.

(** [CEC_INTR_ENABLE0]: the lower byte of the enables. *)
Definition disable0 (intr : Z) (c : cec) : cec := set_intr_enable (Z.ldiff (intr_enable c) (Z.land intr 0xff)) c.

Definition set_mode_tx (enable : bool) (c : cec) : cec :=
  if enable then cec_hw_enable_interrupt (Z.lor CEC_INTR_TX_FAIL CEC_INTR_TX_COMPLETE) true
                   (cec_hw_enable_interrupt (Z.lor CEC_INTR_TX_FAIL CEC_INTR_TX_COMPLETE) false c)
  else cec_emit TxOff c.

Definition set_mode_rx_on (c : cec) : cec :=
  cec_hw_enable_interrupt (Z.lor CEC_INTR_RX_FAIL CEC_INTR_RX_COMPLETE) true
    (cec_hw_enable_interrupt (Z.lor CEC_INTR_RX_FAIL CEC_INTR_RX_COMPLETE) false (cec_emit RxOn c)).

(** An index above 4 stands for register 2. *)
Definition cec_hw_set_logicaddr (device_type addr : Z) (c : cec) : cec :=
  let index := u8 (if device_type <? CEC_DEVICE_RES then device_type else device_type - 1) in
  cec_emit (LogicAddr (if index <=? 4 then index else 2) (Z.lor (u8 addr) 16)) c.

Definition cec_hw_reset (c : cec) : cec :=
  let c := cec_hw_enable_interrupt CEC_INTR_ALL false (cec_emit CecReset c) in
  let c := cec_hw_enable_interrupt (Z.lor (Z.lor CEC_INTR_TX_COMPLETE CEC_INTR_TX_FAIL) (Z.lor CEC_INTR_RX_COMPLETE CEC_INTR_RX_FAIL)) true c in
  set_mode_rx_on (set_mode_tx false c).

(** The bytes of the frame go to the controller one by one. *)
Definition cec_hw_transmit (d : CEC_TASK_DATA) (c : cec) : cec :=
  if CEC_MAX_MSG_LEN <? msg_len d then c
  else
    let signal_free_time := if retry d =? 1 then CEC_TX_SIGNAL_FREE_TIME else CEC_RETX_SIGNAL_FREE_TIME in
    cec_emit (Transmit signal_free_time (mode d =? CEC_MODE_BROADCAST) (take (Z.to_nat (msg_len d)) (msg_fifo d))) (set_mode_tx true c).

(** The status goes to the queue with the data. *)
Definition with_status (d : CEC_TASK_DATA) (cm st : Z) : CEC_TASK_DATA :=
  mk_data (u8 cm) (mode d) (retry d) (u8 st) (msg_len d) (msg_fifo d) (txtime d).
Definition send_status_tx (cm st : Z) (c : cec) : cec := let d := with_status (tx_data c) cm st in CEC_WRITE_ISR_FIFO d (set_tx_data d c).
Definition send_status_rx (cm st : Z) (c : cec) : cec := let d := with_status (rx_data c) cm st in CEC_WRITE_ISR_FIFO d (set_rx_data d c).

(** ** The interrupt handler

    [reg] is the interrupt status, [dptr] the number of bytes that were received
    and [rx] what the controller gives for each.  More bytes than the 16 of the
    buffer are stored past its end. *)

Definition isr_tx_fail (reg : Z) (c : cec) : cec :=
  let c := disable0 CEC_INTR_TX_FAIL (cec_emit TxOff c) in
  let c := if has reg (Z.land CEC_INTR_TX_COLLISION 0xff) then send_status_tx CEC_CMD_TX_FAILED CEC_TX_FAIL_LINE_BUSY c
           else if has reg (Z.land CEC_INTR_TX_SFT_FAIL 0xff) then send_status_tx CEC_CMD_TX_FAILED CEC_TX_FAIL_SIGNAL_FREE_TIME c
           else if has reg (Z.land (Z.lor CEC_INTR_TX_UNICAST_NOACK CEC_INTR_TX_BRDCAST_NOACK) 0xff)
                then send_status_tx CEC_CMD_TX_FAILED CEC_TX_FAIL_NACK c
           else send_status_tx CEC_CMD_TX_FAILED CEC_TX_FAIL_INDATA c in
  let c := set_mode_tx false c in
  if status (tx_data c) =? CEC_TX_FAIL_LINE_BUSY then set_mode_rx_on c else c.

Definition isr_tx_complete (c : cec) : cec :=
  send_status_tx CEC_CMD_TX_DONE CEC_FAIL_NONE (disable0 CEC_INTR_TX_COMPLETE (set_mode_tx false c)).

Definition isr_rx_fail (reg : Z) (c : cec) : cec := send_status_rx CEC_CMD_RX_FAILED reg (disable0 CEC_INTR_RX_FAIL c).

Definition isr_rx_complete (reg dptr : Z) (rx : nat -> Z) (c : cec) : option cec :=
  let c := disable0 CEC_INTR_RX_COMPLETE c in
  let d := cec_clear_data (rx_data c) in
  let tmp := u8 dptr in
  if CEC_MAX_MSG_LEN <? tmp then None
  else
    let buf := splice (msg_fifo d) 0 (map (fun i => u8 (rx i)) (seq 0 (Z.to_nat tmp))) in
    let c := set_rx_data (mk_data (cmd d) (mode d) (retry d) (status d) tmp buf (txtime d)) c in
    Some (send_status_rx CEC_CMD_RX_MSG reg (cec_hw_enable_interrupt (Z.land CEC_INTR_RX_COMPLETE 0xff) true (cec_emit RxOn c))).

Definition sm_cec_isr (reg dptr : Z) (rx : nat -> Z) (c : cec) : option cec :=
  let c := if has reg CEC_INTR_TX_FAIL then isr_tx_fail reg c else c in
  let c := if has reg CEC_INTR_TX_COMPLETE then isr_tx_complete c else c in
  let c := if has reg CEC_INTR_RX_FAIL then isr_rx_fail reg c else c in
  if has reg CEC_INTR_RX_COMPLETE then isr_rx_complete reg dptr rx c else Some c.

(** ** The tables of messages: opcode, least number of operands, mode, and whether
    an action is required *)

Definition SMCECMsgTable_TV : list CEC_MSG_TABLE := [
  mk_entry OP_FEATURE_ABORT 2 1 false; mk_entry OP_ABORT 0 1 true; mk_entry OP_IMAGE_VIEW_ON 0 1 true; mk_entry OP_TEXT_VIEW_ON 0 1 true;
  mk_entry OP_INACTIVE_SOURCE 2 1 true; mk_entry OP_STANDBY 0 1 false; mk_entry OP_GET_MENU_LANG 0 1 true; mk_entry OP_GIVE_PHY_ADDR 0 1 true;
  mk_entry OP_GET_CEC_VERSION 0 1 true; mk_entry OP_SET_OSD_NAME 1 1 true; mk_entry OP_USER_CONTROL_PRESSED 1 1 true;
  mk_entry OP_USER_CONTROL_RELEASED 0 1 false; mk_entry OP_GIVE_DEVICE_POWER_STATUS 0 1 true; mk_entry OP_REPORT_POWER_STATUS 1 1 true;
  mk_entry OP_REPORT_AUDIO_STATUS 1 1 true; mk_entry OP_SET_SYS_AUDIO_MODE 1 1 true; mk_entry OP_MENU_STATUS 1 1 true;
  mk_entry OP_DECK_STATUS 1 1 true; mk_entry OP_RECORD_STATUS 1 1 true; mk_entry OP_RECORD_TV_SCREEN 0 1 true;
  mk_entry OP_TUNER_DEVICE_STATUS 5 1 true; mk_entry OP_TIMER_STATUS 1 1 true; mk_entry OP_TIMER_CLEARED_STATUS 1 1 true;
  mk_entry OP_GIVE_DEVICE_VENDOR_ID 0 1 true; mk_entry OP_VENDOR_COMMAND 1 1 true; mk_entry OP_VENDOR_COMMAND_WITH_ID 3 1 true;
  mk_entry OP_VENDOR_REMOTE_BTN_UP 0 1 true; mk_entry OP_VENDOR_REMOTE_BTN_DOWN 1 1 true].

Definition SMCECMsgTable_BOX : list CEC_MSG_TABLE := [
  mk_entry OP_FEATURE_ABORT 2 1 false; mk_entry OP_ABORT 0 1 true; mk_entry OP_ACTIVE_SOURCE 2 2 true; mk_entry OP_IMAGE_VIEW_ON 0 1 false;
  mk_entry OP_REQUEST_ACTIVE_SOURCE 0 2 false; mk_entry OP_SET_STREAM_PATH 2 2 true; mk_entry OP_ROUTING_CHANGE 4 2 true;
  mk_entry OP_ROUTING_INFO 2 2 false; mk_entry OP_INACTIVE_SOURCE 2 1 true; mk_entry OP_STANDBY 0 3 false; mk_entry OP_GET_MENU_LANG 0 1 true;
  mk_entry OP_SET_MENU_LANG 3 2 false; mk_entry OP_GIVE_PHY_ADDR 0 1 true; mk_entry OP_REPORT_PHY_ADDR 3 2 false;
  mk_entry OP_CEC_VERSION 1 1 false; mk_entry OP_GET_CEC_VERSION 0 1 true; mk_entry OP_DECK_STATUS 1 1 false;
  mk_entry OP_GIVE_DECK_STATUS 1 1 true; mk_entry OP_DECK_CONTROL 1 1 true; mk_entry OP_PLAY 1 1 true; mk_entry OP_GIVE_OSD_NAME 0 1 true;
  mk_entry OP_SET_OSD_NAME 1 1 false; mk_entry OP_USER_CONTROL_PRESSED 1 1 true; mk_entry OP_USER_CONTROL_RELEASED 0 1 true;
  mk_entry OP_MENU_REQUEST 1 1 true; mk_entry OP_MENU_STATUS 1 1 false; mk_entry OP_GIVE_DEVICE_POWER_STATUS 0 1 true;
  mk_entry OP_REPORT_POWER_STATUS 1 1 false; mk_entry OP_GIVE_DEVICE_VENDOR_ID 0 1 true; mk_entry OP_VENDOR_REMOTE_BTN_UP 0 1 true;
  mk_entry OP_VENDOR_REMOTE_BTN_DOWN 1 1 true; mk_entry OP_VENDOR_COMMAND_WITH_ID 3 1 true].

Definition SMCECMsgTable (c : cec) : list CEC_MSG_TABLE := if host_tv c then SMCECMsgTable_TV else SMCECMsgTable_BOX.

Definition CEC_SRV_GetMessageIndex (tbl : list CEC_MSG_TABLE) (op : Z) : option CEC_MSG_TABLE :=
  snd <$> list_find (fun e => t_opcode e = op) tbl.

Definition CEC_GET_MSG_MODE (addr : Z) : Z := if Z.land addr 0x0F =? 0x0F then CEC_MODE_BROADCAST else CEC_MODE_UNICAST.

Definition findmux (phyAddr : Z) : Z :=
  if Z.land phyAddr 0xF000 =? phyAddr then 0xF000
  else if Z.land phyAddr 0xFF00 =? phyAddr then 0xFF00
  else if Z.land phyAddr 0xFFF0 =? phyAddr then 0xFFF0
  else 0xFFFF.

(** ** Frames and messages (CEC_SRV_FormatConvert) *)

Definition byte_at (b : bytes) (i : nat) : Z := nth i b 0.

(** The operands of a message that is sent. *)
Definition out_operands (m : CEC_MSG) : bytes :=
  let b := byte_at (operand m) in
  if opcode m =? OP_FEATURE_ABORT then [b 0%nat; b 1%nat]
  else if opcode m =? OP_REPORT_PHY_ADDR then [b 1%nat; b 0%nat; b 2%nat]
  else if opcode m =? OP_CEC_VERSION then [b 0%nat]
  else if opcode m =? OP_DEVICE_VENDOR_ID then [b 2%nat; b 1%nat; b 0%nat]
  else if opcode m =? OP_DECK_STATUS then [b 0%nat]
  else if opcode m =? OP_SET_OSD_NAME then take OSD_NAME_MAX_LENGTH (drop 1 (operand m))
  else if opcode m =? OP_REPORT_POWER_STATUS then [b 0%nat]
  else [].

Definition CEC_SET_HEADER (init foll : Z) : Z := Z.lor (Z.land foll 0x0F) (Z.shiftl (Z.land init 0x0F) 4).

Definition msg2frm (m : CEC_MSG) : CEC_TASK_DATA :=
  let frame := CEC_SET_HEADER (srcAddr m) (destAddr m) :: u8 (opcode m) :: out_operands m in
  mk_data 0 (if destAddr m =? CEC_BROADCAST_DESTADDR then CEC_MODE_BROADCAST else CEC_MODE_UNICAST) 0 0
    (Z.of_nat (length frame)) (frame ++ replicate (16 - length frame) 0) 0.

(** What an unregistered device may send. *)
Definition unregistered_ok (op : Z) : bool :=
  existsb (Z.eqb op) [OP_REQUEST_ACTIVE_SOURCE; OP_SET_STREAM_PATH; OP_ACTIVE_SOURCE; OP_ROUTING_CHANGE; OP_ROUTING_INFO; OP_STANDBY;
    OP_GIVE_PHY_ADDR; OP_GET_MENU_LANG; OP_VENDOR_COMMAND_WITH_ID; OP_GIVE_DEVICE_VENDOR_ID].

(** The operands of a message that was received.  [None] is a store outside the
    operand. *)
Definition in_operands (d : CEC_TASK_DATA) (m : CEC_MSG) : option (Z * CEC_MSG) :=
  let f := byte_at (msg_fifo d) in
  let fill l := Some (CEC_STATUS_SUCCESS, mk_msg (srcAddr m) (destAddr m) (opcode m) (operandlen m) (splice (operand m) 0 l)) in
  let op := opcode m in
  if (op =? OP_SET_STREAM_PATH) || (op =? OP_ACTIVE_SOURCE) then fill [f 3%nat; f 2%nat]
  else if op =? OP_ROUTING_CHANGE then fill [f 3%nat; f 2%nat; f 5%nat; f 4%nat]
  else if (op =? OP_GIVE_DECK_STATUS) || (op =? OP_DECK_CONTROL) || (op =? OP_PLAY) then fill [f 2%nat]
  else if op =? OP_USER_CONTROL_PRESSED then
    if f 2%nat =? CEC_UC_PLAY_FN then
      if operandlen m =? 1 then fill [f 2%nat]
      else if operandlen m =? 2 then fill [f 2%nat; f 3%nat]
      else Some (CEC_STATUS_ERR_MSG_UNSUPPORTED, m)
    else fill [f 2%nat]
  else if op =? OP_VENDOR_COMMAND_WITH_ID then
    if CEC_MAX_MSG_LEN <? msg_len d then None
    else Some (CEC_STATUS_SUCCESS, mk_msg (srcAddr m) (destAddr m) op (msg_len d) (splice (operand m) 0 (take (Z.to_nat (msg_len d)) (msg_fifo d))))
  else Some (CEC_STATUS_SUCCESS, m).

Definition frm2msg (tbl : list CEC_MSG_TABLE) (d : CEC_TASK_DATA) : option (Z * CEC_MSG) :=
  let f := byte_at (msg_fifo d) in
  let m := mk_msg (Z.land (Z.shiftr (f 0%nat) 4) 0x0F) (Z.land (f 0%nat) 0x0F) (f 1%nat) (u8 (msg_len d - 2)) (replicate 16 0) in
  if (srcAddr m =? 0x0F) && negb (unregistered_ok (opcode m)) then Some (CEC_STATUS_ERR_MSG_IGNORED, m)
  else match CEC_SRV_GetMessageIndex tbl (opcode m) with
       | None => Some (if destAddr m =? 0x0F then CEC_STATUS_ERR_MSG_IGNORED else CEC_STATUS_ERR_MSG_UNSUPPORTED, m)
       | Some e =>
           if Z.land (t_mode e) (CEC_GET_MSG_MODE (destAddr m)) =? 0 then Some (CEC_STATUS_ERR_MSG_IGNORED, m)
           else if operandlen m <? t_len e then Some (CEC_STATUS_ERR_MSG_IGNORED, m)
           else if negb (t_action e) then Some (CEC_STATUS_ERR_MSG_IGNORED, m)
           else in_operands d m
       end.

(** ** The service (cec_srv.c)

    [junk] is an uninitialised message on the stack. *)

Section Service.
Variable junk : CEC_MSG.
Implicit Types (c : cec) (s : power) (m : CEC_MSG).

Definition sm_cec_srv_tx_msg (now : Z) m c : cec :=
  let m := mk_msg (u8 (iLogicAddr (config c))) (destAddr m) (opcode m) (operandlen m) (operand m) in
  let d := msg2frm m in
  cec_add_app_cmd (mk_data CEC_CMD_TX_MSG (mode d) (retry d) (status d) (msg_len d) (msg_fifo d) (u32 now)) c.

(** A message with its destination, opcode and the operands [l]. *)
Definition send (now dest op : Z) (l : bytes) c : cec :=
  sm_cec_srv_tx_msg now (mk_msg (srcAddr junk) dest op (operandlen junk) (splice (operand junk) 0 l)) c.

Definition feature_abort (now reason : Z) m c : cec := send now (srcAddr m) OP_FEATURE_ABORT [u8 (opcode m); u8 reason] c.

Definition report_phy_addr (now : Z) c : cec :=
  send now CEC_BROADCAST_DESTADDR OP_REPORT_PHY_ADDR
    [u8 (uiPhyAddr (config c)); u8 (Z.shiftr (uiPhyAddr (config c)) 8); u8 (iDeviceType (config c))] c.

(** The wake-up, if the system is in a standby state. *)
Definition wake (now : Z) m c s : cec * power :=
  (set_wakeup_msg m c, fst (mv_sm_power_enterflow_bysmstate now (mv_sm_power_setwakeupsource MV_SM_WAKEUP_SOURCE_CEC s))).

Definition wake_if (now : Z) m c s : cec * power := if standby (mv_sm_get_state s) then wake now m c s else (c, s).

(** The request that the SoC is given when it is up. *)
Definition set_soc_req (l : bytes) c : cec := set_soc_length (Z.of_nat (length l)) (set_soc_operands (splice (soc_operands c) 0 l) c).

Definition wake_with (now : Z) (l : bytes) m c s : cec * power :=
  if standby (mv_sm_get_state s) then wake now m (set_soc_req l c) s else (c, s).

(** The bytes of opPhyAddr, the high one first. *)
Definition phy_event (ev : Z) m : bytes := [ev; 0; 0; 0; byte_at (operand m) 1; byte_at (operand m) 0; 0; 0].
Definition opPhyAddr m : Z := field (operand m) 0 2.

(** The body of the switch: the state and the reason for a feature abort. *)
Definition rx_box (now : Z) m c s : cec * power * option Z :=
  let op := opcode m in
  let b := byte_at (operand m) in
  let ok r := (r, None) in
  let abort reason := (c, s, Some reason) in
  if op =? OP_ABORT then abort CEC_ABORT_REASON_REFUSED
  else if op =? OP_ACTIVE_SOURCE then
    ok (if negb (opPhyAddr m =? 0) then wake_with now (phy_event MV_SM_CEC_ACTIVE_SOURCE_EVENT m) m c s else (c, s))
  else if op =? OP_SET_STREAM_PATH then
    ok (if Z.land (opPhyAddr m) (findmux (uiPhyAddr (config c))) =? uiPhyAddr (config c)
        then wake_with now (phy_event MV_SM_CEC_STREAM_PATH_EVENT m) m c s else (c, s))
  else if op =? OP_ROUTING_CHANGE then ok (c, s)
  else if op =? OP_STANDBY then
    ok (if standby (mv_sm_get_state s) then (c, fst (mv_sm_power_enterflow_bysmstate now s)) else (c, s))
  else if op =? OP_GIVE_PHY_ADDR then ok (report_phy_addr now c, s)
  else if op =? OP_GET_MENU_LANG then abort CEC_ABORT_REASON_INV_MODE_TO_RESPOND
  else if op =? OP_GET_CEC_VERSION then ok (send now (srcAddr m) OP_CEC_VERSION [CEC_VERSION] c, s)
  else if op =? OP_GIVE_DECK_STATUS then
    if (b 0%nat =? CEC_STATUS_REQUEST_OFF) || (b 0%nat =? CEC_STATUS_REQUEST_ON) then abort CEC_ABORT_REASON_REFUSED
    else ok (send now (srcAddr m) OP_DECK_STATUS [CEC_DECK_INFO_STOP] c, s)
  else if op =? OP_DECK_CONTROL then
    if b 0%nat =? CEC_DECK_CTRL_MODE_EJECT then ok (wake_if now m c s) else abort CEC_ABORT_REASON_INV_MODE_TO_RESPOND
  else if op =? OP_PLAY then ok (if b 0%nat =? CEC_PLAY_MODE_FORWARD then wake_if now m c s else (c, s))
  else if op =? OP_GIVE_OSD_NAME then
    ok (send now (srcAddr m) OP_SET_OSD_NAME (Z.of_nat OSD_NAME_MAX_LENGTH :: take OSD_NAME_MAX_LENGTH (osd_name c)) c, s)
  else if op =? OP_MENU_REQUEST then abort CEC_ABORT_REASON_INV_MODE_TO_RESPOND
  else if op =? OP_USER_CONTROL_PRESSED then
    if operandlen m =? 2 then
      if (b 0%nat =? CEC_UC_PLAY_FN) && (b 1%nat =? CEC_PLAY_MODE_FORWARD) then ok (wake_if now m c s)
      else abort CEC_ABORT_REASON_INV_MODE_TO_RESPOND
    else if existsb (Z.eqb (b 0%nat)) [CEC_UC_EJECT; CEC_UC_PLAY_FN; CEC_UC_POWER; CEC_UC_PLAY; CEC_UC_POWER_TOGGLE; CEC_UC_POWER_ON]
         then ok (wake_with now [MV_SM_CEC_UC_PRESSED_EVENT; 0; 0; 0] m c s)
         else abort CEC_ABORT_REASON_INV_MODE_TO_RESPOND
  else if op =? OP_USER_CONTROL_RELEASED then ok (c, s)
  else if op =? OP_GIVE_DEVICE_POWER_STATUS then
    ok (send now (srcAddr m) OP_REPORT_POWER_STATUS
          [match mv_sm_get_state s with
           | MV_SM_STATE_ACTIVE_2_LOWPOWERSTANDBY | MV_SM_STATE_ACTIVE_2_NORMALSTANDBY | MV_SM_STATE_ACTIVE_2_SUSPEND => CEC_PWR_STS_IN_TRANS_ON_TO_STANDBY
           | MV_SM_STATE_LOWPOWERSTANDBY | MV_SM_STATE_NORMALSTANDBY | MV_SM_STATE_SUSPEND => CEC_PWR_STS_STANDBY
           | _ => CEC_PWR_STS_IN_TRANS_STANDBY_TO_ON
           end] c, s)
  else abort CEC_ABORT_REASON_UNREC_OPCODE.

Definition MV_SM_CEC_SRV_RX_MSG_BOX (now : Z) (d : CEC_TASK_DATA) c s : option (cec * power) :=
  '(ret, m) ← frm2msg (SMCECMsgTable c) d;
  if ret =? CEC_STATUS_ERR_MSG_IGNORED then Some (c, s)
  else if rememberHdmiCtrlState c =? 0 then Some (c, s)
  else
    let '(c, s, abort) := rx_box now m c s in
    Some (match abort with Some reason => feature_abort now reason m c | None => c end, s).

Definition rx_tv (now : Z) m c s : cec * power * option Z :=
  let op := opcode m in
  let b := byte_at (operand m) in
  let ok r := (r, None) in
  let abort reason := (c, s, Some reason) in
  if op =? OP_ABORT then abort CEC_ABORT_REASON_REFUSED
  else if (op =? OP_IMAGE_VIEW_ON) || (op =? OP_TEXT_VIEW_ON) then ok (wake_if now m c s)
  else if op =? OP_GIVE_PHY_ADDR then ok (report_phy_addr now c, s)
  else if op =? OP_GET_CEC_VERSION then ok (send now (srcAddr m) OP_CEC_VERSION [CEC_VERSION_1_4a] c, s)
  else if op =? OP_USER_CONTROL_PRESSED then
    if (b 0%nat =? CEC_UC_POWER) || (b 0%nat =? CEC_UC_POWER_TOGGLE) || (b 0%nat =? CEC_UC_POWER_ON) then ok (wake_if now m c s)
    else abort CEC_ABORT_REASON_INV_MODE_TO_RESPOND
  else if op =? OP_GIVE_DEVICE_POWER_STATUS then ok (send now (srcAddr m) OP_REPORT_POWER_STATUS [CEC_PWR_STS_STANDBY] c, s)
  else if existsb (Z.eqb op)
       [OP_INACTIVE_SOURCE; OP_GET_MENU_LANG; OP_SET_OSD_NAME; OP_REPORT_POWER_STATUS; OP_REPORT_AUDIO_STATUS; OP_SET_SYS_AUDIO_MODE;
        OP_MENU_STATUS; OP_DECK_STATUS; OP_RECORD_STATUS; OP_RECORD_TV_SCREEN; OP_TUNER_DEVICE_STATUS; OP_TIMER_STATUS; OP_TIMER_CLEARED_STATUS;
        OP_GIVE_DEVICE_VENDOR_ID; OP_VENDOR_COMMAND; OP_VENDOR_COMMAND_WITH_ID; OP_VENDOR_REMOTE_BTN_UP; OP_VENDOR_REMOTE_BTN_DOWN]
  then abort CEC_ABORT_REASON_INV_MODE_TO_RESPOND
  else abort CEC_ABORT_REASON_UNREC_OPCODE.

(** A message that is to be ignored is only when it was a broadcast. *)
Definition MV_SM_CEC_SRV_RX_MSG_TV (now : Z) (d : CEC_TASK_DATA) c s : option (cec * power) :=
  if rememberHdmiCtrlState c =? 0 then Some (c, s)
  else
    '(ret, m) ← frm2msg (SMCECMsgTable c) d;
    if (ret =? CEC_STATUS_ERR_MSG_IGNORED) && (destAddr m =? 0x0F) then Some (c, s)
    else
      let '(c, s, abort) := rx_tv now m c s in
      Some (match abort with Some reason => feature_abort now reason m c | None => c end, s).

Definition mv_sm_cec_srv_rx_msg (now : Z) (d : CEC_TASK_DATA) c s : option (cec * power) :=
  if host_tv c then MV_SM_CEC_SRV_RX_MSG_TV now d c s else MV_SM_CEC_SRV_RX_MSG_BOX now d c s.

(** ** The task (sm_cec.c) *)

Definition sm_cec_setconfig (uiPhyaddr uilogaddr uidevicetype : Z) c : cec :=
  set_taskstate CEC_TASK_STATE_LISTENING
    (set_config (mk_config uidevicetype uilogaddr uiPhyaddr (bActiveSource (config c)) (bValid (config c))) c).

Definition sm_cec_enable (bEnable : bool) c : cec :=
  let c := set_app_fifo (cec_clear_fifo (app_fifo c)) (set_isr_fifo (cec_clear_fifo (isr_fifo c)) c) in
  if bEnable then
    let c := if negb (iLogicAddr (config c) =? 0x0F)
             then cec_hw_reset (cec_emit (GlobalIrq true) (set_taskstate CEC_TASK_STATE_LISTENING (set_bCECTaskExit false c))) else c in
    let c := if host_tv c then sm_cec_setconfig 0 0 0 c else c in
    set_wakeup_msg zero_msg c
  else cec_emit CecDisable (cec_emit (GlobalIrq false) (set_taskstate CEC_TASK_STATE_IDLE (set_bCECTaskExit true c))).

(** What the task takes: the interrupt's queue comes first. *)
Definition next_cmd c : option (option CEC_TASK_DATA * cec) :=
  '(d, f) ← cec_read_fifo (isr_fifo c);
  match d with
  | Some d => Some (Some d, set_isr_fifo f c)
  | None => '(d, f) ← cec_read_fifo (app_fifo c); Some (d, set_app_fifo f c)
  end.

Definition task_listening (now line_status : Z) (d : CEC_TASK_DATA) c s : option (cec * power) :=
  if cmd d =? CEC_CMD_EXIT then Some (sm_cec_enable false c, s)
  else if cmd d =? CEC_CMD_RX_MSG then mv_sm_cec_srv_rx_msg now d c s
  else if cmd d =? CEC_CMD_TX_MSG then
    let c := set_tx_data d (set_retrans_time 0 c) in
    let c := if Z.land line_status 1 =? 1 then cec_hw_transmit d c
             else let d := with_status d CEC_CMD_TX_FAILED CEC_TX_FAIL_LINE_BUSY in CEC_WRITE_APP_FIFO d (set_tx_data d c) in
    Some (set_taskstate CEC_TASK_STATE_SENDING c, s)
  else Some (c, s).

(** Another attempt; one that the line was not free for does not count. *)
Definition retransmit (line_status : Z) c : cec :=
  let d := mk_data (cmd (tx_data c)) (mode (tx_data c)) 1 (status (tx_data c)) (msg_len (tx_data c)) (msg_fifo (tx_data c)) (txtime (tx_data c)) in
  let c := set_tx_data d c in
  let c := if Z.land line_status 1 =? 1 then cec_hw_transmit d c else CEC_WRITE_APP_FIFO d c in
  let c := if negb (status d =? CEC_TX_FAIL_SIGNAL_FREE_TIME) then set_retrans_time (u8 (retrans_time c + 1)) c else c in
  set_taskstate CEC_TASK_STATE_SENDING c.

Definition task_sending (now line_status : Z) (d : CEC_TASK_DATA) c s : option (cec * power) :=
  let finish := set_taskstate CEC_TASK_STATE_LISTENING (set_tx_data (cec_clear_data (tx_data c)) c) in
  if cmd d =? CEC_CMD_TX_DONE then Some (finish, s)
  else if cmd d =? CEC_CMD_TX_FAILED then
    let timeout := i32 (now - txtime (tx_data c)) in
    Some (if (retrans_time c <? MAX_RETRANS_TIME) || (CEC_TX_TIMEOUT <? timeout) then retransmit line_status c else finish, s)
  else if cmd d =? CEC_CMD_RX_MSG then mv_sm_cec_srv_rx_msg now d c s
  else if cmd d =? CEC_CMD_TX_MSG then Some (CEC_WRITE_APP_FIFO d c, s)
  else Some (c, s).

Definition sm_cec_task (now line_status : Z) c s : option (cec * power) :=
  if bCECTaskExit c then Some (c, s)
  else
    '(d, c) ← next_cmd c;
    match d with
    | None => Some (c, s)
    | Some d =>
        match taskstate c with
        | CEC_TASK_STATE_IDLE => Some (if cmd d =? CEC_CMD_EXIT then sm_cec_enable false c else c, s)
        | CEC_TASK_STATE_LISTENING => task_listening now line_status d c s
        | CEC_TASK_STATE_SENDING => task_sending now line_status d c s
        end
    end.

(** ** Messages *)

Definition msg_bytes m : bytes :=
  [srcAddr m; destAddr m; u8 (opcode m); u8 (Z.shiftr (opcode m) 8); operandlen m; 0; 0; 0] ++ operand m.

Definition osd_byte (data : bytes) (iLen : Z) (i : nat) : option Z :=
  if Z.of_nat i <? u32 (iLen - 4) then data !! (4 + i)%nat else Some 32.

(** [data] is the body of the message, [iLen] its length.  The debug command 0x5678
    sends eight bytes, four of them uninitialised. *)
Definition sm_process_cec_msg (data : bytes) (iLen : Z) c : option cec :=
  if decide (length data < 8)%nat then None
  else
    let cmdid := i32 (field data 0 4) in
    let iMsgContent := i32 (field data 4 4) in
    if cmdid =? MV_SM_CEC_INFO then
      if decide (length data < 24)%nat then None
      else let cfg := mk_config (i32 (field data 4 4)) (i32 (field data 8 4)) (field data 12 4) (i32 (field data 16 4)) (i32 (field data 20 4)) in
           Some (cec_hw_set_logicaddr (iDeviceType cfg) (iLogicAddr cfg) (set_config cfg c))
    else if cmdid =? MV_SM_CEC_OSD_INFO then
      name ← mapM (osd_byte data iLen) (seq 0 OSD_NAME_MAX_LENGTH);
      Some (set_osd_name (splice (osd_name c) 0 name) c)
    else if cmdid =? MV_SM_CEC_APPREADY then
      if iLen =? 4 then Some c
      else
        let c := if byte_at (soc_operands c) 0 =? 0 then set_soc_req [MV_SM_CEC_NO_APP_REQUESTED; 0; 0; 0] c else c in
        let c := cec_emit (ToSoc (take (Z.to_nat (soc_length c)) (soc_operands c))) c in
        Some (set_soc_length 0 (set_soc_operands (replicate MAX_SOC_REQ_LENGTH 0) c))
    else if cmdid =? 0x5678 then Some (cec_emit (ToSoc ([0xCE; 0xC1; 0x2C; 0xEC] ++ take 4 (operand junk))) c)
    else if cmdid =? MV_SM_CEC_HDMICTRL_ONOFF then Some (set_rememberHdmiCtrlState (if negb (iMsgContent =? 0) then 1 else 0) c)
    else if cmdid =? MV_SM_CEC_WAKEUP_MSG then Some (cec_emit (ToSoc (msg_bytes (wakeup_msg c))) c)
    else Some c.

(** A broadcast of the power module: the flow and its status. *)
Definition mv_sm_process_internal_cec_msg (now : Z) (flow : SM_POWER_FLOW) (st : POWER_STATUS) c : cec :=
  match flow with
  | FLOW_COLD_2_LOWPOWERSTANDBY | FLOW_ACTIVE_2_LOWPOWERSTANDBY | FLOW_ACTIVE_2_NORMALSTANDBY | FLOW_ACTIVE_2_SUSPEND =>
      if decide (st = STA_LEAVEFLOW) then send now CEC_DEVICE_TV OP_REPORT_POWER_STATUS [CEC_PWR_STS_STANDBY] (sm_cec_enable true c) else c
  | FLOW_LOWPOWERSTANDBY_2_ACTIVE | FLOW_NORMALSTANDBY_2_ACTIVE | FLOW_SUSPEND_2_ACTIVE =>
      if decide (st = STA_ENTERFLOW) then sm_cec_enable false c else c
  | _ => c
  end.

End Service.

(** Two spaces, "Android TV" and two spaces, with its terminator. *)
Definition CEC_OSD_NAME : bytes := [32; 32; 65; 110; 100; 114; 111; 105; 100; 32; 84; 86; 32; 32; 0].

(** sm_cec_init(), on the zero-initialised variables, and the disabling that
    mv_sm_cec_init() adds; [en] are the interrupt enables at power on. *)
Definition mv_sm_cec_init (tv : bool) (en : Z) : cec :=
  let f := mk_fifo 0 0 (replicate 3 zero_data) in
  sm_cec_enable false
    (mk_cec f f 0 zero_data zero_data CEC_TASK_STATE_IDLE 0x13572468 0 (replicate MAX_SOC_REQ_LENGTH 0) zero_msg (mk_config 0 0 0 0 0) true
       CEC_OSD_NAME tv en []).
