(* ===== verification/CecSafety.v ===== *)
(** * Properties of HDMI-CEC in standby (sm_cm3/syna/src/cec)

    The queues, memory safety over every sequence of interrupts, task rounds and
    messages, the end of a transmission that fails, and what a received message
    does. *)

From S2P Require Import Prelude PowerFlow Cec.

(** ** The queues

    A queue holds at most two of its three entries. *)

Definition wrap (i : Z) : Z := CEC_FIFO_WRAP_AROUND i.

Record queue (f : fifo) (l : list CEC_TASK_DATA) : Prop := mk_queue {
  q_start : 0 <= ucStart_index f < 3;
  q_len : (length l <= 2)%nat;
  q_buf : length (ucFifo_buf f) = 3%nat;
  q_end : ucEnd_index f = (ucStart_index f + Z.of_nat (length l)) mod 3;
  q_items : forall i d, l !! i = Some d -> ucFifo_buf f !! Z.to_nat ((ucStart_index f + Z.of_nat i) mod 3) = Some d;
}.

Lemma wrap_mod i : 0 <= i < 3 -> wrap (i + 1) = (i + 1) mod 3.
Proof. intros H. unfold wrap, CEC_FIFO_WRAP_AROUND, CEC_FIFO_LENGTH. assert (i = 0 \/ i = 1 \/ i = 2) as [-> | [-> | ->]] by lia; reflexivity. Qed.

Lemma mod3_add i j : ((i mod 3) + j) mod 3 = (i + j) mod 3.
Proof. now rewrite Zplus_mod_idemp_l. Qed.

Lemma mod3_range i : 0 <= i mod 3 < 3.
Proof. apply Z.mod_pos_bound. lia. Qed.

(** Small distances around the ring are told apart. *)
Lemma mod3_inj a i j : 0 <= i < 3 -> 0 <= j < 3 -> (a + i) mod 3 = (a + j) mod 3 -> i = j.
Proof.
  intros Hi Hj E. pose proof (Z.div_mod (a + i) 3). pose proof (Z.div_mod (a + j) 3). lia.
Qed.

Lemma write_ok f l d : queue f l ->
  (length l = 2%nat /\ cec_write_fifo d f = (f, false)) \/
  ((length l < 2)%nat /\ exists f', cec_write_fifo d f = (f', true) /\ queue f' (l ++ [d]) /\ ucStart_index f' = ucStart_index f).
Proof.
  intros [Hs Hl Hb He Hi]. unfold cec_write_fifo. fold (wrap (ucEnd_index f + 1)). pose proof (mod3_range (ucStart_index f + Z.of_nat (length l))) as Hr.
  rewrite <- He in Hr.
  assert (Ew : wrap (ucEnd_index f + 1) = (ucStart_index f + (Z.of_nat (length l) + 1)) mod 3) by (rewrite wrap_mod, He, mod3_add by done; f_equal; lia).
  assert (E0 : ucStart_index f = (ucStart_index f + 0) mod 3) by (rewrite Z.add_0_r, Z.mod_small; lia). rewrite Ew.
  destruct (decide (length l = 2%nat)) as [E2|N2].
  - left. split; [done|]. rewrite E2. change (Z.of_nat 2 + 1) with (1 * 3). rewrite Z.mod_add, Z.mod_small by lia. now rewrite Z.eqb_refl.
  - right. split; [lia|]. rewrite (proj2 (Z.eqb_neq _ _)) by (rewrite E0 at 2; intros E; apply mod3_inj in E; lia).
    eexists. split; [reflexivity|]. split; [|done]. split; cbn [ucStart_index ucEnd_index ucFifo_buf].
    + done.
    + rewrite length_app. cbn. lia.
    + now rewrite length_insert.
    + rewrite length_app. cbn [length]. f_equal. lia.
    + intros i x Hx. apply lookup_app_Some in Hx as [Hx|[Hge Hx]].
      * pose proof (lookup_lt_Some _ _ _ Hx). rewrite list_lookup_insert_ne; [by apply Hi|]. intros E3.
        apply Z2Nat.inj in E3; [|lia|apply mod3_range]. rewrite He in E3. apply mod3_inj in E3; lia.
      * destruct (i - length l)%nat as [|j] eqn:Ej; [|done]. injection Hx as <-. replace i with (length l) by lia. rewrite <- He.
        apply list_lookup_insert_eq. lia.
Qed.

Lemma read_ok f l : queue f l ->
  match l with
  | [] => cec_read_fifo f = Some (None, f)
  | d :: l' => exists f', cec_read_fifo f = Some (Some d, f') /\ queue f' l'
  end.
Proof.
  intros [Hs Hl Hb He Hi]. unfold cec_read_fifo. destruct l as [|d l'].
  - cbn [length] in He. rewrite Z.add_0_r, Z.mod_small in He by lia. now rewrite He, Z.eqb_refl.
  - rewrite (proj2 (Z.eqb_neq _ _)).
    2: { rewrite He. intros E. rewrite <- (Z.mod_small (ucStart_index f) 3) in E at 1 by lia. rewrite <- (Z.add_0_r (ucStart_index f)) in E at 1.
         apply mod3_inj in E; cbn [length] in *; lia. }
    pose proof (Hi 0%nat d eq_refl) as H0. rewrite Z.add_0_r, Z.mod_small in H0 by lia. rewrite H0. cbn [mbind option_bind].
    eexists. split; [reflexivity|]. fold (wrap (ucStart_index f + 1)). rewrite wrap_mod by done. split; cbn [ucStart_index ucEnd_index ucFifo_buf].
    + apply mod3_range.
    + cbn in Hl. lia.
    + done.
    + rewrite mod3_add, He. cbn [length]. f_equal. lia.
    + intros i x Hx. rewrite mod3_add. rewrite <- (Hi (S i) x Hx). do 2 f_equal. f_equal. lia.
Qed.

Lemma queue_clear f l : queue f l -> queue (cec_clear_fifo f) [].
Proof. intros [_ _ Hb _ _]. split; cbn; try lia; done. Qed.

(** ** Well-formed states *)

Record wf_data (d : CEC_TASK_DATA) : Prop := mk_wf_data { wd_len : 0 <= msg_len d <= 16; wd_fifo : length (msg_fifo d) = 16%nat }.

Definition wf_fifo (f : fifo) : Prop := exists l, queue f l /\ Forall wf_data l.

Record wf (c : cec) : Prop := mk_wf {
  wf_isr : wf_fifo (isr_fifo c);
  wf_app : wf_fifo (app_fifo c);
  wf_tx : wf_data (tx_data c);
  wf_rx : wf_data (rx_data c);
  wf_soc : length (soc_operands c) = MAX_SOC_REQ_LENGTH /\ 0 <= soc_length c <= 28;
  wf_osd : length (osd_name c) = 15%nat;
}.

Lemma wf_write d f : wf_data d -> wf_fifo f -> wf_fifo (cec_write_fifo d f).1.
Proof.
  intros Hd (l & Hq & Hl). destruct (write_ok f l d Hq) as [[_ ->]|(_ & f' & -> & Hq' & _)]; [by exists l|].
  exists (l ++ [d]). split; [done|]. apply Forall_app. split; [done|]. by apply Forall_cons_iff.
Qed.

Lemma wf_write_isr d c : wf_data d -> wf c -> wf (CEC_WRITE_ISR_FIFO d c).
Proof. intros Hd []. split; try done. by apply wf_write. Qed.

Lemma wf_write_app d c : wf_data d -> wf c -> wf (CEC_WRITE_APP_FIFO d c).
Proof. intros Hd []. split; try done. by apply wf_write. Qed.

Lemma wf_set_app f c : wf_fifo f -> wf c -> wf (set_app_fifo f c).
Proof. intros Hf []. by split. Qed.

Lemma wf_set_tx d c : wf_data d -> wf c -> wf (set_tx_data d c).
Proof. intros Hd []. by split. Qed.

Lemma wf_set_rx d c : wf_data d -> wf c -> wf (set_rx_data d c).
Proof. intros Hd []. by split. Qed.

(** The fields that the invariant does not mention. *)
Lemma wf_emit e c : wf c -> wf (cec_emit e c).
Proof. intros []. by split. Qed.
Lemma wf_intr v c : wf c -> wf (set_intr_enable v c).
Proof. intros []. by split. Qed.
Lemma wf_state v c : wf c -> wf (set_taskstate v c).
Proof. intros []. by split. Qed.
Lemma wf_retrans v c : wf c -> wf (set_retrans_time v c).
Proof. intros []. by split. Qed.
Lemma wf_exit v c : wf c -> wf (set_bCECTaskExit v c).
Proof. intros []. by split. Qed.
Lemma wf_config v c : wf c -> wf (set_config v c).
Proof. intros []. by split. Qed.
Lemma wf_hdmi v c : wf c -> wf (set_rememberHdmiCtrlState v c).
Proof. intros []. by split. Qed.
Lemma wf_wakeup m c : wf c -> wf (set_wakeup_msg m c).
Proof. intros []. by split. Qed.

Lemma wf_status d cm st : wf_data d -> wf_data (with_status d cm st).
Proof. intros []. by split. Qed.

Lemma wf_cleared d : wf_data (cec_clear_data d).
Proof. split; cbn; [lia|reflexivity]. Qed.

Create HintDb cec.
#[export] Hint Resolve wf_write_isr wf_write_app wf_set_tx wf_set_rx wf_emit wf_intr wf_state wf_retrans wf_exit wf_config wf_hdmi
  wf_wakeup wf_status wf_cleared wf_tx wf_rx : cec.

Lemma wf_soc_req l c : (length l <= 28)%nat -> wf c -> wf (set_soc_req l c).
Proof.
  intros Hl [H1 H2 H3 H4 [H5 H6] H7]. split; try done. cbn [soc_operands soc_length set_soc_req set_soc_length set_soc_operands]. unfold MAX_SOC_REQ_LENGTH in *.
  rewrite length_splice by lia. lia.
Qed.

Lemma wf_soc_reset c : wf c -> wf (set_soc_length 0 (set_soc_operands (replicate MAX_SOC_REQ_LENGTH 0) c)).
Proof. intros [H1 H2 H3 H4 _ H7]. split; try assumption. split; [apply length_replicate|cbn; lia]. Qed.

(** ** Interrupts *)

Lemma wf_tx_off b c : wf c -> wf (set_mode_tx b c).
Proof. intros H. unfold set_mode_tx, cec_hw_enable_interrupt. destruct b; auto with cec. Qed.

Lemma wf_rx_on c : wf c -> wf (set_mode_rx_on c).
Proof. intros H. unfold set_mode_rx_on, cec_hw_enable_interrupt. auto with cec. Qed.

Lemma wf_send_tx cm st c : wf c -> wf (send_status_tx cm st c).
Proof. intros H. unfold send_status_tx. auto with cec. Qed.

Lemma wf_send_rx cm st c : wf c -> wf (send_status_rx cm st c).
Proof. intros H. unfold send_status_rx. auto with cec. Qed.
#[export] Hint Resolve wf_tx_off wf_rx_on wf_send_tx wf_send_rx wf_soc_req wf_soc_reset : cec.

Lemma isr_ok reg dptr rx c : wf c -> u8 dptr <= 16 -> exists c', sm_cec_isr reg dptr rx c = Some c' /\ wf c'.
Proof.
  intros H Hd. unfold sm_cec_isr. set (c1 := if has reg CEC_INTR_TX_FAIL then _ else _).
  assert (H1 : wf c1).
  { unfold c1, isr_tx_fail, disable0. destruct (has reg CEC_INTR_TX_FAIL); [|done]. cbv zeta.
    repeat match goal with |- wf (if ?b then _ else _) => destruct b end; auto 9 with cec;
    repeat match goal with |- context [if ?b then _ else _] => destruct b end; auto 9 with cec. }
  set (c2 := if has reg CEC_INTR_TX_COMPLETE then _ else _).
  assert (H2 : wf c2) by (unfold c2, isr_tx_complete, disable0; destruct (has reg CEC_INTR_TX_COMPLETE); auto 9 with cec).
  set (c3 := if has reg CEC_INTR_RX_FAIL then _ else _).
  assert (H3 : wf c3) by (unfold c3, isr_rx_fail, disable0; destruct (has reg CEC_INTR_RX_FAIL); auto 9 with cec).
  destruct (has reg CEC_INTR_RX_COMPLETE); [|by exists c3]. unfold isr_rx_complete. cbv zeta. unfold CEC_MAX_MSG_LEN.
  rewrite (proj2 (Z.ltb_ge 16 (u8 dptr))) by lia. eexists. split; [reflexivity|]. unfold cec_hw_enable_interrupt, disable0.
  pose proof (u8_range dptr) as Hu. unfold is_u8 in Hu. apply wf_send_rx, wf_intr, wf_emit, wf_set_rx; [|auto with cec].
  split; cbn [msg_len msg_fifo cec_clear_data]; [lia|]. rewrite length_splice; [reflexivity|]. rewrite length_map, length_seq, length_replicate. lia.
Qed.

(** ** The service *)

Section Service.
Variable junk : CEC_MSG.
Implicit Types (c : cec) (s : power) (m : CEC_MSG).

Lemma out_operands_length m : (length (out_operands m) <= 14)%nat.
Proof. unfold out_operands. repeat case_match; cbn [length]; try lia. rewrite length_take. unfold OSD_NAME_MAX_LENGTH. lia. Qed.

Lemma msg2frm_wf m : wf_data (msg2frm m).
Proof.
  pose proof (out_operands_length m). unfold msg2frm. cbv zeta. split; cbn [msg_len msg_fifo].
  - cbn [length]. lia.
  - rewrite length_app, length_replicate. cbn [length]. lia.
Qed.

Lemma wf_srv_tx now m c : wf c -> wf (sm_cec_srv_tx_msg now m c).
Proof. intros H. unfold sm_cec_srv_tx_msg, cec_add_app_cmd. cbv zeta. apply wf_write_app; [|done]. pose proof (msg2frm_wf (mk_msg (u8 (iLogicAddr (config c))) (destAddr m) (opcode m) (operandlen m) (operand m))) as []. by split. Qed.

Lemma wf_reply now dest op l c : wf c -> wf (send junk now dest op l c).
Proof. apply wf_srv_tx. Qed.

Lemma wf_wake now m c s : wf c -> wf (wake now m c s).1.
Proof. intros H. cbn. auto with cec. Qed.

Lemma wf_wake_if now m c s : wf c -> wf (wake_if now m c s).1.
Proof. intros H. unfold wake_if. destruct (standby _); [by apply wf_wake|done]. Qed.

Lemma wf_wake_with now l m c s : (length l <= 28)%nat -> wf c -> wf (wake_with now l m c s).1.
Proof. intros Hl H. unfold wake_with. destruct (standby _); [|done]. apply wf_wake. auto with cec. Qed.

Lemma wf_rx_box now m c s : wf c -> wf (rx_box junk now m c s).1.1.
Proof.
  intros H. unfold rx_box, report_phy_addr. cbv zeta.
  repeat match goal with |- context [if ?b then _ else _] => destruct b end; cbn [fst]; auto using wf_reply, wf_wake_if; apply wf_wake_with; cbn; lia || done.
Qed.

Lemma wf_rx_tv now m c s : wf c -> wf (rx_tv junk now m c s).1.1.
Proof.
  intros H. unfold rx_tv, report_phy_addr. cbv zeta.
  repeat match goal with |- context [if ?b then _ else _] => destruct b end; cbn [fst]; auto using wf_reply, wf_wake_if.
Qed.

Lemma frm2msg_total tbl d : wf_data d -> exists r, frm2msg tbl d = Some r.
Proof.
  intros [Hl _]. unfold frm2msg, in_operands. cbv zeta. unfold CEC_MAX_MSG_LEN. rewrite (proj2 (Z.ltb_ge 16 (msg_len d))) by lia.
  repeat match goal with
  | |- context [if ?b then _ else _] => destruct b
  | |- context [match ?x with Some _ => _ | None => _ end] => destruct x
  end; by eexists.
Qed.

Lemma rx_msg_ok now d c s : wf_data d -> wf c -> exists c' s', mv_sm_cec_srv_rx_msg junk now d c s = Some (c', s') /\ wf c'.
Proof.
  intros Hd H. unfold mv_sm_cec_srv_rx_msg, MV_SM_CEC_SRV_RX_MSG_TV, MV_SM_CEC_SRV_RX_MSG_BOX.
  destruct (frm2msg_total (SMCECMsgTable c) d Hd) as [[ret m] E]. rewrite E. cbn [mbind option_bind].
  pose proof (wf_rx_box now m c s H) as Hbox. pose proof (wf_rx_tv now m c s H) as Htv.
  destruct (rx_box junk now m c s) as [[c1 s1] a1], (rx_tv junk now m c s) as [[c2 s2] a2]. cbn [fst] in *.
  destruct (host_tv c), (rememberHdmiCtrlState c =? 0), (ret =? CEC_STATUS_ERR_MSG_IGNORED), (destAddr m =? 0x0F); cbn [andb]; eexists _, _; (split; [reflexivity|]);
    destruct a1, a2; auto; unfold feature_abort; auto using wf_reply.
Qed.

(** ** The task *)

Lemma wf_transmit d c : wf c -> wf (cec_hw_transmit d c).
Proof. intros H. unfold cec_hw_transmit. destruct (_ <? _); auto with cec. Qed.

Lemma wf_enable b c : wf c -> wf (sm_cec_enable b c).
Proof.
  intros H. unfold sm_cec_enable. set (c1 := set_app_fifo _ _).
  assert (H1 : wf c1).
  { destruct H as [(li & Hi & _) (la & Ha & _) ? ? ? ?]. split; try done; exists []; (split; [by eapply queue_clear|constructor]). }
  destruct b; [|auto with cec]. cbv zeta. unfold sm_cec_setconfig, cec_hw_reset, cec_hw_enable_interrupt. cbv zeta.
  apply wf_wakeup. repeat match goal with |- context [if ?b then _ else _] => destruct b end; auto 12 with cec.
Qed.

Lemma next_cmd_ok c : wf c -> exists d c', next_cmd c = Some (d, c') /\ wf c' /\ (forall x, d = Some x -> wf_data x) /\ taskstate c' = taskstate c.
Proof.
  intros H. pose proof H as [(li & Hi & Fi) (la & Ha & Fa) Ht Hr Hs Ho]. unfold next_cmd. pose proof (read_ok _ _ Hi) as Ri. pose proof (read_ok _ _ Ha) as Ra.
  destruct li as [|d li].
  - rewrite Ri. cbn [mbind option_bind]. destruct la as [|d la].
    + rewrite Ra. cbn [mbind option_bind]. eexists _, _. split; [reflexivity|]. split; [|done]. split; try done; by eexists.
    + destruct Ra as (f' & -> & Hq). cbn [mbind option_bind]. apply Forall_cons_iff in Fa as [Fd Fa]. eexists _, _. split; [reflexivity|].
      split; [split; try done; [by eexists|by exists la]|]. split; [|done]. by intros x [= <-].
  - destruct Ri as (f' & -> & Hq). cbn [mbind option_bind]. apply Forall_cons_iff in Fi as [Fd Fi]. eexists _, _. split; [reflexivity|].
    split; [split; try done; [by exists li|by eexists]|]. split; [|done]. by intros x [= <-].
Qed.

Lemma wf_retransmit line c : wf c -> wf (retransmit line c).
Proof.
  intros H. unfold retransmit. cbv zeta. set (d := mk_data _ _ _ _ _ _ _). assert (Hd : wf_data d) by (destruct (wf_tx c H); by split).
  apply wf_state. repeat match goal with |- context [if ?b then _ else _] => destruct b end; auto using wf_transmit with cec.
Qed.

Lemma task_ok now line c s : wf c -> exists c' s', sm_cec_task junk now line c s = Some (c', s') /\ wf c'.
Proof.
  intros H. unfold sm_cec_task. destruct (bCECTaskExit c); [by eexists _, _|].
  destruct (next_cmd_ok c H) as (d & c1 & -> & H1 & Hd & _). cbn [mbind option_bind]. destruct d as [d|]; [|by eexists _, _]. specialize (Hd d eq_refl).
  destruct (taskstate c1).
  - eexists _, _. split; [reflexivity|]. destruct (_ =? _); auto using wf_enable.
  - unfold task_listening. cbv zeta. repeat match goal with |- context [if ?b then _ else _] => destruct b end;
      auto using rx_msg_ok; eexists _, _; (split; [reflexivity|]); auto 9 using wf_enable, wf_transmit with cec.
  - unfold task_sending. cbv zeta. repeat match goal with |- context [if ?b then _ else _] => destruct b end;
      auto using rx_msg_ok; eexists _, _; (split; [reflexivity|]); auto 9 using wf_retransmit with cec.
Qed.

(** ** Messages from the SoC and from the power module *)

Lemma osd_total data iLen l : (forall i, i ∈ l -> (4 + i < length data)%nat) -> exists r, mapM (osd_byte data iLen) l = Some r /\ length r = length l.
Proof.
  induction l as [|i l IH]; intros Hl; [by exists []|]. cbn [mapM]. destruct (IH (fun j Hj => Hl j (list_elem_of_further _ _ _ Hj))) as (r & -> & Hr).
  assert (Hi : exists v, osd_byte data iLen i = Some v).
  { unfold osd_byte. destruct (_ <? _); [|by eexists]. apply lookup_lt_is_Some_2, Hl, list_elem_of_here. }
  destruct Hi as [v ->]. cbn [mbind option_bind]. eexists. split; [reflexivity|]. cbn. now rewrite Hr.
Qed.

Lemma msg_ok data iLen c : length data = 28%nat -> wf c -> exists c', sm_process_cec_msg junk data iLen c = Some c' /\ wf c'.
Proof.
  intros Hd H. unfold sm_process_cec_msg. rewrite decide_False by lia. cbv zeta. rewrite decide_False by lia.
  destruct (osd_total data iLen (seq 0 OSD_NAME_MAX_LENGTH)) as (r & -> & Hr).
  { intros i Hi. apply elem_of_seq in Hi. unfold OSD_NAME_MAX_LENGTH in Hi. lia. }
  cbn [mbind option_bind]. repeat match goal with |- context [if ?b then _ else _] => destruct b end;
    eexists; (split; [reflexivity|]); unfold cec_hw_set_logicaddr; auto with cec.
  - destruct H as [? ? ? ? ? Ho]. split; try done. cbn [osd_name set_osd_name]. rewrite length_seq in Hr. unfold OSD_NAME_MAX_LENGTH in Hr.
    rewrite length_splice; [done|lia].
  - apply wf_soc_reset, wf_emit, wf_soc_req; [cbn; lia|done].
Qed.

Lemma internal_ok now flow st c : wf c -> wf (mv_sm_process_internal_cec_msg junk now flow st c).
Proof. intros H. unfold mv_sm_process_internal_cec_msg. destruct flow; repeat case_decide; auto using wf_reply, wf_enable. Qed.

(** ** Runs *)

(** [EvSys]: the rest of the firmware has changed the power state. *)
Inductive cec_event :=
| EvIsr (reg dptr : Z) (rx : nat -> Z)
| EvTask (now line : Z)
| EvMsg (data : bytes) (iLen : Z)
| EvPower (now : Z) (flow : SM_POWER_FLOW) (st : POWER_STATUS)
| EvSys (s : power).

Definition cec_step (e : cec_event) (x : cec * power) : option (cec * power) :=
  let '(c, s) := x in
  match e with
  | EvIsr reg dptr rx => c ← sm_cec_isr reg dptr rx c; Some (c, s)
  | EvTask now line => sm_cec_task junk now line c s
  | EvMsg data iLen => c ← sm_process_cec_msg junk data iLen c; Some (c, s)
  | EvPower now flow st => Some (mv_sm_process_internal_cec_msg junk now flow st c, s)
  | EvSys s => Some (c, s)
  end.

Fixpoint cec_run (l : list cec_event) (x : cec * power) : option (cec * power) :=
  match l with [] => Some x | e :: l => x ← cec_step e x; cec_run l x end.

(** A frame has at most 16 bytes, and the body of a message is 28 bytes long. *)
Definition ok_event (e : cec_event) : Prop :=
  match e with EvIsr _ dptr _ => u8 dptr <= 16 | EvMsg data _ => length data = 28%nat | _ => True end.

Lemma step_ok e c s : ok_event e -> wf c -> exists c' s', cec_step e (c, s) = Some (c', s') /\ wf c'.
Proof.
  intros He H. destruct e as [reg dptr rx|now line|data iLen|now flow st|s2]; cbn [cec_step].
  - destruct (isr_ok reg dptr rx c H He) as (c' & -> & H'). by eexists _, _.
  - by apply task_ok.
  - destruct (msg_ok data iLen c He H) as (c' & -> & H'). by eexists _, _.
  - eexists _, _. split; [reflexivity|]. by apply internal_ok.
  - by eexists _, _.
Qed.

Lemma run_ok l c s : Forall ok_event l -> wf c -> exists c' s', cec_run l (c, s) = Some (c', s') /\ wf c'.
Proof.
  revert c s. induction l as [|e l IH]; intros c s Hl H; [by eexists _, _|]. apply Forall_cons_iff in Hl as [He Hl].
  cbn [cec_run]. destruct (step_ok e c s He H) as (c1 & s1 & -> & H1). cbn [mbind option_bind]. by apply IH.
Qed.

End Service.

Lemma init_wf tv en : wf (mv_sm_cec_init tv en).
Proof.
  unfold mv_sm_cec_init. apply wf_enable.
  assert (Hf : wf_fifo (mk_fifo 0 0 (replicate 3 zero_data))) by (exists []; split; [split; cbn; lia || done|constructor]).
  split; try exact Hf; cbn; repeat split; reflexivity || lia || done.
Qed.

(** C29: From power on, whatever interrupts arrive, whatever the task and the power
    module do and whatever the SoC sends, no store leaves its buffer, and every message in the queues keeps its shape,
    as long as no frame is longer than 16 bytes. *)
Theorem cec_runs_safely junk tv en l s :
  Forall ok_event l -> exists c' s', cec_run junk l (mv_sm_cec_init tv en, s) = Some (c', s') /\ wf c'.
Proof. intros Hl. apply run_ok; [done|apply init_wf]. Qed.

Lemma cec_runs_safely_witness : exists c' s',
  cec_run zero_msg [EvPower 5 FLOW_ACTIVE_2_SUSPEND STA_LEAVEFLOW; EvTask 10 1; EvIsr 0x10 0 (fun _ => 0); EvTask 20 1; EvIsr 0x20 16 (fun _ => 255); EvTask 30 1;
    EvMsg (MV_SM_CEC_OSD_INFO :: replicate 27 0) 28] (mv_sm_cec_init false 0, power_init) = Some (c', s') /\ wf c'.
Proof. apply (cec_runs_safely zero_msg false 0). repeat constructor; discriminate. Defined.
