(* ===== verification/CecFlow.v ===== *)
(** * Transmissions and receptions over HDMI-CEC

    How a transmission that fails ends, how it can stay unfinished for ever, and
    what becomes of a message that is received in standby. *)

From S2P Require Import Prelude PowerFlow Cec CecSafety.

Definition is_tx (e : cec_effect) : bool := match e with Transmit _ _ _ => true | _ => false end.

(** What went out on the line, in order. *)
Definition transmissions (c : cec) : list cec_effect := List.filter is_tx (cec_out c).

Definition transmission (free_time : Z) (d : CEC_TASK_DATA) : cec_effect :=
  Transmit free_time (mode d =? CEC_MODE_BROADCAST) (take (Z.to_nat (msg_len d)) (msg_fifo d)).

Lemma transmissions_emit e c : transmissions (cec_emit e c) = transmissions c ++ (if is_tx e then [e] else []).
Proof. unfold transmissions. cbn [cec_out cec_emit set_cec_out]. rewrite List.filter_app. cbn [List.filter]. now destruct (is_tx e). Qed.

(** A failure other than one of the signal free time, with no other interrupt. *)
Definition failure (reg : Z) : bool :=
  has reg CEC_INTR_TX_FAIL && (has reg CEC_INTR_TX_COLLISION || negb (has reg (Z.land CEC_INTR_TX_SFT_FAIL 0xff))) &&
  negb (has reg (Z.lor CEC_INTR_TX_COMPLETE (Z.lor CEC_INTR_RX_FAIL CEC_INTR_RX_COMPLETE))).

Lemma has_lor reg a b : has reg (Z.lor a b) = has reg a || has reg b.
Proof.
  unfold has. rewrite Z.land_lor_distr_r. apply Bool.eq_iff_eq_true. rewrite orb_true_iff, !negb_true_iff, !Z.eqb_neq, Z.lor_eq_0_iff.
  destruct (Z.eq_dec (Z.land reg a) 0), (Z.eq_dec (Z.land reg b) 0); intuition.
Qed.

(** The interrupt of a failure alone: one entry for the task, the status noted. *)
Record failed (c c' : cec) (st : Z) : Prop := mk_failed {
  fl_app : app_fifo c' = app_fifo c;
  fl_isr : isr_fifo c' = (cec_write_fifo (tx_data c') (isr_fifo c)).1;
  fl_tx : tx_data c' = with_status (tx_data c) CEC_CMD_TX_FAILED st;
  fl_state : taskstate c' = taskstate c;
  fl_retrans : retrans_time c' = retrans_time c;
  fl_exit : bCECTaskExit c' = bCECTaskExit c;
  fl_sent : transmissions c' = transmissions c;
}.

Lemma isr_failure reg dptr rx c : failure reg = true -> exists c' st, sm_cec_isr reg dptr rx c = Some c' /\ failed c c' st /\ u8 st <> CEC_TX_FAIL_SIGNAL_FREE_TIME.
Proof.
  intros H. unfold failure in H. rewrite !has_lor in H. apply andb_true_iff in H as [H Hn]. apply andb_true_iff in H as [Hf Hs].
  apply negb_true_iff in Hn. apply orb_false_iff in Hn as [Hc Hn]. apply orb_false_iff in Hn as [Hr Hm].
  unfold sm_cec_isr. rewrite Hf, Hc, Hr, Hm. unfold isr_tx_fail. cbv zeta. change (Z.land CEC_INTR_TX_COLLISION 255) with CEC_INTR_TX_COLLISION.
  assert (Hcase : forall st, exists c', Some (let c1 := set_mode_tx false (send_status_tx CEC_CMD_TX_FAILED st (disable0 CEC_INTR_TX_FAIL (cec_emit TxOff c))) in
      if status (tx_data c1) =? CEC_TX_FAIL_LINE_BUSY then set_mode_rx_on c1 else c1) = Some c' /\ failed c c' st).
  { intros st. eexists. split; [reflexivity|]. cbv zeta. destruct (_ =? _); split; try reflexivity;
      unfold transmissions; cbn; rewrite !List.filter_app; cbn; now rewrite ?app_nil_r. }
  destruct (has reg CEC_INTR_TX_COLLISION); [|destruct (has reg (Z.land CEC_INTR_TX_SFT_FAIL 255)); [done|]; destruct (has reg (Z.land (Z.lor _ _) 255))].
  - destruct (Hcase CEC_TX_FAIL_LINE_BUSY) as (c' & E & F). by exists c', CEC_TX_FAIL_LINE_BUSY.
  - destruct (Hcase CEC_TX_FAIL_NACK) as (c' & E & F). by exists c', CEC_TX_FAIL_NACK.
  - destruct (Hcase CEC_TX_FAIL_INDATA) as (c' & E & F). by exists c', CEC_TX_FAIL_INDATA.
Qed.

(** ** A transmission that fails *)

(** The frame of [d] is on its way after [k] repetitions; [l] waits behind it. *)
Record sending (d : CEC_TASK_DATA) (l : list CEC_TASK_DATA) (k : Z) (c : cec) : Prop := mk_sending {
  sd_state : taskstate c = CEC_TASK_STATE_SENDING;
  sd_exit : bCECTaskExit c = false;
  sd_isr : queue (isr_fifo c) [];
  sd_app : queue (app_fifo c) l;
  sd_count : retrans_time c = k;
  sd_frame : (mode (tx_data c), msg_len (tx_data c), msg_fifo (tx_data c), txtime (tx_data c)) = (mode d, msg_len d, msg_fifo d, txtime d);
}.

(** The task has nothing to do. *)
Record listening (l : list CEC_TASK_DATA) (c : cec) : Prop := mk_listening {
  ls_state : taskstate c = CEC_TASK_STATE_LISTENING;
  ls_exit : bCECTaskExit c = false;
  ls_isr : queue (isr_fifo c) [];
  ls_app : queue (app_fifo c) l;
}.

(** An entry in an empty queue is the next one that is read. *)
Lemma write_read f d : queue f [] -> exists f', cec_read_fifo (cec_write_fifo d f).1 = Some (Some d, f') /\ queue f' [].
Proof.
  intros Hq. destruct (write_ok f [] d Hq) as [[E _]|(_ & f1 & -> & Hq1 & _)]; [done|]. exact (read_ok f1 [d] Hq1).
Qed.

Section Flow.
Variable junk : CEC_MSG.
Implicit Types (c : cec) (s : power) (d : CEC_TASK_DATA).

Lemma next_cmd_isr c d f : cec_read_fifo (isr_fifo c) = Some (Some d, f) -> next_cmd c = Some (Some d, set_isr_fifo f c).
Proof. intros E. unfold next_cmd. now rewrite E. Qed.

Lemma next_cmd_app c d l : queue (isr_fifo c) [] -> queue (app_fifo c) (d :: l) -> exists f, next_cmd c = Some (Some d, set_app_fifo f c) /\ queue f l.
Proof.
  intros Hi Ha. unfold next_cmd. rewrite (read_ok _ _ Hi). cbn [mbind option_bind]. destruct (read_ok _ _ Ha) as (f & -> & Hf). by exists f.
Qed.

(** One failure and the task that sees it. *)
Definition failed_round (x : Z * Z) : list cec_event := let '(reg, now) := x in [EvIsr reg 0 (fun _ => 0); EvTask now 1].

Definition in_time (d : CEC_TASK_DATA) (x : Z * Z) : Prop := failure x.1 = true /\ u32 (x.2 - txtime d) <= CEC_TX_TIMEOUT.

Lemma timeout_in_time x : u32 x <= CEC_TX_TIMEOUT -> i32 x <= CEC_TX_TIMEOUT.
Proof.
  unfold u32, i32, CEC_TX_TIMEOUT. intros H. pose proof (Z.mod_pos_bound x (2 ^ 32) ltac:(lia)). pose proof (Z.div_mod x (2 ^ 32) ltac:(lia)) as E.
  rewrite E, (Z.mul_comm (2 ^ 32)). replace (x / 2 ^ 32 * 2 ^ 32 + x mod 2 ^ 32 + 2 ^ 31) with (x mod 2 ^ 32 + 2 ^ 31 + x / 2 ^ 32 * 2 ^ 32) by lia.
  rewrite Z.mod_add, Z.mod_small by lia. lia.
Qed.

(** After the interrupt of a failure the task decides on the number of repetitions and the time. *)
Lemma failed_step d l k c s reg now line :
  sending d l k c -> failure reg = true ->
  exists c1, sm_cec_isr reg 0 (fun _ => 0) c = Some c1 /\ exists c2, taskstate c2 = CEC_TASK_STATE_SENDING /\ sending d l k c2 /\
    transmissions c2 = transmissions c /\ status (tx_data c2) <> CEC_TX_FAIL_SIGNAL_FREE_TIME /\
    sm_cec_task junk now line c1 s =
      Some (if (k <? MAX_RETRANS_TIME) || (CEC_TX_TIMEOUT <? i32 (now - txtime d)) then retransmit line c2
            else set_taskstate CEC_TASK_STATE_LISTENING (set_tx_data (cec_clear_data (tx_data c2)) c2), s).
Proof.
  intros [Hs He Hi Ha Hk Hf] Hr. destruct (isr_failure reg 0 (fun _ => 0) c Hr) as (c1 & st & E1 & [Fa Fi Ft Fs Fr Fe Fo] & Hst).
  exists c1. split; [done|]. destruct (write_read (isr_fifo c) (tx_data c1) Hi) as (f & Rf & Qf). rewrite <- Fi in Rf.
  exists (set_isr_fifo f c1). split; [cbn; congruence|]. split.
  { split; cbn; [congruence|congruence|exact Qf|now rewrite Fa|congruence|]. rewrite Ft. exact Hf. }
  split; [exact Fo|]. split; [cbn; now rewrite Ft|]. unfold sm_cec_task. rewrite Fe, He, (next_cmd_isr _ _ _ Rf). cbn [mbind option_bind].
  cbn [taskstate set_isr_fifo]. rewrite Fs, Hs. unfold task_sending. cbv zeta. replace (cmd (tx_data c1)) with (u8 CEC_CMD_TX_FAILED) by (now rewrite Ft).
  change (u8 CEC_CMD_TX_FAILED =? CEC_CMD_TX_DONE) with false. change (u8 CEC_CMD_TX_FAILED =? CEC_CMD_TX_FAILED) with true. cbn [retrans_time set_isr_fifo tx_data].
  rewrite Fr, Hk. replace (txtime (tx_data c1)) with (txtime d); [reflexivity|]. rewrite Ft. cbn. congruence.
Qed.

Lemma transmit_sent d c : msg_len d <= 16 ->
  transmissions (cec_hw_transmit d c) = transmissions c ++ [transmission (if retry d =? 1 then CEC_TX_SIGNAL_FREE_TIME else CEC_RETX_SIGNAL_FREE_TIME) d].
Proof.
  intros H. unfold cec_hw_transmit, CEC_MAX_MSG_LEN. rewrite (proj2 (Z.ltb_ge 16 (msg_len d))) by done. cbv zeta. rewrite transmissions_emit. reflexivity.
Qed.

(** Before the last repetition, or when the message is older than six seconds. *)
Lemma retransmit_sending d l k c :
  sending d l k c -> msg_len d <= 16 -> status (tx_data c) <> CEC_TX_FAIL_SIGNAL_FREE_TIME ->
  sending d l (u8 (k + 1)) (retransmit 1 c) /\ transmissions (retransmit 1 c) = transmissions c ++ [transmission CEC_TX_SIGNAL_FREE_TIME d].
Proof.
  intros [Hs He Hi Ha Hk Hf] Hl Hst. injection Hf as F1 F2 F3 F4. unfold retransmit. cbv zeta. change (Z.land 1 1 =? 1) with true. cbv iota.
  cbn [status]. rewrite (proj2 (Z.eqb_neq _ _) Hst). cbn [negb]. set (dr := mk_data _ _ 1 _ _ _ _).
  assert (Et : transmission CEC_TX_SIGNAL_FREE_TIME dr = transmission CEC_TX_SIGNAL_FREE_TIME d) by (unfold transmission, dr; cbn; now rewrite F1, F2, F3).
  split.
  - unfold cec_hw_transmit. rewrite (proj2 (Z.ltb_ge _ _)) by (cbn; rewrite F2; unfold CEC_MAX_MSG_LEN; lia).
    split; cbn; try done; [now rewrite Hk|now rewrite F1, F2, F3, F4].
  - rewrite <- Et. exact (transmit_sent dr (set_tx_data dr c) ltac:(cbn; lia)).
Qed.

Lemma cec_run_app l1 l2 x y : cec_run junk l1 x = Some y -> cec_run junk (l1 ++ l2) x = cec_run junk l2 y.
Proof.
  revert x. induction l1 as [|e l1 IH]; intros x; cbn [cec_run app]; [by intros [= ->]|].
  destruct (cec_step junk e x) as [z|]; cbn [mbind option_bind]; [apply IH|done].
Qed.

(** Rounds that are followed by another attempt. *)
Definition retried (d : CEC_TASK_DATA) (k : Z) (x : Z * Z) : Prop :=
  failure x.1 = true /\ (k < MAX_RETRANS_TIME \/ CEC_TX_TIMEOUT < i32 (x.2 - txtime d)).

Lemma round_retried d l k c s x :
  sending d l k c -> msg_len d <= 16 -> retried d k x ->
  exists c', cec_run junk (failed_round x) (c, s) = Some (c', s) /\ sending d l (u8 (k + 1)) c' /\
    transmissions c' = transmissions c ++ [transmission CEC_TX_SIGNAL_FREE_TIME d].
Proof.
  destruct x as [reg now]. intros Hc Hl [Hr Ht]. destruct (failed_step d l k c s reg now 1 Hc Hr) as (c1 & E1 & c2 & _ & H2 & T2 & S2 & E2).
  destruct (retransmit_sending d l k c2 H2 Hl S2) as [H3 T3]. exists (retransmit 1 c2). rewrite T3, T2. split; [|done].
  cbn [failed_round cec_run cec_step]. rewrite E1. cbn [mbind option_bind cec_run cec_step]. rewrite E2. replace (_ || _) with true; [done|].
  symmetry. apply orb_true_iff. cbn [fst snd] in Ht. destruct Ht; [left|right]; by apply Z.ltb_lt.
Qed.

Lemma rounds_in_time d l n : forall fails k c s,
  sending d l k c -> msg_len d <= 16 -> length fails = n -> 0 <= k -> k + Z.of_nat n <= MAX_RETRANS_TIME -> Forall (in_time d) fails ->
  exists c', cec_run junk (concat (map failed_round fails)) (c, s) = Some (c', s) /\ sending d l (k + Z.of_nat n) c' /\
    transmissions c' = transmissions c ++ replicate n (transmission CEC_TX_SIGNAL_FREE_TIME d).
Proof.
  unfold MAX_RETRANS_TIME. induction n as [|n IH]; intros [|x fails] k c s Hc Hl Hn Hk Hk5 Hf; try done.
  { exists c. rewrite Z.add_0_r, app_nil_r. done. }
  apply Forall_cons_iff in Hf as [[Hx _] Hf]. destruct (round_retried d l k c s x Hc Hl) as (c1 & E1 & H1 & T1); [split; [done|left; unfold MAX_RETRANS_TIME; lia]|].
  replace (u8 (k + 1)) with (k + 1) in H1 by (unfold u8; rewrite Z.mod_small; lia). injection Hn as Hn.
  destruct (IH fails (k + 1) c1 s H1 Hl Hn ltac:(lia) ltac:(lia) Hf) as (c2 & E2 & H2 & T2). exists c2. cbn [map concat]. rewrite (cec_run_app _ _ _ _ E1), E2.
  split; [done|]. split; [|now rewrite T2, T1, <- app_assoc]. by replace (k + Z.of_nat (S n)) with (k + 1 + Z.of_nat n) by lia.
Qed.

(** The last failure. *)
Lemma round_gives_up d l c s x :
  sending d l MAX_RETRANS_TIME c -> in_time d x ->
  exists c', cec_run junk (failed_round x) (c, s) = Some (c', s) /\ listening l c' /\ transmissions c' = transmissions c.
Proof.
  destruct x as [reg now]. intros Hc [Hr Ht]. destruct (failed_step d l _ c s reg now 1 Hc Hr) as (c1 & E1 & c2 & _ & [? ? ? ? ? ?] & T2 & _ & E2).
  eexists. cbn [failed_round cec_run cec_step]. rewrite E1. cbn [mbind option_bind cec_run cec_step]. rewrite E2, Z.ltb_irrefl, (proj2 (Z.ltb_ge _ _)) by (by apply timeout_in_time).
  split; [reflexivity|]. split; [by split|exact T2].
Qed.

(** The task takes a message to send, and the line is free. *)
Lemma task_starts d l c s now :
  listening (d :: l) c -> cmd d = CEC_CMD_TX_MSG -> msg_len d <= 16 ->
  exists c', cec_run junk [EvTask now 1] (c, s) = Some (c', s) /\ sending d l 0 c' /\
    transmissions c' = transmissions c ++ [transmission (if retry d =? 1 then CEC_TX_SIGNAL_FREE_TIME else CEC_RETX_SIGNAL_FREE_TIME) d].
Proof.
  intros [Hs He Hi Ha] Hc Hl. destruct (next_cmd_app c d l Hi Ha) as (f & En & Qf). cbn [cec_run cec_step]. unfold sm_cec_task. rewrite He, En.
  cbn [mbind option_bind taskstate set_app_fifo]. rewrite Hs. unfold task_listening. rewrite Hc. cbv zeta.
  change (CEC_CMD_TX_MSG =? CEC_CMD_EXIT) with false. change (CEC_CMD_TX_MSG =? CEC_CMD_RX_MSG) with false. change (CEC_CMD_TX_MSG =? CEC_CMD_TX_MSG) with true.
  change (Z.land 1 1 =? 1) with true. cbv iota. cbn [mbind option_bind]. eexists. split; [reflexivity|]. split.
  - unfold cec_hw_transmit. rewrite (proj2 (Z.ltb_ge _ _)) by (unfold CEC_MAX_MSG_LEN; lia). by split.
  - exact (transmit_sent d _ Hl).
Qed.

(** C30: A message whose every transmission fails, none of them for the signal free time,
    each within six seconds and with the line free when the task repeats it, is sent six
    times and then given up: the task listens again, with the messages behind it still in
    the queue. *)
Theorem cec_gives_up c s d l now fails :
  listening (d :: l) c -> cmd d = CEC_CMD_TX_MSG -> retry d = 0 -> msg_len d <= 16 -> length fails = 6%nat -> Forall (in_time d) fails ->
  exists c', cec_run junk (EvTask now 1 :: concat (map failed_round fails)) (c, s) = Some (c', s) /\ listening l c' /\
    transmissions c' = transmissions c ++ transmission CEC_RETX_SIGNAL_FREE_TIME d :: replicate 5 (transmission CEC_TX_SIGNAL_FREE_TIME d).
Proof.
  intros Hc Hd Hr Hl Hn Hf. destruct (task_starts d l c s now Hc Hd Hl) as (c1 & E1 & H1 & T1). rewrite Hr in T1. change (0 =? 1) with false in T1. cbv iota in T1.
  destruct fails as [|x fails _] using rev_ind; [done|]. apply list.Forall_app in Hf as [Hf Hx]. apply Forall_cons_iff in Hx as [Hx _].
  rewrite length_app in Hn. cbn [length] in Hn.
  destruct (rounds_in_time d l 5 fails 0 c1 s H1 Hl ltac:(lia) ltac:(lia) ltac:(done) Hf) as (c2 & E2 & H2 & T2).
  destruct (round_gives_up d l c2 s x H2 Hx) as (c3 & E3 & H3 & T3). exists c3. split; [|split; [done|now rewrite T3, T2, T1, <- app_assoc]].
  change (EvTask now 1 :: ?r) with ([EvTask now 1] ++ r). rewrite (cec_run_app _ _ _ _ E1), map_app, concat_app, (cec_run_app _ _ _ _ E2). cbn [map concat].
  now rewrite app_nil_r.
Qed.

(** A message that is older than six seconds is never given up. *)
Theorem cec_retries_forever c s d l k fails :
  sending d l k c -> msg_len d <= 16 -> Forall (fun x => failure x.1 = true /\ CEC_TX_TIMEOUT < i32 (x.2 - txtime d)) fails ->
  exists c' k', cec_run junk (concat (map failed_round fails)) (c, s) = Some (c', s) /\ sending d l k' c' /\
    transmissions c' = transmissions c ++ replicate (length fails) (transmission CEC_TX_SIGNAL_FREE_TIME d).
Proof.
  intros Hc Hl Hf. revert c k Hc. induction Hf as [|x fails [Hx Ht] Hf IH]; intros c k Hc; [exists c, k; by rewrite app_nil_r|].
  destruct (round_retried d l k c s x Hc Hl) as (c1 & E1 & H1 & T1); [by split; [|right]|]. destruct (IH c1 _ H1) as (c2 & k2 & E2 & H2 & T2).
  exists c2, k2. cbn [map concat]. rewrite (cec_run_app _ _ _ _ E1), E2. split; [done|]. split; [done|]. now rewrite T2, T1, <- app_assoc.
Qed.

(** ** A transmission that never ends *)

(** What a received message leaves alone when the queue of the services is full. *)
Record quiet (c c' : cec) : Prop := mk_quiet {
  qt_isr : isr_fifo c' = isr_fifo c;
  qt_app : app_fifo c' = app_fifo c;
  qt_state : taskstate c' = taskstate c;
  qt_sent : transmissions c' = transmissions c;
}.

Definition full (f : fifo) : Prop := exists a b, queue f [a; b].

Lemma full_write f d : full f -> (cec_write_fifo d f).1 = f.
Proof. intros (a & b & Hq). destruct (write_ok f [a; b] d Hq) as [[_ ->]|[Hl _]]; [done|]. cbn in Hl. lia. Qed.

Lemma quiet_refl c : quiet c c.
Proof. by split. Qed.

Lemma quiet_trans c1 c2 c3 : quiet c1 c2 -> quiet c2 c3 -> quiet c1 c3.
Proof. intros [] []. split; congruence. Qed.

Lemma quiet_send now dest op l c : full (app_fifo c) -> quiet c (send junk now dest op l c).
Proof. intros H. split; try done. exact (full_write _ _ H). Qed.

Lemma quiet_wakeup m c : quiet c (set_wakeup_msg m c).
Proof. by split. Qed.

Lemma quiet_soc_req l c : quiet c (set_soc_req l c).
Proof. by split. Qed.

Lemma quiet_wake_if now m c s : quiet c (wake_if now m c s).1.
Proof. unfold wake_if. destruct (standby _); [apply quiet_wakeup|apply quiet_refl]. Qed.

Lemma quiet_wake_with now l m c s : quiet c (wake_with now l m c s).1.
Proof. unfold wake_with. destruct (standby _); [|apply quiet_refl]. eapply quiet_trans; [apply quiet_soc_req|apply quiet_wakeup]. Qed.

#[local] Hint Resolve quiet_refl quiet_send quiet_wake_if quiet_wake_with : cec.

Lemma quiet_box now m c s : full (app_fifo c) -> quiet c (rx_box junk now m c s).1.1.
Proof.
  intros H. unfold rx_box, report_phy_addr. cbv zeta.
  repeat match goal with |- context [if ?b then _ else _] => destruct b end; cbn [fst]; auto with cec.
Qed.

Lemma quiet_tv now m c s : full (app_fifo c) -> quiet c (rx_tv junk now m c s).1.1.
Proof.
  intros H. unfold rx_tv, report_phy_addr. cbv zeta.
  repeat match goal with |- context [if ?b then _ else _] => destruct b end; cbn [fst]; auto with cec.
Qed.

Lemma quiet_rx now d c s c' s' : full (app_fifo c) -> mv_sm_cec_srv_rx_msg junk now d c s = Some (c', s') -> quiet c c'.
Proof.
  intros H. unfold mv_sm_cec_srv_rx_msg, MV_SM_CEC_SRV_RX_MSG_TV, MV_SM_CEC_SRV_RX_MSG_BOX.
  assert (Ha : forall c1 s1 a m, quiet c c1 -> Some (match a : option Z with Some r => feature_abort junk now r m c1 | None => c1 end, s1) = Some (c', s') -> quiet c c').
  { intros c1 s1 a m Hq [= <- <-]. destruct a; [|done]. eapply quiet_trans; [done|]. apply quiet_send. by rewrite (qt_app _ _ Hq). }
  destruct (frm2msg (SMCECMsgTable c) d) as [[ret m]|]; cbn [mbind option_bind]; [|by repeat case_match; intros [= <- _]].
  pose proof (quiet_box now m c s H) as Hbox. pose proof (quiet_tv now m c s H) as Htv.
  destruct (rx_box junk now m c s) as [[c1 s1] a1], (rx_tv junk now m c s) as [[c2 s2] a2]. cbn [fst] in *.
  destruct (host_tv c), (rememberHdmiCtrlState c =? 0), (ret =? CEC_STATUS_ERR_MSG_IGNORED), (destAddr m =? 0x0F); cbn [andb];
    first [by eapply Ha | intros [= <- _]; apply quiet_refl].
Qed.

Definition no_report (d : CEC_TASK_DATA) : Prop := cmd d <> CEC_CMD_TX_DONE /\ cmd d <> CEC_CMD_TX_FAILED.

(** The task waits for a report on its transmission that nothing will make. *)
Record wedged (c : cec) : Prop := mk_wedged {
  wd_state : taskstate c = CEC_TASK_STATE_SENDING;
  wd_isr : exists l, queue (isr_fifo c) l /\ Forall no_report l;
  wd_app : exists a b, queue (app_fifo c) [a; b] /\ cmd a = CEC_CMD_TX_MSG /\ cmd b = CEC_CMD_TX_MSG;
}.

Lemma wedged_quiet c c' : wedged c -> quiet c c' -> wedged c'.
Proof. intros [Hs Hi Ha] [Ei Ea Es _]. split; [congruence|by rewrite Ei|by rewrite Ea]. Qed.

Lemma wedged_full c : wedged c -> full (app_fifo c).
Proof. intros [_ _ (a & b & Hq & _)]. by exists a, b. Qed.

(** Receptions, task rounds and messages of the SoC; the transmitter is silent, so
    it raises no interrupt. *)
Definition without_report (e : cec_event) : Prop :=
  match e with EvIsr reg _ _ => has reg (Z.lor CEC_INTR_TX_FAIL CEC_INTR_TX_COMPLETE) = false | EvPower _ _ _ => False | _ => True end.

Lemma wedged_write d c : no_report d -> wedged c -> wedged (CEC_WRITE_ISR_FIFO d c).
Proof.
  intros Hd [Hs (l & Hq & Hl) Ha]. split; [done| |done]. cbn. destruct (write_ok _ _ d Hq) as [[_ ->]|(_ & f & -> & Hf & _)]; [by exists l|].
  exists (l ++ [d]). split; [done|]. apply list.Forall_app. split; [done|by constructor].
Qed.

Lemma wedged_isr reg dptr rx c c' : has reg (Z.lor CEC_INTR_TX_FAIL CEC_INTR_TX_COMPLETE) = false -> wedged c -> sm_cec_isr reg dptr rx c = Some c' ->
  wedged c' /\ transmissions c' = transmissions c.
Proof.
  intros Hr Hw. rewrite has_lor in Hr. apply orb_false_iff in Hr as [Hf Hc]. unfold sm_cec_isr. rewrite Hf, Hc. cbv zeta.
  set (c1 := if has reg CEC_INTR_RX_FAIL then _ else _).
  assert (H1 : wedged c1 /\ transmissions c1 = transmissions c).
  { unfold c1. destruct (has reg CEC_INTR_RX_FAIL); [|exact (conj Hw eq_refl)]. split; [|reflexivity]. apply wedged_write; [by split; cbn|]. by apply (wedged_quiet c). }
  destruct H1 as [H1 T1]. destruct (has reg CEC_INTR_RX_COMPLETE); [|intros [= <-]; done].
  unfold isr_rx_complete. cbv zeta. destruct (_ <? _); [done|]. intros [= <-]. split.
  - apply wedged_write; [by split; cbn|]. apply (wedged_quiet c1); [done|]. split; try done. unfold transmissions; cbn. now rewrite List.filter_app, app_nil_r.
  - rewrite <- T1. unfold transmissions; cbn. now rewrite List.filter_app, app_nil_r.
Qed.

Lemma wedged_task now line c s c' s' : wedged c -> sm_cec_task junk now line c s = Some (c', s') -> wedged c' /\ transmissions c' = transmissions c.
Proof.
  intros Hw. pose proof Hw as [Hs (li & Hi & Fi) (a & b & Ha & Ca & Cb)]. unfold sm_cec_task. destruct (bCECTaskExit c); [by intros [= <- _]|].
  destruct li as [|d li].
  - destruct (next_cmd_app c a [b] Hi Ha) as (f & -> & Qf). cbn [mbind option_bind taskstate set_app_fifo]. rewrite Hs. unfold task_sending. cbv zeta. rewrite Ca.
    intros [= <- _]. split; [|done]. split; cbn [taskstate isr_fifo app_fifo CEC_WRITE_APP_FIFO set_app_fifo]; [done|by exists []|].
    destruct (write_ok f [b] a Qf) as [[E _]|(_ & f1 & -> & Qf1 & _)]; [done|]. by exists b, a.
  - destruct (read_ok _ _ Hi) as (f & Ef & Qf). rewrite (next_cmd_isr _ _ _ Ef). cbn [mbind option_bind taskstate set_isr_fifo]. rewrite Hs.
    apply Forall_cons_iff in Fi as [[Fd Ff] Fi]. set (c1 := set_isr_fifo f c).
    assert (H1 : wedged c1) by (split; [done|by exists li|by exists a, b]). unfold task_sending. cbv zeta.
    rewrite (proj2 (Z.eqb_neq _ _) Fd), (proj2 (Z.eqb_neq _ _) Ff). destruct (cmd d =? CEC_CMD_RX_MSG).
    + intros E. apply quiet_rx in E; [|by apply wedged_full]. split; [by apply (wedged_quiet c1)|]. now rewrite (qt_sent _ _ E).
    + assert (Hq : quiet c1 (CEC_WRITE_APP_FIFO d c1)) by (split; try done; exact (full_write _ _ (wedged_full _ H1))).
      destruct (_ =? _); intros [= <- _]; [|done]. split; [by apply (wedged_quiet c1)|exact (qt_sent _ _ Hq)].
Qed.

Lemma quiet_msg data iLen c c' : sm_process_cec_msg junk data iLen c = Some c' -> quiet c c'.
Proof.
  unfold sm_process_cec_msg. repeat case_decide; try done; cbv zeta; destruct (mapM _ _) as [r|]; cbn [mbind option_bind];
  repeat match goal with |- context [if ?b then _ else _] => destruct b end; intros E; try discriminate E; injection E as <-;
    split; try reflexivity; unfold transmissions; cbn; now rewrite ?List.filter_app, ?app_nil_r.
Qed.

Lemma wedged_step e c s c' s' : without_report e -> wedged c -> cec_step junk e (c, s) = Some (c', s') -> wedged c' /\ transmissions c' = transmissions c.
Proof.
  intros He Hw. destruct e as [reg dptr rx|now line|data iLen|now flow st|s2]; cbn [cec_step].
  - destruct (sm_cec_isr reg dptr rx c) as [c1|] eqn:E; cbn [mbind option_bind]; [|done]. intros [= <- _]. by eapply wedged_isr.
  - by apply wedged_task.
  - destruct (sm_process_cec_msg junk data iLen c) as [c1|] eqn:E; cbn [mbind option_bind]; [|done]. intros [= <- _]. apply quiet_msg in E.
    split; [by apply (wedged_quiet c)|exact (qt_sent _ _ E)].
  - done.
  - by intros [= <- _].
Qed.

Lemma wedged_run l : forall c s, Forall ok_event l -> Forall without_report l -> wf c -> wedged c ->
  exists c' s', cec_run junk l (c, s) = Some (c', s') /\ wedged c' /\ transmissions c' = transmissions c.
Proof.
  induction l as [|e l IH]; intros c s Ho Hr Hf Hw; [by eexists _, _|]. apply Forall_cons_iff in Ho as [He Ho]. apply Forall_cons_iff in Hr as [Hre Hr].
  destruct (step_ok junk e c s He Hf) as (c1 & s1 & E1 & H1). destruct (wedged_step e c s c1 s1 Hre Hw E1) as [W1 T1].
  destruct (IH c1 s1 Ho Hr H1 W1) as (c2 & s2 & E2 & W2 & T2). exists c2, s2. cbn [cec_run]. rewrite E1. cbn [mbind option_bind]. rewrite E2, T2, T1. done.
Qed.

(** When a transmission fails while two messages wait and the line is busy, the
    report that the task leaves for itself is lost: whatever is received and whatever the SoC asks for, the task
    stays in the sending state and nothing is ever sent again, until CEC is enabled anew. *)
Theorem cec_send_wedges c s d a b k reg now l :
  wf c -> sending d [a; b] k c -> cmd a = CEC_CMD_TX_MSG -> cmd b = CEC_CMD_TX_MSG -> k < MAX_RETRANS_TIME -> failure reg = true ->
  Forall ok_event l -> Forall without_report l ->
  exists c' s', cec_run junk (EvIsr reg 0 (fun _ => 0) :: EvTask now 0 :: l) (c, s) = Some (c', s') /\
    taskstate c' = CEC_TASK_STATE_SENDING /\ transmissions c' = transmissions c.
Proof.
  intros Hf Hc Ca Cb Hk Hr Ho Hn. destruct (failed_step d [a; b] k c s reg now 0 Hc Hr) as (c1 & E1 & c2 & _ & H2 & T2 & S2 & E2).
  rewrite (proj2 (Z.ltb_lt _ _) Hk) in E2. cbn [orb] in E2.
  assert (Hq : quiet c2 (retransmit 0 c2)).
  { unfold retransmit. cbv zeta. change (Z.land 0 1 =? 1) with false. cbv iota. destruct H2 as [Hs _ _ Ha _ _].
    destruct (negb _); (split; try done; exact (full_write _ _ (ex_intro _ a (ex_intro _ b Ha)))). }
  assert (W : wedged (retransmit 0 c2)).
  { apply (wedged_quiet c2); [|done]. destruct H2 as [Hs _ Hi Ha _ _]. split; [done|by exists []|by exists a, b]. }
  destruct (isr_ok reg 0 (fun _ => 0) c Hf ltac:(done)) as (c1' & E1' & H1). rewrite E1 in E1'. injection E1' as <-.
  destruct (task_ok junk now 0 c1 s H1) as (c3 & s3 & E3 & H3). rewrite E2 in E3. injection E3 as <- <-.
  destruct (wedged_run l _ s Ho Hn H3 W) as (c' & s' & E' & W' & T'). exists c', s'. cbn [cec_run cec_step]. rewrite E1. cbn [mbind option_bind cec_step]. rewrite E2.
  cbn [mbind option_bind]. split; [exact E'|]. split; [apply W'|]. rewrite T', (qt_sent _ _ Hq). exact T2.
Qed.

(** ** What is received *)

Lemma table_index tbl op e : CEC_SRV_GetMessageIndex tbl op = Some e -> e ∈ tbl /\ t_opcode e = op.
Proof.
  unfold CEC_SRV_GetMessageIndex. intros ([i e'] & E & ->)%fmap_Some. apply list_find_Some in E as (Hl & Ho & _). split; [|done]. by apply list_elem_of_lookup_2 in Hl.
Qed.

Lemma table_none tbl op e : CEC_SRV_GetMessageIndex tbl op = None -> e ∈ tbl -> op <> t_opcode e.
Proof.
  unfold CEC_SRV_GetMessageIndex. intros E%fmap_None He Ho. apply list_find_None in E. rewrite list.Forall_forall in E. by apply (E e He).
Qed.

(** The broadcasts that are acted on. *)
Definition heeded (op : Z) : bool := existsb (Z.eqb op) [OP_ACTIVE_SOURCE; OP_SET_STREAM_PATH; OP_ROUTING_CHANGE].

Lemma heeded_table c e : e ∈ SMCECMsgTable c -> Z.land (t_mode e) CEC_MODE_BROADCAST <> 0 -> t_action e = true -> host_tv c = false /\ heeded (t_opcode e) = true.
Proof.
  unfold SMCECMsgTable. destruct (host_tv c); intros He Hm Ha; repeat (apply elem_of_cons in He as [-> | He]; [first [by destruct Hm | discriminate Ha | done]|]); by apply elem_of_nil in He.
Qed.

Lemma in_operands_keeps d m ret m' : in_operands d m = Some (ret, m') -> opcode m' = opcode m /\ destAddr m' = destAddr m /\ srcAddr m' = srcAddr m.
Proof. unfold in_operands. cbv zeta. repeat case_match; intros E; try discriminate E; injection E as _ <-; done. Qed.

Lemma frm2msg_header tbl d ret m : frm2msg tbl d = Some (ret, m) ->
  opcode m = byte_at (msg_fifo d) 1 /\ destAddr m = Z.land (byte_at (msg_fifo d) 0) 15 /\ srcAddr m = Z.land (Z.shiftr (byte_at (msg_fifo d) 0) 4) 15.
Proof.
  unfold frm2msg. cbv zeta. repeat match goal with |- context [if ?b then _ else _] => destruct b | |- context [match ?x with Some _ => _ | None => _ end] => destruct x end;
    intros E; first [injection E as _ <-; done | by apply in_operands_keeps in E].
Qed.

(** A broadcast is ignored, or is one that a box acts on. *)
Lemma broadcast_heeded c d ret m : frm2msg (SMCECMsgTable c) d = Some (ret, m) -> destAddr m = 15 ->
  ret = CEC_STATUS_ERR_MSG_IGNORED \/ (host_tv c = false /\ heeded (opcode m) = true).
Proof.
  intros E Hd. pose proof (frm2msg_header _ _ _ _ E) as (Ho & Hm & _). rewrite Hd in Hm. unfold frm2msg in E. cbv zeta in E. cbn [srcAddr destAddr opcode operandlen] in E. rewrite <- Hm in E.
  destruct ((_ =? 15) && _); [left; by injection E|]. destruct (CEC_SRV_GetMessageIndex _ _) as [e|] eqn:Ei; [|left; by injection E].
  apply table_index in Ei as [He Hop]. change (CEC_GET_MSG_MODE 15) with CEC_MODE_BROADCAST in E.
  destruct (Z.land (t_mode e) _ =? 0) eqn:Em; [left; by injection E|]. destruct (_ <? _); [left; by injection E|]. destruct (t_action e) eqn:Ea; cbn [negb] in E; [|left; by injection E].
  right. rewrite Ho, <- Hop. apply heeded_table; [done|by apply Z.eqb_neq|done].
Qed.

Lemma heeded_silent now m c s : heeded (opcode m) = true -> (rx_box junk now m c s).2 = None /\ quiet c (rx_box junk now m c s).1.1.
Proof.
  intros H. unfold heeded in H. cbn [existsb] in H. rewrite !orb_true_iff, !Z.eqb_eq in H. unfold rx_box. cbv zeta.
  destruct H as [-> | [-> | [-> | H]]]; cbn [Z.eqb]; [| |by split|done]; cbn; (split; [done|]); destruct (_ =? _); cbn [negb fst]; auto with cec.
Qed.

(** A broadcast is never answered, by a television or a box. *)
Theorem cec_broadcast_never_answered now d c s :
  wf_data d -> Z.land (byte_at (msg_fifo d) 0) 15 = 15 ->
  exists c' s', mv_sm_cec_srv_rx_msg junk now d c s = Some (c', s') /\ app_fifo c' = app_fifo c.
Proof.
  intros Hd Hb. unfold mv_sm_cec_srv_rx_msg, MV_SM_CEC_SRV_RX_MSG_TV, MV_SM_CEC_SRV_RX_MSG_BOX.
  destruct (frm2msg_total (SMCECMsgTable c) d Hd) as [[ret m] E]. rewrite E. cbn [mbind option_bind].
  pose proof (frm2msg_header _ _ _ _ E) as (_ & Hm & _). rewrite Hb in Hm. destruct (broadcast_heeded c d ret m E Hm) as [-> | [Htv Hh]].
  - rewrite Hm. change (CEC_STATUS_ERR_MSG_IGNORED =? CEC_STATUS_ERR_MSG_IGNORED) with true. change (15 =? 15) with true. cbn [andb].
    destruct (host_tv c), (rememberHdmiCtrlState c =? 0); by eexists _, _.
  - rewrite Htv. destruct (ret =? _), (rememberHdmiCtrlState c =? 0); try by eexists _, _.
    destruct (heeded_silent now m c s Hh) as [Ha Hq]. destruct (rx_box junk now m c s) as [[c1 s1] a]. cbn [fst snd] in *. subst a. eexists _, _. split; [reflexivity|]. apply Hq.
Qed.

(** An opcode that is in no entry of the table. *)
Lemma unknown_box now m c s : CEC_SRV_GetMessageIndex SMCECMsgTable_BOX (opcode m) = None -> rx_box junk now m c s = (c, s, Some CEC_ABORT_REASON_UNREC_OPCODE).
Proof.
  intros H. assert (Hne : forall e, e ∈ SMCECMsgTable_BOX -> (opcode m =? t_opcode e) = false) by (intros e He; apply Z.eqb_neq; by eapply table_none).
  assert (Ht : Forall (fun e => (opcode m =? t_opcode e) = false) SMCECMsgTable_BOX) by (apply list.Forall_forall; exact Hne).
  unfold SMCECMsgTable_BOX in Ht. rewrite !Forall_cons_iff in Ht. cbn [t_opcode] in Ht. unfold rx_box. cbv zeta. destruct_and! Ht.
  repeat match goal with E : (opcode m =? _) = false |- _ => rewrite E; clear E end. done.
Qed.

Lemma unknown_tv now m c s : CEC_SRV_GetMessageIndex SMCECMsgTable_TV (opcode m) = None -> rx_tv junk now m c s = (c, s, Some CEC_ABORT_REASON_UNREC_OPCODE).
Proof.
  intros H. assert (Hne : forall e, e ∈ SMCECMsgTable_TV -> (opcode m =? t_opcode e) = false) by (intros e He; apply Z.eqb_neq; by eapply table_none).
  assert (Ht : Forall (fun e => (opcode m =? t_opcode e) = false) SMCECMsgTable_TV) by (apply list.Forall_forall; exact Hne).
  unfold SMCECMsgTable_TV in Ht. rewrite !Forall_cons_iff in Ht. cbn [t_opcode] in Ht. unfold rx_tv. cbv zeta. cbn [existsb]. destruct_and! Ht.
  repeat match goal with E : (opcode m =? _) = false |- _ => rewrite E; clear E end. done.
Qed.

Definition initiator (d : CEC_TASK_DATA) : Z := Z.land (Z.shiftr (byte_at (msg_fifo d) 0) 4) 15.
Definition frame_opcode (d : CEC_TASK_DATA) : Z := byte_at (msg_fifo d) 1.

(** C31: With HDMI control on and room in the queue, a message of a registered device to this
    one alone, with an opcode that the table does not have, is answered by one Feature Abort that names the opcode. *)
Theorem cec_unknown_aborted now d c s l :
  Z.land (byte_at (msg_fifo d) 0) 15 <> 15 -> initiator d <> 15 -> rememberHdmiCtrlState c <> 0 ->
  CEC_SRV_GetMessageIndex (SMCECMsgTable c) (frame_opcode d) = None -> queue (app_fifo c) l -> (length l < 2)%nat ->
  exists c' r, mv_sm_cec_srv_rx_msg junk now d c s = Some (c', s) /\ queue (app_fifo c') (l ++ [r]) /\ cmd r = CEC_CMD_TX_MSG /\ mode r = CEC_MODE_UNICAST /\
    take (Z.to_nat (msg_len r)) (msg_fifo r) = [CEC_SET_HEADER (u8 (iLogicAddr (config c))) (initiator d); OP_FEATURE_ABORT; u8 (frame_opcode d); CEC_ABORT_REASON_UNREC_OPCODE].
Proof.
  unfold initiator, frame_opcode. set (src := Z.land (Z.shiftr _ 4) 15). set (op := byte_at _ 1). intros Hd Hs Hh Hi Hq Hl. unfold mv_sm_cec_srv_rx_msg, MV_SM_CEC_SRV_RX_MSG_TV, MV_SM_CEC_SRV_RX_MSG_BOX.
  assert (E : exists m, frm2msg (SMCECMsgTable c) d = Some (CEC_STATUS_ERR_MSG_UNSUPPORTED, m)).
  { unfold frm2msg. cbv zeta. cbn [srcAddr opcode destAddr]. fold src op. rewrite (proj2 (Z.eqb_neq src 15) Hs), Hi, (proj2 (Z.eqb_neq _ 15) Hd). by eexists. }
  destruct E as [m E]. rewrite E, (proj2 (Z.eqb_neq _ _) Hh). destruct (frm2msg_header _ _ _ _ E) as (Eo & _ & Es). fold src op in Eo, Es.
  cbn [mbind option_bind]. change (CEC_STATUS_ERR_MSG_UNSUPPORTED =? CEC_STATUS_ERR_MSG_IGNORED) with false. cbn [andb].
  assert (Ha : exists c' r, Some (feature_abort junk now CEC_ABORT_REASON_UNREC_OPCODE m c, s) = Some (c', s) /\ queue (app_fifo c') (l ++ [r]) /\ cmd r = CEC_CMD_TX_MSG /\
    mode r = CEC_MODE_UNICAST /\ take (Z.to_nat (msg_len r)) (msg_fifo r) = [CEC_SET_HEADER (u8 (iLogicAddr (config c))) src; OP_FEATURE_ABORT; u8 op; CEC_ABORT_REASON_UNREC_OPCODE]).
  { unfold feature_abort, send, sm_cec_srv_tx_msg. cbv zeta. cbn [destAddr opcode operandlen operand]. eexists _, _. split; [reflexivity|].
    cbn [app_fifo cec_add_app_cmd CEC_WRITE_APP_FIFO set_app_fifo]. set (r := mk_data CEC_CMD_TX_MSG _ _ _ _ _ _).
    destruct (write_ok _ _ r Hq) as [[E2 _]|(_ & f & -> & Qf & _)]; [lia|]. split; [exact Qf|]. split; [done|]. unfold r. cbn [mode msg_len msg_fifo].
    rewrite Es, Eo. split; [|reflexivity]. cbn [mode msg2frm destAddr]. unfold CEC_BROADCAST_DESTADDR. now rewrite (proj2 (Z.eqb_neq _ _) Hs). }
  unfold SMCECMsgTable in Hi. rewrite <- Eo in Hi. destruct (host_tv c); [rewrite (unknown_tv now m c s Hi)|rewrite (unknown_box now m c s Hi)]; exact Ha.
Qed.

(** ** A wake-up, from the line to the SoC *)

(** What the controller holds after the reception of [l]. *)
Definition received (l : bytes) (i : nat) : Z := nth i l 0.

(** The interrupt of a reception alone hands the frame to the task. *)
Lemma isr_received l c :
  (length l <= 16)%nat -> Forall is_u8 l -> queue (isr_fifo c) [] ->
  exists c' d, sm_cec_isr CEC_INTR_RX_COMPLETE (Z.of_nat (length l)) (received l) c = Some c' /\ queue (isr_fifo c') [d] /\
    cmd d = CEC_CMD_RX_MSG /\ msg_len d = Z.of_nat (length l) /\ msg_fifo d = l ++ replicate (16 - length l) 0 /\
    c' = set_isr_fifo (isr_fifo c') (set_rx_data d (set_cec_out (cec_out c ++ [RxOn]) (set_intr_enable (intr_enable c') c))).
Proof.
  intros Hl Hb Hq. unfold sm_cec_isr. change (has CEC_INTR_RX_COMPLETE CEC_INTR_TX_FAIL) with false. change (has CEC_INTR_RX_COMPLETE CEC_INTR_TX_COMPLETE) with false.
  change (has CEC_INTR_RX_COMPLETE CEC_INTR_RX_FAIL) with false. change (has CEC_INTR_RX_COMPLETE CEC_INTR_RX_COMPLETE) with true. cbv iota zeta.
  unfold isr_rx_complete. cbv zeta. replace (u8 (Z.of_nat (length l))) with (Z.of_nat (length l)) by (unfold u8; rewrite Z.mod_small; lia).
  unfold CEC_MAX_MSG_LEN. rewrite (proj2 (Z.ltb_ge 16 (Z.of_nat (length l)))), Nat2Z.id by lia.
  assert (Ef : map (fun i => u8 (received l i)) (seq 0 (length l)) = l).
  { clear Hl Hq. induction Hb as [|x l Hx Hb IH]; [done|]. cbn [length seq map]. rewrite <- seq_shift, map_map. f_equal; [by apply u8_id|exact IH]. }
  rewrite Ef. set (d := mk_data (u8 CEC_CMD_RX_MSG) 0 0 (u8 CEC_INTR_RX_COMPLETE) (Z.of_nat (length l)) (splice (replicate 16 0) 0 l) (txtime (rx_data c))).
  eexists _, d. split; [reflexivity|]. unfold send_status_rx. cbv zeta. cbn [isr_fifo CEC_WRITE_ISR_FIFO set_isr_fifo].
  destruct (write_ok (isr_fifo c) [] d Hq) as [[E _]|(_ & f & Ef2 & Qf & _)]; [done|]. split; [exact (eq_ind_r (fun x => queue x [d]) Qf (f_equal fst Ef2))|].
  split; [done|]. split; [done|]. split; [|reflexivity]. unfold d, splice. cbn [msg_fifo]. rewrite drop_replicate. reflexivity.
Qed.

Lemma header_split src : 0 <= src < 16 -> Z.land (Z.shiftr (16 * src + 15) 4) 15 = src /\ Z.land (16 * src + 15) 15 = 15.
Proof.
  intros H. change 15 with (Z.ones 4) at 2 4. rewrite !Z.land_ones, Z.shiftr_div_pow2 by lia. split.
  - replace (16 * src + 15) with (15 + src * 2 ^ 4) by lia. rewrite Z.div_add by lia. change (15 / 2 ^ 4) with 0. rewrite Z.mod_small; lia.
  - replace (16 * src + 15) with (15 + src * 2 ^ 4) by lia. now rewrite Z.mod_add by lia.
Qed.

Definition active_source (src hi lo : Z) : CEC_MSG := mk_msg src 15 OP_ACTIVE_SOURCE 2 (lo :: hi :: replicate 14 0).

Lemma frm2msg_active d src hi lo :
  0 <= src < 16 -> msg_len d = 4 -> msg_fifo d = [16 * src + 15; OP_ACTIVE_SOURCE; hi; lo] ++ replicate 12 0 ->
  frm2msg SMCECMsgTable_BOX d = Some (CEC_STATUS_SUCCESS, active_source src hi lo).
Proof.
  intros Hs Hl Hf. destruct (header_split src Hs) as [E1 E2]. unfold frm2msg. cbv zeta. rewrite Hf, Hl. unfold byte_at. cbn [nth app srcAddr destAddr opcode operandlen]. rewrite E1, E2.
  change (negb (unregistered_ok OP_ACTIVE_SOURCE)) with false. rewrite andb_false_r.
  change (CEC_SRV_GetMessageIndex SMCECMsgTable_BOX OP_ACTIVE_SOURCE) with (Some (mk_entry OP_ACTIVE_SOURCE 2 2 true)). cbn [t_mode t_len t_action].
  change (u8 (4 - 2)) with 2. change (Z.land 2 (CEC_GET_MSG_MODE 15) =? 0) with false. change (2 <? 2) with false. cbn [negb].
  unfold in_operands. rewrite Hf. reflexivity.
Qed.

(** The task takes the frame: the message and the request to the SoC are noted, the system wakes up. *)
Lemma box_wakes now d c s src hi lo :
  0 <= src < 16 -> is_u8 hi -> is_u8 lo -> ~ (hi = 0 /\ lo = 0) -> host_tv c = false -> rememberHdmiCtrlState c <> 0 -> standby (sys_state s) = true ->
  msg_len d = 4 -> msg_fifo d = [16 * src + 15; OP_ACTIVE_SOURCE; hi; lo] ++ replicate 12 0 ->
  mv_sm_cec_srv_rx_msg junk now d c s =
    Some (set_wakeup_msg (active_source src hi lo) (set_soc_req [MV_SM_CEC_ACTIVE_SOURCE_EVENT; 0; 0; 0; hi; lo; 0; 0] c),
          fst (mv_sm_power_enterflow_bysmstate now (mv_sm_power_setwakeupsource MV_SM_WAKEUP_SOURCE_CEC s))).
Proof.
  intros Hsrc Hhi Hlo Hnz Htv Hh Hst Hl Hf. unfold mv_sm_cec_srv_rx_msg, MV_SM_CEC_SRV_RX_MSG_BOX, SMCECMsgTable. rewrite Htv, (frm2msg_active d src hi lo Hsrc Hl Hf).
  cbn [mbind option_bind]. change (CEC_STATUS_SUCCESS =? CEC_STATUS_ERR_MSG_IGNORED) with false. rewrite (proj2 (Z.eqb_neq _ _) Hh). unfold rx_box. cbv zeta.
  cbn [opcode active_source]. change (OP_ACTIVE_SOURCE =? OP_ABORT) with false. change (OP_ACTIVE_SOURCE =? OP_ACTIVE_SOURCE) with true. cbv iota.
  rewrite (proj2 (Z.eqb_neq (opPhyAddr (active_source src hi lo)) 0)).
  2: { unfold opPhyAddr, active_source, field, is_u8 in *. cbn. lia. }
  unfold wake_with, mv_sm_get_state. rewrite Hst. reflexivity.
Qed.

(** The flow that wakes the system takes CEC from the system manager. *)
Lemma wake_disables now st c : standby st = true -> mv_sm_process_internal_cec_msg junk now (wake_flow st) STA_ENTERFLOW c = sm_cec_enable false c.
Proof. by destruct st. Qed.

(** The SoC is ready: it is told the request. *)
Lemma appready_tells l body iLen c :
  length body = 28%nat -> field body 0 4 = MV_SM_CEC_APPREADY -> iLen <> 4 -> (length l <= 28)%nat -> byte_at (soc_operands c) 0 <> 0 ->
  soc_length c = Z.of_nat (length l) -> take (length l) (soc_operands c) = l ->
  sm_process_cec_msg junk body iLen c = Some (set_soc_length 0 (set_soc_operands (replicate MAX_SOC_REQ_LENGTH 0) (cec_emit (ToSoc l) c))).
Proof.
  intros Hb Hf Hi Hl H0 Hsl Ht. unfold sm_process_cec_msg. rewrite decide_False by lia. cbv zeta. rewrite Hf. change (i32 MV_SM_CEC_APPREADY) with MV_SM_CEC_APPREADY.
  change (MV_SM_CEC_APPREADY =? MV_SM_CEC_INFO) with false. change (MV_SM_CEC_APPREADY =? MV_SM_CEC_OSD_INFO) with false. change (MV_SM_CEC_APPREADY =? MV_SM_CEC_APPREADY) with true.
  cbv iota. rewrite (proj2 (Z.eqb_neq _ _) Hi), (proj2 (Z.eqb_neq _ _) H0), Hsl, Nat2Z.id, Ht. reflexivity.
Qed.

(** C28: <Active Source> of a device at the physical address hi.lo, which is not 0.0, received
    by a box in standby with HDMI control on: the system is woken up by CEC, and the SoC, once it says that it is ready, is told the address. *)
Theorem cec_active_source_reaches_soc c s now src hi lo body iLen now2 :
  wf c -> listening [] c -> host_tv c = false -> rememberHdmiCtrlState c <> 0 ->
  standby (sys_state s) = true -> power_myflow s = FLOW_IDLE -> power_mystatus s = STA_INVALID ->
  0 <= src < 16 -> is_u8 hi -> is_u8 lo -> ~ (hi = 0 /\ lo = 0) ->
  length body = 28%nat -> field body 0 4 = MV_SM_CEC_APPREADY -> iLen <> 4 ->
  exists c' s', cec_run junk
      [EvIsr CEC_INTR_RX_COMPLETE 4 (received [16 * src + 15; OP_ACTIVE_SOURCE; hi; lo]); EvTask now 1;
       EvPower now2 (wake_flow (sys_state s)) STA_ENTERFLOW; EvMsg body iLen] (c, s) = Some (c', s') /\
    cec_out c' = cec_out c ++ [RxOn; GlobalIrq false; CecDisable; ToSoc [MV_SM_CEC_ACTIVE_SOURCE_EVENT; 0; 0; 0; hi; lo; 0; 0]] /\
    power_myflow s' = wake_flow (sys_state s) /\ power_mystatus s' = STA_ENTERFLOW /\ wakeup_source s' = MV_SM_WAKEUP_SOURCE_CEC.
Proof.
  intros Hf [Ls Le Li La] Htv Hh Hst Hfl Hsta Hsrc Hhi Hlo Hnz Hbl Hbf Hi.
  set (frame := [16 * src + 15; OP_ACTIVE_SOURCE; hi; lo]).
  assert (Hfr : Forall is_u8 frame) by (unfold frame, OP_ACTIVE_SOURCE; repeat constructor; unfold is_u8 in *; lia).
  destruct (isr_received frame c ltac:(cbn; lia) Hfr Li) as (c1 & d & E1 & Q1 & C1 & L1 & F1 & S1). cbn [cec_run cec_step]. change 4 with (Z.of_nat (length frame)) at 1. rewrite E1.
  cbn [mbind option_bind cec_step]. destruct (read_ok _ _ Q1) as (f & Ef & Qf). unfold sm_cec_task.
  assert (Ee : bCECTaskExit c1 = false) by (rewrite S1; exact Le). assert (Es : taskstate c1 = CEC_TASK_STATE_LISTENING) by (rewrite S1; exact Ls).
  rewrite Ee, (next_cmd_isr _ _ _ Ef). cbn [mbind option_bind taskstate set_isr_fifo]. rewrite Es. unfold task_listening. rewrite C1.
  change (CEC_CMD_RX_MSG =? CEC_CMD_EXIT) with false. change (CEC_CMD_RX_MSG =? CEC_CMD_RX_MSG) with true. cbv iota.
  rewrite (box_wakes now d _ s src hi lo Hsrc Hhi Hlo Hnz) by first [done | rewrite S1; done]. cbn [mbind option_bind cec_step].
  destruct (wake_enterflow now (mv_sm_power_setwakeupsource MV_SM_WAKEUP_SOURCE_CEC s) Hst Hfl Hsta) as (G1 & G2 & G3 & _). set (s3 := fst _) in *.
  rewrite (wake_disables _ _ _ Hst).
  rewrite (appready_tells [MV_SM_CEC_ACTIVE_SOURCE_EVENT; 0; 0; 0; hi; lo; 0; 0] body iLen _ Hbl Hbf Hi) by first [done | cbn; lia].
  cbn [mbind option_bind]. eexists _, s3. split; [reflexivity|]. split; [|by rewrite G1, G2, G3]. cbn. rewrite S1. cbn. now rewrite <- !app_assoc.
Qed.

End Flow.

(** ** Samples *)

Lemma queue_start buf : length buf = 3%nat -> queue (mk_fifo 0 0 buf) [].
Proof. intros H. by split; cbn; [lia|lia|exact H|reflexivity|intros i d Hd; destruct i]. Qed.

Lemma queue_one a b c : queue (mk_fifo 0 1 [a; b; c]) [a].
Proof. split; cbn; try lia; try done. intros [|i] d [= <-]. done. Qed.

Lemma queue_two a b c : queue (mk_fifo 0 2 [a; b; c]) [a; b].
Proof. split; cbn; try lia; try done. intros [|[|i]] d [= <-]; done. Qed.

(** A box in standby whose CEC has just been enabled. *)
Definition sample_cec : cec := sm_cec_enable true (mv_sm_cec_init false 0).

(** A report of the power status to the television. *)
Definition sample_msg : CEC_TASK_DATA := mk_data CEC_CMD_TX_MSG CEC_MODE_UNICAST 0 0 3 ([0x40; 0x90; 1] ++ replicate 13 0) 1000.

Definition suspended : power := set_sys_state MV_SM_STATE_SUSPEND power_init.

Definition sample_waiting : cec := set_app_fifo (mk_fifo 0 1 [sample_msg; zero_data; zero_data]) sample_cec.
Definition sample_sending : cec :=
  set_taskstate CEC_TASK_STATE_SENDING (set_tx_data sample_msg (set_app_fifo (mk_fifo 0 2 [sample_msg; sample_msg; zero_data]) sample_cec)).

Lemma sample_listening : listening [] sample_cec.
Proof. split; try reflexivity; apply (queue_start (replicate 3 zero_data)); reflexivity. Qed.

Lemma sample_cec_wf : wf sample_cec.
Proof. apply wf_enable, init_wf. Qed.

Lemma sample_data_wf : wf_data sample_msg.
Proof. split; cbn; [lia|reflexivity]. Qed.

Lemma sample_sending_wf : wf sample_sending.
Proof.
  apply wf_state, wf_set_tx, wf_set_app; [exact sample_data_wf| |exact sample_cec_wf].
  exists [sample_msg; sample_msg]. split; [apply queue_two|]. repeat constructor; exact sample_data_wf || apply sample_data_wf.
Qed.

Lemma cec_gives_up_witness : exists c',
  cec_run zero_msg (EvTask 1001 1 :: concat (map failed_round (replicate 6 (1, 1100)))) (sample_waiting, power_init) = Some (c', power_init) /\ listening [] c' /\
  transmissions c' = transmissions sample_waiting ++
    transmission CEC_RETX_SIGNAL_FREE_TIME sample_msg :: replicate 5 (transmission CEC_TX_SIGNAL_FREE_TIME sample_msg).
Proof.
  apply (cec_gives_up zero_msg sample_waiting power_init sample_msg [] 1001 (replicate 6 (1, 1100))); try reflexivity.
  - split; try reflexivity; [apply (queue_start (replicate 3 zero_data)); reflexivity|apply queue_one].
  - discriminate.
  - repeat constructor; discriminate.
Defined.

Lemma cec_retries_forever_witness : exists c' k',
  cec_run zero_msg (concat (map failed_round (replicate 300 (1, 7001)))) (sample_sending, power_init) = Some (c', power_init) /\
  sending sample_msg [sample_msg; sample_msg] k' c' /\
  transmissions c' = transmissions sample_sending ++ replicate 300 (transmission CEC_TX_SIGNAL_FREE_TIME sample_msg).
Proof.
  apply (cec_retries_forever zero_msg sample_sending power_init sample_msg [sample_msg; sample_msg] 0 (replicate 300 (1, 7001))).
  - split; try reflexivity; [apply (queue_start (replicate 3 zero_data)); reflexivity|apply queue_two].
  - discriminate.
  - apply Forall_replicate. split; reflexivity.
Defined.

Lemma cec_send_wedges_witness : exists c' s',
  cec_run zero_msg (EvIsr 1 0 (fun _ => 0) :: EvTask 1100 0 :: [EvTask 1200 1; EvTask 1300 1; EvIsr 0x20 2 (fun _ => 0x9F); EvTask 9000 1]) (sample_sending, power_init) = Some (c', s') /\
  taskstate c' = CEC_TASK_STATE_SENDING /\ transmissions c' = transmissions sample_sending.
Proof.
  apply (cec_send_wedges zero_msg sample_sending power_init sample_msg sample_msg sample_msg 0 1 1100); try reflexivity.
  - exact sample_sending_wf.
  - split; try reflexivity; [apply (queue_start (replicate 3 zero_data)); reflexivity|apply queue_two].
  - repeat constructor; discriminate.
  - repeat constructor.
Defined.

Lemma cec_broadcast_never_answered_witness : exists c' s',
  mv_sm_cec_srv_rx_msg zero_msg 5 (mk_data 0 0 0 0 2 ([0x0F; 0x83] ++ replicate 14 0) 0) sample_cec power_init = Some (c', s') /\ app_fifo c' = app_fifo sample_cec.
Proof. apply cec_broadcast_never_answered; [split; cbn; [lia|reflexivity]|reflexivity]. Defined.

Lemma cec_unknown_aborted_witness : exists c' r,
  mv_sm_cec_srv_rx_msg zero_msg 5 (mk_data 0 0 0 0 2 ([0x04; 0xC0] ++ replicate 14 0) 0) sample_cec power_init = Some (c', power_init) /\
  queue (app_fifo c') ([] ++ [r]) /\ cmd r = CEC_CMD_TX_MSG /\ mode r = CEC_MODE_UNICAST /\
  take (Z.to_nat (msg_len r)) (msg_fifo r) = [CEC_SET_HEADER (u8 (iLogicAddr (config sample_cec))) 0; OP_FEATURE_ABORT; u8 0xC0; CEC_ABORT_REASON_UNREC_OPCODE].
Proof.
  apply (cec_unknown_aborted zero_msg 5 (mk_data 0 0 0 0 2 ([0x04; 0xC0] ++ replicate 14 0) 0) sample_cec power_init []); try discriminate; try reflexivity.
  - apply (ls_app _ _ sample_listening).
  - cbn. lia.
Defined.

Lemma cec_active_source_reaches_soc_witness : exists c' s', cec_run zero_msg
    [EvIsr CEC_INTR_RX_COMPLETE 4 (received [16 * 4 + 15; OP_ACTIVE_SOURCE; 0x21; 0]); EvTask 7 1;
     EvPower 8 (wake_flow (sys_state suspended)) STA_ENTERFLOW; EvMsg (1 :: replicate 27 0) 8] (sample_cec, suspended) = Some (c', s') /\
  cec_out c' = cec_out sample_cec ++ [RxOn; GlobalIrq false; CecDisable; ToSoc [MV_SM_CEC_ACTIVE_SOURCE_EVENT; 0; 0; 0; 0x21; 0; 0; 0]] /\
  power_myflow s' = wake_flow (sys_state suspended) /\ power_mystatus s' = STA_ENTERFLOW /\ wakeup_source s' = MV_SM_WAKEUP_SOURCE_CEC.
Proof.
  apply (cec_active_source_reaches_soc zero_msg sample_cec suspended 7 4 0x21 0); try reflexivity; try discriminate; try (cbn; lia).
  - exact sample_cec_wf.
  - exact sample_listening.
  - unfold is_u8. lia.
  - unfold is_u8. lia.
Defined.
