(* ===== verification/EmmcText.v ===== *)
(** * The text files of the image writer
    (boot/u-boot_2019_10/arch/arm/mach-synaptics/cmd/emmcburn.c)

    Lists of partitions and of images are text, parsed in place: blanks are
    squeezed out, lines and fields are cut by storing terminators into the
    buffer.  A pointer is an offset into the object [m]; [None] is an access
    outside it. *)

From S2P Require Import Prelude.

Definition CH_NL : Z := 10.
Definition CH_COMMA : Z := 44.
Definition CH_SLASH : Z := 47.
Definition CH_HASH : Z := 35.
Definition CH_0 : Z := 48.

(** ** The functions of the C library that are used *)

(** strchr() from offset [i], where [l] begins. *)
Fixpoint strchr_at (l : bytes) (i : nat) (c : Z) : option (option nat) :=
  match l with
  | [] => None
  | x :: l => if x =? c then Some (Some i) else if x =? 0 then Some None else strchr_at l (S i) c
  end.

Definition strchr_in (m : bytes) (p : nat) (c : Z) : option (option nat) := strchr_at (drop p m) p c.

(** The offset of the terminator. *)
Definition end_of (m : bytes) (p : nat) : option nat := mjoin (strchr_in m p 0).

(** The string at offset [p]. *)
Definition str_at (m : bytes) (p : nat) : option bytes := e ← end_of m p; Some (take (e - p) (drop p m)).

(** strcpy() of [s] into an array of [n] bytes, as the string it then holds. *)
Definition fits (n : nat) (s : bytes) : option bytes := if decide (length s < n)%nat then Some s else None.

(** simple_strtoull(.., 10) *)
Fixpoint strtoull_loop (s : bytes) (result : Z) : Z :=
  match s with
  | c :: s => if (48 <=? c) && (c <=? 57) then strtoull_loop s (u64 (result * 10 + (c - CH_0))) else result
  | [] => result
  end.

Definition simple_strtoull (s : bytes) : Z := strtoull_loop s 0.

(** ** Squeezing, lines and fields *)

Definition is_blank (c : Z) : bool := (c =? 32) || (c =? 9) || (c =? 13).

Fixpoint squeeze (n i ret : nat) (m : bytes) : option (nat * bytes) :=
  match n with
  | O => Some (ret, m)
  | S n =>
      c ← m !! i;
      if c =? 0 then Some (ret, m)
      else if is_blank c then squeeze n (S i) ret m
      else squeeze n (S i) (S ret) (<[ret := c]> m)
  end.

Definition process_input (m : bytes) (len : nat) : option (nat * bytes) :=
  '(ret, m) ← squeeze len 0 0 m;
  if decide (len <= length m)%nat then Some (ret, splice m ret (replicate (len - ret) 0)) else None.

Fixpoint line_loop (fuel : nat) (m : bytes) (start : nat) (line : Z) : option (nat * Z * option nat) :=
  match fuel with
  | O => None
  | S fuel =>
      let line := line - 1 in
      e ← strchr_in m start CH_NL;
      match e with
      | None => Some (start, line, None)
      | Some e => if line =? 0 then Some (start, line, Some e) else line_loop fuel m (S e) line
      end
  end.

(** The result: the buffer, whether 0 is returned, [line_start] and [line_len].
    On a failure for want of lines the last two are 0. *)
Definition get_line (m : bytes) (input : nat) (line : Z) : option (bytes * bool * nat * nat) :=
  '(start, line, e) ← line_loop (S (length m)) m input line;
  if 0 <? line then Some (m, false, 0%nat, 0%nat)
  else
    '(m, e) ← match e with
              | None => e ← end_of m input; Some (m, e)
              | Some e => Some (<[e := 0]> m, e)
              end;
    let line_len := (e - start)%nat in
    Some (m, negb (Nat.leb line_len 1), start, line_len).

(** [import_argv] has four entries. *)
Fixpoint arg_loop (fuel : nat) (m : bytes) (p e : nat) (argv : list nat) : option (bytes * list nat) :=
  match fuel with
  | O => None
  | S fuel =>
      if decide (p < e)%nat then
        if decide (4 <= length argv)%nat then None
        else
          dot ← strchr_in m p CH_COMMA;
          match dot with
          | Some dot => arg_loop fuel (<[dot := 0]> m) (S dot) e (argv ++ [p])
          | None => Some (m, argv ++ [p])
          end
      else Some (m, argv)
  end.

Definition parse_arg (m : bytes) (input len : nat) : option (bytes * list nat) :=
  arg_loop (S (length m)) m input (input + len) [].

(** ** Lists of names *)

(** Whether the string is found in the list that starts at [p]. *)
Fixpoint find_loop (fuel : nat) (m str : bytes) (split : Z) (p : nat) : option bool :=
  match fuel with
  | O => None
  | S fuel =>
      c ← m !! p;
      if c =? 0 then Some false
      else
        c ← m !! (p + length str)%nat;
        if ((c =? split) || (c =? 0)) && bool_decide (take (length str) (drop p m) = str) then Some true
        else
          next ← strchr_in m p split;
          match next with None => Some false | Some q => find_loop fuel m str split (S q) end
  end.

Definition find_str_in_list (m str : bytes) (split : Z) : option bool :=
  find_loop (S (length m)) m str (if split =? 0 then CH_COMMA else split) 0.

(** The path with its last slash, and the name, in arrays of 256 and 32 bytes. *)
Definition get_image_path_and_name (str : bytes) : option (bytes * bytes) :=
  match list_find (fun c => c = CH_SLASH) (rev str) with
  | None => name ← fits 32 str; Some ([], name)
  | Some (i, _) =>
      let k := (length str - i)%nat in
      name ← fits 32 (drop k str); path ← fits 256 (take k str); Some (path, name)
  end.

(** ** Scanning *)

Definition free_of (c : Z) (l : bytes) : Prop := Forall (fun x => x <> c) l.

Lemma strchr_hit l r c i : free_of c l -> no_nul l -> strchr_at (l ++ c :: r) i c = Some (Some (i + length l)%nat).
Proof.
  revert i. induction l as [|x l IH]; intros i Hc Hn; cbn [app strchr_at length].
  - rewrite Z.eqb_refl. do 2 f_equal. lia.
  - apply Forall_cons_iff in Hc as [Hx Hc]. apply no_nul_cons in Hn as [H0 Hn].
    rewrite (proj2 (Z.eqb_neq _ _) Hx), (proj2 (Z.eqb_neq _ _) H0), IH by done. do 2 f_equal. lia.
Qed.

Lemma strchr_miss l r c i : free_of c l -> no_nul l -> c <> 0 -> strchr_at (l ++ 0 :: r) i c = Some None.
Proof.
  revert i. induction l as [|x l IH]; intros i Hc Hn H0; cbn [app strchr_at].
  - now rewrite (proj2 (Z.eqb_neq 0 c)) by auto.
  - apply Forall_cons_iff in Hc as [Hx Hc]. apply no_nul_cons in Hn as [Hx0 Hn].
    now rewrite (proj2 (Z.eqb_neq _ _) Hx), (proj2 (Z.eqb_neq _ _) Hx0), IH.
Qed.

Lemma strchr_in_hit pre l r c : free_of c l -> no_nul l -> strchr_in (pre ++ l ++ c :: r) (length pre) c = Some (Some (length pre + length l)%nat).
Proof. intros. unfold strchr_in. now rewrite drop_app_length, strchr_hit. Qed.

Lemma strchr_in_miss pre l r c : free_of c l -> no_nul l -> c <> 0 -> strchr_in (pre ++ l ++ 0 :: r) (length pre) c = Some None.
Proof. intros. unfold strchr_in. now rewrite drop_app_length, strchr_miss. Qed.

Lemma end_of_ok pre l r : no_nul l -> end_of (pre ++ l ++ 0 :: r) (length pre) = Some (length pre + length l)%nat.
Proof. intros. unfold end_of. now rewrite strchr_in_hit. Qed.

Lemma str_at_ok pre l r : no_nul l -> str_at (pre ++ l ++ 0 :: r) (length pre) = Some l.
Proof.
  intros. unfold str_at. rewrite end_of_ok by done. cbn [mbind option_bind]. rewrite drop_app_length.
  replace (length pre + length l - length pre)%nat with (length l) by lia. now rewrite take_app_length.
Qed.

Lemma insert_app_mid (pre l r : bytes) c x : <[(length pre + length l)%nat := c]> (pre ++ l ++ x :: r) = pre ++ l ++ c :: r.
Proof. rewrite !insert_app_r. now rewrite <- (Nat.add_0_r (length l)), insert_app_r. Qed.

(** ** Squeezing *)

Definition squeezed (text : bytes) : bytes := List.filter (fun c => negb (is_blank c)) text.

Lemma squeezed_length text : (length (squeezed text) <= length text)%nat.
Proof. apply List.filter_length_le. Qed.

(** [k] characters kept, [g] bytes of gap behind them. *)
Lemma squeeze_ok text : forall k g rest, no_nul text ->
  squeeze (length text) (length k + length g) (length k) (k ++ g ++ text ++ rest) =
    Some (length (k ++ squeezed text), k ++ squeezed text ++ drop (length (squeezed text)) (g ++ text) ++ rest).
Proof.
  induction text as [|c text IH]; intros k g rest Hn.
  - cbn. now rewrite !app_nil_r.
  - apply no_nul_cons in Hn as [Hc Hn]. cbn [length squeeze].
    rewrite lookup_app_r, lookup_app_r by lia. replace (length k + length g - length k - length g)%nat with 0%nat by lia. cbn [lookup list_lookup app mbind option_bind].
    rewrite (proj2 (Z.eqb_neq _ _) Hc). cbn [squeezed List.filter]. fold (squeezed text). destruct (is_blank c) eqn:Eb; cbn [negb].
    + replace (k ++ g ++ c :: text ++ rest) with (k ++ (g ++ [c]) ++ text ++ rest) by now rewrite <- app_assoc.
      replace (S (length k + length g)) with (length k + length (g ++ [c]))%nat by (rewrite length_app; cbn; lia). rewrite IH by done. now rewrite <- !app_assoc.
    + assert (E : exists g', <[length k := c]> (k ++ g ++ c :: text ++ rest) = (k ++ [c]) ++ g' ++ text ++ rest /\ length g' = length g /\
        drop (length (squeezed text)) (g' ++ text) = drop (S (length (squeezed text))) (g ++ c :: text)).
      { destruct g as [|x g].
        - exists []. cbn. split; [|done]. rewrite <- (Nat.add_0_r (length k)), insert_app_r. cbn. now rewrite <- app_assoc.
        - exists (g ++ [c]). split; [|split; [rewrite length_app; cbn; lia|cbn; now rewrite <- app_assoc]].
          rewrite <- (Nat.add_0_r (length k)), insert_app_r. cbn. now rewrite <- !app_assoc. }
      destruct E as (g' & -> & Hg & Hd). replace (S (length k + length g)) with (length (k ++ [c]) + length g')%nat by (rewrite length_app; cbn; lia).
      replace (S (length k)) with (length (k ++ [c])) by (rewrite length_app; cbn; lia). rewrite IH by done. rewrite <- !app_assoc. cbn [app length]. now rewrite Hd.
Qed.

(** Blanks are removed and the rest of the text is cleared. *)
Lemma process_input_ok text rest : no_nul text ->
  process_input (text ++ rest) (length text) =
    Some (length (squeezed text), squeezed text ++ replicate (length text - length (squeezed text)) 0 ++ rest).
Proof.
  intros Hn. unfold process_input. pose proof (squeeze_ok text [] [] rest Hn) as E. cbn [length app] in E. cbn [Nat.add] in E. rewrite E. cbn [mbind option_bind app].
  pose proof (squeezed_length text). rewrite decide_True by (rewrite !length_app, length_drop; lia). f_equal. f_equal. unfold splice.
  rewrite take_app_length, length_replicate. f_equal. f_equal. rewrite drop_app_ge by lia. rewrite drop_app_ge by (rewrite length_drop; lia).
  rewrite length_drop. replace (_ - _)%nat with 0%nat by lia. done.
Qed.

(** ** Lines and fields *)

Definition long (l : bytes) : bool := negb (Nat.leb (length l) 1).

(** A line that ends in a newline, and one that ends the text. *)
Lemma get_line_ok pre l rest : free_of CH_NL l -> no_nul l ->
  get_line (pre ++ l ++ CH_NL :: rest) (length pre) 1 = Some (pre ++ l ++ 0 :: rest, long l, length pre, length l).
Proof.
  intros Hl Hn. unfold get_line. cbn [line_loop]. rewrite strchr_in_hit by done. cbn [mbind option_bind].
  change (1 - 1 =? 0) with true. cbv iota. cbn [mbind option_bind]. change (0 <? 1 - 1) with false. cbv iota. cbn [mbind option_bind]. rewrite insert_app_mid. replace (length pre + length l - length pre)%nat with (length l) by lia. reflexivity.
Qed.

Lemma get_line_end pre l rest : free_of CH_NL l -> no_nul l ->
  get_line (pre ++ l ++ 0 :: rest) (length pre) 1 = Some (pre ++ l ++ 0 :: rest, long l, length pre, length l).
Proof.
  intros Hl Hn. unfold get_line. cbn [line_loop]. rewrite strchr_in_miss by done. cbn [mbind option_bind].
  change (0 <? 1 - 1) with false. cbv iota. rewrite end_of_ok by done. cbn [mbind option_bind].
  replace (length pre + length l - length pre)%nat with (length l) by lia. reflexivity.
Qed.

(** The fields [fs], with [c] between them, and where each begins. *)
Fixpoint join (c : Z) (fs : list bytes) : bytes :=
  match fs with [] => [] | [f] => f | f :: fs => f ++ c :: join c fs end.

Fixpoint offsets (p : nat) (fs : list bytes) : list nat :=
  match fs with [] => [] | f :: fs => p :: offsets (p + length f + 1) fs end.

(** A field that the parser gives back. *)
Record field_ok (f : bytes) : Prop := mk_field_ok { fo_nul : no_nul f; fo_comma : free_of CH_COMMA f; fo_nl : free_of CH_NL f; fo_some : f <> [] }.

Lemma join_cons c f g fs : join c (f :: g :: fs) = f ++ c :: join c (g :: fs).
Proof. done. Qed.

Lemma join_length c c' fs : length (join c fs) = length (join c' fs).
Proof. induction fs as [|f [|g fs] IH]; [done..|]. rewrite !join_cons, !length_app, !length_cons', IH. done. Qed.

Lemma join_ge c fs : Forall field_ok fs -> (length fs <= length (join c fs))%nat.
Proof.
  induction 1 as [|f fs [_ _ _ Hs] Hf IH]; [done|]. assert (1 <= length f)%nat by (destruct f; [done|cbn; lia]).
  destruct fs as [|g fs]; [cbn; lia|]. rewrite join_cons, length_app, !length_cons' in *. lia.
Qed.

(** A comma at the end of a line does not begin another field. *)
Definition last_comma (c : Z) (tc : bool) : bytes := if tc then [c] else [].

Lemma arg_loop_ok tc fs : forall fuel pre rest argv, Forall field_ok fs -> fs <> [] -> (length argv + length fs <= 4)%nat -> (length fs < fuel)%nat ->
  arg_loop fuel (pre ++ join CH_COMMA fs ++ last_comma CH_COMMA tc ++ 0 :: rest) (length pre) (length pre + (length (join CH_COMMA fs) + length (last_comma CH_COMMA tc))) argv =
    Some (pre ++ join 0 fs ++ last_comma 0 tc ++ 0 :: rest, argv ++ offsets (length pre) fs).
Proof.
  induction fs as [|f fs IH]; intros fuel pre rest argv Hf Hne Hl Hfuel; [done|]. apply Forall_cons_iff in Hf as [[Hn Hc _ Hs] Hf].
  destruct fuel as [|fuel]; [cbn in Hfuel; lia|]. cbn [length] in Hl, Hfuel. assert (Hpos : (0 < length f)%nat) by (destruct f; [done|cbn; lia]).
  cbn [arg_loop]. rewrite (decide_False (P := (4 <= length argv)%nat)) by lia. destruct fs as [|g fs].
  - cbn [join]. rewrite decide_True by lia. destruct tc; cbn [last_comma app length].
    + rewrite strchr_in_hit by done. cbn [mbind option_bind]. rewrite insert_app_mid. destruct fuel as [|fuel]; [cbn in Hfuel; lia|]. cbn [arg_loop]. rewrite decide_False by lia. reflexivity.
    + rewrite strchr_in_miss by done. reflexivity.
  - rewrite !join_cons. rewrite decide_True by (rewrite length_app; lia). rewrite <- !app_assoc. cbn [app]. rewrite strchr_in_hit by done. cbn [mbind option_bind].
    rewrite insert_app_mid. replace (S (length pre + length f)) with (length (pre ++ f ++ [0%Z])) by (rewrite !length_app; cbn; lia).
    set (tl := last_comma CH_COMMA tc ++ 0 :: rest). replace (pre ++ f ++ 0 :: join CH_COMMA (g :: fs) ++ tl) with ((pre ++ f ++ [0]) ++ join CH_COMMA (g :: fs) ++ tl) by now rewrite <- !app_assoc.
    replace (length pre + (length (f ++ CH_COMMA :: join CH_COMMA (g :: fs)) + length (last_comma CH_COMMA tc)))%nat
      with (length (pre ++ f ++ [0%Z]) + (length (join CH_COMMA (g :: fs)) + length (last_comma CH_COMMA tc)))%nat
      by (rewrite !length_app, length_cons'; cbn [length]; lia). unfold tl.
    rewrite IH; [|done|done|rewrite length_app; cbn [length] in *; lia|cbn [length] in *; lia]. rewrite <- !app_assoc. do 2 f_equal. cbn [offsets app]. do 2 f_equal.
    assert (E : length (pre ++ f ++ [0%Z]) = (length pre + length f + 1)%nat) by (rewrite !length_app; cbn [length]; lia). rewrite E. reflexivity.
Qed.

(** The fields of a line, as the strings they are after parsing. *)
Lemma parse_arg_ok tc pre fs rest : Forall field_ok fs -> fs <> [] -> (length fs <= 4)%nat ->
  exists argv, parse_arg (pre ++ join CH_COMMA fs ++ last_comma CH_COMMA tc ++ 0 :: rest) (length pre) (length (join CH_COMMA fs) + length (last_comma CH_COMMA tc)) =
      Some (pre ++ join 0 fs ++ last_comma 0 tc ++ 0 :: rest, argv) /\
    length argv = length fs /\ forall i f, fs !! i = Some f -> exists p, argv !! i = Some p /\ str_at (pre ++ join 0 fs ++ last_comma 0 tc ++ 0 :: rest) p = Some f.
Proof.
  intros Hf Hne Hl. exists (offsets (length pre) fs). split; [|split].
  - unfold parse_arg. rewrite arg_loop_ok; [reflexivity|done..|]. pose proof (join_ge CH_COMMA fs Hf). rewrite !length_app, length_cons'. lia.
  - clear. generalize (length pre). induction fs as [|f fs IH]; intros p; [done|]. cbn. now rewrite IH.
  - clear Hne Hl. assert (Hz : exists rest', last_comma 0 tc ++ 0 :: rest = 0 :: rest') by (destruct tc; by eexists). destruct Hz as [rest' ->].
    revert pre. induction Hf as [|f fs [Hn _ _ _] Hf IH]; intros pre i f' Hi; [done|]. destruct i as [|i].
    + injection Hi as <-. exists (length pre). split; [done|]. destruct fs as [|g fs]; [by apply str_at_ok|]. rewrite join_cons, <- app_assoc. cbn [app]. by apply str_at_ok.
    + destruct fs as [|g fs]; [done|]. destruct (IH (pre ++ f ++ [0]) i f' Hi) as (p & Hp & Es). exists p. cbn [offsets lookup list_lookup]. split.
      * replace (length pre + length f + 1)%nat with (length (pre ++ f ++ [0%Z])) by (rewrite !length_app; cbn [length]; lia). exact Hp.
      * rewrite join_cons, <- app_assoc. rewrite <- !app_assoc in Es. exact Es.
Qed.

(** ** Names in a list *)

(** A prefix that ends at a separator is the first field. *)
Lemma first_field f str sep rest : no_nul f -> free_of CH_COMMA f -> no_nul str -> free_of CH_COMMA str -> sep = CH_COMMA \/ sep = 0 ->
  take (length str) (f ++ sep :: rest) = str -> forall c, (f ++ sep :: rest) !! length str = Some c -> c = CH_COMMA \/ c = 0 -> f = str.
Proof.
  intros Hn Hc Hsn Hsc Hsep Ht c Hl Hcc. destruct (Nat.lt_trichotomy (length str) (length f)) as [H|[H|H]].
  - rewrite lookup_app_l in Hl by done. unfold no_nul, free_of in *. rewrite list.Forall_lookup in Hn, Hc. specialize (Hn _ _ Hl). specialize (Hc _ _ Hl). destruct Hcc; congruence.
  - rewrite take_app_le, take_ge in Ht by lia. done.
  - assert (Hs : str !! length f = Some sep).
    { rewrite <- Ht, lookup_take_lt by done. rewrite lookup_app_r, Nat.sub_diag by lia. done. }
    unfold no_nul, free_of in *. rewrite list.Forall_lookup in Hsn, Hsc. specialize (Hsn _ _ Hs). specialize (Hsc _ _ Hs). destruct Hsep; congruence.
Qed.

Lemma name_loop_ok str fs : forall fuel pre pad, Forall field_ok fs -> field_ok str -> fs <> [] -> (length fs < fuel)%nat -> (length str <= length pad)%nat ->
  find_loop fuel (pre ++ join CH_COMMA fs ++ 0 :: pad) str CH_COMMA (length pre) = Some (bool_decide (str ∈ fs)).
Proof.
  induction fs as [|f fs IH]; intros fuel pre pad Hf Hs Hne Hfuel Hpad; [done|]. destruct fuel as [|fuel]; [lia|]. apply Forall_cons_iff in Hf as [[Hn Hc Hl Hsome] Hf].
  destruct Hs as [Sn Sc Sl Ssome] eqn:EH. clear EH.
  assert (Hj : exists sep tail, join CH_COMMA (f :: fs) ++ 0 :: pad = f ++ sep :: tail /\ (sep = CH_COMMA \/ sep = 0) /\ (length str <= length tail)%nat /\
    strchr_in (pre ++ f ++ sep :: tail) (length pre) CH_COMMA = Some (if decide (fs = []) then None else Some (length pre + length f)%nat) /\
    (fs <> [] -> tail = join CH_COMMA fs ++ 0 :: pad /\ sep = CH_COMMA)).
  { destruct fs as [|g fs].
    - exists 0, pad. rewrite strchr_in_miss by done. cbn [join]. split; [done|]. split; [by right|]. split; [done|]. split; done.
    - exists CH_COMMA, (join CH_COMMA (g :: fs) ++ 0 :: pad). rewrite strchr_in_hit by done. rewrite join_cons, <- app_assoc. split; [done|]. split; [by left|].
      split; [rewrite length_app, length_cons'; lia|]. split; done. }
  destruct Hj as (sep & tail & -> & Hsep & Ht & Hch & Hnext). cbn [find_loop].
  assert (E0 : exists x, (pre ++ f ++ sep :: tail) !! length pre = Some x /\ x <> 0).
  { rewrite lookup_app_r, Nat.sub_diag by lia. destruct f as [|x f]; [done|]. exists x. split; [done|]. by apply no_nul_cons in Hn as [? _]. }
  destruct E0 as (x & -> & Hx). cbn [mbind option_bind]. rewrite (proj2 (Z.eqb_neq _ _) Hx).
  assert (Ec : exists c, (f ++ sep :: tail) !! length str = Some c) by (apply lookup_lt_is_Some_2; rewrite length_app, length_cons'; lia). destruct Ec as [c Ec].
  rewrite (lookup_app_r pre) by lia. replace (length pre + length str - length pre)%nat with (length str) by lia. rewrite Ec. cbn [mbind option_bind]. rewrite drop_app_length.
  destruct (decide (f = str)) as [->|Hne2].
  - rewrite lookup_app_r, Nat.sub_diag in Ec by lia. injection Ec as <-. rewrite take_app_length, (bool_decide_eq_true_2 (str = str)) by done.
    rewrite bool_decide_eq_true_2 by apply list_elem_of_here. destruct Hsep as [-> | ->]; reflexivity.
  - replace (_ && _) with false.
    2: { symmetry. apply andb_false_iff. destruct (decide (c = CH_COMMA \/ c = 0)) as [Hcc|Hcc].
         - right. apply bool_decide_eq_false_2. intros Et. by apply Hne2, (first_field f str sep tail Hn Hc Sn Sc Hsep Et c Ec).
         - left. apply orb_false_iff. rewrite !Z.eqb_neq. tauto. }
    rewrite Hch. cbn [mbind option_bind]. destruct (decide (fs = [])) as [->|Hfs].
    + rewrite bool_decide_eq_false_2; [done|]. rewrite list_elem_of_singleton. congruence.
    + destruct (Hnext Hfs) as [-> ->]. replace (S (length pre + length f)) with (length (pre ++ f ++ [CH_COMMA])) by (rewrite !length_app; cbn [length]; lia).
      replace (pre ++ f ++ CH_COMMA :: join CH_COMMA fs ++ 0 :: pad) with ((pre ++ f ++ [CH_COMMA]) ++ join CH_COMMA fs ++ 0 :: pad) by now rewrite <- !app_assoc.
      rewrite IH by (done || cbn in *; lia). f_equal. apply bool_decide_ext. rewrite elem_of_cons. split; [by right|]. by intros [-> | ?].
Qed.

(** A name is found exactly when it is one of the names of the list, given that
    the memory behind the list is long enough. *)
Theorem find_str_in_list_spec str fs pad :
  Forall field_ok fs -> fs <> [] -> field_ok str -> (length str <= length pad)%nat ->
  find_str_in_list (join CH_COMMA fs ++ 0 :: pad) str CH_COMMA = Some (bool_decide (str ∈ fs)).
Proof.
  intros Hf Hne Hs Hp. unfold find_str_in_list. change (CH_COMMA =? 0) with false. cbv iota.
  apply (name_loop_ok str fs _ [] pad Hf Hs Hne); [|done]. pose proof (join_ge CH_COMMA fs Hf). rewrite length_app, length_cons'. lia.
Qed.

(** The code looks at the character behind the name before it has compared the
    names: a list that is shorter is read past its end. *)
Theorem find_str_in_list_overreads str l :
  no_nul l -> l <> [] -> (S (length l) <= length str)%nat -> find_str_in_list (l ++ [0]) str CH_COMMA = None.
Proof.
  intros Hn Hl Hs. unfold find_str_in_list. change (CH_COMMA =? 0) with false. cbv iota. cbn [find_loop]. destruct l as [|x l]; [done|].
  apply no_nul_cons in Hn as [Hx _]. cbn [app lookup list_lookup mbind option_bind]. rewrite (proj2 (Z.eqb_neq _ _) Hx).
  rewrite lookup_ge_None_2; [done|]. rewrite !length_cons', length_app in *. cbn [length]. lia.
Qed.
