(* ===== verification/EmmcBurn.v ===== *)
(** * The image writer of U-Boot
    (boot/u-boot_2019_10/arch/arm/mach-synaptics/cmd/emmcburn.c)

    emmcpart partitions the eMMC from a list of partitions, img2sd writes images
    into partitions, and the commands like tftp2emmc do both.  U-Boot's commands
    and drivers are parameters: the block layer of UbootMmc and the operations of
    [burner].  The build has CONFIG_IMAGE_SPARSE and no CONFIG_CMD_UNZIP.  Memory
    that malloc() gives is filled with [heap]; it does not run out. *)

From S2P Require Import Prelude Disk UbootMmc EmmcText.

Definition EMMC_PART_USER : Z := 0.
Definition EMMC_PART_BOOT1 : Z := 1.
Definition EMMC_PART_BOOT2 : Z := 2.
Definition GPT_LBA_NUM : Z := 34.
Definition MAX_GPT_PT_NUM : Z := 128.
Definition VERIFY_BUF_LBA : Z := 1024.
Definition PARTNAME_SZ : nat := 36.
Definition PART_NAME_LEN : nat := 32.
Definition LIST_SIZE : nat := Z.to_nat 4096.

(** A GPT entry is its 128 bytes. *)
Record gpt_ent_part := mk_gpt_ent { ge_part : Z; ge_gpt : bytes }.

Definition starting_lba (g : bytes) : Z := field g 32 8.
Definition ending_lba (g : bytes) : Z := field g 40 8.
Definition partition_name (g : bytes) : bytes := drop 56 g.

Record pt_info := mk_pt_info { pi_part : Z; pi_start_lba : Z; pi_cnt : Z; pi_name : bytes }.

Inductive pt_op := BURN_IMAGE | ERASE_PT | FORMAT_PT.

(** [pt_name] is the array of eight bytes. *)
Record pt_operation := mk_pt_op { op : pt_op; pt_name : bytes; imgname : bytes }.

(** What else is used of the device, of device [Z]: the command "mmc dev", the
    erase group size, the size of a boot partition, erasing, the validity of the
    first 34 blocks as a GPT, writing a GPT, making a file system, the boot
    configuration; whether an image is sparse; the file that imgload gets from a
    source; the largest size of malloc(). *)
Record burner (D : Type) := mk_burner {
  mmc_dev_cmd : D -> Z -> Z -> D * Z;
  erase_grp_size : Z;
  capacity_boot : Z;
  derase : D -> Z -> Z -> Z -> D;
  valid_gpt_buf : bytes -> bool;
  gpt_restore : D -> Z -> list disk_partition_t -> D * Z;
  make_ext4fs : D -> Z -> Z -> Z -> D * Z;
  mmc_set_part_conf : D -> Z -> D * Z;
  mmc_set_boot_bus_width : D -> Z -> D * Z;
  is_sparse_image : bytes -> bool;
  imgload : bytes -> bytes -> option bytes;
  get_max_malloc_size : Z;
  heap : nat -> Z;
}.
Arguments mmc_dev_cmd {D}. Arguments erase_grp_size {D}. Arguments capacity_boot {D}. Arguments derase {D}. Arguments valid_gpt_buf {D}.
Arguments gpt_restore {D}. Arguments make_ext4fs {D}. Arguments mmc_set_part_conf {D}. Arguments mmc_set_boot_bus_width {D}.
Arguments is_sparse_image {D}. Arguments imgload {D}. Arguments get_max_malloc_size {D}. Arguments heap {D}.

(** The device with the static variables of misc.c and fastboot_syna.c, and the
    static variables of emmcburn.c; [has_mmc]: [mmc] is not NULL. *)
Record burn (D : Type) := mk_burn {
  bmmc : mmc_state D;
  curr_device : Z;
  has_mmc : bool;
  curr_part : Z;
  last_start_lba : Z;
  last_part : Z;
  is_gpt_ready : bool;
  g_gpt_e : list gpt_ent_part;
}.
Arguments mk_burn {D}. Arguments bmmc {D}. Arguments curr_device {D}. Arguments has_mmc {D}. Arguments curr_part {D}. Arguments last_start_lba {D}.
Arguments last_part {D}. Arguments is_gpt_ready {D}. Arguments g_gpt_e {D}.

Section Burn.
Context {D : Type} (ops : blk D) (bo : burner D).
Context (env_get : bytes -> option bytes) (simple_strtol : bytes -> Z) (rom_spi_boot : bool) (malloc_table : option (list emmc_part)).
Implicit Types (s : burn D) (pi : pt_info).

(** U-Boot's write_sparse_image() with the function that writes blocks. *)
Context (write_sparse_image : (burn D -> Z -> Z -> bytes -> option (burn D * Z)) -> pt_info -> bytes -> burn D -> option (burn D * Z)).

Definition bdev s : D := dev (bmmc s).
Definition set_bdev (d : D) s : burn D := mk_burn (set_dev d (bmmc s)) (curr_device s) (has_mmc s) (curr_part s) (last_start_lba s) (last_part s) (is_gpt_ready s) (g_gpt_e s).
Definition set_bmmc (x : mmc_state D) s : burn D := mk_burn x (curr_device s) (has_mmc s) (curr_part s) (last_start_lba s) (last_part s) (is_gpt_ready s) (g_gpt_e s).
Definition set_mmc (c : Z) (h : bool) s : burn D := mk_burn (bmmc s) c h (curr_part s) (last_start_lba s) (last_part s) (is_gpt_ready s) (g_gpt_e s).
Definition set_curr_part (v : Z) s : burn D := mk_burn (bmmc s) (curr_device s) (has_mmc s) v (last_start_lba s) (last_part s) (is_gpt_ready s) (g_gpt_e s).
Definition set_last (l p : Z) s : burn D := mk_burn (bmmc s) (curr_device s) (has_mmc s) (curr_part s) l p (is_gpt_ready s) (g_gpt_e s).
Definition set_gpt_ready (v : bool) s : burn D := mk_burn (bmmc s) (curr_device s) (has_mmc s) (curr_part s) (last_start_lba s) (last_part s) v (g_gpt_e s).
Definition set_gpt_e (v : list gpt_ent_part) s : burn D := mk_burn (bmmc s) (curr_device s) (has_mmc s) (curr_part s) (last_start_lba s) (last_part s) (is_gpt_ready s) v.

(** [n] bytes of malloc(), with [l] at their beginning. *)
Definition alloc_with (l : bytes) (n : nat) : bytes := l ++ map (heap bo) (seq (length l) (n - length l)).

(** ** The device *)

Definition emmcburn_switch_part s (d p : Z) : burn D * Z :=
  if d =? DEV_SD then (s, 0)
  else if d =? DEV_EMMC then
    let '(x, ret) := mmc_dev_cmd bo (bdev s) d p in
    (set_bdev x s, if negb (ret =? 0) then -1 else 0)
  else (s, -1).

Definition active_dev : Z := get_mmc_active_dev env_get simple_strtol rom_spi_boot.

Definition CMD_RET_FAILURE : Z := 1.

Definition emmc_init s : burn D * Z :=
  if 0 <=? curr_device s then (s, 0)
  else let p := present ops (bdev s) active_dev in (set_mmc active_dev p s, if p then 0 else CMD_RET_FAILURE).

(** A field of [mmc], or -1 as an unsigned number. *)
Definition mmc_field (v : Z) s : option (burn D * Z) :=
  let '(s, ret) := emmc_init s in
  if negb (ret =? 0) then Some (s, 2 ^ 32 - 1) else if has_mmc s then Some (s, v) else None.

Definition get_blksize s : option (burn D * Z) := mmc_field (dev_blksz ops) s.
Definition get_erase_grp_size s : option (burn D * Z) := mmc_field (erase_grp_size bo) s.

(** The hardware partition is selected unless it is the current one. *)
Definition use_part s (p : Z) : burn D * bool :=
  if negb (p =? curr_part s) then
    let '(s, ret) := emmcburn_switch_part s (curr_device s) p in
    if negb (ret =? 0) then (set_curr_part (-1) s, false) else (set_curr_part p s, true)
  else (s, true).

Definition emmc_erase s (p start_lba cnt : Z) : option (burn D * Z) :=
  '(s, blk_size) ← get_blksize s;
  '(s, grp) ← get_erase_grp_size s;
  if grp =? 0 then None
  else
    let '(s, ret) := emmc_init s in
    if negb (ret =? 0) then Some (s, -1)
    else
      let '(s, ok) := use_part s p in
      if negb ok then Some (s, -1)
      else if negb (has_mmc s) then None
      else Some (set_bdev (derase bo (bdev s) (curr_device s) (u32 start_lba) (u32 cnt)) s, 0).

(** The bytes are what the buffer then holds. *)
Definition emmc_read s (p start_lba cnt : Z) (buff : bytes) : option (burn D * Z * bytes) :=
  let '(s, ret) := emmc_init s in
  if negb (ret =? 0) then Some (s, -1, buff)
  else
    let '(s, ok) := use_part s p in
    if negb ok then Some (s, -1, buff)
    else if negb (has_mmc s) then None
    else
      let '(d, n, got) := dread ops (bdev s) (curr_device s) (u32 start_lba) (u32 cnt) in
      buff ← store_at buff 0 got;
      Some (set_bdev d s, if negb (u32 cnt =? u32 n) then -1 else 0, buff).

Definition bytes_at (m : bytes) (off n : nat) : option bytes :=
  if decide (off + n <= length m)%nat then Some (take n (drop off m)) else None.

Fixpoint verify_loop (fuel : nat) s (p rstart rest : Z) (buff : bytes) (woff : nat) (rbuff : bytes) : option (burn D * Z) :=
  match fuel with
  | O => None
  | S fuel =>
      let r_lba := if VERIFY_BUF_LBA <=? rest then VERIFY_BUF_LBA else rest in
      '(s, ret, rbuff) ← emmc_read s p rstart r_lba rbuff;
      if negb (ret =? 0) then Some (s, -1)
      else
        '(s, bs) ← get_blksize s;
        let n := Z.to_nat (u32 (r_lba * bs)) in
        r ← bytes_at rbuff 0 n;
        w ← bytes_at buff woff n;
        if negb (bool_decide (r = w)) then Some (s, -1)
        else
          let rest := u32 (rest - r_lba) in
          if 0 <? rest then verify_loop fuel s p (u32 (rstart + r_lba)) rest buff (woff + n) rbuff else Some (s, 0)
  end.

Definition emmc_write s (p start_lba cnt : Z) (buff : bytes) (is_verify : bool) : option (burn D * Z) :=
  let '(s, ret) := emmc_init s in
  if negb (ret =? 0) then Some (s, -1)
  else
    let '(s, ok) := use_part s p in
    if negb ok then Some (s, -1)
    else if negb (has_mmc s) then None
    else
      data ← bytes_at buff 0 (Z.to_nat (u32 cnt * dev_blksz ops));
      let '(d, n) := dwrite ops (bdev s) (curr_device s) (u32 start_lba) (u32 cnt) data in
      let s := set_bdev d s in
      if negb (u32 cnt =? u32 n) then Some (s, -1)
      else if is_verify then
        '(s, bs) ← get_blksize s;
        verify_loop (S (Z.to_nat (u32 cnt))) s p (u32 start_lba) (u32 cnt) buff 0 (alloc_with [] (Z.to_nat (u32 (VERIFY_BUF_LBA * bs))))
      else Some (s, 0).

(** ** The partition table *)

Definition clean_mbr_gpt_table s (p : Z) : option (burn D * Z) :=
  '(s, ret) ← emmc_erase (set_gpt_ready false s) p 0 GPT_LBA_NUM;
  Some (s, if negb (ret =? 0) then -1 else 0).

Definition is_unused (g : bytes) : bool := forallb (Z.eqb 0) g.

(** [n] entries from offset [off] of the 34 blocks [tmp]. *)
Fixpoint entry_loop (n : nat) (p : Z) (tmp : bytes) (off : nat) (l : list gpt_ent_part) : option (list gpt_ent_part) :=
  match n with
  | O => Some l
  | S n =>
      head ← bytes_at tmp off 16;
      if is_unused head then entry_loop n p tmp (off + 128) l
      else g ← bytes_at tmp off 128; entry_loop n p tmp (off + 128) (l ++ [mk_gpt_ent p g])
  end.

(** [hdr] and [ent] are the offsets of the header and of the entries. *)
Definition parse_gpt_table s (p : Z) (tmp : bytes) (hdr ent : nat) : option (burn D) :=
  let room := MAX_GPT_PT_NUM - Z.of_nat (length (g_gpt_e s)) in
  let entries := field tmp (hdr + 80) 4 in
  l ← entry_loop (Z.to_nat (if entries <? room then entries else room)) p tmp ent (g_gpt_e s);
  Some (set_gpt_e l s).

Definition read_part_gpt_partition_info s (p : Z) : option (burn D * Z) :=
  let '(s, ok) := use_part s p in
  if negb ok then Some (s, -1)
  else
    '(s, bs) ← get_blksize s;
    if negb (has_mmc s) then None
    else
      let '(d, n, got) := dread ops (bdev s) (curr_device s) 0 GPT_LBA_NUM in
      tmp ← store_at (replicate (Z.to_nat (u32 (GPT_LBA_NUM * bs))) 0) 0 got;
      let s := set_bdev d s in
      if negb (i32 n =? GPT_LBA_NUM) then Some (s, -1)
      else if negb (valid_gpt_buf bo tmp) then Some (s, -1)
      else
        let ent := field tmp (Z.to_nat bs + 72) 8 in
        s ← parse_gpt_table s p tmp (Z.to_nat bs) (Z.to_nat (u64 (ent * bs)));
        Some (s, 0).

Fixpoint read_gpps (n : nat) s (p : Z) : option (burn D) :=
  match n with
  | O => Some s
  | S n => '(s, _) ← read_part_gpt_partition_info s p; read_gpps n s (p + 1)
  end.

Definition read_all_gpt_partition_info s : option (burn D * Z) :=
  if is_gpt_ready s then Some (s, 0)
  else
    let '(s, ret) := emmc_init s in
    if negb (ret =? 0) then Some (s, -1)
    else
      '(s, _) ← read_part_gpt_partition_info s 0;
      '(x, ty) ← get_mmc_partition_type ops malloc_table (bmmc s) active_dev;
      s ← (if negb (ty =? 0) then read_gpps 4 (set_bmmc x s) 4 else Some (set_bmmc x s));
      Some (set_gpt_ready true s, 0).

(** The index of entry number [index] of a hardware partition, or -1. *)
Fixpoint part_num_loop (l : list gpt_ent_part) (i j p index : Z) : Z :=
  match l with
  | [] => -1
  | e :: l =>
      if ge_part e =? p then if index =? j + 1 then i else part_num_loop l (i + 1) (j + 1) p index
      else part_num_loop l (i + 1) j p index
  end.

Definition get_partition_num s (p index : Z) : Z := part_num_loop (g_gpt_e s) 0 0 p index.

Fixpoint efi_loop (n : nat) (es : bytes) (i : nat) : option bytes :=
  match n with
  | O => Some []
  | S n => c ← es !! i; if c =? 0 then Some [] else r ← efi_loop n es (i + 2); Some (c :: r)
  end.

(** The string that the buffer of [n] bytes holds. *)
Definition gpt_convert_efi_name_to_char (es : bytes) (n : nat) : option bytes := efi_loop n es 0.

(** "boot" *)
Definition str_boot : bytes := [98; 111; 111; 116].

(** [num] is unsigned, so that -1 passes the test for a missing entry. *)
Definition gpt_info s (p index : Z) : option (burn D * option pt_info) :=
  let num := u32 (get_partition_num s p index) in
  e ← g_gpt_e s !! Z.to_nat num;
  name ← gpt_convert_efi_name_to_char (partition_name (ge_gpt e)) (PARTNAME_SZ + 1);
  Some (s, Some (mk_pt_info p (starting_lba (ge_gpt e)) (u64 (ending_lba (ge_gpt e) - starting_lba (ge_gpt e) + 1)) name)).

(** [pt] is the array [pt_name]. *)
Definition get_partition_info s (pt : bytes) : option (burn D * option pt_info) :=
  '(s, ret) ← read_all_gpt_partition_info s;
  if negb (ret =? 0) then Some (s, None)
  else
    c0 ← pt !! 0%nat;
    if c0 =? 98 then
      c1 ← pt !! 1%nat;
      let num := u32 (c1 - CH_0) in
      if negb (num =? EMMC_PART_BOOT1) && negb (num =? EMMC_PART_BOOT2) then Some (s, None)
      else
        '(s, bs) ← get_blksize s;
        if has_mmc s then Some (s, Some (mk_pt_info num 0 (capacity_boot bo / bs) (str_boot ++ [CH_0 + num]))) else None
    else
      c1 ← pt !! 1%nat;
      if (c0 =? 115) && (c1 =? 100) then t ← str_at pt 2; gpt_info s 0 (u32 (simple_strtoull t))
      else if (c0 =? 103) && (c1 =? 112) then
        c2 ← pt !! 2%nat;
        let num := u32 (c2 - CH_0) in
        if (num <? 1) || (4 <? num) then Some (s, None)
        else t ← str_at pt 4; gpt_info s (3 + num) (u32 (simple_strtoull t))
      else Some (s, None).

(** ** Burning *)

Definition emmcburn_sparse_write pi s (blkno blkcnt : Z) (buffer : bytes) : option (burn D * Z) :=
  '(s, ret) ← emmc_write s (i32 (pi_part pi)) (u32 blkno) (u32 blkcnt) buffer true;
  Some (s, if negb (ret =? 0) then 0 else blkcnt).

Definition burn_images s pi (buff : bytes) (size : Z) : option (burn D * Z) :=
  if is_sparse_image bo buff then
    '(s, ret) ← write_sparse_image (emmcburn_sparse_write pi) pi buff s;
    Some (s, if negb (ret =? 0) then -1 else 0)
  else
    '(s, bs) ← get_blksize s;
    let cnt := u32 (size + bs - 1) / bs in
    '(s, ret) ← emmc_write s (i32 (pi_part pi)) (u32 (pi_start_lba pi)) cnt buff true;
    Some (s, if negb (ret =? 0) then -1 else 0).

(** imgload does not know the size of the buffer: a file that is longer is stored
    past its end. *)
Definition dl_and_burn_img s (src path imgname : bytes) (pt : bytes) : option (burn D * Z) :=
  '(s, r) ← get_partition_info s pt;
  match r with
  | None => Some (s, -1)
  | Some pi =>
      '(s, bs) ← get_blksize s;
      let max_alloc := Z.to_nat (Z.min (get_max_malloc_size bo) (u64 (pi_cnt pi * bs))) in
      match imgload bo src (path ++ imgname) with
      | None => Some (s, -1)
      | Some file =>
          if decide (max_alloc < length file)%nat then None
          else
            let buff := alloc_with file max_alloc in
            '(s, ret) ← (if negb (pi_start_lba pi =? u64 (last_start_lba s)) || negb (pi_part pi =? u64 (last_part s))
                         then '(s, ret) ← emmc_erase s (i32 (pi_part pi)) (pi_start_lba pi) (pi_cnt pi);
                              Some (if negb (ret =? 0) then s else set_last (i32 (pi_start_lba pi)) (i32 (pi_part pi)) s, ret)
                         else Some (s, 0));
            if negb (ret =? 0) then Some (s, -1)
            else burn_images s pi buff (u32 (Z.of_nat (length file)))
      end
  end.

Definition erase_partition_by_name s (pt : bytes) : option (burn D * Z) :=
  '(s, r) ← get_partition_info s pt;
  match r with
  | None => Some (s, -1)
  | Some pi => emmc_erase s (i32 (pi_part pi)) (pi_start_lba pi) (pi_cnt pi)
  end.

Definition format_partition_by_name s (pt : bytes) : option (burn D * Z) :=
  '(s, r) ← get_partition_info s pt;
  match r with
  | None => Some (s, -1)
  | Some pi =>
      '(s, ret) ← emmc_erase s (i32 (pi_part pi)) (pi_start_lba pi) (pi_cnt pi);
      if negb (ret =? 0) then Some (s, -1)
      else let '(d, ret) := make_ext4fs bo (bdev s) (curr_device s) (pi_start_lba pi) (pi_cnt pi) in Some (set_bdev d s, ret)
  end.

(** [mmc] stays when [curr_device] is forgotten. *)
Definition set_bootbus s : option (burn D * Z) :=
  if negb (has_mmc s) then None
  else
    let '(d, ret) := mmc_set_part_conf bo (bdev s) active_dev in
    let s := set_bdev d s in
    if negb (ret =? 0) then Some (s, -1)
    else let '(d, ret) := mmc_set_boot_bus_width bo (bdev s) active_dev in Some (set_bdev d s, if negb (ret =? 0) then -1 else 0).

(** ** Lists *)

(** A file in a cleared buffer of 4096 bytes. *)
Definition load_list (src path : bytes) : option (option (bytes * nat)) :=
  match imgload bo src path with
  | None => Some None
  | Some f => if decide (LIST_SIZE < length f)%nat then None else Some (Some (f ++ replicate (LIST_SIZE - length f) 0, length f))
  end.

Definition str_GPT : bytes := [35; 71; 80; 84].
Definition str_GP : bytes := [35; 71; 80].
Definition str_UDA : bytes := [35; 85; 68; 65].

(** strncmp() of the line at [p] with a string without newlines, over its length. *)
Definition starts_with (m : bytes) (p : nat) (key : bytes) : bool := bool_decide (take (length key) (drop p m) = key).

(** The first line: a length of 4 is enough. *)
Definition is_gpt_list (m : bytes) (line len : nat) : bool := Nat.eqb len 4 || starts_with m line str_GPT.

Definition i64 (x : Z) : Z := (x + 2 ^ 63) mod 2 ^ 64 - 2 ^ 63.

(** start and size are in MiB; the name goes into an array of 32 bytes. *)
Definition create_gpt_partition (part_name : bytes) (start_bytes size_bytes : Z) : option disk_partition_t :=
  name ← fits PART_NAME_LEN part_name;
  Some (mk_disk_part (u64 (Z.quot (i64 (start_bytes * 1024 * 1024)) 512)) (u64 (Z.quot (i64 (size_bytes * 1024 * 1024)) 512)) 512 name).

(** What the loop over the lines of a hardware partition leaves: the buffer,
    [p_buff], [len], and the partitions, or [None] for a line with less than three
    fields. *)
Fixpoint part_lines (fuel : nat) (m : bytes) (p_buff : nat) (pt_start pt_size : Z) (parts : list disk_partition_t)
  : option (bytes * nat * nat * option (list disk_partition_t)) :=
  match fuel with
  | O => None
  | S fuel =>
      '(m, ok, line, len) ← get_line m p_buff 1;
      if negb ok then Some (m, p_buff, len, Some parts)
      else
        '(m, argv) ← parse_arg m line len;
        match argv with
        | a0 :: a1 :: a2 :: _ =>
            name ← str_at m a0;
            t1 ← str_at m a1;
            t2 ← str_at m a2;
            let pt_start := if decide (parts = []) then i64 (simple_strtoull t1) else i64 (pt_start + pt_size) in
            let pt_size := i64 (simple_strtoull t2) in
            if decide (MAX_GPT_PT_NUM <= Z.of_nat (length parts)) then None
            else
              part ← create_gpt_partition name pt_start pt_size;
              part_lines fuel m (p_buff + len + 1) pt_start pt_size (parts ++ [part])
        | _ => Some (m, p_buff, len, None)
        end
  end.

(** The sections; [ret] is what [goto out] returns. *)
Fixpoint part_sections (n : nat) s (m : bytes) (p_buff len : nat) (pt_start pt_size ret : Z) : option (burn D * Z) :=
  match n with
  | O => Some (s, 0)
  | S n =>
      let p_buff := (p_buff + len + 1)%nat in
      '(m, ok, line, len) ← get_line m p_buff 1;
      if negb ok then Some (s, ret)
      else
        c3 ← (if starts_with m line str_GP then m !! (line + 3)%nat else Some 0);
        let index := c3 - CH_0 in
        if starts_with m line str_GP && ((index <? 1) || (4 <? index)) then Some (s, ret)
        else
          let p := if starts_with m line str_GP then 3 + index else EMMC_PART_USER in
          let p_buff := if starts_with m line str_GP || starts_with m line str_UDA then (p_buff + len + 1)%nat else p_buff in
          '(s, ret) ← clean_mbr_gpt_table s p;
          if negb (ret =? 0) then Some (s, ret)
          else
            '(m, p_buff, len, parts) ← part_lines (S (length m)) m p_buff pt_start pt_size [];
            match parts with
            | None => Some (s, -1)
            | Some parts =>
                if negb (has_mmc s) then None
                else
                  let '(d, ret) := gpt_restore bo (bdev s) (curr_device s) parts in
                  let s := set_bdev d s in
                  if negb (ret =? 0) then Some (s, ret)
                  else part_sections n (set_gpt_ready false s) m p_buff len pt_start pt_size ret
            end
  end.

Definition parse_part_and_gen_gpt s (m : bytes) (size : nat) : option (burn D * Z) :=
  '(_, m) ← process_input m size;
  '(m, ok, line, len) ← get_line m 0 1;
  if negb ok then Some (s, -1)
  else if negb (is_gpt_list m line len) then Some (s, 0)
  else part_sections 5 s m 0 len 0 0 0.

(** The operations of a list of images, at most 128; [zero] fills the arrays. *)
Definition pt_array (fill : nat -> Z) (name : bytes) : option bytes :=
  name ← fits 8 name; Some (name ++ 0 :: map fill (seq (S (length name)) (7 - length name))).

Definition str_erase : bytes := [101; 114; 97; 115; 101].
Definition str_format : bytes := [102; 111; 114; 109; 97; 116].

Fixpoint op_lines (fuel : nat) (m : bytes) (p_buff : nat) (ptop : list pt_operation) : option (option (list pt_operation)) :=
  match fuel with
  | O => None
  | S fuel =>
      '(m, ok, line, len) ← get_line m p_buff 1;
      if negb ok then Some (Some ptop)
      else
        '(m, argv) ← parse_arg m line len;
        match argv with
        | [a0; a1] =>
            what ← str_at m a0;
            pt ← str_at m a1;
            if decide (MAX_GPT_PT_NUM <= Z.of_nat (length ptop)) then None
            else
              pt ← pt_array (fun _ => 0) pt;
              o ← (if decide (what = str_erase) then Some (mk_pt_op ERASE_PT pt [])
                   else if decide (what = str_format) then Some (mk_pt_op FORMAT_PT pt [])
                   else img ← fits 32 what; Some (mk_pt_op BURN_IMAGE pt img));
              op_lines fuel m (p_buff + len + 1) (ptop ++ [o])
        | _ => Some None
        end
  end.

Definition pt_operation_serialization (src imglst : bytes) : option (option (list pt_operation)) :=
  f ← load_list src imglst;
  match f with
  | None => Some None
  | Some (m, size) => '(_, m) ← process_input m size; op_lines (S (length m)) m 0 []
  end.

(** ** The commands *)

Definition run_op s (src path : bytes) (o : pt_operation) : option (burn D * Z) :=
  '(s, _) ← get_partition_info s (pt_name o);
  match op o with
  | ERASE_PT => erase_partition_by_name s (pt_name o)
  | FORMAT_PT => format_partition_by_name s (pt_name o)
  | BURN_IMAGE => dl_and_burn_img s src path (imgname o) (pt_name o)
  end.

(** [ignore] is the object of the list of partitions to leave out. *)
Fixpoint run_ops s (src path : bytes) (ignore : option bytes) (ptop : list pt_operation) : option (burn D * Z) :=
  match ptop with
  | [] => Some (s, 0)
  | o :: ptop =>
      skip ← match ignore with
             | None => Some false
             | Some m => t ← str_at (pt_name o) 0; find_str_in_list m t CH_COMMA
             end;
      if (skip : bool) then run_ops s src path ignore ptop
      else
        '(s, ret) ← run_op s src path o;
        if negb (ret =? 0) then Some (s, -1) else run_ops s src path ignore ptop
  end.

Definition start_ops s (src path : bytes) (ignore : option bytes) (ptop : list pt_operation) : option (burn D * Z) :=
  run_ops (set_mmc (-1) (has_mmc s) (set_last (-1) (last_part s) s)) src path ignore ptop.

(** img2sd import [src] [list] [ignored partitions] *)
Definition img2sd_import s (src img_list : bytes) (ignore : option bytes) : option (burn D * Z) :=
  '(path, _) ← get_image_path_and_name img_list;
  ops ← pt_operation_serialization src img_list;
  match ops with
  | None => Some (s, -1)
  | Some ptop => start_ops s src path ignore ptop
  end.

(** img2sd erase|format [partition] *)
Definition img2sd_single s (o : pt_op) (pt : bytes) : option (burn D * Z) :=
  pt ← pt_array (heap bo) pt; start_ops s [] [] None [mk_pt_op o pt []].

(** img2sd [src] [image] [partition] *)
Definition img2sd_burn s (src img pt : bytes) : option (burn D * Z) :=
  pt ← pt_array (heap bo) pt;
  '(path, name) ← get_image_path_and_name img;
  start_ops s src path None [mk_pt_op BURN_IMAGE pt name].

Definition str_import : bytes := [105; 109; 112; 111; 114; 116].
Definition str_tftp : bytes := [116; 102; 116; 112].

(** [args] are the arguments after the command, their strings in objects of their
    own.  The default source is tftp (no CONFIG_SYNA_USB_UBOOT). *)
Definition do_img2sd s (args : list bytes) : option (burn D * Z) :=
  match args with
  | [] | [_] => Some (s, -1)
  | a1 :: a2 :: rest =>
      if decide (a1 = str_import) then
        match rest with
        | [] => img2sd_import s str_tftp a2 None
        | [a3] => img2sd_import s a2 a3 None
        | [a3; a4] => img2sd_import s a2 a3 (Some (a4 ++ [0]))
        | _ => None
        end
      else if decide (a1 = str_erase) then img2sd_single s ERASE_PT a2
      else if decide (a1 = str_format) then img2sd_single s FORMAT_PT a2
      else match rest with
           | [] => img2sd_burn s str_tftp a1 a2
           | [a3] => img2sd_burn s a1 a2 a3
           | _ => None
           end
  end.

(** ** Partitioning *)

(** emmcpart import [src] [list] *)
Definition emmcpart_import s (src imgname : bytes) : option (burn D * Z) :=
  f ← load_list src imgname;
  match f with
  | None => Some (s, -1)
  | Some (m, size) => '(s, ret) ← parse_part_and_gen_gpt s m size; Some (s, if negb (ret =? 0) then -1 else 0)
  end.

Definition str_clean : bytes := [99; 108; 101; 97; 110].
Definition str_print : bytes := [112; 114; 105; 110; 116].

(** The result of cleaning is not looked at. *)
Definition do_emmc_part s (simple_strtol10 : bytes -> Z) (args : list bytes) : option (burn D * Z) :=
  match args with
  | [a1] =>
      if decide (a1 = str_clean) then '(s, _) ← clean_mbr_gpt_table s EMMC_PART_USER; Some (s, 0)
      else Some (s, if decide (a1 = str_print) then 0 else -1)
  | [a1; a2] => if decide (a1 = str_clean) then '(s, _) ← clean_mbr_gpt_table s (i32 (simple_strtol10 a2)); Some (s, 0) else Some (s, -1)
  | [a1; a2; a3] => if decide (a1 = str_import) then emmcpart_import s a2 a3 else Some (s, -1)
  | _ => Some (s, -1)
  end.

(** sprintf("%d") of a number from 0 on *)
Fixpoint print_dec (fuel : nat) (n : Z) : bytes :=
  match fuel with
  | O => []
  | S fuel => (if n <? 10 then [] else print_dec fuel (n / 10)) ++ [CH_0 + n mod 10]
  end.

(** sprintf("%d") *)
Definition print_int (v : Z) : bytes := if v <? 0 then 45 :: print_dec 20 (- v) else print_dec 20 v.

Definition sd_name (n : Z) : bytes := [115; 100] ++ print_dec 20 n.

(** The partitions of the list whose names are in [imgname], by their numbers. *)
Fixpoint name_lines (fuel : nat) (m : bytes) (p_buff : nat) (imgname : bytes) (num : Z) (acc : bytes) : option (option bytes) :=
  match fuel with
  | O => None
  | S fuel =>
      '(m, ok, line, len) ← get_line m p_buff 1;
      if negb ok then Some (Some acc)
      else
        '(m, argv) ← parse_arg m line len;
        match argv with
        | a0 :: _ :: _ :: _ =>
            name ← str_at m a0;
            found ← find_str_in_list (imgname ++ [0]) name CH_COMMA;
            acc ← (if (found : bool) then t ← fits 8 (sd_name (num + 1)); fits 128 (if decide (acc = []) then t else acc ++ CH_COMMA :: t) else Some acc);
            name_lines fuel m (p_buff + len + 1) imgname (num + 1) acc
        | _ => Some None
        end
  end.

(** The new list replaces the names in their own array. *)
Definition get_part_name_from_img_name (src partlst imgname : bytes) : option (option bytes) :=
  f ← load_list src partlst;
  match f with
  | None => Some None
  | Some (m, size) =>
      '(_, m) ← process_input m size;
      '(m, ok, line, len) ← get_line m 0 1;
      if negb ok then Some None
      else if negb (is_gpt_list m line len) then Some None
      else
        r ← name_lines (S (length m)) m (len + 1) imgname 0 [];
        match r with
        | None => Some None
        | Some acc => if decide (acc = []) then Some (Some imgname) else l ← fits (S (length imgname)) acc; Some (Some l)
        end
  end.

Definition CMD_RET_USAGE : Z := -1.

Definition list_names (args : list bytes) : option (bytes * bytes) :=
  match args with
  | [dir] =>
      a ← fits 256 (dir ++ [47; 101; 109; 109; 99; 95; 112; 97; 114; 116; 95; 108; 105; 115; 116]);
      b ← fits 256 (dir ++ [47; 101; 109; 109; 99; 95; 105; 109; 97; 103; 101; 95; 108; 105; 115; 116]);
      Some (a, b)
  | [parts; imgs] => a ← fits 256 parts; b ← fits 256 imgs; Some (a, b)
  | _ => None
  end.

(** From the parsed options on: [ignore] is the argument of -i, [args] are the
    others; [cache] says whether the two blkcache commands succeed.  The commands
    are run with the arguments that are put together for them. *)
Definition do_list2emmc s (src : bytes) (ignore : option bytes) (args : list bytes) (cache : bool * bool) : option (burn D * Z) :=
  let s := set_mmc (-1) (has_mmc s) s in
  if negb (Nat.leb 1 (length args) && Nat.leb (length args) 2) then Some (s, CMD_RET_USAGE)
  else if negb (fst cache) then Some (s, CMD_RET_USAGE)
  else
    '(part_file, img_list) ← list_names args;
    '(s, ret) ← emmcpart_import s src part_file;
    if negb (ret =? 0) then Some (s, CMD_RET_USAGE)
    else
      ig ← match ignore with
           | None => Some (Some None)
           | Some l => r ← get_part_name_from_img_name src part_file l; Some (match r with None => None | Some l => Some (Some (l ++ [0])) end)
           end;
      match ig with
      | None => Some (s, CMD_RET_USAGE)
      | Some ig =>
          '(s, ret) ← img2sd_import s src img_list ig;
          if negb (ret =? 0) then Some (s, CMD_RET_USAGE)
          else
            '(s, ret) ← set_bootbus s;
            if negb (ret =? 0) then Some (s, CMD_RET_USAGE) else Some (s, if snd cache then 0 else CMD_RET_USAGE)
      end.

End Burn.
