(* ===== verification/EmmcLists.v ===== *)
(** * The lists of partitions and of images (emmcburn.c)

    What the parsers make of a well-formed list: the operations of a list of
    images, and the partitions, one after the other, of a list of partitions. *)

From S2P Require Import Prelude Disk UbootMmc EmmcText EmmcBurn.

(** ** Numbers *)

Definition is_digit (c : Z) : Prop := 48 <= c <= 57.
Definition dec_val (t : bytes) : Z := fold_left (fun n c => n * 10 + (c - CH_0)) t 0.

Lemma dec_from t : forall n, Forall is_digit t -> 0 <= n -> n <= fold_left (fun n c => n * 10 + (c - CH_0)) t n.
Proof.
  induction t as [|c t IH]; intros n Ht Hn; [cbn; lia|]. apply Forall_cons_iff in Ht as [Hc Ht]. unfold is_digit in Hc. cbn [fold_left].
  specialize (IH (n * 10 + (c - CH_0)) Ht). unfold CH_0 in *. lia.
Qed.

Lemma strtoull_ok t : Forall is_digit t -> dec_val t < 2 ^ 64 -> simple_strtoull t = dec_val t.
Proof.
  unfold simple_strtoull, dec_val. assert (H : forall n, 0 <= n -> Forall is_digit t -> fold_left (fun n c => n * 10 + (c - CH_0)) t n < 2 ^ 64 ->
    strtoull_loop t n = fold_left (fun n c => n * 10 + (c - CH_0)) t n); [|intros; apply H; done || lia].
  induction t as [|c t IH]; intros n Hn Ht Hb; [done|]. apply Forall_cons_iff in Ht as [Hc Ht]. unfold is_digit in Hc. cbn [strtoull_loop fold_left] in *.
  rewrite (proj2 (Z.leb_le _ _)), (proj2 (Z.leb_le _ _)) by lia. cbn [andb]. pose proof (dec_from t (n * 10 + (c - CH_0)) Ht ltac:(unfold CH_0; lia)).
  rewrite u64_id by (unfold CH_0 in *; lia). apply IH; [unfold CH_0; lia|done|done].
Qed.

Lemma print_dec_ok fuel : forall n, 0 <= n < 10 ^ Z.of_nat fuel -> Forall is_digit (print_dec fuel n) /\ dec_val (print_dec fuel n) = n.
Proof.
  induction fuel as [|fuel IH]; intros n Hn; [cbn in *; split; [done|unfold dec_val; cbn; lia]|]. cbn [print_dec].
  pose proof (Z.mod_pos_bound n 10 ltac:(lia)) as Hm. assert (Hd : is_digit (CH_0 + n mod 10)) by (unfold is_digit, CH_0; lia).
  destruct (n <? 10) eqn:E; bool_simpl.
  - split; [by constructor|]. unfold dec_val, CH_0. cbn. rewrite Z.mod_small; lia.
  - assert (Hn2 : 0 <= n / 10 < 10 ^ Z.of_nat fuel).
    { split; [apply Z.div_pos; lia|]. apply Z.div_lt_upper_bound; [lia|]. rewrite Nat2Z.inj_succ, Z.pow_succ_r in Hn by lia. lia. }
    destruct (IH _ Hn2) as [Hds Hv]. split; [apply list.Forall_app; split; [done|by constructor]|]. unfold dec_val in *. rewrite fold_left_app, Hv. cbn.
    unfold CH_0. rewrite (Z.div_mod n 10) at 3 by lia. lia.
Qed.

Lemma digit_field t : Forall is_digit t -> t <> [] -> field_ok t.
Proof.
  intros Ht Hne. split; [| | |done]; eapply list.Forall_impl; [exact Ht| |exact Ht| |exact Ht|]; unfold is_digit, CH_COMMA, CH_NL; cbn; intros; lia.
Qed.

(** ** Lines *)

Definition line_of (fs : list bytes) : bytes := join CH_COMMA fs ++ [CH_NL].

Lemma join_free x c fs : c <> x -> Forall (free_of x) fs -> free_of x (join c fs).
Proof.
  intros Hc. induction 1 as [|f fs Hf Hfs IH]; [constructor|]. destruct fs as [|g fs]; [done|]. rewrite join_cons. apply list.Forall_app. split; [done|]. by constructor.
Qed.

Lemma join_line fs : Forall field_ok fs -> free_of CH_NL (join CH_COMMA fs) /\ no_nul (join CH_COMMA fs).
Proof.
  intros H. split; (apply join_free; [done|]); eapply list.Forall_impl; [exact H| |exact H|]; intros f []; done.
Qed.

(** The text of a line of fields, perhaps with a comma at its end. *)
Definition line_text (fs : list bytes) (tc : bool) : bytes := join CH_COMMA fs ++ last_comma CH_COMMA tc.

Lemma line_text_ok fs tc : Forall field_ok fs -> free_of CH_NL (line_text fs tc) /\ no_nul (line_text fs tc) /\ (length fs <= length (line_text fs tc))%nat.
Proof.
  intros Hf. destruct (join_line fs Hf) as [H1 H2]. pose proof (join_ge CH_COMMA fs Hf). unfold line_text. rewrite length_app.
  split; [|split; [|lia]]; (apply list.Forall_app; split; [done|]); destruct tc; repeat constructor; done.
Qed.

(** A line, ended by a newline or already by a terminator, is read, cut into its
    fields, and left behind. *)
Lemma next_line tc c pre fs rest : c = CH_NL \/ c = 0 -> Forall field_ok fs -> (2 <= length fs <= 4)%nat ->
  get_line (pre ++ line_text fs tc ++ c :: rest) (length pre) 1 = Some (pre ++ line_text fs tc ++ 0 :: rest, true, length pre, length (line_text fs tc)) /\
  exists argv pre', parse_arg (pre ++ line_text fs tc ++ 0 :: rest) (length pre) (length (line_text fs tc)) = Some (pre' ++ rest, argv) /\ length argv = length fs /\
    (length pre + length (line_text fs tc) + 1)%nat = length pre' /\
    forall i f, fs !! i = Some f -> exists p, argv !! i = Some p /\ str_at (pre' ++ rest) p = Some f.
Proof.
  intros Hc Hf Hl. destruct (line_text_ok fs tc Hf) as (Hnl & Hn & Hge). split.
  - destruct Hc as [-> | ->]; [rewrite get_line_ok by done|rewrite get_line_end by done]; unfold long; rewrite (proj2 (Nat.leb_gt _ _)) by lia; done.
  - destruct (parse_arg_ok tc pre fs rest Hf ltac:(destruct fs; [cbn in Hl; lia|done]) ltac:(lia)) as (argv & E & La & Hs). exists argv, (pre ++ join 0 fs ++ last_comma 0 tc ++ [0]).
    replace ((pre ++ join 0 fs ++ last_comma 0 tc ++ [0]) ++ rest) with (pre ++ join 0 fs ++ last_comma 0 tc ++ 0 :: rest) by now rewrite <- !app_assoc.
    unfold line_text. rewrite length_app, <- !app_assoc. split; [exact E|]. split; [done|]. split; [|exact Hs]. rewrite !length_app, (join_length 0 CH_COMMA). destruct tc; cbn [length last_comma]; lia.
Qed.

(** The end of the text. *)
Lemma no_line pre rest : get_line (pre ++ 0 :: rest) (length pre) 1 = Some (pre ++ 0 :: rest, false, length pre, 0%nat).
Proof. exact (get_line_end pre [] rest ltac:(constructor) ltac:(constructor)). Qed.

Definition lines_of (fss : list (list bytes)) : bytes := concat (map line_of fss).

(** ** The list of images *)

(** An entry of the list: what is done and the partition. *)
Record entry := mk_entry { what : bytes; target : bytes }.

Definition entry_ok (e : entry) : Prop := field_ok (what e) /\ field_ok (target e) /\ (length (target e) < 8)%nat /\ (length (what e) < 32)%nat.

Definition entry_fields (e : entry) : list bytes := [what e; target e].

Definition op_of (e : entry) : pt_operation :=
  let pt := target e ++ 0 :: replicate (7 - length (target e)) 0 in
  if decide (what e = str_erase) then mk_pt_op ERASE_PT pt [] else if decide (what e = str_format) then mk_pt_op FORMAT_PT pt []
  else mk_pt_op BURN_IMAGE pt (what e).

Lemma map_const_seq {A} (x : A) n : forall i, map (fun _ => x) (seq i n) = replicate n x.
Proof. induction n as [|n IH]; intros i; [done|]. cbn. now rewrite IH. Qed.

Lemma op_lines_ok es : forall fuel pre rest ptop, Forall entry_ok es -> Z.of_nat (length ptop + length es) <= MAX_GPT_PT_NUM -> (length es < fuel)%nat ->
  op_lines fuel (pre ++ lines_of (map entry_fields es) ++ 0 :: rest) (length pre) ptop = Some (Some (ptop ++ map op_of es)).
Proof.
  unfold MAX_GPT_PT_NUM. induction es as [|e es IH]; intros fuel pre rest ptop Hes Hn Hfuel; (destruct fuel as [|fuel]; [cbn in Hfuel; lia|]); cbn [op_lines].
  - cbn [map lines_of concat app]. rewrite no_line. cbn [mbind option_bind negb]. now rewrite app_nil_r.
  - apply Forall_cons_iff in Hes as [(Hw & Ht & Ht8 & Hw32) Hes]. cbn [map lines_of concat]. fold (lines_of (map entry_fields es)). rewrite <- app_assoc.
    unfold line_of. rewrite <- !app_assoc. cbn [app].
    destruct (next_line false CH_NL pre (entry_fields e) (lines_of (map entry_fields es) ++ 0 :: rest)) as [Hg (argv & pre' & E & La & Hp & Hs)];
      [by left|constructor; [done|constructor; [done|constructor]]|cbn; lia|]. unfold line_text in *. cbn [last_comma app] in *. rewrite app_nil_r in *.
    rewrite Hg. cbn [mbind option_bind negb]. rewrite E. cbn [mbind option_bind]. destruct argv as [|a0 [|a1 [|]]]; try discriminate La.
    destruct (Hs 0%nat _ eq_refl) as (p0 & [= <-] & ->). destruct (Hs 1%nat _ eq_refl) as (p1 & [= <-] & ->). cbn [mbind option_bind].
    cbn [length] in Hn, Hfuel. rewrite decide_False by (unfold MAX_GPT_PT_NUM; lia). unfold pt_array, fits. rewrite (decide_True _ (P := (length (target e) < 8)%nat)) by done. cbn [mbind option_bind].
    rewrite map_const_seq. rewrite Hp.
    assert (Hop : (if decide (what e = str_erase) then Some (mk_pt_op ERASE_PT (target e ++ 0 :: replicate (7 - length (target e)) 0) [])
      else if decide (what e = str_format) then Some (mk_pt_op FORMAT_PT (target e ++ 0 :: replicate (7 - length (target e)) 0) [])
      else img ← (if decide (length (what e) < 32)%nat then Some (what e) else None); Some (mk_pt_op BURN_IMAGE (target e ++ 0 :: replicate (7 - length (target e)) 0) img)) = Some (op_of e)).
    { unfold op_of. rewrite (decide_True _ (P := (length (what e) < 32)%nat)) by done. destruct (decide (what e = str_erase)); [done|]. by destruct (decide (what e = str_format)). }
    rewrite Hop. cbn [mbind option_bind]. rewrite IH; [now rewrite <- app_assoc|done|rewrite length_app; cbn [length]; lia|lia].
Qed.

(** A list of images, with blanks anywhere in it, is read as its operations. *)
Lemma image_list_parsed {D} (bo : burner D) src path text es :
  imgload bo src path = Some text -> (length text < LIST_SIZE)%nat -> no_nul text -> squeezed text = lines_of (map entry_fields es) ->
  Forall entry_ok es -> Z.of_nat (length es) <= MAX_GPT_PT_NUM ->
  pt_operation_serialization bo src path = Some (Some (map op_of es)).
Proof.
  intros El Hlen Hn Hsq Hes Hnum. unfold pt_operation_serialization, load_list. rewrite El, decide_False by lia. cbn [mbind option_bind].
  rewrite process_input_ok by done. cbn [mbind option_bind]. rewrite Hsq.
  destruct (LIST_SIZE - length text)%nat as [|k] eqn:Ek; [lia|].
  assert (Ez : exists rest, replicate (length text - length (lines_of (map entry_fields es))) 0 ++ replicate (S k) 0 = 0 :: rest).
  { rewrite <- replicate_add. replace (_ + S k)%nat with (S (length text - length (lines_of (map entry_fields es)) + k)) by lia. cbn. by eexists. }
  destruct Ez as [rest ->]. apply (op_lines_ok es _ [] rest []); [done|done|]. rewrite length_app, length_cons'.
  assert (Hge : forall l : list entry, Forall entry_ok l -> (length l <= length (lines_of (map entry_fields l)))%nat).
  { induction l as [|e l IH]; intros Hl; [done|]. apply Forall_cons_iff in Hl as [He Hl]. cbn [map lines_of concat]. rewrite length_app. unfold line_of at 1.
    rewrite length_app. specialize (IH Hl). unfold lines_of in IH. cbn [length]. lia. }
  specialize (Hge es Hes). lia.
Qed.

(** ** The list of partitions *)

(** A line: the name, the start, the size, and whatever may follow another comma. *)
Record part_spec := mk_spec { sp_name : bytes; sp_start : bytes; sp_size : bytes; sp_opt : option bytes }.

Definition spec_fields (p : part_spec) : list bytes :=
  [sp_name p; sp_start p; sp_size p] ++ match sp_opt p with None | Some [] => [] | Some o => [o] end.
Definition spec_comma (p : part_spec) : bool := match sp_opt p with Some [] => true | _ => false end.
Definition spec_text (p : part_spec) : bytes := line_text (spec_fields p) (spec_comma p).
Definition spec_lines (ps : list part_spec) : bytes := concat (map (fun p => spec_text p ++ [CH_NL]) ps).

Record spec_ok (p : part_spec) : Prop := mk_spec_ok {
  so_name : field_ok (sp_name p) /\ (length (sp_name p) < PART_NAME_LEN)%nat /\ head (sp_name p) <> Some CH_HASH;
  so_start : Forall is_digit (sp_start p) /\ sp_start p <> [];
  so_size : Forall is_digit (sp_size p) /\ sp_size p <> [];
  so_opt : match sp_opt p with None | Some [] => True | Some o => field_ok o end;
}.

(** The partitions lie one behind the other, in units of MiB. *)
Fixpoint layout (start : Z) (ps : list part_spec) : list disk_partition_t :=
  match ps with
  | [] => []
  | p :: ps => mk_disk_part (start * 2048) (dec_val (sp_size p) * 2048) 512 (sp_name p) :: layout (start + dec_val (sp_size p)) ps
  end.

Fixpoint extent (ps : list part_spec) : Z := match ps with [] => 0 | p :: ps => dec_val (sp_size p) + extent ps end.

Lemma dec_val_nonneg t : Forall is_digit t -> 0 <= dec_val t.
Proof. intros H. apply (dec_from t 0 H). lia. Qed.

Lemma extent_nonneg ps : Forall spec_ok ps -> 0 <= extent ps.
Proof. induction 1 as [|p ps [_ _ [Hs _] _] Hps IH]; [done|]. cbn [extent]. pose proof (dec_val_nonneg _ Hs). lia. Qed.

Lemma layout_length start ps : length (layout start ps) = length ps.
Proof. revert start. induction ps as [|p ps IH]; intros start; [done|]. cbn. now rewrite IH. Qed.

Lemma spec_fields_ok p : spec_ok p -> Forall field_ok (spec_fields p) /\ (2 <= length (spec_fields p) <= 4)%nat.
Proof.
  intros [[Hn _] [H1 H2] [H3 H4] Ho]. unfold spec_fields. split.
  - apply list.Forall_app. split; [constructor; [done|]; constructor; [by apply digit_field|]; constructor; [by apply digit_field|constructor]|].
    destruct (sp_opt p) as [[|c o]|]; cbn; [constructor|constructor; [exact Ho|constructor]|constructor].
  - destruct (sp_opt p) as [[|c o]|]; cbn; lia.
Qed.

Lemma mib_blocks x : 0 <= x < 2 ^ 43 -> u64 (Z.quot (i64 (x * 1024 * 1024)) 512) = x * 2048.
Proof.
  intros H. unfold i64. rewrite Z.mod_small by lia. replace (x * 1024 * 1024 + 2 ^ 63 - 2 ^ 63) with (x * 2048 * 512) by lia. rewrite Z.quot_mul by lia. apply u64_id. lia.
Qed.

Lemma create_ok p start : spec_ok p -> 0 <= start < 2 ^ 43 -> dec_val (sp_size p) < 2 ^ 43 ->
  create_gpt_partition (sp_name p) start (dec_val (sp_size p)) = Some (mk_disk_part (start * 2048) (dec_val (sp_size p) * 2048) 512 (sp_name p)).
Proof.
  intros [(_ & Hn & _) _ [Hs _] _] H1 H2. pose proof (dec_val_nonneg _ Hs). unfold create_gpt_partition, fits. rewrite decide_True by done. cbn [mbind option_bind].
  now rewrite !mib_blocks by lia.
Qed.

Lemma i64_small x : 0 <= x < 2 ^ 63 -> i64 x = x.
Proof. intros H. unfold i64. rewrite Z.mod_small; lia. Qed.

(** One line adds a partition. *)
Lemma part_line p c fuel pre rest st sz parts start :
  spec_ok p -> c = CH_NL \/ c = 0 -> Z.of_nat (length parts) < MAX_GPT_PT_NUM -> (0 < fuel)%nat ->
  (parts = [] -> start = dec_val (sp_start p)) -> (parts <> [] -> st + sz = start) -> 0 <= start < 2 ^ 43 -> dec_val (sp_size p) < 2 ^ 43 ->
  exists pre', part_lines (S fuel) (pre ++ spec_text p ++ c :: rest) (length pre) st sz parts =
    part_lines fuel (pre' ++ rest) (length pre') start (dec_val (sp_size p)) (parts ++ [mk_disk_part (start * 2048) (dec_val (sp_size p) * 2048) 512 (sp_name p)]).
Proof.
  intros Hp Hc Hnum Hfuel H0 H1 Hst Hsz. destruct (spec_fields_ok p Hp) as [Hf Hlen].
  destruct (next_line (spec_comma p) c pre (spec_fields p) rest Hc Hf Hlen) as [Hg (argv & pre' & Ea & La & Hpos & Hs)].
  exists pre'. cbn [part_lines]. unfold spec_text. rewrite Hg. cbn [mbind option_bind negb]. rewrite Ea. cbn [mbind option_bind].
  destruct (Hs 0%nat _ eq_refl) as (p0 & A0 & S0). destruct (Hs 1%nat _ eq_refl) as (p1 & A1 & S1). destruct (Hs 2%nat _ eq_refl) as (p2 & A2 & S2).
  destruct argv as [|a0 [|a1 [|a2 l]]]; try done. cbn in A0, A1, A2. injection A0 as <-. injection A1 as <-. injection A2 as <-. rewrite S0, S1, S2.
  cbn [mbind option_bind]. destruct Hp as [Hname [Hd1 Hd1'] [Hd2 Hd2'] Hopt] eqn:EH. clear EH. pose proof (dec_val_nonneg _ Hd2).
  assert (Est : (if decide (parts = []) then i64 (simple_strtoull (sp_start p)) else i64 (st + sz)) = start).
  { destruct (decide (parts = [])) as [E|E].
    - rewrite strtoull_ok by (done || rewrite <- H0 by done; lia). rewrite <- H0 by done. apply i64_small. lia.
    - rewrite H1 by done. apply i64_small. lia. }
  rewrite Est, (strtoull_ok (sp_size p)), (i64_small (dec_val (sp_size p))) by (done || lia). rewrite decide_False by lia.
  rewrite create_ok by (done || lia). cbn [mbind option_bind]. now rewrite Hpos.
Qed.

Lemma part_lines_more ps : forall fuel pre rest st sz parts start,
  Forall spec_ok ps -> (length ps < fuel)%nat -> parts <> [] -> st + sz = start -> 0 <= start -> start + extent ps < 2 ^ 43 ->
  Z.of_nat (length parts + length ps) <= MAX_GPT_PT_NUM ->
  exists pre', part_lines fuel (pre ++ spec_lines ps ++ 0 :: rest) (length pre) st sz parts =
    Some (pre' ++ 0 :: rest, length pre', 0%nat, Some (parts ++ layout start ps)).
Proof.
  induction ps as [|p ps IH]; intros fuel pre rest st sz parts start Hps Hfuel Hne Hst H0 Hb Hnum; (destruct fuel as [|fuel]; [cbn in Hfuel; lia|]).
  - exists pre. cbn [part_lines map spec_lines concat app]. rewrite no_line. cbn [mbind option_bind negb layout]. now rewrite app_nil_r.
  - apply Forall_cons_iff in Hps as [Hp Hps]. cbn [map spec_lines concat extent length] in *. fold (spec_lines ps). rewrite <- !app_assoc. cbn [app].
    pose proof (extent_nonneg ps Hps). pose proof (dec_val_nonneg _ (proj1 (so_size _ Hp))).
    destruct (part_line p CH_NL fuel pre (spec_lines ps ++ 0 :: rest) st sz parts start Hp (or_introl eq_refl)) as (pre1 & ->); try (done || lia).
    destruct (IH fuel pre1 rest start (dec_val (sp_size p)) (parts ++ [mk_disk_part (start * 2048) (dec_val (sp_size p) * 2048) 512 (sp_name p)]) (start + dec_val (sp_size p))) as (pre' & ->);
      [done|lia|by destruct parts|done|lia|lia|rewrite length_app; cbn [length]; lia|].
    exists pre'. cbn [layout]. now rewrite <- app_assoc.
Qed.

(** The lines of a hardware partition, the first already ended by a terminator. *)
Lemma part_lines_ok p ps fuel pre rest :
  Forall spec_ok (p :: ps) -> (S (length ps) < fuel)%nat -> dec_val (sp_start p) + extent (p :: ps) < 2 ^ 43 -> Z.of_nat (length (p :: ps)) <= MAX_GPT_PT_NUM ->
  exists pre', part_lines fuel (pre ++ spec_text p ++ 0 :: spec_lines ps ++ 0 :: rest) (length pre) 0 0 [] =
    Some (pre' ++ 0 :: rest, length pre', 0%nat, Some (layout (dec_val (sp_start p)) (p :: ps))).
Proof.
  intros Hps Hfuel Hb Hnum. apply Forall_cons_iff in Hps as [Hp Hps]. destruct fuel as [|fuel]; [lia|]. cbn [extent length] in *. unfold MAX_GPT_PT_NUM in *.
  pose proof (extent_nonneg ps Hps). pose proof (dec_val_nonneg _ (proj1 (so_size _ Hp))). pose proof (dec_val_nonneg _ (proj1 (so_start _ Hp))).
  destruct (part_line p 0 fuel pre (spec_lines ps ++ 0 :: rest) 0 0 [] (dec_val (sp_start p)) Hp (or_intror eq_refl)) as (pre1 & ->);
    try (done || lia || unfold MAX_GPT_PT_NUM; cbn; lia).
  destruct (part_lines_more ps fuel pre1 rest (dec_val (sp_start p)) (dec_val (sp_size p)) ([] ++ [mk_disk_part (dec_val (sp_start p) * 2048) (dec_val (sp_size p) * 2048) 512 (sp_name p)])
    (dec_val (sp_start p) + dec_val (sp_size p))) as (pre' & ->); [done|lia|done|done|lia|lia|unfold MAX_GPT_PT_NUM; cbn [length app]; lia|].
  by exists pre'.
Qed.
