(* ===== verification/EmmcWrite.v ===== *)
(** * Writing blocks (emmcburn.c)

    What emmc_write() guarantees on any device that tells the truth when it is
    read, and how erasing, writing and reading work on a device that keeps its
    promises. *)

From S2P Require Import Prelude Disk UbootMmc EmmcText EmmcBurn.

(** ** A device whose reads are truthful

    Selecting, erasing and writing may do anything, and report anything. *)
Class TruthfulReads {D : Type} (ops : blk D) (m : Z) := {
  tcontents : D -> Z -> Z;
  t_blksz : 1 <= dev_blksz ops <= 4096;
  t_read d a n : 0 <= a -> 0 <= n -> forall d' k got, dread ops d m a n = (d', k, got) ->
    (forall x, tcontents d' x = tcontents d x) /\
    (u32 k = u32 n -> got = rng (tcontents d) (a * dev_blksz ops) (Z.to_nat (n * dev_blksz ops)));
}.

Lemma u32_small x : 0 <= x < 2 ^ 32 -> u32 x = x.
Proof. exact (u32_id x). Qed.

Section Verified.
Context {D : Type} (ops : blk D) (bo : burner D) {m : Z} `{!TruthfulReads ops m}.
Context (env_get : bytes -> option bytes) (simple_strtol : bytes -> Z) (rom_spi_boot : bool).
Implicit Types (s : burn D).

(** The device is in use, with hardware partition [p] selected. *)
Definition in_use (p : Z) s : Prop := curr_device s = m /\ 0 <= m /\ has_mmc s = true /\ curr_part s = p.

Lemma in_use_init p s : in_use p s -> emmc_init ops env_get simple_strtol rom_spi_boot s = (s, 0) /\ use_part bo s p = (s, true).
Proof.
  intros (Hd & Hm & Hh & Hp). unfold emmc_init, use_part. rewrite Hd, Hp, (proj2 (Z.leb_le _ _) Hm), Z.eqb_refl. done.
Qed.

Lemma in_use_blksize p s : in_use p s -> get_blksize ops env_get simple_strtol rom_spi_boot s = Some (s, dev_blksz ops).
Proof. intros H. unfold get_blksize, mmc_field. rewrite (proj1 (in_use_init p s H)). cbn [negb Z.eqb]. by rewrite (proj1 (proj2 (proj2 H))). Qed.

(** The comparison ends with success only when every block has been read back. *)
Lemma verify_sound fuel : forall s p rstart rest buff woff rbuff s',
  in_use p s -> 0 <= rstart -> 0 <= rest -> rstart + rest < 2 ^ 32 ->
  verify_loop ops bo env_get simple_strtol rom_spi_boot fuel s p rstart rest buff woff rbuff = Some (s', 0) ->
  in_use p s' /\ (forall x, tcontents (bdev s') x = tcontents (bdev s) x) /\
  rng (tcontents (bdev s)) (rstart * dev_blksz ops) (Z.to_nat (rest * dev_blksz ops)) = take (Z.to_nat (rest * dev_blksz ops)) (drop woff buff).
Proof.
  pose proof t_blksz as Hbs. induction fuel as [|fuel IH]; intros s p rstart rest buff woff rbuff s' Hu Hs Hr Hb; [done|]. cbn [verify_loop].
  set (r := if VERIFY_BUF_LBA <=? rest then VERIFY_BUF_LBA else rest). assert (Hr0 : 0 <= r <= rest /\ r <= 1024 /\ (r = rest \/ r = 1024)).
  { unfold r, VERIFY_BUF_LBA. destruct (Z.leb_spec 1024 rest); lia. }
  unfold emmc_read. destruct (in_use_init p s Hu) as [-> ->]. cbn [negb Z.eqb]. pose proof Hu as (Hd & Hm & Hh & Hp). rewrite Hh, Hd. cbn [negb].
  rewrite !u32_small by lia. destruct (dread ops (bdev s) m rstart r) as [[d k] got] eqn:Er. destruct (t_read _ _ _ Hs (proj1 (proj1 Hr0)) _ _ _ Er) as [Hc Hg].
  destruct (store_at rbuff 0 got) as [rb|] eqn:Eb; [|done]. cbn [mbind option_bind]. destruct (r =? u32 k) eqn:Ek; cbn [negb Z.eqb]; [|done].
  apply Z.eqb_eq in Ek. rewrite (u32_small r) in Hg by lia. specialize (Hg (eq_sym Ek)).
  assert (Hu1 : in_use p (set_bdev d s)) by done. rewrite (in_use_blksize p _ Hu1). cbn [mbind option_bind]. rewrite (u32_small (r * dev_blksz ops)) by nia.
  set (n := Z.to_nat (r * dev_blksz ops)) in *.
  unfold store_at in Eb. destruct (decide (0 + length got <= length rbuff)%nat) as [Hl|]; [|done]. injection Eb as <-.
  assert (Hgn : length got = n) by (rewrite Hg; apply length_rng). unfold bytes_at. rewrite (decide_True (P := (0 + n <= length (splice rbuff 0 got))%nat)) by (rewrite length_splice by done; lia). cbn [mbind option_bind].
  destruct (decide (woff + n <= length buff)%nat) as [Hw|]; [|done]. cbn [mbind option_bind].
  assert (Hrb : take n (drop 0 (splice rbuff 0 got)) = got) by (unfold splice; rewrite drop_0, take_0; cbn [app]; rewrite <- Hgn; apply take_app_length). rewrite Hrb.
  destruct (bool_decide (got = take n (drop woff buff))) eqn:Ew; cbn [negb]; [|done]. apply bool_decide_eq_true in Ew.
  destruct (0 <? rest - r) eqn:E0; bool_simpl.
  - intros Ev. destruct (IH (set_bdev d s) p (rstart + r) (rest - r) buff (woff + n)%nat (splice rbuff 0 got) s' Hu1) as (U & C & R); try lia; [exact Ev|].
    split; [exact U|]. split; [intros x; rewrite C; apply Hc|]. replace (Z.to_nat (rest * dev_blksz ops)) with (n + Z.to_nat ((rest - r) * dev_blksz ops))%nat by (unfold n; nia).
    rewrite rng_app. rewrite <- take_take_drop. replace (rstart * dev_blksz ops + Z.of_nat n) with ((rstart + r) * dev_blksz ops) by (unfold n; nia).
    rewrite <- Hg, Ew, drop_drop. f_equal. rewrite <- R. apply rng_ext. intros x _. symmetry. apply Hc.
  - intros [= <-]. split; [exact Hu1|]. split; [exact Hc|]. replace rest with r by lia. fold n. rewrite <- Hg. exact Ew.
Qed.

(** C21: When emmc_write() reports success, the device gives back exactly the blocks of
    the buffer, whatever it does with erases, writes and selections, as long as
    it reads what it holds. *)
Theorem emmc_write_verified s p start_lba cnt buff s' :
  active_dev env_get simple_strtol rom_spi_boot = m -> 0 <= m -> (0 <= curr_device s -> curr_device s = m) ->
  0 <= start_lba -> 0 <= cnt -> start_lba + cnt < 2 ^ 32 ->
  emmc_write ops bo env_get simple_strtol rom_spi_boot s p start_lba cnt buff true = Some (s', 0) ->
  rng (tcontents (bdev s')) (start_lba * dev_blksz ops) (Z.to_nat (cnt * dev_blksz ops)) = take (Z.to_nat (cnt * dev_blksz ops)) buff.
Proof.
  intros Ha Hm Hc Hs Hn Hb. unfold emmc_write. destruct (emmc_init ops env_get simple_strtol rom_spi_boot s) as [s1 r1] eqn:Ei.
  assert (H1 : r1 = 0 -> curr_device s1 = m).
  { unfold emmc_init in Ei. rewrite Ha in Ei. destruct (0 <=? curr_device s) eqn:E; injection Ei as <- <-; bool_simpl; [intros _; by apply Hc|done]. }
  destruct (r1 =? 0) eqn:E1; cbn [negb]; [|done]. apply Z.eqb_eq in E1. specialize (H1 E1). destruct (use_part bo s1 p) as [s2 ok] eqn:Eu.
  destruct ok; cbn [negb]; [|done]. assert (H2 : curr_device s2 = m /\ curr_part s2 = p).
  { unfold use_part in Eu. destruct (p =? curr_part s1) eqn:Ep; cbn [negb] in Eu.
    - injection Eu as <-. apply Z.eqb_eq in Ep. by split.
    - unfold emmcburn_switch_part in Eu. destruct (curr_device s1 =? DEV_SD).
      + cbn in Eu. injection Eu as <-. by split.
      + destruct (curr_device s1 =? DEV_EMMC); [destruct (mmc_dev_cmd bo (bdev s1) (curr_device s1) p) as [x ret]|];
          [destruct (negb (ret =? 0))|]; cbn in Eu; injection Eu as <-; by split. }
  destruct (has_mmc s2) eqn:Eh; cbn [negb]; [|done]. destruct (bytes_at buff 0 _) as [data|]; cbn [mbind option_bind]; [|done].
  rewrite !u32_small by lia. destruct (dwrite ops (bdev s2) (curr_device s2) start_lba cnt data) as [d k]. destruct (cnt =? u32 k); cbn [negb]; [|done].
  assert (Hu : in_use p (set_bdev d s2)) by (split_and!; [apply H2|done|done|apply H2]). rewrite (in_use_blksize p _ Hu). cbn [mbind option_bind].
  intros Ev. apply (verify_sound _ _ p) in Ev as (_ & C & R); [|done|done|done|done]. rewrite drop_0 in R. rewrite <- R. apply rng_ext. intros x _. apply C.
Qed.

End Verified.

(** ** A device that keeps its promises

    The user area is hardware partition 0, the boot partitions are 1 and 2.
    "mmc dev" selects one of them; reads, writes and erases are those of the selected
    one, and erasing and making a file system change nothing outside their range; a
    selection that fails keeps the one before. *)
Class ReliableBurner {D : Type} (ops : blk D) (bo : burner D) `{!ReliableBlk ops DEV_EMMC} := {
  hw_contents : D -> Z -> Z -> Z;
  hw_selected : D -> Z -> Prop;
  hw_user d x : hw_contents d 0 x = bcontents d x;
  hw_area d : hw_selected d 0 <-> in_user_area d;
  rb_switch d h : 0 <= h <= 2 -> exists d', mmc_dev_cmd bo d DEV_EMMC h = (d', 0) /\ hw_selected d' h /\ forall q x, hw_contents d' q x = hw_contents d q x;
  rb_grp : erase_grp_size bo <> 0;
  rb_erase d h a n : hw_selected d h -> 0 <= a -> 0 <= n -> hw_selected (derase bo d DEV_EMMC a n) h /\
    forall q x, q <> h \/ x < a * dev_blksz ops \/ (a + n) * dev_blksz ops <= x -> hw_contents (derase bo d DEV_EMMC a n) q x = hw_contents d q x;
  rb_read d h a n : hw_selected d h -> 0 <= a -> 0 <= n -> exists d',
    dread ops d DEV_EMMC a n = (d', n, rng (hw_contents d h) (a * dev_blksz ops) (Z.to_nat (n * dev_blksz ops))) /\
    hw_selected d' h /\ forall q x, hw_contents d' q x = hw_contents d q x;
  rb_write d h a n buf : hw_selected d h -> 0 <= a -> 0 <= n -> Z.of_nat (length buf) = n * dev_blksz ops -> is_bytes buf -> exists d',
    dwrite ops d DEV_EMMC a n buf = (d', n) /\ hw_selected d' h /\
    forall q x, hw_contents d' q x = if q =? h then upd (hw_contents d h) (a * dev_blksz ops) buf x else hw_contents d q x;
  rb_gpp d : hw_selected d 0 -> hw_selected (fst (dselect_hwpart ops d DEV_EMMC 4)) 0 /\
    forall q x, hw_contents (fst (dselect_hwpart ops d DEV_EMMC 4)) q x = hw_contents d q x;
  rb_format d h a n : hw_selected d h -> 0 <= a -> 0 <= n -> exists d', make_ext4fs bo d DEV_EMMC a n = (d', 0) /\ hw_selected d' h /\
    forall q x, q <> h \/ x < a * dev_blksz ops \/ (a + n) * dev_blksz ops <= x -> hw_contents d' q x = hw_contents d q x;
  rb_heap i : is_u8 (heap bo i);
}.

Section Reliable.
Context {D : Type} {ops : blk D} {bo : burner D} `{!ReliableBlk ops DEV_EMMC} `{!ReliableBurner ops bo}.
Context (env_get : bytes -> option bytes) (simple_strtol : bytes -> Z) (rom_spi_boot : bool).
Hypothesis Hactive : active_dev env_get simple_strtol rom_spi_boot = DEV_EMMC.
Implicit Types (s : burn D).

(** The contents of a hardware partition. *)
Definition disk s (q : Z) : Z -> Z := hw_contents (bdev s) q.

(** Ready for a command. *)
Record attached s : Prop := mk_attached {
  at_dev : curr_device s = -1 \/ (curr_device s = DEV_EMMC /\ has_mmc s = true);
  at_part : 0 <= curr_part s -> hw_selected (bdev s) (curr_part s);
  at_plain : plain (bmmc s);
}.

(** Hardware partition [h] is in use. *)
Record opened (h : Z) s : Prop := mk_opened {
  op_dev : curr_device s = DEV_EMMC /\ has_mmc s = true;
  op_part : curr_part s = h /\ hw_selected (bdev s) h;
  op_plain : plain (bmmc s);
}.

(** The variables that only the partition table and the burning of images change. *)
Definition static s s' : Prop :=
  is_gpt_ready s' = is_gpt_ready s /\ g_gpt_e s' = g_gpt_e s /\ last_start_lba s' = last_start_lba s /\ last_part s' = last_part s.

Lemma opened_attached h s : opened h s -> attached s.
Proof. intros [[? ?] [Hp ?] ?]. split; auto. by rewrite Hp. Qed.

Lemma static_trans s1 s2 s3 : static s1 s2 -> static s2 s3 -> static s1 s3.
Proof. unfold static. intros (? & ? & ? & ?) (? & ? & ? & ?). split_and!; congruence. Qed.

Lemma init_ok s : attached s -> exists s1, emmc_init ops env_get simple_strtol rom_spi_boot s = (s1, 0) /\ attached s1 /\
  curr_device s1 = DEV_EMMC /\ has_mmc s1 = true /\ static s s1 /\ bmmc s1 = bmmc s /\ curr_part s1 = curr_part s.
Proof.
  intros [[Hd|[Hd Hh]] Hp Hpl]; unfold emmc_init; rewrite Hd.
  - rewrite Hactive, b_present. cbn. eexists. split; [reflexivity|]. split; [split; [by right|done|done]|]. by split_and!.
  - cbn. exists s. split; [done|]. split; [split; [by right|done|done]|]. unfold static. by split_and!.
Qed.

Lemma use_ok s h : attached s -> curr_device s = DEV_EMMC -> has_mmc s = true -> 0 <= h <= 2 -> exists s1, use_part bo s h = (s1, true) /\ opened h s1 /\ static s s1 /\
  forall q x, disk s1 q x = disk s q x.
Proof.
  intros [Ha Hp Hpl] Hd Hh Hr. unfold use_part. destruct (h =? curr_part s) eqn:E; cbn [negb]; bool_simpl.
  - exists s. split; [done|]. split; [split; [done|split; [done|rewrite E; apply Hp; lia]|done]|]. unfold static. by split_and!.
  - unfold emmcburn_switch_part. rewrite Hd. change (DEV_EMMC =? DEV_SD) with false. change (DEV_EMMC =? DEV_EMMC) with true. cbv iota.
    destruct (rb_switch (bdev s) h Hr) as (d' & -> & Hu & Hc). change (negb (0 =? 0)) with false. cbv iota.
    eexists. split; [reflexivity|]. split; [by split|]. split; [by split_and!|]. exact Hc.
Qed.

Lemma blksize_ok s : attached s -> exists s1, get_blksize ops env_get simple_strtol rom_spi_boot s = Some (s1, dev_blksz ops) /\ attached s1 /\
  curr_device s1 = DEV_EMMC /\ has_mmc s1 = true /\ static s s1 /\ bmmc s1 = bmmc s /\ curr_part s1 = curr_part s.
Proof.
  intros H. destruct (init_ok s H) as (s1 & E & H1 & Hd & Hh & Hr). exists s1. unfold get_blksize, mmc_field. rewrite E. cbn [negb Z.eqb]. by rewrite Hh.
Qed.

Lemma opened_init h s : opened h s -> emmc_init ops env_get simple_strtol rom_spi_boot s = (s, 0) /\ use_part bo s h = (s, true).
Proof. intros [[Hd Hh] [Hp Hu] Hpl]. unfold emmc_init, use_part. rewrite Hd, Hp, Z.eqb_refl. done. Qed.

Lemma opened_blksize h s : opened h s -> get_blksize ops env_get simple_strtol rom_spi_boot s = Some (s, dev_blksz ops).
Proof. intros H. unfold get_blksize, mmc_field. rewrite (proj1 (opened_init h s H)). cbn [negb Z.eqb]. by rewrite (proj2 (op_dev h s H)). Qed.

Lemma erase_ok s h a n : attached s -> 0 <= h <= 2 -> 0 <= a < 2 ^ 32 -> 0 <= n < 2 ^ 32 -> exists s',
  emmc_erase ops bo env_get simple_strtol rom_spi_boot s h a n = Some (s', 0) /\ opened h s' /\ static s s' /\
  forall q x, q <> h \/ x < a * dev_blksz ops \/ (a + n) * dev_blksz ops <= x -> disk s' q x = disk s q x.
Proof.
  intros H Hh Ha Hn. unfold emmc_erase. destruct (blksize_ok s H) as (s1 & -> & H1 & Hd1 & Hh1 & K1 & B1 & P1). cbn [mbind option_bind].
  unfold get_erase_grp_size, mmc_field. destruct (init_ok s1 H1) as (s2 & E2 & H2 & Hd2 & Hh2 & K2 & B2 & P2). rewrite E2. cbn [negb Z.eqb]. rewrite Hh2. cbn [mbind option_bind].
  rewrite (proj2 (Z.eqb_neq _ _) rb_grp). destruct (init_ok s2 H2) as (s3 & E3 & H3 & Hd3 & Hh3 & K3 & B3 & P3). rewrite E3. cbn [negb Z.eqb].
  destruct (use_ok s3 h H3 Hd3 Hh3 Hh) as (s4 & E4 & H4 & K4 & C4). rewrite E4. cbn [negb]. pose proof H4 as [[Hd4 Hh4] [Hp4 Hu4] Hpl4]. rewrite Hh4, Hd4. cbn [negb].
  rewrite !u32_small by lia. destruct (rb_erase (bdev s4) h a n Hu4) as [Hu5 Hc5]; [lia..|]. eexists. split; [reflexivity|]. split; [by split|]. split.
  - eapply static_trans; [exact K1|]. eapply static_trans; [exact K2|]. eapply static_trans; [exact K3|]. exact K4.
  - intros q x Hx. unfold disk at 1. cbn [bdev set_bdev bmmc set_dev dev]. rewrite Hc5 by done. change (disk s4 q x = disk s q x). rewrite C4. unfold disk, bdev. now rewrite B3, B2, B1.
Qed.

Lemma blocks_written s h a n data : opened h s -> 0 <= a -> 0 <= n -> Z.of_nat (length data) = n * dev_blksz ops -> is_bytes data -> exists d,
  dwrite ops (bdev s) DEV_EMMC a n data = (d, n) /\ opened h (set_bdev d s) /\ static s (set_bdev d s) /\
  forall q x, disk (set_bdev d s) q x = if q =? h then upd (disk s h) (a * dev_blksz ops) data x else disk s q x.
Proof.
  intros [Hd [Hp Hu] Hpl] Ha Hn Hl Hb. destruct (rb_write (bdev s) h a n data Hu Ha Hn Hl Hb) as (d & E & Hu2 & Hc). exists d.
  split; [done|]. split; [by split|]. split; [by split_and!|exact Hc].
Qed.

Lemma read_blocks_ok s h a n : opened h s -> 0 <= a -> 0 <= n -> exists d,
  dread ops (bdev s) DEV_EMMC a n = (d, n, rng (disk s h) (a * dev_blksz ops) (Z.to_nat (n * dev_blksz ops))) /\ opened h (set_bdev d s) /\ static s (set_bdev d s) /\
  forall q x, disk (set_bdev d s) q x = disk s q x.
Proof.
  intros [Hd [Hp Hu] Hpl] Ha Hn. destruct (rb_read (bdev s) h a n Hu Ha Hn) as (d & E & Hu2 & Hc). exists d.
  split; [done|]. split; [by split|]. split; [by split_and!|exact Hc].
Qed.

(** The comparison succeeds, in a round per 1024 blocks. *)
Lemma verify_complete h fuel : forall s rstart rest buff woff rbuff, opened h s -> 0 <= rstart -> 0 <= rest < Z.of_nat fuel -> rstart + rest < 2 ^ 32 ->
  Z.of_nat (length rbuff) = VERIFY_BUF_LBA * dev_blksz ops -> Z.of_nat woff + rest * dev_blksz ops <= Z.of_nat (length buff) ->
  rng (disk s h) (rstart * dev_blksz ops) (Z.to_nat (rest * dev_blksz ops)) = take (Z.to_nat (rest * dev_blksz ops)) (drop woff buff) ->
  exists s', verify_loop ops bo env_get simple_strtol rom_spi_boot fuel s h rstart rest buff woff rbuff = Some (s', 0) /\ opened h s' /\ static s s' /\
    forall q x, disk s' q x = disk s q x.
Proof.
  pose proof (blksz_facts (ops := ops) (m := DEV_EMMC)) as [Hbs _].
  induction fuel as [|fuel IH]; intros s rstart rest buff woff rbuff Ho Hs Hr Hb Hrb Hw Hc; [lia|]. cbn [verify_loop].
  set (r := if VERIFY_BUF_LBA <=? rest then VERIFY_BUF_LBA else rest). assert (Hr0 : 0 <= r <= rest /\ r <= 1024 /\ (r = rest \/ r = 1024)).
  { unfold r, VERIFY_BUF_LBA. destruct (Z.leb_spec 1024 rest); lia. }
  unfold emmc_read. destruct (opened_init h s Ho) as [-> ->]. cbn [negb Z.eqb]. rewrite (proj2 (op_dev h s Ho)), (proj1 (op_dev h s Ho)). cbn [negb].
  rewrite !u32_small by lia. destruct (read_blocks_ok s h rstart r Ho Hs (proj1 (proj1 Hr0))) as (d & -> & Ho1 & K1 & C1).
  set (n := Z.to_nat (r * dev_blksz ops)) in *. set (got := rng (disk s h) (rstart * dev_blksz ops) n).
  assert (Hgn : length got = n) by apply length_rng. assert (Hn : Z.of_nat n = r * dev_blksz ops) by (unfold n; nia). unfold VERIFY_BUF_LBA in Hrb.
  unfold store_at. rewrite (decide_True (P := (0 + length got <= length rbuff)%nat)) by nia. cbn [mbind option_bind]. rewrite !(u32_small r), Z.eqb_refl by lia. cbn [negb Z.eqb].
  rewrite (opened_blksize h _ Ho1). cbn [mbind option_bind]. rewrite (u32_small (r * dev_blksz ops)) by nia. fold n.
  unfold bytes_at. rewrite (decide_True (P := (0 + n <= length (splice rbuff 0 got))%nat)) by (rewrite length_splice; nia). cbn [mbind option_bind].
  rewrite (decide_True (P := (woff + n <= length buff)%nat)) by nia. cbn [mbind option_bind].
  assert (Hrd : take n (drop 0 (splice rbuff 0 got)) = got) by (unfold splice; rewrite drop_0, take_0; cbn [app]; rewrite <- Hgn; apply take_app_length). rewrite Hrd.
  assert (Ht : Z.to_nat (rest * dev_blksz ops) = (n + Z.to_nat ((rest - r) * dev_blksz ops))%nat) by nia. rewrite Ht, rng_app, <- take_take_drop in Hc.
  fold got in Hc. apply app_inj_1 in Hc as [Hc1 Hc2]; [|rewrite Hgn, length_take, length_drop; nia].
  rewrite (bool_decide_eq_true_2 _ Hc1). cbn [negb]. destruct (0 <? rest - r) eqn:E0; bool_simpl.
  - destruct (IH (set_bdev d s) (rstart + r) (rest - r) buff (woff + n)%nat (splice rbuff 0 got)) as (s' & E & Ho2 & K2 & C2); try lia; try done.
    + rewrite length_splice by nia. unfold VERIFY_BUF_LBA. lia.
    + rewrite <- drop_drop, <- Hc2. replace ((rstart + r) * dev_blksz ops) with (rstart * dev_blksz ops + Z.of_nat n) by lia. apply rng_ext. intros x _. apply C1.
    + exists s'. split; [exact E|]. split; [done|]. split; [by eapply static_trans|]. intros q x. by rewrite C2.
  - exists (set_bdev d s). by split_and!.
Qed.

Lemma alloc_length l n : (length l <= n)%nat -> length (alloc_with bo l n) = n.
Proof. intros H. unfold alloc_with. rewrite length_app, map_length, seq_length. lia. Qed.

Lemma alloc_bytes l n : is_bytes l -> is_bytes (alloc_with bo l n).
Proof. intros H. unfold alloc_with. apply list.Forall_app. split; [done|]. apply list.Forall_forall. intros x Hx. apply list_elem_of_In, in_map_iff in Hx as (i & <- & _). apply rb_heap. Qed.

(** Writing replaces the blocks, and the verification succeeds. *)
Lemma emmc_write_ok s h a n buff : attached s -> 0 <= h <= 2 -> 0 <= a -> 0 <= n -> a + n < 2 ^ 32 -> n * dev_blksz ops <= Z.of_nat (length buff) -> is_bytes buff -> exists s',
  emmc_write ops bo env_get simple_strtol rom_spi_boot s h a n buff true = Some (s', 0) /\ opened h s' /\ static s s' /\
  forall q x, disk s' q x = if q =? h then upd (disk s h) (a * dev_blksz ops) (take (Z.to_nat (n * dev_blksz ops)) buff) x else disk s q x.
Proof.
  pose proof (blksz_facts (ops := ops) (m := DEV_EMMC)) as [Hbs _]. intros H Hr Ha Hn Hb Hl Hby. unfold emmc_write.
  destruct (init_ok s H) as (s1 & E1 & H1 & Hd1 & Hh1 & K1 & B1 & P1). rewrite E1. cbn [negb Z.eqb].
  destruct (use_ok s1 h H1 Hd1 Hh1 Hr) as (s2 & E2 & H2 & K2 & C2). rewrite E2. cbn [negb]. rewrite (proj2 (op_dev h s2 H2)), (proj1 (op_dev h s2 H2)). cbn [negb].
  rewrite !u32_small by lia. set (k := Z.to_nat (n * dev_blksz ops)) in *. assert (Hk : Z.of_nat k = n * dev_blksz ops) by (unfold k; nia).
  unfold bytes_at. rewrite decide_True by lia. cbn [mbind option_bind]. rewrite drop_0.
  assert (Htl : length (take k buff) = k) by (rewrite length_take; lia).
  destruct (blocks_written s2 h a n (take k buff) H2 Ha Hn) as (d & -> & H3 & K3 & C3); [lia|by apply list.Forall_take|].
  rewrite u32_small, Z.eqb_refl by lia. cbn [negb]. rewrite (opened_blksize h _ H3). cbn [mbind option_bind].
  destruct (verify_complete h (S (Z.to_nat n)) (set_bdev d s2) a n buff 0 (alloc_with bo [] (Z.to_nat (u32 (VERIFY_BUF_LBA * dev_blksz ops))))) as (s' & E & H4 & K4 & C4); try done || lia.
  - rewrite alloc_length by (cbn; lia). unfold VERIFY_BUF_LBA. rewrite u32_small by lia. lia.
  - fold k. rewrite drop_0, <- (upd_same (disk s2 h) (a * dev_blksz ops) (take k buff)), Htl. apply rng_ext. intros x _. rewrite C3, Z.eqb_refl. done.
  - exists s'. split; [exact E|]. split; [done|]. split.
    + eapply static_trans; [exact K1|]. eapply static_trans; [exact K2|]. eapply static_trans; [exact K3|exact K4].
    + intros q x. rewrite C4, C3. assert (Hx : forall q x, disk s2 q x = disk s q x) by (intros r y; rewrite C2; unfold disk, bdev; now rewrite B1). destruct (q =? h); [|apply Hx].
      unfold upd. destruct (_ && _); [done|apply Hx].
Qed.

End Reliable.
