(* ===== verification/EmmcImages.v ===== *)
(** * Burning images (emmcburn.c)

    On a device that keeps its promises: the partition table is read from the
    device, a partition is found by its number, an image is written into it, and a
    list of images is burnt without touching anything else. *)

From S2P Require Import Prelude Disk UbootMmc EmmcText EmmcBurn EmmcLists EmmcWrite.

(** The entries in use among [n] from offset [off]. *)
Fixpoint used_entries (n : nat) (tmp : bytes) (off : nat) : list bytes :=
  match n with
  | O => []
  | S n => (if is_unused (take 16 (drop off tmp)) then [] else [take 128 (drop off tmp)]) ++ used_entries n tmp (off + 128)
  end.

Lemma entry_loop_ok p tmp n : forall off l, (off + 128 * n <= length tmp)%nat ->
  entry_loop n p tmp off l = Some (l ++ map (mk_gpt_ent p) (used_entries n tmp off)).
Proof.
  induction n as [|n IH]; intros off l H; cbn [entry_loop used_entries]; [cbn; now rewrite app_nil_r|].
  unfold bytes_at. rewrite !decide_True by lia. cbn [mbind option_bind]. destruct (is_unused _); rewrite IH by lia; [done|].
  cbn [app map]. now rewrite <- app_assoc.
Qed.

Section Images.
Context {D : Type} {ops : blk D} {bo : burner D} `{!ReliableBlk ops DEV_EMMC} `{!ReliableBurner ops bo}.
Context (env_get : bytes -> option bytes) (simple_strtol : bytes -> Z) (rom_spi_boot : bool) (malloc_table : option (list emmc_part)).
Context (write_sparse_image : (burn D -> Z -> Z -> bytes -> option (burn D * Z)) -> pt_info -> bytes -> burn D -> option (burn D * Z)).
Hypothesis Hactive : active_dev env_get simple_strtol rom_spi_boot = DEV_EMMC.
Implicit Types (s : burn D).

Notation bs := (dev_blksz ops).

(** ** The partition table *)

Definition gpt_image (f : Z -> Z) : bytes := rng f 0 (Z.to_nat (GPT_LBA_NUM * bs)).
Definition gpt_num (f : Z -> Z) : Z := field (gpt_image f) (Z.to_nat bs + 80) 4.

(** The first blocks hold a partition table with entries [l], behind the header. *)
Record has_gpt (f : Z -> Z) (l : list bytes) : Prop := mk_has_gpt {
  hg_valid : valid_gpt_buf bo (gpt_image f) = true;
  hg_lba : field (gpt_image f) (Z.to_nat bs + 72) 8 = 2;
  hg_num : gpt_num f <= MAX_GPT_PT_NUM /\ gpt_num f * 128 <= 32 * bs;
  hg_entries : used_entries (Z.to_nat (gpt_num f)) (gpt_image f) (Z.to_nat (2 * bs)) = l;
}.

Lemma gpt_image_ext f g : (forall x, f x = g x) -> gpt_image f = gpt_image g.
Proof. intros H. apply rng_ext. intros x _. apply H. Qed.

Lemma has_gpt_ext f g l : (forall x, f x = g x) -> has_gpt f l -> has_gpt g l.
Proof. intros H [H1 H2 H3 H4]. unfold gpt_num in *. rewrite (gpt_image_ext _ _ H) in *. by split. Qed.

(** What is read is added to the entries that are already there. *)
Lemma read_part_ok s l : attached s -> curr_device s = DEV_EMMC -> has_mmc s = true -> has_gpt (disk s 0) l -> exists s' new,
  read_part_gpt_partition_info ops bo env_get simple_strtol rom_spi_boot s 0 = Some (s', 0) /\ opened 0 s' /\ (forall q x, disk s' q x = disk s q x) /\
  is_gpt_ready s' = is_gpt_ready s /\ last_start_lba s' = last_start_lba s /\ last_part s' = last_part s /\
  g_gpt_e s' = g_gpt_e s ++ map (mk_gpt_ent 0) new /\ (g_gpt_e s = [] -> new = l).
Proof.
  pose proof (blksz_facts (ops := ops) (m := DEV_EMMC)) as [Hbs _]. intros H Hd Hh Hg. unfold read_part_gpt_partition_info.
  destruct (use_ok s 0 H Hd Hh) as (s1 & -> & H1 & K1 & C1); [lia|]. cbn [negb]. rewrite (opened_blksize (bo := bo) env_get simple_strtol rom_spi_boot 0 s1 H1). cbn [mbind option_bind].
  rewrite (proj2 (op_dev 0 s1 H1)), (proj1 (op_dev 0 s1 H1)). cbn [negb]. destruct (read_blocks_ok s1 0 0 GPT_LBA_NUM H1) as (d & -> & H2 & K2 & C2); [done..|].
  rewrite Z.mul_0_l. change (rng (disk s1 0) 0 (Z.to_nat (GPT_LBA_NUM * bs))) with (gpt_image (disk s1 0)). rewrite (gpt_image_ext _ _ (C1 0)).
  set (tmp := gpt_image (disk s 0)). assert (Hl : length tmp = Z.to_nat (34 * bs)) by apply length_rng. unfold GPT_LBA_NUM. rewrite u32_small by lia.
  unfold store_at. rewrite decide_True by (rewrite length_replicate; lia). cbn [mbind option_bind]. change (i32 34 =? 34) with true. cbn [negb].
  assert (Es : splice (replicate (Z.to_nat (34 * bs)) 0) 0 tmp = tmp).
  { unfold splice. cbn [take app plus]. rewrite drop_ge by (rewrite length_replicate; lia). apply app_nil_r. }
  rewrite Es. destruct Hg as [Hv Hlba [Hn1 Hn2] He]. fold tmp in Hv, Hlba, He. rewrite Hv. cbn [negb]. rewrite Hlba, (u64_id (2 * bs)) by lia.
  unfold parse_gpt_table. change (field tmp (Z.to_nat bs + 80) 4) with (gpt_num (disk s 0)). cbn [g_gpt_e set_bdev].
  set (room := MAX_GPT_PT_NUM - Z.of_nat (length (g_gpt_e s1))). set (n := if gpt_num (disk s 0) <? room then gpt_num (disk s 0) else room).
  assert (Hn : n <= gpt_num (disk s 0)) by (unfold n; destruct (Z.ltb_spec (gpt_num (disk s 0)) room); lia).
  rewrite entry_loop_ok by (rewrite Hl; lia). cbn [mbind option_bind]. pose proof K1 as (E0 & E1 & E2 & E3).
  eexists _, (used_entries (Z.to_nat n) tmp (Z.to_nat (2 * bs))). split; [reflexivity|]. split; [destruct H2; by split|]. split; [intros q x; rewrite <- C1; apply C2|].
  cbn. rewrite E1. split_and!; [done|done|done|done|]. intros E4. rewrite <- He. f_equal. f_equal. unfold n, room. rewrite E1, E4. unfold MAX_GPT_PT_NUM in *.
  cbn [length]. destruct (Z.ltb_spec (gpt_num (disk s 0)) (128 - Z.of_nat 0)); lia.
Qed.

Lemma type_ok s : opened 0 s -> exists x, get_mmc_partition_type ops malloc_table (bmmc s) DEV_EMMC = Some (x, 0) /\ opened 0 (set_bmmc x s) /\
  forall q y, disk (set_bmmc x s) q y = disk s q y.
Proof.
  intros [Hd [Hp Hu] Hpl]. unfold get_mmc_partition_type. change (DEV_EMMC =? DEV_EMMC) with true. cbv iota.
  destruct Hpl as [Ht|Ht]; rewrite Ht; cbn [Z.leb Z.compare DEFAULT_PARTITION].
  - rewrite b_present. unfold select_hwpart. destruct (rb_gpp (bdev s) Hu) as [Hu2 Hs]. fold (bdev s). destruct (b_no_gpp (bdev s)) as (d' & r & E & Hr & _).
    rewrite E in *. rewrite (proj2 (Z.eqb_neq _ _) Hr). eexists. split; [reflexivity|]. split; [|exact Hs]. split; [done|by split|by right].
  - exists (bmmc s). split; [done|]. split; [|done]. split; [done|by split|by right].
Qed.

(** The table has been read: its entries are [l]. *)
Record ready (l : list bytes) s : Prop := mk_ready {
  rd_attached : attached s;
  rd_ready : is_gpt_ready s = true;
  rd_entries : g_gpt_e s = map (mk_gpt_ent 0) l;
}.

(** The table is read, unless it has been; entries that were read before stay. *)
Lemma read_all_ok s l : attached s -> is_gpt_ready s = false -> has_gpt (disk s 0) l -> exists s' new,
  read_all_gpt_partition_info ops bo env_get simple_strtol rom_spi_boot malloc_table s = Some (s', 0) /\ opened 0 s' /\ (forall q x, disk s' q x = disk s q x) /\
  is_gpt_ready s' = true /\ last_start_lba s' = last_start_lba s /\ last_part s' = last_part s /\
  g_gpt_e s' = g_gpt_e s ++ map (mk_gpt_ent 0) new /\ (g_gpt_e s = [] -> new = l).
Proof.
  intros H Hr Hg. unfold read_all_gpt_partition_info. rewrite Hr. destruct (init_ok env_get simple_strtol rom_spi_boot Hactive s H) as (s1 & -> & H1 & Hd1 & Hh1 & K1 & B1 & P1).
  cbn [negb Z.eqb]. assert (D1 : forall q x, disk s q x = disk s1 q x) by (intros; unfold disk, bdev; now rewrite B1).
  destruct (read_part_ok s1 l H1 Hd1 Hh1 (has_gpt_ext _ _ _ (D1 0) Hg)) as (s2 & new & -> & H2 & D2 & R2 & L2 & Q2 & G2 & N2). cbn [mbind option_bind].
  rewrite Hactive. destruct (type_ok s2 H2) as (x & -> & H3 & D3). cbn [mbind option_bind negb Z.eqb]. destruct K1 as (K1 & K2 & K3 & K4).
  eexists _, new. split; [reflexivity|]. split; [destruct H3; by split|]. split; [intros q y; rewrite D1, <- D2; apply D3|]. cbn. rewrite L2, Q2, G2, K2, K3, K4. split_and!; try done.
  now rewrite <- K2.
Qed.

(** The table is read when it is needed, from scratch. *)
Record fresh (l : list bytes) s : Prop := mk_fresh {
  fr_attached : attached s;
  fr_ready : is_gpt_ready s = false;
  fr_entries : g_gpt_e s = [];
  fr_gpt : has_gpt (disk s 0) l;
}.

Definition usable (l : list bytes) s : Prop := ready l s \/ fresh l s.

Lemma read_usable s l : usable l s -> exists s',
  read_all_gpt_partition_info ops bo env_get simple_strtol rom_spi_boot malloc_table s = Some (s', 0) /\ ready l s' /\ (has_mmc s = true -> has_mmc s' = true) /\ (forall q x, disk s' q x = disk s q x).
Proof.
  intros [[Ha Hr He]|[Ha Hr He Hg]].
  - exists s. unfold read_all_gpt_partition_info. rewrite Hr. by split_and!.
  - destruct (read_all_ok s l Ha Hr Hg) as (s' & new & E & H1 & D1 & R1 & L1 & Q1 & G1 & N1). exists s'. split; [done|].
    split; [split; [by eapply opened_attached|done|rewrite G1, He, N1 by done; done]|]. split; [intros _; apply H1|done].
Qed.

(** ** Partitions by number *)

Lemma part_num_ok l : forall i j k, (k < length l)%nat -> part_num_loop (map (mk_gpt_ent 0) l) i j 0 (j + Z.of_nat k + 1) = i + Z.of_nat k.
Proof.
  induction l as [|g l IH]; intros i j k Hk; [cbn in Hk; lia|]. cbn [map part_num_loop ge_part]. change (0 =? 0) with true. cbv iota.
  destruct k as [|k]; [rewrite (proj2 (Z.eqb_eq _ _)) by lia; lia|]. rewrite (proj2 (Z.eqb_neq _ _)) by lia. cbn [length] in Hk.
  replace (j + Z.of_nat (S k) + 1) with (j + 1 + Z.of_nat k + 1) by lia. rewrite IH; lia.
Qed.

(** Entry [K] of the table, counted from 1, as its partition. *)
Record entry_is (g : bytes) (st cnt : Z) : Prop := mk_entry_is {
  ei_start : starting_lba g = st;
  ei_end : ending_lba g = st + cnt - 1;
  ei_name : is_Some (gpt_convert_efi_name_to_char (partition_name g) (PARTNAME_SZ + 1));
  ei_bounds : 0 <= st /\ 0 <= cnt /\ st + cnt < 2 ^ 31;
}.

Lemma gpt_info_ok s l k g st cnt : g_gpt_e s = map (mk_gpt_ent 0) l -> l !! k = Some g -> entry_is g st cnt -> Z.of_nat k < 2 ^ 31 ->
  exists name, gpt_info s 0 (Z.of_nat k + 1) = Some (s, Some (mk_pt_info 0 st cnt name)).
Proof.
  intros He Hk [E1 E2 [name En] Hb] Hk2. exists name. unfold gpt_info, get_partition_num. rewrite He. pose proof (lookup_lt_Some _ _ _ Hk).
  pose proof (part_num_ok l 0 0 k) as En2. rewrite !Z.add_0_l in En2. rewrite En2, u32_small, Nat2Z.id by (done || lia). rewrite list_lookup_fmap, Hk. cbn [fmap option_fmap option_map mbind option_bind ge_gpt].
  rewrite En. cbn [mbind option_bind]. rewrite E1, E2, u64_id by lia. do 4 f_equal. lia.
Qed.

(** The name of a partition: a boot partition, or the entry [k] of the table, counted
    from 0. *)
Inductive place := Boot (h : Z) | Sd (k : nat).

Definition place_name (w : place) : bytes :=
  match w with Boot h => [98; CH_0 + h] | Sd k => sd_name (Z.of_nat k + 1) end.

Definition place_hw (w : place) : Z := match w with Boot h => h | Sd _ => 0 end.

(** Where the place is. *)
Definition place_is (l : list bytes) (w : place) (st cnt : Z) : Prop :=
  match w with
  | Boot h => (h = 1 \/ h = 2) /\ st = 0 /\ cnt = capacity_boot bo / bs /\ 0 <= cnt < 2 ^ 31
  | Sd k => Z.of_nat k < MAX_GPT_PT_NUM /\ exists g, l !! k = Some g /\ entry_is g st cnt
  end.

Lemma place_bounds l w st cnt : place_is l w st cnt -> 0 <= place_hw w <= 2 /\ 0 <= st /\ 0 <= cnt /\ st + cnt < 2 ^ 31.
Proof. destruct w; cbn; [intros ([-> | ->] & -> & _ & ?); lia|]. intros (_ & g & _ & [_ _ _ ?]). lia. Qed.

(** The array of the name. *)
Definition name_array (w : place) (pt : bytes) : Prop := exists pad, pt = place_name w ++ 0 :: pad.

Lemma info_ok s l w st cnt pt : usable l s -> name_array w pt -> place_is l w st cnt -> exists s' name,
  get_partition_info ops bo env_get simple_strtol rom_spi_boot malloc_table s pt = Some (s', Some (mk_pt_info (place_hw w) st cnt name)) /\ ready l s' /\ (has_mmc s = true -> has_mmc s' = true) /\
  (forall q x, disk s' q x = disk s q x).
Proof.
  intros Hu [pad ->] Hw. unfold get_partition_info. destruct (read_usable s l Hu) as (s' & -> & Hr & Hm & Hd). cbn [mbind option_bind negb Z.eqb]. destruct w as [h|k].
  - destruct Hw as (Hh & -> & -> & _). cbn [place_name app lookup list_lookup mbind option_bind Z.eqb Pos.eqb].
    replace (u32 (CH_0 + h - CH_0)) with h by (destruct Hh as [-> | ->]; done). replace (negb (h =? EMMC_PART_BOOT1) && negb (h =? EMMC_PART_BOOT2)) with false by (destruct Hh as [-> | ->]; done).
    destruct (blksize_ok env_get simple_strtol rom_spi_boot Hactive s' (rd_attached _ _ Hr)) as (s2 & -> & H2 & _ & Hh2 & K2 & B2 & _). cbn [mbind option_bind]. rewrite Hh2.
    eexists s2, _. split; [reflexivity|]. destruct Hr as [_ R1 R2], K2 as (K1 & K2 & _). split; [split; [done|congruence|congruence]|]. split; [done|].
    intros q x. rewrite <- Hd. unfold disk, bdev. now rewrite B2.
  - destruct Hw as (Hk2 & g & Hk & He). unfold MAX_GPT_PT_NUM in Hk2. cbn [place_name]. unfold sd_name. cbn [app lookup list_lookup mbind option_bind Z.eqb Pos.eqb andb].
    destruct (print_dec_ok 20 (Z.of_nat k + 1) ltac:(lia)) as [Hds Hv].
    assert (Hs : str_at (115 :: 100 :: print_dec 20 (Z.of_nat k + 1) ++ 0 :: pad) 2 = Some (print_dec 20 (Z.of_nat k + 1))).
    { apply (str_at_ok [115; 100]). eapply list.Forall_impl; [exact Hds|]. unfold is_digit. cbn. lia. }
    rewrite Hs. cbn [mbind option_bind]. rewrite strtoull_ok, Hv, u32_small by (done || lia).
    destruct (gpt_info_ok s' l k g st cnt (rd_entries _ _ Hr) Hk He ltac:(lia)) as (name & ->). by exists s', name.
Qed.

(** ** One image *)

(** A flat image that the partition and the memory have room for, to whole blocks. *)
Record image_ok (file : bytes) (cnt : Z) : Prop := mk_image_ok {
  im_bytes : is_bytes file;
  im_flat pad : is_sparse_image bo (file ++ pad) = false;
  im_size : Z.of_nat (length file) < 2 ^ 31;
  im_room : blocks (ops := ops) (Z.of_nat (length file)) <= cnt;
  im_malloc : blocks (ops := ops) (Z.of_nat (length file)) * bs <= get_max_malloc_size bo;
}.

Lemma static_ready l s s' : ready l s -> attached s' -> static s s' -> ready l s'.
Proof. intros [Ha Hr He] Ha' (E1 & E2 & _). split; [done|congruence|congruence]. Qed.

(** The partition is erased for its first image only. *)
Lemma erase_once l s h st cnt name : ready l s -> 0 <= h <= 2 -> 0 <= st -> 0 <= cnt -> st + cnt < 2 ^ 31 -> exists s',
  (if negb (st =? u64 (last_start_lba s)) || negb (h =? u64 (last_part s))
   then '(s, ret) ← emmc_erase ops bo env_get simple_strtol rom_spi_boot s (i32 (pi_part (mk_pt_info h st cnt name))) st cnt;
        Some (if negb (ret =? 0) then s else set_last (i32 st) (i32 (pi_part (mk_pt_info h st cnt name))) s, ret)
   else Some (s, 0)) = Some (s', 0) /\ ready l s' /\ forall q x, q <> h \/ x < st * bs \/ (st + cnt) * bs <= x -> disk s' q x = disk s q x.
Proof.
  intros Hr Hh Hst Hcnt Hb. destruct (_ || _); [|by exists s]. cbn [pi_part]. rewrite (i32_id h) by (unfold is_i32; lia).
  destruct (erase_ok env_get simple_strtol rom_spi_boot Hactive s h st cnt (rd_attached _ _ Hr) Hh) as (s' & -> & Ho & K & Hd); [lia..|]. cbn [mbind option_bind negb Z.eqb].
  eexists. split; [reflexivity|]. split; [|exact Hd]. destruct K as (K1 & K2 & _). destruct Hr as [_ Hr1 Hr2].
  split; [destruct (opened_attached _ _ Ho); by split| |]; cbn; congruence.
Qed.

Lemma burn_ok s l w st cnt pt src path img file : usable l s -> name_array w pt -> place_is l w st cnt ->
  imgload bo src (path ++ img) = Some file -> image_ok file cnt -> exists s',
  dl_and_burn_img ops bo env_get simple_strtol rom_spi_boot malloc_table write_sparse_image s src path img pt = Some (s', 0) /\ ready l s' /\ has_mmc s' = true /\
  rng (disk s' (place_hw w)) (st * bs) (length file) = file /\ (forall q x, q <> place_hw w \/ x < st * bs \/ (st + cnt) * bs <= x -> disk s' q x = disk s q x).
Proof.
  pose proof (blksz_facts (ops := ops) (m := DEV_EMMC)) as [Hbs _]. intros Hu Hpt Hw Hf [Hby Hfl Hsz Hrm Hma]. unfold dl_and_burn_img.
  destruct (info_ok s l w st cnt pt Hu Hpt Hw) as (s1 & name & -> & Hr1 & _ & D1). cbn [mbind option_bind].
  destruct (blksize_ok env_get simple_strtol rom_spi_boot Hactive s1 (rd_attached _ _ Hr1)) as (s2 & -> & H2 & _ & _ & K2 & B2 & _). cbn [mbind option_bind].
  assert (Hr2 : ready l s2) by by eapply static_ready. rewrite Hf. cbn [pi_cnt pi_start_lba pi_part]. destruct (place_bounds _ _ _ _ Hw) as (Hh & B3 & B4 & B5). set (h := place_hw w) in *.
  set (max := Z.to_nat (Z.min (get_max_malloc_size bo) (u64 (cnt * bs)))). pose proof (blocks_bound (ops := ops) (m := DEV_EMMC) (Z.of_nat (length file)) ltac:(lia)) as [Hn0 Hn].
  assert (Hmax : blocks (ops := ops) (Z.of_nat (length file)) * bs <= Z.of_nat max) by (unfold max; rewrite u64_id by nia; nia).
  rewrite decide_False by lia. destruct (erase_once l s2 h st cnt name Hr2 Hh B3 B4 B5) as (s3 & E3 & Hr3 & D3). cbn [pi_part] in E3. rewrite E3. cbn [mbind option_bind negb Z.eqb].
  unfold burn_images. unfold alloc_with at 1. rewrite Hfl. fold (alloc_with bo file max).
  destruct (blksize_ok env_get simple_strtol rom_spi_boot Hactive s3 (rd_attached _ _ Hr3)) as (s4 & -> & H4 & _ & _ & K4 & B4' & _). cbn [mbind option_bind].
  assert (Hr4 : ready l s4) by by eapply static_ready. rewrite (u32_small (Z.of_nat (length file))) by lia. rewrite (u32_small (_ + bs - 1)) by lia.
  replace ((Z.of_nat (length file) + bs - 1) / bs) with (blocks (ops := ops) (Z.of_nat (length file))) by (unfold blocks; f_equal; lia).
  set (n := blocks (ops := ops) (Z.of_nat (length file))) in *. cbn [pi_part pi_start_lba]. rewrite (i32_id h) by (unfold is_i32; lia). rewrite (u32_small st) by lia.
  destruct (emmc_write_ok env_get simple_strtol rom_spi_boot Hactive s4 h st n (alloc_with bo file max) H4 Hh) as (s5 & -> & H5 & K5 & D5);
    [lia|lia|lia|rewrite alloc_length by lia; lia|by apply alloc_bytes|]. cbn [mbind option_bind negb Z.eqb].
  exists s5. split; [done|]. split; [by eapply static_ready, K5; [|eapply opened_attached]|]. split; [apply H5|]. set (v := take (Z.to_nat (n * bs)) (alloc_with bo file max)) in *.
  assert (Hv : length v = Z.to_nat (n * bs)) by (unfold v; rewrite length_take, alloc_length; lia). split.
  - rewrite (rng_ext _ (upd (disk s4 h) (st * bs) v) _ _ ltac:(intros x _; now rewrite D5, Z.eqb_refl)). pose proof (upd_same (disk s4 h) (st * bs) v) as Eu. rewrite Hv in Eu.
    pose proof (rng_sub (upd (disk s4 h) (st * bs) v) (st * bs) (Z.to_nat (n * bs)) 0 (length file) ltac:(lia)) as Es. rewrite Z.add_0_r, drop_0, Eu in Es.
    rewrite <- Es. unfold v. rewrite take_take, Nat.min_l by lia. unfold alloc_with. apply take_app_length.
  - intros q x Hx. rewrite D5. assert (E4 : forall q x, disk s4 q x = disk s3 q x) by (intros; unfold disk, bdev; now rewrite B4').
    assert (E2 : forall q x, disk s2 q x = disk s q x) by (intros; rewrite <- D1; unfold disk, bdev; now rewrite B2). rewrite <- E2, <- (D3 q x Hx), <- E4.
    destruct (Z.eqb_spec q h) as [->|]; [|done]. rewrite upd_out; [done|]. rewrite Hv. nia.
Qed.

(** ** Erasing and formatting *)

Lemma wipe_ok s l w st cnt pt : usable l s -> name_array w pt -> place_is l w st cnt -> exists s',
  erase_partition_by_name ops bo env_get simple_strtol rom_spi_boot malloc_table s pt = Some (s', 0) /\ ready l s' /\ has_mmc s' = true /\
  (forall q x, q <> place_hw w \/ x < st * bs \/ (st + cnt) * bs <= x -> disk s' q x = disk s q x).
Proof.
  intros Hu Hpt Hw. unfold erase_partition_by_name. destruct (info_ok s l w st cnt pt Hu Hpt Hw) as (s1 & name & -> & Hr1 & _ & D1). cbn [mbind option_bind pi_part pi_start_lba pi_cnt].
  destruct (place_bounds _ _ _ _ Hw) as (Hh & B1 & B2 & B3). rewrite (i32_id (place_hw w)) by (unfold is_i32; lia).
  destruct (erase_ok env_get simple_strtol rom_spi_boot Hactive s1 (place_hw w) st cnt (rd_attached _ _ Hr1) Hh) as (s2 & -> & Ho & K & D2); [lia..|].
  exists s2. split; [done|]. split; [by eapply static_ready, K; [|eapply opened_attached]|]. split; [apply Ho|]. intros q x Hx. rewrite D2 by done. apply D1.
Qed.

Lemma format_ok s l w st cnt pt : usable l s -> name_array w pt -> place_is l w st cnt -> exists s',
  format_partition_by_name ops bo env_get simple_strtol rom_spi_boot malloc_table s pt = Some (s', 0) /\ ready l s' /\ has_mmc s' = true /\
  (forall q x, q <> place_hw w \/ x < st * bs \/ (st + cnt) * bs <= x -> disk s' q x = disk s q x).
Proof.
  intros Hu Hpt Hw. unfold format_partition_by_name. destruct (info_ok s l w st cnt pt Hu Hpt Hw) as (s1 & name & -> & Hr1 & _ & D1). cbn [mbind option_bind pi_part pi_start_lba pi_cnt].
  destruct (place_bounds _ _ _ _ Hw) as (Hh & B1 & B2 & B3). rewrite (i32_id (place_hw w)) by (unfold is_i32; lia).
  destruct (erase_ok env_get simple_strtol rom_spi_boot Hactive s1 (place_hw w) st cnt (rd_attached _ _ Hr1) Hh) as (s2 & -> & Ho & K & D2); [lia..|]. cbn [mbind option_bind negb Z.eqb].
  pose proof (op_dev _ _ Ho) as [Hd2 Hm2]. rewrite Hd2. destruct (rb_format (bdev s2) (place_hw w) st cnt (proj2 (op_part _ _ Ho)) B1 B2) as (d & -> & Hs & D3).
  assert (Hr2 : ready l s2) by (by eapply static_ready, K; [|eapply opened_attached]). eexists. split; [reflexivity|].
  split; [|split; [exact Hm2|intros q x Hx; unfold disk at 1; cbn; rewrite D3 by done; rewrite <- D1; by apply D2]].
  destruct Hr2 as [_ R1 R2], Ho as [Ho1 [Ho2 Ho3] Ho4]. split; [split; [by right|intros _; cbn; by rewrite Ho2|done]|done|done].
Qed.

(** ** Lists of images *)

Inductive job := Burn (file : bytes) | Erase | Format.

(** A line of the list: its first field, the partition, where that lies, and what is
    done with it. *)
Record task := mk_task { t_img : bytes; t_part : place; t_start : Z; t_cnt : Z; t_job : job }.

Definition task_entry (t : task) : entry := mk_entry (t_img t) (place_name (t_part t)).

Record task_ok (l : list bytes) (src path : bytes) (t : task) : Prop := mk_task_ok {
  to_name : field_ok (t_img t) /\ (length (t_img t) < 32)%nat;
  to_part : place_is l (t_part t) (t_start t) (t_cnt t);
  to_job : match t_job t with
           | Burn file => t_img t <> str_erase /\ t_img t <> str_format /\ imgload bo src (path ++ t_img t) = Some file /\ image_ok file (t_cnt t)
           | Erase => t_img t = str_erase
           | Format => t_img t = str_format
           end;
}.

Definition disjoint (t u : task) : Prop := place_hw (t_part t) <> place_hw (t_part u) \/ t_start t + t_cnt t <= t_start u \/ t_start u + t_cnt u <= t_start t.

(** Whether the list of ignored partitions, if there is one, has the partition. *)
Definition ignored (ig : option bytes) (t : task) : option bool :=
  match ig with None => Some false | Some m => find_str_in_list m (place_name (t_part t)) CH_COMMA end.

Definition outside (t : task) (q x : Z) : Prop := q <> place_hw (t_part t) \/ x < t_start t * bs \/ (t_start t + t_cnt t) * bs <= x.

(** The image is at the beginning of its partition. *)
Definition burnt (f : Z -> Z -> Z) (t : task) : Prop :=
  match t_job t with Burn file => rng (f (place_hw (t_part t))) (t_start t * bs) (length file) = file | _ => True end.

Lemma print_dec_short d : forall fuel n, 0 <= n < 10 ^ Z.of_nat d -> (d < fuel)%nat -> (length (print_dec fuel n) <= S (d - 1))%nat.
Proof.
  induction d as [|d IH]; intros fuel n Hn Hf; (destruct fuel as [|fuel]; [lia|]); cbn [print_dec].
  - rewrite (proj2 (Z.ltb_lt _ _)) by lia. done.
  - destruct (n <? 10) eqn:E; bool_simpl; rewrite length_app; cbn [length]; [lia|]. rewrite Nat2Z.inj_succ, Z.pow_succ_r in Hn by lia. specialize (IH fuel (n / 10)).
    destruct d as [|d]; [cbn in Hn; lia|]. assert (0 <= n / 10 < 10 ^ Z.of_nat (S d)) by (split; [apply Z.div_pos; lia|apply Z.div_lt_upper_bound; lia]). specialize (IH H ltac:(lia)). lia.
Qed.

Lemma sd_name_ok k : Z.of_nat k < MAX_GPT_PT_NUM -> field_ok (sd_name (Z.of_nat k + 1)) /\ (length (sd_name (Z.of_nat k + 1)) < 8)%nat.
Proof.
  unfold MAX_GPT_PT_NUM. intros Hk. destruct (print_dec_ok 20 (Z.of_nat k + 1) ltac:(lia)) as [Hds _]. split.
  - unfold sd_name. split; [| | |done]; apply list.Forall_app; (split; [by repeat constructor|]); (eapply list.Forall_impl; [exact Hds|]); unfold is_digit, CH_COMMA, CH_NL; cbn; lia.
  - unfold sd_name. rewrite length_app. cbn [length]. pose proof (print_dec_short 3 20 (Z.of_nat k + 1) ltac:(lia) ltac:(lia)). lia.
Qed.

Lemma place_name_ok l w st cnt : place_is l w st cnt -> field_ok (place_name w) /\ (length (place_name w) < 8)%nat.
Proof.
  destruct w as [h|k]; cbn [place_is place_name].
  - intros (Hh & _). split; [|cbn; lia]. assert (Hc : CH_0 + h = 49 \/ CH_0 + h = 50) by (unfold CH_0; lia). split; [..|done]; (constructor; [done|constructor; [|constructor]]); unfold CH_COMMA, CH_NL; lia.
  - intros [Hk _]. by apply sd_name_ok.
Qed.

Lemma task_op l src path t : task_ok l src path t -> entry_ok (task_entry t) /\
  op_of (task_entry t) = mk_pt_op (match t_job t with Burn _ => BURN_IMAGE | Erase => ERASE_PT | Format => FORMAT_PT end)
    (place_name (t_part t) ++ 0 :: replicate (7 - length (place_name (t_part t))) 0) (match t_job t with Burn _ => t_img t | _ => [] end).
Proof.
  intros [[H1 H2] Hp Hj]. destruct (place_name_ok _ _ _ _ Hp). split; [done|]. unfold op_of, task_entry. cbn [what target]. destruct (t_job t).
  - destruct Hj as (H3 & H4 & _). now rewrite !decide_False by done.
  - now rewrite decide_True by done.
  - rewrite Hj. now rewrite decide_False, decide_True by done.
Qed.

Lemma image_room file cnt : image_ok file cnt -> Z.of_nat (length file) <= cnt * bs.
Proof.
  intros [_ _ _ H _]. pose proof (blksz_facts (ops := ops) (m := DEV_EMMC)) as [Hbs _].
  pose proof (blocks_bound (ops := ops) (m := DEV_EMMC) (Z.of_nat (length file)) ltac:(lia)). nia.
Qed.

Lemma burnt_ext l src path f g t : task_ok l src path t -> (forall q x, ~ outside t q x -> f q x = g q x) -> burnt g t -> burnt f t.
Proof.
  intros [_ _ Hj] He Hg. unfold burnt, outside in *. destruct (t_job t) as [file| |]; [|done..]. destruct Hj as (_ & _ & _ & Hi). pose proof (image_room _ _ Hi).
  rewrite <- Hg at 2. apply rng_ext. intros x Hx. apply He. lia.
Qed.

(** What one line does. *)
Lemma run_task l src path s t : usable l s -> task_ok l src path t -> exists s',
  run_op ops bo env_get simple_strtol rom_spi_boot malloc_table write_sparse_image s src path (op_of (task_entry t)) = Some (s', 0) /\ ready l s' /\ has_mmc s' = true /\
  burnt (disk s') t /\ forall q x, outside t q x -> disk s' q x = disk s q x.
Proof.
  intros Hu Ht. destruct (task_op _ _ _ _ Ht) as [_ ->]. destruct Ht as [_ Hp Hj]. unfold run_op. cbn [pt_name op imgname].
  assert (Hpt : name_array (t_part t) (place_name (t_part t) ++ 0 :: replicate (7 - length (place_name (t_part t))) 0)) by by eexists.
  destruct (info_ok s l _ _ _ _ Hu Hpt Hp) as (s1 & name & -> & Hr1 & _ & D1). cbn [mbind option_bind]. unfold burnt. destruct (t_job t) as [file| |].
  - destruct Hj as (_ & _ & Hf & Hi). destruct (burn_ok s1 l _ _ _ _ src path (t_img t) file (or_introl Hr1) Hpt Hp Hf Hi) as (s2 & -> & Hr2 & M2 & B2 & D2).
    exists s2. split; [done|]. split; [done|]. split; [done|]. split; [done|]. intros q x Hx. rewrite D2 by done. apply D1.
  - destruct (wipe_ok s1 l _ _ _ _ (or_introl Hr1) Hpt Hp) as (s2 & -> & Hr2 & M2 & D2). exists s2. split; [done|]. split; [done|]. split; [done|]. split; [done|].
    intros q x Hx. rewrite D2 by done. apply D1.
  - destruct (format_ok s1 l _ _ _ _ (or_introl Hr1) Hpt Hp) as (s2 & -> & Hr2 & M2 & D2). exists s2. split; [done|]. split; [done|]. split; [done|]. split; [done|].
    intros q x Hx. rewrite D2 by done. apply D1.
Qed.

Lemma run_tasks l src path ig (skip : task -> bool) ts : forall s, usable l s -> Forall (task_ok l src path) ts -> ForallOrdPairs disjoint ts ->
  Forall (fun t => ignored ig t = Some (skip t)) ts -> exists s',
  run_ops ops bo env_get simple_strtol rom_spi_boot malloc_table write_sparse_image s src path ig (map (fun t => op_of (task_entry t)) ts) = Some (s', 0) /\
  usable l s' /\ (has_mmc s = true -> has_mmc s' = true) /\ Forall (fun t => skip t = false -> burnt (disk s') t) ts /\
  forall q x, Forall (fun t => skip t = true \/ outside t q x) ts -> disk s' q x = disk s q x.
Proof.
  pose proof (blksz_facts (ops := ops) (m := DEV_EMMC)) as [Hbs _].
  induction ts as [|t ts IH]; intros s Hu Hts Hd Hsk; [exists s; by split_and!|]. apply Forall_cons_iff in Hts as [Ht Hts]. apply Forall_cons_iff in Hsk as [Hs Hsk].
  inversion Hd as [|? ? Hd1 Hd2]; subst. cbn [map run_ops].
  assert (Hig : match ig with None => Some false | Some m => t0 ← str_at (pt_name (op_of (task_entry t))) 0; find_str_in_list m t0 CH_COMMA end = Some (skip t)).
  { rewrite <- Hs. unfold ignored. destruct ig; [|done]. rewrite (proj2 (task_op _ _ _ _ Ht)). cbn [pt_name].
    destruct (place_name_ok _ _ _ _ (to_part _ _ _ _ Ht)) as [[Hnn _ _ _] _].
    pose proof (str_at_ok [] (place_name (t_part t)) (replicate (7 - length (place_name (t_part t))) 0) Hnn) as Es. cbn [app length] in Es. by rewrite Es. }
  rewrite Hig. cbn [mbind option_bind]. destruct (skip t) eqn:Esk.
  - destruct (IH s Hu Hts Hd2 Hsk) as (s' & E & U & M & B & F). exists s'. split; [exact E|]. split; [done|]. split; [done|]. split; [constructor; [by rewrite Esk|done]|].
    intros q x [_ Hx]%Forall_cons_iff. by apply F.
  - destruct (run_task l src path s t Hu Ht) as (s2 & -> & Hr2 & M2 & B2 & D2). cbn [mbind option_bind negb Z.eqb].
    destruct (IH s2 (or_introl Hr2) Hts Hd2 Hsk) as (s' & E & U & M & B & F). exists s'. split; [exact E|]. split; [done|]. split; [intros _; by apply M|]. split.
    + constructor; [intros _|done]. apply (burnt_ext l src path _ (disk s2)); [done| |done]. intros q x Hx. apply F. eapply list.Forall_impl; [exact Hd1|].
      intros u Hu2. right. unfold disjoint, outside in *. nia.
    + intros q x [Hx1 Hx]%Forall_cons_iff. rewrite F by done. destruct Hx1 as [Hx1|Hx1]; [congruence|]. by apply D2.
Qed.

Lemma start_usable l s : usable l s -> usable l (set_mmc (-1) (has_mmc s) (set_last (-1) (last_part s) s)).
Proof.
  intros [[[H1 H2 H3] R E]|[[H1 H2 H3] R E G]]; [left|right]; (split; [split; [by left|done|done]|done|done|..]). exact G.
Qed.

(** A list of images, with blanks anywhere, is burnt; everything outside of the
    partitions stays as it is, and so do the ignored partitions. *)
Lemma import_ok l s src img_list path nm text ts ig (skip : task -> bool) :
  usable l s -> get_image_path_and_name img_list = Some (path, nm) -> imgload bo src img_list = Some text -> (length text < LIST_SIZE)%nat -> no_nul text ->
  squeezed text = lines_of (map (fun t => entry_fields (task_entry t)) ts) -> Z.of_nat (length ts) <= MAX_GPT_PT_NUM ->
  Forall (task_ok l src path) ts -> ForallOrdPairs disjoint ts -> Forall (fun t => ignored ig t = Some (skip t)) ts -> exists s',
  img2sd_import ops bo env_get simple_strtol rom_spi_boot malloc_table write_sparse_image s src img_list ig = Some (s', 0) /\
  usable l s' /\ (has_mmc s = true -> has_mmc s' = true) /\ Forall (fun t => skip t = false -> burnt (disk s') t) ts /\
  forall q x, Forall (fun t => skip t = true \/ outside t q x) ts -> disk s' q x = disk s q x.
Proof.
  intros Hu Hp Ht Hl Hn Hq Hm Hts Hd Hi. unfold img2sd_import. rewrite Hp. cbn [mbind option_bind].
  rewrite (image_list_parsed bo src img_list text (map task_entry ts)); [|done..|now rewrite Hq, map_map| |now rewrite map_length].
  2: { apply List.Forall_map. eapply list.Forall_impl; [exact Hts|]. intros t Ht2. apply (task_op _ _ _ _ Ht2). }
  cbn [mbind option_bind]. rewrite map_map. unfold start_ops. destruct (run_tasks l src path ig skip ts _ (start_usable l s Hu) Hts Hd Hi) as (s' & E & U & M & B & F).
  exists s'. by split_and!.
Qed.

End Images.
