(* ===== verification/EmmcParts.v ===== *)
(** * Partitioning and the whole installation (emmcburn.c)

    A list of partitions becomes the partition table, and tftp2emmc and the like
    put the images of a list of images into the partitions of a list of
    partitions. *)

From S2P Require Import Prelude Disk UbootMmc EmmcText EmmcBurn EmmcLists EmmcWrite EmmcImages.

(** Partitions that gpt_restore() accepts on a device of [lba] blocks. *)
Record parts_ok (lba : Z) (parts : list disk_partition_t) : Prop := mk_parts_ok {
  pk_num : Z.of_nat (length parts) <= MAX_GPT_PT_NUM;
  pk_part : Forall (fun p => GPT_LBA_NUM <= start p /\ 1 <= size p /\ start p + size p <= lba - GPT_LBA_NUM /\ start p + size p < 2 ^ 31 /\
                             is_bytes (pname p) /\ no_nul (pname p) /\ (length (pname p) < PARTNAME_SZ)%nat) parts;
  pk_order : ForallOrdPairs (fun p q => start p + size p <= start q) parts;
}.

(** gpt_restore() makes the partition table, and the boot configuration leaves the
    contents alone. *)
Class PartitioningBurner {D : Type} (ops : blk D) (bo : burner D) `{!ReliableBlk ops DEV_EMMC} `{!ReliableBurner ops bo} := {
  rp_lba : Z;
  rp_restore d parts : hw_selected d 0 -> parts_ok rp_lba parts -> exists d' l, gpt_restore bo d DEV_EMMC parts = (d', 0) /\ hw_selected d' 0 /\
    has_gpt (ops := ops) (bo := bo) (hw_contents d' 0) l /\ Forall2 (fun g p => entry_is g (start p) (size p)) l parts;
  rp_conf d : exists d', mmc_set_part_conf bo d DEV_EMMC = (d', 0) /\ forall q x, hw_contents d' q x = hw_contents d q x;
  rp_bus d : exists d', mmc_set_boot_bus_width bo d DEV_EMMC = (d', 0) /\ forall q x, hw_contents d' q x = hw_contents d q x;
}.

Lemma not_hash m line key f rest : drop line m = f ++ rest -> f <> [] -> head f <> Some CH_HASH -> head key = Some CH_HASH -> starts_with m line key = false.
Proof.
  intros Hm Hf Hh Hk. unfold starts_with. rewrite Hm. apply bool_decide_eq_false_2. destruct f as [|c f]; [done|]. destruct key as [|c' key]; [done|]. cbn in *. congruence.
Qed.

(** Partitions of the list lie one behind the other. *)
Lemma layout_from ps : forall st, Forall spec_ok ps -> Forall (fun p => st * 2048 <= start p) (layout st ps).
Proof.
  induction ps as [|p ps IH]; intros st H; [constructor|]. apply Forall_cons_iff in H as [[_ _ [Hs _] _] H]. cbn [layout]. pose proof (dec_val_nonneg _ Hs).
  constructor; [cbn; lia|]. eapply list.Forall_impl; [by apply IH|]. cbn. lia.
Qed.

Lemma layout_order ps : forall st, Forall spec_ok ps -> ForallOrdPairs (fun p q => start p + size p <= start q) (layout st ps).
Proof.
  induction ps as [|p ps IH]; intros st H; [constructor|]. apply Forall_cons_iff in H as [Hp H]. cbn [layout]. constructor; [|by apply IH].
  eapply list.Forall_impl; [by apply layout_from|]. cbn. lia.
Qed.

Section Parts.
Context {D : Type} {ops : blk D} {bo : burner D} `{!ReliableBlk ops DEV_EMMC} `{!ReliableBurner ops bo} `{!PartitioningBurner ops bo}.
Context (env_get : bytes -> option bytes) (simple_strtol : bytes -> Z) (rom_spi_boot : bool) (malloc_table : option (list emmc_part)).
Context (write_sparse_image : (burn D -> Z -> Z -> bytes -> option (burn D * Z)) -> pt_info -> bytes -> burn D -> option (burn D * Z)).
Hypothesis Hactive : active_dev env_get simple_strtol rom_spi_boot = DEV_EMMC.
Implicit Types (s : burn D).

(** The text of a list of partitions, without its blanks. *)
Definition part_text (p : part_spec) (ps : list part_spec) : bytes := str_GPT ++ CH_NL :: spec_lines (p :: ps).

Lemma clean_ok s : attached s -> exists s', clean_mbr_gpt_table ops bo env_get simple_strtol rom_spi_boot s 0 = Some (s', 0) /\ opened 0 s' /\
  is_gpt_ready s' = false /\ g_gpt_e s' = g_gpt_e s.
Proof.
  intros [H1 H2 H3]. unfold clean_mbr_gpt_table. destruct (erase_ok env_get simple_strtol rom_spi_boot Hactive (set_gpt_ready false s) 0 0 GPT_LBA_NUM) as (s' & -> & Ho & (K1 & K2 & _) & _);
    [by split|lia|unfold GPT_LBA_NUM; lia..|]. cbn [mbind option_bind negb Z.eqb]. exists s'. by split_and!.
Qed.

(** What is left of the state when the partition table has been made. *)
Record parted (parts : list disk_partition_t) s s' : Prop := mk_parted {
  pd_opened : opened 0 s';
  pd_ready : is_gpt_ready s' = false;
  pd_entries : g_gpt_e s' = g_gpt_e s;
  pd_gpt : exists l, has_gpt (ops := ops) (bo := bo) (disk s' 0) l /\ Forall2 (fun g p => entry_is g (start p) (size p)) l parts;
}.

Lemma part_list_ok s text pad p ps : attached s -> no_nul text -> squeezed text = part_text p ps -> Forall spec_ok (p :: ps) ->
  dec_val (sp_start p) + extent (p :: ps) < 2 ^ 43 -> parts_ok rp_lba (layout (dec_val (sp_start p)) (p :: ps)) -> exists s',
  parse_part_and_gen_gpt ops bo env_get simple_strtol rom_spi_boot s (text ++ 0 :: 0 :: pad) (length text) = Some (s', 0) /\
  parted (layout (dec_val (sp_start p)) (p :: ps)) s s'.
Proof.
  intros Ha Hn Hq Hps Hb Hpk. unfold parse_part_and_gen_gpt. rewrite process_input_ok by done. cbn [mbind option_bind]. rewrite Hq.
  assert (Ez : exists rest, replicate (length text - length (part_text p ps)) 0 ++ 0 :: 0 :: pad = 0 :: 0 :: rest).
  { destruct (length text - length (part_text p ps))%nat as [|[|k]]; cbn; by eexists. }
  destruct Ez as [rest ->]. pose proof (pk_num _ _ Hpk) as Hnum. rewrite layout_length in Hnum.
  pose proof (proj1 (Forall_cons_iff _ _ _) Hps) as [Hp Hps']. destruct (spec_fields_ok p Hp) as [Hf Hlf]. destruct (line_text_ok (spec_fields p) (spec_comma p) Hf) as (Hnl & Hnj & Hge). fold (spec_text p) in Hnl, Hnj, Hge.
  unfold part_text. rewrite <- app_assoc. cbn [app]. 
  match goal with |- context [get_line ?x 0 1] => change (get_line x 0 1) with (get_line ([] ++ x) (length (@nil Z)) 1) end.
  rewrite (get_line_ok [] str_GPT) by (by repeat constructor). cbn [mbind option_bind long length str_GPT Nat.leb negb].
  unfold is_gpt_list. cbn [Nat.eqb orb negb]. cbn [part_sections].
  set (tail := spec_lines ps ++ 0 :: 0 :: rest).
  assert (Em : ([] ++ str_GPT ++ 0 :: spec_lines (p :: ps) ++ 0 :: 0 :: rest) = [35; 71; 80; 84; 0] ++ spec_text p ++ CH_NL :: tail).
  { cbn [app map spec_lines concat]. rewrite <- !app_assoc. done. }
  rewrite Em. change (0 + 4 + 1)%nat with (length [35; 71; 80; 84; 0]). rewrite get_line_ok by done. cbn [mbind option_bind].
  unfold long. rewrite (proj2 (Nat.leb_gt _ _)) by (cbn in Hge |- *; lia). cbn [negb].
  set (m := [35; 71; 80; 84; 0] ++ spec_text p ++ 0 :: tail).
  assert (Hnh : forall key, head key = Some CH_HASH -> starts_with m (length [35; 71; 80; 84; 0]) key = false).
  { intros key. destruct (so_name _ Hp) as ([_ _ _ Hne] & _ & Hh). apply (not_hash m _ key (sp_name p) (drop (length (sp_name p)) (spec_text p ++ 0 :: tail))); [|done|done].
    unfold m. rewrite drop_app_length. unfold spec_text, line_text, spec_fields. cbn [app]. rewrite join_cons, <- !app_assoc. now rewrite drop_app_length. }
  rewrite !Hnh by done. cbn [mbind option_bind andb orb]. change EMMC_PART_USER with 0. destruct (clean_ok s Ha) as (s1 & -> & Ho & Hr & Hg). cbn [mbind option_bind negb Z.eqb].
  unfold tail in m. destruct (part_lines_ok p ps (S (length m)) [35; 71; 80; 84; 0] (0 :: rest) Hps) as (pre' & E); [|done|done|].
  - assert (Hlen : forall l : list part_spec, (length l <= length (spec_lines l))%nat).
    { induction l as [|q l IH]; [done|]. cbn [map spec_lines concat]. rewrite !length_app. unfold spec_lines in IH. cbn [length]. lia. }
    specialize (Hlen ps).
    unfold m. rewrite !length_app, !length_cons', !length_app. lia.
  - fold m in E. rewrite E. cbn [mbind option_bind]. rewrite (proj2 (op_dev _ _ Ho)), (proj1 (op_dev _ _ Ho)). cbn [negb].
    destruct Ho as [Ho1 [Ho2 Ho3] Ho4]. destruct (rp_restore (bdev s1) _ Ho3 Hpk) as (d & l & -> & Hu & Hgpt & Hent). change (negb (0 =? 0)) with false. cbv iota.
    replace (length pre' + 0 + 1)%nat with (length (pre' ++ [0%Z])) by (rewrite length_app; cbn [length]; lia).
    replace (pre' ++ 0 :: 0 :: rest) with ((pre' ++ [0]) ++ 0 :: rest) by now rewrite <- app_assoc. rewrite no_line. cbn [mbind option_bind negb].
    eexists. split; [reflexivity|]. split; [by split|done|done|by exists l].
Qed.

Lemma emmcpart_ok s src name text p ps : attached s -> imgload bo src name = Some text -> (length text + 2 <= LIST_SIZE)%nat -> no_nul text ->
  squeezed text = part_text p ps -> Forall spec_ok (p :: ps) ->
  dec_val (sp_start p) + extent (p :: ps) < 2 ^ 43 -> parts_ok rp_lba (layout (dec_val (sp_start p)) (p :: ps)) -> exists s',
  emmcpart_import ops bo env_get simple_strtol rom_spi_boot s src name = Some (s', 0) /\ parted (layout (dec_val (sp_start p)) (p :: ps)) s s'.
Proof.
  intros Ha Hl Hlen Hn Hq Hps Hb Hpk. unfold emmcpart_import, load_list. rewrite Hl, decide_False by lia. cbn [mbind option_bind].
  destruct (LIST_SIZE - length text)%nat as [|[|k]] eqn:Ek; [lia|lia|]. cbn [replicate].
  destruct (part_list_ok s text (replicate k 0) p ps Ha Hn Hq Hps Hb Hpk) as (s' & -> & Hp). by exists s'.
Qed.

(** An image of the list, for a partition of the new table. *)
Record job_ok (parts : list disk_partition_t) (src path : bytes) (t : task) : Prop := mk_job_ok {
  jo_name : field_ok (t_img t) /\ (length (t_img t) < 32)%nat;
  jo_part : match t_part t with
            | Sd k => exists pt, parts !! k = Some pt /\ t_start t = start pt /\ t_cnt t = size pt
            | Boot h => (h = 1 \/ h = 2) /\ t_start t = 0 /\ t_cnt t = capacity_boot bo / dev_blksz ops /\ 0 <= t_cnt t < 2 ^ 31
            end;
  jo_job : match t_job t with
           | Burn file => t_img t <> str_erase /\ t_img t <> str_format /\ imgload bo src (path ++ t_img t) = Some file /\ image_ok (ops := ops) (bo := bo) file (t_cnt t)
           | Erase => t_img t = str_erase
           | Format => t_img t = str_format
           end;
}.

Lemma job_task lba parts l src path t : parts_ok lba parts -> Forall2 (fun g p => entry_is g (start p) (size p)) l parts -> job_ok parts src path t ->
  task_ok (ops := ops) (bo := bo) l src path t.
Proof.
  intros Hpk H2 [Hn Hp Hj]. split; [done| |done]. unfold place_is. destruct (t_part t) as [h|k]; [done|]. destruct Hp as (pt & Hp & E1 & E2). split.
  - pose proof (lookup_lt_Some _ _ _ Hp). pose proof (pk_num _ _ Hpk). lia.
  - destruct (Forall2_lookup_r _ _ _ _ _ H2 Hp) as (g & Hg & He). exists g. rewrite E1, E2. by split.
Qed.

Lemma jobs_disjoint lba parts src path ts : parts_ok lba parts -> Forall (job_ok parts src path) ts -> NoDup (map t_part ts) -> ForallOrdPairs disjoint ts.
Proof.
  intros Hpk. assert (Hlt : forall i j p q, (i < j)%nat -> parts !! i = Some p -> parts !! j = Some q -> start p + size p <= start q).
  { pose proof (pk_order _ _ Hpk) as Ho. clear Hpk. induction Ho as [|a l Ha Ho IH]; intros [|i] [|j] p q Hij Hi Hj; try lia; try done.
    - injection Hi as <-. cbn in Hj. rewrite list.Forall_lookup in Ha. by eapply Ha.
    - eapply (IH i j); [lia|done|done]. }
  induction ts as [|t ts IH]; intros Hj Hnd; [constructor|]. apply Forall_cons_iff in Hj as [Ht Hj]. cbn [map] in Hnd. apply list.NoDup_cons in Hnd as [Hni Hnd].
  constructor; [|by apply IH]. apply list.Forall_forall. intros u Hu. rewrite list.Forall_forall in Hj. specialize (Hj u Hu).
  assert (Hne : t_part t <> t_part u) by (intros H; apply Hni; rewrite H; apply list_elem_of_In, in_map, list_elem_of_In, Hu).
  destruct Ht as [_ Hp _], Hj as [_ Hq _]. unfold disjoint. destruct (t_part t) as [h|k], (t_part u) as [h'|k']; cbn [place_hw].
  - left. congruence.
  - left. lia.
  - left. lia.
  - right. destruct Hp as (p & Hp & -> & ->), Hq as (q & Hq & -> & ->). destruct (Nat.lt_trichotomy k k') as [H|[H|H]]; [left; eauto|congruence|right; eauto].
Qed.

Lemma bootbus_ok s : has_mmc s = true -> exists s', set_bootbus bo env_get simple_strtol rom_spi_boot s = Some (s', 0) /\ forall q x, disk s' q x = disk s q x.
Proof.
  intros H. unfold set_bootbus. rewrite H, Hactive. cbn [negb]. destruct (rp_conf (bdev s)) as (d1 & -> & C1). cbn [negb Z.eqb].
  destruct (rp_bus (bdev (set_bdev d1 s))) as (d2 & -> & C2). cbn [negb Z.eqb]. eexists. split; [reflexivity|]. intros q x. unfold disk. cbn in *. by rewrite C2, C1.
Qed.

End Parts.

Lemma list2emmc_ok {D : Type} {ops : blk D} {bo : burner D} `{!ReliableBlk ops DEV_EMMC} `{!ReliableBurner ops bo} `{!PartitioningBurner ops bo}
    env_get strtol spi table sparse s src part_file img_list ptext itext p ps path nm ts :
  active_dev env_get strtol spi = DEV_EMMC -> plain (bmmc s) -> (0 <= curr_part s -> hw_selected (bdev s) (curr_part s)) -> g_gpt_e s = [] ->
  (length part_file < 256)%nat -> (length img_list < 256)%nat -> get_image_path_and_name img_list = Some (path, nm) ->
  imgload bo src part_file = Some ptext -> (length ptext + 2 <= LIST_SIZE)%nat -> no_nul ptext -> squeezed ptext = part_text p ps -> Forall spec_ok (p :: ps) ->
  dec_val (sp_start p) + extent (p :: ps) < 2 ^ 43 -> parts_ok rp_lba (layout (dec_val (sp_start p)) (p :: ps)) ->
  imgload bo src img_list = Some itext -> (length itext < LIST_SIZE)%nat -> no_nul itext ->
  squeezed itext = lines_of (map (fun t => entry_fields (task_entry t)) ts) -> Z.of_nat (length ts) <= MAX_GPT_PT_NUM ->
  Forall (job_ok (ops := ops) (bo := bo) (layout (dec_val (sp_start p)) (p :: ps)) src path) ts -> NoDup (map t_part ts) ->
  exists s', do_list2emmc ops bo env_get strtol spi table sparse s src None [part_file; img_list] (true, true) = Some (s', 0) /\
    Forall (burnt (ops := ops) (disk s')) ts.
Proof.
  intros Hact Hpl Hup Hg0 Hl1 Hl2 Hpath Hp1 Hp2 Hp3 Hp4 Hps Hb Hpk Hi1 Hi2 Hi3 Hi4 Hnum Hts Hnd. unfold do_list2emmc. cbn [length Nat.leb andb negb fst snd list_names].
  unfold fits. rewrite !decide_True by done. cbn [mbind option_bind]. set (s0 := set_mmc (-1) (has_mmc s) s). assert (Ha : attached s0) by (split; [by left|done|done]).
  destruct (emmcpart_ok env_get strtol spi Hact s0 src part_file ptext p ps Ha Hp1 Hp2 Hp3 Hp4 Hps Hb Hpk) as (s1 & -> & [Ho Hr Hg (l & Hgpt & Hent)]).
  cbn [mbind option_bind negb Z.eqb]. assert (Hu : usable (ops := ops) (bo := bo) l s1) by (right; split; [by eapply opened_attached|done|by rewrite Hg|done]).
  destruct (import_ok env_get strtol spi table sparse Hact l s1 src img_list path nm itext ts None (fun _ => false) Hu Hpath Hi1 Hi2 Hi3 Hi4 Hnum) as (s2 & -> & _ & M & B & _).
  - eapply list.Forall_impl; [exact Hts|]. intros t. by eapply job_task.
  - by eapply jobs_disjoint.
  - apply list.Forall_true. done.
  - cbn [mbind option_bind negb Z.eqb]. destruct (bootbus_ok env_get strtol spi Hact s2 (M (proj2 (op_dev _ _ Ho)))) as (s3 & -> & D3). cbn [mbind option_bind negb Z.eqb].
    exists s3. split; [done|]. rewrite list.Forall_forall in B, Hts |- *. intros t Ht. eapply burnt_ext; [by eapply job_task, Hts| |by apply B]. intros q x _. apply D3.
Qed.

(** C14: A fresh installation: in a session that has read no partition table yet, with the
    lists given (blanks may be anywhere in them), the command partitions the eMMC and puts every image of the list into its partition,
    at the place that the sizes of the partitions before it determine. *)
Theorem list2emmc_installs {D : Type} {ops : blk D} {bo : burner D} `{!ReliableBlk ops DEV_EMMC} `{!ReliableBurner ops bo} `{!PartitioningBurner ops bo}
    env_get strtol spi table sparse s src part_file img_list ptext itext p ps path nm ts :
  active_dev env_get strtol spi = DEV_EMMC -> plain (bmmc s) -> (0 <= curr_part s -> hw_selected (bdev s) (curr_part s)) -> g_gpt_e s = [] ->
  (length part_file < 256)%nat -> (length img_list < 256)%nat -> get_image_path_and_name img_list = Some (path, nm) ->
  imgload bo src part_file = Some ptext -> (length ptext + 2 <= LIST_SIZE)%nat -> no_nul ptext -> squeezed ptext = part_text p ps -> Forall spec_ok (p :: ps) ->
  dec_val (sp_start p) + extent (p :: ps) < 2 ^ 43 -> parts_ok rp_lba (layout (dec_val (sp_start p)) (p :: ps)) ->
  imgload bo src img_list = Some itext -> (length itext < LIST_SIZE)%nat -> no_nul itext ->
  squeezed itext = lines_of (map (fun t => entry_fields (task_entry t)) ts) -> Z.of_nat (length ts) <= MAX_GPT_PT_NUM ->
  Forall (job_ok (ops := ops) (bo := bo) (layout (dec_val (sp_start p)) (p :: ps)) src path) ts -> NoDup (map t_part ts) ->
  exists s', do_list2emmc ops bo env_get strtol spi table sparse s src None [part_file; img_list] (true, true) = Some (s', 0) /\
    Forall (burnt (ops := ops) (disk s')) ts.
Proof. exact (list2emmc_ok env_get strtol spi table sparse s src part_file img_list ptext itext p ps path nm ts). Qed.
