(* ===== verification/EmmcInstall.v ===== *)
(** * Installing on a device in memory, and what goes wrong (emmcburn.c)

    A device that satisfies the interfaces the theorems are proved against, with a
    partition table as bytes; reading back what was burnt; the commands on lists and
    images they were not made for. *)

From S2P Require Import Prelude Disk UbootMmc SynaLoad EmmcText EmmcBurn EmmcLists EmmcWrite EmmcImages EmmcParts.

(** ** A partition table as bytes *)

Definition utf16 (name : bytes) : bytes := concat (map (fun c => [c; 0]) name).

Definition gpt_bytes (p : disk_partition_t) : bytes :=
  replicate 16 1 ++ replicate 16 2 ++ le64 (start p) ++ le64 (start p + size p - 1) ++ replicate 8 0 ++ utf16 (pname p) ++ replicate (72 - 2 * length (pname p)) 0.

Definition gpt_sig : bytes := [69; 70; 73; 32; 80; 65; 82; 84].

Definition gpt_hdr : bytes := gpt_sig ++ replicate 64 0 ++ le64 2 ++ le32 128 ++ replicate 428 0.

Definition gpt_area (parts : list disk_partition_t) : bytes :=
  gpt_hdr ++ concat (map gpt_bytes parts) ++ replicate (128 * (128 - length parts)) 0.

Lemma utf16_length name : length (utf16 name) = (2 * length name)%nat.
Proof. unfold utf16. induction name as [|c name IH]; [done|]. cbn [map concat]. rewrite length_app, IH. cbn [length]. lia. Qed.

Lemma efi_ok name : forall n pre tail, no_nul name -> (length name < n)%nat ->
  efi_loop n (pre ++ utf16 name ++ 0 :: tail) (length pre) = Some name.
Proof.
  induction name as [|c name IH]; intros n pre tail Hn Hl; (destruct n as [|n]; [cbn in Hl; lia|]); cbn [efi_loop].
  - rewrite lookup_app_r, Nat.sub_diag by lia. done.
  - apply no_nul_cons in Hn as [Hc Hn]. unfold utf16. cbn [map concat]. fold (utf16 name). rewrite lookup_app_r, Nat.sub_diag by lia. cbn [app lookup list_lookup mbind option_bind].
    rewrite (proj2 (Z.eqb_neq _ _) Hc). replace (length pre + 2)%nat with (length (pre ++ [c; 0])) by (rewrite length_app; cbn; lia).
    replace (pre ++ c :: 0 :: utf16 name ++ 0 :: tail) with ((pre ++ [c; 0]) ++ utf16 name ++ 0 :: tail) by now rewrite <- app_assoc.
    rewrite IH by (done || cbn in *; lia). done.
Qed.

Lemma field_here pre w rest : field (pre ++ w ++ rest) (length pre) (length w) = le_val w.
Proof. unfold field. now rewrite drop_app_length, take_app_length. Qed.

Lemma gpt_bytes_length p : (length (pname p) <= 36)%nat -> length (gpt_bytes p) = 128%nat.
Proof. intros H. unfold gpt_bytes. rewrite !length_app, utf16_length, !length_replicate. cbn [length le64 le32 app]. lia. Qed.

Lemma gpt_bytes_entry p : 0 <= start p -> 1 <= size p -> start p + size p < 2 ^ 31 -> no_nul (pname p) -> (length (pname p) < PARTNAME_SZ)%nat ->
  entry_is (gpt_bytes p) (start p) (size p).
Proof.
  unfold PARTNAME_SZ. intros H1 H2 H3 Hn Hl. unfold gpt_bytes. split.
  - etransitivity; [exact (field_here (replicate 16 1 ++ replicate 16 2) (le64 (start p)) _)|]. apply le_val_le64. lia.
  - etransitivity; [exact (field_here (replicate 16 1 ++ replicate 16 2 ++ le64 (start p)) (le64 (start p + size p - 1)) _)|]. apply le_val_le64. lia.
  - unfold partition_name. exists (pname p). unfold gpt_convert_efi_name_to_char.
    replace (drop 56 _) with (utf16 (pname p) ++ replicate (72 - 2 * length (pname p)) 0) by done.
    destruct (72 - 2 * length (pname p))%nat as [|k] eqn:Ek; [lia|]. cbn [replicate]. apply (efi_ok (pname p) _ []); [done|]. unfold PARTNAME_SZ. lia.
  - lia.
Qed.

Lemma utf16_bytes name : is_bytes name -> is_bytes (utf16 name).
Proof. unfold utf16. induction 1 as [|c name Hc _ IH]; [constructor|]. cbn [map concat app]. constructor; [done|]. by constructor. Qed.

Lemma le64_bytes x : is_bytes (le64 x).
Proof. unfold le64. apply list.Forall_app. split; apply le32_bytes. Qed.

Lemma const_bytes n c : is_u8 c -> is_bytes (replicate n c).
Proof. intros H. by apply list.Forall_replicate. Qed.

Lemma gpt_bytes_bytes p : is_bytes (pname p) -> is_bytes (gpt_bytes p).
Proof.
  intros H. unfold gpt_bytes, is_bytes. rewrite !list.Forall_app. split_and!; try apply le64_bytes; try (apply const_bytes; done). by apply utf16_bytes.
Qed.

(** The entries of the area are the partitions. *)
Lemma used_parts parts : forall n pre, Forall (fun p => (length (pname p) <= 36)%nat) parts -> (length parts <= n)%nat ->
  used_entries n (pre ++ concat (map gpt_bytes parts) ++ replicate (128 * (n - length parts)) 0) (length pre) = map gpt_bytes parts.
Proof.
  induction parts as [|p parts IH]; intros n pre Hp Hn.
  - cbn [map concat app length]. rewrite Nat.sub_0_r. clear. revert pre. induction n as [|n IH]; intros pre; [done|]. cbn [used_entries]. rewrite drop_app_length.
    replace (128 * S n)%nat with (16 + (112 + 128 * n))%nat by lia. rewrite (replicate_add 16), take_app_length' by (by rewrite length_replicate).
    change (is_unused (replicate 16 0)) with true. cbv iota. cbn [app]. replace (length pre + 128)%nat with (length (pre ++ replicate 128 0)) by (rewrite length_app, length_replicate; lia).
    rewrite <- (replicate_add 16). replace (16 + (112 + 128 * n))%nat with (128 + 128 * n)%nat by lia. rewrite replicate_add, app_assoc. apply IH.
  - apply Forall_cons_iff in Hp as [Hp1 Hp]. destruct n as [|n]; [cbn in Hn; lia|]. cbn [length map concat] in *. cbn [used_entries]. rewrite drop_app_length, <- !app_assoc.
    pose proof (gpt_bytes_length p Hp1) as Hl.
    assert (Hu : is_unused (take 16 (gpt_bytes p ++ concat (map gpt_bytes parts) ++ replicate (128 * (S n - S (length parts))) 0)) = false) by done. rewrite Hu, take_app_length' by done. cbn [app]. f_equal.
    replace (length pre + 128)%nat with (length (pre ++ gpt_bytes p)) by (rewrite length_app; lia). rewrite app_assoc. cbn [Nat.sub]. apply IH; [done|lia].
Qed.

(** ** A device in memory

    A user area and two boot partitions, each with its bytes. *)

Record ram3 := mk_ram3 { areas : Z -> Z -> Z; sel : Z }.

Definition ram3_byte (d : ram3) (q x : Z) : Z := u8 (areas d q x).
Definition set_area (d : ram3) (f : Z -> Z) : ram3 := mk_ram3 (fun q => if q =? sel d then f else areas d q) (sel d).

Definition ram3_ops (tbl : Z -> option disk_partition_t) : blk ram3 :=
  mk_blk ram3 (fun _ m => m =? 0) (fun _ _ => 2 ^ 20) 512 (fun _ _ => true) 128 (fun d _ i => if sel d =? 0 then tbl i else None)
    (fun d _ h => if h <? 3 then (mk_ram3 (areas d) h, 0) else (d, -1))
    (fun d _ a n => (d, n, rng (ram3_byte d (sel d)) (a * 512) (Z.to_nat (n * 512))))
    (fun d _ a n buf => (set_area d (upd (areas d (sel d)) (a * 512) buf), n)).

#[export] Instance ram3_reliable tbl : ReliableBlk (ram3_ops tbl) DEV_EMMC.
Proof.
  refine {| bcontents := fun d => ram3_byte d 0; btable := tbl; in_user_area := fun d => sel d = 0 |}; cbn.
  - intros d x. apply u8_range.
  - exists 9. split; [lia|done].
  - done.
  - done.
  - intros d i ->. done.
  - intros d. by eexists.
  - intros d. by exists d, (-1).
  - intros d a n Hd _ _. rewrite Hd. by exists d.
  - intros d a n buf Hd _ _ _ Hb. eexists. split; [done|]. split; [done|]. intros x. unfold ram3_byte, set_area. cbn [areas]. rewrite Hd. cbn. now rewrite u8_upd.
Defined.

Section Ram.
Context (tbl : Z -> option disk_partition_t) (files : bytes -> option bytes).

Definition ram_burner : burner ram3 := {|
  mmc_dev_cmd d _ h := if h <? 3 then (mk_ram3 (areas d) h, 0) else (d, -1);
  erase_grp_size := 1024;
  capacity_boot := 2 ^ 22;
  derase d _ a n := set_area d (fun x => if (a * 512 <=? x) && (x <? (a + n) * 512) then 0 else areas d (sel d) x);
  valid_gpt_buf buf := bool_decide (take 8 (drop (Z.to_nat 512) buf) = gpt_sig);
  gpt_restore d _ parts := (set_area d (upd (areas d (sel d)) 512 (gpt_area parts)), 0);
  make_ext4fs d _ _ _ := (d, 0);
  mmc_set_part_conf d _ := (d, 0);
  mmc_set_boot_bus_width d _ := (d, 0);
  is_sparse_image buf := bool_decide (take 4 buf = [58; 255; 38; 237]);
  imgload _ path := files path;
  get_max_malloc_size := 2 ^ 26;
  heap i := Z.of_nat i mod 256;
|}.

#[export] Instance ram_burner_ok : ReliableBurner (ram3_ops tbl) ram_burner.
Proof.
  refine {| hw_contents := ram3_byte; hw_selected := fun d h => sel d = h |}; cbn.
  - done.
  - done.
  - intros d h Hh. rewrite (proj2 (Z.ltb_lt _ _)) by lia. by eexists.
  - done.
  - intros d h a n Hu Ha Hn. split; [done|]. intros q x Hx. unfold ram3_byte, set_area. cbn [areas]. rewrite Hu. destruct (Z.eqb_spec q h) as [->|]; [|done].
    replace (_ && _) with false; [done|]. symmetry. apply andb_false_iff. rewrite Z.leb_gt, Z.ltb_ge. lia.
  - intros d h a n Hd _ _. rewrite Hd. by exists d.
  - intros d h a n buf Hd _ _ _ Hb. eexists. split; [done|]. split; [done|]. intros q x. unfold ram3_byte, set_area. cbn [areas]. rewrite Hd. destruct (q =? h); [|done]. now rewrite u8_upd.
  - done.
  - intros d h a n Hd _ _. by exists d.
  - intros i. unfold is_u8. apply Z.mod_pos_bound. lia.
Defined.

Lemma area_length parts : Forall (fun p => (length (pname p) <= 36)%nat) parts -> (length parts <= 128)%nat -> length (gpt_area parts) = Z.to_nat 16896.
Proof.
  intros Hp Hn. unfold gpt_area. rewrite !length_app, length_replicate. change (length gpt_hdr) with 512%nat.
  assert (Hc : length (concat (map gpt_bytes parts)) = (128 * length parts)%nat); [|lia]. clear Hn.
  induction Hp as [|p parts Hp _ IH]; [done|]. cbn [map concat]. rewrite length_app, gpt_bytes_length, IH by done. cbn [length]. lia.
Qed.

Lemma area_bytes parts : Forall (fun p => is_bytes (pname p)) parts -> is_bytes (gpt_area parts).
Proof.
  intros Hp. unfold gpt_area, is_bytes. rewrite !list.Forall_app. split_and!.
  - apply sample_bytes_ok. reflexivity.
  - induction Hp as [|p parts Hp _ IH]; [constructor|]. cbn [map concat]. apply list.Forall_app. split; [by apply gpt_bytes_bytes|done].
  - by apply const_bytes.
Qed.

#[export] Instance ram_partitions : PartitioningBurner (ram3_ops tbl) ram_burner.
Proof.
  refine {| rp_lba := 2 ^ 20 : Z |}; [|intros d; by exists d|intros d; by exists d].
  intros d parts Hu [Hnum Hparts _]. cbn in Hu. unfold MAX_GPT_PT_NUM in Hnum.
  assert (H36 : Forall (fun p => (length (pname p) <= 36)%nat) parts) by (eapply list.Forall_impl; [exact Hparts|]; unfold PARTNAME_SZ; cbn; intros; lia).
  pose proof (area_length parts H36 ltac:(lia)) as Hl.
  assert (Hby : is_bytes (gpt_area parts)) by (apply area_bytes; eapply list.Forall_impl; [exact Hparts|]; cbn; tauto).
  set (d' := set_area d (upd (areas d (sel d)) 512 (gpt_area parts))). exists d', (map gpt_bytes parts). split; [done|]. split; [done|].
  assert (Ef : forall x, ram3_byte d' 0 x = upd (ram3_byte d 0) 512 (gpt_area parts) x).
  { intros x. unfold d', ram3_byte, set_area. cbn [areas]. rewrite Hu. cbn. now rewrite u8_upd. }
  assert (Ei : gpt_image (ops := ram3_ops tbl) (hw_contents (ReliableBurner := ram_burner_ok) d' 0) = rng (ram3_byte d 0) 0 (Z.to_nat 512) ++ gpt_area parts).
  { unfold gpt_image. cbn [dev_blksz ram3_ops]. replace (Z.to_nat (GPT_LBA_NUM * 512)) with (Z.to_nat 512 + length (gpt_area parts))%nat by (rewrite Hl; done).
    rewrite rng_app. apply (f_equal2 app).
    - apply rng_ext. intros x Hx. etransitivity; [apply Ef|]. apply upd_out. lia.
    - etransitivity; [|exact (upd_same (ram3_byte d 0) 512 (gpt_area parts))]. rewrite Z.add_0_l, Z2Nat.id by lia. apply rng_ext. intros x _. apply Ef. }
  set (f := hw_contents _ _) in *. set (pre := rng (ram3_byte d 0) 0 (Z.to_nat 512)) in Ei. assert (Hpre : length pre = Z.to_nat 512) by apply length_rng.
  assert (En : gpt_num (ops := ram3_ops tbl) f = 128).
  { unfold gpt_num. rewrite Ei. unfold gpt_area, gpt_hdr. etransitivity; [|exact (field_here (pre ++ gpt_sig ++ replicate 64 0 ++ le64 2) (le32 128) (replicate 428 0 ++ concat (map gpt_bytes parts) ++ replicate (128 * (128 - length parts)) 0))].
    rewrite !length_app, Hpre, <- !app_assoc. done. }
  split.
  - split.
    + rewrite Ei. cbn [valid_gpt_buf ram_burner]. apply bool_decide_eq_true_2. rewrite drop_app_length' by done. done.
    + rewrite Ei. unfold gpt_area, gpt_hdr. etransitivity; [|exact (field_here (pre ++ gpt_sig ++ replicate 64 0) (le64 2) (le32 128 ++ replicate 428 0 ++ concat (map gpt_bytes parts) ++ replicate (128 * (128 - length parts)) 0))].
      rewrite !length_app, Hpre, <- !app_assoc. done.
    + rewrite En. cbn. unfold MAX_GPT_PT_NUM. lia.
    + rewrite En, Ei. unfold gpt_area. rewrite app_assoc. replace (Z.to_nat (2 * dev_blksz (ram3_ops tbl))) with (length (pre ++ gpt_hdr)) by (rewrite length_app, Hpre; done).
      apply used_parts; [done|lia].
  - apply Forall2_fmap_l, list.Forall_Forall2_diag. eapply list.Forall_impl; [exact Hparts|]. cbn. unfold GPT_LBA_NUM. intros p (P1 & P2 & P3 & P4 & P5 & P6 & P7). apply gpt_bytes_entry; [lia|lia|lia|exact P6|exact P7].
Defined.

End Ram.

(** C22: ** Reading back

    What img2sd burnt is what the boot commands read from the partition. *)
Theorem burnt_image_read_back {D : Type} {ops : blk D} {bo : burner D} {RB : ReliableBlk ops DEV_EMMC} `{!ReliableBurner ops bo}
    env_get strtol table sparse l s src img_list path nm text ts ig (skip : task -> bool) t file name inf (buff : bytes) (off : nat) :
  active_dev env_get strtol false = DEV_EMMC -> usable (ops := ops) (bo := bo) l s ->
  get_image_path_and_name img_list = Some (path, nm) -> imgload bo src img_list = Some text -> (length text < LIST_SIZE)%nat -> no_nul text ->
  squeezed text = lines_of (map (fun t => entry_fields (task_entry t)) ts) -> Z.of_nat (length ts) <= MAX_GPT_PT_NUM ->
  Forall (task_ok (ops := ops) (bo := bo) l src path) ts -> ForallOrdPairs disjoint ts -> Forall (fun t => ignored ig t = Some (skip t)) ts ->
  t ∈ ts -> skip t = false -> @found D ops false RB name inf -> t_job t = Burn file -> (exists k, t_part t = Sd k) -> start inf = t_start t -> size inf = t_cnt t ->
  (off + Z.to_nat (blocks (ops := ops) (Z.of_nat (length file)) * dev_blksz ops) <= length buff)%nat ->
  exists s' m' buff', img2sd_import ops bo env_get strtol false table sparse s src img_list ig = Some (s', 0) /\
    fb_mmc_flash_read ops env_get strtol false table (bmmc s') name buff off (Z.of_nat (length file)) = Some (m', buff') /\
    take (length file) (drop off buff') = file.
Proof.
  intros Hact Hu Hp Hi1 Hi2 Hi3 Hi4 Hnum Hts Hd Hig Ht Hsk Hf Hjob [k Hsd] Est Esz Hlen. pose proof (blksz_facts (ops := ops) (m := DEV_EMMC)) as [Hbs _].
  destruct (import_ok env_get strtol false table sparse Hact l s src img_list path nm text ts ig skip Hu Hp Hi1 Hi2 Hi3 Hi4 Hnum Hts Hd Hig) as (s' & E & Hu' & _ & B & _).
  rewrite list.Forall_forall in Hts, B. specialize (B t Ht Hsk). pose proof (to_job _ _ _ _ (Hts t Ht)) as Hj. rewrite Hjob in Hj. destruct Hj as (_ & _ & _ & [_ _ Hsz Hrm _]).
  pose proof (blocks_bound (ops := ops) (m := DEV_EMMC) (Z.of_nat (length file)) ltac:(lia)) as [Hn0 Hn].
  assert (Hpl : plain (bmmc s')) by (destruct Hu' as [[[_ _ ?] _ _]|[[_ _ ?] _ _ _]]; done).
  destruct (read_from_offset_ok (ops := ops) env_get strtol false table Hact (bmmc s') name inf buff off (Z.of_nat (length file)) 0 Hpl Hf) as (m' & E2 & _);
    [lia|lia|apply Z.divide_0_r|lia|done|]. eexists s', m', _. split; [exact E|]. split; [exact E2|].
  set (n := Z.to_nat (blocks (ops := ops) (Z.of_nat (length file)) * dev_blksz ops)). assert (Hln : (length file <= n)%nat) by (unfold n; lia).
  pose proof (take_drop_splice buff (rng (disk s' 0) (at_byte (ops := ops) inf + 0) n) off 0 (length file)) as Es. rewrite length_rng, Nat.add_0_r, drop_0 in Es.
  rewrite <- (rng_ext (disk s' 0) (bcontents (dev (bmmc s'))) _ _ (fun x _ => hw_user (bdev s') x)). rewrite Es by done. pose proof (rng_sub (disk s' 0) (at_byte (ops := ops) inf + 0) n 0 (length file) Hln) as Er.
  rewrite drop_0 in Er. rewrite Er. unfold burnt in B. rewrite Hjob, Hsd in B. unfold at_byte. now rewrite !Z.add_0_r, Est.
Qed.

(** ** What goes wrong *)

Section Wrong.
Context {D : Type} {ops : blk D} {bo : burner D} `{!ReliableBlk ops DEV_EMMC} `{!ReliableBurner ops bo}.
Context (env_get : bytes -> option bytes) (simple_strtol : bytes -> Z) (rom_spi_boot : bool) (malloc_table : option (list emmc_part)).
Context (write_sparse_image : (burn D -> Z -> Z -> bytes -> option (burn D * Z)) -> pt_info -> bytes -> burn D -> option (burn D * Z)).
Hypothesis Hactive : active_dev env_get simple_strtol rom_spi_boot = DEV_EMMC.
Implicit Types (s : burn D).

Lemma info_reads s sr pt : read_all_gpt_partition_info ops bo env_get simple_strtol rom_spi_boot malloc_table s = Some (sr, 0) -> is_gpt_ready sr = true ->
  get_partition_info ops bo env_get simple_strtol rom_spi_boot malloc_table s pt = get_partition_info ops bo env_get simple_strtol rom_spi_boot malloc_table sr pt.
Proof. intros E Hr. unfold get_partition_info. rewrite E. unfold read_all_gpt_partition_info. now rewrite Hr. Qed.

(** A partition by the number of an entry that was read before. *)
Lemma burn_old s old new k g st cnt src img path nm file : attached s -> is_gpt_ready s = false -> g_gpt_e s = map (mk_gpt_ent 0) old ->
  has_gpt (ops := ops) (bo := bo) (disk s 0) new -> old !! k = Some g -> entry_is g st cnt -> Z.of_nat k < MAX_GPT_PT_NUM ->
  get_image_path_and_name img = Some (path, nm) -> imgload bo src (path ++ nm) = Some file -> image_ok (ops := ops) (bo := bo) file cnt -> exists s',
  img2sd_burn ops bo env_get simple_strtol rom_spi_boot malloc_table write_sparse_image s src img (sd_name (Z.of_nat k + 1)) = Some (s', 0) /\
  rng (disk s' 0) (st * dev_blksz ops) (length file) = file /\ forall q x, q <> 0 \/ x < st * dev_blksz ops \/ (st + cnt) * dev_blksz ops <= x -> disk s' q x = disk s q x.
Proof.
  intros Ha Hr Hg Hgpt Hk He Hk2 Hp Hf Hi. unfold img2sd_burn, pt_array, fits. rewrite decide_True by apply sd_name_ok, Hk2. cbn [mbind option_bind]. rewrite Hp. cbn [mbind option_bind].
  set (pt := sd_name _ ++ _). assert (Hpt : name_array (Sd k) pt) by by eexists. unfold start_ops. cbn [run_ops mbind option_bind]. set (s0 := set_mmc _ _ _). unfold run_op. cbn [pt_name op imgname].
  assert (Ha0 : attached s0) by (destruct Ha; split; [by left|done|done]).
  destruct (read_all_ok env_get simple_strtol rom_spi_boot malloc_table Hactive s0 new Ha0 Hr Hgpt) as (s1 & more & E1 & O1 & D1 & R1 & _ & _ & G1 & _).
  rewrite (info_reads s0 s1 pt E1 R1). assert (Hrd : ready (old ++ more) s1) by (split; [by eapply opened_attached|done|rewrite G1, map_app; cbn; now rewrite Hg]).
  assert (Hk' : place_is (ops := ops) (bo := bo) (old ++ more) (Sd k) st cnt) by (split; [done|]; exists g; split; [by apply lookup_app_l_Some|done]).
  destruct (info_ok (bo := bo) env_get simple_strtol rom_spi_boot malloc_table Hactive s1 _ (Sd k) st cnt pt (or_introl Hrd) Hpt Hk') as (s2 & name & -> & Hrd2 & _ & D2). cbn [mbind option_bind].
  destruct (burn_ok env_get simple_strtol rom_spi_boot malloc_table write_sparse_image Hactive s2 _ (Sd k) st cnt pt src path nm file (or_introl Hrd2) Hpt Hk' Hf Hi)
    as (s3 & -> & _ & _ & B3 & D3). cbn [mbind option_bind negb Z.eqb]. exists s3. split; [done|]. split; [done|]. intros q x Hx. rewrite D3, D2 by done. apply D1.
Qed.

(** A number behind the last entry: -1 becomes an index of the array. *)
Lemma missing_num l : forall i j idx, j + Z.of_nat (length l) < idx -> part_num_loop (map (mk_gpt_ent 0) l) i j 0 idx = -1.
Proof.
  induction l as [|g l IH]; intros i j idx H; [done|]. cbn [map part_num_loop ge_part length] in *. change (0 =? 0) with true. cbv iota.
  rewrite (proj2 (Z.eqb_neq _ _)) by lia. apply IH. lia.
Qed.

Theorem missing_partition_out_of_bounds l s k pt : usable (ops := ops) (bo := bo) l s -> name_array (Sd k) pt -> (length l <= k)%nat -> Z.of_nat k < 2 ^ 31 ->
  get_partition_info ops bo env_get simple_strtol rom_spi_boot malloc_table s pt = None.
Proof.
  intros Hu [pad ->] Hk Hk2. unfold get_partition_info. destruct (read_usable env_get simple_strtol rom_spi_boot malloc_table Hactive s l Hu) as (s' & -> & Hr & _ & _). cbn [mbind option_bind negb Z.eqb].
  cbn [place_name]. unfold sd_name. cbn [app lookup list_lookup mbind option_bind Z.eqb Pos.eqb andb].
  destruct (print_dec_ok 20 (Z.of_nat k + 1) ltac:(lia)) as [Hds Hv].
  assert (Hs : str_at (115 :: 100 :: print_dec 20 (Z.of_nat k + 1) ++ 0 :: pad) 2 = Some (print_dec 20 (Z.of_nat k + 1))).
  { apply (str_at_ok [115; 100]). eapply list.Forall_impl; [exact Hds|]. unfold is_digit. cbn. lia. }
  rewrite Hs. cbn [mbind option_bind]. rewrite strtoull_ok, Hv, u32_small by (done || lia). unfold gpt_info, get_partition_num. rewrite (rd_entries _ _ Hr), missing_num by lia.
  rewrite lookup_ge_None_2; [done|]. rewrite map_length. unfold u32. change (-1 mod 2 ^ 32) with (2 ^ 32 - 1). lia.
Qed.

(** An image that is larger than its partition is loaded over the end of its buffer. *)
Theorem oversized_image_overflows l s w st cnt pt src path img file : usable (ops := ops) (bo := bo) l s -> name_array w pt -> place_is (ops := ops) (bo := bo) l w st cnt ->
  imgload bo src (path ++ img) = Some file -> cnt * dev_blksz ops < Z.of_nat (length file) ->
  dl_and_burn_img ops bo env_get simple_strtol rom_spi_boot malloc_table write_sparse_image s src path img pt = None.
Proof.
  intros Hu Hpt Hw Hf Hl. pose proof (blksz_facts (ops := ops) (m := DEV_EMMC)) as [Hbs _]. unfold dl_and_burn_img.
  destruct (info_ok (bo := bo) env_get simple_strtol rom_spi_boot malloc_table Hactive s l w st cnt pt Hu Hpt Hw) as (s1 & name & -> & Hr1 & _ & _). cbn [mbind option_bind].
  destruct (blksize_ok env_get simple_strtol rom_spi_boot Hactive s1 (rd_attached _ _ Hr1)) as (s2 & -> & _). cbn [mbind option_bind]. rewrite Hf. cbn [pi_cnt].
  destruct (place_bounds _ _ _ _ Hw) as (_ & B3 & B4 & B5). rewrite u64_id by nia. rewrite decide_True by lia. done.
Qed.

(** A list that does not begin with "#GPT" is refused, with success. *)
Theorem other_table_reported_done s src name text first rest : imgload bo src name = Some text -> (length text < LIST_SIZE)%nat -> no_nul text ->
  squeezed text = first ++ CH_NL :: rest -> free_of CH_NL first -> (2 <= length first)%nat -> length first <> 4%nat -> take 4 first <> str_GPT ->
  emmcpart_import ops bo env_get simple_strtol rom_spi_boot s src name = Some (s, 0).
Proof.
  intros Hl Hlen Hn Hq Hnl H2 H4 Hg. unfold emmcpart_import, load_list. rewrite Hl, decide_False by lia. cbn [mbind option_bind]. unfold parse_part_and_gen_gpt.
  rewrite process_input_ok by done. cbn [mbind option_bind]. rewrite Hq.
  assert (Hnf : no_nul (first ++ CH_NL :: rest)) by (rewrite <- Hq; unfold squeezed; apply list.Forall_forall; intros x Hx; apply list_elem_of_In, filter_In in Hx as [Hx _]; unfold no_nul in Hn; rewrite list.Forall_forall in Hn; by apply Hn, list_elem_of_In).
  apply list.Forall_app in Hnf as [Hnf _]. rewrite <- app_assoc. cbn [app]. set (tail := rest ++ _).
  pose proof (get_line_ok [] first tail Hnl Hnf) as E. cbn [app length] in E. rewrite E. cbn [mbind option_bind]. unfold long. rewrite (proj2 (Nat.leb_gt _ _)) by lia. cbn [negb].
  unfold is_gpt_list, starts_with. rewrite (proj2 (Nat.eqb_neq _ _)), drop_0 by done. cbn [orb].
  rewrite bool_decide_eq_false_2; [done|]. intros Ht. cbn [length str_GPT] in Ht. destruct (decide (4 <= length first)%nat) as [H|H].
  - apply Hg. transitivity (take 4 (first ++ 0 :: tail)); [now rewrite take_app_le|exact Ht].
  - assert (Hlast : (first ++ 0 :: tail) !! length first = Some 0) by (rewrite lookup_app_r, Nat.sub_diag by lia; done).
    assert (Ht' : take 4 (first ++ 0 :: tail) !! length first = Some 0) by (rewrite lookup_take_lt by lia; done). unfold str_GPT in Ht. rewrite Ht in Ht'.
    destruct first as [|? [|? [|? [|]]]]; cbn in *; congruence || lia.
Qed.

End Wrong.

(** The entries that were read stay in front of the new ones when the eMMC is
    partitioned again: an image for "sd<k>" then goes where partition <k> of the OLD
    table was. *)
Theorem repartitioned_burns_old_place {D : Type} {ops : blk D} {bo : burner D} `{!ReliableBlk ops DEV_EMMC} `{!ReliableBurner ops bo} `{!PartitioningBurner ops bo}
    env_get strtol spi table sparse s src part_file ptext p ps old k g st cnt img path nm file :
  active_dev env_get strtol spi = DEV_EMMC -> ready (ops := ops) old s -> old !! k = Some g -> entry_is g st cnt -> Z.of_nat k < MAX_GPT_PT_NUM ->
  imgload bo src part_file = Some ptext -> (length ptext + 2 <= LIST_SIZE)%nat -> no_nul ptext -> squeezed ptext = part_text p ps -> Forall spec_ok (p :: ps) ->
  dec_val (sp_start p) + extent (p :: ps) < 2 ^ 43 -> parts_ok rp_lba (layout (dec_val (sp_start p)) (p :: ps)) ->
  get_image_path_and_name img = Some (path, nm) -> imgload bo src (path ++ nm) = Some file -> image_ok (ops := ops) (bo := bo) file cnt ->
  exists s1 new s2, emmcpart_import ops bo env_get strtol spi s src part_file = Some (s1, 0) /\
    has_gpt (ops := ops) (bo := bo) (disk s1 0) new /\ Forall2 (fun g p => entry_is g (start p) (size p)) new (layout (dec_val (sp_start p)) (p :: ps)) /\
    img2sd_burn ops bo env_get strtol spi table sparse s1 src img (sd_name (Z.of_nat k + 1)) = Some (s2, 0) /\
    rng (disk s2 0) (st * dev_blksz ops) (length file) = file /\
    forall q x, q <> 0 \/ x < st * dev_blksz ops \/ (st + cnt) * dev_blksz ops <= x -> disk s2 q x = disk s1 q x.
Proof.
  intros Hact [Ha _ Hen] Hk He Hk2 Hp1 Hp2 Hp3 Hp4 Hps Hb Hpk Hpath Hf Hi.
  destruct (emmcpart_ok env_get strtol spi Hact s src part_file ptext p ps Ha Hp1 Hp2 Hp3 Hp4 Hps Hb Hpk) as (s1 & E1 & [Ho Hr Hg (new & Hgpt & Hent)]).
  destruct (burn_old env_get strtol spi table sparse Hact s1 old new k g st cnt src img path nm file) as (s2 & E2 & B & F); try done; [by eapply opened_attached|congruence|].
  exists s1, new, s2. by split_and!.
Qed.

(** ** An installation

    Two partitions of 2 and 1 MiB behind the first MiB, with blanks in the lists; an
    image for a boot partition and for the second partition. *)
Definition sample_parts : bytes :=
  str_GPT ++ [10; 98; 44; 32; 49; 44; 50; 10; 99; 99; 44; 51; 44; 49; 32; 44; 10].
Definition sample_images : bytes := [97; 44; 98; 49; 10; 97; 44; 9; 115; 100; 50; 13; 10].
Definition sample_file : bytes := replicate (Z.to_nat 600) 7.
Definition name_parts : bytes := [112].
Definition name_images : bytes := [105].

Definition sample_files (path : bytes) : option bytes :=
  if decide (path = name_parts) then Some sample_parts else if decide (path = name_images) then Some sample_images else if decide (path = [97]) then Some sample_file else None.

Definition sample_b : part_spec := mk_spec [98] [49] [50] None.
Definition sample_cc : part_spec := mk_spec [99; 99] [51] [49] (Some []).
Definition sample_boot : task := mk_task [97] (Boot 1) 0 8192 (Burn sample_file).
Definition sample_task : task := mk_task [97] (Sd 1) 6144 2048 (Burn sample_file).

Definition no_env (_ : bytes) : option bytes := None.
Definition no_num (_ : bytes) : Z := 0.
Definition no_table (_ : Z) : option disk_partition_t := None.
Definition no_sparse {D} (_ : burn D -> Z -> Z -> bytes -> option (burn D * Z)) (_ : pt_info) (_ : bytes) (s : burn D) : option (burn D * Z) := Some (s, 0).

Definition sample_burn : burn ram3 := mk_burn (mk_mmc (mk_ram3 (fun _ _ => 0) 0) (-1) None) (-1) false (-1) (-1) (-1) false [].

Lemma one_field (c : Z) : c <> 0 -> c <> CH_COMMA -> c <> CH_NL -> field_ok [c].
Proof. intros. split; [by constructor..|done]. Qed.

Lemma sample_specs : Forall spec_ok [sample_b; sample_cc].
Proof.
  constructor; [|constructor; [|constructor]]; split; cbn; try exact I; try (split; [by repeat constructor|done]).
  - split; [by apply one_field|]. split; [unfold PART_NAME_LEN; lia|done].
  - split; [split; [by repeat constructor..|done]|]. split; [unfold PART_NAME_LEN; lia|done].
Qed.

Lemma sample_layout : layout (dec_val (sp_start sample_b)) [sample_b; sample_cc] = [mk_disk_part 2048 4096 512 [98]; mk_disk_part 6144 2048 512 [99; 99]].
Proof. reflexivity. Qed.

Lemma sample_parts_ok : parts_ok (2 ^ 20) [mk_disk_part 2048 4096 512 [98]; mk_disk_part 6144 2048 512 [99; 99]].
Proof.
  split; cbn [length start size pname].
  - unfold MAX_GPT_PT_NUM. lia.
  - unfold GPT_LBA_NUM, PARTNAME_SZ. constructor; [|constructor; [|constructor]]; cbn [start size pname length]; (split_and!; [lia|lia|lia|lia|by apply sample_bytes_ok|by repeat constructor|lia]).
  - constructor; [constructor; [cbn; lia|constructor]|]. constructor; constructor.
Qed.

Lemma sample_image_ok cnt files : 2 <= cnt -> image_ok (ops := ram3_ops no_table) (bo := ram_burner files) sample_file cnt.
Proof.
  intros H. assert (Hl : length sample_file = Z.to_nat 600) by apply length_replicate. split.
  - by apply const_bytes.
  - intros pad. reflexivity.
  - rewrite Hl. lia.
  - rewrite Hl. exact H.
  - rewrite Hl. by vm_compute.
Qed.

Lemma sample_job : Forall (job_ok (ops := ram3_ops no_table) (bo := ram_burner sample_files) (layout (dec_val (sp_start sample_b)) [sample_b; sample_cc]) [] []) [sample_boot; sample_task].
Proof.
  constructor; [|constructor; [|constructor]]; split; cbn [t_img t_part t_start t_cnt t_job sample_boot sample_task].
  - split; [by apply one_field|]. cbn [length]. lia.
  - split; [by left|]. split; [done|]. split; [done|lia].
  - split; [done|]. split; [done|]. split; [done|]. apply sample_image_ok. lia.
  - split; [by apply one_field|]. cbn [length]. lia.
  - rewrite sample_layout. by eexists.
  - split; [done|]. split; [done|]. split; [done|]. apply sample_image_ok. lia.
Qed.

Lemma list2emmc_installs_witness : exists s', do_list2emmc (ram3_ops no_table) (ram_burner sample_files) no_env no_num false None no_sparse sample_burn [] None [name_parts; name_images] (true, true) = Some (s', 0) /\
  Forall (burnt (ops := ram3_ops no_table) (disk (ops := ram3_ops no_table) (bo := ram_burner sample_files) s')) [sample_boot; sample_task].
Proof.
  apply (list2emmc_installs (ops := ram3_ops no_table) (bo := ram_burner sample_files) no_env no_num false None no_sparse sample_burn [] name_parts name_images sample_parts sample_images
    sample_b [sample_cc] [] name_images [sample_boot; sample_task]); try reflexivity || exact sample_specs || exact sample_job.
  - by left.
  - cbn. lia.
  - cbn. lia.
  - cbn. lia.
  - by apply Nat.leb_le.
  - by repeat constructor.
  - exact sample_parts_ok.
  - by apply Nat.ltb_lt.
  - by repeat constructor.
  - done.
  - cbn. apply list.NoDup_cons. split; [|apply NoDup_singleton]. rewrite list_elem_of_singleton. done.
Defined.

(** The table of [sample_burn] in another state: one partition of 1 MiB. *)
Definition sample_old : disk_partition_t := mk_disk_part 2048 2048 512 [98].
Definition sample_ready : burn ram3 := mk_burn (mk_mmc (mk_ram3 (fun _ _ => 0) 0) (-1) None) 0 true 0 (-1) (-1) true [mk_gpt_ent 0 (gpt_bytes sample_old)].

Lemma sample_entry : entry_is (gpt_bytes sample_old) 2048 2048.
Proof. apply (gpt_bytes_entry sample_old); cbn; try lia; [by repeat constructor|unfold PARTNAME_SZ; lia]. Qed.

Lemma sample_ready_ok : ready (ops := ram3_ops no_table) (bo := ram_burner sample_files) [gpt_bytes sample_old] sample_ready.
Proof. split; [|done|done]. split; [by right|done|by left]. Qed.

Lemma repartitioned_burns_old_place_witness : exists s1 new s2, emmcpart_import (ram3_ops no_table) (ram_burner sample_files) no_env no_num false sample_ready [] name_parts = Some (s1, 0) /\
  has_gpt (ops := ram3_ops no_table) (bo := ram_burner sample_files) (disk (ops := ram3_ops no_table) (bo := ram_burner sample_files) s1 0) new /\
  Forall2 (fun g p => entry_is g (start p) (size p)) new (layout (dec_val (sp_start sample_b)) [sample_b; sample_cc]) /\
  img2sd_burn (ram3_ops no_table) (ram_burner sample_files) no_env no_num false None no_sparse s1 [] [97] (sd_name (Z.of_nat 0 + 1)) = Some (s2, 0) /\
  rng (disk (ops := ram3_ops no_table) (bo := ram_burner sample_files) s2 0) (2048 * dev_blksz (ram3_ops no_table)) (length sample_file) = sample_file /\
  forall q x, q <> 0 \/ x < 2048 * dev_blksz (ram3_ops no_table) \/ (2048 + 2048) * dev_blksz (ram3_ops no_table) <= x -> disk (ops := ram3_ops no_table) (bo := ram_burner sample_files) s2 q x = disk (ops := ram3_ops no_table) (bo := ram_burner sample_files) s1 q x.
Proof.
  eapply (repartitioned_burns_old_place (ops := ram3_ops no_table) (bo := ram_burner sample_files) no_env no_num false None no_sparse sample_ready [] name_parts sample_parts
    sample_b [sample_cc] [gpt_bytes sample_old] 0 (gpt_bytes sample_old) 2048 2048 [97] [] [97] sample_file); try reflexivity || exact sample_specs || exact sample_entry || exact sample_ready_ok.
  - by apply Nat.leb_le.
  - by repeat constructor.
  - exact sample_parts_ok.
  - apply sample_image_ok. lia.
Defined.

(** The partition driver's view of [sample_ready]. *)
Definition sample_driver (i : Z) : option disk_partition_t := if i =? 1 then Some sample_old else None.
Definition sample_one : task := mk_task [97] (Sd 0) 2048 2048 (Burn sample_file).
Definition one_images : bytes := [97; 44; 115; 100; 49; 10].
Definition one_files (path : bytes) : option bytes := if decide (path = name_images) then Some one_images else if decide (path = [97]) then Some sample_file else None.
Definition sample_buff : bytes := replicate (Z.to_nat 1100) 0.

Lemma burnt_image_read_back_witness : exists s' m' buff',
  img2sd_import (ram3_ops sample_driver) (ram_burner one_files) no_env no_num false None no_sparse sample_ready [] name_images None = Some (s', 0) /\
  fb_mmc_flash_read (ram3_ops sample_driver) no_env no_num false None (bmmc s') [98] sample_buff (Z.to_nat 50) (Z.of_nat (length sample_file)) = Some (m', buff') /\
  take (length sample_file) (drop (Z.to_nat 50) buff') = sample_file.
Proof.
  apply (burnt_image_read_back (ops := ram3_ops sample_driver) (bo := ram_burner one_files) no_env no_num None no_sparse [gpt_bytes sample_old] sample_ready [] name_images [] name_images
    one_images [sample_one] None (fun _ => false) sample_one sample_file [98] sample_old sample_buff (Z.to_nat 50)); try reflexivity.
  - left. split; [|done|done]. split; [by right|done|by left].
  - by apply Nat.ltb_lt.
  - by repeat constructor.
  - done.
  - constructor; [|constructor]. split; cbn [t_img t_part t_start t_cnt t_job sample_one].
    + split; [by apply one_field|]. cbn [length]. lia.
    + split; [done|]. exists (gpt_bytes sample_old). split; [done|exact sample_entry].
    + split; [done|]. split; [done|]. split; [done|]. assert (Hl : length sample_file = Z.to_nat 600) by apply length_replicate. split; [by apply const_bytes|done|rewrite Hl; lia|rewrite Hl; by vm_compute|rewrite Hl; by vm_compute].
  - repeat constructor.
  - repeat constructor.
  - by apply list_elem_of_here.
  - split; [by split_and!|by exists 1|by split].
  - by exists 0%nat.
  - unfold sample_file, sample_buff. rewrite !length_replicate. by apply Nat.leb_le.
Defined.

#[export] Instance ram_truthful tbl : TruthfulReads (ram3_ops tbl) DEV_EMMC.
Proof.
  refine {| tcontents := fun d => ram3_byte d (sel d) |}; cbn; [lia|]. intros d a n _ _ d' k got [= <- <- <-]. by split.
Defined.

Definition sample_block : bytes := replicate (Z.to_nat 1024) 7.

Lemma emmc_write_verified_witness : exists s', emmc_write (ram3_ops no_table) (ram_burner sample_files) no_env no_num false sample_burn 0 40 2 sample_block true = Some (s', 0) /\
  rng (tcontents (ops := ram3_ops no_table) (m := DEV_EMMC) (bdev s')) (40 * 512) (Z.to_nat (2 * 512)) = take (Z.to_nat (2 * 512)) sample_block.
Proof.
  assert (Hl : length sample_block = Z.to_nat 1024) by apply length_replicate.
  destruct (emmc_write_ok (ops := ram3_ops no_table) (bo := ram_burner sample_files) no_env no_num false eq_refl sample_burn 0 40 2 sample_block) as (s' & E & _);
    [split; [by left|cbn; lia|by left]|lia|lia|lia|lia|rewrite Hl; cbn; lia|by apply const_bytes|].
  exists s'. split; [exact E|]. apply (emmc_write_verified (ram3_ops no_table) (ram_burner sample_files) (m := DEV_EMMC) no_env no_num false sample_burn 0 40 2 sample_block s'); [reflexivity|unfold DEV_EMMC; lia|cbn; lia|lia|lia|lia|exact E].
Defined.
