(* ===== verification/ParsePt.v ===== *)
(** * The partition tool
    (build/tools/src/executables/parse_pt_emmc/parse_pt.c)

    From the partition configuration of a product the tool makes the partition
    table, the list of partitions and the list of images that U-Boot installs
    from, the version table, the kernel parameters and a layout file.  The tool is
    built with CONFIG_GPT and without CONFIG_EMMC_WRITE_PROTECT and is run with all
    its eleven arguments; numbers among them are given as numbers.  The files are
    opened and written without errors; what a failing run leaves behind is not
    modelled.  strcpy() between parts of an array is taken to move the string. *)

From S2P Require Import Prelude EmmcText EmmcBurn.

(** [None] for an access outside an object or a signed overflow, [Some None] for a
    failure. *)
Abbreviation run A := (option (option A)).

Definition rbind {A B} (e : run A) (k : A -> run B) : run B :=
  match e with None => None | Some None => Some None | Some (Some a) => k a end.

Declare Scope run_scope.
Delimit Scope run_scope with run.
Notation "x ←! e ; k" := (rbind e (fun x => k)) (at level 20, e at level 100, k at level 200) : run_scope.
Notation "' x ←! e ; k" := (rbind e (fun x => k)) (at level 20, x pattern, e at level 100, k at level 200) : run_scope.
Open Scope run_scope.

Definition PART_NAME_MAX_LEN : nat := 15.
Definition GPT_PART_RESERVED_SIZE : Z := 2 ^ 24.
Definition BACKUP_GPT_PART_MIN_RESERVED_SIZE : Z := 2 ^ 20.
Definition MAGIC_NUMER : Z := 0xD2ADA3F1.
Definition OU_DONE : Z := 0x55504544.
Definition SECTOR_SIZE : Z := 512.
Definition ToM : Z := 2048.

(** [is_back_up], [has_back_up] and [partition_type] keep the value 0; the fields of
    NAND chips are left out. *)
Record table_entry := mk_te {
  te_layout : bytes; te_name : bytes; te_start : Z; te_size : Z; te_invisible : bool; te_has_offset : bool;
  te_operation : bytes; te_burn_option : bytes;
}.

Definition set_place (st sz : Z) (e : table_entry) : table_entry :=
  mk_te (te_layout e) (te_name e) st sz (te_invisible e) (te_has_offset e) (te_operation e) (te_burn_option e).

(** ** Text *)

(** The part before the first [c]. *)
Fixpoint until (c : Z) (l : bytes) : bytes := match l with [] => [] | x :: l => if x =? c then [] else x :: until c l end.

(** fgets() of [n] characters at most. *)
Fixpoint fgets (n : nat) (t : bytes) : bytes * bytes :=
  match n, t with
  | O, _ | _, [] => ([], t)
  | S n, c :: t => if c =? CH_NL then ([c], t) else let '(l, r) := fgets n t in (c :: l, r)
  end.

Fixpoint read_lines (fuel : nat) (t : bytes) : list bytes :=
  match fuel, t with
  | O, _ | _, [] => []
  | S fuel, _ => let '(l, r) := fgets 511 t in l :: read_lines fuel r
  end.

(** The lines that are looked at: cut at a comment, and not empty. *)
Definition config_lines (t : bytes) : list bytes :=
  List.filter (fun l => negb (Nat.ltb (length l) 2)) (map (fun l => until CH_HASH (until 0 l)) (read_lines (length t) t)).

Definition isspace (c : Z) : bool := (c =? 32) || (9 <=? c) && (c <=? 13).

(** The strings that %s stores, one after the other. *)
Fixpoint words (cur l : bytes) : list bytes :=
  match l with
  | [] => if decide (cur = []) then [] else [cur]
  | c :: l => if isspace c then (if decide (cur = []) then words [] l else cur :: words [] l) else words (cur ++ [c]) l
  end.

(** parse_arg(): a comma at the end does not begin another field. *)
Fixpoint arg_fields (cur l : bytes) : list bytes :=
  match l with
  | [] => if decide (cur = []) then [] else [cur]
  | c :: l => if c =? CH_COMMA then cur :: arg_fields [] l else arg_fields (cur ++ [c]) l
  end.

(** strings of less than sixteen characters, so that long does not overflow *)
Definition atoi (s : bytes) : Z :=
  i32 (match s with
       | 45 :: s => - strtoull_loop s 0
       | 43 :: s => strtoull_loop s 0
       | _ => strtoull_loop s 0
       end).

(** A product of two int, as an unsigned long long. *)
Definition mul_int (a b : Z) : option Z := if decide (is_i32 (a * b)) then Some (u64 (a * b)) else None.

Definition is_unit (c big : Z) : bool := (c =? big) || (c =? big + 32).

(** A number with its unit: blocks, MiB, KiB. *)
Definition amount (block_size : Z) (s : bytes) : option Z :=
  match list.last s with
  | None => Some 0
  | Some c =>
      let t := removelast s in
      if is_unit c 66 then mul_int (atoi t) block_size
      else if is_unit c 77 then Some (u64 (u64 (atoi t) * 1024 * 1024))
      else if is_unit c 75 then mul_int (atoi t) 1024
      else Some (u64 (atoi s))
  end.

Definition aligned (block_size v : Z) : bool := Z.land v (u64 (block_size - 1)) =? 0.

Definition CH_AT : Z := 64.

Definition parse_layout (block_size : Z) (e : table_entry) : run table_entry :=
  let l := te_layout e in
  let lay := until CH_AT l in
  let has_offset := bool_decide (CH_AT ∈ l) in
  pos ← (if has_offset then amount block_size (drop (S (length lay)) l) else Some 0);
  if has_offset && negb (aligned block_size pos) then Some None
  else if decide (lay = []) then None
  else
    size ← amount block_size lay;
    if negb (aligned block_size size) then Some None
    else Some (Some (mk_te l (te_name e) (i64 pos) size (te_invisible e) has_offset (te_operation e) (te_burn_option e))).

Definition parse_name (e : table_entry) : table_entry :=
  match te_name e with
  | 64 :: n => mk_te (te_layout e) n (te_start e) (te_size e) true (te_has_offset e) (te_operation e) (te_burn_option e)
  | _ => e
  end.

(** ** Reading the configuration *)

(** "enhance", "-" *)
Definition str_enhance : bytes := [101; 110; 104; 97; 110; 99; 101].
Definition str_dash : bytes := [45].

(** The variables of main(); [entry] is [_entry]. *)
Record pt_state := mk_pt { cfg_table : list table_entry; entry_ : Z; half_size_entry : Z; pos1 : Z; chip_size : Z }.

(** The operations of an entry: the last one that is not "enhance" is kept. *)
Fixpoint operations (i : Z) (fs : list bytes) (op : bytes) (half : Z) : option (bytes * Z) :=
  match fs with
  | [] => Some (op, half)
  | f :: fs =>
      if decide (f = str_enhance) then if 0 <=? half then None else operations i fs op i
      else operations i fs f half
  end.

(** The entry of a line. *)
Definition scan_line (i : Z) (line : bytes) (half : Z) : run (table_entry * Z) :=
  let ws := take 4 (words [] line) in
  if negb (forallb (fun w => Nat.leb (length w) PART_NAME_MAX_LEN) ws) then None
  else match ws with
       | lay :: name :: op :: opt =>
           let fs := arg_fields [] op in
           if decide (8 < length fs)%nat then None
           else match operations i fs (hd [] fs) half with
                | None => Some None
                | Some (op, half) => Some (Some (mk_te lay name 0 0 false false op (hd [] opt), half))
                end
       | _ => Some None
       end.

Definition add_entry (e : table_entry) (p : pt_state) : pt_state := mk_pt (cfg_table p ++ [e]) (entry_ p) (half_size_entry p) (pos1 p) (chip_size p).

Definition read_entry (block_size : Z) (p : pt_state) (line : bytes) : run pt_state :=
  let i := Z.of_nat (length (cfg_table p)) in
  if decide (256 <= i) then None
  else
    '(e, half) ←! scan_line i line (half_size_entry p);
    let dash := bool_decide (te_layout e = str_dash) in
    if dash && (0 <=? entry_ p) then Some None
    else
      let p := mk_pt (cfg_table p) (if dash then i else entry_ p) half (pos1 p) (chip_size p) in
      if 0 <=? entry_ p then Some (Some (add_entry e p))
      else
        e ←! parse_layout block_size e;
        let sz := if half =? i then Z.shiftr (te_size e) 1 else te_size e in
        let chip := if half =? i then i64 (chip_size p - sz) else chip_size p in
        let st := if te_start e =? 0 then pos1 p else te_start e in
        let pos := i64 (st + sz) in
        if chip <? pos then Some None
        else Some (Some (mk_pt (cfg_table p ++ [set_place st sz e]) (entry_ p) half pos chip)).

Fixpoint read_entries (block_size : Z) (p : pt_state) (lines : list bytes) : run pt_state :=
  match lines with
  | [] => Some (Some p)
  | line :: lines => p ←! read_entry block_size p line; read_entries block_size p lines
  end.

(** ** The entries behind "-", from the last one on *)

(** [l] is in reverse order, [i] the number of its first entry. *)
Fixpoint place_back (block_size half i : Z) (l : list table_entry) (pos2 chip : Z) : run (list table_entry * Z * Z) :=
  match l with
  | [] => Some (Some ([], pos2, chip))
  | e :: l =>
      e ←! parse_layout block_size e;
      let sz := if i =? half then Z.shiftr (te_size e) 1 else te_size e in
      let chip := if i =? half then i64 (chip - sz) else chip in
      let pos2 := i64 ((if i =? half then chip else pos2) - sz) in
      '(l, p, chip) ←! place_back block_size half (i - 1) l pos2 chip;
      Some (Some (set_place (if te_start e =? 0 then pos2 else te_start e) sz e :: l, p, chip))
  end.

(** The layouts are parsed again when the entry "-" is the one of half size: the
    starts of the others are lost. *)
Fixpoint again_back (block_size : Z) (l : list table_entry) (pos2 : Z) : run (list table_entry * Z) :=
  match l with
  | [] => Some (Some ([], pos2))
  | e :: l =>
      e ←! parse_layout block_size e;
      '(l, p) ←! again_back block_size l (i64 (pos2 - te_size e));
      Some (Some (e :: l, p))
  end.

Definition place_rest (block_size : Z) (p : pt_state) : run (list table_entry) :=
  if entry_ p <? 0 then Some (Some (cfg_table p))
  else
    let k := Z.to_nat (entry_ p) in
    e ← cfg_table p !! k;
    '(back, pos2, chip) ←! place_back block_size (half_size_entry p) (Z.of_nat (length (cfg_table p)) - 1) (rev (drop (S k) (cfg_table p))) (chip_size p) (chip_size p);
    if pos2 <? pos1 p then Some None
    else
      let sz := u64 (pos2 - pos1 p) in
      if entry_ p =? half_size_entry p then
        let sz := Z.shiftr sz 1 in
        let chip := i64 (chip - sz) in
        '(back, pos2) ←! again_back block_size back chip;
        if pos2 <? pos1 p then Some None else Some (Some (take k (cfg_table p) ++ set_place (pos1 p) sz e :: rev back))
      else Some (Some (take k (cfg_table p) ++ set_place (pos1 p) sz e :: rev back)).

(** ** The files *)

(** "%-16s" *)
Definition pad16 (s : bytes) : bytes := s ++ replicate (16 - length s) 32.

Definition part_record (e : table_entry) : bytes :=
  replicate 4 0 ++ [131] ++ replicate 3 0 ++ le32 (u32 (Z.quot (te_start e) SECTOR_SIZE)) ++ le32 (u32 (te_size e / SECTOR_SIZE)).

Definition gen_emmc_part_table (es : list table_entry) : bytes := concat (map part_record es).

(** The name behind an '@'. *)
Definition list_name (e : table_entry) : bytes :=
  if decide (CH_AT ∈ te_name e) then drop (S (length (until CH_AT (te_name e)))) (te_name e) else te_name e.

Definition mib_start (e : table_entry) : Z := u32 (Z.quot (te_start e) (ToM * SECTOR_SIZE)).
Definition mib_size (e : table_entry) : Z := u32 (te_size e / (ToM * SECTOR_SIZE)).

(** "enhanced" *)
Definition str_enhanced : bytes := str_enhance ++ [100].

(** A start that follows from the partition before is written as 0. *)
Fixpoint part_list_lines (half i prev : Z) (es : list table_entry) : bytes :=
  match es with
  | [] => []
  | e :: es =>
      pad16 (list_name e) ++ [CH_COMMA] ++ (if prev =? mib_start e then [CH_0] else print_int (i32 (mib_start e))) ++ [9; CH_COMMA] ++
      print_int (i32 (mib_size e)) ++ [9; CH_COMMA] ++ pad16 (if half =? i then str_enhanced else []) ++ [CH_NL] ++
      part_list_lines half (i + 1) (u32 (mib_start e + mib_size e)) es
  end.

Definition gen_emmc_part_list (half : Z) (es : list table_entry) : bytes := str_GPT ++ [CH_NL] ++ part_list_lines half 0 0 es.

Definition human_units : list bytes := [[]; [75]; [77]; [71]].

Fixpoint human_loop (n i : nat) (size : Z) : Z * nat :=
  match n with
  | O => (size, i)
  | S n => if Z.land size 1023 =? 0 then human_loop n (S i) (Z.shiftr size 10) else (size, i)
  end.

Definition human_format (size : Z) : option bytes :=
  let '(v, i) := if 0 <? size then human_loop 4 0 size else (size, 0%nat) in
  u ← human_units !! i; Some (print_int (i64 v) ++ u).

(** " mtdparts=mv_nand:" *)
Definition str_mtdparts : bytes := [32; 109; 116; 100; 112; 97; 114; 116; 115; 61; 109; 118; 95; 110; 97; 110; 100; 58].

Fixpoint kernel_params (es : list table_entry) (acc : bytes) : option bytes :=
  match es with
  | [] => Some acc
  | e :: es =>
      sz ← human_format (te_size e);
      st ← human_format (u64 (te_start e));
      acc ← fits 2048 (acc ++ sz ++ (if te_has_offset e then CH_AT :: st else []) ++ [40] ++ te_name e ++ [41; CH_COMMA]);
      kernel_params es acc
  end.

(** An array of sixteen bytes that held [old]. *)
Definition name16 (s old : bytes) : bytes := s ++ 0 :: drop (S (length s)) old.

(** An entry of the version table of the tool's own version_table.h. *)
Definition vt_bytes (name : bytes) (major minor st blks st2 blks2 : Z) (ty : bytes) : bytes :=
  name ++ le32 (u32 minor) ++ le32 (u32 major) ++ le32 st ++ le32 blks ++ le32 0 ++ le32 0 ++ le32 st2 ++ le32 blks2 ++ ty.

(** "preboot", ".subimg", "default", "fixed", "first_burn" *)
Definition str_preboot : bytes := [112; 114; 101; 98; 111; 111; 116].
Definition str_subimg : bytes := [46; 115; 117; 98; 105; 109; 103].
Definition str_default : bytes := [100; 101; 102; 97; 117; 108; 116].
Definition str_fixed : bytes := [102; 105; 120; 101; 100].
Definition str_first_burn : bytes := [102; 105; 114; 115; 116; 95; 98; 117; 114; 110].

Definition img_name (e : table_entry) : bytes :=
  if decide (te_operation e <> str_default /\ te_operation e <> str_fixed) then te_operation e else te_name e ++ str_subimg.

(** One line of the list of images. *)
Definition image_line (i : Z) (e : table_entry) : bytes :=
  img_name e ++ CH_COMMA :: sd_name (i + 1) ++ (if decide (te_burn_option e = str_first_burn) then CH_COMMA :: str_first_burn else []) ++ [CH_NL].

Fixpoint image_lines (i : Z) (es : list table_entry) : bytes :=
  match es with [] => [] | e :: es => (if te_invisible e then [] else image_line i e) ++ image_lines (i + 1) es end.

(** "b1", "b2" *)
Definition preboot_lines : bytes :=
  str_preboot ++ str_subimg ++ CH_COMMA :: [98; 49; CH_NL] ++ str_preboot ++ str_subimg ++ CH_COMMA :: [98; 50; CH_NL].

Definition start_blk (block_size : Z) (e : table_entry) : Z := u32 (Z.quot (te_start e) block_size).
Definition num_blks (block_size : Z) (e : table_entry) : Z := u32 (te_size e / block_size).

Definition layout_line (block_size : Z) (e : table_entry) : bytes :=
  te_name e ++ [9; 9] ++ print_int (i32 (Z.quot (te_start e) block_size)) ++ [9] ++ print_int (i64 (te_size e / block_size)) ++ [CH_NL].

Definition layout_lines (block_size : Z) (es : list table_entry) : bytes :=
  str_preboot ++ [9; 9; 48; 9; 49; CH_NL] ++ concat (map (layout_line block_size) (List.filter (fun e => negb (te_invisible e)) es)).

Definition entry_bytes (block_size major minor : Z) (e : table_entry) : bytes :=
  vt_bytes (name16 (te_name e) (replicate 16 0)) major minor (start_blk block_size e) (num_blks block_size e) (start_blk block_size e) (num_blks block_size e) (replicate 16 0).

(** [stack] is what the variable [vt] held: its name is not cleared and its type is
    not set for the first entry. *)
Definition version_table_file (block_size major minor : Z) (stack : bytes) (es : list table_entry) : bytes :=
  le32 MAGIC_NUMER ++ le32 OU_DONE ++ le32 (1 + Z.of_nat (length es)) ++
  vt_bytes (name16 str_preboot (take 16 stack)) major minor 0 1 0 1 (take 16 (drop 48 stack)) ++ concat (map (entry_bytes block_size major minor) es).

Fixpoint overlaps (es : list table_entry) : bool :=
  match es with
  | e :: (e' :: _) as es => (u64 (te_start e') <? u64 (te_start e + te_size e)) || overlaps es
  | _ => false
  end.

Record outputs := mk_out { part_table : bytes; part_list : bytes; image_list : bytes; version_table : bytes; layout_file : bytes; kernel_param : bytes }.

(** What is left of the chip before the backup of the table. *)
Definition usable_size (chip : Z) : Z :=
  let tail := u64 chip mod GPT_PART_RESERVED_SIZE in
  i64 (chip - u32 (if tail <? BACKUP_GPT_PART_MIN_RESERVED_SIZE then tail + GPT_PART_RESERVED_SIZE else tail)).

Definition main (ver_major ver_minor block_size chip : Z) (cfg stack : bytes) : run outputs :=
  let chip := usable_size chip in
  if (block_size <=? 0) || (chip <=? 0) then Some None
  else
    p ←! read_entries block_size (mk_pt [] (-1) (-1) GPT_PART_RESERVED_SIZE chip) (config_lines cfg);
    es ←! place_rest block_size p;
    let list := gen_emmc_part_list (half_size_entry p) es in
    if overlaps es then Some None
    else
      let table := gen_emmc_part_table es in
      let es := map parse_name es in
      kp ← kernel_params es str_mtdparts;
      if existsb (fun e => negb (te_invisible e) && bool_decide (te_name e = str_preboot)) es then Some None
      else Some (Some (mk_out table list (preboot_lines ++ image_lines 0 es) (version_table_file block_size ver_major ver_minor stack es)
                         (layout_lines block_size es) (removelast kp ++ [0]))).
