(* ===== verification/PtConfig.v ===== *)
(** * What the partition tool makes of a configuration (parse_pt.c)

    For a configuration whose partitions have sizes in MiB, at most one of them
    being the rest of the chip: the entries lie one behind the other from 16 MiB on,
    and the lists are those of these entries. *)

From S2P Require Import Prelude EmmcText EmmcBurn EmmcLists ParsePt.

(** A line: the size in MiB, whether it is written as "-", the name, whether it has
    an '@' in front, and the operation. *)
Record centry := mk_ce { c_mib : Z; c_dash : bool; c_name : bytes; c_hidden : bool; c_op : bytes }.

Definition c_layout (c : centry) : bytes := if c_dash c then str_dash else print_dec 20 (c_mib c) ++ [77].
Definition c_token (c : centry) : bytes := if c_hidden c then CH_AT :: c_name c else c_name c.

Definition scans (line : bytes) (c : centry) : Prop := words [] line = [c_layout c; c_token c; c_op c].

Definition no_blank (f : bytes) : Prop := Forall (fun x => is_blank x = false) f.

Record entry_good (c : centry) : Prop := mk_good {
  eg_mib : 1 <= c_mib c < 2 ^ 31;
  eg_name : field_ok (c_name c) /\ no_blank (c_name c) /\ (length (c_token c) <= 15)%nat /\ free_of CH_AT (c_name c) /\ head (c_name c) <> Some CH_HASH /\ is_bytes (c_name c);
  eg_preboot : c_name c <> str_preboot;
  eg_op : field_ok (c_op c) /\ no_blank (c_op c) /\ (length (c_op c) <= 15)%nat /\ c_op c <> str_enhance;
}.

Fixpoint total (cs : list centry) : Z := match cs with [] => 0 | c :: cs => c_mib c + total cs end.

Definition MiB : Z := 2 ^ 20.

(** The entry before it has a place, and in its place. *)
Definition raw (c : centry) : table_entry := mk_te (c_layout c) (c_token c) 0 0 false false (c_op c) [].

Fixpoint placed (pos : Z) (cs : list centry) : list table_entry :=
  match cs with [] => [] | c :: cs => set_place (pos * MiB) (c_mib c * MiB) (raw c) :: placed (pos + c_mib c) cs end.

Lemma total_nonneg cs : Forall entry_good cs -> 0 <= total cs.
Proof. induction 1 as [|c cs [H _ _ _] _ IH]; cbn; lia. Qed.

Lemma mib_total_app l1 l2 : total (l1 ++ l2) = total l1 + total l2.
Proof. induction l1 as [|c l IH]; cbn; lia. Qed.

Lemma placed_app pos l1 l2 : placed pos (l1 ++ l2) = placed pos l1 ++ placed (pos + total l1) l2.
Proof.
  revert pos. induction l1 as [|c l IH]; intros pos; cbn; [now rewrite Z.add_0_r|]. rewrite IH. do 3 f_equal. lia.
Qed.

Lemma placed_length pos cs : length (placed pos cs) = length cs.
Proof. revert pos. induction cs as [|c cs IH]; intros pos; [done|]. cbn. now rewrite IH. Qed.

(** ** Numbers *)

Lemma atoi_ok t : Forall is_digit t -> dec_val t < 2 ^ 31 -> atoi t = dec_val t.
Proof.
  intros Ht Hv. assert (E : atoi t = i32 (simple_strtoull t)).
  { unfold atoi. destruct t as [|c t]; [done|]. apply Forall_cons_iff in Ht as [Hc _]. unfold is_digit in Hc.
    assert (Hd : c = 48 \/ c = 49 \/ c = 50 \/ c = 51 \/ c = 52 \/ c = 53 \/ c = 54 \/ c = 55 \/ c = 56 \/ c = 57) by lia.
    repeat destruct Hd as [-> | Hd]; try subst c; reflexivity. }
  rewrite E, strtoull_ok by (done || lia). apply i32_id. pose proof (dec_val_nonneg t Ht). unfold is_i32. lia.
Qed.

Lemma dec_free c n : 0 <= n < 10 ^ 20 -> ~ is_digit c -> free_of c (print_dec 20 n).
Proof. intros Hn Hc. destruct (print_dec_ok 20 n) as [H _]; [exact Hn|]. eapply list.Forall_impl; [exact H|]. intros x Hx ->. done. Qed.

Lemma until_free c l : free_of c l -> until c l = l.
Proof. induction 1 as [|x l Hx _ IH]; [done|]. cbn. rewrite (proj2 (Z.eqb_neq _ _) Hx). now rewrite IH. Qed.

Lemma not_elem c l : free_of c l -> ~ c ∈ l.
Proof. intros H Hc. unfold free_of in H. rewrite list.Forall_forall in H. by apply (H c). Qed.

Lemma aligned_mib k n : 0 <= k <= 20 -> 0 <= n -> aligned (2 ^ k) (n * MiB) = true.
Proof.
  intros Hk Hn. unfold aligned, MiB. assert (0 < 2 ^ k <= 2 ^ 20) by (split; [apply Z.pow_pos_nonneg; lia|apply Z.pow_le_mono_r; lia]). rewrite u64_id by lia.
  replace (2 ^ k - 1) with (Z.ones k) by (rewrite Z.ones_equiv; lia). rewrite Z.land_ones by lia. apply Z.eqb_eq.
  replace (2 ^ 20) with (2 ^ (20 - k) * 2 ^ k) by (rewrite <- Z.pow_add_r by lia; f_equal; lia). rewrite Z.mul_assoc. apply Z.mod_mul. lia.
Qed.

Lemma c_layout_known c : c_dash c = false -> c_layout c = print_dec 20 (c_mib c) ++ [77].
Proof. unfold c_layout. by intros ->. Qed.

(** A size in MiB. *)
Lemma parse_known k c : 0 <= k <= 20 -> entry_good c -> c_dash c = false -> parse_layout (2 ^ k) (raw c) = Some (Some (set_place 0 (c_mib c * MiB) (raw c))).
Proof.
  intros Hk [Hm _ _ _] Hd. unfold parse_layout. cbn [te_layout raw]. rewrite c_layout_known by done. destruct (print_dec_ok 20 (c_mib c) ltac:(lia)) as [Hds Hv].
  assert (Hf : free_of CH_AT (print_dec 20 (c_mib c) ++ [77])).
  { apply list.Forall_app. split; [apply dec_free; [lia|unfold is_digit, CH_AT; lia]|by repeat constructor]. }
  rewrite (bool_decide_eq_false_2 _ (not_elem _ _ Hf)), until_free by done. cbn [mbind option_bind andb]. rewrite decide_False by (intros [_ [=]]%app_nil).
  unfold amount. rewrite last_snoc, removelast_last. change (is_unit 77 66) with false. change (is_unit 77 77) with true. cbv iota.
  rewrite atoi_ok, Hv by (done || lia). cbn [mbind option_bind]. rewrite (u64_id (c_mib c)) by lia. replace (c_mib c * 1024 * 1024) with (c_mib c * MiB) by (unfold MiB; lia).
  rewrite (u64_id (c_mib c * MiB)) by (unfold MiB; lia). rewrite aligned_mib by lia. unfold set_place, raw. cbn. now rewrite c_layout_known.
Qed.

(** ** Lines *)

Lemma arg_one op : forall cur, free_of CH_COMMA op -> cur ++ op <> [] -> arg_fields cur op = [cur ++ op].
Proof.
  induction op as [|c op IH]; intros cur Hf Hne; cbn [arg_fields]; [rewrite app_nil_r in *; by rewrite decide_False|].
  apply Forall_cons_iff in Hf as [Hc Hf]. rewrite (proj2 (Z.eqb_neq _ _) Hc). rewrite IH; [now rewrite <- app_assoc|done|by destruct cur].
Qed.

Lemma layout_short c : entry_good c -> (length (c_layout c) <= 15)%nat.
Proof.
  intros [Hm _ _ _]. unfold c_layout. destruct (c_dash c); [cbn; lia|]. rewrite length_app. cbn [length].
  assert (H : (length (print_dec 20 (c_mib c)) <= 10)%nat); [|lia]. clear -Hm. revert Hm. generalize (c_mib c). intros n Hn.
  assert (G : forall d fuel n, 0 <= n < 10 ^ Z.of_nat (S d) -> (d < fuel)%nat -> (length (print_dec fuel n) <= S d)%nat).
  { clear. induction d as [|d IH]; intros fuel n Hn Hf; (destruct fuel as [|fuel]; [lia|]); cbn [print_dec]; destruct (n <? 10) eqn:E; bool_simpl; rewrite length_app; cbn [length]; try lia.
    rewrite Nat2Z.inj_succ, Z.pow_succ_r in Hn by lia.
    assert (0 <= n / 10 < 10 ^ Z.of_nat (S d)) by (split; [apply Z.div_pos; lia|apply Z.div_lt_upper_bound; lia]). specialize (IH fuel (n / 10) H ltac:(lia)). lia. }
  apply G; [|lia]. change (10 ^ Z.of_nat 10) with 10000000000. lia.
Qed.

Lemma scan_ok i line c : scans line c -> entry_good c -> scan_line i line (-1) = Some (Some (raw c, -1)).
Proof.
  intros Hs Hg. unfold scans in Hs. unfold scan_line. cbv zeta. rewrite Hs. change (take 4 [c_layout c; c_token c; c_op c]) with [c_layout c; c_token c; c_op c]. cbn [forallb]. pose proof (layout_short c Hg). destruct Hg as [_ (_ & _ & Hn & _) _ ([_ Hc _ Hne] & _ & Ho & He)].
  unfold PART_NAME_MAX_LEN. rewrite !(proj2 (Nat.leb_le _ _)) by done. cbn [andb negb]. cbv iota.
  rewrite arg_one by done. cbn [app length]. rewrite decide_False by lia.
  cbn [operations hd]. rewrite decide_False by done. done.
Qed.

Section Place.
Context (k C : Z) (Hk : 0 <= k <= 20) (HC : 0 <= C * MiB < 2 ^ 62).

Lemma i64_mib x : 0 <= x <= C -> i64 (x * MiB) = x * MiB.
Proof. intros H. unfold MiB in *. apply i64_small. lia. Qed.

Lemma read_known cs : forall ls p pos, Forall2 scans ls cs -> Forall entry_good cs -> Forall (fun c => c_dash c = false) cs ->
  entry_ p = -1 -> half_size_entry p = -1 -> pos1 p = pos * MiB -> chip_size p = C * MiB -> 0 <= pos -> pos + total cs <= C -> (length (cfg_table p) + length cs <= 256)%nat ->
  read_entries (2 ^ k) p ls = Some (Some (mk_pt (cfg_table p ++ placed pos cs) (-1) (-1) ((pos + total cs) * MiB) (C * MiB))).
Proof.
  induction cs as [|c cs IH]; intros ls p pos Hls Hg Hd He Hh Hp Hc Hpos Htot Hlen.
  - inversion Hls; subst. destruct p. cbn in *. subst. rewrite app_nil_r, Z.add_0_r. done.
  - inversion Hls as [|l ? ls' ? Hl Hls']; subst. apply Forall_cons_iff in Hg as [Hg1 Hg]. apply Forall_cons_iff in Hd as [Hd1 Hd]. cbn [read_entries total placed length] in *.
    pose proof (total_nonneg cs Hg). destruct Hg1 as [Hm Hname Hpb Hop] eqn:EH. clear EH. unfold read_entry. rewrite decide_False by lia. rewrite Hh, (scan_ok _ _ c Hl) by done. cbn [rbind].
    cbn [te_layout raw]. assert (Hdash : bool_decide (c_layout c = str_dash) = false).
    { apply bool_decide_eq_false_2. rewrite c_layout_known by done. intros E. apply (f_equal list.last) in E. rewrite last_snoc in E. discriminate. }
    rewrite Hdash, He. cbn [andb entry_ Z.leb Z.compare]. rewrite parse_known by done. cbn [rbind te_size set_place te_start].
    replace (-1 =? Z.of_nat (length (cfg_table p))) with false by (symmetry; apply Z.eqb_neq; lia). cbn [Z.eqb chip_size pos1 cfg_table]. rewrite Hp, Hc.
    replace (pos * MiB + c_mib c * MiB) with ((pos + c_mib c) * MiB) by (unfold MiB; lia). rewrite i64_mib by lia. rewrite (proj2 (Z.ltb_ge _ _)) by (unfold MiB; lia). cbn [rbind].
    rewrite (IH ls' _ (pos + c_mib c)); try done; try lia; [|cbn [cfg_table]; rewrite length_app; cbn [length]; lia].
    cbn [cfg_table]. rewrite <- app_assoc. cbn [app]. do 3 f_equal. lia.
Qed.

Lemma read_after cs : forall ls p, Forall2 scans ls cs -> Forall entry_good cs -> Forall (fun c => c_dash c = false) cs ->
  0 <= entry_ p -> half_size_entry p = -1 -> (length (cfg_table p) + length cs <= 256)%nat ->
  read_entries (2 ^ k) p ls = Some (Some (mk_pt (cfg_table p ++ map raw cs) (entry_ p) (-1) (pos1 p) (chip_size p))).
Proof.
  induction cs as [|c cs IH]; intros ls p Hls Hg Hd He Hh Hlen.
  - inversion Hls; subst. destruct p. cbn in *. subst. now rewrite app_nil_r.
  - inversion Hls as [|l ? ls' ? Hl Hls']; subst. apply Forall_cons_iff in Hg as [Hg1 Hg]. apply Forall_cons_iff in Hd as [Hd1 Hd]. cbn [read_entries map length] in *.
    unfold read_entry. rewrite decide_False by lia. rewrite Hh, (scan_ok _ _ c Hl) by done. cbn [rbind te_layout raw].
    assert (Hdash : bool_decide (c_layout c = str_dash) = false).
    { apply bool_decide_eq_false_2. rewrite c_layout_known by done. intros E. apply (f_equal list.last) in E. rewrite last_snoc in E. discriminate. }
    rewrite Hdash. cbn [andb entry_]. rewrite (proj2 (Z.leb_le _ _)) by done. cbn [rbind]. rewrite IH; try done; [|cbn; rewrite length_app; cbn [length]; lia].
    cbn. now rewrite <- app_assoc.
Qed.

Lemma place_back_ok cs : forall i E, Forall entry_good cs -> Forall (fun c => c_dash c = false) cs -> Z.of_nat (length cs) <= i + 1 -> total cs <= E <= C ->
  place_back (2 ^ k) (-1) i (rev (map raw cs)) (E * MiB) (C * MiB) = Some (Some (rev (placed (E - total cs) cs), (E - total cs) * MiB, C * MiB)).
Proof.
  induction cs as [|c cs IH] using rev_ind; intros i E Hg Hd Hi HE; [cbn; now rewrite Z.sub_0_r|].
  apply list.Forall_app in Hg as [Hg Hg1%Forall_cons_iff], Hd as [Hd Hd1%Forall_cons_iff]. destruct Hg1 as [Hg1 _], Hd1 as [Hd1 _]. rewrite mib_total_app in *. cbn [total] in *. rewrite length_app in Hi. cbn [length] in Hi.
  pose proof (total_nonneg cs Hg). pose proof (eg_mib c Hg1).
  rewrite map_app, rev_app_distr. cbn [map rev app place_back]. rewrite parse_known by done. cbn [rbind te_size set_place te_start]. rewrite (proj2 (Z.eqb_neq i (-1))) by lia.
  replace (E * MiB - c_mib c * MiB) with ((E - c_mib c) * MiB) by (unfold MiB; lia). rewrite i64_mib by lia. rewrite IH by (done || lia). cbn [rbind Z.eqb].
  rewrite placed_app, rev_app_distr. cbn [placed rev app]. replace (E - c_mib c - total cs) with (E - (total cs + (c_mib c + 0))) by lia.
  replace (E - (total cs + (c_mib c + 0)) + total cs) with (E - c_mib c) by lia. done.
Qed.

Lemma read_split p l1 l2 : read_entries (2 ^ k) p (l1 ++ l2) = rbind (read_entries (2 ^ k) p l1) (fun p => read_entries (2 ^ k) p l2).
Proof. revert p. induction l1 as [|l l1 IH]; intros p; [done|]. cbn [app read_entries]. destruct (read_entry (2 ^ k) p l) as [[q|]|]; cbn [rbind]; [apply IH|done|done]. Qed.

(** At most one partition is the rest of the chip. *)
Inductive fills : list centry -> Prop :=
| fills_part cs : Forall (fun c => c_dash c = false) cs -> 16 + total cs <= C -> fills cs
| fills_all a d b : Forall (fun c => c_dash c = false) a -> c_dash d = true -> Forall (fun c => c_dash c = false) b -> 16 + total (a ++ d :: b) = C -> fills (a ++ d :: b).

(** The partitions lie one behind the other from 16 MiB on. *)
Lemma entries_ok ls cs : Forall2 scans ls cs -> Forall entry_good cs -> fills cs -> (length cs <= 256)%nat -> exists p,
  read_entries (2 ^ k) (mk_pt [] (-1) (-1) GPT_PART_RESERVED_SIZE (C * MiB)) ls = Some (Some p) /\ half_size_entry p = -1 /\ place_rest (2 ^ k) p = Some (Some (placed 16 cs)).
Proof.
  intros Hls Hg Hf Hlen. destruct Hf as [cs Hd Ht|a d b Hda Hd Hdb Ht].
  - eexists. rewrite (read_known cs ls _ 16) by (done || lia). split; [reflexivity|]. split; [done|]. reflexivity.
  - apply Forall2_app_inv_r in Hls as (la & lb & Ha & Hb & ->). apply Forall2_cons_inv_r in Hb as (l & lb' & Hl & Hb' & ->). apply list.Forall_app in Hg as [Hga Hg]. apply Forall_cons_iff in Hg as [Hgd Hgb].
    rewrite mib_total_app in Ht. cbn [total] in Ht. rewrite length_app in Hlen. cbn [length] in Hlen. pose proof (total_nonneg a Hga). pose proof (total_nonneg b Hgb). pose proof (eg_mib d Hgd).
    rewrite read_split, (read_known a la _ 16) by (done || cbn [length cfg_table]; lia). cbn [rbind cfg_table app read_entries].
    unfold read_entry at 1. cbn [cfg_table half_size_entry entry_ pos1 chip_size]. rewrite decide_False by (rewrite placed_length; lia). rewrite (scan_ok _ l d Hl Hgd). cbn [rbind te_layout raw].
    assert (Hdash : bool_decide (c_layout d = str_dash) = true) by (apply bool_decide_eq_true_2; unfold c_layout; by rewrite Hd). rewrite Hdash. cbn [andb Z.leb Z.compare].
    rewrite (proj2 (Z.leb_le _ _)) by lia. cbn [rbind]. set (p := add_entry _ _). eexists. rewrite (read_after b lb' p) by (done || cbn; rewrite ?length_app, ?placed_length; cbn [length]; lia).
    split; [reflexivity|]. split; [done|]. unfold place_rest. unfold p. cbn [entry_ cfg_table add_entry half_size_entry pos1 chip_size]. rewrite placed_length, (proj2 (Z.ltb_ge _ _)) by lia. rewrite Nat2Z.id.
    rewrite <- app_assoc. cbn [app]. assert (Hlk : (placed 16 a ++ raw d :: map raw b) !! length a = Some (raw d)) by (rewrite <- (placed_length 16 a), lookup_app_r, Nat.sub_diag by lia; done).
    rewrite Hlk. cbn [mbind option_bind]. assert (Hdr : drop (S (length a)) (placed 16 a ++ raw d :: map raw b) = map raw b).
    { rewrite <- (placed_length 16 a). change (placed 16 a ++ raw d :: map raw b) with (placed 16 a ++ [raw d] ++ map raw b). rewrite app_assoc. apply drop_app_length'. rewrite length_app. cbn [length]. lia. }
    rewrite Hdr. rewrite (place_back_ok b _ C) by (done || rewrite ?length_app, ?length_cons', ?map_length, ?placed_length; lia). cbn [rbind].
    rewrite (proj2 (Z.ltb_ge _ _)) by (unfold MiB; lia). rewrite (proj2 (Z.eqb_neq _ _)) by lia. rewrite rev_involutive. rewrite <- (placed_length 16 a) at 1. rewrite take_app_length.
    rewrite placed_app. cbn [placed]. do 3 f_equal. f_equal; [f_equal|f_equal; lia].
    replace ((C - total b) * MiB - (16 + total a) * MiB) with (c_mib d * MiB) by (unfold MiB; lia). apply u64_id. unfold MiB. lia.
Qed.

End Place.

(** ** The run *)

Lemma overlaps_placed cs : forall pos, overlaps (placed pos cs) = false.
Proof.
  induction cs as [|c cs IH]; intros pos; [done|]. cbn [placed overlaps]. destruct cs as [|c' cs]; [done|]. cbn [placed] in IH |- *. specialize (IH (pos + c_mib c)).
  apply orb_false_iff. split; [|exact IH]. cbn [te_start te_size set_place]. replace (pos * MiB + c_mib c * MiB) with ((pos + c_mib c) * MiB) by lia. apply Z.ltb_irrefl.
Qed.

(** The entries after their names have been looked at. *)
Definition named (c : centry) (e : table_entry) : table_entry :=
  mk_te (te_layout e) (c_name c) (te_start e) (te_size e) (c_hidden c) (te_has_offset e) (te_operation e) (te_burn_option e).

Fixpoint final (pos : Z) (cs : list centry) : list table_entry :=
  match cs with [] => [] | c :: cs => named c (set_place (pos * MiB) (c_mib c * MiB) (raw c)) :: final (pos + c_mib c) cs end.

Lemma parse_names cs : forall pos, Forall entry_good cs -> map parse_name (placed pos cs) = final pos cs.
Proof.
  induction cs as [|c cs IH]; intros pos Hg; [done|]. apply Forall_cons_iff in Hg as [[_ (_ & _ & _ & Hat & _) _ _] Hg]. cbn [placed final map]. rewrite IH by done. f_equal.
  unfold parse_name, named, set_place, raw, c_token. cbn [te_layout te_name te_start te_size te_has_offset te_operation te_burn_option te_invisible].
  destruct (c_hidden c); [done|]. destruct (c_name c) as [|x n]; [done|]. apply Forall_cons_iff in Hat as [Hx _]. unfold CH_AT in Hx.
  destruct x as [|[q|q|]|q]; try done. do 6 (destruct q as [q|q|]; try done).
Qed.

Lemma no_preboot cs : forall pos, Forall entry_good cs -> existsb (fun e => negb (te_invisible e) && bool_decide (te_name e = str_preboot)) (final pos cs) = false.
Proof.
  induction cs as [|c cs IH]; intros pos Hg; [done|]. apply Forall_cons_iff in Hg as [[_ _ Hp _] Hg]. cbn [final existsb named te_invisible te_name]. rewrite IH by done.
  rewrite (bool_decide_eq_false_2 _ Hp), andb_false_r. done.
Qed.

(** A configuration for a chip with [C] MiB before the backup of the table. *)
Record config_ok (k C chip : Z) (cfg : bytes) (cs : list centry) : Prop := mk_config_ok {
  co_block : 9 <= k <= 20;
  co_chip : usable_size chip = C * MiB /\ 0 < C * MiB < 2 ^ 62;
  co_lines : Forall2 scans (config_lines cfg) cs;
  co_good : Forall entry_good cs;
  co_fills : fills C cs;
  co_num : (length cs <= 126)%nat;
  co_params : is_Some (kernel_params (final 16 cs) str_mtdparts);
}.

Lemma main_ok major minor k C chip cfg stack cs : config_ok k C chip cfg cs -> exists kp,
  main major minor (2 ^ k) chip cfg stack =
    Some (Some (mk_out (gen_emmc_part_table (placed 16 cs)) (gen_emmc_part_list (-1) (placed 16 cs)) (preboot_lines ++ image_lines 0 (final 16 cs))
                  (version_table_file (2 ^ k) major minor stack (final 16 cs)) (layout_lines (2 ^ k) (final 16 cs)) kp)).
Proof.
  intros [Hk [Hu HC] Hls Hg Hf Hn [kp Hkp]]. unfold main. rewrite Hu. pose proof (Z.pow_pos_nonneg 2 k ltac:(lia) ltac:(lia)). rewrite !(proj2 (Z.leb_gt _ _)) by lia. cbn [orb].
  destruct (entries_ok k C ltac:(lia) ltac:(lia) _ cs Hls Hg Hf ltac:(lia)) as (p & -> & Hh & Hp). cbn [rbind]. rewrite Hp. cbn [rbind]. rewrite overlaps_placed, parse_names by done.
  rewrite Hkp. cbn [mbind option_bind]. rewrite no_preboot by done. rewrite Hh. by eexists.
Qed.

(** ** The list of partitions *)

Lemma squeezed_app a b : squeezed (a ++ b) = squeezed a ++ squeezed b.
Proof. apply filter_app. Qed.

Lemma squeezed_cons c l : squeezed (c :: l) = if is_blank c then squeezed l else c :: squeezed l.
Proof. unfold squeezed. cbn. by destruct (is_blank c). Qed.

Lemma squeezed_id f : no_blank f -> squeezed f = f.
Proof. unfold squeezed. induction 1 as [|c f Hc _ IH]; [done|]. cbn. rewrite Hc. cbn. now rewrite IH. Qed.

Lemma squeezed_pad f : no_blank f -> squeezed (pad16 f) = f.
Proof.
  intros H. assert (Hr : forall n, squeezed (replicate n 32) = []) by (induction n as [|n IH]; [done|exact IH]). unfold pad16. rewrite squeezed_app, squeezed_id, Hr by done. apply app_nil_r.
Qed.

Lemma dec_no_blank n : 0 <= n < 10 ^ 20 -> no_blank (print_dec 20 n).
Proof.
  intros Hn. destruct (print_dec_ok 20 n) as [H _]; [exact Hn|]. eapply list.Forall_impl; [exact H|]. intros x Hx. unfold is_digit in Hx. unfold is_blank.
  rewrite !(proj2 (Z.eqb_neq _ _)) by lia. done.
Qed.

(** The lines that U-Boot reads. *)
Fixpoint specs (prev pos : Z) (cs : list centry) : list part_spec :=
  match cs with
  | [] => []
  | c :: cs => mk_spec (c_name c) (if prev =? pos then [CH_0] else print_dec 20 pos) (print_dec 20 (c_mib c)) (Some []) :: specs (pos + c_mib c) (pos + c_mib c) cs
  end.

Lemma list_name_ok c e : entry_good c -> te_name e = c_token c -> list_name e = c_name c.
Proof.
  intros [_ (_ & _ & _ & Hat & _) _ _] He. unfold list_name. rewrite He. unfold c_token. destruct (c_hidden c).
  - rewrite decide_True by apply list_elem_of_here. cbn. done.
  - rewrite decide_False by by apply not_elem. done.
Qed.

Lemma print_int_ok n : 0 <= n < 2 ^ 31 -> print_int (i32 n) = print_dec 20 n.
Proof. intros H. unfold print_int. rewrite i32_id by (unfold is_i32; lia). rewrite (proj2 (Z.ltb_ge _ _)) by lia. done. Qed.

Lemma mib_ok pos c : 0 <= pos < 2 ^ 31 -> 1 <= c_mib c < 2 ^ 31 ->
  mib_start (set_place (pos * MiB) (c_mib c * MiB) (raw c)) = pos /\ mib_size (set_place (pos * MiB) (c_mib c * MiB) (raw c)) = c_mib c.
Proof.
  intros H1 H2. unfold mib_start, mib_size. cbn [te_start te_size set_place]. change (ToM * SECTOR_SIZE) with MiB. rewrite Z.quot_mul, Z.div_mul by (unfold MiB; lia).
  split; apply u32_id; unfold is_u32; lia.
Qed.

Lemma part_list_text cs : forall i prev pos, Forall entry_good cs -> 0 <= i -> 0 <= pos -> pos + total cs < 2 ^ 31 ->
  squeezed (part_list_lines (-1) i prev (placed pos cs)) = spec_lines (specs prev pos cs).
Proof.
  induction cs as [|c cs IH]; intros i prev pos Hg Hi Hpos Ht; [done|]. apply Forall_cons_iff in Hg as [Hg1 Hg]. cbn [total] in Ht. pose proof (total_nonneg cs Hg). pose proof (eg_mib c Hg1) as Hm.
  cbn [placed part_list_lines specs]. destruct (mib_ok pos c ltac:(lia) Hm) as [-> ->]. rewrite (list_name_ok c) by done. rewrite (proj2 (Z.eqb_neq (-1) i)) by lia.
  rewrite (u32_id (pos + c_mib c)) by (unfold is_u32; lia). rewrite !print_int_ok by lia. unfold spec_lines. cbn [map concat]. fold (spec_lines (specs (pos + c_mib c) (pos + c_mib c) cs)).
  rewrite <- (IH (i + 1) (pos + c_mib c) (pos + c_mib c)) by (done || lia). destruct (eg_name c Hg1) as (_ & Hnb & _).
  unfold spec_text, line_text, spec_fields, spec_comma. cbn [sp_name sp_start sp_size sp_opt app join last_comma].
  assert (Hmb : no_blank (print_dec 20 (c_mib c))) by (apply dec_no_blank; lia).
  assert (Es : squeezed (if prev =? pos then [CH_0] else print_dec 20 pos) = if prev =? pos then [CH_0] else print_dec 20 pos).
  { destruct (prev =? pos); [done|]. apply squeezed_id, dec_no_blank. lia. }
  set (sm := print_dec 20 (c_mib c)) in *. set (sp := if prev =? pos then [CH_0] else _) in *. clearbody sm sp.
  repeat first [rewrite squeezed_app | rewrite squeezed_cons]. rewrite !squeezed_pad, (squeezed_id sm), Es by (done || constructor). cbn [is_blank CH_COMMA CH_NL Z.eqb Pos.eqb orb app].
  repeat rewrite <- app_assoc. cbn [app]. repeat rewrite <- app_assoc. reflexivity.
Qed.

Lemma specs_ok cs : forall prev pos, Forall entry_good cs -> 0 <= pos -> pos + total cs < 2 ^ 31 -> Forall spec_ok (specs prev pos cs).
Proof.
  induction cs as [|c cs IH]; intros prev pos Hg Hpos Ht; [constructor|]. apply Forall_cons_iff in Hg as [Hg1 Hg]. cbn [total] in Ht. pose proof (total_nonneg cs Hg). pose proof (eg_mib c Hg1) as Hm.
  cbn [specs]. constructor; [|apply IH; done || lia]. destruct (eg_name c Hg1) as (Hf & _ & Hl & _ & Hh & _).
  assert (Hne : forall n, print_dec 20 n <> []) by (intros n E; cbn [print_dec] in E; apply app_nil in E as [_ [=]]).
  split; cbn [sp_name sp_start sp_size sp_opt]; [|..|done].
  - split; [done|]. split; [|done]. unfold PART_NAME_LEN. unfold c_token in Hl. destruct (c_hidden c); cbn [length] in Hl; lia.
  - destruct (prev =? pos); [split; [by repeat constructor|done]|]. split; [apply print_dec_ok; lia|apply Hne].
  - split; [apply print_dec_ok; lia|apply Hne].
Qed.

Lemma specs_extent cs : forall prev pos, Forall entry_good cs -> extent (specs prev pos cs) = total cs.
Proof.
  induction cs as [|c cs IH]; intros prev pos Hg; [done|]. apply Forall_cons_iff in Hg as [Hg1 Hg]. cbn [specs extent total sp_size]. rewrite IH by done. pose proof (eg_mib c Hg1).
  rewrite (proj2 (print_dec_ok 20 (c_mib c) ltac:(lia))). done.
Qed.
