(* ===== verification/PtInstall.v ===== *)
(** * From the partition tool to the installed images
    (parse_pt.c, crc/main.c, emmcburn.c, load_vt.c)

    The lists that the tool makes from a configuration install every image at the
    block that the version table of the same run names; and where the tool and the
    programs that read its files disagree. *)

From S2P Require Import Prelude Disk UbootMmc TsData Crc32 FlashAdaptor LoadVt EmmcText EmmcBurn EmmcLists EmmcWrite EmmcImages EmmcParts EmmcInstall ParsePt PtConfig.

(** ** The partitions *)

Fixpoint disk_parts (pos : Z) (cs : list centry) : list disk_partition_t :=
  match cs with [] => [] | c :: cs => mk_disk_part (pos * 2048) (c_mib c * 2048) 512 (c_name c) :: disk_parts (pos + c_mib c) cs end.

Lemma layout_specs cs : forall prev pos, Forall entry_good cs -> layout pos (specs prev pos cs) = disk_parts pos cs.
Proof.
  induction cs as [|c cs IH]; intros prev pos Hg; [done|]. apply Forall_cons_iff in Hg as [Hg1 Hg]. pose proof (eg_mib c Hg1). cbn [specs layout disk_parts sp_name sp_size].
  rewrite (proj2 (print_dec_ok 20 (c_mib c) ltac:(lia))). now rewrite IH.
Qed.

Lemma disk_parts_lookup cs : forall pos i c, cs !! i = Some c ->
  disk_parts pos cs !! i = Some (mk_disk_part ((pos + total (take i cs)) * 2048) (c_mib c * 2048) 512 (c_name c)).
Proof.
  induction cs as [|c0 cs IH]; intros pos [|i] c Hi; try done; cbn in Hi.
  - injection Hi as <-. cbn. do 2 f_equal. lia.
  - cbn [disk_parts lookup list_lookup firstn total]. rewrite (IH _ i c Hi). do 3 f_equal. cbn [total]. lia.
Qed.

Lemma disk_parts_from cs : forall pos, Forall entry_good cs -> 16 <= pos ->
  Forall (fun p => pos * 2048 <= start p /\ GPT_LBA_NUM <= start p /\ 1 <= size p /\ start p + size p <= (pos + total cs) * 2048 /\
    is_bytes (pname p) /\ no_nul (pname p) /\ (length (pname p) < PARTNAME_SZ)%nat) (disk_parts pos cs).
Proof.
  unfold GPT_LBA_NUM, PARTNAME_SZ. induction cs as [|c cs IH]; intros pos Hg Hpos; [constructor|]. apply Forall_cons_iff in Hg as [Hg1 Hg]. pose proof (eg_mib c Hg1). pose proof (total_nonneg cs Hg).
  destruct (eg_name c Hg1) as ([Hnn _ _ _] & _ & Hl & _ & _ & Hb). cbn [disk_parts total]. constructor; cbn [start size pname].
  - split_and!; try lia; try done. unfold c_token in Hl. destruct (c_hidden c); cbn [length] in Hl; lia.
  - eapply list.Forall_impl; [apply (IH (pos + c_mib c)); done || lia|]. cbn. intros p (P1 & P2 & P3 & P4 & P5). split_and!; lia || apply P5.
Qed.

Lemma disk_parts_order cs : forall pos, Forall entry_good cs -> 16 <= pos -> ForallOrdPairs (fun p q => start p + size p <= start q) (disk_parts pos cs).
Proof.
  induction cs as [|c cs IH]; intros pos Hg Hpos; [constructor|]. apply Forall_cons_iff in Hg as [Hg1 Hg]. pose proof (eg_mib c Hg1). cbn [disk_parts]. constructor; [|apply IH; done || lia].
  eapply list.Forall_impl; [apply (disk_parts_from cs (pos + c_mib c)); done || lia|]. cbn. lia.
Qed.

Lemma disk_parts_ok lba cs : Forall entry_good cs -> (length cs <= 126)%nat -> (16 + total cs) * 2048 <= lba - GPT_LBA_NUM -> (16 + total cs) * 2048 < 2 ^ 31 -> parts_ok lba (disk_parts 16 cs).
Proof.
  intros Hg Hn Hl Hb. split.
  - assert (E : forall pos, length (disk_parts pos cs) = length cs) by (clear; induction cs as [|c cs IH]; intros pos; [done|]; cbn; now rewrite IH). rewrite E. unfold MAX_GPT_PT_NUM. lia.
  - eapply list.Forall_impl; [by apply (disk_parts_from cs 16)|]. cbn. intros p (P1 & P2 & P3 & P4 & P5). split_and!; lia || apply P5.
  - by apply disk_parts_order.
Qed.

(** ** The images *)

Definition img (c : centry) : bytes := if decide (c_op c <> str_default /\ c_op c <> str_fixed) then c_op c else c_name c ++ str_subimg.

Definition job_of (files : bytes -> bytes) (im : bytes) : job :=
  if decide (im = str_erase) then Erase else if decide (im = str_format) then Format else Burn (files im).

Fixpoint image_tasks (files : bytes -> bytes) (i : nat) (pos : Z) (cs : list centry) : list task :=
  match cs with
  | [] => []
  | c :: cs =>
      (if c_hidden c then [] else [mk_task (img c) (Sd i) (pos * 2048) (c_mib c * 2048) (job_of files (img c))]) ++ image_tasks files (S i) (pos + c_mib c) cs
  end.

Definition preboot_img : bytes := str_preboot ++ str_subimg.

Definition boot_task (files : bytes -> bytes) (cap h : Z) : task := mk_task preboot_img (Boot h) 0 cap (Burn (files preboot_img)).

Lemma img_ok c : entry_good c -> field_ok (img c) /\ no_blank (img c) /\ (length (img c) < 32)%nat.
Proof.
  intros [_ ([N1 N2 N3 N4] & Nb & Nl & _) _ (Of & Ob & Ol & _)]. unfold img. destruct (decide _); [split; [done|]; split; [done|lia]|].
  assert (Hl : (length (c_name c) <= 15)%nat) by (unfold c_token in Nl; destruct (c_hidden c); cbn [length] in Nl; lia). split; [split|split].
  - apply list.Forall_app. split; [done|by repeat constructor].
  - apply list.Forall_app. split; [done|by repeat constructor].
  - apply list.Forall_app. split; [done|by repeat constructor].
  - by destruct (c_name c).
  - apply list.Forall_app. split; [done|by repeat constructor].
  - rewrite length_app. cbn. lia.
Qed.

Lemma image_lines_text files cs : forall i pos pos', Forall entry_good cs ->
  image_lines (Z.of_nat i) (final pos cs) = lines_of (map (fun t => entry_fields (task_entry t)) (image_tasks files i pos' cs)).
Proof.
  induction cs as [|c cs IH]; intros i pos pos' Hg; [done|]. apply Forall_cons_iff in Hg as [Hg1 Hg]. cbn [final image_lines image_tasks]. unfold lines_of. rewrite !map_app, concat_app.
  fold (lines_of (map (fun t => entry_fields (task_entry t)) (image_tasks files (S i) (pos' + c_mib c) cs))). rewrite <- (IH (S i) (pos + c_mib c) (pos' + c_mib c)) by done.
  replace (Z.of_nat (S i)) with (Z.of_nat i + 1) by lia. f_equal. cbn [te_invisible named]. destruct (c_hidden c); [done|]. cbn [map concat]. rewrite app_nil_r.
  unfold image_line, img_name, line_of, entry_fields, task_entry. cbn [te_burn_option te_operation te_name named set_place raw what target t_img t_part place_name]. fold (img c).
  rewrite decide_False by done. cbn [join app]. now rewrite <- app_assoc.
Qed.

Lemma image_tasks_parts files cs : forall i pos, Forall (fun t => exists j, t_part t = Sd j /\ (i <= j)%nat) (image_tasks files i pos cs) /\ NoDup (map t_part (image_tasks files i pos cs)) /\ (length (image_tasks files i pos cs) <= length cs)%nat.
Proof.
  induction cs as [|c cs IH]; intros i pos; [split; [constructor|split; [constructor|done]]|]. cbn [image_tasks]. destruct (IH (S i) (pos + c_mib c)) as (H1 & H2 & H3).
  assert (H1' : Forall (fun t => exists j, t_part t = Sd j /\ (i <= j)%nat) (image_tasks files (S i) (pos + c_mib c) cs)).
  { eapply list.Forall_impl; [exact H1|]. intros t (j & E & Hj). exists j. split; [done|lia]. }
  destruct (c_hidden c); cbn [app map length]; [split; [done|]; split; [done|lia]|]. split; [constructor; [by exists i|done]|]. split; [|lia]. apply list.NoDup_cons. split; [|done].
  intros Hi. apply list_elem_of_In, in_map_iff in Hi as (t & Et & Ht). rewrite list.Forall_forall in H1. destruct (H1 t) as (j & Ej & Hj); [by apply list_elem_of_In|]. rewrite Ej in Et. injection Et as ->. lia.
Qed.

Lemma image_tasks_in files cs : forall i pos k c, cs !! k = Some c -> c_hidden c = false ->
  mk_task (img c) (Sd (i + k)) ((pos + total (take k cs)) * 2048) (c_mib c * 2048) (job_of files (img c)) ∈ image_tasks files i pos cs.
Proof.
  induction cs as [|c0 cs IH]; intros i pos [|k] c Hk Hh; try done; cbn in Hk; cbn [image_tasks]; apply elem_of_app.
  - injection Hk as ->. rewrite Hh. left. cbn. rewrite Nat.add_0_r, Z.add_0_r. apply list_elem_of_here.
  - right. specialize (IH (S i) (pos + c_mib c0) k c Hk Hh). cbn [firstn total]. replace (i + S k)%nat with (S i + k)%nat by lia.
    replace (pos + (c_mib c0 + total (take k cs))) with (pos + c_mib c0 + total (take k cs)) by lia. exact IH.
Qed.

(** ** The version table *)

Lemma name16_length s old : (length s <= 15)%nat -> length old = 16%nat -> length (name16 s old) = 16%nat.
Proof. intros Hs Ho. unfold name16. rewrite length_app. cbn [length]. rewrite length_drop. lia. Qed.

Lemma vt_length name major minor st blks st2 blks2 ty : length name = 16%nat -> length ty = 16%nat -> length (vt_bytes name major minor st blks st2 blks2 ty) = 64%nat.
Proof. intros Hn Ht. unfold vt_bytes. rewrite !length_app, Hn, Ht. done. Qed.

Lemma vt_start pre name major minor st blks st2 blks2 ty rest : length name = 16%nat -> 0 <= st < 2 ^ 32 ->
  field (pre ++ vt_bytes name major minor st blks st2 blks2 ty ++ rest) (length pre + 24) 4 = st.
Proof.
  intros Hn Hst. unfold vt_bytes. set (head := pre ++ name ++ le32 (u32 minor) ++ le32 (u32 major)).
  assert (Hl : (length pre + 24)%nat = length head) by (unfold head; rewrite !length_app, Hn; done). rewrite Hl.
  transitivity (le_val (le32 st)); [|by apply le_val_le32].
  rewrite <- (field_here head (le32 st) (le32 blks ++ le32 0 ++ le32 0 ++ le32 st2 ++ le32 blks2 ++ ty ++ rest)). f_equal. unfold head. now rewrite <- !app_assoc.
Qed.

Lemma entries_start bs major minor es : forall pre i e, Forall (fun e => (length (te_name e) <= 15)%nat) es -> es !! i = Some e ->
  field (pre ++ concat (map (entry_bytes bs major minor) es)) (length pre + 64 * i + 24) 4 = start_blk bs e.
Proof.
  induction es as [|e0 es IH]; intros pre i e Hes Hi; [done|]. apply Forall_cons_iff in Hes as [He0 Hes]. pose proof (name16_length _ (replicate 16 0) He0 eq_refl) as Hn. destruct i as [|i].
  - injection Hi as ->. cbn [map concat]. replace (length pre + 64 * 0 + 24)%nat with (length pre + 24)%nat by lia. unfold entry_bytes at 1. apply vt_start; [done|]. unfold start_blk. apply u32_range.
  - cbn [map concat]. rewrite app_assoc. cbn in Hi. rewrite <- (IH (pre ++ entry_bytes bs major minor e0) i e Hes Hi). f_equal. rewrite length_app. unfold entry_bytes. rewrite vt_length by done. lia.
Qed.

Lemma table_start bs major minor stack es i e : length stack = 64%nat -> Forall (fun e => (length (te_name e) <= 15)%nat) es -> es !! i = Some e ->
  field (version_table_file bs major minor stack es) (12 + 64 * S i + 24) 4 = start_blk bs e.
Proof.
  intros Hs Hes Hi. unfold version_table_file. set (first := vt_bytes _ _ _ _ _ _ _ _). set (hd := le32 MAGIC_NUMER ++ le32 OU_DONE ++ le32 (1 + Z.of_nat (length es)) ++ first).
  assert (Hh : length hd = 76%nat).
  { unfold hd, first. rewrite !length_app, vt_length; [done| |]; [apply name16_length; [cbn; lia|rewrite length_take; lia]|rewrite length_take, length_drop; lia]. }
  replace (_ ++ _ ++ _ ++ _ ++ _) with (hd ++ concat (map (entry_bytes bs major minor) es)) by (unfold hd; now rewrite <- !app_assoc).
  rewrite <- (entries_start bs major minor es hd i e Hes Hi). f_equal. lia.
Qed.

Lemma final_lookup cs : forall pos i c, cs !! i = Some c ->
  final pos cs !! i = Some (named c (set_place ((pos + total (take i cs)) * MiB) (c_mib c * MiB) (raw c))).
Proof.
  induction cs as [|c0 cs IH]; intros pos [|i] c Hi; try done; cbn in Hi.
  - injection Hi as <-. cbn [final lookup list_lookup firstn total]. now rewrite Z.add_0_r.
  - cbn [final lookup list_lookup firstn total]. rewrite (IH _ i c Hi). do 3 f_equal. lia.
Qed.

Lemma final_names cs : forall pos, Forall entry_good cs -> Forall (fun e => (length (te_name e) <= 15)%nat) (final pos cs).
Proof.
  induction cs as [|c cs IH]; intros pos Hg; [constructor|]. apply Forall_cons_iff in Hg as [Hg1 Hg]. cbn [final]. constructor; [|by apply IH].
  destruct (eg_name c Hg1) as (_ & _ & Hl & _). cbn [named te_name]. unfold c_token in Hl. destruct (c_hidden c); cbn [length] in Hl; lia.
Qed.

Lemma total_take cs i c : Forall entry_good cs -> cs !! i = Some c -> 0 <= total (take i cs) /\ total (take i cs) + c_mib c <= total cs.
Proof.
  intros Hg Hi. rewrite <- (take_drop_middle cs i c Hi) in Hg. apply list.Forall_app in Hg as [Hg1 Hg2%Forall_cons_iff]. split; [by apply total_nonneg|].
  rewrite <- (take_drop_middle cs i c Hi) at 2. rewrite mib_total_app. cbn [total]. pose proof (total_nonneg _ (proj2 Hg2)). lia.
Qed.

(** The block of the version table is the byte where the partition begins. *)
Lemma named_block k pos c : 9 <= k <= 20 -> 0 <= pos -> pos * 2048 < 2 ^ 31 ->
  start_blk (2 ^ k) (named c (set_place (pos * MiB) (c_mib c * MiB) (raw c))) * 2 ^ k = pos * MiB.
Proof.
  intros Hk Hp Hb. unfold start_blk. cbn [te_start named set_place]. assert (E : pos * MiB = pos * 2 ^ (20 - k) * 2 ^ k).
  { unfold MiB. rewrite <- Z.mul_assoc, <- Z.pow_add_r by lia. do 2 f_equal. lia. }
  assert (0 < 2 ^ k) by (apply Z.pow_pos_nonneg; lia). rewrite E, Z.quot_mul by lia. f_equal. apply u32_id. unfold is_u32.
  assert (0 < 2 ^ (20 - k) <= 2 ^ 11) by (split; [apply Z.pow_pos_nonneg; lia|apply Z.pow_le_mono_r; lia]). nia.
Qed.

(** ** The installation *)

Lemma no_nul_squeezed t : no_nul (squeezed t) -> no_nul t.
Proof.
  unfold squeezed. induction t as [|c t IH]; [done|]. cbn. destruct (is_blank c) eqn:E; cbn [negb].
  - intros H. constructor; [|by apply IH]. intros ->. done.
  - intros H. apply no_nul_cons in H as [Hc H]. constructor; [done|by apply IH].
Qed.

Lemma part_text_no_nul p ps : Forall spec_ok (p :: ps) -> no_nul (part_text p ps).
Proof.
  intros H. unfold part_text. apply list.Forall_app. split; [by repeat constructor|]. constructor; [done|]. unfold spec_lines. induction H as [|q qs Hq _ IH]; [constructor|].
  cbn [map concat]. rewrite !list.Forall_app. split; [|exact IH]. split; [|by repeat constructor]. apply line_text_ok. by apply spec_fields_ok.
Qed.

Lemma lines_no_nul ts : Forall (fun t => field_ok (t_img t)) ts -> Forall (fun t => field_ok (place_name (t_part t))) ts ->
  no_nul (lines_of (map (fun t => entry_fields (task_entry t)) ts)).
Proof.
  unfold lines_of. intros H1 H2. induction ts as [|t ts IH]; [constructor|]. apply Forall_cons_iff in H1 as [H1 H1'], H2 as [H2 H2']. cbn [map concat]. apply list.Forall_app. split; [|by apply IH].
  unfold line_of. apply list.Forall_app. split; [|by repeat constructor]. apply join_line. constructor; [done|]. constructor; [done|constructor].
Qed.

Lemma lines_no_blank ts : Forall (fun t => no_blank (t_img t)) ts -> Forall (fun t => no_blank (place_name (t_part t))) ts ->
  no_blank (lines_of (map (fun t => entry_fields (task_entry t)) ts)).
Proof.
  unfold lines_of. intros H1 H2. induction ts as [|t ts IH]; [constructor|]. apply Forall_cons_iff in H1 as [H1 H1'], H2 as [H2 H2']. cbn [map concat]. apply list.Forall_app. split; [|by apply IH].
  unfold line_of, entry_fields, task_entry. cbn [what target join]. rewrite !list.Forall_app. split; [|by repeat constructor]. split; [done|]. by constructor.
Qed.

Lemma place_name_good w : (match w with Boot h => h = 1 \/ h = 2 | Sd k => Z.of_nat k < 2 ^ 31 end) -> field_ok (place_name w) /\ no_blank (place_name w).
Proof.
  destruct w as [h|k]; cbn [place_name].
  - intros [-> | ->]; (split; [split|]); by repeat constructor.
  - intros Hk. destruct (print_dec_ok 20 (Z.of_nat k + 1) ltac:(lia)) as [Hd _]. pose proof (dec_no_blank (Z.of_nat k + 1) ltac:(lia)) as Hb. unfold sd_name. cbn [app].
    split; [|by repeat constructor]. unfold is_digit in Hd. split; [..|done]; do 2 (constructor; [done|]); (eapply list.Forall_impl; [exact Hd|]); unfold CH_COMMA, CH_NL; cbn; lia.
Qed.

Section Tool.
Context {D : Type} {ops : blk D} {bo : burner D} `{!ReliableBlk ops DEV_EMMC} `{!ReliableBurner ops bo} `{!PartitioningBurner ops bo}.

(** The images of the partitions that are burnt are there, and fit. *)
Record images_ok (src path : bytes) (files : bytes -> bytes) (cs : list centry) : Prop := mk_images_ok {
  is_preboot : imgload bo src (path ++ preboot_img) = Some (files preboot_img) /\ image_ok (ops := ops) (bo := bo) (files preboot_img) (capacity_boot bo / dev_blksz ops);
  is_images : Forall (fun c => c_hidden c = false -> img c <> str_erase -> img c <> str_format ->
    imgload bo src (path ++ img c) = Some (files (img c)) /\ image_ok (ops := ops) (bo := bo) (files (img c)) (c_mib c * 2048)) cs;
}.

Definition tool_tasks (files : bytes -> bytes) (cs : list centry) : list task :=
  boot_task files (capacity_boot bo / dev_blksz ops) 1 :: boot_task files (capacity_boot bo / dev_blksz ops) 2 :: image_tasks files 0 16 cs.

Lemma image_tasks_inv files cs t : forall i pos, t ∈ image_tasks files i pos cs -> exists k c, cs !! k = Some c /\ c_hidden c = false /\
  t = mk_task (img c) (Sd (i + k)) ((pos + total (take k cs)) * 2048) (c_mib c * 2048) (job_of files (img c)).
Proof.
  induction cs as [|c cs IH]; intros i pos Ht; [by apply not_elem_of_nil in Ht|]. cbn [image_tasks] in Ht. apply elem_of_app in Ht as [Ht|Ht].
  - destruct (c_hidden c) eqn:E; [by apply not_elem_of_nil in Ht|]. apply list_elem_of_singleton in Ht as ->. exists 0%nat, c. cbn [firstn total]. rewrite Nat.add_0_r, Z.add_0_r. done.
  - apply IH in Ht as (k & c' & Hk & Hh & ->). exists (S k), c'. split; [done|]. split; [done|]. cbn [firstn total]. f_equal; [f_equal|]; lia.
Qed.

Lemma tool_jobs src path files cs : dev_blksz ops = 512 -> Forall entry_good cs -> images_ok src path files cs -> 0 <= capacity_boot bo / dev_blksz ops < 2 ^ 31 ->
  Forall (job_ok (ops := ops) (bo := bo) (disk_parts 16 cs) src path) (tool_tasks files cs).
Proof.
  intros Hbs Hg [[P1 P2] Hi] Hcap. assert (Hboot : forall h, h = 1 \/ h = 2 -> job_ok (ops := ops) (bo := bo) (disk_parts 16 cs) src path (boot_task files (capacity_boot bo / dev_blksz ops) h)).
  { intros h Hh. split; cbn [t_img t_part t_start t_cnt t_job boot_task]; [|done|done]. split; [split; by repeat constructor|]. cbn. lia. }
  constructor; [by apply Hboot; left|]. constructor; [by apply Hboot; right|]. apply list.Forall_forall. intros t Ht. apply image_tasks_inv in Ht as (k & c & Hk & Hh & ->).
  rewrite list.Forall_forall in Hg, Hi. pose proof (list_elem_of_lookup_2 _ _ _ Hk) as Hin. destruct (img_ok c (Hg c Hin)) as (F1 & _ & F2).
  split; cbn [t_img t_part t_start t_cnt t_job]; [done| |].
  - eexists. split; [apply (disk_parts_lookup cs 16 k c Hk)|done].
  - unfold job_of. destruct (decide (img c = str_erase)) as [E|N1]; [done|]. destruct (decide (img c = str_format)) as [E|N2]; [done|]. destruct (Hi c Hin Hh N1 N2). by split_and!.
Qed.

Lemma tool_lines files cs : Forall entry_good cs -> (length cs <= 126)%nat ->
  preboot_lines ++ image_lines 0 (final 16 cs) = lines_of (map (fun t => entry_fields (task_entry t)) (tool_tasks files cs)) /\
  no_nul (preboot_lines ++ image_lines 0 (final 16 cs)) /\ squeezed (preboot_lines ++ image_lines 0 (final 16 cs)) = preboot_lines ++ image_lines 0 (final 16 cs).
Proof.
  intros Hg Hn. assert (E : preboot_lines ++ image_lines 0 (final 16 cs) = lines_of (map (fun t => entry_fields (task_entry t)) (tool_tasks files cs))).
  { change 0 with (Z.of_nat 0) at 1. rewrite (image_lines_text files cs 0 16 16) by done. reflexivity. }
  split; [exact E|]. rewrite E. assert (Hall : Forall (fun t => (field_ok (t_img t) /\ no_blank (t_img t)) /\ (field_ok (place_name (t_part t)) /\ no_blank (place_name (t_part t)))) (tool_tasks files cs)).
  { constructor; [split; [split; [split|]; by repeat constructor|apply place_name_good; by left]|]. constructor; [split; [split; [split|]; by repeat constructor|apply place_name_good; by right]|].
    apply list.Forall_forall. intros t Ht. apply image_tasks_inv in Ht as (k & c & Hk & Hh & ->). cbn [t_img t_part]. rewrite list.Forall_forall in Hg.
    destruct (img_ok c (Hg c (list_elem_of_lookup_2 _ _ _ Hk))) as (F1 & F2 & _). split; [done|]. apply place_name_good. pose proof (lookup_lt_Some _ _ _ Hk). lia. }
  split; [apply lines_no_nul|apply squeezed_id, lines_no_blank]; (eapply list.Forall_impl; [exact Hall|]); intros t [[? ?] [? ?]]; done.
Qed.

Lemma tool_places files cs : (length cs <= 126)%nat -> NoDup (map t_part (tool_tasks files cs)) /\ Z.of_nat (length (tool_tasks files cs)) <= MAX_GPT_PT_NUM.
Proof.
  intros Hn. destruct (image_tasks_parts files cs 0 16) as (H1 & H2 & H3). unfold tool_tasks, MAX_GPT_PT_NUM. cbn [map length]. split; [|lia].
  assert (Hb : forall h, Boot h ∉ map t_part (image_tasks files 0 16 cs)).
  { intros h Hi. apply list_elem_of_In, in_map_iff in Hi as (t & Et & Ht). rewrite list.Forall_forall in H1. destruct (H1 t) as (j & Ej & _); [by apply list_elem_of_In|]. congruence. }
  apply list.NoDup_cons. split; [|apply list.NoDup_cons; split; [apply Hb|done]]. intros H. apply elem_of_cons in H as [[=]|H]. by apply Hb in H.
Qed.

End Tool.

(** C15: The lists that the tool makes from a configuration - sizes in whole MiB, at most one
    partition that takes the rest, no explicit offsets, enhanced areas or first-burn
    images - installed by U-Boot in a session that has read no partition table yet, put the
    pre-bootloader into both boot partitions and every image at the block that the
    version table of the same run names for its partition. *)
Theorem pt_installs {D : Type} {ops : blk D} {bo : burner D} `{!ReliableBlk ops DEV_EMMC} `{!ReliableBurner ops bo} `{!PartitioningBurner ops bo}
    env_get strtol spi table sparse s src part_file img_list path nm k C chip cfg cs major minor stack files :
  active_dev env_get strtol spi = DEV_EMMC -> dev_blksz ops = 512 -> plain (bmmc s) -> (0 <= curr_part s -> hw_selected (bdev s) (curr_part s)) -> g_gpt_e s = [] ->
  (length part_file < 256)%nat -> (length img_list < 256)%nat -> get_image_path_and_name img_list = Some (path, nm) ->
  config_ok k C chip cfg cs -> cs <> [] -> length stack = 64%nat ->
  (16 + total cs) * 2048 <= rp_lba - GPT_LBA_NUM -> (16 + total cs) * 2048 < 2 ^ 31 -> 0 <= capacity_boot bo / dev_blksz ops < 2 ^ 31 ->
  images_ok (ops := ops) (bo := bo) src path files cs ->
  exists out, main major minor (2 ^ k) chip cfg stack = Some (Some out) /\
    (imgload bo src part_file = Some (part_list out) -> (length (part_list out) + 2 <= LIST_SIZE)%nat ->
     imgload bo src img_list = Some (image_list out) -> (length (image_list out) < LIST_SIZE)%nat ->
     exists s', do_list2emmc ops bo env_get strtol spi table sparse s src None [part_file; img_list] (true, true) = Some (s', 0) /\
       (forall h, h = 1 \/ h = 2 -> rng (disk s' h) 0 (length (files preboot_img)) = files preboot_img) /\
       forall i c, cs !! i = Some c -> c_hidden c = false -> img c <> str_erase -> img c <> str_format ->
         rng (disk s' 0) (field (version_table out) (12 + 64 * S i + 24) 4 * 2 ^ k) (length (files (img c))) = files (img c)).
Proof.
  intros Hact Hbs Hpl Hup Hg0 Hl1 Hl2 Hpath Hco Hne Hst Hlba Hb31 Hcap Him. destruct (main_ok major minor k C chip cfg stack cs Hco) as (kp & Em). eexists. split; [exact Em|].
  cbn [part_list image_list version_table]. intros Hp1 Hp2 Hi1 Hi2. pose proof (co_good _ _ _ _ _ Hco) as Hg. pose proof (co_num _ _ _ _ _ Hco) as Hn.
  destruct (tool_lines (ops := ops) (bo := bo) files cs Hg Hn) as (T1 & T2 & T3). destruct (tool_places (ops := ops) (bo := bo) files cs Hn) as [T4 T5]. pose proof (total_nonneg cs Hg) as Ht0.
  destruct cs as [|c0 cs0]; [done|]. set (cs := c0 :: cs0) in *. assert (Esp : exists p ps, specs 0 16 cs = p :: ps /\ sp_start p = [49; 54]) by (unfold cs; cbn [specs]; by eexists _, _).
  destruct Esp as (p & ps & Esp & Est). assert (Hsp : Forall spec_ok (p :: ps)) by (rewrite <- Esp; apply specs_ok; [done|lia|lia]).
  assert (Hlay : layout (dec_val (sp_start p)) (p :: ps) = disk_parts 16 cs) by (rewrite Est, <- Esp; by apply layout_specs).
  assert (Etext : squeezed (gen_emmc_part_list (-1) (placed 16 cs)) = part_text p ps).
  { unfold gen_emmc_part_list, part_text. rewrite !squeezed_app, part_list_text, Esp by (done || lia). done. }
  destruct (list2emmc_ok (ops := ops) (bo := bo) env_get strtol spi table sparse s src part_file img_list (gen_emmc_part_list (-1) (placed 16 cs)) (preboot_lines ++ image_lines 0 (final 16 cs)) p ps path nm (tool_tasks (ops := ops) (bo := bo) files cs))
    as (s' & E & B); try done.
  - apply no_nul_squeezed. rewrite Etext. by apply part_text_no_nul.
  - rewrite Est, <- Esp, specs_extent by done. change (dec_val [49; 54]) with 16. lia.
  - rewrite Hlay. by apply disk_parts_ok.
  - by rewrite T3.
  - rewrite Hlay. by apply tool_jobs.
  - exists s'. split; [exact E|]. rewrite list.Forall_forall in B. split.
    + intros h Hh. assert (Hin : boot_task files (capacity_boot bo / dev_blksz ops) h ∈ tool_tasks (ops := ops) (bo := bo) files cs) by (destruct Hh as [-> | ->]; [apply list_elem_of_here|apply list_elem_of_further, list_elem_of_here]).
      exact (B _ Hin).
    + intros i c Hi Hh N1 N2. pose proof (image_tasks_in files cs 0 16 i c Hi Hh) as Hin. apply (list_elem_of_further _ (boot_task files (capacity_boot bo / dev_blksz ops) 2)), (list_elem_of_further _ (boot_task files (capacity_boot bo / dev_blksz ops) 1)) in Hin.
      pose proof (B _ Hin) as Bi. unfold burnt in Bi. cbn [t_job t_part place_hw t_start] in Bi. unfold job_of in Bi. rewrite !decide_False in Bi by done.
      rewrite (table_start _ _ _ _ _ i _ Hst (final_names cs 16 Hg) (final_lookup cs 16 i c Hi)). destruct (total_take cs i c Hg Hi). pose proof (proj1 (list.Forall_forall _ _) Hg c (list_elem_of_lookup_2 _ _ _ Hi)) as Hgc. pose proof (eg_mib c Hgc).
      rewrite named_block by (pose proof (co_block _ _ _ _ _ Hco); lia). rewrite Hbs in Bi. replace ((16 + total (take i cs)) * MiB) with ((16 + total (take i cs)) * 2048 * 512) by (unfold MiB; lia). exact Bi.
Qed.

(** ** A run of the tool and the installation of its lists

    A chip of 512 MiB:
      "1M  k  default # kernel", "-  @h  default", "2M x erase", "3M  y  default" *)
Definition cfg_text : bytes :=
  [49; 77; 32; 32; 107; 32; 100; 101; 102; 97; 117; 108; 116; 32; 35; 32; 107; 10] ++ [35; 10] ++
  [45; 9; 64; 104; 9; 100; 101; 102; 97; 117; 108; 116; 10] ++ [50; 77; 32; 120; 32; 101; 114; 97; 115; 101; 10] ++ [51; 77; 32; 121; 32; 100; 101; 102; 97; 117; 108; 116; 10].

Definition cfg_line1 : bytes := take 14 cfg_text.
Definition cfg_a : list centry := [mk_ce 1 false [107] false str_default].
Definition cfg_d : centry := mk_ce 474 true [104] true str_default.
Definition cfg_b : list centry := [mk_ce 2 false [120] false str_erase; mk_ce 3 false [121] false str_default].

Definition cfg_stack : bytes := replicate 64 255.

(** What the tool writes. *)
Definition tool_out (cfg : bytes) : outputs := match main 1 2 (2 ^ 12) (2 ^ 29) cfg cfg_stack with Some (Some o) => o | _ => mk_out [] [] [] [] [] [] end.

Definition cfg_files (path : bytes) : option bytes :=
  if decide (path = name_parts) then Some (part_list (tool_out cfg_text)) else if decide (path = name_images) then Some (image_list (tool_out cfg_text)) else Some sample_file.

Lemma entry_good_short c : 1 <= c_mib c < 2 ^ 31 -> c_name c = [107] \/ c_name c = [104] \/ c_name c = [120] \/ c_name c = [121] -> c_op c = str_default \/ c_op c = str_erase -> entry_good c.
Proof.
  intros Hm Hn Ho. assert (E : exists x, c_name c = [x] /\ 100 <= x <= 122) by (destruct Hn as [H|[H|[H|H]]]; eexists; (split; [exact H|lia])). destruct E as (x & E & Hx).
  split; [done| | |].
  - unfold c_token. rewrite E. unfold CH_AT, CH_HASH. split; [split; [..|done]; (constructor; [unfold CH_COMMA, CH_NL; lia|constructor])|]. split; [constructor; [unfold is_blank; rewrite !(proj2 (Z.eqb_neq _ _)) by lia; done|constructor]|].
    split; [destruct (c_hidden c); cbn; lia|]. split; [constructor; [lia|constructor]|]. split; [cbn; intros [= ->]; lia|]. constructor; [unfold is_u8; lia|constructor].
  - rewrite E. done.
  - destruct Ho as [-> | ->]; (split; [split; by repeat constructor|split; [by repeat constructor|split; [cbn; lia|done]]]).
Qed.

Lemma cfg_config : config_ok 12 496 (2 ^ 29) cfg_text (cfg_a ++ cfg_d :: cfg_b).
Proof.
  split.
  - lia.
  - by vm_compute.
  - assert (E : config_lines cfg_text = [cfg_line1; take 13 (drop 20 cfg_text); take 11 (drop 33 cfg_text); take 13 (drop 44 cfg_text)]) by by vm_compute.
    rewrite E. repeat apply Forall2_cons_2; [by vm_compute..|apply Forall2_nil_2].
  - repeat apply Forall_cons; try apply Forall_nil; (apply entry_good_short; [cbn; lia|cbn; tauto|cbn; tauto]).
  - by apply fills_all; repeat constructor.
  - cbn. lia.
  - vm_compute. by eexists.
Qed.

Lemma tool_out_ok : main 1 2 (2 ^ 12) (2 ^ 29) cfg_text cfg_stack = Some (Some (tool_out cfg_text)).
Proof. by vm_compute. Qed.

Lemma cfg_images : images_ok (ops := ram3_ops no_table) (bo := ram_burner cfg_files) [] [] (fun _ => sample_file) (cfg_a ++ cfg_d :: cfg_b).
Proof.
  split.
  - split; [done|]. apply sample_image_ok. by vm_compute.
  - repeat apply Forall_cons; try apply Forall_nil; cbn; intros _ H1 H2; try done; (split; [done|apply sample_image_ok; cbn; lia]).
Qed.

Lemma pt_installs_witness : exists s', do_list2emmc (ram3_ops no_table) (ram_burner cfg_files) no_env no_num false None no_sparse sample_burn [] None [name_parts; name_images] (true, true) = Some (s', 0) /\
  rng (disk (ops := ram3_ops no_table) (bo := ram_burner cfg_files) s' 0) (field (version_table (tool_out cfg_text)) (12 + 64 * 1 + 24) 4 * 2 ^ 12) (length sample_file) = sample_file.
Proof.
  destruct (pt_installs (ops := ram3_ops no_table) (bo := ram_burner cfg_files) no_env no_num false None no_sparse sample_burn [] name_parts name_images [] name_images
    12 496 (2 ^ 29) cfg_text (cfg_a ++ cfg_d :: cfg_b) 1 2 cfg_stack (fun _ => sample_file)) as (out & E & H); try reflexivity.
  - by left.
  - cbn. lia.
  - cbn. lia.
  - cbn. lia.
  - exact cfg_config.
  - done.
  - by vm_compute.
  - by vm_compute.
  - exact cfg_images.
  - rewrite tool_out_ok in E. apply (inj Some), (inj Some) in E. subst out. destruct H as (s' & E & _ & Hi); [done|by apply Nat.leb_le; vm_compute|done|by apply Nat.ltb_lt; vm_compute|].
    exists s'. split; [exact E|]. by apply (Hi 0%nat (mk_ce 1 false [107] false str_default)).
Defined.

(** ** Where the tool and the readers of its files disagree *)

Lemma crc_zeros n : crc32_ref 0xffffffff (replicate n 0) = 0xffffffff.
Proof. unfold crc32_ref. rewrite Z.lxor_nilpotent. assert (E : fold_left crc_byte (replicate n 0) 0 = 0) by (induction n as [|n IH]; [done|exact IH]). now rewrite E. Qed.

Lemma name16_bytes s old : is_bytes s -> is_bytes old -> is_bytes (name16 s old).
Proof. intros Hs Ho. unfold name16. apply is_bytes_app. split; [done|]. constructor; [done|]. by apply Forall_drop. Qed.

Lemma vt_bytes_bytes name major minor st blks st2 blks2 ty : is_bytes name -> is_bytes ty -> is_bytes (vt_bytes name major minor st blks st2 blks2 ty).
Proof. intros Hn Ht. unfold vt_bytes. rewrite !is_bytes_app. split_and!; done || apply le32_bytes. Qed.

Lemma entries_bytes bs major minor cs : forall pos, Forall entry_good cs ->
  is_bytes (concat (map (entry_bytes bs major minor) (final pos cs))) /\ length (concat (map (entry_bytes bs major minor) (final pos cs))) = (64 * length cs)%nat.
Proof.
  induction cs as [|c cs IH]; intros pos Hg; [split; [constructor|done]|]. pose proof (final_names (c :: cs) pos Hg) as Hn. apply Forall_cons_iff in Hg as [Hg1 Hg]. destruct (IH (pos + c_mib c) Hg) as [IH1 IH2]. destruct (eg_name c Hg1) as (_ & _ & _ & _ & _ & Hb).
  cbn [final] in Hn |- *. apply Forall_cons_iff in Hn as [Hn _]. cbn [map concat length]. rewrite length_app, IH2. unfold entry_bytes at 1 3. split.
  - apply is_bytes_app. split; [|done]. apply vt_bytes_bytes; [apply name16_bytes; [done|by apply const_bytes]|by apply const_bytes].
  - rewrite vt_length; [lia|by apply name16_length|done].
Qed.

Section Misread.
Context {D : Type} (g : flash_adaptor D) (bs major minor : Z) (stack : bytes) (c : centry) (cs : list centry).
Hypotheses (Hg : Forall entry_good (c :: cs)) (Hlen : (length cs <= 27)%nat) (Hstack : length stack = 64%nat) (Hbytes : is_bytes stack).

Let t := version_table_file bs major minor stack (final 16 (c :: cs)).
Let n := (2 + length cs)%nat.

Lemma final_length l : forall pos, length (final pos l) = length l.
Proof. induction l as [|x l IH]; intros pos; [done|]. cbn. now rewrite IH. Qed.

Lemma tool_table_bytes : is_bytes t /\ length t = (12 + 64 * n)%nat /\ exists first rest,
  t = le32 MAGIC_NUMER ++ le32 OU_DONE ++ le32 (Z.of_nat n) ++ first ++ name16 (c_name c) (replicate 16 0) ++ le32 (u32 minor) ++ rest /\ length first = 64%nat.
Proof.
  unfold t, version_table_file. set (first := vt_bytes _ _ _ _ _ _ _ _). destruct (entries_bytes bs major minor (c :: cs) 16 Hg) as [He Hl].
  assert (Hf : is_bytes first /\ length first = 64%nat).
  { split; [apply vt_bytes_bytes; [apply name16_bytes; [apply sample_bytes_ok; reflexivity|by apply Forall_take]|by apply Forall_take, Forall_drop]|].
    apply vt_length; [apply name16_length; [cbn; lia|rewrite length_take; lia]|rewrite length_take, length_drop; lia]. }
  rewrite final_length. replace (1 + Z.of_nat (length (c :: cs))) with (Z.of_nat n) by (unfold n; cbn [length]; lia). split_and!.
  - rewrite !is_bytes_app. split_and!; try apply le32_bytes; [apply Hf|exact He].
  - rewrite !length_app, Hl, (proj2 Hf). unfold n. cbn [length le32]. lia.
  - cbn [final map concat]. unfold entry_bytes at 1, vt_bytes at 1. cbn [te_name named]. rewrite <- !app_assoc. eexists first, _. split; [reflexivity|apply Hf].
Qed.

(** The table, the checksum and zeroes behind them. *)
Definition padded (pad : nat) : bytes := (t ++ le32 (Z.lxor (crc32_ref 0 t) 0xffffffff)) ++ replicate pad 0.

Lemma padded_ok pad addr fl vts : (Z.to_nat 2048 <= length t + 4 + pad)%nat -> exists fl' e0 e1 es ids,
  parse_version_table g addr (padded pad) fl vts = Some (fl', zip (e0 :: e1 :: es) ids, 0) /\ length ids = n /\
  LoadVt.name e1 = drop 4 (name16 (c_name c) (replicate 16 0)) ++ le32 (u32 minor).
Proof.
  intros Hpad. destruct tool_table_bytes as (Hb & Hl & first & rest & Et & Hf). set (sl := t ++ le32 (Z.lxor (crc32_ref 0 t) 0xffffffff)).
  assert (Hsl : length sl = (16 + 64 * n)%nat) by (unfold sl; rewrite length_app, Hl; cbn [length le32]; lia).
  assert (Hbuf : is_bytes (padded pad)) by (unfold padded; rewrite !is_bytes_app; split_and!; [done|apply le32_bytes|by apply const_bytes]).
  assert (Hm : field (padded pad) 0 4 = LoadVt.MAGIC_NUMBER) by (unfold padded; rewrite Et, <- !app_assoc; reflexivity).
  assert (Hnum : field (padded pad) 8 4 = Z.of_nat n) by (unfold padded; rewrite Et, <- !app_assoc; exact (le_val_le32 (Z.of_nat n) ltac:(unfold is_u32, n; lia))).
  assert (Hcrc : crc32_ref 0 (take (Z.to_nat (16 + Z.of_nat n * 68)) (padded pad)) = 0xffffffff).
  { unfold padded. fold sl. replace (Z.to_nat (16 + Z.of_nat n * 68)) with (length sl + 4 * n)%nat by lia. rewrite take_app_add', take_replicate by done. rewrite crc32_ref_app. unfold sl. rewrite crc32_ref_appended by done. apply crc_zeros. }
  assert (Hlb : length (padded pad) = (16 + 64 * n + pad)%nat) by (unfold padded; fold sl; rewrite length_app, length_replicate; lia).
  destruct (parse_ok g addr (padded pad) fl vts) as (fl' & vts' & r & Hp & Hok); [done|lia|rewrite Hnum; lia|]. unfold parsed in Hok.
  rewrite decide_True in Hok by (unfold table_good; rewrite Hnum; split_and!; [lia|done|done]).
  - destruct Hok as (-> & ids & -> & Hids & _). unfold table_entries in *. rewrite Hnum, Nat2Z.id in *. rewrite entries_of_length in Hids. rewrite Hp. eexists fl', _, _, _, ids. split; [unfold n, entries_of; cbn [plus seq map]; reflexivity|]. split; [exact Hids|].
    unfold entry_of, vte_of_bytes, padded. cbn [LoadVt.name]. unfold sizeof_version_table, sizeof_ver_table_entry. rewrite take_take. change (16 `min` 68)%nat with 16%nat. rewrite Et, <- !app_assoc.
    set (nm := name16 _ _). assert (Hnm : length nm = 16%nat) by (apply name16_length; [|done]; apply Forall_cons_iff in Hg as [Hg1 _]; destruct (eg_name c Hg1) as (_ & _ & Hx & _); unfold c_token in Hx; destruct (c_hidden c); cbn [length] in Hx; lia).
    set (tail := rest ++ _). set (h := le32 MAGIC_NUMER ++ le32 OU_DONE ++ le32 (Z.of_nat n) ++ first). assert (Hh : length h = 76%nat) by (unfold h; rewrite !length_app, Hf; reflexivity).
    transitivity (take 16 (drop (length h + 4) (h ++ nm ++ le32 (u32 minor) ++ tail))); [unfold h at 2; rewrite Hh, <- !app_assoc; reflexivity|].
    rewrite <- drop_drop, drop_app_length, drop_app_le by lia. rewrite app_assoc. apply take_app_length'. rewrite length_app, length_drop, Hnm. reflexivity.
Qed.

End Misread.

(** The tool writes 64 bytes for an entry of the version table, the loader reads 68.
    With zeroes behind the table, the checksum of the wrong number of bytes is right:
    the table is accepted, and the name of its second entry is the name of the first
    partition without its first four characters. *)
Theorem tool_table_misread {D : Type} (g : flash_adaptor D) major minor k C chip cfg c cs stack out addr crc file addr' fl vts pad :
  config_ok k C chip cfg (c :: cs) -> (length cs <= 27)%nat -> length stack = 64%nat -> is_bytes stack ->
  main major minor (2 ^ k) chip cfg stack = Some (Some out) -> crc_main true addr (version_table out) = Some (file, crc) -> (Z.to_nat 2048 <= length file + pad)%nat ->
  exists fl' e0 e1 es ids, parse_version_table g addr' (file ++ replicate pad 0) fl vts = Some (fl', zip (e0 :: e1 :: es) ids, 0) /\ length ids = (2 + length cs)%nat /\
    LoadVt.name e1 = drop 4 (name16 (c_name c) (replicate 16 0)) ++ le32 (u32 minor).
Proof.
  intros Hco Hn Hst Hby Em Ec Hp. destruct (main_ok major minor k C chip cfg stack _ Hco) as (kp & Em'). rewrite Em in Em'. apply (inj Some), (inj Some) in Em'. subst out. cbn [version_table] in Ec.
  pose proof (co_good _ _ _ _ _ Hco) as Hg. destruct (tool_table_bytes (2 ^ k) major minor stack c cs Hg Hn Hst Hby) as (Hb & _). rewrite crc_main_append in Ec by exact Hb.
  apply (inj Some) in Ec. apply (f_equal fst) in Ec. cbn [fst] in Ec. subst file. rewrite length_app in Hp. exact (padded_ok g (2 ^ k) major minor stack c cs Hg Hn Hst Hby pad addr' fl vts Hp).
Qed.

(** [len] zeroes behind the sealed table of [cfg_text]. *)
Definition sealed_file : bytes := match crc_main true 0 (version_table (tool_out cfg_text)) with Some (f, _) => f | None => [] end.

Lemma tool_table_misread_witness : exists fl' e0 e1 es ids,
  parse_version_table boot_ram 0 (sealed_file ++ replicate (Z.to_nat 2048) 0) sample_device [] = Some (fl', zip (e0 :: e1 :: es) ids, 0) /\ length ids = 5%nat /\
  LoadVt.name e1 = drop 4 (name16 [107] (replicate 16 0)) ++ le32 (u32 2).
Proof.
  apply (tool_table_misread boot_ram 1 2 12 496 (2 ^ 29) cfg_text (mk_ce 1 false [107] false str_default) (cfg_d :: cfg_b) cfg_stack (tool_out cfg_text) 0 (crc32_ref 0 (version_table (tool_out cfg_text)))).
  - exact cfg_config.
  - cbn. lia.
  - done.
  - by apply const_bytes.
  - exact tool_out_ok.
  - by vm_compute.
  - lia.
Defined.

(** "1M k default", "1M@32M y default": U-Boot puts the second partition behind the
    first one, the version table has it at 32 MiB. *)
Definition cfg_gap : bytes := [49; 77; 32; 107; 32; 100; 101; 102; 97; 117; 108; 116; 10; 49; 77; 64; 51; 50; 77; 32; 121; 32; 100; 101; 102; 97; 117; 108; 116; 10].

Example offset_lost : exists p ps, squeezed (part_list (tool_out cfg_gap)) = part_text p ps /\
  map start (layout (dec_val (sp_start p)) (p :: ps)) = [16 * 2048; 17 * 2048] /\ field (version_table (tool_out cfg_gap)) (12 + 64 * 2 + 24) 4 * 2 ^ 12 = 32 * MiB.
Proof. exists (mk_spec [107] [49; 54] [49] (Some [])), [mk_spec [121] [51; 50] [49] (Some [])]. by vm_compute. Qed.

(** "1536K k default", "1M y default": the list has the first partition with 1 MiB. *)
Definition cfg_half : bytes := [49; 53; 51; 54; 75; 32; 107; 32; 100; 101; 102; 97; 117; 108; 116; 10; 49; 77; 32; 121; 32; 100; 101; 102; 97; 117; 108; 116; 10].

Example half_lost : exists p ps, squeezed (part_list (tool_out cfg_half)) = part_text p ps /\
  map start (layout (dec_val (sp_start p)) (p :: ps)) = [16 * 2048; 17 * 2048] /\ field (version_table (tool_out cfg_half)) (12 + 64 * 2 + 24) 4 * 2 ^ 12 = 17 * MiB + MiB / 2.
Proof. exists (mk_spec [107] [49; 54] [49] (Some [])), [mk_spec [121] [48] [49] (Some [])]. by vm_compute. Qed.

(** "1M k default", "- h default,enhance", "2M y default": the start of "y" is lost
    when its layout is parsed again, and the tool finds an overlap. *)
Definition cfg_enhance : bytes :=
  [49; 77; 32; 107; 32; 100; 101; 102; 97; 117; 108; 116; 10; 45; 32; 104; 32; 100; 101; 102; 97; 117; 108; 116; 44; 101; 110; 104; 97; 110; 99; 101; 10; 50; 77; 32; 121; 32; 100; 101; 102; 97; 117; 108; 116; 10].

Example enhance_refused : main 1 2 (2 ^ 12) (2 ^ 29) cfg_enhance cfg_stack = Some None.
Proof. by vm_compute. Qed.

(** "1M k default first_burn": the line of the list of images has three fields, and
    U-Boot refuses the list. *)
Definition cfg_first : bytes := [49; 77; 32; 107; 32; 100; 101; 102; 97; 117; 108; 116; 32; 102; 105; 114; 115; 116; 95; 98; 117; 114; 110; 10].

Example first_burn_refused : pt_operation_serialization (ram_burner (fun _ => Some (image_list (tool_out cfg_first)))) [] [] = Some None.
Proof. by vm_compute. Qed.
