(* ===== verification/MemRegion.v ===== *)
(** * The memory regions of U-Boot
    (mach-synaptics/drivers/plat/mr_syna.c, mach-synaptics/mem.c)

    The trusted OS says which memory there is and who it belongs to; U-Boot makes its
    two pools from it and answers questions about it.  The memory manager is the one
    of Mmgr.v, of which drivers/plat/mmgr.c is a copy.  The build has
    CONFIG_SYNA_SUBOOT, so that the memory map comes from the regions too. *)

From S2P Require Import Prelude Disk UbootMmc EmmcText Mmgr.

Definition MAX_REGION_COUNT : Z := 16.
Definition MAX_SYSTEM_POOL_NUM : nat := 2.
Definition CACHEABLE_MEM_POOL_SIZE : Z := 128 * 1024 * 1024.

Record mem_region := mk_region { mr_name : bytes; mr_base : Z; mr_size : Z; mr_attr : Z; mr_reserved : Z; userdata : list Z }.

Definition userdata0 (r : mem_region) : Z := hd 0 (userdata r).
Definition userdata1 (r : mem_region) : Z := nth 1 (userdata r) 0.

Definition TEE_MR_USER (r : mem_region) : Z := Z.land (userdata0 r) 0xFF000000.
Definition TEE_MR_USER_IS_BL (r : mem_region) : bool := TEE_MR_USER r =? 0x04000000.
Definition TEE_MR_USER_IS_SYSTEM (r : mem_region) : bool := TEE_MR_USER r =? 0x05000000.
Definition TEE_MR_USER_IS_ION (r : mem_region) : bool := TEE_MR_USER r =? 0x06000000.
Definition ION_TYPE_DMA : Z := 4.
Definition TEE_MR_ION_IS_CMA (r : mem_region) : bool := Z.land (userdata0 r) 0xFF =? ION_TYPE_DMA.
Definition TEE_MR_ION_ALG (r : mem_region) : Z := Z.land (userdata0 r) 0x00FFFFFF.
Definition TEE_MR_ION_ATTRIB (r : mem_region) : Z := userdata1 r.
Definition TEE_MR_ION_FOR_NONSECURE (r : mem_region) : bool := negb (Z.land (userdata1 r) 0x0002 =? 0).
Definition TEE_MR_ION_FOR_CACHEABLE (r : mem_region) : bool := negb (Z.land (userdata1 r) 0x0004 =? 0).
Definition TEE_MR_ION_FOR_NONCACHEABLE (r : mem_region) : bool := negb (Z.land (userdata1 r) 0x0008 =? 0).

(** The static variables, and the memory with its managers; [regions] are the first
    [region_count] elements of [mem]. *)
Record mr_state := mk_mr { regions : list mem_region; region_count : Z; cma_pool_start : Z; cma_pool_size : Z; heap : memory }.

Definition set_heap (h : memory) (s : mr_state) : mr_state := mk_mr (regions s) (region_count s) (cma_pool_start s) (cma_pool_size s) h.
Definition set_cma (b n : Z) (s : mr_state) : mr_state := mk_mr (regions s) (region_count s) b n (heap s).

Fixpoint cacheable_loop (l : list mem_region) (s : mr_state) : option mr_state :=
  match l with
  | [] => Some s
  | r :: l =>
      if TEE_MR_ION_FOR_NONSECURE r && TEE_MR_ION_FOR_CACHEABLE r then
        let s := if TEE_MR_ION_IS_CMA r && TEE_MR_USER_IS_ION r && negb (mr_size r =? 0) then set_cma (mr_base r) (mr_size r) s else s in
        h ← init_mmgr_by_type (heap s) MEM_ION_CACHEABLE (mr_base r) CACHEABLE_MEM_POOL_SIZE; Some (set_heap h s)
      else cacheable_loop l s
  end.

Definition init_ion_cacheable_mempool (s : mr_state) : option mr_state := cacheable_loop (regions s) s.

Fixpoint noncacheable_loop (l : list mem_region) (s : mr_state) : option mr_state :=
  match l with
  | [] => Some s
  | r :: l =>
      if TEE_MR_ION_FOR_NONSECURE r && TEE_MR_ION_FOR_NONCACHEABLE r
      then h ← init_mmgr_by_type (heap s) MEM_ION_NONCACHEABLE (mr_base r) (mr_size r); Some (set_heap h s)
      else noncacheable_loop l s
  end.

Definition init_ion_noncacheable_mempool (s : mr_state) : option mr_state := noncacheable_loop (regions s) s.

Section Regions.
(** What the trusted OS returns, and the regions at the address it was given. *)
Variable tee_get_mem_region_list : Z -> Z * list mem_region.

Definition get_mem_region_list_from_tz (s : mr_state) : option (mr_state * option (list mem_region)) :=
  if 0 <? region_count s then Some (s, Some (regions s))
  else
    let '(ret, mem_r) := tee_get_mem_region_list MAX_REGION_COUNT in
    let n := i32 ret in
    if decide (n < 0 \/ MAX_REGION_COUNT < n \/ Z.of_nat (length mem_r) < n) then None
    else
      s ← init_ion_cacheable_mempool (mk_mr (take (Z.to_nat n) mem_r) n (cma_pool_start s) (cma_pool_size s) (heap s));
      s ← init_ion_noncacheable_mempool s;
      Some (s, if 0 <? n then Some (regions s) else None).

(** memcmp() of the name with the string [zone]. *)
Definition name_matches (zone : bytes) (r : mem_region) : bool := bool_decide (take (length zone) (mr_name r) = zone).

Fixpoint find_region (zone : bytes) (l : list mem_region) : Z * Z :=
  match l with [] => (0, 0) | r :: l => if name_matches zone r then (mr_base r, mr_size r) else find_region zone l end.

Definition get_mem_region_by_name (zone : bytes) : option (option (Z * Z)) :=
  let '(ret, mem_r) := tee_get_mem_region_list MAX_REGION_COUNT in
  let n := i32 ret in
  if decide (Z.of_nat (length mem_r) < n) then None
  else
    let '(b, sz) := find_region zone (take (Z.to_nat n) mem_r) in
    Some (if sz =? 0 then None else Some (b, sz)).

(** The arrays of the callers, as far as they have been filled; the result is -1 if
    there is no list. *)
Fixpoint system_loop (l acc : list mem_region) : list mem_region :=
  match l with
  | [] => acc
  | r :: l => if decide (MAX_SYSTEM_POOL_NUM <= length acc)%nat then acc else system_loop l (if TEE_MR_USER_IS_SYSTEM r then acc ++ [r] else acc)
  end.

Definition get_system_mem (s : mr_state) : option (mr_state * option (list mem_region)) :=
  '(s, mem) ← get_mem_region_list_from_tz s;
  Some (s, match mem with None => None | Some l => Some (system_loop l []) end).

Fixpoint bl_loop (l : list mem_region) : list mem_region :=
  match l with [] => [] | r :: l => if TEE_MR_USER_IS_BL r then [r] else bl_loop l end.

Definition get_bl_mem (s : mr_state) : option (mr_state * option (list mem_region)) :=
  '(s, mem) ← get_mem_region_list_from_tz s;
  Some (s, match mem with None => None | Some l => Some (bl_loop l) end).

Fixpoint ion_loop (l acc : list mem_region) : list mem_region :=
  match l with [] => acc | r :: l => ion_loop l (if TEE_MR_USER_IS_ION r && negb (TEE_MR_ION_IS_CMA r) then acc ++ [r] else acc) end.

Definition get_ion_mem (s : mr_state) : option (mr_state * option (list mem_region)) :=
  '(s, mem) ← get_mem_region_list_from_tz s;
  Some (s, match mem with None => None | Some l => Some (ion_loop l []) end).

(** Whether the region is to be reserved inside the system memory. *)
Definition overlaps_system (sys_start sys_end : Z) (r : mem_region) : bool :=
  negb (TEE_MR_ION_IS_CMA r && TEE_MR_USER_IS_ION r) && TEE_MR_USER_IS_ION r &&
  (sys_start <=? mr_base r) && (mr_base r <? sys_end) && (mr_size r <=? u32 (sys_end - mr_base r)).

Fixpoint reserved_loop (sys_start sys_end : Z) (l : list mem_region) : list (Z * Z) :=
  match l with
  | [] => []
  | r :: l => (if overlaps_system sys_start sys_end r then [(mr_base r, mr_size r)] else []) ++ reserved_loop sys_start sys_end l
  end.

(** The bases and sizes that are stored. *)
Definition get_reserved_mem (s : mr_state) : option (mr_state * Z * list (Z * Z)) :=
  '(s, sys) ← get_system_mem s;
  match sys with
  | None | Some [] => Some (s, 0, [])
  | Some (r :: _) =>
      '(s, mem) ← get_mem_region_list_from_tz s;
      match mem with
      | None => Some (s, -1, [])
      | Some l => Some (s, 0, reserved_loop (mr_base r) (u32 (mr_base r + mr_size r)) l)
      end
  end.

(** ** Pools *)

Definition malloc_ion_cacheable (s : mr_state) (size : Z) : option (mr_state * option Z) :=
  '(h, a) ← mmgr_alloc_by_type (heap s) MEM_ION_CACHEABLE size; Some (set_heap h s, a).
Definition free_ion_cacheable (null_zero : bool) (s : mr_state) (m : Z) : option mr_state :=
  h ← mmgr_free_by_type null_zero (heap s) MEM_ION_CACHEABLE m; Some (set_heap h s).
Definition malloc_ion_noncacheable (s : mr_state) (size : Z) : option (mr_state * option Z) :=
  '(h, a) ← mmgr_alloc_by_type (heap s) MEM_ION_NONCACHEABLE size; Some (set_heap h s, a).
Definition free_ion_noncacheable (null_zero : bool) (s : mr_state) (m : Z) : option mr_state :=
  h ← mmgr_free_by_type null_zero (heap s) MEM_ION_NONCACHEABLE m; Some (set_heap h s).

(** ** The memory map *)

Record mm_region := mk_mm { virt : Z; phys : Z; map_size : Z; attrs : Z }.
Record dram := mk_dram { bank_nr : nat; mem_map : list mm_region; ram_top : Z; ram_base : Z; ram_size : Z }.

Definition ATTR_NORMAL : Z := Z.lor (Z.shiftl 4 2) (Z.shiftl 3 8).
Definition ATTR_DEVICE : Z := Z.lor (Z.shiftl 1 53) (Z.shiftl 1 54).

(** "system", "NonSecure-NC" *)
Definition str_system : bytes := [115; 121; 115; 116; 101; 109].
Definition str_NonSecure_NC : bytes := [78; 111; 110; 83; 101; 99; 117; 114; 101; 45; 78; 67].

Definition or_zero (o : option (Z * Z)) : Z * Z := match o with Some p => p | None => (0, 0) end.

Definition get_mem_from_tzk (d : dram) : option dram :=
  bl ← get_mem_region_by_name str_bootloader;
  sys ← get_mem_region_by_name str_system;
  nc ← get_mem_region_by_name str_NonSecure_NC;
  let '(bl_base, bl_size) := or_zero bl in
  let '(sys_base, sys_size) := or_zero sys in
  let '(nc_base, nc_size) := or_zero nc in
  let map_size := if nc_base =? u64 (sys_base + sys_size) then u64 (sys_size + nc_size) else sys_size in
  if sys_size =? 0 then Some d
  else Some (mk_dram 2 [mk_mm bl_base bl_base bl_size ATTR_NORMAL; mk_mm sys_base sys_base map_size ATTR_NORMAL; mk_mm 0xF0000000 0xF0000000 0x10000000 ATTR_DEVICE; mk_mm 0 0 0 0]
               sys_base sys_base sys_size).

(** The banks that the kernel is told about. *)
Definition dram_init_banksize (d : dram) : list (Z * Z) := map (fun m => (virt m, map_size m)) (take (bank_nr d) (mem_map d)).

Definition dram_init (d : dram) : option dram := get_mem_from_tzk d.

End Regions.
