(* ===== verification/MemSafety.v ===== *)
(** * The memory regions of U-Boot: properties

    The two pools hand out memory of their regions only, as long as the cacheable
    region has the size that the code assumes; the regions to be reserved are the ION
    regions inside the system memory. *)

From S2P Require Import Prelude Disk UbootMmc EmmcText Mmgr Blocks MmgrRefine MmgrSafety MemRegion.

Lemma pairs_app_r {A} (R : A -> A -> Prop) (a b : list A) : ForallOrdPairs R (a ++ b) -> ForallOrdPairs R b.
Proof. induction a as [|x a IH]; [done|]. cbn. intros H. inversion H; subst. by apply IH. Qed.

(** ** The list of the trusted OS *)

Definition cacheable (r : mem_region) : bool := TEE_MR_ION_FOR_NONSECURE r && TEE_MR_ION_FOR_CACHEABLE r.
Definition noncacheable (r : mem_region) : bool := TEE_MR_ION_FOR_NONSECURE r && TEE_MR_ION_FOR_NONCACHEABLE r.

(** A region of 32-bit addresses, with room for the manager. *)
Definition region_ok (r : mem_region) : Prop := 0 <= mr_base r /\ mr_base r + mr_size r <= 2 ^ 32 /\ RESERVE_MEM_SIZE < mr_size r < 2 ^ 32.

(** The trusted OS reports [l]. *)
Definition reports (tee : Z -> Z * list mem_region) (l : list mem_region) : Prop :=
  (0 < length l <= 16)%nat /\ tee MAX_REGION_COUNT = (Z.of_nat (length l), l).

Lemma cacheable_find l s r : List.find cacheable l = Some r -> exists s0, heap s0 = heap s /\ regions s0 = regions s /\ region_count s0 = region_count s /\
  cacheable_loop l s = (h ← init_mmgr_by_type (heap s) MEM_ION_CACHEABLE (mr_base r) CACHEABLE_MEM_POOL_SIZE; Some (set_heap h s0)).
Proof.
  induction l as [|x l IH]; [done|]. cbn [List.find cacheable_loop]. fold (cacheable x). destruct (cacheable x); [|exact IH]. intros [= ->].
  destruct (TEE_MR_ION_IS_CMA r && TEE_MR_USER_IS_ION r && negb (mr_size r =? 0)); [exists (set_cma (mr_base r) (mr_size r) s)|exists s]; done.
Qed.

Lemma noncacheable_find l s r : List.find noncacheable l = Some r ->
  noncacheable_loop l s = (h ← init_mmgr_by_type (heap s) MEM_ION_NONCACHEABLE (mr_base r) (mr_size r); Some (set_heap h s)).
Proof. induction l as [|x l IH]; [done|]. cbn [List.find noncacheable_loop]. fold (noncacheable x). destruct (noncacheable x); [|exact IH]. by intros [= ->]. Qed.

(** Before the first question. *)
Definition unasked (s : mr_state) : Prop := region_count s = 0 /\ g_mmgr (heap s) MEM_ION_CACHEABLE = None /\ g_mmgr (heap s) MEM_ION_NONCACHEABLE = None.

Lemma list_ok tee l s rc rn : reports tee l -> unasked s -> List.find cacheable l = Some rc -> List.find noncacheable l = Some rn -> region_ok rc -> mr_base rc + CACHEABLE_MEM_POOL_SIZE <= 2 ^ 32 -> region_ok rn ->
  exists s' mc mn, get_mem_region_list_from_tz tee s = Some (s', Some l) /\ regions s' = l /\ region_count s' = Z.of_nat (length l) /\
    fresh_mmgr (mr_base rc) CACHEABLE_MEM_POOL_SIZE = Some mc /\ fresh_mmgr (mr_base rn) (mr_size rn) = Some mn /\
    g_mmgr (heap s') MEM_ION_CACHEABLE = Some mc /\ g_mmgr (heap s') MEM_ION_NONCACHEABLE = Some mn.
Proof.
  intros [[Hl1 Hl2] Ht] (Hc & Hg1 & Hg2) Hfc Hfn (C1 & C2 & C3) C4 (N1 & N2 & N3). unfold get_mem_region_list_from_tz. rewrite Hc, Ht. cbn [Z.ltb Z.compare]. rewrite i32_id by (unfold is_i32; lia).
  rewrite decide_False by (unfold MAX_REGION_COUNT; lia). rewrite Nat2Z.id, firstn_all. unfold init_ion_cacheable_mempool. cbn [regions].
  set (s0 := mk_mr l _ _ _ _). destruct (cacheable_find l s0 rc Hfc) as (s1 & E1 & E2 & E3 & ->). unfold init_mmgr_by_type at 1. unfold s0 at 1. cbn [heap]. rewrite Hg1.
  unfold RESERVE_MEM_SIZE in *. destruct (fresh_managed MEM_ION_CACHEABLE (mr_base rc) CACHEABLE_MEM_POOL_SIZE) as (mc & Ec & _); [lia|unfold CACHEABLE_MEM_POOL_SIZE in *; lia|unfold CACHEABLE_MEM_POOL_SIZE, RESERVE_MEM_SIZE; lia|].
  destruct (fresh_managed MEM_ION_NONCACHEABLE (mr_base rn) (mr_size rn)) as (mn & En & _); [lia|lia|unfold RESERVE_MEM_SIZE; lia|].
  rewrite Ec. cbn [mbind option_bind]. unfold init_ion_noncacheable_mempool. cbn [regions set_heap]. rewrite E2. unfold s0 at 1. cbn [regions]. rewrite (noncacheable_find l _ rn Hfn).
  unfold init_mmgr_by_type. cbn [heap set_heap]. rewrite set_mgr_other by done. cbn [g_mmgr]. 
  replace (g_mmgr (heap s0) MEM_ION_NONCACHEABLE) with (g_mmgr (heap s) MEM_ION_NONCACHEABLE) by done. rewrite Hg2, En. cbn [mbind option_bind].
  rewrite (proj2 (Z.ltb_lt _ _)) by lia. cbn [regions set_heap]. rewrite E2. eexists _, mc, mn. split; [reflexivity|]. cbn [regions region_count set_heap heap]. rewrite E2, E3.
  split; [done|]. split; [done|]. split; [done|]. split; [done|]. split; [|apply set_mgr_same]. rewrite set_mgr_other by done. cbn [g_mmgr]. apply set_mgr_same.
Qed.

(** ** The pools *)

Inductive ion_op := MallocC (sz : Z) | FreeC (a : Z) | MallocN (sz : Z) | FreeN (a : Z).

Definition ion_step (s : mr_state) (o : ion_op) : option mr_state :=
  match o with
  | MallocC sz => '(s, _) ← malloc_ion_cacheable s sz; Some s
  | FreeC a => free_ion_cacheable false s a
  | MallocN sz => '(s, _) ← malloc_ion_noncacheable s sz; Some s
  | FreeN a => free_ion_noncacheable false s a
  end.

Fixpoint ion_run (ops : list ion_op) (s : mr_state) : option mr_state :=
  match ops with [] => Some s | o :: ops => s ← ion_step s o; ion_run ops s end.

Definition ion_ok (o : ion_op) : Prop := match o with MallocC sz | MallocN sz => is_i32 sz | _ => True end.

(** One of the pools in good order, with [n] more nodes at most. *)
Definition pool_in (s : mr_state) (type : MEM_TYPE) (lo hi : Z) (n : nat) (fr al : blocks) : Prop :=
  exists m, g_mmgr (heap s) type = Some m /\ managed type m fr al /\ membase m = lo /\ totalsize m = hi - lo /\ num m + Z.of_nat n <= Z.of_nat MAXNUM_POOL.

Definition other (type : MEM_TYPE) : MEM_TYPE := match type with MEM_ION_CACHEABLE => MEM_ION_NONCACHEABLE | _ => MEM_ION_CACHEABLE end.

Definition op_of (o : ion_op) : MEM_TYPE * mm_op :=
  match o with MallocC sz => (MEM_ION_CACHEABLE, Alloc sz) | FreeC a => (MEM_ION_CACHEABLE, Release a) | MallocN sz => (MEM_ION_NONCACHEABLE, Alloc sz) | FreeN a => (MEM_ION_NONCACHEABLE, Release a) end.

Lemma ion_step_mgr s o m : g_mmgr (heap s) (fst (op_of o)) = Some m ->
  ion_step s o = (m' ← mm_step false (fst (op_of o)) m (snd (op_of o)); Some (set_heap (set_mgr (fst (op_of o)) m' (heap s)) s)).
Proof.
  destruct o as [sz|a|sz|a]; cbn [op_of fst snd ion_step mm_step]; intros Hm; unfold malloc_ion_cacheable, malloc_ion_noncacheable, free_ion_cacheable, free_ion_noncacheable, mmgr_alloc_by_type, mmgr_free_by_type; rewrite Hm.
  1, 3: by destruct (mgr_alloc _ m sz) as [[]|]. all: by destruct (mgr_free false m a).
Qed.

(** The calls for one pool. *)
Definition ops_of (type : MEM_TYPE) (ops : list ion_op) : list mm_op := map snd (List.filter (fun x => bool_decide (fst x = type)) (map op_of ops)).

(** A step in one pool leaves the other alone. *)
Lemma pool_step s o n lo hi fr al lo' hi' fr' al' : ion_ok o -> covered_step (snd (op_of o)) fr al = true -> pool_in s (fst (op_of o)) lo hi (S n) fr al -> pool_in s (other (fst (op_of o))) lo' hi' (S n) fr' al' ->
  exists s', ion_step s o = Some s' /\ pool_in s' (fst (op_of o)) lo hi n (fst (spec_step (fst (op_of o)) (snd (op_of o)) fr al)) (snd (spec_step (fst (op_of o)) (snd (op_of o)) fr al)) /\ pool_in s' (other (fst (op_of o))) lo' hi' n fr' al'.
Proof.
  intros Ho Hc (m & Hm & Hman & Hlo & Hhi & Hn) (m2 & Hm2 & Hrest & E1 & E2 & E3). rewrite (ion_step_mgr s o m Hm).
  destruct (mm_step_managed false (fst (op_of o)) m fr al (snd (op_of o)) Hman) as (m' & -> & Hman' & Hn' & [S1 S2]); [by destruct o|lia|by right|]. cbn [mbind option_bind].
  eexists _. split; [reflexivity|]. split.
  - exists m'. cbn [heap set_heap]. split; [apply set_mgr_same|]. split_and!; [done|congruence|congruence|lia].
  - exists m2. cbn [heap set_heap]. rewrite set_mgr_other by (by destruct o). split_and!; [done|done|done|done|lia].
Qed.

Lemma ops_of_cons type o ops : ops_of type (o :: ops) = if decide (fst (op_of o) = type) then snd (op_of o) :: ops_of type ops else ops_of type ops.
Proof. unfold ops_of. cbn [map List.filter]. case_decide; [by rewrite bool_decide_eq_true_2|by rewrite bool_decide_eq_false_2]. Qed.

Lemma pool_run ops : forall s lo hi lo' hi' fr al fr' al', Forall ion_ok ops ->
  covered MEM_ION_CACHEABLE (ops_of MEM_ION_CACHEABLE ops) fr al = true -> covered MEM_ION_NONCACHEABLE (ops_of MEM_ION_NONCACHEABLE ops) fr' al' = true ->
  pool_in s MEM_ION_CACHEABLE lo hi (length ops) fr al -> pool_in s MEM_ION_NONCACHEABLE lo' hi' (length ops) fr' al' -> exists s' fr2 al2 fr3 al3,
  ion_run ops s = Some s' /\ pool_in s' MEM_ION_CACHEABLE lo hi 0 fr2 al2 /\ pool_in s' MEM_ION_NONCACHEABLE lo' hi' 0 fr3 al3.
Proof.
  induction ops as [|o ops IH]; intros s lo hi lo' hi' fr al fr' al' Ho Kc Kn Hc Hn; [by exists s, fr, al, fr', al'|]. apply Forall_cons_iff in Ho as [Ho1 Ho]. cbn [ion_run length] in *. rewrite ops_of_cons in Kc, Kn.
  destruct (fst (op_of o)) eqn:Et; [by destruct o| |].
  - rewrite decide_True in Kc by done. rewrite decide_False in Kn by done. cbn [covered] in Kc. apply andb_prop in Kc as [K1 K2].
    destruct (pool_step s o (length ops) lo hi fr al lo' hi' fr' al' Ho1 K1) as (s1 & -> & P1 & P2); [by rewrite Et..|]. rewrite Et in P1, P2. by eapply IH.
  - rewrite decide_False in Kc by done. rewrite decide_True in Kn by done. cbn [covered] in Kn. apply andb_prop in Kn as [K1 K2].
    destruct (pool_step s o (length ops) lo' hi' fr' al' lo hi fr al Ho1 K1) as (s1 & -> & P1 & P2); [by rewrite Et..|]. rewrite Et in P1, P2. by eapply IH.
Qed.

Lemma pool_inside s type lo hi n fr al : pool_in s type lo hi n fr al -> ForallOrdPairs apart (fr ++ al) /\ Forall (fun b => lo <= b.1 /\ 0 < b.2 /\ b.1 + b.2 <= hi) al.
Proof.
  intros (m & _ & Hm & <- & E & _). pose proof Hm as (_ & Har & _). destruct (ar_tiling _ _ _ _ _ Har) as [_ Hap _]. split; [done|].
  apply list.Forall_forall. intros b Hb. destruct (managed_placed _ _ _ _ b Hm) as (H1 & H2 & H3 & _); [apply elem_of_app; by right|]. lia.
Qed.

(** C17: With a cacheable region of 128 MiB or more, whatever is allocated from and given
    back to the two pools, in any order and fewer than 200 times, as long as no block
    above all free blocks of its pool is given back while the pool has a free block
    (there the code reads through NULL): every call returns, the blocks in use lie
    inside the region of their pool, and those of a pool are apart from each other. *)
Theorem ion_blocks_safe tee l s rc rn ops : reports tee l -> unasked s -> List.find cacheable l = Some rc -> List.find noncacheable l = Some rn -> region_ok rc -> region_ok rn ->
  CACHEABLE_MEM_POOL_SIZE <= mr_size rc -> Forall ion_ok ops -> (length ops < 200)%nat ->
  covered MEM_ION_CACHEABLE (ops_of MEM_ION_CACHEABLE ops) [(mr_base rc + RESERVE_MEM_SIZE, CACHEABLE_MEM_POOL_SIZE - RESERVE_MEM_SIZE)] [] = true ->
  covered MEM_ION_NONCACHEABLE (ops_of MEM_ION_NONCACHEABLE ops) [(mr_base rn + RESERVE_MEM_SIZE, mr_size rn - RESERVE_MEM_SIZE)] [] = true ->
  exists s1 s2 frc alc frn aln, get_mem_region_list_from_tz tee s = Some (s1, Some l) /\ ion_run ops s1 = Some s2 /\
    pool_in s2 MEM_ION_CACHEABLE (mr_base rc + RESERVE_MEM_SIZE) (mr_base rc + CACHEABLE_MEM_POOL_SIZE) 0 frc alc /\ pool_in s2 MEM_ION_NONCACHEABLE (mr_base rn + RESERVE_MEM_SIZE) (mr_base rn + mr_size rn) 0 frn aln /\
    ForallOrdPairs apart alc /\ ForallOrdPairs apart aln /\
    Forall (fun b => mr_base rc <= b.1 /\ b.1 + b.2 <= mr_base rc + mr_size rc) alc /\ Forall (fun b => mr_base rn <= b.1 /\ b.1 + b.2 <= mr_base rn + mr_size rn) aln.
Proof.
  intros Hrep Hu Hfc Hfn Hrc Hrn Hsz Hops Hlen Kc Kn. pose proof Hrc as (C1 & C2 & C3). pose proof Hrn as (N1 & N2 & N3).
  destruct (list_ok tee l s rc rn Hrep Hu Hfc Hfn Hrc ltac:(lia) Hrn) as (s1 & mc & mn & E & _ & _ & Ec & En & Gc & Gn).
  destruct (fresh_managed MEM_ION_CACHEABLE (mr_base rc) CACHEABLE_MEM_POOL_SIZE) as (mc' & Ec' & K1 & K2 & K3 & K4); [lia|lia|unfold CACHEABLE_MEM_POOL_SIZE, RESERVE_MEM_SIZE; lia|]. rewrite Ec in Ec'. injection Ec' as <-.
  destruct (fresh_managed MEM_ION_NONCACHEABLE (mr_base rn) (mr_size rn)) as (mn' & En' & L1 & L2 & L3 & L4); [lia|lia|lia|]. rewrite En in En'. injection En' as <-.
  destruct (pool_run ops s1 (mr_base rc + RESERVE_MEM_SIZE) (mr_base rc + CACHEABLE_MEM_POOL_SIZE) (mr_base rn + RESERVE_MEM_SIZE) (mr_base rn + mr_size rn)
    [(mr_base rc + RESERVE_MEM_SIZE, CACHEABLE_MEM_POOL_SIZE - RESERVE_MEM_SIZE)] [] [(mr_base rn + RESERVE_MEM_SIZE, mr_size rn - RESERVE_MEM_SIZE)] [] Hops Kc Kn) as (s2 & frc & alc & frn & aln & Er & Pc & Pn).
  - exists mc. split_and!; [done|done|done|lia|unfold MAXNUM_POOL; lia].
  - exists mn. split_and!; [done|done|done|lia|unfold MAXNUM_POOL; lia].
  - exists s1, s2, frc, alc, frn, aln. destruct (pool_inside _ _ _ _ _ _ _ Pc) as [Ac Ic], (pool_inside _ _ _ _ _ _ _ Pn) as [An In].
    split; [exact E|]. split; [exact Er|]. split; [exact Pc|]. split; [exact Pn|]. split; [by eapply pairs_app_r|]. split; [by eapply pairs_app_r|]. unfold RESERVE_MEM_SIZE in *.
    split; (eapply list.Forall_impl; [eassumption|]); cbn; intros b Hb; lia.
Qed.

(** The pool has 128 MiB whatever the size of the region: a block as large as a
    smaller region is handed out and ends 8 KiB behind it. *)
Theorem small_region_overrun tee l s rc rn : reports tee l -> unasked s -> List.find cacheable l = Some rc -> List.find noncacheable l = Some rn -> region_ok rc -> region_ok rn ->
  mr_base rc + CACHEABLE_MEM_POOL_SIZE <= 2 ^ 32 -> mr_size rc + PAGE + RESERVE_MEM_SIZE <= CACHEABLE_MEM_POOL_SIZE ->
  exists s1 s2 a, get_mem_region_list_from_tz tee s = Some (s1, Some l) /\ malloc_ion_cacheable s1 (mr_size rc) = Some (s2, Some a) /\
    a + mr_size rc = mr_base rc + mr_size rc + RESERVE_MEM_SIZE.
Proof.
  intros Hrep Hu Hfc Hfn Hrc Hrn Hc Hsz. pose proof Hrc as (C1 & C2 & C3). unfold CACHEABLE_MEM_POOL_SIZE, PAGE, RESERVE_MEM_SIZE in *.
  destruct (list_ok tee l s rc rn Hrep Hu Hfc Hfn Hrc Hc Hrn) as (s1 & mc & mn & E & _ & _ & Ec & _ & Gc & _).
  destruct (fresh_managed MEM_ION_CACHEABLE (mr_base rc) CACHEABLE_MEM_POOL_SIZE) as (mc' & Ec' & K1 & K2 & K3 & K4); [lia|unfold CACHEABLE_MEM_POOL_SIZE; lia|unfold CACHEABLE_MEM_POOL_SIZE, RESERVE_MEM_SIZE; lia|].
  rewrite Ec in Ec'. injection Ec' as <-. destruct (alloc_size_spec MEM_ION_CACHEABLE (mr_size rc) ltac:(lia)) as [Hs _]. cbn [unit_of] in Hs. unfold PAGE in Hs.
  destruct (mgr_alloc_ok MEM_ION_CACHEABLE mc _ _ (mr_size rc) K4) as (m' & fr' & al' & r & Ea & Hspec & _); [lia|rewrite K1; unfold MAXNUM_POOL; lia|].
  unfold spec_alloc in Hspec. cbn [take_fit] in Hspec. rewrite (proj2 (Z.leb_le _ _)) in Hspec by (unfold CACHEABLE_MEM_POOL_SIZE, RESERVE_MEM_SIZE; lia).
  exists s1. assert (Hr : r = Some (mr_base rc + RESERVE_MEM_SIZE)) by (destruct (_ =? _) in Hspec; by injection Hspec as _ _ <-). subst r.
  unfold malloc_ion_cacheable, mmgr_alloc_by_type. rewrite Gc, Ea. cbn [mbind option_bind]. eexists _, _. split; [exact E|]. split; [reflexivity|]. unfold RESERVE_MEM_SIZE. lia.
Qed.

(** ** The regions to be reserved *)

(** Inside the system memory [r0], and not managed by the kernel's allocator. *)
Definition inside (r0 r : mem_region) : bool :=
  TEE_MR_USER_IS_ION r && negb (TEE_MR_ION_IS_CMA r) && (mr_base r0 <=? mr_base r) && (mr_base r <? mr_base r0 + mr_size r0) && (mr_base r + mr_size r <=? mr_base r0 + mr_size r0).

Lemma reserved_loop_ok r0 l : 0 <= mr_base r0 -> mr_base r0 + mr_size r0 < 2 ^ 32 ->
  reserved_loop (mr_base r0) (mr_base r0 + mr_size r0) l = map (fun r => (mr_base r, mr_size r)) (List.filter (inside r0) l).
Proof.
  intros H1 H2. induction l as [|r l IH]; [done|]. cbn [reserved_loop List.filter]. rewrite IH. assert (E : overlaps_system (mr_base r0) (mr_base r0 + mr_size r0) r = inside r0 r).
  { unfold overlaps_system, inside. destruct (TEE_MR_USER_IS_ION r), (TEE_MR_ION_IS_CMA r); cbn [andb negb]; try done.
    destruct (Z.leb_spec (mr_base r0) (mr_base r)); [|done]. destruct (Z.ltb_spec (mr_base r) (mr_base r0 + mr_size r0)); [|done]. cbn [andb]. rewrite u32_id by (unfold is_u32; lia).
    destruct (Z.leb_spec (mr_size r) (mr_base r0 + mr_size r0 - mr_base r)), (Z.leb_spec (mr_base r + mr_size r) (mr_base r0 + mr_size r0)); lia || done. }
  rewrite E. by destruct (inside r0 r).
Qed.

Lemma system_loop_ok l : forall acc, (length acc <= 2)%nat -> system_loop l acc = take 2 (acc ++ List.filter TEE_MR_USER_IS_SYSTEM l).
Proof.
  unfold MAX_SYSTEM_POOL_NUM. induction l as [|r l IH]; intros acc Ha; cbn [system_loop List.filter]; [rewrite app_nil_r, take_ge by lia; done|].
  destruct (decide (MAX_SYSTEM_POOL_NUM <= length acc)%nat) as [H|H]; unfold MAX_SYSTEM_POOL_NUM in H.
  - rewrite take_app_le by lia. rewrite take_ge by lia. done.
  - destruct (TEE_MR_USER_IS_SYSTEM r); [|by apply IH]. rewrite IH by (rewrite length_app; cbn [length]; lia). now rewrite <- app_assoc.
Qed.

Lemma ion_loop_ok l : forall acc, ion_loop l acc = acc ++ List.filter (fun r => TEE_MR_USER_IS_ION r && negb (TEE_MR_ION_IS_CMA r)) l.
Proof.
  induction l as [|r l IH]; intros acc; cbn [ion_loop List.filter]; [now rewrite app_nil_r|]. destruct (_ && _); rewrite IH; [now rewrite <- app_assoc|done].
Qed.

(** The list has been read: the answers come from it. *)
Record listed (l : list mem_region) (s : mr_state) : Prop := mk_listed { ls_regions : regions s = l; ls_count : 0 < region_count s }.

Lemma listed_get tee l s : listed l s -> get_mem_region_list_from_tz tee s = Some (s, Some l).
Proof. intros [H1 H2]. unfold get_mem_region_list_from_tz. rewrite (proj2 (Z.ltb_lt _ _)) by done. now rewrite H1. Qed.

Lemma listed_reserved tee l s r0 rest : listed l s -> List.filter TEE_MR_USER_IS_SYSTEM l = r0 :: rest -> 0 <= mr_base r0 -> 0 <= mr_size r0 -> mr_base r0 + mr_size r0 < 2 ^ 32 ->
  get_reserved_mem tee s = Some (s, 0, map (fun r => (mr_base r, mr_size r)) (List.filter (inside r0) l)).
Proof.
  intros Hl Hs H1 H2 H3. unfold get_reserved_mem, get_system_mem. rewrite (listed_get tee l s Hl). cbn [mbind option_bind]. rewrite system_loop_ok, Hs by (cbn; lia).
  change (take 2 ([] ++ r0 :: rest)) with (r0 :: take 1 rest). cbv iota. cbn [mbind option_bind]. rewrite (listed_get tee l s Hl). cbn [mbind option_bind]. rewrite u32_id by (unfold is_u32; lia). now rewrite reserved_loop_ok.
Qed.

(** ** Witness *)

Definition w_pools : list mem_region := [mk_region [] 0x20000000 0x8000000 0 0 [0x06000001; 6]; mk_region [] 0x30000000 0x1000000 0 0 [0x06000002; 10]].

Lemma ion_blocks_safe_witness : exists s1 s2, get_mem_region_list_from_tz (fun _ => (2, w_pools)) (mk_mr [] 0 0 0 (mk_memory (fun _ => None) (fun _ => 0))) = Some (s1, Some w_pools) /\
  ion_run [MallocC 4096; MallocN 100; FreeC 0x20002000; MallocC (-1); FreeN 5] s1 = Some s2.
Proof.
  destruct (ion_blocks_safe (fun _ => (2, w_pools)) w_pools (mk_mr [] 0 0 0 (mk_memory (fun _ => None) (fun _ => 0))) (mk_region [] 0x20000000 0x8000000 0 0 [0x06000001; 6]) (mk_region [] 0x30000000 0x1000000 0 0 [0x06000002; 10])
    [MallocC 4096; MallocN 100; FreeC 0x20002000; MallocC (-1); FreeN 5]) as (s1 & s2 & frc & alc & frn & aln & E1 & E2 & _).
  - split; [cbn; lia|reflexivity].
  - split_and!; reflexivity.
  - reflexivity.
  - reflexivity.
  - unfold region_ok, RESERVE_MEM_SIZE; cbn; lia.
  - unfold region_ok, RESERVE_MEM_SIZE; cbn; lia.
  - unfold CACHEABLE_MEM_POOL_SIZE; cbn; lia.
  - repeat constructor; cbn; lia.
  - cbn; lia.
  - vm_compute. reflexivity.
  - vm_compute. reflexivity.
  - exists s1, s2. split; [exact E1|exact E2].
Defined.
