(* ===== verification/FdtUpdate.v ===== *)
(** * Handing the memory over to the kernel
    (mach-synaptics/cmd/fdt_update.c)

    Before the kernel is started U-Boot writes the memory regions, the voltages of the
    chip and the address of the network device into its device tree, and the root file
    system of the current slot into its command line.  The build has
    CONFIG_SYNA_MMC_SUBOOT and CONFIG_OF_LIBFDT_OVERLAY; [fe_bgs] is there with
    CONFIG_TARGET_PLATYPUS.  libfdt, the command interpreter and the board are
    parameters. *)

From S2P Require Import Prelude Disk UbootMmc LoadGpt BootMode UbootSlots EmmcText EmmcBurn Mmgr MemRegion.

(** ** Text *)

(** "syna,berlin-heaps" *)
Definition str_heaps : bytes := [115; 121; 110; 97; 44; 98; 101; 114; 108; 105; 110; 45; 104; 101; 97; 112; 115].
(** "pool-num" *)
Definition str_pool_num : bytes := [112; 111; 111; 108; 45; 110; 117; 109].
(** "attributes-num-per-pool" *)
Definition str_attr_num : bytes := [97; 116; 116; 114; 105; 98; 117; 116; 101; 115; 45; 110; 117; 109; 45; 112; 101; 114; 45; 112; 111; 111; 108].
(** "pool-attributes" *)
Definition str_pool_attr : bytes := [112; 111; 111; 108; 45; 97; 116; 116; 114; 105; 98; 117; 116; 101; 115].
(** "reg" *)
Definition str_reg : bytes := [114; 101; 103].
(** "reg-names" *)
Definition str_reg_names : bytes := [114; 101; 103; 45; 110; 97; 109; 101; 115].
(** "/memory" *)
Definition str_memory : bytes := [47; 109; 101; 109; 111; 114; 121].
(** "root=/dev/mmcblk" *)
Definition str_root : bytes := [114; 111; 111; 116; 61; 47; 100; 101; 118; 47; 109; 109; 99; 98; 108; 107].
(** "rootfs_a" *)
Definition str_rootfs_a : bytes := [114; 111; 111; 116; 102; 115; 95; 97].
(** "rootfs_b" *)
Definition str_rootfs_b : bytes := [114; 111; 111; 116; 102; 115; 95; 98].
(** "gp" *)
Definition str_gp : bytes := [103; 112].
(** " ro" *)
Definition str_ro : bytes := [32; 114; 111].
(** "cma=" *)
Definition str_cma : bytes := [99; 109; 97; 61].
(** "sunplus.bgs=0x" *)
Definition str_bgs : bytes := [115; 117; 110; 112; 108; 117; 115; 46; 98; 103; 115; 61; 48; 120].
(** "bootargs" *)
Definition str_bootargs : bytes := [98; 111; 111; 116; 97; 114; 103; 115].
(** "bootargscontrol" *)
Definition str_control : bytes := [98; 111; 111; 116; 97; 114; 103; 115; 99; 111; 110; 116; 114; 111; 108].
(** "opp-microvolt" *)
Definition str_microvolt : bytes := [111; 112; 112; 45; 109; 105; 99; 114; 111; 118; 111; 108; 116].
(** "opp@" *)
Definition str_opp : bytes := [111; 112; 112; 64].
(** "/cpus/opp_table0" *)
Definition str_cpus : bytes := [47; 99; 112; 117; 115; 47; 111; 112; 112; 95; 116; 97; 98; 108; 101; 48].
(** "/soc/vcore_opp_table" *)
Definition str_vcore : bytes := [47; 115; 111; 99; 47; 118; 99; 111; 114; 101; 95; 111; 112; 112; 95; 116; 97; 98; 108; 101].
(** "/soc/ethernet" *)
Definition str_ethernet : bytes := [47; 115; 111; 99; 47; 101; 116; 104; 101; 114; 110; 101; 116].
(** "mac-address" *)
Definition str_mac : bytes := [109; 97; 99; 45; 97; 100; 100; 114; 101; 115; 115].
(** "dtbo" *)
Definition str_dtbo : bytes := [100; 116; 98; 111].
(** "fdt resize " *)
Definition str_resize : bytes := [102; 100; 116; 32; 114; 101; 115; 105; 122; 101; 32].
(** "ext4load mmc " *)
Definition str_ext4load : bytes := [101; 120; 116; 52; 108; 111; 97; 100; 32; 109; 109; 99; 32].
(** "/boot/" *)
Definition str_boot : bytes := [47; 98; 111; 111; 116; 47].
(** "fdt apply " *)
Definition str_apply : bytes := [102; 100; 116; 32; 97; 112; 112; 108; 121; 32].
(** "skip_fdt_update" *)
Definition str_skip : bytes := [115; 107; 105; 112; 95; 102; 100; 116; 95; 117; 112; 100; 97; 116; 101].

(** sprintf("%x") *)
Fixpoint print_hex (fuel : nat) (n : Z) : bytes :=
  match fuel with
  | O => []
  | S fuel => (if n <? 16 then [] else print_hex fuel (n / 16)) ++ [if n mod 16 <? 10 then CH_0 + n mod 16 else 87 + n mod 16]
  end.

(** Big-endian numbers. *)
Definition be32 (v : Z) : bytes := rev (le32 v).
Definition be64 (v : Z) : bytes := rev (le64 v).
Definition be_field (b : bytes) (off n : nat) : option Z := w ← bytes_at b off n; Some (le_val (rev w)).

(** ** libfdt

    [raw] is the tree as the bytes it is made of. *)
Record fdt_lib (F : Type) := mk_lib {
  raw : F -> bytes;
  set_raw : F -> bytes -> F;
  fdt_open_into : F -> Z -> F * Z;
  fdt_node_offset_by_compatible : F -> bytes -> Z;
  fdt_path_offset : F -> bytes -> Z;
  fdt_getprop : F -> Z -> bytes -> option bytes;
  fdt_setprop : F -> Z -> bytes -> bytes -> F * Z;
  fdt_appendprop : F -> Z -> bytes -> bytes -> F * Z;
  fdt_pack : F -> F * Z;
  fdt_first_subnode : F -> Z -> Z;
  fdt_next_subnode : F -> Z -> Z;
  fdt_set_name : F -> Z -> bytes -> F * Z;
}.
Arguments raw {F}. Arguments set_raw {F}. Arguments fdt_open_into {F}. Arguments fdt_node_offset_by_compatible {F}. Arguments fdt_path_offset {F}.
Arguments fdt_getprop {F}. Arguments fdt_setprop {F}. Arguments fdt_appendprop {F}. Arguments fdt_pack {F}. Arguments fdt_first_subnode {F}.
Arguments fdt_next_subnode {F}. Arguments fdt_set_name {F}.

Definition DTB_SPACE : Z := 0x20000 - 0x100.
Definition MAX_SYSTEM_SLOT : nat := MAX_SYSTEM_POOL_NUM + 1.
Definition FDT_ERR_NOTFOUND : Z := 1.

(** ** The reserved memory *)

(** [p] is the offset of the entry that [mem_reserve] points to; it moves by [i]
    entries in round [i].  A round past the regions moves it by one entry at least,
    so that it is soon behind the tree. *)
Fixpoint rsv_loop (fuel : nat) (b : bytes) (p i : nat) (l : list (Z * Z)) : option bytes :=
  match fuel with
  | O => None
  | S fuel =>
      let p := (p + 16 * i)%nat in
      match l !! i with
      | Some (base, size) => b ← store_at b p (be64 base ++ be64 size); rsv_loop fuel b p (S i) l
      | None =>
          sz ← be_field b (p + 8) 8;
          if sz =? 0 then Some b else b ← store_at b p (replicate 16 0); rsv_loop fuel b p (S i) l
      end
  end.

Definition setup_reserved_mem_raw (b : bytes) (l : list (Z * Z)) : option bytes :=
  off ← be_field b 16 4; rsv_loop (S (length b + length l)) b (Z.to_nat off) 0 l.

(** ** The voltages *)

(** The rows of a table: the leakage up to which it holds, and the voltage. *)
Record freq_leakage_table := mk_flt { freq : Z; lt : list (Z * Z) }.

(** The loop has no end of its own. *)
Fixpoint volt_loop (l : list (Z * Z)) (leakage : Z) : option Z :=
  match l with [] => None | (info, volt) :: l => if leakage <=? info then Some volt else volt_loop l leakage end.

Definition get_volt (l : list (Z * Z)) (leakage : Z) : option Z := if 0xffff <? leakage then Some (-1) else volt_loop l leakage.

(** The row of the low voltage comes first. *)
Definition get_vh_vl (flt : list freq_leakage_table) (leakage : Z) : option (option (Z * Z)) :=
  l ← flt !! 0%nat;
  if freq l <=? 0 then Some None
  else
    vl ← get_volt (lt l) leakage;
    h ← flt !! 1%nat;
    if freq h <=? 0 then Some None
    else vh ← get_volt (lt h) leakage; Some (if (0 <? vl) && (0 <? vh) then Some (vl, vh) else None).

Definition get_vh_freq (flt : list freq_leakage_table) : option Z :=
  h ← flt !! 1%nat; Some (if (freq h <=? 0) || (2500 <? freq h) then 0 else freq h).

Section Update.
Context {F : Type} (lib : fdt_lib F).

Definition setup_reserved_mem (f : F) (l : list (Z * Z)) : option F :=
  if decide (l = []) then Some f else b ← setup_reserved_mem_raw (raw lib f) l; Some (set_raw lib f b).

(** ** The memory nodes *)

Definition reg_cells (l : list mem_region) : bytes := concat (map (fun r => be32 0 ++ be32 (mr_base r) ++ be32 0 ++ be32 (mr_size r)) l).
Definition attr_cells (l : list mem_region) : bytes := concat (map (fun r => be32 (TEE_MR_ION_ALG r) ++ be32 (TEE_MR_ION_ATTRIB r)) l).

(** The names with their terminators; [reg_names] has 256 bytes. *)
Fixpoint names_of (l : list mem_region) (acc : bytes) : option bytes :=
  match l with
  | [] => Some acc
  | r :: l => n ← str_at (mr_name r) 0; acc ← fits (Z.to_nat 256) (acc ++ n); names_of l (acc ++ [0])
  end.

(** [mem_region_property] has 64 words. *)
Definition setup_ion_mem (f : F) (l : list mem_region) : option F :=
  if decide (l = []) then Some f
  else
    let '(f, r) := fdt_open_into lib f DTB_SPACE in
    if r <? 0 then Some f
    else
      let offset := fdt_node_offset_by_compatible lib f str_heaps in
      if offset =? - FDT_ERR_NOTFOUND then Some f
      else if decide (16 < length l)%nat then None
      else
        let '(f, _) := fdt_setprop lib f offset str_pool_num (be32 (Z.of_nat (length l))) in
        let '(f, _) := fdt_setprop lib f offset str_reg (reg_cells l) in
        names ← names_of l [];
        let '(f, _) := fdt_setprop lib f offset str_reg_names names in
        let '(f, _) := fdt_setprop lib f offset str_attr_num (be32 2) in
        let '(f, _) := fdt_setprop lib f offset str_pool_attr (attr_cells l) in
        Some (fst (fdt_pack lib f)).

Definition setup_system_mem (f : F) (l : list mem_region) : F :=
  if decide (MAX_SYSTEM_SLOT < length l)%nat then f
  else if decide (l = []) then f
  else
    let '(f, r) := fdt_open_into lib f DTB_SPACE in
    if r <? 0 then f
    else
      let offset := fdt_path_offset lib f str_memory in
      let '(f, _) := fdt_setprop lib f offset str_reg (reg_cells l) in
      fst (fdt_pack lib f).

Variable tee_get_mem_region_list : Z -> Z * list mem_region.

Definition or_nil {A} (o : option (list A)) : list A := match o with Some l => l | None => [] end.

(** The array [system_mem] has two elements, but a third one may be stored. *)
Definition setup_tz_mem (s : mr_state) (f : F) : option (mr_state * F) :=
  '(s, sys) ← get_system_mem tee_get_mem_region_list s;
  '(s, bl) ← get_bl_mem tee_get_mem_region_list s;
  let sys := or_nil sys in
  let bl := or_nil bl in
  sys ← (if decide (bl = []) then Some sys
         else if decide (length bl = 1 /\ length sys < MAX_SYSTEM_SLOT)%nat then if decide (length sys < MAX_SYSTEM_POOL_NUM)%nat then Some (sys ++ bl) else None
         else Some sys);
  let f := setup_system_mem f sys in
  '(s, ion) ← get_ion_mem tee_get_mem_region_list s;
  f ← setup_ion_mem f (or_nil ion);
  '(s, _, rsv) ← get_reserved_mem tee_get_mem_region_list s;
  f ← setup_reserved_mem f rsv;
  Some (s, f).

(** ** The command line *)

Context {D : Type} (ops : blk D) (simple_strtol : bytes -> Z) (rom_spi_boot : bool) (malloc_table : option (list emmc_part)).
Context (stack blk_heap : bytes) (get_boot_slot : Z).

Definition setup_cma_param (s : mr_state) (cap : nat) (bootargs : bytes) : option bytes :=
  if negb (cma_pool_size s =? 0) && negb (cma_pool_start s =? 0)
  then fits cap (bootargs ++ str_cma ++ print_int (i32 (cma_pool_size s)) ++ [64] ++ print_int (i32 (cma_pool_start s)))
  else Some bootargs.

Definition f_mmc_get_part_index (env_get : bytes -> option bytes) (m : mmc_state D) (mmc_dev : Z) (name : bytes) : option (mmc_state D * Z) :=
  '(m, r) ← f_mmc_get_part_info ops env_get malloc_table m mmc_dev name;
  Some (m, match r with Some (i, _) => i | None => -1 end).

(** [index_str] *)
Definition root_device (mmc_dev hwpart index : Z) : bytes :=
  if 4 <=? hwpart then print_int mmc_dev ++ str_gp ++ print_int (hwpart - 4) ++ [112] ++ print_int index
  else print_int mmc_dev ++ [112] ++ print_int index.

Definition setup_rootfs (env_get : bytes -> option bytes) (m : mmc_state D) (cap : nat) (bootargs : bytes) : option (mmc_state D * bytes) :=
  '(m, slot) ← get_current_slot ops rom_spi_boot malloc_table stack blk_heap get_boot_slot m;
  let mmc_dev := get_mmc_active_dev env_get simple_strtol rom_spi_boot in
  let name := if slot =? BOOTSEL_A then str_rootfs_a else str_rootfs_b in
  if negb (mmc_dev =? 0) && negb (mmc_dev =? 1) then Some (m, bootargs)
  else
  bootargs ← fits cap (bootargs ++ str_root);
  '(m, ty) ← get_mmc_partition_type ops malloc_table m mmc_dev;
  '(m, hwpart, index) ← (if negb (ty =? 0) then Some (m, f_mmc_get_hwpart_from_table m name, f_mmc_get_part_from_table m name)
                         else '(m, i) ← f_mmc_get_part_index env_get m mmc_dev name; Some (m, 0, i));
  if (0 <=? hwpart) && (0 <=? index) then
    d ← fits 12 (root_device mmc_dev hwpart index);
    bootargs ← fits cap (bootargs ++ d);
    bootargs ← fits cap (bootargs ++ str_ro);
    Some (m, bootargs)
  else Some (m, bootargs).

Definition setup_fe_bgs (fe_bgs : Z) (cap : nat) (bootargs : bytes) : option bytes :=
  if (fe_bgs <? 0) || (0xff <? fe_bgs) then Some bootargs
  else t ← fits 18 (str_bgs ++ print_hex 20 fe_bgs); fits cap (bootargs ++ t).

(** [None] for NULL; the buffer has 256 bytes more than the old command line.  The
    comparison of bootargscontrol with "n" compares addresses and is false. *)
Definition setup_bootargs (malloc_ok : bool) (fe_bgs : option Z) (env_get : bytes -> option bytes) (s : mr_state) (m : mmc_state D)
  : option (mmc_state D * option bytes * Z) :=
  match env_get str_bootargs with
  | None => Some (m, None, 0)
  | Some bootargs =>
      if negb malloc_ok then Some (m, Some bootargs, - ENOMEM)
      else
        let cap := (length bootargs + Z.to_nat 256)%nat in
        new ← fits cap (bootargs ++ [32]);
        '(m, new) ← (if decide (env_get str_control = None) then '(m, new) ← setup_rootfs env_get m cap new; new ← fits cap (new ++ [32]); Some (m, new)
                      else Some (m, new));
        new ← (match fe_bgs with Some v => new ← setup_fe_bgs v cap new; fits cap (new ++ [32]) | None => Some new end);
        new ← setup_cma_param s cap new;
        Some (m, Some new, 0)
  end.

(** ** Voltages and the network address *)

Definition volt_cells (a b c : Z) : bytes := be32 a ++ be32 b ++ be32 c.

(** [fuel] is the number of nodes at most; a property of less than twelve bytes is
    read past its end. *)
Fixpoint opp_loop (fuel : nat) (f : F) (node vh vl vh_freq : Z) : option F :=
  if node <? 0 then Some f
  else
    match fuel with
    | O => None
    | S fuel =>
        match fdt_getprop lib f node str_microvolt with
        | None => opp_loop fuel f (fdt_next_subnode lib f node) vh vl vh_freq
        | Some p =>
            v1 ← be_field p 0 4; v3 ← be_field p 8 4;
            let f := if v1 <? v3 then fst (fdt_setprop lib f node str_microvolt (volt_cells vl vl vh))
                     else
                       let f := if (0 <? vh_freq) && (vh_freq <? 2500) then fst (fdt_set_name lib f node (take 19 (str_opp ++ print_dec 20 (vh_freq * 1000000)))) else f in
                       fst (fdt_setprop lib f node str_microvolt (volt_cells vh vh vh)) in
            opp_loop fuel f (fdt_next_subnode lib f node) vh vl vh_freq
        end
    end.

Definition update_opp_node (f : F) (offset vh vl vh_freq : Z) : option F := opp_loop (length (raw lib f)) f (fdt_first_subnode lib f offset) vh vl vh_freq.

Definition update_opp (path : bytes) (f : F) (vh vl vh_freq : Z) : option F :=
  let offset := fdt_path_offset lib f path in
  if offset <? 0 then Some f else update_opp_node f offset vh vl vh_freq.

Definition update_opp_vcpu : F -> Z -> Z -> Z -> option F := update_opp str_cpus.
Definition update_opp_vcore : F -> Z -> Z -> Z -> option F := update_opp str_vcore.

Context (leakage : Z) (get_vcpu_leakage_table get_vcore_leakage_table : list freq_leakage_table).

Definition setup_opp (f : F) : option F :=
  if leakage <? 0 then Some f
  else
    v ← get_vh_vl get_vcpu_leakage_table leakage;
    f ← (match v with Some (vl, vh) => q ← get_vh_freq get_vcpu_leakage_table; update_opp_vcpu f vh vl q | None => Some f end);
    v ← get_vh_vl get_vcore_leakage_table leakage;
    match v with Some (vl, vh) => q ← get_vh_freq get_vcore_leakage_table; update_opp_vcore f vh vl q | None => Some f end.

Definition setup_mac (mac : bytes) (f : F) : F :=
  let '(f, r) := fdt_open_into lib f DTB_SPACE in
  if r <? 0 then f
  else
    let offset := fdt_path_offset lib f str_ethernet in
    if offset <? 0 then f
    else
      let '(f, _) := match fdt_getprop lib f offset str_mac with Some _ => fdt_setprop lib f offset str_mac mac | None => fdt_appendprop lib f offset str_mac mac end in
      fst (fdt_pack lib f).

(** ** The overlay *)

Context (run_command : bytes -> F -> F * Z) (fdto_addr : option Z).

(** sprintf("%p"): sixteen digits *)
Definition print_ptr (a : Z) : bytes := replicate (16 - length (print_hex 20 a)) CH_0 ++ print_hex 20 a.

Definition setup_fdt_overlay (env_get : bytes -> option bytes) (m : mmc_state D) (f : F) : option (mmc_state D * F) :=
  match env_get str_dtbo, fdto_addr with
  | Some s, Some a =>
      let '(f, r) := run_command (str_resize ++ print_hex 20 1000) f in
      if negb (r =? 0) then Some (m, f)
      else
        '(m, slot) ← get_current_slot ops rom_spi_boot malloc_table stack blk_heap get_boot_slot m;
        let mmc_dev := get_mmc_active_dev env_get simple_strtol rom_spi_boot in
        '(m, part) ← f_mmc_get_part_index env_get m mmc_dev (if slot =? 0 then str_rootfs_a else str_rootfs_b);
        cmd ← fits (Z.to_nat 512) (str_ext4load ++ print_hex 20 mmc_dev ++ [58] ++ print_hex 20 (u32 part) ++ [32] ++ print_ptr a ++ [32] ++ str_boot ++ s);
        let '(f, r) := run_command cmd f in
        if negb (r =? 0) then Some (m, f)
        else Some (m, fst (run_command (str_apply ++ print_ptr a) f))
  | _, _ => Some (m, f)
  end.

(** ** The whole update *)

Record fu_state := mk_fu { fdt : F; mrs : mr_state; mmc : mmc_state D; env : bytes -> option bytes }.

Definition set_env (name : bytes) (v : option bytes) (e : bytes -> option bytes) : bytes -> option bytes :=
  fun n => if decide (n = name) then v else e n.

Definition skips (s : fu_state) (bit : Z) : bool :=
  match env s str_skip with Some v => Z.testbit (i32 (simple_strtol v)) bit | None => false end.

Definition fdt_update (malloc_ok : bool) (fe_bgs : option Z) (mac : bytes) (s : fu_state) : option fu_state :=
  s1 ← (if skips s 0 then Some s else '(r, f) ← setup_tz_mem (mrs s) (fdt s); Some (mk_fu f r (mmc s) (env s)));
  s2 ← (if skips s 1 then Some s1
        else '(m, b, _) ← setup_bootargs malloc_ok fe_bgs (env s1) (mrs s1) (mmc s1); Some (mk_fu (fdt s1) (mrs s1) m (set_env str_bootargs b (env s1))));
  s3 ← (if skips s 2 then Some s2 else f ← setup_opp (fdt s2); Some (mk_fu f (mrs s2) (mmc s2) (env s2)));
  let s4 := if skips s 3 then s3 else mk_fu (setup_mac mac (fdt s3)) (mrs s3) (mmc s3) (env s3) in
  if skips s 4 then Some s4 else '(m, f) ← setup_fdt_overlay (env s4) (mmc s4) (fdt s4); Some (mk_fu f (mrs s4) m (env s4)).

End Update.

(** ** The tables of the boards (mach-synaptics/drivers/pmic) *)

Module Dolphin.
Definition vcpu_h : list (Z * Z) := [(600, 990000); (860, 950000); (1120, 925000); (1380, 915000); (1640, 915000); (1900, 900000); (2160, 890000); (2420, 875000); (2680, 865000); (3000, 865000); (0xffff, 865000)].
Definition vcpu_l : list (Z * Z) := [(600, 890000); (860, 850000); (1120, 825000); (1380, 815000); (1640, 815000); (1900, 800000); (2160, 790000); (2420, 775000); (2680, 765000); (3000, 765000); (0xffff, 765000)].
Definition vcore_l : list (Z * Z) := [(600, 890000); (860, 865000); (1120, 850000); (1380, 840000); (1640, 825000); (1900, 815000); (2160, 815000); (2420, 800000); (2680, 790000); (3000, 775000); (0xffff, 775000)].
Definition vcore_h : list (Z * Z) := [(600, 915000); (860, 900000); (1120, 875000); (1380, 865000); (1640, 850000); (1900, 850000); (2160, 840000); (2420, 825000); (2680, 815000); (3000, 800000); (0xffff, 800000)].
Definition vcpu_table : list freq_leakage_table := [mk_flt 1800 vcpu_l; mk_flt 2100 vcpu_h; mk_flt 0 []].
Definition vcore_table : list freq_leakage_table := [mk_flt 900 vcore_l; mk_flt 1100 vcore_h; mk_flt 0 []].
End Dolphin.

Module Myna2.
Definition m2_vcore_h : list (Z * Z) := [(200, 955000); (300, 905000); (400, 875000); (500, 855000); (600, 840000); (0xffff, 825000)].
Definition m2_vcore_l : list (Z * Z) := [(200, 880000); (300, 830000); (400, 800000); (500, 780000); (600, 765000); (0xffff, 750000)].
Definition m2_vcore_table : list freq_leakage_table := [mk_flt 1700 m2_vcore_l; mk_flt 1900 m2_vcore_h; mk_flt 0 []].
End Myna2.

Module Platypus.
Definition p_vcpu_h : list (Z * Z) := [(200, 975000); (400, 950000); (600, 900000); (800, 875000); (1000, 850000); (1200, 825000); (1400, 815000); (0xffff, 815000)].
Definition p_vcpu_l : list (Z * Z) := [(200, 900000); (400, 865000); (600, 840000); (800, 815000); (1000, 800000); (1200, 775000); (1400, 765000); (0xffff, 765000)].
Definition p_vcore_h : list (Z * Z) := [(200, 900000); (400, 875000); (600, 850000); (800, 825000); (1000, 800000); (1200, 775000); (1400, 765000); (0xffff, 765000)].
Definition p_vcore_l : list (Z * Z) := [(200, 890000); (400, 865000); (600, 815000); (800, 790000); (1000, 765000); (1200, 750000); (1400, 740000); (0xffff, 740000)].
Definition p_vcpu_table : list freq_leakage_table := [mk_flt 1800 p_vcpu_l; mk_flt 2000 p_vcpu_h; mk_flt 0 []].
Definition p_vcore_table : list freq_leakage_table := [mk_flt 700 p_vcore_l; mk_flt 800 p_vcore_h; mk_flt 0 []].
End Platypus.
