(* ===== verification/FdtSafety.v ===== *)
(** * Handing the memory over to the kernel: properties (fdt_update.c)

    What the kernel finds in its device tree and on its command line, and where the
    update damages the tree. *)

From S2P Require Import Prelude Disk UbootMmc LoadGpt BootMode UbootSlots SynaLoad EmmcText EmmcBurn EmmcLists Mmgr MemRegion MemSafety FdtUpdate.

(** ** The reserved memory *)

Definition rsv_entry (r : Z * Z) : bytes := be64 (fst r) ++ be64 (snd r).

(** The entries that the loop leaves behind, from round [i] on. *)
Fixpoint rsv_out (i : nat) (l : list (Z * Z)) : bytes :=
  match l with [] => replicate 16 0 | r :: l => rsv_entry r ++ replicate (16 * i) 0 ++ rsv_out (S i) l end.

Lemma rsv_entry_length r : length (rsv_entry r) = 16%nat.
Proof. unfold rsv_entry, be64. now rewrite length_app, !length_rev. Qed.

Lemma splice_here pre old w post : length old = length w -> splice (pre ++ old ++ post) (length pre) w = pre ++ w ++ post.
Proof. intros H. unfold splice. rewrite take_app_length. do 2 f_equal. rewrite app_assoc, drop_app_length' by (rewrite length_app; lia). done. Qed.

Lemma be_field_here pre w post n : length w = n -> be_field (pre ++ w ++ post) (length pre) n = Some (le_val (rev w)).
Proof. intros <-. unfold be_field, bytes_at. rewrite decide_True by (rewrite !length_app; lia). rewrite drop_app_length, take_app_length. done. Qed.

Lemma rsv_loop_ok l : forall m fuel pre post p i, drop i l = m -> (length m < fuel)%nat -> (p + 16 * i)%nat = length pre ->
  rsv_loop fuel (pre ++ replicate (length (rsv_out i m)) 0 ++ post) p i l = Some (pre ++ rsv_out i m ++ post).
Proof.
  induction m as [|[a n] m IH]; intros fuel pre post p i Hd Hf Hp; (destruct fuel as [|fuel]; [cbn in Hf; lia|]); cbn [rsv_loop]; rewrite Hp.
  - assert (Hi : l !! i = None) by (apply lookup_ge_None, skipn_all_iff; exact Hd). rewrite Hi. cbn [rsv_out]. rewrite length_replicate.
    replace (pre ++ replicate 16 0 ++ post) with ((pre ++ replicate 8 0) ++ replicate 8 0 ++ post) by now rewrite <- app_assoc.
    replace (length pre + 8)%nat with (length (pre ++ replicate 8 0)) by (rewrite length_app, length_replicate; lia). rewrite be_field_here by done. done.
  - assert (Hi : l !! i = Some (a, n)) by (rewrite <- (Nat.add_0_r i), <- lookup_drop, Hd; done). rewrite Hi. cbn [rsv_out].
    set (tail := rsv_out (S i) m) in *. rewrite !length_app, rsv_entry_length, length_replicate. rewrite replicate_add, <- app_assoc. unfold store_at.
    rewrite decide_True by (rewrite !length_app, !length_replicate; unfold be64; rewrite !length_rev; cbn [length le64 le32 app]; lia). change (be64 a ++ be64 n) with (rsv_entry (a, n)). rewrite splice_here by (now rewrite rsv_entry_length). cbn [mbind option_bind].
    rewrite (replicate_add (16 * i)). set (pre' := pre ++ rsv_entry (a, n) ++ replicate (16 * i) 0).
    replace (pre ++ rsv_entry (a, n) ++ (replicate (16 * i) 0 ++ replicate (length tail) 0) ++ post) with (pre' ++ replicate (length tail) 0 ++ post) by (unfold pre'; now rewrite <- !app_assoc).
    unfold tail. rewrite (IH fuel pre' post (length pre) (S i)).
    + unfold pre'. now rewrite <- !app_assoc.
    + apply (f_equal (drop 1)) in Hd. rewrite drop_drop, Nat.add_1_r in Hd. exact Hd.
    + cbn [length] in Hf. lia.
    + unfold pre'. rewrite !length_app, rsv_entry_length, length_replicate. lia.
Qed.

(** The reservations as libfdt reads them: up to one of size 0. *)
Fixpoint kernel_rsv (n : nat) (b : bytes) (p : nat) : list (Z * Z) :=
  match n with
  | O => []
  | S n => match be_field b p 8, be_field b (p + 8) 8 with
           | Some a, Some sz => if sz =? 0 then [] else (a, sz) :: kernel_rsv n b (p + 16)
           | _, _ => []
           end
  end.

Lemma le_val_be64 v : 0 <= v < 2 ^ 64 -> le_val (rev (be64 v)) = v.
Proof. intros H. unfold be64. rewrite rev_involutive. by apply le_val_le64. Qed.

Lemma kernel_entry n pre r post : 0 <= fst r < 2 ^ 64 -> 0 < snd r < 2 ^ 64 ->
  kernel_rsv (S n) (pre ++ rsv_entry r ++ post) (length pre) = r :: kernel_rsv n (pre ++ rsv_entry r ++ post) (length (pre ++ rsv_entry r)).
Proof.
  intros H1 H2. cbn [kernel_rsv]. unfold rsv_entry at 1 2. rewrite <- (app_assoc (be64 (fst r))). rewrite be_field_here by done.
  replace (pre ++ be64 (fst r) ++ be64 (snd r) ++ post) with ((pre ++ be64 (fst r)) ++ be64 (snd r) ++ post) by now rewrite <- app_assoc.
  replace (length pre + 8)%nat with (length (pre ++ be64 (fst r))) by (rewrite length_app; done). rewrite be_field_here, !le_val_be64 by (done || lia).
  rewrite (proj2 (Z.eqb_neq _ _)) by lia. destruct r as [a sz]. cbn [fst snd]. f_equal.
  replace (length pre + 16)%nat with (length (pre ++ rsv_entry (a, sz))) by (rewrite length_app, rsv_entry_length; lia). done.
Qed.

Lemma kernel_end n pre post : kernel_rsv n (pre ++ replicate 16 0 ++ post) (length pre) = [].
Proof.
  destruct n as [|n]; [done|]. cbn [kernel_rsv]. destruct (be_field _ (length pre) 8); [|done].
  replace (pre ++ replicate 16 0 ++ post) with ((pre ++ replicate 8 0) ++ replicate 8 0 ++ post) by now rewrite <- app_assoc.
  replace (length pre + 8)%nat with (length (pre ++ replicate 8 0)) by (rewrite length_app, length_replicate; lia). now rewrite be_field_here.
Qed.

Definition rsv_ok (r : Z * Z) : Prop := 0 <= fst r < 2 ^ 64 /\ 0 < snd r < 2 ^ 64.

(** Two entries, and the gap behind them. *)
Lemma kernel_two l n pre post : Forall rsv_ok l -> (3 <= n)%nat -> kernel_rsv n (pre ++ rsv_out 0 l ++ post) (length pre) = take 2 l.
Proof.
  intros Hl Hn. destruct n as [|[|[|n]]]; [lia..|]. destruct l as [|r0 [|r1 l]]; [apply kernel_end| |].
  - apply Forall_cons_iff in Hl as [[H1 H2] _]. change (rsv_out 0 [r0]) with (rsv_entry r0 ++ replicate 16 0). rewrite <- app_assoc, kernel_entry by done. rewrite (app_assoc pre (rsv_entry r0)). now rewrite kernel_end.
  - apply Forall_cons_iff in Hl as [[H1 H2] Hl]. apply Forall_cons_iff in Hl as [[H3 H4] _]. change (rsv_out 0 (r0 :: r1 :: l)) with (rsv_entry r0 ++ rsv_entry r1 ++ replicate 16 0 ++ rsv_out 2 l).
    rewrite <- !app_assoc, kernel_entry by done. rewrite (app_assoc pre (rsv_entry r0)), kernel_entry by done. rewrite (app_assoc _ (rsv_entry r1)). now rewrite kernel_end.
Qed.

(** With room for them in the tree, the entries are written at the places 0, 1, 3, 6
    and so on, and the kernel sees the first two reservations only. *)
Theorem first_two_reserved pre post l : l <> [] -> Forall rsv_ok l -> (20 <= length pre)%nat -> be_field pre 16 4 = Some (Z.of_nat (length pre)) ->
  exists b, setup_reserved_mem_raw (pre ++ replicate (length (rsv_out 0 l)) 0 ++ post) l = Some b /\ length b = length (pre ++ replicate (length (rsv_out 0 l)) 0 ++ post) /\
    take (length pre) b = pre /\ kernel_rsv (length b) b (length pre) = take 2 l.
Proof.
  intros Hne Hl Hpre Hoff. exists (pre ++ rsv_out 0 l ++ post). assert (Hlen : length (pre ++ rsv_out 0 l ++ post) = length (pre ++ replicate (length (rsv_out 0 l)) 0 ++ post)) by (rewrite !length_app, length_replicate; done).
  split; [|split; [exact Hlen|split; [apply take_app_length|apply kernel_two; [done|rewrite length_app; lia]]]].
  assert (Ho : be_field (pre ++ replicate (length (rsv_out 0 l)) 0 ++ post) 16 4 = Some (Z.of_nat (length pre))).
  { rewrite <- Hoff. unfold be_field, bytes_at. rewrite !decide_True by (rewrite ?length_app; lia). cbn [mbind option_bind]. do 3 f_equal. rewrite drop_app_le, take_app_le by (rewrite ?length_drop; lia). done. }
  unfold setup_reserved_mem_raw. rewrite Ho. cbn [mbind option_bind]. rewrite Nat2Z.id. apply rsv_loop_ok; [done|lia|lia].
Qed.

(** Nothing before the current entry is changed. *)
Lemma rsv_frame fuel : forall b p i l b', rsv_loop fuel b p i l = Some b' -> length b' = length b /\ take (p + 16 * i) b' = take (p + 16 * i) b.
Proof.
  induction fuel as [|fuel IH]; intros b p i l b' H; [done|]. cbn [rsv_loop] in H. set (q := (p + 16 * i)%nat) in *. clearbody q.
  assert (Hst : forall w b1, length w = 16%nat -> store_at b q w = Some b1 -> rsv_loop fuel b1 q (S i) l = Some b' -> length b' = length b /\ take q b' = take q b).
  { intros w b1 Hw Hs Hr. unfold store_at in Hs. case_decide as Hq; [|done]. injection Hs as <-. apply IH in Hr as [R1 R2]. assert (Hls : length (splice b q w) = length b) by (apply length_splice; lia). split; [lia|].
    apply (f_equal (take q)) in R2. rewrite !take_take, !Nat.min_l in R2 by lia. rewrite R2. unfold splice. rewrite take_app_le, take_take by (rewrite length_take; lia). f_equal. lia. }
  destruct (l !! i) as [[a n]|].
  - inv_bind. eapply Hst; [|eassumption|eassumption]. apply (rsv_entry_length (a, n)).
  - inv_bind. destruct (_ =? 0) in *; [by injection H as <-|]. inv_bind. by eapply Hst; [|eassumption|eassumption].
Qed.

(** A later round leaves the entry at [q] as it is. *)
Lemma rsv_keeps fuel pre e rest i l b' : length e = 16%nat -> rsv_loop fuel (pre ++ e ++ rest) (length pre) (S i) l = Some b' -> take 8 (drop (length pre) b') = take 8 e.
Proof.
  intros He H. apply rsv_frame in H as [_ H]. apply (f_equal (drop (length pre))) in H. apply (f_equal (take 8)) in H. rewrite !skipn_firstn_comm, !take_take in H.
  rewrite !Nat.min_l in H by lia. rewrite H, drop_app_length, take_app_le by lia. done.
Qed.

Lemma root_node_val : le_val (rev (be32 1 ++ be32 0)) = 2 ^ 32.
Proof. reflexivity. Qed.

(** The tree that fdt_pack() has left: the structure block begins with the root node
    right behind the entry that ends an empty list of reservations.  A reservation
    destroys the beginning of the root node. *)
Theorem packed_tree_damaged pre w tail l b' : l <> [] -> Forall (fun r => 0 <= fst r < 2 ^ 32) l -> (20 <= length pre)%nat -> be_field pre 16 4 = Some (Z.of_nat (length pre)) ->
  length w = 8%nat -> le_val (rev w) <> 0 ->
  setup_reserved_mem_raw (pre ++ replicate 16 0 ++ (be32 1 ++ be32 0 ++ w) ++ tail) l = Some b' -> take 8 (drop (length pre + 16) b') <> be32 1 ++ be32 0.
Proof.
  intros Hne Hl Hpre Hoff Hw Hwn H. set (root := be32 1 ++ be32 0 ++ w) in *. assert (Hroot : length root = 16%nat) by (unfold root, be32; rewrite !length_app, !length_rev, Hw; done).
  assert (Ho : be_field (pre ++ replicate 16 0 ++ root ++ tail) 16 4 = Some (Z.of_nat (length pre))).
  { rewrite <- Hoff. unfold be_field, bytes_at. rewrite !decide_True by (rewrite ?length_app; lia). cbn [mbind option_bind]. do 3 f_equal. rewrite drop_app_le, take_app_le by (rewrite ?length_drop; lia). done. }
  unfold setup_reserved_mem_raw in H. rewrite Ho in H. cbn [mbind option_bind] in H. rewrite Nat2Z.id in H.
  match type of H with rsv_loop (S ?n) _ _ _ _ = _ => destruct n as [|fuel] eqn:Ef end; [rewrite length_app in Ef; lia|]. destruct l as [|[a0 n0] l]; [done|].
  cbn [rsv_loop lookup list_lookup] in H. rewrite Nat.mul_0_r, Nat.add_0_r in H. change (be64 a0 ++ be64 n0) with (rsv_entry (a0, n0)) in H. rewrite store_at_ok in H by (rewrite rsv_entry_length, !length_app, length_replicate; lia).
  rewrite splice_here in H by (now rewrite rsv_entry_length). cbn [mbind option_bind] in H. set (pre1 := pre ++ rsv_entry (a0, n0)).
  replace (pre ++ rsv_entry (a0, n0) ++ root ++ tail) with (pre1 ++ root ++ tail) in H by (unfold pre1; now rewrite <- app_assoc).
  assert (Hp1 : (length pre + 16 * 1)%nat = length pre1) by (unfold pre1; rewrite length_app, rsv_entry_length; lia). rewrite Hp1 in H. replace (length pre + 16)%nat with (length pre1) by lia.
  assert (Hst : forall e, length e = 16%nat -> le_val (rev (take 8 e)) <> 2 ^ 32 -> rsv_loop fuel (pre1 ++ e ++ tail) (length pre1) 2 ((a0, n0) :: l) = Some b' -> take 8 (drop (length pre1) b') <> be32 1 ++ be32 0).
  { intros e He Hv Hr. apply rsv_keeps in Hr; [|done]. rewrite Hr. intros E. apply Hv. rewrite E. apply root_node_val. }
  assert (Hin : forall e : bytes, length e = 16%nat -> store_at (pre1 ++ root ++ tail) (length pre1) e = Some (pre1 ++ e ++ tail)).
  { intros e He. unfold store_at. rewrite decide_True by (rewrite !length_app; lia). now rewrite splice_here by lia. }
  destruct l as [|[a1 n1] l]; cbn [lookup list_lookup] in H.
  - assert (Es : be_field (pre1 ++ root ++ tail) (length pre1 + 8) 8 = Some (le_val (rev w))).
    { replace (pre1 ++ root ++ tail) with ((pre1 ++ be32 1 ++ be32 0) ++ w ++ tail) by (unfold root; now rewrite <- !app_assoc). replace (length pre1 + 8)%nat with (length (pre1 ++ be32 1 ++ be32 0)) by (rewrite !length_app; done). by apply be_field_here. }
    rewrite Es in H. cbn [mbind option_bind] in H. rewrite (proj2 (Z.eqb_neq _ _) Hwn), Hin in H by done. by apply (Hst (replicate 16 0)).
  - change (be64 a1 ++ be64 n1) with (rsv_entry (a1, n1)) in H. rewrite Hin in H by apply rsv_entry_length. apply (Hst (rsv_entry (a1, n1))); [apply rsv_entry_length| |exact H].
    apply Forall_cons_iff in Hl as [_ Hl]. apply Forall_cons_iff in Hl as [Ha _]. cbn [fst] in Ha. unfold rsv_entry. cbn [fst snd]. rewrite take_app_length' by done. rewrite le_val_be64 by lia. lia.
Qed.

(** ** The memory nodes *)

Inductive node_key := ByPath (p : bytes) | ByCompat (c : bytes).

(** The room that a property takes at most. *)
Definition cost (name value : bytes) : Z := 16 + Z.of_nat (length name + length value).

(** "compatible" *)
Definition str_compatible : bytes := [99; 111; 109; 112; 97; 116; 105; 98; 108; 101].

(** What libfdt promises: nodes keep their identity, a property that is set has the
    value, the other properties are kept, and there is room as long as the packed tree
    fits.  [at_node f off a] says that node [a] is at the offset; [node_of] knows the
    nodes by their path from the root and by what they are compatible with; [used] is
    the size of the packed tree, if it is one. *)
Class FdtLaws {F : Type} (lib : fdt_lib F) := {
  node_of : F -> node_key -> option nat;
  prop : F -> nat -> bytes -> option bytes;
  at_node : F -> Z -> nat -> Prop;
  used : F -> Z;
  room : F -> Z;
  fl_open f : used f <= DTB_SPACE -> exists f', fdt_open_into lib f DTB_SPACE = (f', 0) /\ (forall k, node_of f' k = node_of f k) /\
    (forall a n, prop f' a n = prop f a n) /\ used f' = used f /\ room f' = DTB_SPACE - used f;
  fl_pack f : used f <= DTB_SPACE -> exists f', fdt_pack lib f = (f', 0) /\ (forall k, node_of f' k = node_of f k) /\ (forall a n, prop f' a n = prop f a n) /\ used f' = used f;
  fl_path f p a : node_of f (ByPath p) = Some a -> at_node f (fdt_path_offset lib f p) a;
  fl_compat f c a : node_of f (ByCompat c) = Some a -> 0 <= fdt_node_offset_by_compatible lib f c /\ at_node f (fdt_node_offset_by_compatible lib f c) a;
  fl_set f off a n v : at_node f off a -> n <> str_compatible -> cost n v <= room f -> exists f', fdt_setprop lib f off n v = (f', 0) /\ at_node f' off a /\ (forall k, node_of f' k = node_of f k) /\
    (forall a' n', prop f' a' n' = if decide (a' = a /\ n' = n) then Some v else prop f a' n') /\ used f' <= used f + cost n v /\ room f - cost n v <= room f';
}.

Section Nodes.
Context {F : Type} {lib : fdt_lib F} `{!FdtLaws lib}.

(** The tree after some properties of node [a] have been set: the last one first. *)
Fixpoint with_props (l : list (bytes * bytes)) (a : nat) (old : nat -> bytes -> option bytes) (a' : nat) (n' : bytes) : option bytes :=
  match l with [] => old a' n' | (n, v) :: l => if decide (a' = a /\ n' = n) then Some v else with_props l a old a' n' end.

Definition costs (l : list (bytes * bytes)) : Z := foldr (fun x t => cost (fst x) (snd x) + t) 0 l.

Fixpoint set_all (f : F) (off : Z) (l : list (bytes * bytes)) : F :=
  match l with [] => f | (n, v) :: l => set_all (fst (fdt_setprop lib f off n v)) off l end.

Lemma costs_nonneg l : 0 <= costs l.
Proof. unfold costs. induction l as [|x l IH]; cbn [foldr]; [lia|]. unfold cost in *. lia. Qed.

Lemma set_all_ok l : forall f off a, at_node f off a -> Forall (fun x => fst x <> str_compatible) l -> costs l <= room f -> at_node (set_all f off l) off a /\ (forall k, node_of (set_all f off l) k = node_of f k) /\
  (forall a' n', prop (set_all f off l) a' n' = with_props (rev l) a (prop f) a' n') /\ used (set_all f off l) <= used f + costs l.
Proof.
  induction l as [|[n v] l IH]; intros f off a Hat Hnc Hr; cbn [set_all costs foldr fst snd] in *; [split_and!; [done|done|done|lia]|]. fold (costs l) in *. apply Forall_cons_iff in Hnc as [Hn1 Hnc].
  pose proof (costs_nonneg l) as Hc.
  destruct (fl_set f off a n v Hat Hn1 ltac:(unfold cost in *; lia)) as (f' & -> & Hat' & Hk & Hp & Hu & Hr'). cbn [fst]. destruct (IH f' off a Hat' Hnc ltac:(lia)) as (I1 & I2 & I3 & I4). split_and!; [done|intros k; by rewrite I2| |lia].
  intros a' n'. rewrite I3. cbn [rev]. assert (G : forall m, with_props m a (prop f') a' n' = with_props (m ++ [(n, v)]) a (prop f) a' n') by (clear -Hp; induction m as [|[x y] m IH]; cbn [app with_props]; [apply Hp|by rewrite IH]). apply G.
Qed.

Definition ion_props (ions : list mem_region) (names : bytes) : list (bytes * bytes) :=
  [(str_pool_num, be32 (Z.of_nat (length ions))); (str_reg, reg_cells ions); (str_reg_names, names); (str_attr_num, be32 2); (str_pool_attr, attr_cells ions)].

Lemma reg_cells_length l : length (reg_cells l) = (16 * length l)%nat.
Proof. unfold reg_cells. induction l as [|r l IH]; [done|]. cbn [map concat]. rewrite length_app, IH. cbn [length]. unfold be32. rewrite !length_app, !length_rev. cbn [length le32]. lia. Qed.

Lemma attr_cells_length l : length (attr_cells l) = (8 * length l)%nat.
Proof. unfold attr_cells. induction l as [|r l IH]; [done|]. cbn [map concat]. rewrite length_app, IH. cbn [length]. unfold be32. rewrite !length_app, !length_rev. cbn [length le32]. lia. Qed.

Lemma names_short l : forall acc names, names_of l acc = Some names -> (length acc <= 256)%nat -> (length names <= 256)%nat.
Proof.
  induction l as [|r l IH]; intros acc names H Ha; cbn [names_of] in H; [by injection H as <-|]. inv_bind. unfold fits in E0. case_decide as Hf; [|done]. injection E0 as <-.
  eapply IH; [exact H|]. rewrite length_app. cbn [length]. lia.
Qed.

Lemma system_ok f a l : (1 <= length l <= 3)%nat -> node_of f (ByPath str_memory) = Some a -> used f + 128 <= DTB_SPACE ->
  (forall k, node_of (setup_system_mem lib f l) k = node_of f k) /\ (forall a' n', prop (setup_system_mem lib f l) a' n' = if decide (a' = a /\ n' = str_reg) then Some (reg_cells l) else prop f a' n') /\
  used (setup_system_mem lib f l) <= used f + 128.
Proof.
  intros Hl Ha Hu. unfold setup_system_mem, MAX_SYSTEM_SLOT, MAX_SYSTEM_POOL_NUM. rewrite decide_False by lia. rewrite decide_False by (intros ->; cbn in Hl; lia).
  assert (Hopen : used f <= DTB_SPACE) by lia. destruct (fl_open f Hopen) as (f1 & -> & K1 & P1 & U1 & R1). cbn [Z.ltb Z.compare]. pose proof (fl_path f1 str_memory a ltac:(by rewrite K1)) as Hat.
  assert (Hc : cost str_reg (reg_cells l) <= 128) by (unfold cost; rewrite reg_cells_length; cbn [length str_reg]; lia).
  destruct (fl_set f1 _ a str_reg (reg_cells l) Hat ltac:(done) ltac:(lia)) as (f2 & -> & _ & K2 & P2 & U2 & _). assert (Hpack : used f2 <= DTB_SPACE) by lia. destruct (fl_pack f2 Hpack) as (f3 & -> & K3 & P3 & U3). cbn [fst].
  split_and!; [intros k; by rewrite K3, K2, K1|intros a' n'; rewrite P3, P2, P1; done|lia].
Qed.

Lemma ion_ok_tree f b l names : (1 <= length l <= 16)%nat -> names_of l [] = Some names -> node_of f (ByCompat str_heaps) = Some b -> used f + 1024 <= DTB_SPACE -> exists f',
  setup_ion_mem lib f l = Some f' /\ (forall k, node_of f' k = node_of f k) /\ (forall a' n', prop f' a' n' = with_props (rev (ion_props l names)) b (prop f) a' n').
Proof.
  intros Hl Hn Hb Hu. unfold setup_ion_mem. rewrite decide_False by (intros ->; cbn in Hl; lia). assert (Hopen : used f <= DTB_SPACE) by lia. destruct (fl_open f Hopen) as (f1 & -> & K1 & P1 & U1 & R1). cbn [Z.ltb Z.compare].
  destruct (fl_compat f1 str_heaps b ltac:(by rewrite K1)) as [Ho Hat]. rewrite (proj2 (Z.eqb_neq _ _)) by (unfold FDT_ERR_NOTFOUND; lia). rewrite decide_False by lia.
  assert (Hnl : (length names <= 256)%nat) by (eapply names_short; [exact Hn|cbn; lia]). set (off := fdt_node_offset_by_compatible lib f1 str_heaps) in *.
  assert (Hc : costs (ion_props l names) <= 1024) by (unfold costs, ion_props, cost; cbn [foldr fst snd]; rewrite reg_cells_length, attr_cells_length; cbn [length str_pool_num str_reg str_reg_names str_attr_num str_pool_attr be32 rev le32 app]; lia).
  destruct (set_all_ok (ion_props l names) f1 off b Hat) as (_ & K2 & P2 & U2); [repeat constructor; done|lia|]. assert (Hpack : used (set_all f1 off (ion_props l names)) <= DTB_SPACE) by lia. destruct (fl_pack _ Hpack) as (f3 & E3 & K3 & P3 & _).
  exists f3. split; [|split; [intros k; by rewrite K3, K2, K1|intros a' n'; rewrite P3, P2; clear -P1; induction (rev (ion_props l names)) as [|[x y] m IH]; cbn [with_props]; [apply P1|by rewrite IH]]].
  unfold ion_props in E3. cbn [set_all] in E3. rewrite Hn. do 5 (match goal with |- context [fdt_setprop lib ?g off ?n ?v] => let x := fresh "g" in destruct (fdt_setprop lib g off n v) as [x ?] eqn:? end; cbn [mbind option_bind fst] in * ). by rewrite E3.
Qed.

Definition is_ion (r : mem_region) : bool := TEE_MR_USER_IS_ION r && negb (TEE_MR_ION_IS_CMA r).

Lemma bl_loop_ok l : bl_loop l = match List.find TEE_MR_USER_IS_BL l with Some r => [r] | None => [] end.
Proof. induction l as [|r l IH]; [done|]. cbn [bl_loop List.find]. by destruct (TEE_MR_USER_IS_BL r). Qed.

Lemma with_props_other l a old a' n' : (a', n') ∉ map (fun x => (a, fst x)) l -> with_props l a old a' n' = old a' n'.
Proof.
  induction l as [|[n v] l IH]; cbn [map with_props fst]; [done|]. intros H. apply not_elem_of_cons in H as [H1 H2]. rewrite decide_False by (intros [-> ->]; by apply H1). by apply IH.
Qed.

(** C16: With exactly one region of system memory, no region inside it, one of U-Boot and
    one to sixteen pools, and room in the tree: the system memory and the memory of U-Boot
    are told to the kernel, and the pools for its drivers with their names and attributes;
    no other property is touched. *)
Theorem tz_mem_told tee l s f r0 bl names a b : listed l s -> List.filter TEE_MR_USER_IS_SYSTEM l = [r0] -> List.find TEE_MR_USER_IS_BL l = Some bl ->
  (1 <= length (List.filter is_ion l) <= 16)%nat -> names_of (List.filter is_ion l) [] = Some names -> List.filter (inside r0) l = [] ->
  0 <= mr_base r0 -> 0 <= mr_size r0 -> mr_base r0 + mr_size r0 < 2 ^ 32 ->
  node_of f (ByPath str_memory) = Some a -> node_of f (ByCompat str_heaps) = Some b -> a <> b -> used f + 1152 <= DTB_SPACE ->
  exists f', setup_tz_mem lib tee s f = Some (s, f') /\ prop f' a str_reg = Some (reg_cells [r0; bl]) /\
    prop f' b str_pool_num = Some (be32 (Z.of_nat (length (List.filter is_ion l)))) /\ prop f' b str_reg = Some (reg_cells (List.filter is_ion l)) /\
    prop f' b str_reg_names = Some names /\ prop f' b str_attr_num = Some (be32 2) /\ prop f' b str_pool_attr = Some (attr_cells (List.filter is_ion l)) /\
    (forall a' n', (a', n') ∉ [(a, str_reg); (b, str_pool_num); (b, str_reg); (b, str_reg_names); (b, str_attr_num); (b, str_pool_attr)] -> prop f' a' n' = prop f a' n').
Proof.
  intros Hl Hs Hb Hi Hn Hr B1 B2 B3 Ha Hbn Hab Hu. pose proof (listed_reserved tee l s r0 [] Hl Hs B1 B2 B3) as Hrsv. rewrite Hr in Hrsv. cbn [map] in Hrsv.
  unfold setup_tz_mem, get_system_mem, get_bl_mem, get_ion_mem. rewrite (listed_get tee l s Hl). cbn [mbind option_bind]. rewrite (listed_get tee l s Hl). cbn [mbind option_bind or_nil].
  rewrite system_loop_ok, Hs, bl_loop_ok, Hb by (cbn; lia). cbn [app take length]. rewrite decide_False, decide_True by (done || (unfold MAX_SYSTEM_SLOT, MAX_SYSTEM_POOL_NUM; lia)). rewrite decide_True by (unfold MAX_SYSTEM_POOL_NUM; lia).
  cbn [mbind option_bind app]. rewrite (listed_get tee l s Hl). cbn [mbind option_bind or_nil]. rewrite ion_loop_ok. cbn [app]. change (List.filter _ l) with (List.filter is_ion l).
  destruct (system_ok f a [r0; bl]) as (K1 & P1 & U1); [cbn; lia|done|lia|]. set (f1 := setup_system_mem lib f [r0; bl]) in *.
  destruct (ion_ok_tree f1 b (List.filter is_ion l) names) as (f2 & -> & _ & P2); [done|done|by rewrite K1|lia|]. cbn [mbind option_bind]. rewrite Hrsv. cbn [mbind option_bind].
  exists f2. split; [done|]. assert (Hat : forall n, prop f2 a n = if decide (n = str_reg) then Some (reg_cells [r0; bl]) else prop f a n).
  { intros n. rewrite P2, with_props_other, P1; [case_decide as E1; case_decide as E2; naive_solver|]. intros H. apply list_elem_of_In, in_map_iff in H as (x & [= H _] & _). congruence. }
  split; [rewrite Hat; by rewrite decide_True|]. do 5 (split; [rewrite P2; unfold ion_props; cbn [rev app with_props]; rewrite ?decide_False by (intros [_ ?]; done); by rewrite decide_True|]). intros a' n' H. destruct (decide (a' = a)) as [->|Hne].
  - rewrite Hat, decide_False; [done|]. intros ->. apply H. apply list_elem_of_here.
  - rewrite P2, with_props_other, P1; [by rewrite decide_False by tauto|]. intros Hin. apply H. rewrite list_elem_of_In in *. unfold ion_props in Hin. cbn [rev app map fst In] in *. tauto.
Qed.

(** A second system region and a region of U-Boot: the third element of [system_mem]
    is stored behind its end. *)
Theorem tz_mem_overflow tee l s f r0 r1 rest bl : listed l s -> List.filter TEE_MR_USER_IS_SYSTEM l = r0 :: r1 :: rest -> List.find TEE_MR_USER_IS_BL l = Some bl -> setup_tz_mem lib tee s f = None.
Proof.
  intros Hl Hs Hb. unfold setup_tz_mem, get_system_mem, get_bl_mem. rewrite (listed_get tee l s Hl). cbn [mbind option_bind]. rewrite (listed_get tee l s Hl). cbn [mbind option_bind or_nil].
  rewrite system_loop_ok, Hs, bl_loop_ok, Hb by (cbn; lia). change (take 2 ([] ++ r0 :: r1 :: rest)) with [r0; r1]. cbn [length].
  rewrite decide_False, decide_True by (done || (unfold MAX_SYSTEM_SLOT, MAX_SYSTEM_POOL_NUM; lia)). by rewrite decide_False by (unfold MAX_SYSTEM_POOL_NUM; lia).
Qed.

End Nodes.

(** ** The voltages *)

(** The rows are in the order of the leakage, the voltages fall, and the last row is
    for every leakage that is left. *)
Fixpoint falling (l : list (Z * Z)) : bool :=
  match l with
  | [] => false
  | [(info, _)] => info =? 0xffff
  | (info, volt) :: ((info', volt') :: _) as l => (info <? info') && (volt' <=? volt) && falling l
  end.

Definition between (lo hi : Z) (l : list (Z * Z)) : bool := forallb (fun r => (lo <=? snd r) && (snd r <=? hi)) l.

Lemma falling_volt l leakage : falling l = true -> leakage <= 0xffff -> exists v, volt_loop l leakage = Some v /\ In v (map snd l).
Proof.
  induction l as [|[i v] l IH]; [done|]. intros Hf Hle. cbn [volt_loop map In snd]. destruct (Z.leb_spec leakage i); [eexists; split; [done|by left]|].
  destruct l as [|[i' v'] l]; [cbn in Hf; lia|]. cbn [falling] in Hf. apply andb_prop in Hf as [_ Hf]. destruct (IH Hf Hle) as (w & -> & Hw). eexists; split; [done|by right].
Qed.

Lemma falling_anti l : forall p q v w, falling l = true -> p <= q -> volt_loop l p = Some v -> volt_loop l q = Some w -> w <= v.
Proof.
  assert (Hd : forall l i v q w, falling ((i, v) :: l) = true -> volt_loop ((i, v) :: l) q = Some w -> w <= v).
  { clear l. induction l as [|[i' v'] l IH]; intros i v q w Hf; cbn [volt_loop]; (destruct (Z.leb_spec q i) as [?|?]; [intros [= <-]; lia|]); [done|].
    intros Hw. apply andb_prop in Hf as [Hf Hf2]. apply andb_prop in Hf as [_ Hv]. apply IH in Hw; [lia|done]. }
  induction l as [|[i v0] l IH]; intros p q v w Hf Hpq Hp Hq; [done|]. pose proof (Hd _ _ _ _ _ Hf Hq) as Hw. cbn [volt_loop] in Hp, Hq. destruct (Z.leb_spec p i); [injection Hp as ->; exact Hw|].
  rewrite (proj2 (Z.leb_gt _ _)) in Hq by lia. destruct l as [|[i' v'] l]; [done|]. apply andb_prop in Hf as [_ Hf]. exact (IH p q v w Hf Hpq Hp Hq).
Qed.

(** A table with a low and a high frequency: row by row the high one needs more. *)
Definition flt_ok (flt : list freq_leakage_table) : bool :=
  match flt with
  | l :: h :: _ => (0 <? freq l) && (freq l <? freq h) && (freq h <? 2500) && falling (lt l) && falling (lt h) && between 740000 990000 (lt l) && between 740000 990000 (lt h) &&
      bool_decide (map fst (lt l) = map fst (lt h)) && forallb (fun p => fst p <? snd p) (zip (map snd (lt l)) (map snd (lt h)))
  | _ => false
  end.

Definition board_tables : list (list freq_leakage_table) := [Dolphin.vcpu_table; Dolphin.vcore_table; Myna2.m2_vcore_table; Platypus.p_vcpu_table; Platypus.p_vcore_table].

Lemma volt_below l : forall h leakage vl vh, map fst l = map fst h -> forallb (fun p => fst p <? snd p) (zip (map snd l) (map snd h)) = true ->
  volt_loop l leakage = Some vl -> volt_loop h leakage = Some vh -> vl < vh.
Proof.
  induction l as [|[i v] l IH]; intros [|[i' v'] h] leakage vl vh E Hz Hl Hh; try done. injection E as -> E. apply andb_prop in Hz as [Hv Hz]. cbn [fst snd] in Hv. cbn [volt_loop] in Hl, Hh.
  destruct (leakage <=? i'); [injection Hl as <-; injection Hh as <-; lia|by eapply IH].
Qed.

Lemma between_in lo hi l v : between lo hi l = true -> In v (map snd l) -> lo <= v <= hi.
Proof. intros H Hin. apply in_map_iff in Hin as (x & <- & Hx). unfold between in H. rewrite forallb_forall in H. apply H in Hx. lia. Qed.

(** C18: On every board every leakage of the fuses has a low and a high voltage, the low one
    below the high one and both what the chip stands; a chip that leaks more gets no
    higher voltage; a leakage of more than 16 bits gets none. *)
Theorem voltages_safe flt leakage : In flt board_tables -> 0 <= leakage ->
  if 0xffff <? leakage then get_vh_vl flt leakage = Some None
  else exists vl vh, get_vh_vl flt leakage = Some (Some (vl, vh)) /\ 740000 <= vl < vh /\ vh <= 990000 /\
    (forall leakage' vl' vh', leakage <= leakage' -> get_vh_vl flt leakage' = Some (Some (vl', vh')) -> vl' <= vl /\ vh' <= vh).
Proof.
  intros Hin Hle. assert (Hok : flt_ok flt = true) by (unfold board_tables in Hin; cbn [In] in Hin; by destruct Hin as [<-|[<-|[<-|[<-|[<-|[]]]]]]).
  destruct flt as [|l [|h flt]]; [done..|]. unfold flt_ok in Hok. rewrite !andb_true_iff, bool_decide_eq_true in Hok. destruct Hok as ((((((((F0 & F1) & F2) & Fl) & Fh) & Bl) & Bh) & Ei) & Ez).
  unfold get_vh_vl. cbn [lookup list_lookup mbind option_bind]. rewrite !(proj2 (Z.leb_gt _ _)) by lia. unfold get_volt. destruct (Z.ltb_spec 0xffff leakage) as [Hb|Hb]; [done|].
  destruct (falling_volt (lt l) leakage Fl Hb) as (vl & El & Il), (falling_volt (lt h) leakage Fh Hb) as (vh & Eh & Ih). pose proof (between_in _ _ _ _ Bl Il). pose proof (between_in _ _ _ _ Bh Ih).
  pose proof (volt_below _ _ _ _ _ Ei Ez El Eh). rewrite El, Eh. cbn [mbind option_bind]. rewrite (proj2 (Z.ltb_lt 0 vl)), (proj2 (Z.ltb_lt 0 vh)) by lia. exists vl, vh. split; [done|]. split; [lia|]. split; [lia|].
  intros q wl wh Hq. destruct (Z.ltb_spec 0xffff q) as [Hc|Hc]; [done|]. destruct (falling_volt (lt l) q Fl Hc) as (xl & Xl & _), (falling_volt (lt h) q Fh Hc) as (xh & Xh & _). rewrite Xl, Xh. cbn [mbind option_bind].
  case_match; [|done]. intros [= <- <-]. split; [exact (falling_anti _ leakage q _ _ Fl Hq El Xl)|exact (falling_anti _ leakage q _ _ Fh Hq Eh Xh)].
Qed.

(** ** A small tree

    Two nodes, with the properties in the order in which they were set, the last one
    first. *)
Record tree := mk_tree { t_props : list (nat * bytes * bytes); t_used : Z; t_total : Z }.

Definition t_prop (f : tree) (a : nat) (n : bytes) : option bytes :=
  (fix look l := match l with [] => None | (a', n', v) :: l => if decide (a = a' /\ n = n') then Some v else look l end) (t_props f).

Definition t_node (off : Z) : option nat := if off =? 4 then Some 1%nat else if off =? 8 then Some 2%nat else None.

Definition t_set (f : tree) (off : Z) (n v : bytes) : tree * Z :=
  match t_node off with
  | None => (f, -4)
  | Some a => if t_total f - t_used f <? cost n v then (f, -3) else (mk_tree ((a, n, v) :: t_props f) (t_used f + cost n v) (t_total f), 0)
  end.

Definition tree_lib : fdt_lib tree :=
  {| raw f := []; set_raw f _ := f;
     fdt_open_into f n := if n <? t_used f then (f, -3) else (mk_tree (t_props f) (t_used f) n, 0);
     fdt_node_offset_by_compatible f c := if decide (c = str_heaps) then 8 else -1;
     fdt_path_offset f p := if decide (p = str_memory) then 4 else -1;
     fdt_getprop f off n := a ← t_node off; t_prop f a n;
     fdt_setprop := t_set; fdt_appendprop := t_set;
     fdt_pack f := (mk_tree (t_props f) (t_used f) (t_used f), 0);
     fdt_first_subnode f off := -1; fdt_next_subnode f off := -1; fdt_set_name f off n := (f, -3) |}.

#[export] Instance tree_laws : FdtLaws tree_lib.
Proof.
  refine {| node_of f k := match k with ByPath p => if decide (p = str_memory) then Some 1%nat else None | ByCompat c => if decide (c = str_heaps) then Some 2%nat else None end;
            prop := t_prop; at_node f off a := t_node off = Some a; used := t_used; room f := t_total f - t_used f |}.
  - intros f H. cbn [fdt_open_into tree_lib]. rewrite (proj2 (Z.ltb_ge _ _)) by lia. eexists. split_and!; done.
  - intros f H. eexists. split_and!; done.
  - intros f p a. cbn [fdt_path_offset tree_lib]. case_decide; [|done]. by intros [= <-].
  - intros f c a. cbn [fdt_node_offset_by_compatible tree_lib]. case_decide; [|done]. by intros [= <-].
  - intros f off a n v Ha _ Hc. cbn [fdt_setprop tree_lib]. unfold t_set. rewrite Ha, (proj2 (Z.ltb_ge _ _)) by lia. eexists. split; [reflexivity|].
    cbn [t_used t_total]. split_and!; [done|done|done|lia|lia].
Defined.

(** ** Witnesses *)

(** A header of 40 bytes with the list of reservations behind it. *)
Definition w_header : bytes := replicate 16 7 ++ be32 40 ++ replicate 20 7.

Lemma first_two_reserved_witness : exists b,
  setup_reserved_mem_raw (w_header ++ replicate (length (rsv_out 0 [(0x1000, 0x100); (0x2000, 0x200); (0x3000, 0x300)])) 0 ++ [1; 2; 3]) [(0x1000, 0x100); (0x2000, 0x200); (0x3000, 0x300)] = Some b /\
  kernel_rsv (length b) b 40 = [(0x1000, 0x100); (0x2000, 0x200)].
Proof.
  destruct (first_two_reserved w_header [1; 2; 3] [(0x1000, 0x100); (0x2000, 0x200); (0x3000, 0x300)]) as (b & E & _ & _ & K).
  - discriminate.
  - repeat constructor; cbn; lia.
  - cbn; lia.
  - reflexivity.
  - exists b. split; [exact E|exact K].
Defined.

Lemma voltages_safe_witness : get_vh_vl Dolphin.vcpu_table 700 = Some (Some (850000, 950000)) /\ get_vh_vl Dolphin.vcpu_table 0x10000 = Some None.
Proof.
  split; [reflexivity|]. assert (H : In Dolphin.vcpu_table board_tables) by (left; reflexivity). exact (voltages_safe Dolphin.vcpu_table 0x10000 H ltac:(lia)).
Defined.

(** "heap" *)
Definition w_region (base size user attrib : Z) : mem_region := mk_region [104; 101; 97; 112; 0] base size 0 0 [user; attrib].
Definition w_regions : list mem_region := [w_region 0x0 0x4000000 0x05000000 0; w_region 0x10000000 0x100000 0x04000000 0; w_region 0x20000000 0x8000000 0x06000001 6; w_region 0x30000000 0x1000000 0x06000002 10].
Definition w_mrs : mr_state := mk_mr w_regions 4 0 0 (mk_memory (fun _ => None) (fun _ => 0)).

Lemma tz_mem_told_witness : exists f', setup_tz_mem tree_lib (fun _ => (0, [])) w_mrs (mk_tree [] 100 100) = Some (w_mrs, f') /\
  t_prop f' 1 str_reg = Some (be32 0 ++ be32 0 ++ be32 0 ++ be32 0x4000000 ++ be32 0 ++ be32 0x10000000 ++ be32 0 ++ be32 0x100000) /\
  t_prop f' 2 str_pool_num = Some (be32 2).
Proof.
  destruct (tz_mem_told (lib := tree_lib) (fun _ => (0, [])) w_regions w_mrs (mk_tree [] 100 100) (w_region 0x0 0x4000000 0x05000000 0) (w_region 0x10000000 0x100000 0x04000000 0)
    [104; 101; 97; 112; 0; 104; 101; 97; 112; 0] 1 2) as (f' & E & P1 & P2 & _).
  - split; [reflexivity|cbn; lia].
  - reflexivity.
  - reflexivity.
  - vm_compute; lia.
  - reflexivity.
  - reflexivity.
  - cbn; lia.
  - cbn; lia.
  - cbn; lia.
  - reflexivity.
  - reflexivity.
  - lia.
  - vm_compute; discriminate.
  - exists f'. split; [exact E|]. split; [exact P1|exact P2].
Defined.
