(* ===== verification/Printf.v ===== *)
(** * Formatted printing
    (boot/common/driver/uart/vsnprintf.c and printf.c; sm_cm3/syna/src/sm_printf.c)

    The boot stages and the System Manager have a printf of their own each.  An
    argument is a 32-bit or a 64-bit integer or a string; to fetch one of another kind
    than was passed, or one too many, is undefined. *)

From S2P Require Import Prelude CType.

(** A string with its terminator, or NULL. *)
Inductive arg := AInt (v : Z) | ALong (v : Z) | AStr (s : option bytes).

Definition put (b : bytes) (i : nat) (c : Z) : option bytes := if decide (i < length b)%nat then Some (<[i := c]> b) else None.

(** "0123456789abcdef" and "0123456789ABCDEF" *)
Definition digit (up : bool) (d : Z) : Z := if d <? 10 then 48 + d else (if up then 55 else 87) + d.

(** Negation of an [int]; that of the least one is undefined. *)
Definition neg32 (v : Z) : option Z := if v =? - 2 ^ 31 then None else Some (- v).

(** ** The boot stages: vsnprintf.c *)

(** [tmp] has 40 bytes. *)
Definition push (tmp : bytes) (c : Z) : option bytes := if decide (length tmp < 40)%nat then Some (tmp ++ [c]) else None.

Fixpoint push_n (n : nat) (tmp : bytes) (c : Z) : option bytes := match n with O => Some tmp | S n => tmp ← push tmp c; push_n n tmp c end.

(** The digits, the last one first. *)
Fixpoint digits32 (fuel : nat) (base uval : Z) (up : bool) (tmp : bytes) : option bytes :=
  match fuel with
  | O => None
  | S fuel => tmp ← push tmp (digit up (uval mod base)); if uval / base =? 0 then Some tmp else digits32 fuel base (uval / base) up tmp
  end.

Fixpoint digits64 (fuel : nat) (base uval64 : Z) (up : bool) (tmp : bytes) : option bytes :=
  match fuel with
  | O => None
  | S fuel => tmp ← push tmp (digit up (Z.land uval64 (base - 1))); if Z.shiftr uval64 4 =? 0 then Some tmp else digits64 fuel base (Z.shiftr uval64 4) up tmp
  end.

Fixpoint width_loop (fmt : bytes) (width : Z) : option (bytes * Z) :=
  match fmt with
  | [] => None
  | c :: rest => if (48 <=? c) && (c <=? 57) then w ← (if decide (is_i32 (width * 10 + (c - 48))) then Some (width * 10 + (c - 48)) else None); width_loop rest w else Some (fmt, width)
  end.

(** The loops that copy into the buffer end at [size]. *)
Fixpoint copy_tmp (s b : bytes) (i : nat) (size : Z) : option (bytes * nat) :=
  match s with [] => Some (b, i) | c :: s => if Z.of_nat i <? size then b ← put b i c; copy_tmp s b (S i) size else Some (b, i) end.

Fixpoint copy_str (s b : bytes) (i : nat) (size : Z) : option (bytes * nat) :=
  if Z.of_nat i <? size then
    match s with [] => None | c :: s => if c =? 0 then Some (b, i) else b ← put b i c; copy_str s b (S i) size end
  else Some (b, i).

(** The padding of a number, whose digits are in [tmp], the last one first. *)
Definition padded (lead : bool) (width : Z) (flag : bool) (tmp : bytes) : option bytes :=
  let width := if negb (width =? 0) && flag then width - 1 else width in
  let width := width - Z.of_nat (length tmp) in
  tmp ← (if lead then push_n (Z.to_nat width) tmp 48 else Some tmp);
  let width := if lead then -1 else width in
  tmp ← (if flag then push tmp 45 else Some tmp);
  tmp ← push_n (Z.to_nat width) tmp 32;
  Some (rev tmp).

(** What is left to convert after the width and the length: the number. *)
Definition number (lead : bool) (width base : Z) (sign up is_64bit : bool) (args : list arg) : option (bytes * list arg) :=
  if is_64bit then
    match args with ALong v :: args => tmp ← digits64 40 base (u64 v) up []; t ← padded lead width false tmp; Some (t, args) | _ => None end
  else
    match args with
    | AInt v :: args =>
        let flag := sign && (i32 v <? 0) in
        val ← (if flag then neg32 (i32 v) else Some (i32 v));
        tmp ← digits32 40 base (u32 val) up [];
        t ← padded lead width flag tmp;
        Some (t, args)
    | _ => None
    end.

(** "NULL" *)
Definition str_NULL : bytes := [78; 85; 76; 76; 0].

(** One conversion, from the character behind '%' to the one behind the conversion. *)
Definition conversion (b : bytes) (i : nat) (size : Z) (fmt : bytes) (args : list arg) : option (bytes * nat * bytes * list arg) :=
  c ← head fmt;
  let lead := c =? 48 in
  '(fmt, width) ← width_loop (if lead then tail fmt else fmt) 0;
  c ← head fmt;
  '(fmt, is_64bit) ← (if c =? 108 then c2 ← head (tail fmt); Some (if c2 =? 108 then (tail (tail fmt), true) else (tail fmt, false)) else Some (fmt, false));
  c ← head fmt;
  let rest := tail fmt in
  if c =? 37 then b ← put b i 37; Some (b, S i, rest, args)
  else if c =? 99 then match args with AInt v :: args => b ← put b i (Z.land v 0xff); Some (b, S i, rest, args) | _ => None end
  else if c =? 115 then match args with AStr s :: args => '(b, i) ← copy_str (default str_NULL s) b i size; Some (b, i, rest, args) | _ => None end
  else if (c =? 100) || (c =? 117) then '(t, args) ← number lead width 10 (c =? 100) false false args; '(b, i) ← copy_tmp t b i size; Some (b, i, rest, args)
  else if (c =? 88) || (c =? 120) || (c =? 112) then '(t, args) ← number lead width 16 false (c =? 88) is_64bit args; '(b, i) ← copy_tmp t b i size; Some (b, i, rest, args)
  else b ← put b i 126; Some (b, S i, rest, args).

(** [fuel] is the length of the format at most. *)
Fixpoint vsn_loop (fuel : nat) (b : bytes) (i : nat) (size : Z) (fmt : bytes) (args : list arg) : option (bytes * nat) :=
  if negb (Z.of_nat i <? size) then Some (b, i)
  else
    match fuel, fmt with
    | O, _ | _, [] => None
    | S fuel, c :: fmt =>
        if c =? 0 then Some (b, i)
        else if negb (c =? 37) then b ← put b i c; vsn_loop fuel b (S i) size fmt args
        else '(b, i, fmt, args) ← conversion b i size fmt args; vsn_loop fuel b i size fmt args
    end.

Definition vsnprintf (buf : bytes) (size : Z) (fmt : bytes) (args : list arg) : option (bytes * Z) :=
  let size := u32 (size - 1) in
  '(buf, i) ← vsn_loop (S (length fmt)) buf 0 size fmt args;
  buf ← put buf i 0;
  Some (buf, i32 (Z.of_nat i)).

Definition snprintf : bytes -> Z -> bytes -> list arg -> option (bytes * Z) := vsnprintf.
Definition sprintf (str fmt : bytes) (args : list arg) : option bytes := '(b, _) ← vsnprintf str (u32 (-1)) fmt args; Some b.

(** The bytes that go to the UART. *)
Definition putchar (c : Z) : bytes := if c =? 10 then [10; 13] else [c].

Fixpoint puts (str : bytes) : option bytes := match str with [] => None | c :: str => if c =? 0 then Some [] else o ← puts str; Some (putchar c ++ o) end.

(** [buf] is what is on the stack: 1024 bytes in printf, 256 in lgpl_printf. *)
Definition printf (buf fmt : bytes) (args : list arg) : option bytes := '(b, _) ← vsnprintf buf (Z.of_nat (length buf)) fmt args; puts b.

(** ** The System Manager: sm_printf.c *)

Definition BUF_LEN : nat := 16.
Definition POS_RIGHT : Z := 1.
Definition POS_ZERO : Z := 2.

(** Where the characters go: the UART, or memory with the place of the next one. *)
Inductive sink := Uart (sent : bytes) | Mem (b : bytes) (i : nat).

Definition printchar (o : sink) (outc : Z) : option sink :=
  match o with Uart sent => Some (Uart (sent ++ [u8 outc])) | Mem b i => b ← put b i (u8 outc); Some (Mem b (S i)) end.

Fixpoint printchars (o : sink) (s : bytes) : option sink := match s with [] => Some o | c :: s => o ← printchar o c; printchars o s end.

(** The characters of a string up to its terminator. *)
Fixpoint c_chars (s : bytes) : option bytes := match s with [] => None | c :: s => if c =? 0 then Some [] else t ← c_chars s; Some (c :: t) end.

Definition prints (o : sink) (strin : bytes) (len pos : Z) : option (sink * Z) :=
  s ← c_chars strin;
  let mylen := Z.of_nat (length s) in
  let pad := Z.to_nat (if 0 <? len then if len <=? mylen then 0 else len - mylen else len) in
  let padchar := if (0 <? len) && negb (Z.land pos POS_ZERO =? 0) then 48 else 32 in
  let right := negb (Z.land pos POS_RIGHT =? 0) in
  o ← printchars o (if right then [] else replicate pad padchar);
  o ← printchars o s;
  o ← printchars o (if right then replicate pad padchar else []);
  Some (o, mylen + Z.of_nat pad).

(** [print_buf] is filled from its end. *)
Definition unget (s : bytes) (c : Z) : option bytes := if decide (length s < BUF_LEN)%nat then Some (c :: s) else None.

Fixpoint sm_digits (fuel : nat) (u n ref : Z) (s : bytes) : option bytes :=
  if u =? 0 then Some s
  else
    match fuel with
    | O => None
    | S fuel => let t := u mod n in let t := if 10 <=? t then t + (ref - 48 - 10) else t in s ← unget s (t + 48); sm_digits fuel (u / n) n ref s
    end.

Definition printdigit (o : sink) (pstr n : Z) (p : bool) (len pos ref : Z) : option (sink * Z) :=
  if pstr =? 0 then prints o [48; 0] len pos
  else
    let neg := p && (n =? 10) && (pstr <? 0) in
    u ← (if neg then neg32 pstr else Some pstr);
    s ← sm_digits 40 (u32 u) n ref [0];
    if neg then
      if negb (len =? 0) && negb (Z.land pos POS_ZERO =? 0) then o ← printchar o 45; '(o, pc) ← prints o s (len - 1) pos; Some (o, 1 + pc)
      else s ← unget s 45; prints o s len pos
    else prints o s len pos.

Fixpoint zero_loop (pstrin : bytes) (pos : Z) : option (bytes * Z) :=
  match pstrin with [] => None | c :: rest => if c =? 48 then zero_loop rest (Z.lor pos POS_ZERO) else Some (pstrin, pos) end.

(** "(null)" *)
Definition str_null : bytes := [40; 110; 117; 108; 108; 41; 0].

(** One conversion; a character that is none prints nothing. *)
Definition sm_conversion (o : sink) (fmt : bytes) (args : list arg) : option (sink * bytes * list arg * Z) :=
  c ← head fmt;
  let pos := if c =? 45 then POS_RIGHT else 0 in
  '(fmt, pos) ← zero_loop (if c =? 45 then tail fmt else fmt) pos;
  '(fmt, len) ← width_loop fmt 0;
  c ← head fmt;
  let rest := tail fmt in
  let int n p ref := match args with AInt v :: args => '(o, num) ← printdigit o (i32 v) n p len pos ref; Some (o, rest, args, num) | _ => None end in
  if c =? 115 then match args with AStr s :: args => '(o, num) ← prints o (default str_null s) len pos; Some (o, rest, args, num) | _ => None end
  else if (c =? 100) || (c =? 68) then int 10 true 97
  else if (c =? 120) || (c =? 112) then int 16 false 97
  else if c =? 88 then int 16 false 65
  else if c =? 117 then int 10 false 97
  else if c =? 99 then match args with AInt v :: args => '(o, num) ← prints o [u8 v; 0] len pos; Some (o, rest, args, num) | _ => None end
  else Some (o, rest, args, 0).

Fixpoint printstr_loop (fuel : nat) (o : sink) (fmt : bytes) (args : list arg) (num : Z) : option (sink * Z) :=
  match fuel, fmt with
  | O, _ | _, [] => None
  | S fuel, c :: fmt =>
      if c =? 0 then Some (o, num)
      else if c =? 37 then
        c ← head fmt;
        if c =? 0 then Some (o, num)
        else if c =? 37 then o ← printchar o 37; printstr_loop fuel o (tail fmt) args (num + 1)
        else '(o, fmt, args, n) ← sm_conversion o fmt args; printstr_loop fuel o fmt args (num + n)
      else o ← printchar o c; printstr_loop fuel o fmt args (num + 1)
  end.

Definition printstr (o : sink) (fmt : bytes) (args : list arg) : option (sink * Z) :=
  '(o, num) ← printstr_loop (S (length fmt)) o fmt args 0;
  match o with Uart _ => Some (o, num) | Mem b i => b ← put b i 0; Some (Mem b i, num) end.

Definition mv_sm_printf (fmt : bytes) (args : list arg) : option (bytes * Z) :=
  '(o, num) ← printstr (Uart []) fmt args; match o with Uart sent => Some (sent, num) | _ => None end.

(** The size is not used. *)
Definition sm_snprintf (pstrout : bytes) (size : Z) (fmt : bytes) (args : list arg) : option (bytes * Z) :=
  '(o, num) ← printstr (Mem pstrout 0) fmt args; match o with Mem b _ => Some (b, num) | _ => None end.

Definition sm_sprintf (pstrout fmt : bytes) (args : list arg) : option bytes := '(b, _) ← sm_snprintf pstrout 256 fmt args; Some b.

Definition MAX_BYTE_BUF : Z := 256.
Definition PRN_ERR : Z := 1.
Definition PRN_DBG : Z := 4.

Definition dbg_port_print (str : bytes) : option bytes := puts str.

(** " ERR:", " DBG:" *)
Definition level_text (logLevel : Z) : bytes := if logLevel =? PRN_ERR then [32; 69; 82; 82; 58; 0] else if logLevel =? PRN_DBG then [32; 68; 66; 71; 58; 0] else [0].

(** [dbg_buf] and what goes to the UART. *)
Definition dbg_printf (DBG_LEVEL : Z) (dbg_buf : bytes) (logLevel : Z) (fmt : bytes) (args : list arg) : option (bytes * bytes) :=
  if u32 logLevel <=? DBG_LEVEL then
    t ← dbg_port_print (level_text logLevel);
    '(b, _) ← sm_snprintf dbg_buf MAX_BYTE_BUF fmt args;
    u ← dbg_port_print b;
    Some (b, t ++ u)
  else Some (dbg_buf, []).
