(* ===== verification/PrintfSafety.v ===== *)
(** * Formatted printing: properties

    A format is a list of pieces, each with the argument it converts and the text it
    stands for.  The boot stages' vsnprintf() stores the text up to the size of the
    buffer; the System Manager's printf prints the same text, but knows no size; what
    is printed is read back by strtoul(). *)

From S2P Require Import Prelude CType Printf.

(** ** Numbers as text *)

Fixpoint num_text (fuel : nat) (base : Z) (up : bool) (n : Z) : bytes :=
  match fuel with O => [] | S fuel => (if n <? base then [] else num_text fuel base up (n / base)) ++ [digit up (n mod base)] end.

Lemma num_text_length base up k : forall fuel n, 2 <= base -> 0 <= n < base ^ Z.of_nat k -> (1 <= k)%nat -> (length (num_text fuel base up n) <= k)%nat.
Proof.
  induction k as [|k IH]; intros fuel n Hb Hn Hk; [lia|]. destruct fuel as [|fuel]; cbn [num_text]; [cbn; lia|]. rewrite length_app. cbn [length].
  destruct (Z.ltb_spec n base); [cbn; lia|]. destruct k as [|k]; [cbn in Hn; lia|].
  assert (0 <= n / base < base ^ Z.of_nat (S k)) by (split; [apply Z.div_pos; lia|apply Z.div_lt_upper_bound; [lia|]; rewrite <- Z.pow_succ_r by lia; rewrite <- Nat2Z.inj_succ; lia]).
  specialize (IH fuel (n / base) Hb ltac:(done) ltac:(lia)). lia.
Qed.

Lemma num_text_pos fuel base up n : (1 <= length (num_text (S fuel) base up n))%nat.
Proof. cbn [num_text]. rewrite length_app. cbn. lia. Qed.

Lemma quot_pos n base : 2 <= base -> base <= n -> 0 < n / base.
Proof. intros. apply Z.div_str_pos. lia. Qed.

Lemma pow_step n base k : 2 <= base -> 0 <= n < base ^ Z.of_nat (S k) -> 0 <= n / base < base ^ Z.of_nat k.
Proof. intros Hb Hn. rewrite Nat2Z.inj_succ, Z.pow_succ_r in Hn by lia. split; [apply Z.div_pos; lia|apply Z.div_lt_upper_bound; lia]. Qed.

Lemma push_ok tmp c : (length tmp < 40)%nat -> push tmp c = Some (tmp ++ [c]).
Proof. intros. unfold push. by rewrite decide_True. Qed.

Lemma push_n_ok c n : forall tmp, (length tmp + n <= 40)%nat -> push_n n tmp c = Some (tmp ++ replicate n c).
Proof.
  induction n as [|n IH]; intros tmp H; cbn [push_n replicate]; [now rewrite app_nil_r|]. rewrite push_ok by lia. cbn [mbind option_bind].
  rewrite IH by (rewrite length_app; cbn; lia). now rewrite <- app_assoc.
Qed.

Lemma digits32_ok base up : forall fuel n tmp, 2 <= base -> 0 <= n < base ^ Z.of_nat fuel -> (length tmp + length (num_text fuel base up n) <= 40)%nat -> (1 <= fuel)%nat ->
  digits32 fuel base n up tmp = Some (tmp ++ rev (num_text fuel base up n)).
Proof.
  induction fuel as [|fuel IH]; intros n tmp Hb Hn Hl Hf; [lia|]. cbn [digits32 num_text] in *. rewrite length_app in Hl. cbn [length] in Hl. rewrite push_ok by lia. cbn [mbind option_bind].
  rewrite rev_app_distr. cbn [rev app]. destruct (Z.ltb_spec n base) as [Hlt|Hge].
  - rewrite Z.div_small by lia. done.
  - pose proof (quot_pos n base Hb Hge). rewrite (proj2 (Z.eqb_neq _ _)) by lia. destruct fuel as [|fuel]; [rewrite Nat2Z.inj_succ in Hn; cbn in Hn; lia|].
    rewrite IH; [now rewrite <- app_assoc|done|by apply pow_step|rewrite length_app; cbn [length] in *; lia|lia].
Qed.

Lemma digits64_32 up : forall fuel n tmp, 0 <= n -> digits64 fuel 16 n up tmp = digits32 fuel 16 n up tmp.
Proof.
  induction fuel as [|fuel IH]; intros n tmp Hn; [done|]. cbn [digits64 digits32]. replace (16 - 1) with (Z.ones 4) by done. rewrite Z.land_ones, Z.shiftr_div_pow2 by lia. change (2 ^ 4) with 16.
  destruct (push _ _) as [t|]; [|done]. cbn [mbind option_bind]. case_match; [done|]. apply IH. apply Z.div_pos; lia.
Qed.

(** What C's printf prints for a number. *)
Definition pad_text (zero : bool) (width : nat) (neg : bool) (digits : bytes) : bytes :=
  let sign := if neg then [45] else [] in
  let pad := (width - length sign - length digits)%nat in
  if zero then sign ++ replicate pad 48 ++ digits else replicate pad 32 ++ sign ++ digits.

Definition wval (ws : bytes) (w : Z) : Z := fold_left (fun acc c => acc * 10 + (c - 48)) ws w.

Definition isnum (c : Z) : Prop := 48 <= c <= 57.

Lemma wval_ge ws : forall w, Forall isnum ws -> 0 <= w -> w <= wval ws w.
Proof.
  unfold wval. induction ws as [|c ws IH]; intros w H Hw; cbn [fold_left]; [lia|]. apply Forall_cons_iff in H as [Hc H]. unfold isnum in Hc. specialize (IH (w * 10 + (c - 48)) H ltac:(lia)). lia.
Qed.

Lemma width_ok ws c rest : forall w, Forall isnum ws -> ~ isnum c -> 0 <= w -> wval ws w <= 40 -> width_loop (ws ++ c :: rest) w = Some (c :: rest, wval ws w).
Proof.
  induction ws as [|d ws IH]; intros w H Hc Hw Hv; cbn [app width_loop].
  - unfold isnum in Hc. replace ((48 <=? c) && (c <=? 57)) with false by lia. done.
  - apply Forall_cons_iff in H as [Hd H]. unfold isnum in Hd. replace ((48 <=? d) && (d <=? 57)) with true by lia. pose proof (wval_ge ws (w * 10 + (d - 48)) H ltac:(lia)).
    change (wval (d :: ws) w) with (wval ws (w * 10 + (d - 48))) in *. rewrite decide_True by (unfold is_i32; lia). cbn [mbind option_bind]. apply IH; [done|done|lia|done].
Qed.

Lemma rev_replicate {A} n (c : A) : rev (replicate n c) = replicate n c.
Proof. rewrite rev_alt. apply reverse_replicate. Qed.

Lemma pad_text_ok zero w flag t : 0 <= w <= 40 -> (1 <= length t <= 16)%nat -> padded zero w flag (rev t) = Some (pad_text zero (Z.to_nat w) flag t).
Proof.
  intros Hw Ht. unfold padded, pad_text. rewrite length_rev. set (w1 := if negb (w =? 0) && flag then w - 1 else w).
  assert (Hpad : Z.to_nat (w1 - Z.of_nat (length t)) = (Z.to_nat w - (if flag then 1 else 0) - length t)%nat) by (unfold w1; destruct flag, (Z.eqb_spec w 0); cbn [negb andb]; lia).
  rewrite Hpad. clearbody w1. assert (Hm : (length t + (if flag then 1 else 0) + (Z.to_nat w - (if flag then 1 else 0) - length t) <= 40)%nat) by (destruct flag; lia). destruct zero.
  - rewrite push_n_ok by (rewrite length_rev; destruct flag; lia). change (Z.to_nat (-1)) with 0%nat. destruct flag; cbn [mbind option_bind push_n].
    + rewrite push_ok by (rewrite length_app, length_rev, length_replicate; lia). cbn [mbind option_bind]. rewrite !rev_app_distr, rev_involutive, rev_replicate. done.
    + rewrite rev_app_distr, rev_involutive, rev_replicate. done.
  - cbn [mbind option_bind]. rewrite Hpad. destruct flag; cbn [mbind option_bind].
    + rewrite push_ok by (rewrite length_rev; lia). cbn [mbind option_bind]. rewrite push_n_ok by (rewrite length_app, length_rev; cbn [length]; lia). cbn [mbind option_bind]. rewrite !rev_app_distr, rev_involutive, rev_replicate. reflexivity.
    + rewrite push_n_ok by (rewrite length_rev; lia). cbn [mbind option_bind]. rewrite !rev_app_distr, rev_involutive, rev_replicate. done.
Qed.

(** The number that is printed for an argument of 32 bits. *)
Definition is_neg (sign : bool) (v : Z) : bool := sign && (i32 v <? 0).
Definition magnitude (sign : bool) (v : Z) : Z := if is_neg sign v then - i32 v else u32 v.

Lemma magnitude_u32 sign v : u32 (if is_neg sign v then - i32 v else i32 v) = magnitude sign v.
Proof.
  unfold magnitude. pose proof (i32_range v) as Hi. unfold is_i32 in Hi. destruct (is_neg sign v) eqn:Ef.
  - apply andb_prop in Ef as [_ Ef]. apply Z.ltb_lt in Ef. apply u32_id. unfold is_u32. lia.
  - unfold i32, u32. rewrite Zminus_mod_idemp_l. f_equal. lia.
Qed.

Lemma magnitude_range sign v : 0 <= magnitude sign v < 2 ^ 32.
Proof. rewrite <- magnitude_u32. apply u32_range. Qed.

Lemma neg_ok sign v : (sign = true -> i32 v <> - 2 ^ 31) -> (if is_neg sign v then neg32 (i32 v) else Some (i32 v)) = Some (if is_neg sign v then - i32 v else i32 v).
Proof. unfold is_neg. intros Hm. destruct sign; cbn [andb]; [|done]. destruct (i32 v <? 0); [|done]. unfold neg32. now rewrite (proj2 (Z.eqb_neq _ _)) by auto. Qed.

Lemma text_size base up n k : base = 10 \/ base = 16 -> 0 <= n < base ^ Z.of_nat k -> (1 <= k <= 16)%nat -> (1 <= length (num_text 40 base up n) <= 16)%nat /\ n < base ^ Z.of_nat 40.
Proof.
  intros Hb Hn Hk. split; [split; [apply num_text_pos|]; transitivity k; [apply num_text_length; lia|lia]|].
  apply (Z.lt_le_trans _ (base ^ Z.of_nat k)); [lia|]. apply Z.pow_le_mono_r; lia.
Qed.

Lemma number_ok zero w base sign up v args : 0 <= w <= 40 -> base = 10 \/ base = 16 -> (sign = true -> i32 v <> - 2 ^ 31) ->
  number zero w base sign up false (AInt v :: args) = Some (pad_text zero (Z.to_nat w) (is_neg sign v) (num_text 40 base up (magnitude sign v)), args).
Proof.
  intros Hw Hb Hm. unfold number. fold (is_neg sign v). cbv zeta. rewrite neg_ok by done. cbn [mbind option_bind]. rewrite magnitude_u32. pose proof (magnitude_range sign v) as Hr. set (n := magnitude sign v) in *. clearbody n.
  destruct (text_size base up n 10 Hb) as [Hl Hbig]; [destruct Hb as [-> | ->]; cbn; lia|lia|].
  rewrite digits32_ok by (cbn [length]; lia). cbn [mbind option_bind app]. rewrite pad_text_ok by done. done.
Qed.

Lemma number64_ok zero w sign up v args : 0 <= w <= 40 -> number zero w 16 sign up true (ALong v :: args) = Some (pad_text zero (Z.to_nat w) false (num_text 40 16 up (u64 v)), args).
Proof.
  intros Hw. unfold number. assert (Hr : 0 <= u64 v < 2 ^ 64) by (apply Z.mod_pos_bound; lia). rewrite digits64_32 by lia.
  destruct (text_size 16 up (u64 v) 16 ltac:(by right)) as [Hl Hbig]; [cbn; lia|lia|]. rewrite digits32_ok by (cbn [length]; lia). cbn [mbind option_bind app]. rewrite pad_text_ok by done. done.
Qed.

(** ** Formats *)

Inductive ikind := Kd | Ku | Kx | KX | Kp.
Definition k_char (k : ikind) : Z := match k with Kd => 100 | Ku => 117 | Kx => 120 | KX => 88 | Kp => 112 end.
Definition k_base (k : ikind) : Z := match k with Kd | Ku => 10 | _ => 16 end.
Definition k_sign (k : ikind) : bool := match k with Kd => true | _ => false end.
Definition k_up (k : ikind) : bool := match k with KX => true | _ => false end.

(** A character, a number with its flag and width, a long one, a character or a string
    that is an argument, a conversion that is not known; a number with an 'l', a
    character and a string with a flag and a width, which vsnprintf() ignores. *)
Inductive piece :=
  | Lit (c : Z) | Percent | Int (zero : bool) (ws : bytes) (k : ikind) (v : Z) | Hex64 (zero : bool) (ws : bytes) (up : bool) (v : Z)
  | Chr (v : Z) | Str (s : option bytes) | Bad (c : Z)
  | LongInt (zero : bool) (ws : bytes) (k : ikind) (v : Z) | WideChr (zero : bool) (ws : bytes) (v : Z) | WideStr (zero : bool) (ws : bytes) (s : option bytes).

Definition flags (zero : bool) (ws : bytes) : bytes := (if zero then [48] else []) ++ ws.

Definition p_fmt (p : piece) : bytes :=
  match p with
  | Lit c => [c]
  | Percent => [37; 37]
  | Int zero ws k _ => 37 :: flags zero ws ++ [k_char k]
  | Hex64 zero ws up _ => 37 :: flags zero ws ++ [108; 108; if up then 88 else 120]
  | Chr _ => [37; 99]
  | Str _ => [37; 115]
  | Bad c => [37; c]
  | LongInt zero ws k _ => 37 :: flags zero ws ++ [108; k_char k]
  | WideChr zero ws _ => 37 :: flags zero ws ++ [99]
  | WideStr zero ws _ => 37 :: flags zero ws ++ [115]
  end.

Definition p_args (p : piece) : list arg :=
  match p with Int _ _ _ v | Chr v | LongInt _ _ _ v | WideChr _ _ v => [AInt v] | Hex64 _ _ _ v => [ALong v] | Str s | WideStr _ _ s => [AStr (option_map (fun s => s ++ [0]) s)] | _ => [] end.

Definition p_text (p : piece) : bytes :=
  match p with
  | Lit c => [c]
  | Percent => [37]
  | Int zero ws k v | LongInt zero ws k v => pad_text zero (Z.to_nat (wval ws 0)) (is_neg (k_sign k) v) (num_text 40 (k_base k) (k_up k) (magnitude (k_sign k) v))
  | Hex64 zero ws up v => pad_text zero (Z.to_nat (wval ws 0)) false (num_text 40 16 up (u64 v))
  | Chr v | WideChr _ _ v => [Z.land v 255]
  | Str (Some s) | WideStr _ _ (Some s) => s
  | Str None | WideStr _ _ None => [78; 85; 76; 76]
  | Bad _ => [126]
  end.

Definition width_text (zero : bool) (ws : bytes) : Prop := Forall isnum ws /\ wval ws 0 <= 40 /\ (zero = false -> head ws <> Some 48).

Definition p_wf (p : piece) : Prop :=
  match p with
  | Lit c => c <> 0 /\ c <> 37
  | Int zero ws k v | LongInt zero ws k v => width_text zero ws /\ (k = Kd -> i32 v <> - 2 ^ 31)
  | Hex64 zero ws _ _ | WideChr zero ws _ | WideStr zero ws None => width_text zero ws
  | Str (Some s) => Forall (fun c => c <> 0) s
  | WideStr zero ws (Some s) => width_text zero ws /\ Forall (fun c => c <> 0) s
  | Bad c => ~ isnum c /\ Forall (fun x => c <> x) [0; 37; 99; 115; 100; 117; 88; 120; 112; 108]
  | _ => True
  end.

Definition fmt_of (ps : list piece) : bytes := concat (map p_fmt ps).
Definition args_of (ps : list piece) : list arg := concat (map p_args ps).
Definition text_of (ps : list piece) : bytes := concat (map p_text ps).

(** ** The buffer *)

(** The object [o] with [out] stored at its beginning. *)
Definition filled (o out : bytes) : bytes := out ++ drop (length out) o.

Lemma put_filled o out c : (length out < length o)%nat -> put (filled o out) (length out) c = Some (filled o (out ++ [c])).
Proof.
  intros H. unfold put, filled. rewrite decide_True by (rewrite length_app, length_drop; lia). f_equal. rewrite insert_app_r_alt by lia. rewrite Nat.sub_diag.
  destruct (drop (length out) o) as [|x l] eqn:E; [apply (f_equal length) in E; rewrite length_drop in E; cbn in E; lia|]. cbn [insert list_insert]. rewrite <- app_assoc. f_equal. cbn [app]. f_equal.
  rewrite length_app. cbn [length]. rewrite <- (drop_drop o (length out) 1) || rewrite <- drop_drop. rewrite E. done.
Qed.

Lemma copy_tmp_ok o N : (N <= length o)%nat -> forall s out, (length out <= N)%nat ->
  copy_tmp s (filled o out) (length out) (Z.of_nat N) = Some (filled o (take N (out ++ s)), length (take N (out ++ s))).
Proof.
  intros HN. induction s as [|c s IH]; intros out Hl; cbn [copy_tmp].
  - rewrite app_nil_r, take_ge by lia. done.
  - destruct (Z.ltb_spec (Z.of_nat (length out)) (Z.of_nat N)).
    + rewrite put_filled by lia. cbn [mbind option_bind]. replace (S (length out)) with (length (out ++ [c])) by (rewrite length_app; cbn; lia).
      rewrite IH by (rewrite length_app; cbn; lia). now rewrite <- app_assoc.
    + rewrite take_app_le, take_ge by lia. done.
Qed.

Lemma copy_str_ok o N s rest : (N <= length o)%nat -> Forall (fun c => c <> 0) s -> forall out, (length out <= N)%nat ->
  copy_str (s ++ 0 :: rest) (filled o out) (length out) (Z.of_nat N) = Some (filled o (take N (out ++ s)), length (take N (out ++ s))).
Proof.
  intros HN. induction s as [|c s IH]; intros Hs out Hl; cbn [copy_str app]; (destruct (Z.ltb_spec (Z.of_nat (length out)) (Z.of_nat N)); [|rewrite take_app_le, take_ge by lia; done]).
  - rewrite app_nil_r, take_ge by lia. done.
  - apply Forall_cons_iff in Hs as [Hc Hs]. rewrite (proj2 (Z.eqb_neq _ _)) by done. rewrite put_filled by lia. cbn [mbind option_bind]. replace (S (length out)) with (length (out ++ [c])) by (rewrite length_app; cbn; lia).
    rewrite IH by (done || (rewrite length_app; cbn; lia)). now rewrite <- app_assoc.
Qed.

(** ** Conversions *)

Lemma flags_ok zero ws c rest : width_text zero ws -> ~ isnum c -> exists c0, head (flags zero ws ++ c :: rest) = Some c0 /\ (c0 =? 48) = zero /\
  width_loop (if zero then tail (flags zero ws ++ c :: rest) else flags zero ws ++ c :: rest) 0 = Some (c :: rest, wval ws 0).
Proof.
  intros (Hn & Hw & Hz) Hc. unfold flags. destruct zero; cbn [app head tail].
  - exists 48. split; [done|]. split; [done|]. apply width_ok; [done|done|lia|done].
  - rewrite width_ok by (done || lia). destruct ws as [|x ws]; cbn [app head]; eexists; (split; [done|]; split; [|done]); apply Z.eqb_neq; [unfold isnum in Hc; lia|]. intros ->. by apply Hz.
Qed.

Lemma k_char_num k : ~ isnum (k_char k).
Proof. unfold isnum. destruct k; cbn; lia. Qed.

Lemma wval_range zero ws : width_text zero ws -> 0 <= wval ws 0 <= 40.
Proof. intros (H & Hw & _). pose proof (wval_ge ws 0 H). lia. Qed.

Lemma conversion_ok p o T N rest args : p_wf p -> (forall c, p <> Lit c) -> (N <= length o)%nat -> (length T < N)%nat ->
  conversion (filled o T) (length T) (Z.of_nat N) (tail (p_fmt p) ++ rest) (p_args p ++ args) = Some (filled o (take N (T ++ p_text p)), length (take N (T ++ p_text p)), rest, args).
Proof.
  intros Hwf Hnl HN HT. assert (Hone : forall c, put (filled o T) (length T) c = Some (filled o (take N (T ++ [c]))) /\ S (length T) = length (take N (T ++ [c]))).
  { intros c. rewrite take_ge by (rewrite length_app; cbn; lia). split; [apply put_filled; lia|rewrite length_app; cbn; lia]. }
  destruct p as [c| |zero ws k v|zero ws up v|v|s|c|zero ws k v|zero ws v|zero ws s]; cbn [p_fmt p_args p_text tail p_wf app] in *.
  - by destruct (Hnl c).
  - unfold conversion. cbn [head mbind option_bind tail width_loop andb Z.leb Z.compare Z.eqb Pos.eqb]. destruct (Hone 37) as [-> E]. cbn [mbind option_bind Pos.compare Pos.compare_cont]. rewrite E. done.
  - destruct Hwf as [Hwt Hk]. rewrite <- app_assoc. cbn [app]. destruct (flags_ok zero ws (k_char k) rest Hwt (k_char_num k)) as (c0 & Ehd & Ez & Ew). unfold conversion. rewrite Ehd. cbn [mbind option_bind]. rewrite Ez, Ew. cbn [mbind option_bind head].
    pose proof (wval_range zero ws Hwt). pose proof (number_ok zero (wval ws 0) (k_base k) (k_sign k) (k_up k) v args ltac:(done)) as Hnum.
    destruct k; cbn [k_char k_base k_sign k_up Z.eqb Pos.eqb mbind option_bind head tail orb] in *; rewrite Hnum by (auto || done); cbn [mbind option_bind]; rewrite copy_tmp_ok by lia; done.
  - rewrite <- app_assoc. cbn [app]. destruct (flags_ok zero ws 108 (108 :: (if up then 88 else 120) :: rest) Hwf ltac:(unfold isnum; lia)) as (c0 & Ehd & Ez & Ew). unfold conversion. rewrite Ehd. cbn [mbind option_bind]. rewrite Ez, Ew. cbn [mbind option_bind head tail Z.eqb Pos.eqb].
    pose proof (wval_range zero ws Hwf). destruct up; cbn [Z.eqb Pos.eqb orb]; rewrite number64_ok by done; cbn [mbind option_bind]; rewrite copy_tmp_ok by lia; done.
  - unfold conversion. cbn [head mbind option_bind tail width_loop andb Z.leb Z.compare Z.eqb Pos.eqb Pos.compare Pos.compare_cont]. destruct (Hone (Z.land v 255)) as [-> E]. cbn [mbind option_bind]. rewrite E. done.
  - unfold conversion. cbn [head mbind option_bind tail width_loop andb Z.leb Z.compare Z.eqb Pos.eqb Pos.compare Pos.compare_cont]. destruct s as [s|]; cbn [option_map default id from_option].
    + rewrite copy_str_ok by (done || lia). done.
    + change str_NULL with ([78; 85; 76; 76] ++ 0 :: []). rewrite copy_str_ok by (lia || (repeat constructor; lia)). done.
  - destruct Hwf as [Hn Hc]. rewrite !Forall_cons_iff in Hc. destruct Hc as (C0 & C1 & C2 & C3 & C4 & C5 & C6 & C7 & C8 & C9 & _). unfold conversion. cbn [head mbind option_bind]. unfold isnum in Hn.
    replace (c =? 48) with false by lia. cbn [width_loop]. replace ((48 <=? c) && (c <=? 57)) with false by lia. cbn [mbind option_bind head tail]. rewrite !(proj2 (Z.eqb_neq c _)) by done. cbn [mbind option_bind head tail orb]. rewrite !(proj2 (Z.eqb_neq c _)) by done. cbn [orb]. destruct (Hone 126) as [-> E]. cbn [mbind option_bind]. rewrite E. done.
  - destruct Hwf as [Hwt Hk]. rewrite <- app_assoc. cbn [app]. destruct (flags_ok zero ws 108 (k_char k :: rest) Hwt ltac:(unfold isnum; lia)) as (c0 & Ehd & Ez & Ew). unfold conversion. rewrite Ehd. cbn [mbind option_bind]. rewrite Ez, Ew. cbn [mbind option_bind head tail Z.eqb Pos.eqb].
    pose proof (wval_range zero ws Hwt). pose proof (number_ok zero (wval ws 0) (k_base k) (k_sign k) (k_up k) v args ltac:(done)) as Hnum.
    destruct k; cbn [k_char k_base k_sign k_up Z.eqb Pos.eqb mbind option_bind head tail orb] in *; rewrite Hnum by (auto || done); cbn [mbind option_bind]; rewrite copy_tmp_ok by lia; done.
  - rewrite <- app_assoc. cbn [app]. destruct (flags_ok zero ws 99 rest Hwf ltac:(unfold isnum; lia)) as (c0 & Ehd & Ez & Ew). unfold conversion. rewrite Ehd. cbn [mbind option_bind]. rewrite Ez, Ew. cbn [mbind option_bind head tail Z.eqb Pos.eqb]. destruct (Hone (Z.land v 255)) as [-> E]. cbn [mbind option_bind]. rewrite E. done.
  - assert (Hwt : width_text zero ws) by (by destruct s as [s|]; [destruct Hwf|]). rewrite <- app_assoc. cbn [app]. destruct (flags_ok zero ws 115 rest Hwt ltac:(unfold isnum; lia)) as (c0 & Ehd & Ez & Ew). unfold conversion. rewrite Ehd. cbn [mbind option_bind]. rewrite Ez, Ew. cbn [mbind option_bind head tail Z.eqb Pos.eqb].
    destruct s as [s|]; cbn [option_map default id from_option].
    + destruct Hwf as [_ Hs]. rewrite copy_str_ok by (done || lia). done.
    + change str_NULL with ([78; 85; 76; 76] ++ 0 :: []). rewrite copy_str_ok by (lia || (repeat constructor; lia)). done.
Qed.

Lemma p_fmt_percent p : (forall c, p <> Lit c) -> p_fmt p = 37 :: tail (p_fmt p).
Proof. destruct p; intros H; try done. by destruct (H c). Qed.

Lemma lit_or_not p : (exists c, p = Lit c) \/ (forall c, p <> Lit c).
Proof. destruct p; (by left; eexists) || by right. Qed.

Lemma vsn_loop_ok o N rest extra : (N <= length o)%nat -> forall ps fuel T, Forall p_wf ps -> (length (fmt_of ps) < fuel)%nat ->
  vsn_loop fuel (filled o (take N T)) (length (take N T)) (Z.of_nat N) (fmt_of ps ++ 0 :: rest) (args_of ps ++ extra) = Some (filled o (take N (T ++ text_of ps)), length (take N (T ++ text_of ps))).
Proof.
  intros HN. induction ps as [|p ps IH]; intros fuel T Hwf Hf.
  - unfold fmt_of, args_of, text_of in *. cbn [map concat app] in *. rewrite app_nil_r. destruct fuel as [|fuel]; [cbn in Hf; lia|]. cbn [vsn_loop]. by destruct (negb _).
  - apply Forall_cons_iff in Hwf as [Hp Hwf]. unfold fmt_of, args_of, text_of in *. cbn [map concat] in *. rewrite <- !app_assoc. rewrite length_app in Hf. destruct (decide (N <= length T)%nat) as [Hge|Hlt].
    { rewrite take_app_le by lia. destruct fuel; cbn [vsn_loop]; rewrite (proj2 (Z.ltb_ge _ _)) by (rewrite length_take; lia); done. }
    rewrite (take_ge T) by lia. assert (Hp1 : (1 <= length (p_fmt p))%nat) by (destruct p; cbn [p_fmt length]; lia). destruct fuel as [|fuel]; [lia|]. cbn [vsn_loop]. rewrite (proj2 (Z.ltb_lt _ _)) by lia. cbn [negb].
    assert (Hstep : forall X, vsn_loop fuel (filled o (take N (T ++ X))) (length (take N (T ++ X))) (Z.of_nat N) (concat (map p_fmt ps) ++ 0 :: rest) (concat (map p_args ps) ++ extra) =
      Some (filled o (take N (T ++ X ++ concat (map p_text ps))), length (take N (T ++ X ++ concat (map p_text ps))))) by (intros X; rewrite (app_assoc T X); apply IH; [done|lia]).
    destruct (lit_or_not p) as [[c ->]|Hnl].
    + cbn [p_fmt p_args p_text app p_wf] in *. destruct Hp as [H0 H37]. rewrite !(proj2 (Z.eqb_neq _ _)) by done. cbn [negb]. rewrite put_filled by lia. cbn [mbind option_bind].
      specialize (Hstep [c]). rewrite take_ge in Hstep at 1 2 by (rewrite length_app; cbn; lia). rewrite length_app in Hstep at 1. cbn [length] in Hstep. rewrite Nat.add_1_r in Hstep. exact Hstep.
    + rewrite p_fmt_percent by done. cbn [app Z.eqb Pos.eqb negb]. rewrite conversion_ok by (done || lia). cbn [mbind option_bind]. apply Hstep.
Qed.

Lemma vsnprintf_text buf size ps rest extra : Forall p_wf ps -> 0 < size <= Z.of_nat (length buf) -> size < 2 ^ 31 ->
  vsnprintf buf size (fmt_of ps ++ 0 :: rest) (args_of ps ++ extra) =
  Some (filled buf (take (Z.to_nat (size - 1)) (text_of ps) ++ [0]), Z.of_nat (length (take (Z.to_nat (size - 1)) (text_of ps)))).
Proof.
  intros Hwf Hs Hb. unfold vsnprintf. rewrite u32_id by (unfold is_u32; lia). replace (size - 1) with (Z.of_nat (Z.to_nat (size - 1))) at 1 by lia. set (N := Z.to_nat (size - 1)).
  pose proof (vsn_loop_ok buf N rest extra ltac:(lia) ps (S (length (fmt_of ps ++ 0 :: rest))) [] Hwf ltac:(rewrite length_app; lia)) as H. rewrite take_nil in H. cbn [app length] in H. change (filled buf []) with buf in H. rewrite H. cbn [mbind option_bind].
  assert (length (take N (text_of ps)) <= N)%nat by (rewrite length_take; lia). rewrite put_filled by lia. cbn [mbind option_bind]. rewrite i32_id by (unfold is_i32; lia). done.
Qed.

(** C34: For a format of literal characters, "%%", unknown conversions, numbers ("d", "u",
    "x", "X" and "p", with a leading zero, a width up to 40 and an "l", and "llx" and
    "llX"), characters and strings (NULL ones too; a flag and a width are ignored), and
    no least [int] for a "d", vsnprintf() stores the text of the format up to the size of
    the buffer, with a terminator, and touches nothing outside the buffer. *)
Theorem vsnprintf_prints buf size ps rest extra : Forall p_wf ps -> 0 < size <= Z.of_nat (length buf) -> size < 2 ^ 31 ->
  vsnprintf buf size (fmt_of ps ++ 0 :: rest) (args_of ps ++ extra) =
  Some (filled buf (take (Z.to_nat (size - 1)) (text_of ps) ++ [0]), Z.of_nat (length (take (Z.to_nat (size - 1)) (text_of ps)))).
Proof. apply vsnprintf_text. Qed.

(** ** The System Manager *)

(** What both printf routines print alike: no "l" and "ll", no NULL, no character 0, no
    width for a character or a string, no unknown conversion (see [routines_differ]). *)
Definition p_common (p : piece) : Prop :=
  match p with
  | Lit c => is_u8 c
  | Percent => True
  | Int _ ws _ _ => head ws <> Some 48
  | Chr v => Z.land v 255 <> 0
  | Str (Some s) => is_bytes s
  | _ => False
  end.

Lemma printchars_app a b : forall o, printchars o (a ++ b) = (o ← printchars o a; printchars o b).
Proof. induction a as [|c a IH]; intros o; cbn [printchars app]; [done|]. destruct (printchar o c) as [o'|]; cbn [mbind option_bind]; [apply IH|done]. Qed.

Lemma c_chars_ok s r : Forall (fun c => c <> 0) s -> c_chars (s ++ 0 :: r) = Some s.
Proof. induction s as [|c s IH]; intros H; cbn [c_chars app]; [done|]. apply Forall_cons_iff in H as [Hc H]. rewrite (proj2 (Z.eqb_neq _ _)) by done. by rewrite IH. Qed.

(** Both the sink and the number of characters are those of [t]. *)
Definition sends (o : sink) (t : bytes) : option (sink * Z) := o ← printchars o t; Some (o, Z.of_nat (length t)).

Lemma prints_ok o s r w (zero : bool) : Forall (fun c => c <> 0) s -> 0 <= w ->
  prints o (s ++ 0 :: r) w (if zero then POS_ZERO else 0) = sends o (replicate (Z.to_nat w - length s) (if zero then 48 else 32) ++ s).
Proof.
  intros Hs Hw. unfold prints, sends. rewrite c_chars_ok by done. cbn [mbind option_bind].
  assert (Hpad : Z.to_nat (if 0 <? w then if w <=? Z.of_nat (length s) then 0 else w - Z.of_nat (length s) else w) = (Z.to_nat w - length s)%nat).
  { destruct (Z.ltb_spec 0 w); [destruct (Z.leb_spec w (Z.of_nat (length s))); lia|lia]. }
  rewrite Hpad. replace (negb (Z.land (if zero then POS_ZERO else 0) POS_RIGHT =? 0)) with false by (by destruct zero). replace (negb (Z.land (if zero then POS_ZERO else 0) POS_ZERO =? 0)) with zero by (by destruct zero).
  assert (Hch : replicate (Z.to_nat w - length s) (if (0 <? w) && zero then 48 else 32) = replicate (Z.to_nat w - length s) (if zero then 48 else 32)).
  { destruct (Z.ltb_spec 0 w); cbn [andb]; [done|]. now replace (Z.to_nat w) with 0%nat by lia. }
  rewrite Hch, printchars_app. destruct (printchars o (replicate _ _)) as [o1|]; cbn [mbind option_bind]; [|done]. destruct (printchars o1 s) as [o2|]; cbn [mbind option_bind printchars]; [|done].
  rewrite length_app, length_replicate. do 2 f_equal. lia.
Qed.

Lemma sm_digits_ok n up : forall fuel u s, 2 <= n -> 0 <= u < n ^ Z.of_nat fuel -> (length s + length (num_text fuel n up u) <= 16)%nat ->
  sm_digits fuel u n (if up then 65 else 97) s = Some (if u =? 0 then s else num_text fuel n up u ++ s).
Proof.
  induction fuel as [|fuel IH]; intros u s Hn Hu Hl; cbn [sm_digits]; (destruct (Z.eqb_spec u 0) as [->|Hne]; [done|]); [cbn in Hu; lia|]. cbn [num_text] in *. rewrite length_app in Hl. cbn [length] in Hl.
  assert (Hd : (if 10 <=? u mod n then u mod n + ((if up then 65 else 97) - 48 - 10) else u mod n) + 48 = digit up (u mod n)).
  { unfold digit. destruct (Z.leb_spec 10 (u mod n)), (Z.ltb_spec (u mod n) 10); destruct up; lia. }
  rewrite Hd. unfold unget, BUF_LEN. rewrite decide_True by lia. cbn [mbind option_bind]. destruct (Z.ltb_spec u n) as [Hlt|Hge].
  - rewrite (Z.div_small u n) by lia. cbn [app] in *. destruct fuel; done.
  - pose proof (quot_pos u n Hn Hge). rewrite IH by (done || (by apply pow_step) || (cbn [length]; lia)). rewrite (proj2 (Z.eqb_neq _ _)) by lia. now rewrite <- app_assoc.
Qed.

Lemma digit_byte up d : 0 <= d < 16 -> 48 <= digit up d <= 102.
Proof. unfold digit. intros H. destruct (Z.ltb_spec d 10), up; lia. Qed.

Lemma num_text_range base up : 2 <= base <= 16 -> forall fuel n, 0 <= n -> Forall (fun c => 48 <= c <= 102) (num_text fuel base up n).
Proof.
  intros Hb. induction fuel as [|fuel IH]; intros n Hn; cbn [num_text]; [constructor|]. apply list.Forall_app. split.
  - destruct (n <? base); [constructor|]. apply IH. apply Z.div_pos; lia.
  - constructor; [|constructor]. apply digit_byte. pose proof (Z.mod_pos_bound n base). lia.
Qed.

Lemma range_no_nul l : Forall (fun c => 48 <= c <= 102) l -> Forall (fun c => c <> 0) l.
Proof. intros H. eapply list.Forall_impl; [exact H|]. cbn. lia. Qed.

Lemma printdigit_ok o v base (sign : bool) w (zero up : bool) : 0 <= w <= 40 -> base = (if sign then 10 else base) -> base = 10 \/ base = 16 -> (sign = true -> i32 v <> - 2 ^ 31) ->
  printdigit o (i32 v) base sign w (if zero then POS_ZERO else 0) (if up then 65 else 97) = sends o (pad_text zero (Z.to_nat w) (is_neg sign v) (num_text 40 base up (magnitude sign v))).
Proof.
  intros Hw Hsb Hb Hm. unfold printdigit. pose proof (magnitude_range sign v) as Hr. destruct (Z.eqb_spec (i32 v) 0) as [H0|H0].
  - assert (Hn : is_neg sign v = false) by (unfold is_neg; rewrite H0; apply andb_false_r). assert (Hz : magnitude sign v = 0) by (rewrite <- magnitude_u32, Hn, H0; done).
    rewrite Hn, Hz. assert (Ht : num_text 40 base up 0 = [48]) by (destruct Hb as [-> | ->]; done). rewrite Ht. change [48; 0] with ([48] ++ [0]). rewrite (prints_ok o [48] [] w zero) by (done || (repeat constructor; done) || lia).
    unfold pad_text. cbn [length app]. rewrite Nat.sub_0_r. by destruct zero.
  - assert (Hneg : sign && (base =? 10) && (i32 v <? 0) = is_neg sign v) by (unfold is_neg; destruct sign; [rewrite Hsb; done|done]). rewrite Hneg, neg_ok by done. cbn [mbind option_bind]. rewrite magnitude_u32.
    assert (Hne : magnitude sign v <> 0).
    { rewrite <- magnitude_u32. pose proof (i32_range v) as Hi. unfold is_i32 in Hi. destruct (is_neg sign v) eqn:Ef; [apply andb_prop in Ef as [_ Ef]; apply Z.ltb_lt in Ef; rewrite u32_id by (unfold is_u32; lia); lia|].
      intros E. unfold u32 in E. apply Z.mod_divide in E; [|lia]. destruct E as [q E]. lia. }
    destruct (text_size base up (magnitude sign v) 10 Hb) as [Hl Hbig]; [destruct Hb as [-> | ->]; cbn; lia|lia|]. assert (Hl10 : (length (num_text 40 base up (magnitude sign v)) <= 10)%nat) by (apply num_text_length; [lia| |lia]; destruct Hb as [-> | ->]; cbn; lia).
    rewrite sm_digits_ok by (cbn [length]; lia). cbn [mbind option_bind]. rewrite (proj2 (Z.eqb_neq (magnitude sign v) 0)) by done.
    assert (Hnn : Forall (fun c => c <> 0) (num_text 40 base up (magnitude sign v))) by (apply range_no_nul, num_text_range; lia). set (t := num_text 40 base up (magnitude sign v)) in *. clearbody t. unfold pad_text.
    destruct (is_neg sign v); cbn [length].
    + replace (negb (Z.land (if zero then POS_ZERO else 0) POS_ZERO =? 0)) with zero by (by destruct zero). destruct (Z.eqb_spec w 0) as [->|Hw0]; cbn [negb andb].
      * unfold unget, BUF_LEN. rewrite decide_True by (rewrite length_app; cbn [length]; lia). cbn [mbind option_bind]. change (45 :: t ++ [0]) with ((45 :: t) ++ [0]). rewrite (prints_ok o (45 :: t) [] 0 zero) by (lia || (constructor; [lia|done])). cbn [length Z.to_nat Nat.sub replicate app]. by destruct zero.
      * destruct zero.
        -- unfold sends. cbn [app printchars]. destruct (printchar o 45) as [o1|]; cbn [mbind option_bind]; [|done]. rewrite (prints_ok o1 t [] (w - 1) true) by (done || lia). unfold sends.
           replace (Z.to_nat (w - 1) - length t)%nat with (Z.to_nat w - 1 - length t)%nat by lia. destruct (printchars o1 _) as [o2|]; cbn [mbind option_bind length]; [|done]. do 2 f_equal. lia.
        -- unfold unget, BUF_LEN. rewrite decide_True by (rewrite length_app; cbn [length]; lia). cbn [mbind option_bind]. change (45 :: t ++ [0]) with ((45 :: t) ++ [0]). rewrite (prints_ok o (45 :: t) [] w false) by (lia || (constructor; [lia|done])). cbn [length app]. do 2 f_equal. f_equal. lia.
    + rewrite (prints_ok o t [] w zero) by (done || lia). cbn [app]. rewrite Nat.sub_0_r. by destruct zero.
Qed.

Lemma sm_flags_ok zero ws c rest : width_text zero ws -> head ws <> Some 48 -> ~ isnum c -> c <> 45 -> exists c0, head (flags zero ws ++ c :: rest) = Some c0 /\ c0 <> 45 /\
  zero_loop (flags zero ws ++ c :: rest) 0 = Some (ws ++ c :: rest, if zero then POS_ZERO else 0).
Proof.
  intros (Hn & _ & _) Hh Hc H45. unfold isnum in Hc. assert (Hz : forall pos, zero_loop (ws ++ c :: rest) pos = Some (ws ++ c :: rest, pos)).
  { intros pos. destruct ws as [|x ws]; cbn [app zero_loop]; [now rewrite (proj2 (Z.eqb_neq c 48)) by lia|]. rewrite (proj2 (Z.eqb_neq x 48)); [done|]. intros ->. by apply Hh. }
  unfold flags. destruct zero; cbn [app head zero_loop Z.eqb Pos.eqb]; rewrite Hz; [by eexists|]. destruct ws as [|x ws]; cbn [app head]; eexists; (split; [done|]; split; [|done]); [done|].
  apply Forall_cons_iff in Hn as [Hx _]. unfold isnum in Hx. lia.
Qed.

Lemma sm_int_ok o zero ws k v rest args : width_text zero ws -> (k = Kd -> i32 v <> - 2 ^ 31) -> head ws <> Some 48 ->
  sm_conversion o (flags zero ws ++ k_char k :: rest) (AInt v :: args) = (o' ← sends o (p_text (Int zero ws k v)); Some (fst o', rest, args, snd o')).
Proof.
  intros Hwt Hk Hh. destruct (sm_flags_ok zero ws (k_char k) rest Hwt Hh (k_char_num k)) as (c0 & Ehd & Hc0 & Ezl); [by destruct k|]. unfold sm_conversion. rewrite Ehd. cbn [mbind option_bind]. rewrite (proj2 (Z.eqb_neq c0 45)) by done. rewrite Ezl. cbn [mbind option_bind].
  pose proof (wval_range zero ws Hwt). destruct Hwt as (Hn & Hw & _). rewrite width_ok by (done || lia || apply k_char_num). cbn [mbind option_bind head tail]. cbv zeta. cbn [p_text].
  assert (Hpd : forall ref : Z, ref = (if k_up k then 65 else 97) -> printdigit o (i32 v) (k_base k) (k_sign k) (wval ws 0) (if zero then POS_ZERO else 0) ref =
    sends o (pad_text zero (Z.to_nat (wval ws 0)) (is_neg (k_sign k) v) (num_text 40 (k_base k) (k_up k) (magnitude (k_sign k) v)))).
  { intros ref ->. apply printdigit_ok; [done|by destruct k|destruct k; auto|intros Hs; apply Hk; by destruct k]. }
  destruct k; cbn [k_char k_base k_sign k_up Z.eqb Pos.eqb orb] in *; rewrite Hpd by done; by destruct (sends o _) as [[]|].
Qed.

Lemma sm_conversion_ok p o rest args : p_wf p -> p_common p -> (forall c, p <> Lit c) -> p <> Percent ->
  sm_conversion o (tail (p_fmt p) ++ rest) (p_args p ++ args) = (o' ← sends o (p_text p); Some (fst o', rest, args, snd o')).
Proof.
  intros Hwf Hcm Hnl Hnp. destruct p as [c| |zero ws k v|zero ws up v|v|s|c|zero ws k v|zero ws v|zero ws s]; cbn [p_fmt p_args p_wf p_common tail app] in *; try done.
  - by destruct (Hnl c).
  - rewrite <- app_assoc. cbn [app]. destruct Hwf. by apply sm_int_ok.
  - unfold sm_conversion. cbn [head tail zero_loop width_loop mbind option_bind Z.eqb Pos.eqb orb andb Z.leb Z.compare Pos.compare Pos.compare_cont]. cbn [p_text]. rewrite Z.land_comm in *. change 255 with (Z.ones 8) in *. rewrite Z.land_comm, Z.land_ones in * by lia.
    change [u8 v; 0] with ([u8 v] ++ [0]). rewrite (prints_ok o [u8 v] [] 0 false) by (lia || (constructor; [done|constructor])). cbn [length Z.to_nat Nat.sub replicate app]. fold (u8 v). by destruct (sends o _) as [[]|].
  - destruct s as [s|]; [|done]. unfold sm_conversion. cbn [head tail zero_loop width_loop mbind option_bind Z.eqb Pos.eqb orb andb Z.leb Z.compare Pos.compare Pos.compare_cont option_map default id from_option]. cbn [p_text].
    rewrite (prints_ok o s [] 0 false) by (done || lia). cbn [Z.to_nat Nat.sub replicate app]. by destruct (sends o _) as [[]|].
Qed.

Lemma head_not p : p_wf p -> p_common p -> (forall c, p <> Lit c) -> p <> Percent -> exists c, head (tail (p_fmt p)) = Some c /\ c <> 0 /\ c <> 37.
Proof.
  intros Hwf Hcm Hnl Hnp. destruct p as [c| |zero ws k v|zero ws up v|v|s|c|zero ws k v|zero ws v|zero ws s]; cbn [p_fmt p_wf p_common tail head] in *; try done.
  - by destruct (Hnl c).
  - destruct Hwf as [(Hn & _ & _) _]. unfold flags. destruct zero; cbn [app head]; [by eexists|]. destruct ws as [|x ws]; cbn [app head]; [by exists (k_char k); destruct k|].
    apply Forall_cons_iff in Hn as [Hx _]. unfold isnum in Hx. exists x. split; [done|lia].
  - by eexists.
  - by eexists.
Qed.

Lemma head_tail {A} (l r : list A) c : head (tail l) = Some c -> head (tail l ++ r) = Some c.
Proof. by destruct (tail l). Qed.

Lemma printstr_loop_ok rest extra ps : forall fuel o num, Forall p_wf ps -> Forall p_common ps -> (length (fmt_of ps) < fuel)%nat ->
  printstr_loop fuel o (fmt_of ps ++ 0 :: rest) (args_of ps ++ extra) num = (o' ← printchars o (text_of ps); Some (o', num + Z.of_nat (length (text_of ps)))).
Proof.
  unfold fmt_of, args_of, text_of. induction ps as [|p ps IH]; intros fuel o num Hwf Hcm Hf; cbn [map concat app] in *.
  - destruct fuel as [|fuel]; [cbn in Hf; lia|]. cbn [printstr_loop Z.eqb printchars mbind option_bind length]. now rewrite Z.add_0_r.
  - apply Forall_cons_iff in Hwf as [Hp Hwf], Hcm as [Hc Hcm]. rewrite length_app in Hf. assert (Hp1 : (1 <= length (p_fmt p))%nat) by (destruct p; cbn [p_fmt length]; lia). rewrite <- !app_assoc, printchars_app, length_app, Nat2Z.inj_add.
    destruct fuel as [|fuel]; [lia|]. cbn [printstr_loop]. destruct (lit_or_not p) as [[c ->]|Hnl]; [|destruct (decide (p_fmt p = [37; 37])) as [Hpp|Hpp]].
    + cbn [p_fmt p_args p_text app p_wf printchars] in *. destruct Hp as [H0 H37]. rewrite !(proj2 (Z.eqb_neq _ _)) by done. destruct (printchar o c) as [o1|]; cbn [mbind option_bind]; [|done]. rewrite IH by (done || (cbn [length] in *; lia)). cbn [length]. now rewrite Z.add_assoc.
    + rewrite Hpp in *. assert (p = Percent) as -> by (destruct p; cbn [p_fmt p_common] in *; try done; destruct zero, ws as [|x [|? ?]]; try done; by destruct k).
      cbn [app head Z.eqb Pos.eqb mbind option_bind tail p_args p_text printchars]. destruct (printchar o 37) as [o1|]; cbn [mbind option_bind]; [|done]. rewrite IH by (done || (cbn [length] in *; lia)). cbn [length]. now rewrite Z.add_assoc.
    + assert (Hnp : p <> Percent) by (by intros ->). destruct (head_not p Hp Hc Hnl Hnp) as (c & Eh & H0 & H37). rewrite p_fmt_percent by done. cbn [app Z.eqb Pos.eqb]. rewrite (head_tail _ _ c) by done. cbn [mbind option_bind]. rewrite !(proj2 (Z.eqb_neq c _)) by done.
      rewrite sm_conversion_ok by done. unfold sends. destruct (printchars o (p_text p)) as [o1|]; cbn [mbind option_bind fst snd]; [|done]. rewrite IH by (done || lia). now rewrite Z.add_assoc.
Qed.

Lemma mem_chars o X : forall T, (length T + length X <= length o)%nat -> printchars (Mem (filled o T) (length T)) X = Some (Mem (filled o (T ++ map u8 X)) (length (T ++ map u8 X))).
Proof.
  induction X as [|c X IH]; intros T H; cbn [printchars map length] in *; [now rewrite app_nil_r|]. unfold printchar. rewrite put_filled by lia. cbn [mbind option_bind].
  replace (S (length T)) with (length (T ++ [u8 c])) by (rewrite length_app; cbn; lia). rewrite IH by (rewrite length_app; cbn [length]; lia). now rewrite <- app_assoc.
Qed.

Lemma mem_chars_over o X : forall T, (length T <= length o < length T + length X)%nat -> printchars (Mem (filled o T) (length T)) X = None.
Proof.
  induction X as [|c X IH]; intros T H; cbn [printchars length] in *; [lia|]. unfold printchar. destruct (decide (length T < length o)%nat) as [Hl|Hl].
  - rewrite put_filled by lia. cbn [mbind option_bind]. replace (S (length T)) with (length (T ++ [u8 c])) by (rewrite length_app; cbn; lia). apply IH. rewrite length_app. cbn [length]. lia.
  - unfold put. now rewrite decide_False by (unfold filled; rewrite length_app, length_drop; lia).
Qed.

Lemma range_bytes l : Forall (fun c => 48 <= c <= 102) l -> is_bytes l.
Proof. intros H. eapply list.Forall_impl; [exact H|]. unfold is_u8. cbn. lia. Qed.

Lemma pad_bytes zero w neg t : is_bytes t -> is_bytes (pad_text zero w neg t).
Proof.
  intros H. assert (H32 : forall n, is_bytes (replicate n 32)) by (intros n; apply Forall_replicate; unfold is_u8; lia). assert (H48 : forall n, is_bytes (replicate n 48)) by (intros n; apply Forall_replicate; unfold is_u8; lia).
  assert (H45 : is_bytes [45]) by (constructor; [unfold is_u8; lia|constructor]). unfold pad_text, is_bytes in *. destruct zero, neg; rewrite !list.Forall_app; repeat split; (apply H32 || apply H48 || done || constructor).
Qed.

Lemma text_bytes ps : Forall p_common ps -> is_bytes (text_of ps).
Proof.
  unfold text_of. induction ps as [|p ps IH]; intros H; cbn [map concat]; [constructor|]. apply Forall_cons_iff in H as [Hp H]. apply list.Forall_app. split; [|by apply IH].
  destruct p as [c| |zero ws k v|zero ws up v|v|s|c|zero ws k v|zero ws v|zero ws s]; cbn [p_text p_common] in *; try done.
  - by constructor.
  - constructor; [unfold is_u8; lia|constructor].
  - pose proof (magnitude_range (k_sign k) v). apply pad_bytes, range_bytes, num_text_range; [destruct k; cbn; lia|lia].
  - constructor; [|constructor]. change 255 with (Z.ones 8). rewrite Z.land_ones by lia. apply u8_range.
  - by destruct s.
Qed.

Lemma bytes_u8 l : is_bytes l -> map u8 l = l.
Proof. induction l as [|c l IH]; intros H; [done|]. apply Forall_cons_iff in H as [Hc H]. cbn [map]. rewrite IH by done. f_equal. by apply u8_id. Qed.

(** C35: For literal characters, "%%", numbers ("d", "u", "x", "X" and "p", with a leading
    zero and a width up to 40), characters and strings that are not NULL, without a
    width, the System Manager's snprintf() prints what vsnprintf() of the boot stages
    prints, but it does not look at the size: a text that does not fit is stored outside
    the buffer. *)
Theorem printf_routines_agree buf size ps rest extra : Forall p_wf ps -> Forall p_common ps -> 0 < Z.of_nat (length buf) < 2 ^ 31 ->
  sm_snprintf buf size (fmt_of ps ++ 0 :: rest) (args_of ps ++ extra) =
  if decide (length (text_of ps) < length buf)%nat then vsnprintf buf (Z.of_nat (length buf)) (fmt_of ps ++ 0 :: rest) (args_of ps ++ extra) else None.
Proof.
  intros Hwf Hcm Hb. unfold sm_snprintf, printstr. rewrite printstr_loop_ok by (done || (rewrite length_app; lia)). pose proof (bytes_u8 _ (text_bytes ps Hcm)) as Hu.
  pose proof (mem_chars buf (text_of ps) []) as Hm. pose proof (mem_chars_over buf (text_of ps) []) as Ho. change (filled buf []) with buf in Hm, Ho. cbn [length app Nat.add] in Hm, Ho. rewrite Hu in Hm. case_decide as Hfit.
  - rewrite Hm by lia. cbn [mbind option_bind]. rewrite put_filled by done. cbn [mbind option_bind]. rewrite vsnprintf_text by (done || lia). rewrite take_ge by lia. done.
  - destruct (decide (length (text_of ps) = length buf)) as [He|He]; [|rewrite Ho by lia; done]. rewrite Hm by lia. cbn [mbind option_bind]. unfold put. rewrite decide_False; [done|]. unfold filled. rewrite length_app, length_drop. lia.
Qed.

(** ** Reading back *)

Lemma digit_read up d : 0 <= d < 16 -> isxdigit (digit up d) = true /\ str2ul_value (digit up d) = d.
Proof.
  intros H. assert (Hc : forall x, List.In x (map Z.of_nat (seq 0 16)) -> isxdigit (digit up x) = true /\ str2ul_value (digit up x) = x).
  { intros x Hx. cbn in Hx. repeat (destruct Hx as [<-|Hx]; [by destruct up|]). done. }
  apply Hc, in_map_iff. exists (Z.to_nat d). split; [lia|]. apply in_seq. lia.
Qed.

Lemma num_text_read base up : 2 <= base <= 16 -> forall fuel n, 0 <= n < base ^ Z.of_nat fuel -> (1 <= fuel)%nat ->
  Forall (fun c => isxdigit c = true /\ str2ul_value c < base) (num_text fuel base up n) /\ fold_left (fun acc d => acc * base + d) (map str2ul_value (num_text fuel base up n)) 0 = n.
Proof.
  intros Hb. induction fuel as [|fuel IH]; intros n Hn Hf; [lia|]. cbn [num_text]. pose proof (Z.mod_pos_bound n base ltac:(lia)) as Hm. destruct (digit_read up (n mod base) ltac:(lia)) as [D1 D2].
  rewrite map_app, fold_left_app. cbn [map fold_left]. rewrite D2. assert (Hd : Forall (fun c => isxdigit c = true /\ str2ul_value c < base) [digit up (n mod base)]) by (constructor; [split; [done|lia]|constructor]).
  destruct (Z.ltb_spec n base) as [Hlt|Hge].
  - cbn [map fold_left app]. split; [done|]. rewrite Z.mod_small; lia.
  - destruct fuel as [|fuel]; [rewrite Nat2Z.inj_succ in Hn; cbn in Hn; lia|]. destruct (IH (n / base)) as [I1 I2]; [apply pow_step; [lia|done]|lia|]. split; [apply list.Forall_app; split; done|].
    rewrite I2. pose proof (Z.div_mod n base ltac:(lia)). lia.
Qed.

Lemma strtoul_digits base (s : bytes) rest : base = 10 \/ base = 16 -> is_bytes (s ++ 0 :: rest) -> s <> [] -> Forall (fun c => isxdigit c = true /\ str2ul_value c < base) s ->
  strtoul (s ++ 0 :: rest) base = Some (u64 (fold_left (fun acc d => acc * base + d) (map str2ul_value s) 0), length s).
Proof.
  intros Hb Hby Hne Hs. unfold strtoul. destruct s as [|c0 s]; [done|]. cbn [app]. change ((c0 :: s ++ 0 :: rest) !! 0%nat) with (Some c0). cbn [mbind option_bind]. replace (base =? 0) with false by lia. cbn [mbind option_bind].
  assert (Hskip : (if (base =? 16) && (c0 =? 48) then c1 ← (c0 :: s ++ 0 :: rest) !! 1%nat; Some (TOLOWER c1 =? 120) else Some false) = Some false).
  { case_match; [|done]. cbn [lookup list_lookup]. destruct s as [|c1 s]; cbn [app lookup list_lookup mbind option_bind]; [done|]. f_equal. rewrite TOLOWER_x by (cbn [app] in Hby; inv_bytes; done).
    apply Forall_cons_iff in Hs as [_ Hs]. apply Forall_cons_iff in Hs as [[Hx _] _]. destruct (Z.eqb_spec c1 120) as [->|]; [done|]. by destruct (Z.eqb_spec c1 88) as [->|]. }
  rewrite Hskip. cbn [mbind option_bind]. rewrite loops_agree by done. change 0 with (u64 0) at 2. change (c0 :: s ++ 0 :: rest) with ((c0 :: s) ++ 0 :: rest). rewrite str2ul_loop_horner; [done|done|by intros c [= <-]|done].
Qed.

(** What is printed with %u, %x or %X is read back by strtoul(), which stops at the
    terminator. *)
Theorem printed_number_read buf size k v rest : k = Ku \/ k = Kx \/ k = KX -> is_u32 v -> is_bytes buf -> 11 <= size <= Z.of_nat (length buf) -> size < 2 ^ 31 ->
  exists b n, vsnprintf buf size (37 :: k_char k :: 0 :: rest) [AInt v] = Some (b, n) /\ strtoul b (k_base k) = Some (v, Z.to_nat n).
Proof.
  intros Hk Hv Hbuf Hs Hb. pose proof (vsnprintf_text buf size [Int false [] k v] rest []) as H. change (fmt_of [Int false [] k v] ++ 0 :: rest) with (37 :: k_char k :: 0 :: rest) in H. change (args_of [Int false [] k v] ++ []) with [AInt v] in H.
  unfold is_u32 in Hv. assert (Hsign : is_neg (k_sign k) v = false /\ magnitude (k_sign k) v = v) by (unfold magnitude, is_neg; destruct Hk as [->|[->| ->]]; cbn [k_sign andb]; (split; [done|]; apply u32_id; done)). destruct Hsign as [Hn Hm].
  assert (Hbase : k_base k = 10 \/ k_base k = 16) by (destruct k; auto). assert (Hbig : 0 <= v < k_base k ^ Z.of_nat 10) by (destruct Hbase as [-> | ->]; cbn; lia).
  pose proof (num_text_pos 39 (k_base k) (k_up k) v) as L1. pose proof (num_text_length (k_base k) (k_up k) 10 40 v ltac:(lia) Hbig ltac:(lia)) as L2. destruct (text_size (k_base k) (k_up k) v 10 Hbase Hbig ltac:(lia)) as [_ H40].
  destruct (num_text_read (k_base k) (k_up k) ltac:(lia) 40 v ltac:(lia) ltac:(lia)) as [R1 R2]. pose proof (range_bytes _ (num_text_range (k_base k) (k_up k) ltac:(lia) 40 v ltac:(lia))) as R3.
  assert (Htext : text_of [Int false [] k v] = num_text 40 (k_base k) (k_up k) v).
  { unfold text_of. cbn [map concat p_text]. rewrite Hn, Hm, app_nil_r. unfold pad_text. cbn [wval fold_left Z.to_nat length Nat.sub replicate app]. done. }
  rewrite Htext in H. set (t := num_text 40 (k_base k) (k_up k) v) in *. clearbody t. rewrite take_ge in H by lia.
  rewrite H; [|constructor; [|constructor]; split; [split_and!; [constructor|cbn; lia|done]|intros ->; naive_solver]|lia|lia].
  eexists _, _. split; [done|]. rewrite Nat2Z.id. unfold filled. rewrite <- app_assoc. cbn [app].
  rewrite strtoul_digits; [rewrite R2; do 2 f_equal; apply Z.mod_small; lia|done| |destruct t; [cbn in L1; lia|discriminate]|done].
  apply list.Forall_app. split; [done|]. constructor; [unfold is_u8; lia|]. by apply Forall_drop.
Qed.

(** ** Where the routines leave their buffers *)

(** A width above 40 fills [tmp] past its end. *)
Lemma wide_number_overruns : vsnprintf (replicate 100 0) 100 [37; 52; 49; 120; 0] [AInt 1] = None.
Proof. reflexivity. Qed.

(** A format that ends in '%' is read past its terminator by vsnprintf(), one that ends
    in a width by the System Manager's printf. *)
Lemma trailing_percent_overreads : vsnprintf (replicate 100 0) 100 [37; 0] [] = None /\ mv_sm_printf [37; 53; 0] [] = None /\ mv_sm_printf [37; 0] [] = Some ([], 0).
Proof. done. Qed.

(** NULL is "NULL" for the boot stages and "(null)" for the System Manager; only the
    System Manager heeds the width of a string and of a character; a conversion that is
    not known is "~" and nothing. *)
Lemma routines_differ :
  vsnprintf (replicate 9 9) 9 [37; 115; 0] [AStr None] = Some ([78; 85; 76; 76; 0; 9; 9; 9; 9], 4) /\ sm_snprintf (replicate 9 9) 9 [37; 115; 0] [AStr None] = Some ([40; 110; 117; 108; 108; 41; 0; 9; 9], 6) /\
  vsnprintf (replicate 4 9) 4 [37; 51; 115; 0] [AStr (Some [97; 0])] = Some ([97; 0; 9; 9], 1) /\ sm_snprintf (replicate 4 9) 4 [37; 51; 115; 0] [AStr (Some [97; 0])] = Some ([32; 32; 97; 0], 3) /\
  vsnprintf (replicate 4 9) 4 [37; 51; 99; 0] [AInt 97] = Some ([97; 0; 9; 9], 1) /\ sm_snprintf (replicate 4 9) 4 [37; 51; 99; 0] [AInt 97] = Some ([32; 32; 97; 0], 3) /\
  vsnprintf (replicate 2 9) 2 [37; 122; 0] [] = Some ([126; 0], 1) /\ sm_snprintf (replicate 2 9) 2 [37; 122; 0] [] = Some ([0; 9], 0).
Proof. done. Qed.

(** The System Manager does not know 'l': "%ld" prints a "d". *)
Lemma sm_long_not_known : mv_sm_printf [37; 108; 100; 0] [AInt 7] = Some ([100], 1).
Proof. done. Qed.

(** ** Witnesses *)

(** "v%05d:%x %s" *)
Definition w_pieces : list piece := [Lit 118; Int true [53] Kd (-42); Lit 58; Int false [] Kx 0xbeef; Lit 32; Str (Some [111; 107])].

Lemma w_pieces_wf : Forall p_wf w_pieces.
Proof.
  assert (W1 : width_text true [53]) by (split_and!; [constructor; [unfold isnum; lia|constructor]|vm_compute; discriminate|done]). assert (W2 : width_text false []) by (split_and!; [constructor|vm_compute; discriminate|done]).
  unfold w_pieces. repeat (apply Forall_cons_iff; split); [split; lia|split; [done|intros _; vm_compute; discriminate]|split; lia|split; [done|done]|split; lia|lia|lia|constructor|constructor].
Qed.

Lemma w_pieces_common : Forall p_common w_pieces.
Proof. unfold w_pieces. repeat constructor; cbn [p_common]; unfold is_u8; try lia; try done. Qed.

(** "v-0042:beef ok", cut after eleven characters. *)
Lemma vsnprintf_prints_witness : vsnprintf (replicate 20 9) 12 [118; 37; 48; 53; 100; 58; 37; 120; 32; 37; 115; 0] [AInt (-42); AInt 0xbeef; AStr (Some [111; 107; 0])] =
  Some ([118; 45; 48; 48; 52; 50; 58; 98; 101; 101; 102; 0; 9; 9; 9; 9; 9; 9; 9; 9], 11).
Proof.
  pose proof (vsnprintf_prints (replicate 20 9) 12 w_pieces [] [] w_pieces_wf ltac:(cbn; lia) ltac:(lia)) as H. vm_compute in H |- *. exact H.
Defined.

Lemma printf_routines_agree_witness : sm_snprintf (replicate 20 9) 12 (fmt_of w_pieces ++ [0]) (args_of w_pieces ++ []) = vsnprintf (replicate 20 9) 20 (fmt_of w_pieces ++ [0]) (args_of w_pieces ++ []) /\
  sm_snprintf (replicate 12 9) 12 (fmt_of w_pieces ++ [0]) (args_of w_pieces ++ []) = None.
Proof.
  split; [rewrite (printf_routines_agree (replicate 20 9) 12 w_pieces [] [] w_pieces_wf w_pieces_common ltac:(cbn; lia))|rewrite (printf_routines_agree (replicate 12 9) 12 w_pieces [] [] w_pieces_wf w_pieces_common ltac:(cbn; lia))]; vm_compute; reflexivity.
Defined.

Lemma printed_number_read_witness : exists b n, vsnprintf (replicate 16 0) 16 [37; 120; 0] [AInt 0xcafe] = Some (b, n) /\ strtoul b 16 = Some (0xcafe, Z.to_nat n).
Proof.
  apply (printed_number_read (replicate 16 0) 16 Kx 0xcafe []); [by right; left|unfold is_u32; lia|apply Forall_replicate; unfold is_u8; lia|cbn; lia|lia].
Defined.
