(* ===== verification/SmModules.v ===== *)
(** * The modules around the power flows
    (sm_cm3/syna/src: sm_wdt.c, sm_led.c, sm_temperature.c, power/sm_power_wol.c,
    power/sm_power_uart.c)

    The watchdogs, the light, the temperature sensor and the wake-up over the network
    and the serial line, and all of them together with the remote control, the buttons
    and CEC.  They call the power module, and the power module tells them
    its flow and status: sm_send_internal_msg() calls the handlers of all modules before
    it returns.  Registers are fields of the state; what the temperature sensor and the
    serial line give is a parameter. *)

From S2P Require Import Prelude PowerFlow PowerSafety IrRecv IrKeys Buttons Cec.

(** ** Constants *)

Definition MV_SM_ID_TEMP : Z := 7.
Definition MV_SM_WD_APP_START : Z := 0x12.
Definition MV_SM_WD_APP_EXIT : Z := 0x36.
Definition MV_SM_WD_APP_CONTINUE : Z := 0x63.
Definition MV_SM_WD_Kickoff : Z := 0x24.
Definition MV_SM_WD_FASTBOOT : Z := 0x48.
Definition MV_SM_TEMP_SAMPLE : Z := 0xF0.
Definition MV_SM_TEMP_CPU_TYPE : Z := 0xCC.
Definition MV_SM_SOC_TSEN_ID : Z := 0xDD.
Definition SMICTL_IRQ_SM_WDT0 : Z := 0.
Definition SMICTL_IRQ_SM_WDT1 : Z := 1.
Definition SMICTL_IRQ_SMI_MGP_INT_N : Z := 31.

(** The internal messages: those of the power module, and others by their first words. *)
Inductive imsg := FromPower (f : SM_POWER_FLOW) (st : POWER_STATUS) | FromOther (m1 : Z).

(** ** Watchdogs *)

Definition WDT0TIMEOUT : Z := 11.
Definition WDT1TIMEOUT : Z := 12.
Definition PCLK_8 : Z := 2.

Inductive SM_WDT_ID := SM_WDT_0 | SM_WDT_1 | SM_WDT_2.

#[export] Instance SM_WDT_ID_dec : EqDecision SM_WDT_ID.
Proof. solve_decision. Defined.

(** The control and timeout registers, the two fields of SM_WDT_MASK (what resets the
    System Manager, what the SoC), the watchdogs that were restarted and those whose
    interrupt was cleared, the last one first. *)
Record wdt := mk_wdt { WDT_CR : SM_WDT_ID -> Z; WDT_TORR : SM_WDT_ID -> Z; WDT_MASK : Z * Z; kicked : list SM_WDT_ID; cleared : list SM_WDT_ID; is_appwdt_enable : bool; wdt0_isr : Z }.

Definition set_reg (f : SM_WDT_ID -> Z) (id : SM_WDT_ID) (v : Z) : SM_WDT_ID -> Z := fun i => if decide (i = id) then v else f i.
Definition set_cr (id : SM_WDT_ID) (v : Z) (w : wdt) : wdt := mk_wdt (set_reg (WDT_CR w) id v) (WDT_TORR w) (WDT_MASK w) (kicked w) (cleared w) (is_appwdt_enable w) (wdt0_isr w).
Definition set_app (b : bool) (w : wdt) : wdt := mk_wdt (WDT_CR w) (WDT_TORR w) (WDT_MASK w) (kicked w) (cleared w) b (wdt0_isr w).

Definition sm_wdt_enable (id : SM_WDT_ID) (w : wdt) : wdt := set_cr id (Z.lor (WDT_CR w id) 1) w.
Definition sm_wdt_set_rspmode (id : SM_WDT_ID) (mode : bool) (w : wdt) : wdt :=
  set_cr id (if mode then Z.lor (WDT_CR w id) 2 else Z.land (WDT_CR w id) (u32 (Z.lnot 2))) w.
Definition sm_wdt_set_rpl (id : SM_WDT_ID) (rpl : Z) (w : wdt) : wdt := set_cr id (Z.lor (Z.land (WDT_CR w id) (u32 (Z.lnot (Z.shiftl 7 2)))) (Z.shiftl rpl 2)) w.
Definition sm_wdt_settimeout (id : SM_WDT_ID) (settings : Z) (w : wdt) : wdt :=
  if (settings <? 0) || (15 <? settings) then w else mk_wdt (WDT_CR w) (set_reg (WDT_TORR w) id settings) (WDT_MASK w) (kicked w) (cleared w) (is_appwdt_enable w) (wdt0_isr w).
Definition sm_wdt_restart (id : SM_WDT_ID) (w : wdt) : wdt := mk_wdt (WDT_CR w) (WDT_TORR w) (WDT_MASK w) (id :: kicked w) (cleared w) (is_appwdt_enable w) (wdt0_isr w).
Definition sm_wdt_clearint (id : SM_WDT_ID) (w : wdt) : wdt := mk_wdt (WDT_CR w) (WDT_TORR w) (WDT_MASK w) (kicked w) (id :: cleared w) (is_appwdt_enable w) (wdt0_isr w).
Definition sm_wdt_getenstatus (id : SM_WDT_ID) (w : wdt) : bool := negb (Z.land (WDT_CR w id) 1 =? 0).

(** The interrupt of watchdog 0: the reason is stored from the second one on. *)
Definition mv_sm_wdt_0_isr (now : Z) (w : wdt) (p : power) : wdt * power :=
  let n := u32 (wdt0_isr w + 1) in
  (mk_wdt (WDT_CR w) (WDT_TORR w) (WDT_MASK w) (kicked w) (cleared w) (is_appwdt_enable w) n, if 1 <? n then sm_set_reboot_reason now WATCHDOG p else p).

Definition mv_sm_wdt_2_isr (w : wdt) : wdt := sm_wdt_clearint SM_WDT_2 w.

(** One round of the task, which waits two seconds then. *)
Definition mv_sm_wdt_task (w : wdt) : wdt :=
  let w := sm_wdt_restart SM_WDT_0 w in
  if sm_wdt_getenstatus SM_WDT_1 w then if negb (is_appwdt_enable w) then sm_wdt_restart SM_WDT_1 w else w else w.

(** One round of the loop that is never left, and the interrupts that are enabled in it. *)
Definition mv_sm_wdt_idle_round (w : wdt) : wdt :=
  let w := sm_wdt_restart SM_WDT_0 w in if sm_wdt_getenstatus SM_WDT_1 w then sm_wdt_restart SM_WDT_1 w else w.
Definition idle_inten : Z := Z.lor (Z.shiftl 1 SMICTL_IRQ_SM_WDT0) (Z.shiftl 1 SMICTL_IRQ_SM_WDT1).

(** [inr]: the message leaves the System Manager in the idle loop. *)
Definition mv_sm_process_wdt_msg (iWDT iMsgContent : Z) (w : wdt) : wdt + wdt :=
  if iWDT =? 1 then
    if iMsgContent =? MV_SM_WD_APP_START then
      inl (set_app true (sm_wdt_restart SM_WDT_1 (sm_wdt_enable SM_WDT_1 (sm_wdt_settimeout SM_WDT_1 WDT1TIMEOUT (sm_wdt_set_rpl SM_WDT_1 PCLK_8 (sm_wdt_set_rspmode SM_WDT_1 true w))))))
    else if iMsgContent =? MV_SM_WD_APP_CONTINUE then inl (set_app true w)
    else if iMsgContent =? MV_SM_WD_APP_EXIT then inl (set_app false w)
    else if iMsgContent =? MV_SM_WD_Kickoff then inl (sm_wdt_restart SM_WDT_1 w)
    else if iMsgContent =? MV_SM_WD_FASTBOOT then inr (mv_sm_wdt_idle_round w)
    else inl w
  else inl w.

Definition mv_sm_process_internal_wdt_msg (m : imsg) (w : wdt) : wdt :=
  match m with
  | FromPower (FLOW_ACTIVE_2_LOWPOWERSTANDBY | FLOW_ACTIVE_2_NORMALSTANDBY | FLOW_ACTIVE_2_SUSPEND) st => if decide (st = STA_LEAVEFLOW) then set_app false w else w
  | FromPower FLOW_SUSPEND_2_ACTIVE st => if decide (st = STA_LEAVEFLOW) then set_app true w else w
  | _ => w
  end.

Definition set_mask (m : Z * Z) (w : wdt) : wdt := mk_wdt (WDT_CR w) (WDT_TORR w) m (kicked w) (cleared w) (is_appwdt_enable w) (wdt0_isr w).

Definition sm_watchdog_init (w : wdt) : wdt := sm_wdt_settimeout SM_WDT_0 WDT0TIMEOUT (sm_wdt_set_rpl SM_WDT_0 PCLK_8 (sm_wdt_set_rspmode SM_WDT_0 true (set_mask (6, 4) w))).

(** ** The light *)

Definition mv_sm_process_internal_led_msg (m : imsg) (led : bool) : bool :=
  match m with
  | FromPower (FLOW_COLD_2_LOWPOWERSTANDBY | FLOW_ACTIVE_2_LOWPOWERSTANDBY | FLOW_ACTIVE_2_NORMALSTANDBY | FLOW_ACTIVE_2_SUSPEND) st => if decide (st = STA_LEAVEFLOW) then true else led
  | FromPower (FLOW_LOWPOWERSTANDBY_2_ACTIVE | FLOW_NORMALSTANDBY_2_ACTIVE | FLOW_SUSPEND_2_ACTIVE) st => if decide (st = STA_ENTERFLOW) then false else led
  | FromPower (FLOW_SYSRESET_2_LOWPOWERSTANDBY | FLOW_SYSRESET_2_NORMALSTANDBY | FLOW_SYSRESET_2_ACTIVE) st =>
      if decide (st = STA_POWEROFF) then true else if decide (st = STA_POWEROK) then false else led
  | FromPower _ _ => led
  | FromOther m1 => if m1 =? 0 then false else if m1 =? 1 then true else led
  end.

(** ** Wake-up over the network *)

Definition WOL_INT_MAGIC_PATTERN : Z := 0x03.
Definition WOL_INT_INVALID : Z := 0xFF.

Record wol := mk_wol { int_type : Z; IRQ_INTEN : Z; IRQ_INTMASK : Z }.

Definition mv_sm_wol_get_int_type (w : wol) : Z := int_type w.

Definition mv_sm_wol_mp_intenable (en : bool) (w : wol) : wol :=
  let bit := Z.shiftl 1 SMICTL_IRQ_SMI_MGP_INT_N in
  if en then mk_wol WOL_INT_MAGIC_PATTERN (Z.lor (IRQ_INTEN w) bit) (Z.land (IRQ_INTMASK w) (u32 (Z.lnot bit)))
  else mk_wol WOL_INT_INVALID (Z.land (IRQ_INTEN w) (u32 (Z.lnot bit))) (Z.lor (IRQ_INTMASK w) bit).

Definition mv_sm_wol_isr (now : Z) (w : wol) (p : power) : wol * power :=
  if standby (mv_sm_get_state p) && negb (mv_sm_wol_get_int_type w =? WOL_INT_INVALID) then
    let '(p', r) := mv_sm_power_enterflow_bysmstate now p in
    if r =? S_OK then (mv_sm_wol_mp_intenable false w, mv_sm_power_setwakeupsource MV_SM_WAKEUP_SOURCE_WOL p') else (w, p')
  else (w, p).

Definition sm_process_internal_wol_msg (m : imsg) (w : wol) : wol :=
  match m with
  | FromPower (FLOW_ACTIVE_2_LOWPOWERSTANDBY | FLOW_ACTIVE_2_NORMALSTANDBY | FLOW_ACTIVE_2_SUSPEND) st => if decide (st = STA_LEAVEFLOW) then mv_sm_wol_mp_intenable true w else w
  | _ => w
  end.

Definition sm_wol_init (w : wol) : wol := mk_wol WOL_INT_INVALID (IRQ_INTEN w) (IRQ_INTMASK w).

(** ** Wake-up over the serial line *)

(** The characters that have arrived; all are taken. *)
Definition UART_receive_wake_up_signal (rx : bytes) : bool := existsb (fun c => (c =? 87) || (c =? 119) || (c =? 32)) rx.

(** One round of the task; without standby the characters are left where they are. *)
Definition uart_wake_task (now : Z) (rx : bytes) (p : power) : power :=
  if standby (mv_sm_get_state p) then
    if UART_receive_wake_up_signal rx then
      let '(p', r) := mv_sm_power_enterflow_bysmstate now p in
      if r =? S_OK then mv_sm_power_setwakeupsource MV_SM_WAKEUP_SOURCE_WOL p' else p'
    else p
  else p.

(** ** Temperature *)

Definition TEMP_BIAS_L : Z := 80.
Definition TEMP_BIAS_H : Z := 120.
Definition TEMP_BIAS_DEFAULT : Z := 100.
Definition PVT_MAX_VAL : Z := 1024.

Record temperature := mk_temp { temp_bias : Z; last_raw_data : Z; raw_data : Z; last_calc_data : Z; calc_data : Z; last_calibrate_data : Z; calibrate_data : Z; temp_offset : Z; chip_ver : Z; chip_subver : Z }.

(** [pvt_read i] is the value of the reading [i], PVT_MAX_VAL when the sensor is not
    ready in time. *)
Fixpoint pvt_loop (n : nat) (i : nat) (pvt_read : nat -> Z) (sum : Z) : Z :=
  match n with O => sum / 4 | S n => if PVT_MAX_VAL <=? pvt_read i then 0 else pvt_loop n (S i) pvt_read (u32 (sum + pvt_read i)) end.

Definition pvt_read_samples (pvt_read : nat -> Z) : Z := pvt_loop 4 0 pvt_read 0.

(** An [int] or an overflow, which is undefined. *)
Definition int (v : Z) : option Z := if decide (is_i32 v) then Some v else None.

Definition value2degC (value : Z) : option Z :=
  let code := i32 value in
  r ← int (18439 * code);
  r ← int (80705 - Z.quot r 1000);
  r ← int (r * code);
  r ← int (185010 - Z.quot r 1000);
  r ← int (r * code);
  r ← int (328430 - Z.quot r 1000);
  r ← int (r * code);
  r ← int (Z.quot r 10000 - 4869);
  Some (Z.quot r 100).

Definition mv_sm_temp_sample (pvt_read : nat -> Z) (t : temperature) : option temperature :=
  let raw := i32 (pvt_read_samples pvt_read) in
  calc ← value2degC raw;
  Some (mk_temp (temp_bias t) (raw_data t) raw (calc_data t) calc (calibrate_data t) calc (temp_offset t) (chip_ver t) (chip_subver t)).

(** The state and the message that is sent. *)
Definition mv_sm_process_temp_msg (p0 p1 p2 p3 : Z) (t : temperature) : option (temperature * option (list Z)) :=
  if p0 =? MV_SM_TEMP_SAMPLE then Some (t, Some [temp_bias t; raw_data t; calc_data t; calibrate_data t])
  else if p0 =? MV_SM_TEMP_CPU_TYPE then
    let bias := if (p3 <? TEMP_BIAS_L) || (TEMP_BIAS_H <? p3) then TEMP_BIAS_DEFAULT else p3 in
    Some (mk_temp bias (last_raw_data t) (raw_data t) (last_calc_data t) (calc_data t) (last_calibrate_data t) (calibrate_data t) (temp_offset t) p1 p2, None)
  else if p0 =? MV_SM_SOC_TSEN_ID then
    off ← int (105 - p1);
    let off := if (15 <? off) || (off <? -15) then 0 else off in
    Some (mk_temp (temp_bias t) (last_raw_data t) (raw_data t) (last_calc_data t) (calc_data t) (last_calibrate_data t) (calibrate_data t) off (chip_ver t) (chip_subver t), None)
  else Some (t, None).

(** With OVER_HEAT_TEMPERATURE; the threshold belongs to the board. *)
Definition mv_sm_temp_task (OVERHEATHRESHOLD now : Z) (pvt_read : nat -> Z) (t : temperature) (p : power) : option (temperature * power) :=
  t ← mv_sm_temp_sample pvt_read t;
  Some (t, if OVERHEATHRESHOLD <? calibrate_data t
           then match mv_sm_get_state p with MV_SM_STATE_ACTIVE => fst (mv_sm_power_enterflow now FLOW_ACTIVE_2_LOWPOWERSTANDBY p) | _ => p end
           else p).

(** ** All of them *)

(** The modules that a user reaches: remote control, buttons and CEC. *)
Record inputs := mk_inputs { irm : ir_module; gpiobtn : Gpio.btn; adcbtn : Adc.adc; cecm : cec }.

Record modules := mk_modules { pw : power; wd : wdt; led : bool; wo : wol; tm : temperature; inp : inputs }.

Definition set_pw (p : power) (s : modules) : modules := mk_modules p (wd s) (led s) (wo s) (tm s) (inp s).
Definition set_wd (w : wdt) (s : modules) : modules := mk_modules (pw s) w (led s) (wo s) (tm s) (inp s).
Definition set_wo (w : wol) (s : modules) : modules := mk_modules (pw s) (wd s) (led s) w (tm s) (inp s).
Definition set_tm (t : temperature) (s : modules) : modules := mk_modules (pw s) (wd s) (led s) (wo s) t (inp s).
Definition set_inp (i : inputs) (s : modules) : modules := mk_modules (pw s) (wd s) (led s) (wo s) (tm s) i.
Definition set_irm (m : ir_module) (s : modules) : modules := set_inp (mk_inputs m (gpiobtn (inp s)) (adcbtn (inp s)) (cecm (inp s))) s.
Definition set_gpiobtn (b : Gpio.btn) (s : modules) : modules := set_inp (mk_inputs (irm (inp s)) b (adcbtn (inp s)) (cecm (inp s))) s.
Definition set_adcbtn (a : Adc.adc) (s : modules) : modules := set_inp (mk_inputs (irm (inp s)) (gpiobtn (inp s)) a (cecm (inp s))) s.
Definition set_cecm (c : cec) (s : modules) : modules := set_inp (mk_inputs (irm (inp s)) (gpiobtn (inp s)) (adcbtn (inp s)) c) s.

(** What belongs to the board: the threshold of the temperature, the clock register at
    each read, the kind of remote control and its keys, the level of the buttons, whether
    it is a television, the interrupts of CEC that are enabled at power on, and what is
    on the stack when CEC builds a message. *)
Record board := mk_board { OVERHEATHRESHOLD : Z; clock_reg : nat -> Z; IR_Flavor : Z; key_table : list ir_key_table_t; high_valid : bool; is_tv : bool; cec_intr : Z; cec_junk : CEC_MSG }.

(** The handlers of all modules; that of the remote control may send keys. *)
Definition internal (b : board) (now : Z) (m : imsg) (s : modules) : modules :=
  let s := mk_modules (pw s) (mv_sm_process_internal_wdt_msg m (wd s)) (mv_sm_process_internal_led_msg m (led s)) (sm_process_internal_wol_msg m (wo s)) (tm s) (inp s) in
  match m with
  | FromPower f st =>
      let '(i, p) := mv_sm_process_internal_ir_msg now f st (irm (inp s)) (pw s) in
      set_cecm (mv_sm_process_internal_cec_msg (cec_junk b) now f st (cecm (inp s))) (set_irm i (set_pw p s))
  | FromOther _ => s
  end.

(** What happens for each message of the power module; the interrupt of
    watchdog 1 is in PowerFlow. *)
Definition deliver (b : board) (s : modules) (x : Z * effect) : modules :=
  match snd x with
  | Broadcast f st => internal b (fst x) (FromPower f st) s
  | WdtClearInt => set_wd (sm_wdt_clearint SM_WDT_1 (wd s)) s
  | AppWdtDisable => set_wd (set_app false (wd s)) s
  | _ => s
  end.

(** The power module does [p'] and what it sends is delivered. *)
Definition with_power (b : board) (p' : power) (s : modules) : modules := foldl (deliver b) (set_pw p' s) (drop (length (out (pw s))) (out p')).

(** The remote control tells all modules which keys go down and up. *)
Definition deliver_keys (b : board) (now : Z) (l : list ir_effect) (s : modules) : modules :=
  foldl (fun s e => match e with KeyState is_down _ => internal b now (FromOther is_down) s | _ => s end) s l.

Inductive mev := Power (e : ev) | Internal (m1 : Z) | Wdt0Isr | Wdt2Isr | WdtRound | WdtMsg (iWDT iMsgContent : Z) | MagicPacket | UartRound (rx : bytes) | TempRound (pvt_read : nat -> Z) | TempMsg (p0 p1 p2 p3 : Z)
| IrIsr (fuel : nat) | IrRound | IrMsg (w0 w1 : Z) | GpioIsr | GpioRound | AdcRound (v0 v1 : Z) | CecIsr (reg dptr : Z) (rx : nat -> Z) | CecRound (line_status : Z) | CecMsg (data : bytes) (iLen : Z).

Definition ir_round (b : board) (now : Z) (s : modules) : option modules :=
  r ← mv_sm_ir_task (clock_reg b) (IR_Flavor b) (key_table b) now (irm (inp s)) (pw s);
  Some (with_power b (snd r) (deliver_keys b now (drop (length (ir_out (irm (inp s)))) (ir_out (fst r))) (set_irm (fst r) s))).

(** [None] when something undefined happens, such as the overflow of an [int], or the
    System Manager stays in a loop. *)
Definition mstep (b : board) (now : Z) (e : mev) (s : modules) : option modules :=
  match e with
  | Power e => Some (with_power b (step now e (pw s)) s)
  | Internal m1 => Some (internal b now (FromOther m1) s)
  | Wdt0Isr => let '(w, p) := mv_sm_wdt_0_isr now (wd s) (pw s) in Some (with_power b p (set_wd w s))
  | Wdt2Isr => Some (set_wd (mv_sm_wdt_2_isr (wd s)) s)
  | WdtRound => Some (set_wd (mv_sm_wdt_task (wd s)) s)
  | WdtMsg i c => match mv_sm_process_wdt_msg i c (wd s) with inl w => Some (set_wd w s) | inr _ => None end
  | MagicPacket => let '(w, p) := mv_sm_wol_isr now (wo s) (pw s) in Some (with_power b p (set_wo w s))
  | UartRound rx => Some (with_power b (uart_wake_task now rx (pw s)) s)
  | TempRound r => '(t, p) ← mv_sm_temp_task (OVERHEATHRESHOLD b) now r (tm s) (pw s); Some (with_power b p (set_tm t s))
  | TempMsg p0 p1 p2 p3 => '(t, _) ← mv_sm_process_temp_msg p0 p1 p2 p3 (tm s); Some (set_tm t s)
  | IrIsr fuel =>
      let m := irm (inp s) in
      '(i, c, n) ← mv_sm_ir_isr (clock_reg b) fuel (ir_reads m) (ir_isr m) (ir_buf m);
      Some (set_irm (mk_ir c (ir_dec m) i (ir_keys m) n (is_linuxready m) (bInputDisable m) (ir_out m)) s)
  | IrRound => ir_round b now s
  | IrMsg w0 w1 => let '(m, p) := mv_sm_process_ir_msg now w0 w1 (irm (inp s)) (pw s) in Some (with_power b p (set_irm m s))
  | GpioIsr => Some (set_gpiobtn (Gpio.sm_gpiobtn_isr now (gpiobtn (inp s))) s)
  | GpioRound => let '(g, p) := Gpio.sm_gpiobtn_task_entry now (gpiobtn (inp s)) (pw s) in Some (with_power b p (set_gpiobtn g s))
  | AdcRound v0 v1 => let '(a, p) := Adc.sm_adcbtn_task_entry (high_valid b) now v0 v1 (adcbtn (inp s)) (pw s) in Some (with_power b p (set_adcbtn a s))
  | CecIsr r dptr rx => c ← sm_cec_isr r dptr rx (cecm (inp s)); Some (set_cecm c s)
  | CecRound line => '(c, p) ← sm_cec_task (cec_junk b) now line (cecm (inp s)) (pw s); Some (with_power b p (set_cecm c s))
  | CecMsg data iLen => c ← sm_process_cec_msg (cec_junk b) data iLen (cecm (inp s)); Some (set_cecm c s)
  end.

Fixpoint mrun (b : board) (es : list (Z * mev)) (s : modules) : option modules :=
  match es with [] => Some s | (now, e) :: es => s ← mstep b now e s; mrun b es s end.

(** Power on; the task of the watchdogs enables the one of the System Manager. *)
Definition wdt_start : wdt := sm_wdt_enable SM_WDT_0 (sm_watchdog_init (mk_wdt (fun _ => 0) (fun _ => 0) (0, 0) [] [] false 0)).
Definition modules_init (b : board) : modules := mk_modules power_init wdt_start false (sm_wol_init (mk_wol 0 0 0)) (mk_temp 0 0 0 0 0 0 0 0 0 0)
  (mk_inputs (mk_ir (mk_cbuf (replicate 256 0) 0 0) pulse_init (mk_isr 0 0) keys_init 0 false false []) Gpio.btn_init Adc.adc_init (mv_sm_cec_init (is_tv b) (cec_intr b))).
