(* ===== verification/SmModulesSafety.v ===== *)
(** * The modules around the power flows: properties

    Over every sequence of events the power flows stay in order with the further
    callers, and in standby a magic packet wakes the system up; the temperature is what
    the polynomial of the sensor says; when the watchdog of the application is left
    running. *)

From S2P Require Import Prelude PowerFlow PowerSafety IrRecv IrKeys Buttons Cec SmModules.

(** ** Wake-up over the network *)

Definition armed (w : wol) : Prop := int_type w <> WOL_INT_INVALID.
Definition waking (p : power) : bool := match power_myflow p with FLOW_LOWPOWERSTANDBY_2_ACTIVE | FLOW_NORMALSTANDBY_2_ACTIVE | FLOW_SUSPEND_2_ACTIVE => true | _ => false end.
Definition down_flow (f : SM_POWER_FLOW) : bool := match f with FLOW_ACTIVE_2_LOWPOWERSTANDBY | FLOW_ACTIVE_2_NORMALSTANDBY | FLOW_ACTIVE_2_SUSPEND => true | _ => false end.

(** In standby and not on the way up. *)
Definition resting (p : power) : bool := standby (sys_state p) && negb (waking p).

Lemma other_sys now e p : e <> Task -> sys_state (step now e p) = sys_state p.
Proof. intros He. destruct e; [done|..]; pw_unfold; cbn; repeat case_match; cbn; first [reflexivity | assumption | congruence]. Qed.

(** Other calls than that of the task bring no system to rest. *)
Lemma quiet_rests p p' : quiet p p' -> sys_state p' = sys_state p -> resting p' = true -> resting p = true.
Proof. intros [_ _ Hf] Hs. unfold resting, waking. rewrite Hs. destruct Hf as [(-> & _)|(-> & _)]; [done|]. destruct (standby (sys_state p)); done. Qed.

Lemma task_rests now p : fits p = true -> down_flow (power_myflow p) && bool_decide (power_mystatus p = STA_LEAVEFLOW) = false -> resting (mv_sm_power_task now p) = true -> resting p = true.
Proof.
  intros H. flow_cases p H; intros Hd; try discriminate Hd; clear Hd; pw_unfold; unfold resting, waking; cbn; try done; repeat (case_match; simplify_eq; cbn; try done).
Qed.

(** The system comes to rest by leaving a flow that goes down, and says so. *)
Lemma rests now e p : fits p = true -> resting (step now e p) = true -> resting p = true \/ exists t f, down_flow f = true /\ out (step now e p) = out p ++ [(t, Broadcast f STA_LEAVEFLOW)].
Proof.
  intros H Hr. destruct (decide (e = Task)) as [->|He]; [|left; by apply (quiet_rests p (step now e p)); [apply other_quiet|apply other_sys|]].
  destruct (down_flow (power_myflow p) && bool_decide (power_mystatus p = STA_LEAVEFLOW)) eqn:Hd; [|left; by apply (task_rests now p)]. right. clear Hr. apply andb_prop in Hd as [Hd Hs]. apply bool_decide_eq_true in Hs.
  exists now, (power_myflow p). split; [done|]. cbn [step]. unfold mv_sm_power_task, mv_sm_power_flow_warmdown. destruct (power_myflow p) eqn:Hf; try discriminate Hd; rewrite ?Hf, decide_False by (intros E; by apply E); rewrite Hs, ?Hf; cbn [fst]; unfold mv_sm_power_leaveflow, mv_sm_power_broadcast_power_state, emit; cbn; by rewrite Hf, Hs.
Qed.

(** ** What is delivered *)

(** The power module after its messages were delivered: keys may have been sent. *)
Definition told (p p' : power) : Prop := exists l, Forall (fun x => benign x.2) l /\ p' = set_out (out p ++ l) p.

Lemma told_refl p : told p p.
Proof. exists []. split; [constructor|]. rewrite app_nil_r. by destruct p. Qed.

Lemma told_trans p q r : told p q -> told q r -> told p r.
Proof. intros (l & Hl & ->) (k & Hk & ->). exists (l ++ k). split; [by apply list.Forall_app|]. cbn. by rewrite app_assoc. Qed.

Lemma told_send now e p q : benign e -> told p q -> told p (emit now e q).
Proof. intros He H. apply (told_trans p q); [done|]. exists [(now, e)]. split; [by repeat constructor|done]. Qed.

Lemma ir_internal_told now f st m p : told p (snd (mv_sm_process_internal_ir_msg now f st m p)).
Proof. unfold mv_sm_process_internal_ir_msg. destruct f; try apply told_refl. cbn [snd]. case_decide; [|apply told_refl]. unfold sm_send_power_key. case_match; [|apply told_refl]. by do 2 (apply told_send; [done|]); apply told_refl. Qed.

Lemma internal_told b now m s : told (pw s) (pw (internal b now m s)).
Proof. unfold internal. destruct m as [f st|m1]; [|apply told_refl]. cbn [inp pw]. pose proof (ir_internal_told now f st (irm (inp s)) (pw s)) as H. by destruct (mv_sm_process_internal_ir_msg _ _ _ _ _). Qed.

Lemma internal_wo b now m s : wo (internal b now m s) = sm_process_internal_wol_msg m (wo s).
Proof. unfold internal. destruct m as [f st|m1]; [|done]. by destruct (mv_sm_process_internal_ir_msg _ _ _ _ _). Qed.

Lemma deliver_told b s x : told (pw s) (pw (deliver b s x)).
Proof. unfold deliver. destruct (snd x); try apply told_refl. apply internal_told. Qed.

Lemma delivered_told b l : forall s, told (pw s) (pw (foldl (deliver b) s l)).
Proof. induction l as [|x l IH]; intros s; [apply told_refl|]. cbn [foldl]. eapply told_trans; [apply deliver_told|apply IH]. Qed.

Lemma with_power_told b p s : told p (pw (with_power b p s)).
Proof. unfold with_power. apply (delivered_told b _ (set_pw p s)). Qed.

Lemma deliver_armed b s x : armed (wo s) -> armed (wo (deliver b s x)).
Proof. unfold deliver. destruct (snd x) as [f st| | | | | | | | | | | |]; try done. rewrite internal_wo. unfold sm_process_internal_wol_msg. by destruct f; try done; case_decide. Qed.

Lemma delivered_armed b l : forall s, armed (wo s) -> armed (wo (foldl (deliver b) s l)).
Proof. induction l as [|x l IH]; intros s H; [done|]. cbn [foldl]. by apply IH, deliver_armed. Qed.

Lemma with_power_armed b p s : armed (wo s) -> armed (wo (with_power b p s)).
Proof. intros H. unfold with_power. by apply delivered_armed. Qed.

Lemma keys_kept b now l : forall s, pw (deliver_keys b now l s) = pw s /\ wo (deliver_keys b now l s) = wo s.
Proof. unfold deliver_keys. induction l as [|x l IH]; intros s; [done|]. cbn [foldl]. destruct x; [|apply IH..]. destruct (IH (internal b now (FromOther is_down) s)) as [-> ->]. done. Qed.

(** ** What a caller may do to the power module *)

Lemma quiet_sequenced p p' : quiet p p' -> sequenced p -> sequenced p'.
Proof.
  intros [(l & Ho & Hl) _ Hf] (q & Hw & Hp). exists q. rewrite Ho, watch_benign by done. split; [done|]. unfold powered in *. destruct Hf as [(_ & -> & ->)|(_ & _ & ->)]; [done|discriminate].
Qed.

(** Flow, status and state keep fitting, power and reset stay in sequence, and a system
    that is at rest was so before. *)
Definition harmless (p p' : power) : Prop := fits p = true -> sequenced p -> fits p' = true /\ sequenced p' /\ (resting p' = true -> resting p = true).

Lemma harmless_refl p : harmless p p.
Proof. done. Qed.

Lemma harmless_trans p q r : harmless p q -> harmless q r -> harmless p r.
Proof. intros A B Hf Hs. destruct (A Hf Hs) as (Hf' & Hs' & Hr). destruct (B Hf' Hs') as (? & ? & ?). auto. Qed.

Lemma told_harmless p p' : told p p' -> harmless p p'.
Proof. intros (l & Hl & ->) Hf Hs. split; [done|]. split; [|done]. apply (quiet_sequenced p); [|done]. constructor; [by exists l|by left|by left]. Qed.

Lemma harmless_source v p : harmless p (mv_sm_power_setwakeupsource v p).
Proof. intros Hf Hs. split; [done|]. split; [|done]. apply (quiet_sequenced p); [|done]. by apply quiet_same; auto. Qed.

Lemma harmless_payload v p : harmless p (mv_sm_power_setwakeuppayload v p).
Proof. intros Hf Hs. split; [done|]. split; [|done]. apply (quiet_sequenced p); [|done]. by apply quiet_same; auto. Qed.

Lemma harmless_send now e p : benign e -> harmless p (emit now e p).
Proof. intros He. by apply told_harmless, told_send; [|apply told_refl]. Qed.

(** In standby a caller may start to wake the system up. *)
Lemma wake_call now p : fits p = true -> standby (sys_state p) = true ->
  fits (fst (mv_sm_power_enterflow_bysmstate now p)) = true /\ quiet p (fst (mv_sm_power_enterflow_bysmstate now p)) /\
  (fst (mv_sm_power_enterflow_bysmstate now p) = p \/ waking (fst (mv_sm_power_enterflow_bysmstate now p)) = true).
Proof.
  intros H Hs. split; [|split].
  - flow_cases p H; try discriminate Hs; pw_unfold; cbn; pw_split; reflexivity.
  - apply quiet_enterflow; [apply quiet_same; auto|done|done].
  - unfold mv_sm_power_enterflow_bysmstate, mv_sm_power_enterflow, mv_sm_get_state. case_decide; [by left|]. right. by destruct (sys_state p).
Qed.

Lemma harmless_wake now p : standby (sys_state p) = true -> harmless p (fst (mv_sm_power_enterflow_bysmstate now p)).
Proof.
  intros Hst Hf Hs. destruct (wake_call now p Hf Hst) as (F & Q & W). split; [done|]. split; [by apply (quiet_sequenced p)|].
  destruct W as [->|W]; [done|]. unfold resting. rewrite W, andb_false_r. done.
Qed.

Create HintDb callers.
#[export] Hint Resolve harmless_refl harmless_source harmless_payload harmless_send harmless_wake : callers.
#[export] Hint Extern 1 (benign _) => exact I : callers.

Lemma source_wake now v p : standby (sys_state p) = true -> harmless p (fst (mv_sm_power_enterflow_bysmstate now (mv_sm_power_setwakeupsource v p))).
Proof. intros H. apply (harmless_trans _ (mv_sm_power_setwakeupsource v p)); auto with callers. Qed.

Lemma wake_source now v p : standby (sys_state p) = true -> harmless p (mv_sm_power_setwakeupsource v (fst (mv_sm_power_enterflow_bysmstate now p))).
Proof. intros H. apply (harmless_trans _ (fst (mv_sm_power_enterflow_bysmstate now p))); auto with callers. Qed.

#[export] Hint Resolve source_wake wake_source : callers.

Lemma send_key_harmless now k p : harmless p (send_key now k p).
Proof. unfold send_key. apply told_harmless. by do 2 (apply told_send; [done|]); apply told_refl. Qed.

#[export] Hint Resolve send_key_harmless : callers.

(** ** The callers *)

Lemma uart_harmless now rx p : harmless p (uart_wake_task now rx p).
Proof.
  unfold uart_wake_task, mv_sm_get_state. destruct (standby (sys_state p)) eqn:Hst; [|apply harmless_refl]. destruct (UART_receive_wake_up_signal rx); [|apply harmless_refl].
  pose proof (harmless_wake now p Hst) as H1. pose proof (wake_source now MV_SM_WAKEUP_SOURCE_WOL p Hst) as H2. destruct (mv_sm_power_enterflow_bysmstate now p) as [p' r]. by destruct (r =? S_OK).
Qed.

Lemma heat_harmless now p : sys_state p = MV_SM_STATE_ACTIVE -> harmless p (fst (mv_sm_power_enterflow now FLOW_ACTIVE_2_LOWPOWERSTANDBY p)).
Proof.
  intros Hact Hf Hs. set (p' := fst _). assert (Hq : quiet p p') by (apply quiet_enterflow; [apply quiet_same; auto|done|done]). assert (Hsys : sys_state p' = sys_state p) by (unfold p', mv_sm_power_enterflow; by case_decide).
  split; [|split; [by apply (quiet_sequenced p)|intros Hr; unfold resting in Hr; rewrite Hsys, Hact in Hr; done]].
  unfold p'. clear p' Hq Hsys. destruct p as [st fl lt gr lr sb sp ra ws p0 p1 rq fb wk sys bf ue ub ui ut de db di dt o]. unfold fits in *. cbn [power_myflow power_mystatus sys_state] in *. subst sys. unfold mv_sm_power_enterflow. cbn [power_myflow power_mystatus]. case_decide as Hd; [done|]. reflexivity.
Qed.

Lemma key_harmless now id key m p : harmless p (mv_sm_process_key now id key m p).
Proof.
  unfold mv_sm_process_key, mv_sm_get_state. destruct (sys_state p) eqn:E; try apply harmless_refl; [repeat case_match; auto with callers|..].
  all: case_match; [|apply harmless_refl]; apply (harmless_trans _ (mv_sm_power_setwakeupsource MV_SM_WAKEUP_SOURCE_IR p)); [auto with callers|]; eapply harmless_trans; [apply harmless_payload|]; apply harmless_wake; cbn; by rewrite E.
Qed.

Lemma ir_task_harmless reg fl tb now m p m' p' : mv_sm_ir_task reg fl tb now m p = Some (m', p') -> harmless p p'.
Proof.
  unfold mv_sm_ir_task, deliver_key. destruct (ir_preprocess_key _ _ _ _) as [[key m1]|]; [|done]. cbn [mbind option_bind]. intros H. injection H as H. destruct (negb (key =? _)); injection H as <- <-; [apply key_harmless|apply harmless_refl].
Qed.

Lemma ir_msg_harmless now w0 w1 m p : harmless p (snd (mv_sm_process_ir_msg now w0 w1 m p)).
Proof. unfold mv_sm_process_ir_msg. repeat case_match; cbn [snd]; auto with callers. Qed.

Lemma gpio_press_harmless now dur g p : harmless p (snd (Gpio.handle_gpiobtn_press now dur g p)).
Proof.
  unfold Gpio.handle_gpiobtn_press, handle_gpiobtn_wakeup, mv_sm_get_state. cbn [snd]. destruct (standby (sys_state p)) eqn:E; [auto with callers|]. repeat case_match; auto with callers.
Qed.

Lemma gpio_harmless now g p : harmless p (snd (Gpio.sm_gpiobtn_task_entry now g p)).
Proof.
  unfold Gpio.sm_gpiobtn_task_entry. destruct (negb _); [apply gpio_press_harmless|]. destruct (negb _); [|apply harmless_refl]. destruct (_ <? _); [|apply harmless_refl].
  pose proof (gpio_press_harmless now (u32 (i32 (i32 now - Gpio.press_time g))) (Gpio.mk_btn (Gpio.press_time g) (Gpio.long_press_time g) true) p) as H. by destruct (Gpio.handle_gpiobtn_press _ _ _ _).
Qed.

Lemma adc_press_harmless now i v d p : harmless p (snd (Adc.handle_cbtn_press now i v d p)).
Proof. unfold Adc.handle_cbtn_press, mv_sm_get_state. cbn [snd]. destruct (negb _); [|apply harmless_refl]. destruct (mv_sm_get_linux_state p); [auto with callers|]. destruct (_ =? _); [|apply harmless_refl]. destruct (standby (sys_state p)) eqn:E; auto with callers. Qed.

Lemma adc_input_harmless hv now i v k a p : harmless p (snd (Adc.input_step hv now i v k a p)).
Proof.
  unfold Adc.input_step. destruct (v <? 0); [apply harmless_refl|]. destruct (Adc.press_begin hv now v k a) as [[a1 k1]|]; [|apply harmless_refl]. destruct (Adc.press_end hv now v k1 a1) as [a2 k2].
  destruct (negb _); [|apply harmless_refl]. destruct (_ <? _); [|apply harmless_refl]. pose proof (adc_press_harmless now i k2 (u32 (Adc.last_time a2 - Adc.first_time a2)) p) as H. by destruct (Adc.handle_cbtn_press _ _ _ _ _).
Qed.

Lemma adc_harmless hv now v0 v1 a p : harmless p (snd (Adc.sm_adcbtn_task_entry hv now v0 v1 a p)).
Proof.
  unfold Adc.sm_adcbtn_task_entry. pose proof (adc_input_harmless hv (u32 now) Adc.ADC_INPUT0 v0 (Adc.adc_key a) (Adc.in0 a) p) as H0. destruct (Adc.input_step _ _ _ _ _ _ _) as [[a0 k0] p0]. cbn [snd] in H0.
  pose proof (adc_input_harmless hv (u32 now) Adc.ADC_INPUT1 v1 k0 (Adc.in1 a) p0) as H1. destruct (Adc.input_step _ _ _ _ _ _ _) as [[a1 k1] p1]. cbn [snd] in *. by eapply harmless_trans.
Qed.

Section Cec.
Variable junk : CEC_MSG.

Lemma wake_if_harmless now m c p : harmless p (snd (wake_if now m c p)).
Proof. unfold wake_if, mv_sm_get_state. destruct (standby (sys_state p)) eqn:E; cbn [snd wake]; auto with callers. Qed.

Lemma wake_with_harmless now l m c p : harmless p (snd (wake_with now l m c p)).
Proof. unfold wake_with, mv_sm_get_state. destruct (standby (sys_state p)) eqn:E; cbn [snd wake]; auto with callers. Qed.

Hint Resolve wake_if_harmless wake_with_harmless : callers.

Lemma rx_box_harmless now m c p : harmless p (snd (fst (rx_box junk now m c p))).
Proof.
  unfold rx_box. repeat match goal with |- context [if (opcode m =? ?a) then _ else _] => destruct (opcode m =? a) end; cbn [fst snd]; auto with callers.
  - destruct (negb _); cbn [fst snd]; auto with callers.
  - destruct (_ =? _); cbn [fst snd]; auto with callers.
  - unfold mv_sm_get_state. destruct (standby (sys_state p)) eqn:E; cbn [fst snd]; auto with callers.
  - destruct (_ || _); cbn [fst snd]; auto with callers.
  - destruct (_ =? _); cbn [fst snd]; auto with callers.
  - destruct (_ =? _); cbn [fst snd]; auto with callers.
  - destruct (_ =? _); [destruct (_ && _)|case_match]; cbn [fst snd]; auto with callers.
Qed.

Lemma rx_tv_harmless now m c p : harmless p (snd (fst (rx_tv junk now m c p))).
Proof.
  unfold rx_tv. repeat match goal with |- context [if ?x then _ else _] => destruct x end; cbn [fst snd]; auto with callers.
Qed.

Lemma cec_rx_harmless now d c p c' p' : mv_sm_cec_srv_rx_msg junk now d c p = Some (c', p') -> harmless p p'.
Proof.
  unfold mv_sm_cec_srv_rx_msg, MV_SM_CEC_SRV_RX_MSG_TV, MV_SM_CEC_SRV_RX_MSG_BOX. intros H. destruct (host_tv c).
  - destruct (_ =? 0); [injection H as <- <-; apply harmless_refl|]. destruct (frm2msg _ _) as [[ret m]|]; [|done]. cbn [mbind option_bind] in H. destruct (_ && _); [injection H as <- <-; apply harmless_refl|].
    pose proof (rx_tv_harmless now m c p) as Hr. destruct (rx_tv _ _ _ _ _) as [[c1 p1] ab]. by injection H as <- <-.
  - destruct (frm2msg _ _) as [[ret m]|]; [|done]. cbn [mbind option_bind] in H. destruct (_ =? _); [injection H as <- <-; apply harmless_refl|]. destruct (_ =? 0); [injection H as <- <-; apply harmless_refl|].
    pose proof (rx_box_harmless now m c p) as Hr. destruct (rx_box _ _ _ _ _) as [[c1 p1] ab]. by injection H as <- <-.
Qed.

Lemma cec_harmless now line c p c' p' : sm_cec_task junk now line c p = Some (c', p') -> harmless p p'.
Proof.
  unfold sm_cec_task, task_listening, task_sending. intros H. destruct (bCECTaskExit c); [injection H as <- <-; apply harmless_refl|]. destruct (next_cmd c) as [[[d|] c1]|]; [| |done]; cbn [mbind option_bind] in H; [|injection H as <- <-; apply harmless_refl].
  destruct (taskstate c1); repeat match type of H with context [if (cmd d =? ?a) then _ else _] => destruct (cmd d =? a) end;
    first [by apply (cec_rx_harmless _ _ _ _ _ _ H) | injection H as <- <-; apply harmless_refl].
Qed.

End Cec.

(** ** The invariant *)

Record in_order (s : modules) : Prop := mk_order { io_fits : fits (pw s) = true; io_seq : sequenced (pw s); io_armed : resting (pw s) = true -> armed (wo s) }.

Lemma harmless_order b p' s : in_order s -> harmless (pw s) p' -> in_order (with_power b p' s).
Proof.
  intros [Hf Hs Ha] H. destruct (H Hf Hs) as (Hf' & Hs' & Hr). destruct (told_harmless _ _ (with_power_told b p' s) Hf' Hs') as (F & S & R).
  constructor; [done|done|]. intros Hrest. by apply with_power_armed, Ha, Hr, R.
Qed.

Lemma same_order s s' : in_order s -> pw s' = pw s -> wo s' = wo s -> in_order s'.
Proof. intros [A B C] Hp Hw. constructor; rewrite ?Hp, ?Hw; done. Qed.

Lemma power_order b now e s : in_order s -> in_order (with_power b (step now e (pw s)) s).
Proof.
  intros [Hf Hs Ha]. destruct (told_harmless _ _ (with_power_told b (step now e (pw s)) s) (fits_step now e _ Hf) (sequenced_step now e _ Hf Hs)) as (F & S & R). constructor; [done|done|]. intros Hr.
  destruct (rests now e (pw s) Hf (R Hr)) as [Hold|(t & f & Hdown & Hout)]; [by apply with_power_armed, Ha|].
  unfold with_power. rewrite Hout, drop_app_length. cbn [foldl]. unfold deliver. cbn [snd fst]. rewrite internal_wo. unfold sm_process_internal_wol_msg. destruct f; try discriminate Hdown; by rewrite decide_True.
Qed.

(** The interrupt of the magic packet is disabled only together with the wake-up. *)
Lemma wol_order b now s : in_order s -> in_order (let '(w, p) := mv_sm_wol_isr now (wo s) (pw s) in with_power b p (set_wo w s)).
Proof.
  intros Ho. destruct Ho as [Hf Hs Ha] eqn:E0. clear E0. unfold mv_sm_wol_isr, mv_sm_get_state. destruct (standby (sys_state (pw s)) && _) eqn:Hc; [|by apply harmless_order; [|apply harmless_refl]].
  apply andb_prop in Hc as [Hst _]. destruct (wake_call now (pw s) Hf Hst) as (F & Q & W). destruct (wake_source now MV_SM_WAKEUP_SOURCE_WOL (pw s) Hst Hf Hs) as (F2 & S2 & _). pose proof (harmless_wake now (pw s) Hst) as Hw.
  destruct (mv_sm_power_enterflow_bysmstate now (pw s)) as [p' r] eqn:E. cbn [fst] in *. destruct (Z.eqb_spec r S_OK) as [->|Hr]; [|by apply harmless_order].
  destruct (told_harmless _ _ (with_power_told b (mv_sm_power_setwakeupsource MV_SM_WAKEUP_SOURCE_WOL p') (set_wo (mv_sm_wol_mp_intenable false (wo s)) s)) F2 S2) as (F3 & S3 & R3). constructor; [done|done|]. intros Hrest. exfalso. apply R3 in Hrest. destruct W as [->|W].
  - unfold mv_sm_power_enterflow_bysmstate, mv_sm_power_enterflow in E. case_decide as Hd; [by injection E|]. injection E as E. apply (f_equal power_mystatus) in E. cbn in E. destruct Hd. right. rewrite <- E. done.
  - unfold resting in Hrest. change (waking (mv_sm_power_setwakeupsource MV_SM_WAKEUP_SOURCE_WOL p')) with (waking p') in Hrest. rewrite W, andb_false_r in Hrest. done.
Qed.

Lemma temp_order b now r s t p : mv_sm_temp_task (OVERHEATHRESHOLD b) now r (tm s) (pw s) = Some (t, p) -> in_order s -> in_order (with_power b p (set_tm t s)).
Proof.
  intros H Ho. unfold mv_sm_temp_task in H. destruct (mv_sm_temp_sample r (tm s)) as [t1|]; [|done]. cbn [mbind option_bind] in H. injection H as <- <-. apply harmless_order; [by apply (same_order s)|]. cbn [pw set_tm].
  destruct (_ <? _); [|apply harmless_refl]. unfold mv_sm_get_state. destruct (sys_state (pw s)) eqn:E; try apply harmless_refl. by apply heat_harmless.
Qed.

Lemma wdt_harmless now w p : harmless p (snd (mv_sm_wdt_0_isr now w p)).
Proof. unfold mv_sm_wdt_0_isr. cbn [snd]. unfold sm_set_reboot_reason. case_match; auto with callers. Qed.

#[local] Opaque mv_sm_ir_task.

Lemma ir_order b now s s' : ir_round b now s = Some s' -> in_order s -> in_order s'.
Proof.
  intros H Ho. apply bind_Some in H as (r & E & H). injection H as <-. destruct (keys_kept b now (drop (length (ir_out (irm (inp s)))) (ir_out (fst r))) (set_irm (fst r) s)) as [Hp Hw]. apply harmless_order; [by apply (same_order s)|].
  rewrite Hp. destruct r as [m p]. exact (ir_task_harmless _ _ _ _ _ _ _ _ E).
Qed.

Ltac by_caller H := apply harmless_order; [eapply same_order; [eassumption|done|done]|exact H].

Lemma mstep_order b now e s s' : mstep b now e s = Some s' -> in_order s -> in_order s'.
Proof.
  intros H Ho. destruct e; cbn [mstep] in H.
  - injection H as <-. by apply power_order.
  - injection H as <-. by apply (same_order s).
  - pose proof (wdt_harmless now (wd s) (pw s)) as Hw. destruct (mv_sm_wdt_0_isr _ _ _) as [w p]. injection H as <-. by_caller Hw.
  - injection H as <-. by apply (same_order s).
  - injection H as <-. by apply (same_order s).
  - destruct (mv_sm_process_wdt_msg _ _ _); [|done]. injection H as <-. by apply (same_order s).
  - pose proof (wol_order b now s Ho) as Hw. destruct (mv_sm_wol_isr now (wo s) (pw s)) as [w p]. by injection H as <-.
  - injection H as <-. by_caller (uart_harmless now rx (pw s)).
  - destruct (mv_sm_temp_task _ _ _ _ _) as [[t p]|] eqn:E; [|done]. injection H as <-. by apply (temp_order _ _ _ _ _ _ E).
  - destruct (mv_sm_process_temp_msg _ _ _ _ _) as [[t o]|]; [|done]. injection H as <-. by apply (same_order s).
  - destruct (mv_sm_ir_isr _ _ _ _ _) as [[[i c] n]|]; [|done]. injection H as <-. by apply (same_order s).
  - exact (ir_order b now s s' H Ho).
  - pose proof (ir_msg_harmless now w0 w1 (irm (inp s)) (pw s)) as Hi. destruct (mv_sm_process_ir_msg _ _ _ _ _) as [m p]. injection H as <-. by_caller Hi.
  - injection H as <-. by apply (same_order s).
  - pose proof (gpio_harmless now (gpiobtn (inp s)) (pw s)) as Hg. destruct (Gpio.sm_gpiobtn_task_entry _ _ _) as [g p]. injection H as <-. by_caller Hg.
  - pose proof (adc_harmless (high_valid b) now v0 v1 (adcbtn (inp s)) (pw s)) as Ha. destruct (Adc.sm_adcbtn_task_entry _ _ _ _ _ _) as [a p]. injection H as <-. by_caller Ha.
  - destruct (sm_cec_isr _ _ _ _) as [c|]; [|done]. injection H as <-. by apply (same_order s).
  - destruct (sm_cec_task _ _ _ _ _) as [[c p]|] eqn:E; [|done]. injection H as <-. by_caller (cec_harmless _ _ _ _ _ _ _ E).
  - destruct (sm_process_cec_msg _ _ _ _) as [c|]; [|done]. injection H as <-. by apply (same_order s).
Qed.

Lemma mrun_order b es : forall s s', mrun b es s = Some s' -> in_order s -> in_order s'.
Proof.
  induction es as [|[now e] es IH]; intros s s' H Ho; cbn [mrun] in H; [by injection H as <-|]. destruct (mstep b now e s) as [s1|] eqn:E; [|done]. cbn [mbind option_bind] in H. apply (IH s1 s' H). by eapply mstep_order.
Qed.

Lemma init_order b : in_order (modules_init b).
Proof. constructor; [done| |done]. exists None. split; [done|]. unfold powered. discriminate. Qed.


(** ** The temperature *)

(** The polynomial of the sensor, in units of 10^-15 degrees. *)
Definition sensor_poly (x : Z) : Z := -18439 * x ^ 4 + 80705000 * x ^ 3 - 185010000000 * x ^ 2 + 328430000000000 * x - 48690000000000000.

Definition code_ok (x : Z) : bool :=
  match value2degC x, value2degC (x - 1) with
  | Some d, Some d' => (Z.abs (d * 10 ^ 15 - sensor_poly x) <? 10 ^ 15) && ((d' <=? d) || (x =? 0))
  | _, _ => false
  end.

Lemma codes_ok : forallb code_ok (map Z.of_nat (seq 0 1024)) = true.
Proof. vm_compute. reflexivity. Qed.

Lemma code_ok_at x : 0 <= x < 1024 -> code_ok x = true.
Proof. intros H. pose proof codes_ok as Hc. rewrite forallb_forall in Hc. apply Hc, in_map_iff. exists (Z.to_nat x). split; [lia|]. apply in_seq. lia. Qed.

Lemma degrees x : 0 <= x < 1024 -> exists d, value2degC x = Some d /\ Z.abs (d * 10 ^ 15 - sensor_poly x) < 10 ^ 15.
Proof. intros H. pose proof (code_ok_at x H) as Hc. unfold code_ok in Hc. destruct (value2degC x) as [d|]; [|done]. exists d. split; [done|]. destruct (value2degC (x - 1)); [|done]. apply andb_prop in Hc as [Hc _]. lia. Qed.

Lemma warmer_step n x : 0 <= x -> x + Z.of_nat n < 1024 -> forall d d', value2degC x = Some d -> value2degC (x + Z.of_nat n) = Some d' -> d <= d'.
Proof.
  intros H0. induction n as [|n IH]; intros H d d' Hd Hd'; [rewrite Z.add_0_r in Hd'; rewrite Hd in Hd'; injection Hd' as ->; lia|].
  destruct (degrees (x + Z.of_nat n) ltac:(lia)) as (e & He & _). specialize (IH ltac:(lia) d e Hd He). pose proof (code_ok_at (x + Z.of_nat (S n)) ltac:(lia)) as Hc. unfold code_ok in Hc.
  replace (x + Z.of_nat (S n) - 1) with (x + Z.of_nat n) in Hc by lia. rewrite Hd', He in Hc. apply andb_prop in Hc as [_ Hc]. apply orb_prop in Hc as [Hc|Hc]; [apply Z.leb_le in Hc|apply Z.eqb_eq in Hc]; lia.
Qed.

Definition reading_ok (pvt_read : nat -> Z) : bool := forallb (fun i => pvt_read i <? PVT_MAX_VAL) (seq 0 4).

Lemma samples_ok pvt_read : (forall i, 0 <= pvt_read i) ->
  pvt_read_samples pvt_read = (if reading_ok pvt_read then (pvt_read 0%nat + pvt_read 1%nat + pvt_read 2%nat + pvt_read 3%nat) / 4 else 0) /\ 0 <= pvt_read_samples pvt_read < 1024.
Proof.
  intros H. pose proof (H 0%nat). pose proof (H 1%nat). pose proof (H 2%nat). pose proof (H 3%nat). unfold pvt_read_samples, reading_ok, PVT_MAX_VAL. cbn [pvt_loop seq forallb]. unfold PVT_MAX_VAL.
  rewrite !(Z.ltb_antisym 1024). repeat (match goal with |- context [1024 <=? ?a] => destruct (Z.leb_spec 1024 a); cbn [negb andb]; [split; [done|lia]|] end).
  rewrite Z.add_0_l, (u32_id (pvt_read 0%nat)) by (unfold is_u32; lia). rewrite (u32_id (_ + pvt_read 1%nat)) by (unfold is_u32; lia). rewrite (u32_id (_ + pvt_read 2%nat)) by (unfold is_u32; lia). rewrite (u32_id (_ + pvt_read 3%nat)) by (unfold is_u32; lia).
  split; [done|]. split; [apply Z.div_pos; lia|apply Z.div_lt_upper_bound; lia].
Qed.

(** C39: A sample never overflows; the temperature is within a degree of the polynomial at
    the mean of the four readings, or at 0 if a reading fails, and it does not fall
    when the mean rises. *)
Theorem temperature_accurate pvt_read t : (forall i, 0 <= pvt_read i) -> exists t', mv_sm_temp_sample pvt_read t = Some t' /\
  raw_data t' = (if reading_ok pvt_read then (pvt_read 0%nat + pvt_read 1%nat + pvt_read 2%nat + pvt_read 3%nat) / 4 else 0) /\
  Z.abs (calc_data t' * 10 ^ 15 - sensor_poly (raw_data t')) < 10 ^ 15 /\ calibrate_data t' = calc_data t' /\
  (forall pvt_read2 t2 t2', (forall i, 0 <= pvt_read2 i) -> mv_sm_temp_sample pvt_read2 t2 = Some t2' -> raw_data t' <= raw_data t2' -> calc_data t' <= calc_data t2').
Proof.
  intros H. destruct (samples_ok pvt_read H) as [Es Hr]. unfold mv_sm_temp_sample. rewrite i32_id by (unfold is_i32; lia). destruct (degrees _ Hr) as (d & Ed & Hd). rewrite Ed. cbn [mbind option_bind]. eexists. split; [reflexivity|]. cbn [raw_data calc_data calibrate_data].
  split; [exact Es|]. split; [exact Hd|]. split; [done|]. intros r2 t2 t2' H2 E2 Hle. destruct (samples_ok r2 H2) as [_ Hr2]. rewrite i32_id in E2 by (unfold is_i32; lia). destruct (degrees _ Hr2) as (d2 & Ed2 & _). rewrite Ed2 in E2. cbn [mbind option_bind] in E2. injection E2 as <-. cbn [raw_data calc_data] in *.
  apply (warmer_step (Z.to_nat (pvt_read_samples r2 - pvt_read_samples pvt_read)) (pvt_read_samples pvt_read)); [lia|lia|done|]. replace (pvt_read_samples pvt_read + _) with (pvt_read_samples r2) by lia. done.
Qed.

(** ** The watchdogs *)

(** The application starts its watchdog and gives it back, and the system is suspended
    and woken up. *)
Definition exit_suspend_resume : list (Z * mev) :=
  [(10, WdtMsg 1 MV_SM_WD_APP_START); (20, WdtMsg 1 MV_SM_WD_APP_EXIT);
   (1000, Power (Msg true true 0 MV_SM_POWER_SUSPEND_REQUEST 0 MV_SM_POWER_SUSPEND_TYPE_PWROFF)); (1001, Power Task); (1010, Power (Msg true true 0 MV_SM_ACTIVE_2_SUSPEND_RESP 0 0));
   (1011, Power Task); (1012, Power Task); (1013, Power Task); (5000, MagicPacket); (5001, Power Task); (5002, Power Task); (5200, Power Task); (5600, Power Task); (5700, Power Task);
   (6000, Power (Msg true true 0 MV_SM_SUSPEND_2_ACTIVE_RESP 0 0)); (6001, Power Task); (6003, Power Task)].

(** After the wake-up the System Manager takes the watchdog for the application's again:
    it is running, and however often the task comes round it is not restarted. *)
Theorem resume_abandons_watchdog n b : exists s s', mrun b exit_suspend_resume (modules_init b) = Some s /\ sys_state (pw s) = MV_SM_STATE_ACTIVE /\ power_myflow (pw s) = FLOW_IDLE /\
  sm_wdt_getenstatus SM_WDT_1 (wd s) = true /\ mrun b (replicate n (7000, WdtRound)) s = Some s' /\ kicked (wd s') = replicate n SM_WDT_0 ++ kicked (wd s).
Proof.
  assert (H : exists s, mrun b exit_suspend_resume (modules_init b) = Some s /\ sys_state (pw s) = MV_SM_STATE_ACTIVE /\ power_myflow (pw s) = FLOW_IDLE /\ sm_wdt_getenstatus SM_WDT_1 (wd s) = true /\ is_appwdt_enable (wd s) = true) by (eexists; split; [vm_compute; reflexivity|]; vm_compute; auto).
  destruct H as (s & E & Hs & Hf & Hen & Happ). exists s.
  assert (Hr : forall n s, sm_wdt_getenstatus SM_WDT_1 (wd s) = true -> is_appwdt_enable (wd s) = true -> exists s', mrun b (replicate n (7000, WdtRound)) s = Some s' /\ kicked (wd s') = replicate n SM_WDT_0 ++ kicked (wd s)).
  { clear. induction n as [|n IH]; intros s He Ha; [by exists s|]. cbn [replicate mrun mstep mbind option_bind]. set (s1 := set_wd _ _).
    assert (E1 : mv_sm_wdt_task (wd s) = sm_wdt_restart SM_WDT_0 (wd s)) by (unfold mv_sm_wdt_task; change (sm_wdt_getenstatus SM_WDT_1 (sm_wdt_restart SM_WDT_0 (wd s))) with (sm_wdt_getenstatus SM_WDT_1 (wd s)); rewrite He; cbn [is_appwdt_enable sm_wdt_restart]; by rewrite Ha).
    destruct (IH s1) as (s' & E & K); [unfold s1; cbn [wd set_wd]; rewrite E1; exact He|unfold s1; cbn [wd set_wd]; rewrite E1; exact Ha|]. exists s'. split; [exact E|]. rewrite K. unfold s1. cbn [wd set_wd]. rewrite E1. cbn [kicked sm_wdt_restart]. symmetry. change (SM_WDT_0 :: kicked (wd s)) with ([SM_WDT_0] ++ kicked (wd s)). rewrite app_assoc. f_equal. rewrite <- replicate_cons_app. done. }
  destruct (Hr n s Hen Happ) as (s' & E' & K). exists s'. split_and!; assumption.
Qed.

(** ** Witnesses *)

Definition any_board : board := mk_board 110 (fun _ => 0) 3 vendor_ir_nec_table true false 0 zero_msg.
Definition into_standby : list (Z * mev) := [(1000, Power (Msg true true 0 MV_SM_POWER_STANDBY_REQUEST 0 0)); (1001, Power Task); (1002, Power Task); (1003, Power Task); (1500, WdtRound); (1600, AdcRound 0 0); (1700, CecRound 1); (1800, IrRound)].


Lemma temperature_accurate_witness : exists t', mv_sm_temp_sample (fun i => 500 + Z.of_nat i) (mk_temp 0 0 0 0 0 0 0 0 0 0) = Some t' /\ raw_data t' = 501 /\ calc_data t' = 78.
Proof.
  destruct (temperature_accurate (fun i => 500 + Z.of_nat i) (mk_temp 0 0 0 0 0 0 0 0 0 0)) as (t' & E & R & _); [intros i; lia|]. exists t'. split; [exact E|]. split; [exact R|]. vm_compute in E. injection E as <-. reflexivity.
Defined.
