(* ===== verification/PvComp.v ===== *)
(** * Voltage compensation
    (boot/common/driver/pv_comp: pv_compensation.c, pmic_select.c;
    boot/common/driver/i2c/i2c_pvd_*.c; boot/common/driver/pwm/fp6359.c)

    The boot stage reads the leakage of the chip from its fuses, looks the voltages of
    the two rails up and moves the regulators there step by step.  The I2C bus is a class
    of operations that may do anything; the registers of the PWM are memory.  What
    chip_voltage_info.h and the fuses give is a parameter. *)

From S2P Require Import Prelude.

(** ** The bus *)

(** Two bytes are a register and its new value; after one byte, a register, one byte is
    received. *)
Class I2cBus (B : Type) := {
  i2c_master_init : Z -> B -> B;
  i2c_master_write_and_read : Z -> Z -> bytes -> B -> Z * Z * B }.

(** What was written, in order. *)
Inductive write := I2cWrite (id addr reg v : Z) | PwmWrite (reg v : Z).

Record pst (B : Type) := mk_pst { dev : B; pwm : Z -> Z; log : list write }.
Arguments mk_pst {B}. Arguments dev {B}. Arguments pwm {B}. Arguments log {B}.

(** An [int] or an overflow, which is undefined. *)
Definition int (v : Z) : option Z := if decide (is_i32 v) then Some v else None.

Section Bus.
Context {B : Type} {bus : I2cBus B}.

Definition i2c_init (id : Z) (s : pst B) : pst B := mk_pst (i2c_master_init id (dev s)) (pwm s) (log s).

Definition i2c_read (id addr reg : Z) (s : pst B) : Z * Z * pst B :=
  let '(ret, v, d) := i2c_master_write_and_read id addr [u8 reg] (dev s) in (ret, u8 v, mk_pst d (pwm s) (log s)).

Definition i2c_write (id addr reg v : Z) (s : pst B) : Z * pst B :=
  let '(ret, _, d) := i2c_master_write_and_read id addr [u8 reg; u8 v] (dev s) in (ret, mk_pst d (pwm s) (log s ++ [I2cWrite id addr (u8 reg) (u8 v)])).

(** Write, read back and compare; [bad] is the result when they differ. *)
Definition checked_write (bad id addr reg v : Z) (s : pst B) : Z * pst B :=
  let '(ret, s) := i2c_write id addr reg v s in
  if negb (ret =? 0) then (ret, s)
  else
    let '(ret, data, s) := i2c_read id addr reg s in
    if negb (ret =? 0) then (ret, s) else if negb (u8 v =? data) then (bad, s) else (ret, s).

(** ** Stepping from one voltage to another: i2c_set_volt of every regulator *)

Fixpoint ramp (fuel : nat) (STEP : Z) (set_vol : Z -> pst B -> Z * pst B) (volt to : Z) (s : pst B) : option (Z * pst B) :=
  if volt =? to then Some (0, s)
  else
    match fuel with
    | O => None
    | S fuel =>
        volt' ← int (if to <? volt then volt - STEP else volt + STEP);
        let volt' := if to <? volt then (if volt' <? to then to else volt') else (if to <? volt' then to else volt') in
        let '(ret, s) := set_vol volt' s in
        if negb (ret =? 0) then Some (1, s) else ramp fuel STEP set_vol volt' to s
    end.

Definition i2c_set_volt (STEP : Z) (set_vol : Z -> pst B -> Z * pst B) (from to : Z) (s : pst B) : option (Z * pst B) :=
  ramp (Z.to_nat (Z.abs (to - from) / STEP + 1)) STEP set_vol from to s.

(** i2c_get_cpu_volt and i2c_get_core_volt *)
Definition or_zero (r : Z * pst B) : Z * pst B := let '(volt, s) := r in (if volt <? 0 then 0 else volt, s).

(** In sy8827n, hl7593, rt5739 and tps62868 the fast discharge is disabled first. *)
Definition disable_discharge (id addr reg mask : Z) (s : pst B) : Z * pst B :=
  let '(ret, read, s) := i2c_read id addr reg s in
  if negb (ret =? 0) then (ret, s) else i2c_write id addr reg (Z.land read mask) s.

(** The voltage from the register that was read. *)
Definition get_reg (id addr reg : Z) (data2volt : Z -> option Z) (s : pst B) : Z * pst B :=
  let '(ret, read, s) := i2c_read id addr reg s in
  match data2volt read with Some volt => if ret =? 0 then (volt, s) else (-1, s) | None => (-1, s) end.

(** ** SY8824B *)

Definition sy8824b_pmic_volt2data (volt : Z) : option Z := if (762500 <=? volt) && (volt <=? 1550000) then Some ((volt - 762500) / 12500) else None.
Definition sy8824b_pmic_data2volt (vdata : Z) : option Z := let data := Z.land vdata 0x3f in if data <=? 0x3f then Some (762500 + data * 12500) else None.

Definition sy8824b_set_vol (id addr volt : Z) (s : pst B) : Z * pst B :=
  let '(ret, data_reg0, s) := i2c_read id addr 0 (i2c_init id s) in
  if negb (ret =? 0) then (ret, s)
  else match sy8824b_pmic_volt2data volt with Some vdata => checked_write (-1) id addr 0 (Z.lor (Z.land data_reg0 0xc0) (u8 vdata)) s | None => (-1, s) end.

Definition sy8824b_get_vol (id addr : Z) (s : pst B) : Z * pst B := get_reg id addr 0 sy8824b_pmic_data2volt (i2c_init id s).

(** ** SY8827N *)

Definition sy8827n_pmic_volt2data (volt : Z) : option Z := if (600000 <=? volt) && (volt <=? 1387500) then Some ((volt - 600000) / 12500) else None.
Definition sy8827n_pmic_data2volt (vdata : Z) : option Z := let data := Z.land vdata 0x3f in if data <=? 0x3f then Some (600000 + data * 12500) else None.

Definition sy8827n_set_vol (id addr volt : Z) (s : pst B) : Z * pst B :=
  let '(ret, data_reg0, s) := i2c_read id addr 0 (i2c_init id s) in
  if negb (ret =? 0) then (ret, s)
  else match sy8827n_pmic_volt2data volt with Some vdata => checked_write (-1) id addr 0 (Z.lor (Z.land data_reg0 0xc0) (u8 vdata)) s | None => (-1, s) end.

Definition sy8827n_get_vol (id addr : Z) (s : pst B) : Z * pst B :=
  let '(ret, s) := disable_discharge id addr 2 0x7f (i2c_init id s) in
  if negb (ret =? 0) then (ret, s) else get_reg id addr 0 sy8827n_pmic_data2volt s.

(** ** NCP6335D *)

Definition ncp6335d_pmic_volt2data (volt : Z) : option Z := if (600000 <=? volt) && (volt <=? 1375000) then Some (Z.land (u8 ((volt - 600000) / 25000 * 4)) 0x7f) else None.
Definition ncp6335d_pmic_data2volt (vdata : Z) : Z := vdata / 4 * 25000 + 600000.

Definition ncp6335d_set_vol (id volt_sel vol : Z) (s : pst B) : Z * pst B :=
  if volt_sel =? 0 then
    match ncp6335d_pmic_volt2data vol with Some data => checked_write (-1) id 0x1c 0x11 (Z.lor 0x80 data) (i2c_init id s) | None => (-1, s) end
  else (0, s).

Definition ncp6335d_get_vol (id volt_sel : Z) (s : pst B) : Z * pst B :=
  if volt_sel =? 0 then
    let '(ret, read, s) := i2c_read id 0x1c 0x11 (i2c_init id s) in
    if negb (ret =? 0) then (i32 (- ret), s) else (ncp6335d_pmic_data2volt (Z.land read 0x7f), s)
  else (-1, s).

(** ** HL7593 *)

Definition hl7593_pmic_volt2data (volt : Z) : option Z := if (600000 <=? volt) && (volt <=? 1394000) then Some ((volt - 600000) / 6250) else None.
Definition hl7593_pmic_data2volt (vdata : Z) : option Z := let data := Z.land vdata 0x3f in if data <=? 0x3f then Some (600000 + data * 6250) else None.

Definition hl7593_set_vol (id addr volt : Z) (s : pst B) : Z * pst B :=
  match hl7593_pmic_volt2data volt with Some vdata => checked_write (-1) id addr 1 (0x80 + vdata) (i2c_init id s) | None => (-1, s) end.

Definition hl7593_get_vol (id addr : Z) (s : pst B) : Z * pst B :=
  let '(ret, s) := disable_discharge id addr 2 0x7f (i2c_init id s) in
  if negb (ret =? 0) then (ret, s) else get_reg id addr 1 (fun read => hl7593_pmic_data2volt (read - 0x80)) s.

(** ** RT5739 *)

Definition rt5739_pmic_volt2data (volt : Z) : option Z := if (300000 <=? volt) && (volt <=? 1300000) then Some ((volt - 300000) / 5000) else None.
Definition rt5739_pmic_data2volt (vdata : Z) : option Z := if u32 vdata <=? (1300000 - 300000) / 5000 then Some (300000 + u32 vdata * 5000) else None.

Definition rt5739_set_vol (id addr volt : Z) (s : pst B) : Z * pst B :=
  match rt5739_pmic_volt2data volt with Some vdata => checked_write (-1) id addr 1 vdata (i2c_init id s) | None => (-1, s) end.

Definition rt5739_get_vol (id addr : Z) (s : pst B) : Z * pst B :=
  let '(ret, s) := disable_discharge id addr 2 0x7f (i2c_init id s) in
  if negb (ret =? 0) then (ret, s) else get_reg id addr 1 rt5739_pmic_data2volt s.

(** ** TPS62868 *)

Definition tps62868_pmic_volt2data (volt : Z) : option Z := if (400000 <=? volt) && (volt <=? 1675000) then Some ((volt - 400000) / 5000) else None.
Definition tps62868_pmic_data2volt (vdata : Z) : option Z := Some (400000 + vdata * 5000).

Definition tps62868_set_vol (id addr volt : Z) (s : pst B) : Z * pst B :=
  let '(ret, _, s) := i2c_read id addr 1 (i2c_init id s) in
  if negb (ret =? 0) then (ret, s)
  else match tps62868_pmic_volt2data volt with Some vdata => checked_write (-1) id addr 1 vdata s | None => (-1, s) end.

Definition tps62868_get_vol (id addr : Z) (s : pst B) : Z * pst B :=
  let '(ret, s) := disable_discharge id addr 3 0xf7 (i2c_init id s) in
  if negb (ret =? 0) then (ret, s) else get_reg id addr 1 tps62868_pmic_data2volt s.

(** ** M88PG86X *)

Definition m88pg86x_pmic_volt2data (volt : Z) : option Z :=
  if (volt <? 900000) || (1600000 <? volt) then None
  else if negb ((volt - 900000) mod 25000 =? 0) then Some ((volt - 900000) / 25000 + 1 + 0x7) else Some ((volt - 900000) / 25000 + 0x7).
Definition m88pg86x_pmic_data2volt (data : Z) : Z := 900000 + (data - 0x7) * 25000.

Definition m88pg86x_get_volt (id : Z) (s : pst B) : Z * pst B :=
  let '(ret, read, s) := i2c_read id 0x19 0x24 (i2c_init id s) in
  if negb (ret =? 0) then (i32 (- ret), s) else (m88pg86x_pmic_data2volt read, s).

Definition diag_i2c_volt_control (id volt_index : Z) (s : pst B) : Z * pst B := checked_write 1 id 0x19 0x24 (0x7 + volt_index) (i2c_init id s).

Definition m88pg86x_set_vol (id volt : Z) (s : pst B) : Z * pst B :=
  match m88pg86x_pmic_volt2data volt with Some volt_index => diag_i2c_volt_control id volt_index s | None => (1, s) end.

(** ** FP6359, by pulse width *)

Definition RA_PWM_pwmCh0En : Z := 0x0.
Definition RA_PWM_pwmCh0Ctrl : Z := 0x4.
Definition RA_PWM_pwmCh0Duty : Z := 0x8.
Definition RA_PWM_pwmCh0TCnt : Z := 0xc.
Definition MAX_PWM_CH : Z := 4.

Definition pwm_write (reg v : Z) (s : pst B) : pst B := mk_pst (dev s) (fun r => if r =? reg then v else pwm s r) (log s ++ [PwmWrite reg v]).

Definition dutyCyclePwmRead (ch : Z) (s : pst B) : Z := i32 (pwm s (RA_PWM_pwmCh0Duty + 0x10 * ch)).
Definition dutyCyclePwm (ch duty : Z) : pst B -> pst B := pwm_write (RA_PWM_pwmCh0Duty + 0x10 * ch) duty.
Definition enablePwm (ch en : Z) : pst B -> pst B := pwm_write (RA_PWM_pwmCh0En + 0x10 * ch) en.
Definition terminalCountPwm (ch tcnt : Z) : pst B -> pst B := pwm_write (RA_PWM_pwmCh0TCnt + 0x10 * ch) tcnt.
Definition preScalePwm (ch scale pol : Z) : pst B -> pst B := pwm_write (RA_PWM_pwmCh0Ctrl + 0x10 * ch) (Z.lor scale pol).

Definition fp6359_init (ch : Z) (s : pst B) : pst B := preScalePwm ch 0 0 (terminalCountPwm ch 0x3e8 (enablePwm ch 1 s)).

Definition fp6359_pmic_volt2data (volt : Z) : option Z := if (700000 <=? volt) && (volt <=? 1000000) then Some ((1000000 - volt) / 304) else None.
Definition fp6359_pmic_data2volt (vdata : Z) : option Z := if u32 vdata <=? 0x3e8 then Some (1000000 - u32 vdata * 304) else None.

Definition fp6359_set_vol (ch vol : Z) (s : pst B) : Z * pst B :=
  if MAX_PWM_CH <? ch then (-1, s)
  else let s := fp6359_init ch s in match fp6359_pmic_volt2data vol with Some data => (0, dutyCyclePwm ch data s) | None => (-1, s) end.

Definition fp6359_get_vol (ch : Z) (s : pst B) : Z * pst B :=
  if MAX_PWM_CH <? ch then (-1, s)
  else let s := fp6359_init ch s in match fp6359_pmic_data2volt (dutyCyclePwmRead ch s) with Some volt => (volt, s) | None => (-1, s) end.

(** ** MP886X: an MP8867 for the processors, an MP8869 for the core, in millivolts *)

Definition mp886x_data2vol (data : Z) : Z := u32 (data * 10 + 600).
Definition mp886x_vol2data (vol : Z) : Z := let vref := if (600 <=? vol) && (vol <=? 1000 + 50) then vol else 800 in (vref - 600) / 10.

Definition pmic_reg_wt (id addr reg val : Z) (s : pst B) : Z * pst B := i2c_write id addr reg val (i2c_init id s).
Definition pmic_reg_rd (id addr reg : Z) (s : pst B) : Z * Z * pst B := i2c_read id addr reg (i2c_init id s).

Definition mp886x_get_volt (id addr : Z) (s : pst B) : Z * pst B :=
  let '(ret, read, s) := pmic_reg_rd id addr 0 s in
  if negb (ret =? 0) then (i32 (- ret), s) else (if negb (Z.land read 0x80 =? 0) then 800 else mp886x_data2vol read, s).

(** The loop that waits for the bit GO; [None]: it is still set after [fuel] reads. *)
Fixpoint wait_go (fuel : nat) (id addr : Z) (s : pst B) : option (Z * pst B) :=
  match fuel with
  | O => None
  | S fuel => let '(ret, data, s) := pmic_reg_rd id addr 1 s in
      if negb (ret =? 0) then Some (i32 (- ret), s) else if negb (Z.land data 0x40 =? 0) then wait_go fuel id addr s else Some (ret, s)
  end.

Definition mp8869_change_vsel (fuel : nat) (id addr vsel : Z) (s : pst B) : option (Z * pst B) :=
  let '(ret, data, s) := pmic_reg_rd id addr 1 s in
  if negb (ret =? 0) then Some (i32 (- ret), s)
  else let '(ret, s) := pmic_reg_wt id addr 1 (Z.lor data 0x40) s in
    if negb (ret =? 0) then Some (i32 (- ret), s)
    else let '(ret, s) := pmic_reg_wt id addr 0 (Z.land vsel 0x7f) s in
      if negb (ret =? 0) then Some (i32 (- ret), s) else wait_go fuel id addr s.

Definition mp8867_change_vsel (fuel : nat) (id addr vsel : Z) (s : pst B) : option (Z * pst B) :=
  let '(ret, data, s) := pmic_reg_rd id addr 1 s in
  if negb (ret =? 0) then Some (i32 (- ret), s)
  else let '(ret, s) := pmic_reg_wt id addr 1 (Z.lor data 0x40) s in
    if negb (ret =? 0) then Some (i32 (- ret), s)
    else let '(ret, s) := pmic_reg_wt id addr 0 (Z.land vsel 0x7f) s in
      if negb (ret =? 0) then Some (i32 (- ret), s)
      else let '(ret, data, s) := pmic_reg_rd id addr 1 s in
        if negb (ret =? 0) then Some (i32 (- ret), s)
        else let '(ret, s) := pmic_reg_wt id addr 1 (Z.land data (u32 (Z.lnot 0x40))) s in
          if negb (ret =? 0) then Some (i32 (- ret), s) else wait_go fuel id addr s.

(** To the next ten millivolts. *)
Definition round10 (target : Z) : Z := if 5 <=? target mod 10 then target / 10 * 10 + 10 else target / 10 * 10.

(** mp8867_set_vol and mp8869_set_vol; the result of [change_vsel] is not looked at. *)
Fixpoint mp886x_loop (fuel : nat) (change_vsel : Z -> pst B -> option (Z * pst B)) (id addr target : Z) (s : pst B) : option (Z * pst B) :=
  match fuel with
  | O => None
  | S fuel =>
      let '(cur, s) := mp886x_get_volt id addr s in
      let next cur := '(_, s) ← change_vsel (mp886x_vol2data cur) s; mp886x_loop fuel change_vsel id addr target s in
      if (cur <? target) && (5 <? target - cur) then next (cur + 10) else if (target <? cur) && (5 <? cur - target) then next (cur - 10) else Some (0, s)
  end.

Definition mp8867_set_vol (rounds : nat) (id addr vol : Z) (s : pst B) : option (Z * pst B) := mp886x_loop rounds (mp8867_change_vsel rounds id addr) id addr (round10 (u32 vol / 1000)) s.
Definition mp8869_set_vol (rounds : nat) (id addr vol : Z) (s : pst B) : option (Z * pst B) := mp886x_loop rounds (mp8869_change_vsel rounds id addr) id addr (round10 (u32 vol / 1000)) s.

Definition mp8867_init (id addr : Z) (s : pst B) : Z * pst B :=
  let '(ret, data, s) := pmic_reg_rd id addr 1 s in
  if negb (ret =? 0) then (i32 (- ret), s) else let '(ret, s) := pmic_reg_wt id addr 1 (Z.lor data (Z.shiftl 3 1)) s in (if negb (ret =? 0) then i32 (- ret) else ret, s).
Definition mp8869_init (id addr : Z) (s : pst B) : Z * pst B :=
  let '(ret, data, s) := pmic_reg_rd id addr 2 s in
  if negb (ret =? 0) then (i32 (- ret), s) else let '(ret, s) := pmic_reg_wt id addr 2 (Z.lor data (Z.shiftl 3 4)) s in (if negb (ret =? 0) then i32 (- ret) else ret, s).

(** ** The operations that pv_comp uses *)

Record dvfs_ops := mk_ops {
  get_vcpu_volt : pst B -> Z * pst B; get_vcore_volt : pst B -> Z * pst B;
  set_vcpu_volt : Z -> Z -> pst B -> option (Z * pst B); set_vcore_volt : Z -> Z -> pst B -> option (Z * pst B);
  ops_init : option (pst B -> Z * pst B) }.

(** The ids of the buses and the channels of the two rails. *)
Context (VOUT_CPU_ID VOUT_CORE_ID VOUT_CPU_CH VOUT_CORE_CH : Z) (rounds : nat).

(** The ops of a regulator that is driven in the same way on both rails. *)
Definition ramp_ops (STEP : Z) (get_vol : Z -> pst B -> Z * pst B) (set_vol : Z -> Z -> pst B -> Z * pst B) (cpu core : Z) : dvfs_ops :=
  mk_ops (fun s => or_zero (get_vol cpu s)) (fun s => or_zero (get_vol core s)) (i2c_set_volt STEP (set_vol cpu)) (i2c_set_volt STEP (set_vol core)) None.

Definition m88pg86x_ops : dvfs_ops := ramp_ops 25000 m88pg86x_get_volt m88pg86x_set_vol VOUT_CPU_ID VOUT_CORE_ID.
Definition sy8824b_ops : dvfs_ops := ramp_ops 12500 (fun id => sy8824b_get_vol id 0x66) (fun id => sy8824b_set_vol id 0x66) VOUT_CPU_ID VOUT_CORE_ID.
Definition ncp6335d_ops : dvfs_ops := ramp_ops 25000 (fun id => ncp6335d_get_vol id 0) (fun id => ncp6335d_set_vol id 0) VOUT_CPU_ID VOUT_CORE_ID.
Definition sy8827n_ops : dvfs_ops := ramp_ops 12500 (fun id => sy8827n_get_vol id 0x60) (fun id => sy8827n_set_vol id 0x60) VOUT_CPU_ID VOUT_CORE_ID.
Definition hl7593_ops : dvfs_ops := ramp_ops 6250 (fun id => hl7593_get_vol id 0x61) (fun id => hl7593_set_vol id 0x61) VOUT_CPU_ID VOUT_CORE_ID.
Definition TPS62868_ops : dvfs_ops := ramp_ops 5000 (fun id => tps62868_get_vol id 0x49) (fun id => tps62868_set_vol id 0x49) VOUT_CPU_ID VOUT_CORE_ID.
Definition rt5739_ops : dvfs_ops := ramp_ops 5000 (fun id => rt5739_get_vol id 0x50) (fun id => rt5739_set_vol id 0x50) VOUT_CPU_ID VOUT_CORE_ID.
Definition fp6359_ops : dvfs_ops := ramp_ops 304 fp6359_get_vol fp6359_set_vol VOUT_CPU_CH VOUT_CORE_CH.

Definition mp886x_milli (r : Z * pst B) : Z * pst B := let '(volt, s) := r in (if volt <? 0 then 0 else i32 (volt * 1000), s).

Definition mp886x_ops : dvfs_ops :=
  mk_ops (fun s => mp886x_milli (mp886x_get_volt VOUT_CPU_ID 0x62 s)) (fun s => mp886x_milli (mp886x_get_volt VOUT_CORE_ID 0x60 s))
    (fun _ to => mp8867_set_vol rounds VOUT_CPU_ID 0x62 to) (fun _ to => mp8869_set_vol rounds VOUT_CORE_ID 0x60 to)
    (Some (fun s => let '(_, s) := mp8867_init VOUT_CPU_ID 0x62 s in mp8869_init VOUT_CORE_ID 0x60 s)).

Inductive PMIC_CHIP_SELECTION := M88PG86X | SY8824B | NCP6335D | MP886X | SY8827N | HL7593WL06 | TPS62868 | RT5739 | FP6359 | PMIC_UNKNOW.

Definition get_dvfs_ops (pmic_id : PMIC_CHIP_SELECTION) : option dvfs_ops :=
  match pmic_id with
  | M88PG86X => Some m88pg86x_ops | SY8824B => Some sy8824b_ops | NCP6335D => Some ncp6335d_ops | MP886X => Some mp886x_ops | SY8827N => Some sy8827n_ops
  | HL7593WL06 => Some hl7593_ops | TPS62868 => Some TPS62868_ops | RT5739 => Some rt5739_ops | FP6359 => Some fp6359_ops | PMIC_UNKNOW => None
  end.

(** ** The tables *)

(** The rows of a frequency, or NULL; a table ends with the frequency 0. *)
Definition leakage_tables : Type := list (Z * option (list (Z * Z))).

Fixpoint find_volt (p : list (Z * Z)) (leakage : Z) : option Z :=
  match p with [] => None | (info, volt) :: p => if leakage <=? info then Some volt else find_volt p leakage end.

Fixpoint find_dvfs_group (flt : leakage_tables) (pll leakage : Z) : option Z :=
  match flt with
  | [] => None
  | (freq, lt) :: flt => if freq =? 0 then Some (-1) else if pll <=? freq then match lt with Some p => find_volt p leakage | None => Some (-1) end else find_dvfs_group flt pll leakage
  end.

(** get_vcpu_volt_from_dvfs and get_vcore_volt_from_dvfs *)
Definition get_volt_from_dvfs (flt : option leakage_tables) (pll leakage : Z) : option Z := match flt with Some flt => find_dvfs_group flt pll leakage | None => Some (-1) end.

(** get_vcpu_vh_vl and get_vcore_vh_vl: what is stored into [opp] *)
Definition get_vh_vl (flt : option leakage_tables) (leakage : Z) : option (list Z) :=
  match flt with
  | None => Some []
  | Some [] => None
  | Some ((f1, _) :: rest) =>
      if f1 =? 0 then Some []
      else
        vl ← get_volt_from_dvfs flt f1 leakage;
        let opp := if 0 <? vl then [vl] else [] in
        match rest with
        | [] => None
        | (f2, _) :: _ => if f2 =? 0 then Some opp else vh ← get_volt_from_dvfs flt f2 leakage; Some (if 0 <? vh then opp ++ [vh] else opp)
        end
  end.

(** ** pv_comp *)

(** One rail; [false]: pv_comp returns. *)
Definition comp_rail (get : pst B -> Z * pst B) (set : Z -> Z -> pst B -> option (Z * pst B)) (init : option (pst B -> Z * pst B)) (flt : option leakage_tables) (pll leakage : Z) (s : pst B) : option (bool * pst B) :=
  let s := match init with Some f => snd (f s) | None => s end in
  final_volt ← get_volt_from_dvfs flt pll leakage;
  if final_volt =? -1 then Some (true, s)
  else
    let '(default_volt, s) := get s in
    if default_volt <? 0 then Some (false, s)
    else if default_volt =? final_volt then Some (true, s)
    else '(_, s) ← set default_volt final_volt s; Some (true, s).

Definition pv_comp (vcpu_pmic_id vcore_pmic_id : PMIC_CHIP_SELECTION) (leakage_info : Z) (vcpu_table vcore_table : option leakage_tables) (cpu_pll gpu_pll : Z) (s : pst B) : option (pst B) :=
  if leakage_info =? 0 then Some s
  else
    '(go, s) ← (match get_dvfs_ops vcpu_pmic_id with Some o => comp_rail (get_vcpu_volt o) (set_vcpu_volt o) (ops_init o) vcpu_table cpu_pll leakage_info s | None => Some (true, s) end);
    if (go : bool) then
      '(_, s) ← (match get_dvfs_ops vcore_pmic_id with Some o => comp_rail (get_vcore_volt o) (set_vcore_volt o) (ops_init o) vcore_table gpu_pll leakage_info s | None => Some (true, s) end);
      Some s
    else Some s.

End Bus.
