(* ===== verification/PvSafety.v ===== *)
(** * The regulators follow the tables

    For any bus: the voltages that a regulator is told lie between the one that was read
    and the one of the table, one step apart at most.  For a bus that keeps what is
    written: both rails end at the voltage of the table. *)

From S2P Require Import Prelude PvComp.

#[export] Instance pmic_dec : EqDecision PMIC_CHIP_SELECTION.
Proof. solve_decision. Defined.

(** ** What the registers of a regulator mean *)

(** The regulators that are moved step by step and whose encoding is sound. *)
Definition ramped (p : PMIC_CHIP_SELECTION) : bool := match p with M88PG86X | MP886X | PMIC_UNKNOW => false | _ => true end.

Definition caddr (p : PMIC_CHIP_SELECTION) : Z :=
  match p with SY8824B => 0x66 | NCP6335D => 0x1c | SY8827N => 0x60 | HL7593WL06 => 0x61 | TPS62868 => 0x49 | RT5739 => 0x50 | M88PG86X => 0x19 | _ => 0 end.
Definition cvreg (p : PMIC_CHIP_SELECTION) : Z :=
  match p with NCP6335D => 0x11 | HL7593WL06 | TPS62868 | RT5739 => 1 | M88PG86X => 0x24 | _ => 0 end.

(** The voltage of a register value. *)
Definition decode (p : PMIC_CHIP_SELECTION) (d : Z) : Z :=
  match p with
  | SY8824B => 762500 + Z.land d 0x3f * 12500
  | SY8827N => 600000 + Z.land d 0x3f * 12500
  | NCP6335D => 600000 + Z.land d 0x7f / 4 * 25000
  | HL7593WL06 => 600000 + Z.land d 0x7f * 6250
  | RT5739 => 300000 + d * 5000
  | TPS62868 => 400000 + d * 5000
  | FP6359 => 1000000 - d * 304
  | M88PG86X => 900000 + (d - 7) * 25000
  | _ => 0
  end.

Definition range (p : PMIC_CHIP_SELECTION) : Z * Z :=
  match p with
  | SY8824B => (762500, 1550000) | SY8827N => (600000, 1387500) | NCP6335D => (600000, 1375000) | HL7593WL06 => (600000, 1394000)
  | RT5739 => (300000, 1300000) | TPS62868 => (400000, 1675000) | FP6359 => (700000, 1000000) | _ => (0, 0)
  end.
Definition in_range (p : PMIC_CHIP_SELECTION) (v : Z) : Prop := fst (range p) <= v <= snd (range p).

Definition step_of (p : PMIC_CHIP_SELECTION) : Z :=
  match p with SY8824B | SY8827N => 12500 | NCP6335D | M88PG86X => 25000 | HL7593WL06 => 6250 | RT5739 | TPS62868 => 5000 | FP6359 => 304 | _ => 1 end.

(** The nearest voltage that the regulator has, below the one that is asked for; that of
    the FP6359 is above it. *)
Definition grid (p : PMIC_CHIP_SELECTION) (v : Z) : Z :=
  match p with
  | FP6359 => 1000000 - (1000000 - v) / 304 * 304
  | _ => fst (range p) + (v - fst (range p)) / step_of p * step_of p
  end.

(** What a write tells the regulator [p] at the bus or channel [u]. *)
Definition told (p : PMIC_CHIP_SELECTION) (u : Z) (w : write) : option Z :=
  match w with
  | I2cWrite id addr reg v => if negb (bool_decide (p = FP6359)) && (id =? u) && (addr =? caddr p) && (reg =? cvreg p) then Some (decode p v) else None
  | PwmWrite reg v => if bool_decide (p = FP6359) && (reg =? RA_PWM_pwmCh0Duty + 0x10 * u) then Some (decode p v) else None
  end.
Definition voltages (p : PMIC_CHIP_SELECTION) (u : Z) (l : list write) : list Z := omap (told p u) l.

(** Each is one step from the one before at most. *)
Fixpoint chain (step from : Z) (vs : list Z) : Prop := match vs with [] => True | v :: vs => Z.abs (v - from) <= step /\ chain step v vs end.

Lemma land63 d : Z.land (u8 d) 0x3f = Z.land d 0x3f.
Proof. unfold u8. rewrite <- (Z.land_ones d 8), <- Z.land_assoc by lia. done. Qed.

Lemma land127 d : Z.land (u8 d) 0x7f = Z.land d 0x7f.
Proof. unfold u8. rewrite <- (Z.land_ones d 8), <- Z.land_assoc by lia. done. Qed.

Lemma land_small k y : 0 <= k -> 0 <= y < 2 ^ k -> Z.land y (Z.ones k) = y.
Proof. intros Hk Hy. rewrite Z.land_ones by done. by apply Z.mod_small. Qed.

Lemma upper_bits x y : 0 <= y < 64 -> Z.land (u8 (Z.lor (Z.land x 0xc0) (u8 y))) 0x3f = y.
Proof.
  intros Hy. rewrite land63, Z.land_lor_distr_l, land63, <- Z.land_assoc. change (Z.land 0xc0 0x3f) with 0. rewrite Z.land_0_r, Z.lor_0_l. by apply (land_small 6).
Qed.

(** The value that is written for a voltage, when the register holds [d0]. *)
Definition encode (p : PMIC_CHIP_SELECTION) (d0 v : Z) : Z :=
  match p with
  | SY8824B => Z.lor (Z.land d0 0xc0) (u8 ((v - 762500) / 12500))
  | SY8827N => Z.lor (Z.land d0 0xc0) (u8 ((v - 600000) / 12500))
  | NCP6335D => Z.lor 0x80 (Z.land (u8 ((v - 600000) / 25000 * 4)) 0x7f)
  | HL7593WL06 => 0x80 + (v - 600000) / 6250
  | RT5739 => (v - 300000) / 5000
  | TPS62868 => (v - 400000) / 5000
  | _ => 0
  end.

Lemma encode_ok p d0 v : ramped p = true -> p <> FP6359 -> in_range p v -> decode p (u8 (encode p d0 v)) = grid p v.
Proof.
  intros Hp Hf [H1 H2]. destruct p; try done; cbn [range fst snd] in H1, H2; cbn [decode encode grid range fst step_of];
    match goal with |- context [(v - ?a) / ?b] => assert (Hq : 0 <= (v - a) / b < 256 /\ (v - a) / b * b <= v - a) by (split; [split; [apply Z.div_pos; lia|apply Z.div_lt_upper_bound; lia]|rewrite Z.mul_comm; apply Z.mul_div_le; lia]); set (q := (v - a) / b) in * end.
  - by rewrite upper_bits by lia.
  - rewrite land127, Z.land_lor_distr_l, land127. change (Z.land 0x80 0x7f) with 0. rewrite Z.lor_0_l, <- Z.land_assoc. change (Z.land 0x7f 0x7f) with (Z.ones 7). rewrite (land_small 7) by lia. by rewrite Z.div_mul.
  - by rewrite upper_bits by lia.
  - rewrite land127. change 0x7f with (Z.ones 7). rewrite Z.land_ones by lia. replace (0x80 + q) with (q + 1 * 2 ^ 7) by lia. rewrite Z.mod_add, Z.mod_small by lia. done.
  - by rewrite u8_id by (unfold is_u8; lia).
  - by rewrite u8_id by (unfold is_u8; lia).
Qed.

Lemma grid_decode p d : ramped p = true -> grid p (decode p d) = decode p d.
Proof.
  intros Hp. destruct p; try done; cbn [decode grid range fst step_of]; try (rewrite Z.add_simpl_l, Z.div_mul by lia; done).
  replace (1000000 - (1000000 - d * 304)) with (d * 304) by lia. by rewrite Z.div_mul by lia.
Qed.

(** ** The path between two voltages *)

Section Path.
Context (step to : Z) (Hstep : 0 < step).

Definition next (volt : Z) : Z := if to <? volt then Z.max to (volt - step) else Z.min to (volt + step).

Lemma next_abs v : v <> to -> Z.abs (to - next v) < Z.abs (to - v) /\ Z.abs (to - next v) <= Z.max 0 (Z.abs (to - v) - step) /\ Z.abs (next v - v) <= step /\ Z.min v to <= next v <= Z.max v to.
Proof using Hstep. intros Hv. unfold next. case_match; lia. Qed.

Lemma rounds_left v n : v <> to -> Z.abs (to - v) < Z.of_nat (S n) * step -> Z.abs (to - next v) < Z.of_nat n * step \/ next v = to.
Proof using Hstep. intros Hv Hn. pose proof (next_abs v Hv). destruct (decide (next v = to)); [by right|left]. lia. Qed.
End Path.

(** ** Any bus *)

Section AnyBus.
Context {B : Type} {bus : I2cBus B}.

Lemma init_log id (s : pst B) : log (i2c_init id s) = log s.
Proof. done. Qed.

Lemma read_log id addr reg (s : pst B) r v s' : i2c_read id addr reg s = (r, v, s') -> log s' = log s.
Proof. unfold i2c_read. destruct (i2c_master_write_and_read _ _ _ _) as [[? ?] ?]. by intros [= <- <- <-]. Qed.

Lemma checked_log bad id addr reg v (s : pst B) r s' : checked_write bad id addr reg v s = (r, s') -> log s' = log s ++ [I2cWrite id addr (u8 reg) (u8 v)].
Proof.
  unfold checked_write. destruct (i2c_write id addr reg v s) as [r1 s1] eqn:E. assert (H1 : log s1 = log s ++ [I2cWrite id addr (u8 reg) (u8 v)]).
  { unfold i2c_write in E. destruct (i2c_master_write_and_read _ _ _ _) as [[? ?] ?]. by injection E as <- <-. }
  case_match; [by intros [= <- <-]|]. destruct (i2c_read id addr reg s1) as [[r2 d] s2] eqn:E2. apply read_log in E2. repeat case_match; intros [= <- <-]; congruence.
Qed.

(** What one call does to the log: nothing if it fails before the write, or one write
    of the voltage asked for. *)
Definition tells (p : PMIC_CHIP_SELECTION) (u v : Z) (r : Z) (s s' : pst B) : Prop :=
  (r <> 0 /\ forall u', voltages p u' (log s') = voltages p u' (log s)) \/
  (in_range p v /\ forall u', voltages p u' (log s') = voltages p u' (log s) ++ (if u' =? u then [grid p v] else [])).

Lemma tells_write p u v r d0 (s s0 s' : pst B) bad : p <> FP6359 -> ramped p = true -> log s0 = log s -> checked_write bad u (caddr p) (cvreg p) (encode p d0 v) s0 = (r, s') -> in_range p v -> tells p u v r s s'.
Proof.
  intros Hf Hp H0 H Hv. right. split; [done|]. intros u'. apply checked_log in H. rewrite H, H0. unfold voltages. rewrite omap_app. f_equal. rewrite (u8_id (cvreg p)) by (destruct p; unfold is_u8; cbn; lia). cbn [omap list_omap told].
  rewrite bool_decide_eq_false_2, !Z.eqb_refl by done. cbn [negb andb]. rewrite !andb_true_r, (Z.eqb_sym u u'), encode_ok by done. by destruct (u' =? u).
Qed.

Lemma tells_same p u v r (s s' : pst B) : r <> 0 -> log s' = log s -> tells p u v r s s'.
Proof. intros Hr Hl. left. split; [done|]. intros u'. by rewrite Hl. Qed.

Definition set_vol_of (p : PMIC_CHIP_SELECTION) (u : Z) : Z -> pst B -> Z * pst B :=
  match p with
  | SY8824B => sy8824b_set_vol u 0x66 | NCP6335D => ncp6335d_set_vol u 0 | SY8827N => sy8827n_set_vol u 0x60 | HL7593WL06 => hl7593_set_vol u 0x61
  | TPS62868 => tps62868_set_vol u 0x49 | RT5739 => rt5739_set_vol u 0x50 | FP6359 => fp6359_set_vol u | _ => m88pg86x_set_vol u
  end.

Ltac vrange := match goal with |- context [(?a <=? ?v) && (?v <=? ?b)] => destruct ((a <=? v) && (v <=? b)) eqn:?; [match goal with H : (_ <=? _) && (_ <=? _) = true |- _ => apply andb_prop in H as [?%Z.leb_le ?%Z.leb_le] end|] end.
Ltac in_rng := unfold in_range; cbn [range fst snd]; lia.

(** The calls that read the register first. *)
Ltac told_rmw p E := apply read_log in E; rewrite init_log in E; case_match eqn:E1;
  [intros [= <- <-]; apply tells_same; [by match goal with H : negb (?r =? 0) = true |- _ => destruct (Z.eqb_spec r 0) end|done]|];
  vrange; [|intros [= <- <-]; by apply tells_same]; intros Hw; eapply (tells_write p); [done|done|exact E|exact Hw|in_rng].
Ltac told_write p := vrange; [|intros [= <- <-]; by apply tells_same]; intros Hw; eapply (tells_write p); [done|done|apply init_log|exact Hw|in_rng].

Lemma sets_told p u v (s : pst B) r s' : ramped p = true -> set_vol_of p u v s = (r, s') -> tells p u v r s s'.
Proof.
  intros Hp. destruct p; try done; cbn [set_vol_of].
  - unfold sy8824b_set_vol, sy8824b_pmic_volt2data. destruct (i2c_read u 0x66 0 _) as [[r1 d] s1] eqn:E. told_rmw SY8824B E.
  - unfold ncp6335d_set_vol, ncp6335d_pmic_volt2data. cbn [Z.eqb]. unshelve told_write NCP6335D. exact 0.
  - unfold sy8827n_set_vol, sy8827n_pmic_volt2data. destruct (i2c_read u 0x60 0 _) as [[r1 d] s1] eqn:E. told_rmw SY8827N E.
  - unfold hl7593_set_vol, hl7593_pmic_volt2data. unshelve told_write HL7593WL06. exact 0.
  - unfold tps62868_set_vol, tps62868_pmic_volt2data. destruct (i2c_read u 0x49 1 _) as [[r1 d] s1] eqn:E. unshelve told_rmw TPS62868 E. exact 0.
  - unfold rt5739_set_vol, rt5739_pmic_volt2data. unshelve told_write RT5739. exact 0.
  - unfold fp6359_set_vol. case_match; [intros [= <- <-]; by apply tells_same|]. unfold fp6359_init, fp6359_pmic_volt2data.
    assert (Hi : forall u', voltages FP6359 u' (log (preScalePwm u 0 0 (terminalCountPwm u 1000 (enablePwm u 1 s)))) = voltages FP6359 u' (log s)).
    { intros u'. unfold preScalePwm, terminalCountPwm, enablePwm, pwm_write, voltages. cbn [log]. rewrite !omap_app. cbn [omap list_omap told]. unfold RA_PWM_pwmCh0En, RA_PWM_pwmCh0Ctrl, RA_PWM_pwmCh0Duty, RA_PWM_pwmCh0TCnt.
      rewrite bool_decide_eq_true_2 by done. cbn [andb]. rewrite !(proj2 (Z.eqb_neq _ _)) by lia. by rewrite !app_nil_r. }
    vrange; intros [= <- <-]; [|left; split; [done|exact Hi]]. right. split; [in_rng|]. intros u'. unfold dutyCyclePwm, pwm_write at 1. cbn [log]. unfold voltages in *. rewrite omap_app, Hi. f_equal. cbn [omap list_omap told].
    rewrite bool_decide_eq_true_2 by done. cbn [andb]. unfold RA_PWM_pwmCh0Duty. replace (8 + 16 * u =? 8 + 16 * u') with (u' =? u) by (destruct (Z.eqb_spec u' u), (Z.eqb_spec (8 + 16 * u) (8 + 16 * u')); lia || done). by destruct (u' =? u).
Qed.

Definition between (a b v : Z) : Prop := Z.min a b <= v <= Z.max a b.

Lemma between_next step to a v : 0 < step -> a <> to -> between (next step to a) to v -> between a to v.
Proof. intros Hs Ha. unfold between. pose proof (next_abs step to Hs a Ha). lia. Qed.

Lemma step_pos p : ramped p = true -> 0 < step_of p <= 25000.
Proof. destruct p; cbn; (done || lia). Qed.

Lemma ramp_round p u n volt to (s : pst B) : ramped p = true -> volt <> to -> 0 <= volt < 2 ^ 31 -> 0 <= to < 2 ^ 31 - 25000 ->
  ramp (S n) (step_of p) (set_vol_of p u) volt to s =
  let '(ret, s) := set_vol_of p u (next (step_of p) to volt) s in if negb (ret =? 0) then Some (1, s) else ramp n (step_of p) (set_vol_of p u) (next (step_of p) to volt) to s.
Proof.
  intros Hp Hne Hv Ht. pose proof (step_pos p Hp). cbn [ramp]. rewrite (proj2 (Z.eqb_neq _ _) Hne). unfold int. rewrite decide_True by (unfold is_i32; destruct (to <? volt) eqn:E; lia). cbn [mbind option_bind].
  replace (if to <? volt then _ else _) with (next (step_of p) to volt); [done|]. unfold next. destruct (to <? volt) eqn:E; case_match; lia.
Qed.

Lemma ramp_told p u to : ramped p = true -> 0 <= to < 2 ^ 31 - 25000 -> forall n volt (s : pst B), 0 <= volt < 2 ^ 31 -> volt = to \/ Z.abs (to - volt) < Z.of_nat n * step_of p ->
  exists r s' vs, ramp n (step_of p) (set_vol_of p u) volt to s = Some (r, s') /\ (r = 0 \/ r = 1) /\
  (forall u', voltages p u' (log s') = voltages p u' (log s) ++ (if u' =? u then map (grid p) vs else [])) /\
  Forall (between volt to) vs /\ Forall (in_range p) vs /\ chain (step_of p) volt vs /\ (r = 0 -> default volt (list.last vs) = to).
Proof.
  intros Hp Ht. pose proof (step_pos p Hp) as Hst. induction n as [|n IH]; intros volt s Hv Hn; (destruct (Z.eq_dec volt to) as [->|Hne]; [exists 0, s, []; cbn [ramp]; rewrite Z.eqb_refl; split_and!; try done; [by left|intros u'; case_match; by rewrite app_nil_r]|]).
  { destruct Hn; [done|]. lia. }
  destruct Hn as [|Hn]; [done|]. rewrite ramp_round by done. set (v := next (step_of p) to volt). destruct (next_abs (step_of p) to (proj1 Hst) volt Hne) as (N1 & N2 & N3 & N4). fold v in N1, N2, N3, N4.
  destruct (set_vol_of p u v s) as [r1 s1] eqn:E. apply sets_told in E; [|done]. destruct E as [[Hr1 E]|[Hrg E]].
  { rewrite (proj2 (Z.eqb_neq _ _) Hr1). exists 1, s1, []. split_and!; try done; [by right|]. intros u'. rewrite E. case_match; by rewrite app_nil_r. }
  assert (Hb : between volt to v) by exact N4.
  destruct (Z.eqb_spec r1 0) as [->|Hr1]; cbn [negb].
  - destruct (IH v s1) as (r & s' & vs & H1 & H2 & H3 & H4 & H5 & H6 & H7); [lia| |].
    { destruct (rounds_left (step_of p) to (proj1 Hst) volt n Hne Hn) as [|]; [by right|by left]. }
    exists r, s', (v :: vs). split; [done|]. split; [done|]. split; [intros u'; rewrite H3, E; case_match; by rewrite <- app_assoc|].
    split; [constructor; [done|]; eapply list.Forall_impl; [exact H4|]; intros x; apply between_next; [lia|done]|]. split; [by constructor|]. split; [by split|]. intros Hr. specialize (H7 Hr). rewrite last_cons. by destruct (list.last vs).
  - exists 1, s1, [v]. split_and!; try done; [by right|by constructor|by constructor].
Qed.

Lemma fuel_enough step from to : 0 < step -> from = to \/ Z.abs (to - from) < Z.of_nat (Z.to_nat (Z.abs (to - from) / step + 1)) * step.
Proof.
  intros Hs. right. pose proof (Z.mul_succ_div_gt (Z.abs (to - from)) step Hs). pose proof (Z.div_pos (Z.abs (to - from)) step ltac:(lia) Hs). rewrite Z2Nat.id by lia. lia.
Qed.

Context (VOUT_CPU_ID VOUT_CORE_ID VOUT_CPU_CH VOUT_CORE_CH : Z) (rounds : nat).
Local Notation ops_of p := (get_dvfs_ops VOUT_CPU_ID VOUT_CORE_ID VOUT_CPU_CH VOUT_CORE_CH rounds p).

(** The bus or channel of the two rails. *)
Definition cpu_unit (p : PMIC_CHIP_SELECTION) : Z := match p with FP6359 => VOUT_CPU_CH | _ => VOUT_CPU_ID end.
Definition core_unit (p : PMIC_CHIP_SELECTION) : Z := match p with FP6359 => VOUT_CORE_CH | _ => VOUT_CORE_ID end.

Lemma ops_set p o : ramped p = true -> ops_of p = Some o ->
  set_vcpu_volt o = i2c_set_volt (step_of p) (set_vol_of p (cpu_unit p)) /\ set_vcore_volt o = i2c_set_volt (step_of p) (set_vol_of p (core_unit p)).
Proof. intros Hp H. destruct p; try done; injection H as <-; done. Qed.

(** C19: For the seven regulators that are moved step by step - SY8824B, SY8827N, NCP6335D,
    HL7593, RT5739, TPS62868 and FP6359, not M88PG86X and MP886X ([m88pg86x_overvolts],
    [mp8867_tries_for_ever]): whatever the bus answers, a change of voltage ends; what the regulator is told are
    voltages of its range between the present one and the new one, each one step from
    the one before at most, and the last one is the new one if the change succeeds; no
    other rail is told anything. *)
Theorem voltage_moves_in_steps p o from to s : ramped p = true -> ops_of p = Some o -> 0 <= from < 2 ^ 31 -> 0 <= to < 2 ^ 31 - 25000 ->
  exists r s' vs, set_vcpu_volt o from to s = Some (r, s') /\ (r = 0 \/ r = 1) /\
  (forall u, voltages p u (log s') = voltages p u (log s) ++ (if u =? cpu_unit p then map (grid p) vs else [])) /\
  Forall (between from to) vs /\ Forall (in_range p) vs /\ chain (step_of p) from vs /\ (r = 0 -> default from (list.last vs) = to).
Proof.
  intros Hp Ho Hf Ht. rewrite (proj1 (ops_set p o Hp Ho)). unfold i2c_set_volt. apply ramp_told; [done|done|done|]. apply fuel_enough, (step_pos p Hp).
Qed.
End AnyBus.

(** ** A bus that keeps what is written *)

Class ReliableI2c (B : Type) {bus : I2cBus B} := {
  reg : B -> Z -> Z -> Z -> Z;
  reg_u8 b i a x : is_u8 (reg b i a x);
  reg_init id b i a x : reg (i2c_master_init id b) i a x = reg b i a x;
  reg_read id addr q b : exists b', i2c_master_write_and_read id addr [q] b = (0, reg b id addr q, b') /\ forall i a x, reg b' i a x = reg b i a x;
  reg_write id addr q v b : is_u8 v -> exists v0 b', i2c_master_write_and_read id addr [q; v] b = (0, v0, b') /\
    forall i a x, reg b' i a x = if (i =? id) && (a =? addr) && (x =? q) then v else reg b i a x }.

Section Reliable.
Context {B : Type} {bus : I2cBus B} {rel : ReliableI2c B}.

(** Nothing has changed, or one register. *)
Definition same (s s' : pst B) : Prop := pwm s' = pwm s /\ forall i a x, reg (dev s') i a x = reg (dev s) i a x.
Definition stored (id addr q v : Z) (s s' : pst B) : Prop := pwm s' = pwm s /\ forall i a x, reg (dev s') i a x = if (i =? id) && (a =? addr) && (x =? q) then v else reg (dev s) i a x.

Lemma init_same id s : same s (i2c_init id s).
Proof. split; [done|]. intros i a x. apply reg_init. Qed.

Lemma regs_same_trans s1 s2 s3 : same s1 s2 -> same s2 s3 -> same s1 s3.
Proof. intros [P1 R1] [P2 R2]. split; [congruence|]. intros i a x. by rewrite R2, R1. Qed.

Lemma same_stored id addr q v s1 s2 s3 : same s1 s2 -> stored id addr q v s2 s3 -> stored id addr q v s1 s3.
Proof. intros [P1 R1] [P2 R2]. split; [congruence|]. intros i a x. by rewrite R2, R1. Qed.

Lemma stored_same id addr q v s1 s2 s3 : stored id addr q v s1 s2 -> same s2 s3 -> stored id addr q v s1 s3.
Proof. intros [P1 R1] [P2 R2]. split; [congruence|]. intros i a x. by rewrite R2, R1. Qed.

Lemma stored_reg id addr q v s s' : stored id addr q v s s' -> reg (dev s') id addr q = v.
Proof. intros [_ H]. by rewrite H, !Z.eqb_refl. Qed.

Lemma bus_read_ok id addr q s : is_u8 q -> exists s', i2c_read id addr q s = (0, reg (dev s) id addr q, s') /\ same s s'.
Proof.
  intros Hq. unfold i2c_read. rewrite (u8_id q) by done. destruct (reg_read id addr q (dev s)) as (b' & E & H). rewrite E. eexists. split; [by rewrite (u8_id (reg _ _ _ _)) by apply reg_u8|]. by split.
Qed.

Lemma bus_write_ok id addr q v s : is_u8 q -> exists s', i2c_write id addr q v s = (0, s') /\ stored id addr q (u8 v) s s'.
Proof.
  intros Hq. unfold i2c_write. rewrite (u8_id q) by done. destruct (reg_write id addr q (u8 v) (dev s) (u8_range v)) as (v0 & b' & E & H). rewrite E. eexists. split; [done|]. by split.
Qed.

Lemma checked_ok bad id addr q v s : is_u8 q -> exists s', checked_write bad id addr q v s = (0, s') /\ stored id addr q (u8 v) s s'.
Proof.
  intros Hq. unfold checked_write. destruct (bus_write_ok id addr q v s Hq) as (s1 & -> & H1). cbn [Z.eqb negb]. destruct (bus_read_ok id addr q s1 Hq) as (s2 & -> & H2). cbn [Z.eqb negb].
  rewrite (stored_reg _ _ _ _ _ _ H1), Z.eqb_refl. cbn [negb]. exists s2. split; [done|]. by eapply stored_same.
Qed.

(** The voltage of a rail, and what a call for a rail leaves alone. *)
Definition rail (p : PMIC_CHIP_SELECTION) (u : Z) (s : pst B) : Z :=
  decode p (if bool_decide (p = FP6359) then pwm s (RA_PWM_pwmCh0Duty + 0x10 * u) else reg (dev s) u (caddr p) (cvreg p)).
Definition frame (p : PMIC_CHIP_SELECTION) (u : Z) (s s' : pst B) : Prop :=
  if bool_decide (p = FP6359) then dev s' = dev s /\ forall x, x / 16 <> u -> pwm s' x = pwm s x
  else pwm s' = pwm s /\ forall i a x, i <> u -> reg (dev s') i a x = reg (dev s) i a x.

Lemma frame_trans p u s1 s2 s3 : frame p u s1 s2 -> frame p u s2 s3 -> frame p u s1 s3.
Proof. unfold frame. case_match; intros [P1 R1] [P2 R2]; (split; [congruence|]); [intros x Hx; by rewrite R2, R1|intros i a x Hi; by rewrite R2, R1]. Qed.

Lemma frame_refl p u s : frame p u s s.
Proof. unfold frame. by case_match. Qed.

Lemma stored_frame p u addr q v s s' : p <> FP6359 -> stored u addr q v s s' -> frame p u s s'.
Proof. intros Hp [H1 H2]. unfold frame. rewrite bool_decide_eq_false_2 by done. split; [done|]. intros i a x Hi. rewrite H2, (proj2 (Z.eqb_neq _ _) Hi). done. Qed.

Lemma same_frame p u s s' : p <> FP6359 -> same s s' -> frame p u s s'.
Proof. intros Hp [H1 H2]. unfold frame. rewrite bool_decide_eq_false_2 by done. split; [done|]. intros i a x Hi. apply H2. Qed.

(** A register of another channel. *)
Lemma other_channel a u x : 0 <= a < 16 -> x / 16 <> u -> (x =? a + 16 * u) = false.
Proof. intros Ha Hx. apply Z.eqb_neq. intros ->. apply Hx. replace (a + 16 * u) with (a + u * 16) by lia. rewrite Z.div_add, Z.div_small by lia. done. Qed.

(** Two rails do not share a register. *)
Definition apart (p1 : PMIC_CHIP_SELECTION) (u1 : Z) (p2 : PMIC_CHIP_SELECTION) (u2 : Z) : Prop := bool_decide (p1 = FP6359) = bool_decide (p2 = FP6359) -> u1 <> u2.

Lemma rail_frame p1 u1 p2 u2 s s' : apart p1 u1 p2 u2 -> frame p2 u2 s s' -> rail p1 u1 s' = rail p1 u1 s.
Proof.
  unfold apart, frame, rail. intros Ha Hf. f_equal. destruct (bool_decide (p1 = FP6359)), (bool_decide (p2 = FP6359)); destruct Hf as [H1 H2].
  - apply H2. unfold RA_PWM_pwmCh0Duty. replace (8 + 16 * u1) with (8 + u1 * 16) by lia. rewrite Z.div_add by lia. change (8 / 16) with 0. specialize (Ha eq_refl). lia.
  - by rewrite H1.
  - by rewrite H1.
  - apply H2. by apply Ha.
Qed.

Lemma stored_rail p u d s s' : p <> FP6359 -> stored u (caddr p) (cvreg p) d s s' -> rail p u s' = decode p d.
Proof. intros Hp H. unfold rail. rewrite bool_decide_eq_false_2 by done. by rewrite (stored_reg _ _ _ _ _ _ H). Qed.

Ltac in_rng2 H := unfold in_range in H; cbn [range fst snd] in H.

Lemma set_checked p u d0 v s s0 : p <> FP6359 -> ramped p = true -> in_range p v -> same s s0 ->
  exists s', checked_write (-1) u (caddr p) (cvreg p) (encode p d0 v) s0 = (0, s') /\ rail p u s' = grid p v /\ frame p u s s'.
Proof.
  intros Hf Hp Hv Hs. destruct (checked_ok (-1) u (caddr p) (cvreg p) (encode p d0 v) s0) as (s' & E & H); [destruct p; unfold is_u8; cbn; lia|]. exists s'. split; [done|].
  apply (same_stored _ _ _ _ _ _ _ Hs) in H. split; [rewrite (stored_rail p u _ s s' Hf H); by apply encode_ok|]. by eapply stored_frame.
Qed.

Lemma sets_rail p u v s : ramped p = true -> (p = FP6359 -> u <= MAX_PWM_CH) -> in_range p v -> exists s', set_vol_of p u v s = (0, s') /\ rail p u s' = grid p v /\ frame p u s s'.
Proof.
  intros Hp Hch Hv. pose proof Hv as Hr. destruct p; try done; cbn [set_vol_of]; in_rng2 Hr.
  - unfold sy8824b_set_vol, sy8824b_pmic_volt2data. destruct (bus_read_ok u 0x66 0 (i2c_init u s)) as (s1 & -> & H1); [unfold is_u8; lia|]. cbn [Z.eqb negb]. rewrite (proj2 (Z.leb_le _ _) (proj1 Hr)), (proj2 (Z.leb_le _ _) (proj2 Hr)). cbn [andb].
    apply (set_checked SY8824B); [done|done|done|]. eapply regs_same_trans; [apply init_same|done].
  - unfold ncp6335d_set_vol, ncp6335d_pmic_volt2data. cbn [Z.eqb]. rewrite (proj2 (Z.leb_le _ _) (proj1 Hr)), (proj2 (Z.leb_le _ _) (proj2 Hr)). cbn [andb]. apply (set_checked NCP6335D u 0); [done|done|done|apply init_same].
  - unfold sy8827n_set_vol, sy8827n_pmic_volt2data. destruct (bus_read_ok u 0x60 0 (i2c_init u s)) as (s1 & -> & H1); [unfold is_u8; lia|]. cbn [Z.eqb negb]. rewrite (proj2 (Z.leb_le _ _) (proj1 Hr)), (proj2 (Z.leb_le _ _) (proj2 Hr)). cbn [andb].
    apply (set_checked SY8827N); [done|done|done|]. eapply regs_same_trans; [apply init_same|done].
  - unfold hl7593_set_vol, hl7593_pmic_volt2data. rewrite (proj2 (Z.leb_le _ _) (proj1 Hr)), (proj2 (Z.leb_le _ _) (proj2 Hr)). cbn [andb]. apply (set_checked HL7593WL06 u 0); [done|done|done|apply init_same].
  - unfold tps62868_set_vol, tps62868_pmic_volt2data. destruct (bus_read_ok u 0x49 1 (i2c_init u s)) as (s1 & -> & H1); [unfold is_u8; lia|]. cbn [Z.eqb negb]. rewrite (proj2 (Z.leb_le _ _) (proj1 Hr)), (proj2 (Z.leb_le _ _) (proj2 Hr)). cbn [andb].
    apply (set_checked TPS62868 u 0); [done|done|done|]. eapply regs_same_trans; [apply init_same|done].
  - unfold rt5739_set_vol, rt5739_pmic_volt2data. rewrite (proj2 (Z.leb_le _ _) (proj1 Hr)), (proj2 (Z.leb_le _ _) (proj2 Hr)). cbn [andb]. apply (set_checked RT5739 u 0); [done|done|done|apply init_same].
  - unfold fp6359_set_vol, fp6359_pmic_volt2data. specialize (Hch eq_refl). replace (MAX_PWM_CH <? u) with false by lia. rewrite (proj2 (Z.leb_le _ _) (proj1 Hr)), (proj2 (Z.leb_le _ _) (proj2 Hr)). cbn [andb]. eexists. split; [reflexivity|].
    unfold rail, frame. rewrite !bool_decide_eq_true_2 by done. unfold dutyCyclePwm, fp6359_init, preScalePwm, terminalCountPwm, enablePwm, pwm_write, RA_PWM_pwmCh0En, RA_PWM_pwmCh0Ctrl, RA_PWM_pwmCh0Duty, RA_PWM_pwmCh0TCnt. cbn [dev pwm]. rewrite Z.eqb_refl.
    split; [done|]. split; [done|]. intros x Hx. by rewrite !other_channel by (done || lia).
Qed.

Definition get_vol_of (p : PMIC_CHIP_SELECTION) (u : Z) : pst B -> Z * pst B :=
  match p with
  | SY8824B => sy8824b_get_vol u 0x66 | NCP6335D => ncp6335d_get_vol u 0 | SY8827N => sy8827n_get_vol u 0x60 | HL7593WL06 => hl7593_get_vol u 0x61
  | TPS62868 => tps62868_get_vol u 0x49 | RT5739 => rt5739_get_vol u 0x50 | FP6359 => fp6359_get_vol u | _ => m88pg86x_get_volt u
  end.

(** A voltage of the range that is read back as it is. *)
Definition usable (p : PMIC_CHIP_SELECTION) (v : Z) : Prop := in_range p v /\ (p = HL7593WL06 -> v < 1000000).

(** The call gives the voltage of the rail and leaves it. *)
Definition gives (p : PMIC_CHIP_SELECTION) (u : Z) (s : pst B) (r : Z * pst B) : Prop := exists s', r = (rail p u s, s') /\ rail p u s' = rail p u s /\ frame p u s s'.

Lemma same_rail p u s s' : same s s' -> rail p u s' = rail p u s.
Proof. intros [H1 H2]. unfold rail. by rewrite H1, H2. Qed.

Lemma get_reg_ok p u s s0 f : p <> FP6359 -> rail p u s0 = rail p u s -> frame p u s s0 -> f (reg (dev s0) u (caddr p) (cvreg p)) = Some (rail p u s0) -> gives p u s (get_reg u (caddr p) (cvreg p) f s0).
Proof.
  intros Hp Hr Hs Hf. unfold get_reg. destruct (bus_read_ok u (caddr p) (cvreg p) s0) as (s1 & -> & H1); [destruct p; unfold is_u8; cbn; lia|]. rewrite Hf. cbn [Z.eqb]. exists s1. rewrite Hr. split; [done|].
  split; [by rewrite (same_rail p u _ _ H1)|]. eapply frame_trans; [exact Hs|]. by apply same_frame.
Qed.

Lemma discharge_ok p u q mask s : p <> FP6359 -> is_u8 q -> q <> cvreg p -> exists s', disable_discharge u (caddr p) q mask (i2c_init u s) = (0, s') /\ rail p u s' = rail p u s /\ frame p u s s'.
Proof.
  intros Hp Hq Hne. unfold disable_discharge. destruct (bus_read_ok u (caddr p) q (i2c_init u s) Hq) as (s1 & -> & H1). cbn [Z.eqb negb]. destruct (bus_write_ok u (caddr p) q (Z.land (reg (dev (i2c_init u s)) u (caddr p) q) mask) s1 Hq) as (s2 & -> & H2).
  exists s2. split; [done|]. apply (regs_same_trans _ _ _ (init_same u s)) in H1. apply (same_stored _ _ _ _ _ _ _ H1) in H2. split; [|by eapply stored_frame].
  unfold rail. rewrite bool_decide_eq_false_2 by done. destruct H2 as [_ H2]. rewrite H2, (proj2 (Z.eqb_neq (cvreg p) q)) by done. by rewrite andb_false_r.
Qed.

Lemma low_bits d : Z.land d 0x7f < 64 -> Z.land (d - 0x80) 0x3f = Z.land d 0x7f.
Proof.
  change 0x3f with (Z.ones 6). change 0x7f with (Z.ones 7). rewrite !Z.land_ones by lia. change (2 ^ 6) with 64. change (2 ^ 7) with 128. intros H.
  replace (d - 0x80) with (d + (-2) * 64) by lia. rewrite Z.mod_add by lia. pose proof (Z.mod_pos_bound d 128). replace d with (d mod 128 + 2 * (d / 128) * 64) at 1 by (pose proof (Z.div_mod d 128); lia). rewrite Z.mod_add by lia. apply Z.mod_small. lia.
Qed.

Lemma gets_rail p u s : ramped p = true -> (p = FP6359 -> u <= MAX_PWM_CH) -> usable p (rail p u s) -> gives p u s (get_vol_of p u s).
Proof.
  intros Hp Hch [Hr Hhl]. destruct p; try done; cbn [get_vol_of]; in_rng2 Hr.
  - unfold sy8824b_get_vol. apply (get_reg_ok SY8824B); [done|apply same_rail, init_same|apply same_frame; [done|apply init_same]|]. unfold sy8824b_pmic_data2volt. change 0x3f with (Z.ones 6) at 1 3. rewrite Z.land_ones by lia.
    rewrite (proj2 (Z.leb_le _ _)) by (pose proof (Z.mod_pos_bound (reg (dev (i2c_init u s)) u (caddr SY8824B) (cvreg SY8824B)) (2 ^ 6)); lia). unfold rail. cbn [decode]. rewrite bool_decide_eq_false_2 by done. by rewrite <- Z.land_ones by lia.
  - unfold ncp6335d_get_vol. cbn [Z.eqb]. destruct (bus_read_ok u 0x1c 0x11 (i2c_init u s)) as (s1 & -> & H1); [unfold is_u8; lia|]. cbn [Z.eqb negb]. apply (regs_same_trans _ _ _ (init_same u s)) in H1. exists s1.
    split; [|split; [by apply same_rail|by apply same_frame]]. f_equal. unfold ncp6335d_pmic_data2volt, rail. rewrite bool_decide_eq_false_2 by done. cbn [decode caddr cvreg]. rewrite (proj2 (init_same u s)). lia.
  - unfold sy8827n_get_vol. destruct (discharge_ok SY8827N u 2 0x7f s) as (s1 & E & R1 & F1); [done|unfold is_u8; lia|done|]. cbn [caddr] in E. rewrite E. cbn [Z.eqb negb]. apply (get_reg_ok SY8827N); [done|done|done|]. unfold sy8827n_pmic_data2volt. change 0x3f with (Z.ones 6) at 1 3. rewrite Z.land_ones by lia.
    rewrite (proj2 (Z.leb_le _ _)) by (pose proof (Z.mod_pos_bound (reg (dev s1) u (caddr SY8827N) (cvreg SY8827N)) (2 ^ 6)); lia). unfold rail. cbn [decode]. rewrite bool_decide_eq_false_2 by done. by rewrite <- Z.land_ones by lia.
  - unfold hl7593_get_vol. destruct (discharge_ok HL7593WL06 u 2 0x7f s) as (s1 & E & R1 & F1); [done|unfold is_u8; lia|done|]. cbn [caddr] in E. rewrite E. cbn [Z.eqb negb]. apply (get_reg_ok HL7593WL06); [done|done|done|].
    specialize (Hhl eq_refl). rewrite <- R1 in Hhl. unfold rail in Hhl |- *. rewrite bool_decide_eq_false_2 in Hhl |- * by done. cbn [decode] in Hhl |- *. set (d := reg _ _ _ _) in *. unfold hl7593_pmic_data2volt. rewrite low_bits by lia. rewrite (proj2 (Z.leb_le _ _)) by lia. done.
  - unfold tps62868_get_vol. destruct (discharge_ok TPS62868 u 3 0xf7 s) as (s1 & E & R1 & F1); [done|unfold is_u8; lia|done|]. cbn [caddr] in E. rewrite E. cbn [Z.eqb negb]. by apply (get_reg_ok TPS62868).
  - unfold rt5739_get_vol. destruct (discharge_ok RT5739 u 2 0x7f s) as (s1 & E & R1 & F1); [done|unfold is_u8; lia|done|]. cbn [caddr] in E. rewrite E. cbn [Z.eqb negb]. apply (get_reg_ok RT5739); [done|done|done|].
    rewrite <- R1 in Hr. unfold rail in Hr |- *. rewrite bool_decide_eq_false_2 in Hr |- * by done. cbn [decode] in Hr |- *. set (d := reg _ _ _ _) in *. unfold rt5739_pmic_data2volt. rewrite u32_id by (unfold is_u32; pose proof (reg_u8 (dev s1) u (caddr RT5739) (cvreg RT5739)) as Hd; unfold is_u8 in Hd; fold d in Hd; lia).
    change ((1300000 - 300000) / 5000) with 200. by rewrite (proj2 (Z.leb_le _ _)) by lia.
  - unfold fp6359_get_vol. specialize (Hch eq_refl). replace (MAX_PWM_CH <? u) with false by lia. unfold rail in Hr. rewrite bool_decide_eq_true_2 in Hr by done. cbn [decode] in Hr.
    assert (Hd : dutyCyclePwmRead u (fp6359_init u s) = pwm s (RA_PWM_pwmCh0Duty + 16 * u)).
    { unfold dutyCyclePwmRead, fp6359_init, preScalePwm, terminalCountPwm, enablePwm, pwm_write, RA_PWM_pwmCh0En, RA_PWM_pwmCh0Ctrl, RA_PWM_pwmCh0Duty, RA_PWM_pwmCh0TCnt in *. cbn [pwm]. rewrite !(proj2 (Z.eqb_neq _ _)) by lia. apply i32_id. unfold is_i32. lia. }
    rewrite Hd. unfold fp6359_pmic_data2volt. rewrite u32_id by (unfold is_u32; lia). rewrite (proj2 (Z.leb_le _ _)) by lia. eexists. split; [unfold rail; by rewrite bool_decide_eq_true_2|].
    unfold rail, frame. rewrite !bool_decide_eq_true_2 by done. unfold fp6359_init, preScalePwm, terminalCountPwm, enablePwm, pwm_write, RA_PWM_pwmCh0En, RA_PWM_pwmCh0Ctrl, RA_PWM_pwmCh0Duty, RA_PWM_pwmCh0TCnt. cbn [pwm dev].
    split; [by rewrite !(proj2 (Z.eqb_neq _ _)) by lia|]. split; [done|]. intros x Hx. by rewrite !other_channel by (done || lia).
Qed.

Lemma ramp_reaches p u to : ramped p = true -> (p = FP6359 -> u <= MAX_PWM_CH) -> in_range p to -> forall n volt s, in_range p volt -> volt = to \/ Z.abs (to - volt) < Z.of_nat n * step_of p ->
  exists s', ramp n (step_of p) (set_vol_of p u) volt to s = Some (0, s') /\ frame p u s s' /\ (volt <> to -> rail p u s' = grid p to).
Proof.
  intros Hp Hch Ht. pose proof (step_pos p Hp) as Hst. assert (Hbig : forall v, in_range p v -> 0 <= v < 2 ^ 31 - 25000) by (intros v [H1 H2]; destruct p; try done; cbn [range fst snd] in *; lia).
  induction n as [|n IH]; intros volt s Hv Hn; (destruct (Z.eq_dec volt to) as [->|Hne]; [exists s; cbn [ramp]; rewrite Z.eqb_refl; split_and!; [done|apply frame_refl|done]|]).
  { destruct Hn; [done|]. lia. }
  destruct Hn as [|Hn]; [done|]. pose proof (Hbig _ Hv). pose proof (Hbig _ Ht). rewrite ramp_round by (done || lia). set (v := next (step_of p) to volt). destruct (next_abs (step_of p) to (proj1 Hst) volt Hne) as (N1 & N2 & N3 & N4). fold v in N1, N2, N3, N4.
  assert (Hvr : in_range p v) by (unfold in_range in *; lia). destruct (sets_rail p u v s Hp Hch Hvr) as (s1 & E & R1 & F1). rewrite E. cbn [Z.eqb negb].
  destruct (IH v s1 Hvr) as (s' & E' & F' & R'); [destruct (rounds_left (step_of p) to (proj1 Hst) volt n Hne Hn) as [|]; [by right|by left]|]. exists s'. split; [done|]. split; [by eapply frame_trans|]. intros _.
  destruct (Z.eq_dec v to) as [Hvt|Hvt]; [|by apply R']. rewrite Hvt in E'. destruct n; cbn [ramp] in E'; rewrite Z.eqb_refl in E'; injection E' as <-; rewrite R1; by rewrite Hvt.
Qed.

Lemma comp_rail_ok p u t pll leak v s : ramped p = true -> (p = FP6359 -> u <= MAX_PWM_CH) -> get_volt_from_dvfs t pll leak = Some v -> in_range p v -> usable p (rail p u s) ->
  exists s', comp_rail (fun s => or_zero (get_vol_of p u s)) (i2c_set_volt (step_of p) (set_vol_of p u)) None t pll leak s = Some (true, s') /\ rail p u s' = grid p v /\ frame p u s s'.
Proof.
  intros Hp Hch Et Hv Hu. unfold comp_rail. rewrite Et. cbn [mbind option_bind]. assert (Hlo : forall x, in_range p x -> 0 < x) by (intros x [H1 H2]; destruct p; try done; cbn [range fst snd] in *; lia).
  pose proof (Hlo v Hv). pose proof (Hlo _ (proj1 Hu)). replace (v =? -1) with false by lia. destruct (gets_rail p u s Hp Hch Hu) as (s1 & -> & R1 & F1). unfold or_zero. replace (rail p u s <? 0) with false by lia. cbn [fst snd].
  replace (rail p u s <? 0) with false by lia. destruct (Z.eqb_spec (rail p u s) v) as [He|Hne].
  { exists s1. split; [done|]. split; [|done]. rewrite R1, <- He. unfold rail. by rewrite grid_decode. }
  unfold i2c_set_volt. destruct (ramp_reaches p u v Hp Hch Hv (Z.to_nat (Z.abs (v - rail p u s) / step_of p + 1)) (rail p u s) s1 (proj1 Hu)) as (s' & E & F & R); [apply fuel_enough, (step_pos p Hp)|].
  rewrite E. cbn [mbind option_bind]. exists s'. split; [done|]. split; [by apply R|]. by eapply frame_trans.
Qed.

Context (VOUT_CPU_ID VOUT_CORE_ID VOUT_CPU_CH VOUT_CORE_CH : Z) (rounds : nat).
Local Notation cpu p := (cpu_unit VOUT_CPU_ID VOUT_CPU_CH p).
Local Notation core p := (core_unit VOUT_CORE_ID VOUT_CORE_CH p).

Lemma ops_ramp p : ramped p = true -> exists o, get_dvfs_ops VOUT_CPU_ID VOUT_CORE_ID VOUT_CPU_CH VOUT_CORE_CH rounds p = Some o /\ ops_init o = None /\
  get_vcpu_volt o = (fun s => or_zero (get_vol_of p (cpu p) s)) /\ set_vcpu_volt o = i2c_set_volt (step_of p) (set_vol_of p (cpu p)) /\
  get_vcore_volt o = (fun s => or_zero (get_vol_of p (core p) s)) /\ set_vcore_volt o = i2c_set_volt (step_of p) (set_vol_of p (core p)).
Proof. intros Hp. destruct p; try done; eexists; split; done. Qed.

(** C20: With two of the same seven regulators, on different buses or channels that keep what
    is written, whose present voltages are in their range and read as they are (for the
    HL7593 below 1 V), and table voltages in their range, pv_comp() leaves both rails at the voltages that the tables
    have for the leakage of the chip, up to the steps of the regulators. *)
Theorem rails_compensated p1 p2 leak t1 t2 pll1 pll2 v1 v2 s : ramped p1 = true -> ramped p2 = true -> VOUT_CPU_CH <= MAX_PWM_CH -> VOUT_CORE_CH <= MAX_PWM_CH -> leak <> 0 -> apart p1 (cpu p1) p2 (core p2) ->
  get_volt_from_dvfs t1 pll1 leak = Some v1 -> get_volt_from_dvfs t2 pll2 leak = Some v2 -> in_range p1 v1 -> in_range p2 v2 -> usable p1 (rail p1 (cpu p1) s) -> usable p2 (rail p2 (core p2) s) ->
  exists s', pv_comp VOUT_CPU_ID VOUT_CORE_ID VOUT_CPU_CH VOUT_CORE_CH rounds p1 p2 leak t1 t2 pll1 pll2 s = Some s' /\ rail p1 (cpu p1) s' = grid p1 v1 /\ rail p2 (core p2) s' = grid p2 v2.
Proof.
  intros Hp1 Hp2 Hc1 Hc2 Hl Ha E1 E2 Hv1 Hv2 Hu1 Hu2. unfold pv_comp. rewrite (proj2 (Z.eqb_neq _ _) Hl). destruct (ops_ramp p1 Hp1) as (o1 & -> & I1 & G1 & S1 & _). destruct (ops_ramp p2 Hp2) as (o2 & -> & I2 & _ & _ & G2 & S2).
  rewrite I1, G1, S1, I2, G2, S2. destruct (comp_rail_ok p1 (cpu p1) t1 pll1 leak v1 s Hp1 ltac:(by intros ->) E1 Hv1 Hu1) as (s1 & -> & R1 & F1). cbn [mbind option_bind].
  assert (Ha' : apart p2 (core p2) p1 (cpu p1)) by (intros H Hu; apply (Ha (eq_sym H)); done).
  destruct (comp_rail_ok p2 (core p2) t2 pll2 leak v2 s1 Hp2 ltac:(by intros ->) E2 Hv2) as (s2 & -> & R2 & F2); [by rewrite (rail_frame _ _ _ _ _ _ Ha' F1)|]. cbn [mbind option_bind].
  exists s2. split; [done|]. split; [|done]. by rewrite (rail_frame _ _ _ _ _ _ Ha F2).
Qed.
End Reliable.

(** ** A bus in memory *)

#[export] Instance mem_bus : I2cBus (Z -> Z -> Z -> Z) := {|
  i2c_master_init _ b := b;
  i2c_master_write_and_read id addr send b :=
    match send with
    | [q; v] => (0, 0, fun i a x => if (i =? id) && (a =? addr) && (x =? q) then v else b i a x)
    | [q] => (0, u8 (b id addr q), b)
    | _ => (-1, 0, b)
    end |}.

#[export] Instance mem_reliable : ReliableI2c (Z -> Z -> Z -> Z).
Proof.
  refine {| reg b i a x := u8 (b i a x) |}.
  - intros. apply u8_range.
  - done.
  - intros. by eexists.
  - intros id addr q v b Hv. eexists _, _. split; [done|]. intros i a x. cbn. case_match; [by apply u8_id|done].
Defined.

(** ** MP8867 *)

Section Mp8867.
Context {B : Type} {bus : I2cBus B} {rel : ReliableI2c B} (id addr : Z).

Lemma reg_rd_ok q s : is_u8 q -> exists s', pmic_reg_rd id addr q s = (0, reg (dev s) id addr q, s') /\ same s s'.
Proof.
  intros Hq. unfold pmic_reg_rd. destruct (bus_read_ok id addr q (i2c_init id s) Hq) as (s' & E & H). exists s'. rewrite E, (proj2 (init_same id s)). split; [done|]. eapply regs_same_trans; [apply init_same|done].
Qed.

Lemma reg_wt_ok q v s : is_u8 q -> exists s', pmic_reg_wt id addr q v s = (0, s') /\ stored id addr q (u8 v) s s'.
Proof. intros Hq. unfold pmic_reg_wt. destruct (bus_write_ok id addr q v (i2c_init id s) Hq) as (s' & E & H). exists s'. split; [done|]. eapply same_stored; [apply init_same|done]. Qed.

Lemma go_cleared d : Z.land (u8 (Z.land d (u32 (Z.lnot 0x40)))) 0x40 = 0.
Proof. unfold u8. rewrite <- (Z.land_ones _ 8), <- !Z.land_assoc by lia. change (Z.land (u32 (Z.lnot 0x40)) (Z.land (Z.ones 8) 0x40)) with 0. apply Z.land_0_r. Qed.

Lemma change_vsel_ok n vsel s : 0 <= vsel < 128 -> exists s', mp8867_change_vsel (S n) id addr vsel s = Some (0, s') /\ reg (dev s') id addr 0 = vsel.
Proof.
  intros Hv. assert (U0 : is_u8 0) by (unfold is_u8; lia). assert (U1 : is_u8 1) by (unfold is_u8; lia). unfold mp8867_change_vsel. destruct (reg_rd_ok 1 s U1) as (s1 & -> & H1). cbn [Z.eqb negb].
  destruct (reg_wt_ok 1 (Z.lor (reg (dev s) id addr 1) 0x40) s1 U1) as (s2 & -> & H2). cbn [Z.eqb negb]. destruct (reg_wt_ok 0 (Z.land vsel 0x7f) s2 U0) as (s3 & -> & H3). cbn [Z.eqb negb].
  destruct (reg_rd_ok 1 s3 U1) as (s4 & -> & H4). cbn [Z.eqb negb]. destruct (reg_wt_ok 1 (Z.land (reg (dev s3) id addr 1) (u32 (Z.lnot 0x40))) s4 U1) as (s5 & -> & H5). cbn [Z.eqb negb wait_go].
  destruct (reg_rd_ok 1 s5 U1) as (s6 & -> & H6). cbn [Z.eqb negb]. rewrite (stored_reg _ _ _ _ _ _ H5), go_cleared. cbn [Z.eqb negb]. exists s6. split; [done|].
  rewrite (proj2 H6), (proj2 H5), !Z.eqb_refl. cbn [Z.eqb andb]. rewrite (proj2 H4), (stored_reg _ _ _ _ _ _ H3). change 127 with (Z.ones 7). rewrite (land_small 7 vsel) by (done || lia). apply u8_id. unfold is_u8. lia.
Qed.

Lemma mp8867_loop_ok m t : 0 <= t <= 45 -> forall n s, 0 <= reg (dev s) id addr 0 <= 45 -> Z.abs (t - reg (dev s) id addr 0) < Z.of_nat n ->
  exists s', mp886x_loop n (mp8867_change_vsel (S m) id addr) id addr (600 + 10 * t) s = Some (0, s') /\ reg (dev s') id addr 0 = t.
Proof.
  intros Ht. induction n as [|n IH]; intros s Hd Hn; [lia|]. cbn [mp886x_loop]. unfold mp886x_get_volt. destruct (reg_rd_ok 0 s ltac:(unfold is_u8; lia)) as (s1 & -> & H1). cbn [Z.eqb negb]. set (d := reg (dev s) id addr 0) in *.
  assert (Hbit : Z.land d 0x80 = 0) by (rewrite <- (land_small 7 d), <- Z.land_assoc by lia; apply Z.land_0_r).
  rewrite Hbit. cbn [Z.eqb negb]. unfold mp886x_data2vol. rewrite u32_id by (unfold is_u32; lia). set (cur := d * 10 + 600).
  assert (Hstep : forall d', 0 <= d' <= 45 -> Z.abs (t - d') < Z.of_nat n -> exists s', ('(_, s2) ← mp8867_change_vsel (S m) id addr (mp886x_vol2data (600 + 10 * d')) s1; mp886x_loop n (mp8867_change_vsel (S m) id addr) id addr (600 + 10 * t) s2) = Some (0, s') /\ reg (dev s') id addr 0 = t).
  { intros d' Hd' Hn'. assert (Ev : mp886x_vol2data (600 + 10 * d') = d') by (unfold mp886x_vol2data; rewrite !(proj2 (Z.leb_le _ _)) by lia; cbn [andb]; replace (600 + 10 * d' - 600) with (d' * 10) by lia; by apply Z.div_mul). rewrite Ev.
    destruct (change_vsel_ok m d' s1 ltac:(lia)) as (s2 & -> & R2). cbn [mbind option_bind]. apply IH; rewrite R2; lia. }
  destruct (decide (cur < 600 + 10 * t)) as [Hlt|Hge].
  { rewrite (proj2 (Z.ltb_lt _ _) Hlt). replace (5 <? 600 + 10 * t - cur) with true by lia. cbn [andb]. replace (cur + 10) with (600 + 10 * (d + 1)) by lia. apply Hstep; lia. }
  replace (cur <? 600 + 10 * t) with false by lia. cbn [andb]. destruct (decide (600 + 10 * t < cur)) as [Hgt|Heq].
  { rewrite (proj2 (Z.ltb_lt _ _) Hgt). replace (5 <? cur - (600 + 10 * t)) with true by lia. cbn [andb]. replace (cur - 10) with (600 + 10 * (d - 1)) by lia. apply Hstep; lia. }
  replace (600 + 10 * t <? cur) with false by lia. cbn [andb]. exists s1. split; [done|]. rewrite (proj2 H1). fold d. lia.
Qed.

(** On a bus that keeps what is written the MP8867 reaches the voltage asked for, to the
    next ten millivolts. *)
Lemma mp8867_reaches rounds vol s : (46 <= rounds)%nat -> 600000 <= vol < 1055000 -> 0 <= reg (dev s) id addr 0 <= 45 ->
  exists s', mp8867_set_vol rounds id addr vol s = Some (0, s') /\ mp886x_data2vol (reg (dev s') id addr 0) = round10 (vol / 1000).
Proof.
  intros Hr Hv Hd. unfold mp8867_set_vol. rewrite u32_id by (unfold is_u32; lia). assert (Hx : 600 <= vol / 1000 <= 1054) by (split; [apply Z.div_le_lower_bound|apply Z.lt_succ_r, Z.div_lt_upper_bound]; lia). set (x := vol / 1000) in *.
  assert (Ht : exists t, 0 <= t <= 45 /\ round10 x = 600 + 10 * t).
  { unfold round10. pose proof (Z.div_mod x 10 ltac:(lia)). pose proof (Z.mod_pos_bound x 10 ltac:(lia)). destruct (Z.leb_spec 5 (x mod 10)); [exists (x / 10 - 59)|exists (x / 10 - 60)]; lia. }
  destruct Ht as (t & Ht & ->). destruct rounds as [|m]; [lia|]. destruct (mp8867_loop_ok m t Ht (S m) s Hd) as (s' & -> & R); [lia|]. exists s'. split; [done|]. rewrite R. unfold mp886x_data2vol. rewrite u32_id by (unfold is_u32; lia). lia.
Qed.
End Mp8867.

(** ** Where the drivers go wrong *)

(** The M88PG86X is told 175 millivolts more than it was asked for: both
    pmic_volt2data() and diag_i2c_volt_control() add the code of the lowest voltage. *)
Lemma m88pg86x_overvolts {B} {bus : I2cBus B} id v (s : pst B) : 900000 <= v <= 1600000 -> (v - 900000) mod 25000 = 0 -> exists r s' d, m88pg86x_set_vol id v s = (r, s') /\ log s' = log s ++ [I2cWrite id 0x19 0x24 d] /\ decode M88PG86X d = v + 175000.
Proof.
  intros Hv Hm. unfold m88pg86x_set_vol, m88pg86x_pmic_volt2data. replace ((v <? 900000) || (1600000 <? v)) with false by (symmetry; apply orb_false_intro; lia). rewrite Hm. cbn [Z.eqb negb]. unfold diag_i2c_volt_control.
  destruct (checked_write 1 id 0x19 0x24 _ _) as [r s'] eqn:E. apply checked_log in E. rewrite init_log in E. eexists r, s', _. split; [done|]. split; [exact E|]. cbn [decode].
  pose proof (Z.div_mod (v - 900000) 25000 ltac:(lia)). assert (0 <= (v - 900000) / 25000 < 29) by (split; [apply Z.div_pos|apply Z.div_lt_upper_bound]; lia). rewrite u8_id by (unfold is_u8; lia). lia.
Qed.

(** The HL7593 has seven bits for the voltage and hl7593_pmic_data2volt() takes six: at
    1.1 V the driver reads 0.7 V, and on the way to 1.0 V the first thing that the
    regulator is told is 706.25 millivolts. *)
Lemma hl7593_misread (b := fun _ _ x => if x =? 1 then 0x80 + 80 else 0) (s := mk_pst b (fun _ => 0) []) : rail HL7593WL06 2 s = 1100000 /\ fst (hl7593_get_vol 2 0x61 s) = 700000 /\
  (s' ← pv_comp 2 0 3 2 0 HL7593WL06 PMIC_UNKNOW 5 (Some [(1800, Some [(0xffff, 1000000)]); (0, None)]) None 1500 0 s; list.head (voltages HL7593WL06 2 (log s'))) = Some 706250.
Proof. vm_compute. done. Qed.

(** A bus on which nothing answers. *)
Definition dead_bus : I2cBus unit := {| i2c_master_init _ b := b; i2c_master_write_and_read _ _ _ b := (-1, 0, b) |}.

(** The MP8867 is tried for ever then: the result of the change is not looked at. *)
Lemma mp8867_tries_for_ever rounds id addr (s : pst unit) : mp8867_set_vol (bus := dead_bus) rounds id addr 900000 s = None.
Proof.
  unfold mp8867_set_vol. change (round10 (u32 900000 / 1000)) with 900. assert (H : forall n m (s : pst unit), mp886x_loop (bus := dead_bus) n (mp8867_change_vsel (bus := dead_bus) m id addr) id addr 900 s = None); [|apply H].
  induction n as [|n IH]; intros m s0; [done|]. cbn. apply IH.
Qed.

(** ** Witnesses *)

Definition w_bus : Z -> Z -> Z -> Z := fun _ _ _ => 0x8a.
Definition w_pst : pst (Z -> Z -> Z -> Z) := mk_pst w_bus (fun _ => 500) [].

Lemma voltage_moves_in_steps_witness : exists r s' vs, set_vcpu_volt (sy8824b_ops 2 0) 887500 930000 w_pst = Some (r, s') /\ (r = 0 \/ r = 1) /\
  (forall u, voltages SY8824B u (log s') = [] ++ (if u =? 2 then map (grid SY8824B) vs else [])) /\
  Forall (between 887500 930000) vs /\ Forall (in_range SY8824B) vs /\ chain 12500 887500 vs /\ (r = 0 -> default 887500 (list.last vs) = 930000).
Proof. apply (voltage_moves_in_steps 2 0 3 2 0 SY8824B (sy8824b_ops 2 0) 887500 930000 w_pst); [done|done|lia|lia]. Defined.

Definition w_table (v : Z) : option leakage_tables := Some [(1800, Some [(100, v); (0xffff, v - 50000)]); (0, None)].

Lemma rails_compensated_witness : exists s', pv_comp 2 0 3 2 0 SY8824B FP6359 120 (w_table 950000) (w_table 850000) 1500 1800 w_pst = Some s' /\ rail SY8824B 2 s' = 900000 /\ rail FP6359 2 s' = 800272.
Proof.
  apply (rails_compensated 2 0 3 2 0 SY8824B FP6359 120 (w_table 950000) (w_table 850000) 1500 1800 900000 800000 w_pst); [done|done|unfold MAX_PWM_CH; lia|unfold MAX_PWM_CH; lia|lia|unfold apart; by rewrite bool_decide_eq_false_2, bool_decide_eq_true_2 by done|reflexivity|reflexivity|unfold in_range; cbn; lia|unfold in_range; cbn; lia| |];
    (split; [vm_compute; split; discriminate|discriminate]).
Defined.
